(* ===== verification/_CoqProject ===== *)
-Q . S2P
Prelude.v
StateMonad.v
Text.v
GoStd.v
GoTime.v
GoURL.v
Crypto.v
PlatformID.v
Storage.v
Base64.v
Ordering.v
Framing.v
ArtifactIdentity.v
BuildIR.v
Redactor.v
ClientHello.v
CanonicalJSON.v
NetAddr.v
AddrText.v
GoNet.v
OCIArtifact.v
LLBPolicy.v
EgressPolicy.v
EgressProxy.v
LLBAudit.v
Replay.v
Assignment.v
BuildWorker.v
RunStore.v
BuildRequest.v
BrokerStore.v
BrokerKeys.v
BrokerSpec.v
BrokerRefinement.v
BrokerHistory.v
Orchestrator.v
OrchestratorLaws.v
Broker.v
BrokerLaws.v
BrokerRuns.v
BrokerExample.v
RunStoreLaws.v
RunHistory.v
Controller.v
Executor.v
ExecutorLaws.v
ControllerLaws.v
ControllerRun.v
Meter.v
TargetBundle.v
EdgeCompiler.v
Domain.v
NetPolicy.v
