(* ===== verification/Prelude.v ===== *)
(** * Lrail verification library

    A model of the Go services of the Lrail repository and proofs about it.  All
    paths below are relative to src/; [build-plane] is services/build-plane.

    ** The program

    Lrail builds customers' sources and runs the results.  A build passes through these
    parts, each of which distrusts the one before.

    - The build service (build-plane/internal/buildorchestrator) takes a request,
      records it durably (broker_store.go), keeps it running over restarts (broker.go),
      and for one build generation materializes the source, detects and compiles it,
      signs one assignment and hands it to a build cell (orchestrator.go).
    - The compiler turns a Build IR (buildir) into BuildKit definitions under a policy;
      the capabilities a build may use are fixed in a definition lock (llbcompiler).
    - The build cell verifies an assignment (buildcell/assignment.go), refuses replays
      (buildcell/replay*.go) and audits the definitions against the lock
      (llbcompiler/audit.go).
    - The controller of the cell (buildcontrol) owns a durable run record, acquires a
      capability lease, allocates a worker, and gives both back whatever happens.
    - The worker (buildworker) solves the definitions with BuildKit, redacts the logs,
      identifies what was exported and commits it.
    - The egress proxy (buildegress) lets a worker reach only what the lock grants.
    - Around the builds: the regional control plane accepts signed target bundles
      (services/regional-control/internal/targetbundle), the edge control plane compiles
      routes into generations (services/edge-control/internal/compiler), domains are
      canonicalized and challenged (services/dns-certificate/internal/domain), usage is
      metered (services/telemetry/internal/meter), and outgoing calls are checked and
      pinned (internal/netpolicy).

    Identifiers (internal/platformid) and canonical JSON (internal/canonicaljson) are
    used by all of them.

    ** Conventions

    A Go function is a Rocq function.  A function that returns an error returns
    [result], whose errors keep the sentinel and the format text.  Integers are [Z];
    where the source can overflow, [u32], [u64] and [i64] of this file wrap them.
    Strings are byte strings, instants are nanoseconds in [Z], maps are [gmap], and a
    slice is a list.  Code that only transforms values is a function; code that calls
    others is a program of StateMonad.v over a state that has a trace of the calls, and
    what others answer comes from an environment record of oracles, so a theorem about
    the program holds for all answers, faults included.

    Third-party code (encoding/json, bbolt, BuildKit's wire format, Ed25519, net/url,
    the OCI decoders, Unicode tables) is a type class whose laws are its documented
    behaviour; each class has a concrete instance the witnesses run on.

    ** Files

    - Prelude.v: results, contexts, machine integers, sorting, automation.
      StateMonad.v: programs, weakest preconditions, protocols as automata.
    - Text.v, Base64.v, GoStd.v, GoTime.v, GoURL.v, NetAddr.v, AddrText.v, GoNet.v,
      Crypto.v, Framing.v: what the sources use of the Go library, SHA-256 and base64
      included.  Ordering.v: lawful comparison functions and sorting with them.
      Storage.v: files, bbolt and codecs with their faults.
    - PlatformID.v: internal/platformid/id.go.  CanonicalJSON.v:
      internal/canonicaljson, with the scanner and encoder of encoding/json.
    - BuildIR.v: buildir/buildir.go.  LLBPolicy.v: llbcompiler/policy.go,
      capabilities.go, types.go.  LLBAudit.v: llbcompiler/audit.go.
    - Assignment.v: buildcell/assignment.go, codec.go.  Replay.v: buildcell/replay.go,
      replay_file.go, replay_bolt.go; [ReplayStore] is what a store promises.
    - BuildWorker.v: buildworker/types.go, cleanup.go.  Redactor.v: redactor.go.
      OCIArtifact.v: oci.go.  ArtifactIdentity.v: the directory and file digests.
      Executor.v: executor.go and quota.go; ExecutorLaws.v: its theorems.
    - RunStore.v: buildcontrol/types.go, store_memory.go, store_file.go, store_bolt.go;
      RunStoreLaws.v: the three stores serve one interface; RunHistory.v: histories of
      calls.  Controller.v: controller.go; ControllerLaws.v: its calculus and protocol;
      ControllerRun.v: its theorems.
    - EgressPolicy.v: buildegress/policy.go, certificate.go.  ClientHello.v:
      clienthello.go.  EgressProxy.v: proxy.go.
    - BuildRequest.v: buildorchestrator/types.go.  BrokerStore.v: broker_store.go, one
      function per transaction; BrokerSpec.v: the abstract store; BrokerKeys.v and
      BrokerRefinement.v: the refinement; BrokerHistory.v: histories of calls.
      Orchestrator.v: orchestrator.go, dispatcher_grpc.go; OrchestratorLaws.v: its laws.
      Broker.v: broker.go; BrokerLaws.v: its laws against the class [Serves] of runners;
      BrokerRuns.v: what the three give together; BrokerExample.v: a concrete build.
    - Meter.v: meter/meter.go.  TargetBundle.v: targetbundle/bundle.go.
      EdgeCompiler.v: compiler/compiler.go.  Domain.v: domain/domain.go.  NetPolicy.v:
      netpolicy/destination.go.

    ** What the theorems show

    - End to end: an execution that a cell starts has operations granted by a signed
      lock ([Assignment.executions_confined], [ExecutorLaws.solves_signed_definitions]);
      a success of the controller has signed outputs, evidence and proven cleanups
      ([ControllerRun.run_success_proven]); the controller accepts what the worker
      delivers ([ExecutorLaws.worker_success_accepted]); a connection through the proxy
      goes to what the lock grants ([EgressProxy.egress_confined_to_lock]).
    - Protocols: whatever fails, leases, workers, secrets, cache leases and connections
      are given back ([ControllerRun.run_gives_back], [ExecutorLaws.execution_settled],
      [EgressProxy.connect_settled]).
    - Durable state: over any history of calls and faults an assignment is accepted
      once, a lease excludes other owners, finished builds stay finished, logs have no
      gaps, usage is counted once and the generations of an environment form a chain
      ([Replay.replay_at_most_once], [RunHistory.lease_exclusive],
      [RunHistory.terminal_durable], [BrokerHistory.broker_log_durable],
      [Meter.metered_once], [TargetBundle.generations_chain]).  The file and bbolt stores are shown to
      refine an abstract store.
    - Progress: while the store answers, an execution of the broker leaves its run
      terminal, being canceled or with a full log, and a cancellation settles its run or
      is accepted by the cell ([BrokerRuns.execute_settles],
      [BrokerRuns.cancellation_settles]).
    - Ownership: a hostname has one owner, a challenge is used once by its token, and an
      allowed destination is pinned to public addresses
      ([EdgeCompiler.hostnames_owned], [Domain.challenge_single_use],
      [NetPolicy.destination_pinned]).
    - A claim that rests on SHA-256 or HMAC names the two texts that would have to
      collide ([Crypto.collide]); it never assumes that there is no collision.
    - Validators and parsers: what they accept, exactly where possible, that they
      terminate and stay in bounds, and round trips of the encoders.

    ** Bounds and fuel

    Recursion is structural or on a number that bounds it: the scanner of JSON and the
    ClientHello parser on the length of the input, the graph walk of the audit on the
    number of operations, the retries on the attempts of the options; for each the
    theorems show that the bound is never what ends it.  A loop that waits for events
    (the heartbeat, the ticker of a cancellation, a watcher) takes the number of times
    it is woken as an argument and the theorems hold for every number.

    ** Not modelled

    - Programs under cmd/, HTTP and gRPC servers and clients, Kubernetes, object storage,
      registry, OpenBao and cosign clients (buildkube, buildregistry, buildcontent,
      buildcap, buildsigning, buildsupply, buildtransport, the source plane): they move data to services
      whose behaviour is outside the repository.  What the modelled code relies on
      appears as answers of environments.
    - The build language (dsl) is executed by the Starlark interpreter, and
      llbcompiler/compiler.go drives BuildKit's client library; both are libraries.
    - File system work of the worker (materializer.go, scrubbers, cache directories) and
      the residue agent; the DNS resolver and the forwarder of buildegress.
    - The Rails application, the TypeScript packages, the generated code and the
      deployment manifests, which are not Go services.
*)

From stdpp Require Export base gmap strings list sorting.
From Stdlib Require Export ZArith Lia.

#[global] Set Default Proof Using "Type".

Declare Scope go_scope.
Delimit Scope go_scope with go.

(** ** Errors and results

    A Go [error] built by [fmt.Errorf("%w: ...", sentinel)] is kept as its
    sentinel and its format text.  A function returning [(T, error)] returns
    [result T]. *)

Record error := Error { sentinel : string; detail : string }.

Inductive result (A : Type) : Type :=
| Ok (a : A)
| Err (e : error).
Arguments Ok {A} a.
Arguments Err {A} e.

Definition is_ok {A} (r : result A) : bool :=
  match r with Ok _ => true | Err _ => false end.

Definition is_err {A} (r : result A) : bool := negb (is_ok r).

Definition bind_result {A B} (r : result A) (k : A → result B) : result B :=
  match r with Ok a => k a | Err e => Err e end.

Notation "'let*' x := m 'in' k" := (bind_result m (fun x => k))
  (at level 10, x pattern, m at level 200, k at level 200,
   format "'[v' 'let*'  x  :=  m  'in' '/' k ']'") : go_scope.

Open Scope go_scope.

(** A loop that collects the results and stops at the first error. *)
Fixpoint map_result {A B} (f : A → result B) (l : list A) : result (list B) :=
  match l with
  | [] => Ok []
  | x :: rest => let* y := f x in let* ys := map_result f rest in Ok (y :: ys)
  end.

(** [for _, x := range xs { if err := f(x); err != nil { return err } }] *)
Fixpoint each {A} (f : A → result unit) (xs : list A) : result unit :=
  match xs with
  | [] => Ok tt
  | x :: xs' => bind_result (f x) (fun _ => each f xs')
  end.

(** The same loop with a local variable [acc] the body updates. *)
Fixpoint fold_result {A S} (f : S → A → result S) (acc : S) (xs : list A) : result S :=
  match xs with
  | [] => Ok acc
  | x :: xs' => bind_result (f acc x) (fun acc' => fold_result f acc' xs')
  end.

(** [ctx.Err()]: [None] while the context is live. *)
Abbreviation Ctx := (option error) (only parsing).

(** A boolean test of every entry of a Go map, whatever the iteration order. *)
Definition map_forallb {V} (f : string → V → bool) (m : gmap string V) : bool :=
  forallb (fun kv => f kv.1 kv.2) (map_to_list m).

(** ** Machine integers *)

Definition u8 (z : Z) : Z := z mod 2 ^ 8.
Definition u16 (z : Z) : Z := z mod 2 ^ 16.
Definition u32 (z : Z) : Z := z mod 2 ^ 32.
Definition u64 (z : Z) : Z := z mod 2 ^ 64.
Definition i64 (z : Z) : Z := (z + 2 ^ 63) mod 2 ^ 64 - 2 ^ 63.

Definition is_u16 (z : Z) : Prop := (0 ≤ z < 2 ^ 16)%Z.
Definition is_u32 (z : Z) : Prop := (0 ≤ z < 2 ^ 32)%Z.
Definition is_u64 (z : Z) : Prop := (0 ≤ z < 2 ^ 64)%Z.

(** ** Time

    [time.Time] is an instant: nanoseconds since the zero [Time]
    (0001-01-01T00:00:00Z), so [IsZero] is [t = 0] and [UTC] is the identity.
    [Add] does not overflow on the instants a 64-bit second count can hold;
    [Sub] saturates at the int64 duration bounds, as in package time. *)

Abbreviation Time := Z (only parsing).
Abbreviation Duration := Z (only parsing).

Definition Second : Duration := 1000000000%Z.
Definition Millisecond : Duration := 1000000%Z.
Definition Minute : Duration := (60 * Second)%Z.
Definition Hour : Duration := (60 * Minute)%Z.

Definition IsZero (t : Time) : bool := (t =? 0)%Z.
Definition After (t u : Time) : bool := (u <? t)%Z.
Definition Before (t u : Time) : bool := (t <? u)%Z.
Definition Add (t : Time) (d : Duration) : Time := (t + d)%Z.
Definition Sub (t u : Time) : Duration := Z.max (- 2 ^ 63) (Z.min (2 ^ 63 - 1) (t - u)).

(** Seconds between the zero [Time] and the Unix epoch. *)
Definition unixToInternal : Z := 62135596800%Z.
Definition UnixMilli (t : Time) : Z := ((t - unixToInternal * Second) / Millisecond)%Z.
Definition FromUnixMilli (ms : Z) : Time := (ms * Millisecond + unixToInternal * Second)%Z.

(** ** Boolean reflection

    The conditions of the source are kept as [bool]s; [go_bool] turns a
    hypothesis about one into the propositions it decides. *)

Create HintDb go_bool.
Create Rewrite HintDb go_bool.

Lemma is_err_false {A} (r : result A) : is_err r = false ↔ ∃ a, r = Ok a.
Proof. destruct r; unfold is_err; simpl; split; naive_solver. Qed.

Lemma is_err_true {A} (r : result A) : is_err r = true ↔ ∃ e, r = Err e.
Proof. destruct r; unfold is_err; simpl; split; naive_solver. Qed.

Lemma not_true_eq_false (b : bool) : b ≠ true ↔ b = false.
Proof. destruct b; naive_solver. Qed.

Lemma not_false_eq_true (b : bool) : b ≠ false ↔ b = true.
Proof. destruct b; naive_solver. Qed.

#[export] Hint Rewrite orb_true_iff orb_false_iff andb_true_iff andb_false_iff
  negb_true_iff negb_false_iff String.eqb_eq String.eqb_neq
  Z.eqb_eq Z.eqb_neq Z.ltb_lt Z.ltb_ge Z.leb_le Z.leb_gt
  Nat.eqb_eq Nat.eqb_neq Nat.ltb_lt Nat.ltb_ge Nat.leb_le Nat.leb_gt
  not_true_eq_false not_false_eq_true
  @is_err_false @is_err_true : go_bool.

(** Turn every boolean hypothesis into propositions and split conjunctions. *)
Ltac bsimpl :=
  repeat (autorewrite with go_bool in *; destruct_and?; simplify_eq).

(** Follow a successful run: case every test in [H : body = Ok _] and drop the
    branches that return an error. *)
Ltac run_ok H :=
  repeat
    (cbn [bind_result] in H;
     match type of H with
     | Err _ = Ok _ => discriminate H
     | Ok _ = Err _ => discriminate H
     | Ok _ = Ok _ => injection H as H; try subst
     | context [if ?b then _ else _] =>
         lazymatch b with
         | context [if _ then _ else _] => fail
         | context [match _ with _ => _ end] => fail
         | _ => let E := fresh "Hif" in destruct b eqn:E; try discriminate H
         end
     | context [bind_result ?m _] =>
         lazymatch m with
         | context [bind_result _ _] => fail
         | _ => let E := fresh "Hbind" in destruct m eqn:E; try discriminate H
         end
     | context [match ?m with _ => _ end] =>
         lazymatch m with
         | context [match _ with _ => _ end] => fail
         | _ => let E := fresh "Hm" in destruct m eqn:E; try discriminate H
         end
     end).

(** The next test of [H : (if b then Err _ else _) = Ok _] was passed. *)
Ltac passed H E :=
  cbv zeta in H; match type of H with (if ?b then _ else _) = _ => destruct b eqn:E; [done|] end.

(** ** Results *)

Lemma bind_result_Ok {A B} (m : result A) (k : A → result B) b :
  bind_result m k = Ok b ↔ ∃ a, m = Ok a ∧ k a = Ok b.
Proof. destruct m; simpl; naive_solver. Qed.

Lemma map_result_Forall2 {A B} (f : A → result B) xs ys :
  map_result f xs = Ok ys → Forall2 (fun x y => f x = Ok y) xs ys.
Proof.
  revert ys. induction xs as [|x xs IH]; intros ys Hm; simpl in Hm; [simplify_eq; constructor|].
  destruct (f x) eqn:Hf; [|done]. simpl in Hm. destruct (map_result f xs) eqn:Hr; [|done]. simplify_eq/=.
  constructor; auto.
Qed.

Lemma each_Ok {A} (f : A → result unit) xs :
  each f xs = Ok tt ↔ Forall (fun x => f x = Ok tt) xs.
Proof.
  induction xs as [|x xs IH]; simpl; [split; auto|].
  rewrite bind_result_Ok, Forall_cons, <- IH. split.
  - intros ([] & ? & ?); auto.
  - intros []; eauto.
Qed.

Lemma each_ok_unit {A} (f : A → result unit) xs u :
  each f xs = Ok u → Forall (fun x => f x = Ok tt) xs.
Proof. destruct u; apply each_Ok. Qed.

Lemma fold_result_app {A S} (f : S → A → result S) acc xs ys :
  fold_result f acc (xs ++ ys) =
  bind_result (fold_result f acc xs) (fun acc' => fold_result f acc' ys).
Proof.
  revert acc; induction xs as [|x xs IH]; intros acc; simpl; [done|].
  destruct (f acc x); simpl; auto.
Qed.

(** An invariant of the accumulator, indexed by the elements already seen. *)
Lemma fold_result_invariant {A S} (f : S → A → result S) (P : list A → S → Prop) xs acc acc' :
  P [] acc →
  (∀ seen x s s', P seen s → f s x = Ok s' → P (seen ++ [x]) s') →
  fold_result f acc xs = Ok acc' → P xs acc'.
Proof.
  intros H0 Hstep. cut (∀ seen ys a, P seen a → fold_result f a ys = Ok acc' → P (seen ++ ys) acc').
  { intros Hgen. apply (Hgen [] xs acc H0). }
  intros seen ys; revert seen; induction ys as [|y ys IH]; simpl; intros seen a Ha Hrun.
  - simplify_eq. by rewrite app_nil_r.
  - apply bind_result_Ok in Hrun as (a' & Hf & Hrun).
    rewrite cons_middle, app_assoc. eapply IH; eauto.
Qed.

(** Every element a successful loop visits passes the loop's own check. *)
Lemma fold_result_Forall {A S} (f : S → A → result S) (Q : A → Prop) xs acc acc' :
  (∀ s x s', f s x = Ok s' → Q x) →
  fold_result f acc xs = Ok acc' → Forall Q xs.
Proof.
  intros Hstep. apply (fold_result_invariant f (fun seen _ => Forall Q seen)); [constructor|].
  intros. apply Forall_app; split; [done|]. constructor; [eauto|constructor].
Qed.

(** Running a call on concrete data only has to evaluate its answer. *)
Lemma answer_of {A B} (p : A * B) (b : B) : p.2 = b → p = (p.1, b).
Proof. destruct p; simpl; congruence. Qed.

(** ** Maps *)

Lemma map_forallb_true {V} (f : string → V → bool) (m : gmap string V) :
  map_forallb f m = true ↔ ∀ k v, m !! k = Some v → f k v = true.
Proof.
  unfold map_forallb. rewrite forallb_forall. split.
  - intros Hall k v Hk. apply (Hall (k, v)).
    apply list_elem_of_In. by apply elem_of_map_to_list.
  - intros Hall [k v] Hin. apply Hall. apply elem_of_map_to_list. by apply list_elem_of_In.
Qed.

Lemma map_forallb_insert {V} (f : string → V → bool) (m : gmap string V) k v :
  map_forallb f m = true → f k v = true → map_forallb f (<[k:=v]> m) = true.
Proof.
  rewrite !map_forallb_true. intros Hm Hk k' v'. rewrite lookup_insert.
  case_decide; naive_solver.
Qed.

#[export] Hint Rewrite @map_forallb_true : go_bool.

Lemma size_insert_le `{Countable K} {V} (m : gmap K V) k v : (size (<[k:=v]> m) ≤ S (size m))%nat.
Proof. rewrite map_size_insert. case_match; simpl; lia. Qed.

(** ** Integers *)

Lemma u64_small z : is_u64 z → u64 z = z.
Proof. apply Z.mod_small. Qed.

Lemma u32_small z : is_u32 z → u32 z = z.
Proof. apply Z.mod_small. Qed.

Lemma u32_range z : is_u32 (u32 z).
Proof. unfold is_u32, u32. apply Z.mod_pos_bound. lia. Qed.

Lemma u64_range z : is_u64 (u64 z).
Proof. unfold is_u64, u64. apply Z.mod_pos_bound. lia. Qed.

Lemma i64_small z : (- 2 ^ 63 ≤ z < 2 ^ 63)%Z → i64 z = z.
Proof. intros. unfold i64. rewrite Z.mod_small; lia. Qed.

Lemma Sub_le (t u : Time) (d : Duration) :
  (0 ≤ d < 2 ^ 63 - 1)%Z → (Sub t u ≤ d ↔ t - u ≤ d)%Z.
Proof. unfold Sub. lia. Qed.

Lemma UnixMilli_FromUnixMilli ms : UnixMilli (FromUnixMilli ms) = ms.
Proof. unfold UnixMilli, FromUnixMilli, unixToInternal, Second, Millisecond. 
  rewrite Z.add_simpl_r. apply Z.div_mul. lia. Qed.

(** ** Stable sorting by a comparison function

    [slices.SortStableFunc] and [slices.SortFunc] return a permutation sorted by
    [cmp]; a stable sort keeps the order of elements [cmp] calls equal.  The
    sort here is the stable insertion sort; [sort_unique] shows that on elements
    a lawful [cmp] tells apart every algorithm returns this same list. *)

Section SortFunc.
Context {A : Type} (cmp : A → A → Z).

Fixpoint insert_by (x : A) (l : list A) : list A :=
  match l with
  | [] => [x]
  | y :: l' => if (cmp x y <=? 0)%Z then x :: l else y :: insert_by x l'
  end.

Fixpoint SortStableFunc (l : list A) : list A :=
  match l with
  | [] => []
  | x :: l' => insert_by x (SortStableFunc l')
  end.

Definition le_by (x y : A) : Prop := (cmp x y ≤ 0)%Z.

Lemma insert_by_perm x l : insert_by x l ≡ₚ x :: l.
Proof.
  induction l as [|y l IH]; simpl; [done|]. case_match; [done|].
  rewrite IH. apply Permutation_swap.
Qed.

Lemma SortStableFunc_perm l : SortStableFunc l ≡ₚ l.
Proof. induction l as [|x l IH]; simpl; [done|]. by rewrite insert_by_perm, IH. Qed.

(** [D] is the domain on which [cmp] is a lawful comparison. *)
Context (D : A → Prop).
Context (cmp_total : ∀ x y, D x → D y → (cmp x y ≤ 0 ∨ cmp y x ≤ 0)%Z).
Context (cmp_trans : ∀ x y z, D x → D y → D z → (cmp x y ≤ 0 → cmp y z ≤ 0 → cmp x z ≤ 0)%Z).

Lemma insert_by_sorted x l :
  D x → Forall D l → StronglySorted le_by l → StronglySorted le_by (insert_by x l).
Proof using cmp_total cmp_trans.
  intros Hx. induction l as [|y l IH]; simpl; intros HD Hs.
  { repeat constructor. }
  apply Forall_cons in HD as [Hy HD]. apply StronglySorted_inv in Hs as [Hs Hall].
  case_match eqn:E; bsimpl.
  - constructor; [by constructor|]. constructor; [done|].
    rewrite Forall_forall in Hall, HD |- *. intros z Hz. unfold le_by in *.
    apply (cmp_trans x y z); auto.
  - constructor; [auto|]. rewrite insert_by_perm. constructor; [|done].
    unfold le_by. destruct (cmp_total x y); auto; lia.
Qed.

Lemma SortStableFunc_sorted l :
  Forall D l → StronglySorted le_by (SortStableFunc l).
Proof using cmp_total cmp_trans.
  induction l as [|x l IH]; simpl; intros HD; [constructor|].
  apply Forall_cons in HD as [Hx HD]. apply insert_by_sorted; auto.
  by rewrite SortStableFunc_perm.
Qed.

(** Two sorted permutations are equal when [cmp] separates distinct elements. *)
Lemma sort_unique l1 l2 :
  (∀ x y, x ∈ l1 → y ∈ l1 → (cmp x y ≤ 0 → cmp y x ≤ 0 → x = y)%Z) →
  l1 ≡ₚ l2 → StronglySorted le_by l1 → StronglySorted le_by l2 → l1 = l2.
Proof.
  revert l2. induction l1 as [|x l1 IH]; intros l2 Hsep Hp Hs1 Hs2.
  { symmetry in Hp. by apply Permutation_nil_r in Hp. }
  destruct l2 as [|y l2]; [by apply Permutation_nil_r in Hp|].
  apply StronglySorted_inv in Hs1 as [Hs1 Ha1]. apply StronglySorted_inv in Hs2 as [Hs2 Ha2].
  assert (x = y) as ->.
  { rewrite Forall_forall in Ha1, Ha2.
    assert (x ∈ y :: l2) as Hx by (rewrite <- Hp; left).
    assert (y ∈ x :: l1) as Hy by (rewrite Hp; left).
    apply elem_of_cons in Hx as [?|Hx]; [done|].
    apply elem_of_cons in Hy as [?|Hy]; [done|].
    apply Hsep; [left|by right|apply (Ha1 _ Hy)|apply (Ha2 _ Hx)]. }
  f_equal. apply IH; auto; [|by apply Permutation_cons_inv in Hp].
  intros. apply Hsep; auto; by right.
Qed.

End SortFunc.
