(* ===== verification/StateMonad.v ===== *)
(** * Programs with state, and the calls they make

    The controller, the worker and the broker are programs over a state that holds
    what they own, with a trace of the calls they make.  This file has what their
    proofs share: the state monad, its weakest preconditions, programs that preserve a
    relation, and protocols as automata that read a trace. *)

From S2P Require Import Prelude.

Module StateMonad.

Create HintDb preserves.

(** ** Programs *)

Definition program (S A : Type) : Type := S → S * A.

#[export] Instance program_ret {S} : MRet (program S) := fun A a s => (s, a).
#[export] Instance program_bind {S} : MBind (program S) := fun A B k m s => let '(s1, a) := m s in k a s1.

Section Program.
Context {S : Type}.

Definition state {A} (f : S → S * A) : program S A := f.
Definition get {A} (f : S → A) : program S A := fun s => (s, f s).
Definition modify (f : S → S) : program S unit := fun s => (f s, tt).

(** A call that fails ends the caller with its error. *)
Definition try {A B} (m : program S (result A)) (k : A → program S (result B)) : program S (result B) :=
  r ← m; match r with Ok a => k a | Err e => mret (Err e) end.

(** ** Weakest preconditions *)

Definition wp {A} (m : program S A) (Q : A → S → Prop) (s : S) : Prop := Q (m s).2 (m s).1.

Lemma wp_ret {A} (a : A) (Q : A → S → Prop) s : Q a s → wp (mret a) Q s.
Proof. done. Qed.

Lemma wp_bind {A B} (m : program S A) (k : A → program S B) Q s : wp m (fun a => wp (k a) Q) s → wp (m ≫= k) Q s.
Proof. unfold wp, mbind, program_bind. by destruct (m s). Qed.

Lemma wp_try {A B} (m : program S (result A)) (k : A → program S (result B)) Q s :
  wp m (fun r s' => match r with Ok a => wp (k a) Q s' | Err e => Q (Err e) s' end) s → wp (try m k) Q s.
Proof. intros Hm. unfold try. apply wp_bind. unfold wp in *. by destruct (m s) as [s' [a|e]]. Qed.

Lemma wp_mono {A} (m : program S A) (P Q : A → S → Prop) s : wp m P s → (∀ a s', P a s' → Q a s') → wp m Q s.
Proof. unfold wp. eauto. Qed.

Lemma wp_state {A} (f : S → S * A) (Q : A → S → Prop) s : Q (f s).2 (f s).1 → wp (state f) Q s.
Proof. done. Qed.

Lemma wp_get {A} (f : S → A) (Q : A → S → Prop) s : Q (f s) s → wp (get f) Q s.
Proof. done. Qed.

Lemma wp_modify f (Q : unit → S → Prop) s : Q tt (f s) → wp (modify f) Q s.
Proof. done. Qed.

(** ** Programs that preserve a relation *)

Section Preserves.
Context (R : relation S) `{!PreOrder R}.

Definition preserves {A} (m : program S A) : Prop := ∀ s, R s (m s).1.

Lemma preserves_ret {A} (a : A) : preserves (mret a).
Proof using PreOrder0. intros s. reflexivity. Qed.

Lemma preserves_get {A} (f : S → A) : preserves (get f).
Proof using PreOrder0. intros s. reflexivity. Qed.

Lemma preserves_bind {A B} (m : program S A) (k : A → program S B) : preserves m → (∀ a, preserves (k a)) → preserves (m ≫= k).
Proof using PreOrder0.
  intros Hm Hk s. unfold mbind, program_bind. specialize (Hm s). destruct (m s) as [s1 a]. etransitivity; [exact Hm|]. apply Hk.
Qed.

Lemma wp_preserves {A} (m : program S A) Q s : preserves m → (∀ a s', R s s' → Q a s') → wp m Q s.
Proof. intros Hm HQ. apply HQ, Hm. Qed.

End Preserves.

End Program.

(** ** Protocols

    [advance] is one call in a session; [None] is a call out of order. *)

Section Protocol.
Context {session action : Type} (advance : session → action → option session).

Fixpoint session_run (st : session) (trace : list action) : option session :=
  match trace with
  | [] => Some st
  | a :: trace' => match advance st a with Some st' => session_run st' trace' | None => None end
  end.

Lemma session_run_app st t1 t2 :
  session_run st (t1 ++ t2) = match session_run st t1 with Some st' => session_run st' t2 | None => None end.
Proof. revert st. induction t1 as [|a t1 IH]; intros st; [done|]. simpl. by destruct (advance st a). Qed.

Lemma session_run_snoc st t st' a st'' : session_run st t = Some st' → advance st' a = Some st'' → session_run st (t ++ [a]) = Some st''.
Proof. intros Ht Ha. rewrite session_run_app, Ht. simpl. by rewrite Ha. Qed.

(** The calls of a trace of one sort. *)
Definition count (p : action → bool) (trace : list action) : nat := length (List.filter p trace).

Lemma count_cons p a trace : count p (a :: trace) = ((if p a then 1 else 0) + count p trace)%nat.
Proof. unfold count. simpl. by destruct (p a). Qed.

Lemma count_app p t1 t2 : count p (t1 ++ t2) = (count p t1 + count p t2)%nat.
Proof. unfold count. by rewrite List.filter_app, length_app. Qed.

End Protocol.

#[export] Hint Resolve preserves_ret preserves_get : preserves.

End StateMonad.
