(* ===== verification/Text.v ===== *)
(** * Go strings

    The parts of packages strings, regexp, encoding/hex and strconv the
    components use, on Go strings as byte sequences ([string] of 8-bit
    [ascii]).  Case folding and space trimming of text that is not ASCII follow
    the Unicode tables of the Go runtime; they are the two fields of [GoText],
    and every theorem holds for any choice of them. *)

From S2P Require Import Prelude.

From Stdlib Require Export Ascii.



#[global] Arguments String.append : simpl nomatch.

(** ** Bytes and characters *)

Definition byte_of (c : ascii) : Z := Z.of_nat (Ascii.nat_of_ascii c).
Definition char_of (z : Z) : ascii := Ascii.ascii_of_nat (Z.to_nat z).

Definition in_range (lo hi c : ascii) : bool :=
  ((byte_of lo <=? byte_of c) && (byte_of c <=? byte_of hi))%Z.

Definition is_digit (c : ascii) : bool := in_range "0"%char "9"%char c.
Definition is_lower (c : ascii) : bool := in_range "a"%char "z"%char c.
Definition is_upper (c : ascii) : bool := in_range "A"%char "Z"%char c.
Definition is_hex (c : ascii) : bool := is_digit c || in_range "a"%char "f"%char c.
Definition is_ascii (c : ascii) : bool := (byte_of c <? 128)%Z.
Definition is_space (c : ascii) : bool :=
  (byte_of c =? 32)%Z || ((9 <=? byte_of c) && (byte_of c <=? 13))%Z.

Definition lower_char (c : ascii) : ascii :=
  if is_upper c then char_of (byte_of c + 32) else c.

(** ** Traversals *)

Fixpoint str_forall (p : ascii → bool) (s : string) : bool :=
  match s with
  | "" => true
  | String c s' => p c && str_forall p s'
  end.

Fixpoint str_map (f : ascii → ascii) (s : string) : string :=
  match s with
  | "" => ""
  | String c s' => String (f c) (str_map f s')
  end.

Fixpoint str_filter (p : ascii → bool) (s : string) : string :=
  match s with
  | "" => ""
  | String c s' => if p c then String c (str_filter p s') else str_filter p s'
  end.

Fixpoint str_drop (n : nat) (s : string) : string :=
  match n, s with
  | S n', String _ s' => str_drop n' s'
  | _, _ => s
  end.

Fixpoint str_take (n : nat) (s : string) : string :=
  match n, s with
  | S n', String c s' => String c (str_take n' s')
  | _, _ => ""
  end.

Definition len (s : string) : Z := Z.of_nat (String.length s).

(** [s[i]], out of range reading as the byte 0 (every use is guarded). *)
Definition at_index (s : string) (i : nat) : ascii :=
  match String.get i s with Some c => c | None => Ascii.zero end.

(** ** Package strings *)

Fixpoint HasPrefix (s p : string) : bool :=
  match p, s with
  | "", _ => true
  | String a p', String b s' => Ascii.eqb a b && HasPrefix s' p'
  | _, _ => false
  end.

Fixpoint HasSuffix (s p : string) : bool :=
  String.eqb s p || match s with "" => false | String _ s' => HasSuffix s' p end.

Definition TrimPrefix (s p : string) : string :=
  if HasPrefix s p then str_drop (String.length p) s else s.

Definition TrimSuffix (s p : string) : string :=
  if HasSuffix s p then str_take (String.length s - String.length p) s else s.

Fixpoint Contains (s sub : string) : bool :=
  HasPrefix s sub || match s with "" => false | String _ s' => Contains s' sub end.

Definition ContainsChar (s : string) (c : ascii) : bool :=
  negb (str_forall (fun d => negb (Ascii.eqb d c)) s).

(** [strings.Cut(s, sep)] for a one-byte separator; [None] is [found = false]. *)
Fixpoint Cut (s : string) (sep : ascii) : option (string * string) :=
  match s with
  | "" => None
  | String c s' =>
      if Ascii.eqb c sep then Some ("", s')
      else match Cut s' sep with
           | Some (b, a) => Some (String c b, a)
           | None => None
           end
  end.

(** [strings.Split(s, sep)] for a one-byte separator. *)
Fixpoint Split (s : string) (sep : ascii) : list string :=
  match s with
  | "" => [""]
  | String c s' =>
      if Ascii.eqb c sep then "" :: Split s' sep
      else match Split s' sep with
           | w :: ws => String c w :: ws
           | [] => [String c ""]
           end
  end.

Fixpoint CountChar (s : string) (c : ascii) : nat :=
  match s with
  | "" => 0
  | String d s' => (if Ascii.eqb d c then 1 else 0) + CountChar s' c
  end.

(** [strings.Compare]: byte-wise lexicographic order. *)
Definition Compare (a b : string) : Z :=
  match String.compare a b with Lt => -1 | Eq => 0 | Gt => 1 end%Z.

Fixpoint trim_left (s : string) : string :=
  match s with
  | String c s' => if is_space c then trim_left s' else s
  | "" => ""
  end.

Fixpoint trim_right (s : string) : string :=
  match s with
  | "" => ""
  | String c s' =>
      match trim_right s' with
      | "" => if is_space c then "" else String c ""
      | t => String c t
      end
  end.

Class GoText := {
  unicode_ToLower : string → string;
  unicode_TrimSpace : string → string;
}.

Definition ToLower `{GoText} (s : string) : string :=
  if str_forall is_ascii s then str_map lower_char s else unicode_ToLower s.

Definition TrimSpace `{GoText} (s : string) : string :=
  if str_forall is_ascii s then trim_right (trim_left s) else unicode_TrimSpace s.

(** Text outside ASCII left alone: the instance the witnesses run with. *)
Definition plain_text : GoText :=
  {| unicode_ToLower := fun s => s; unicode_TrimSpace := fun s => s |}.

(** ** Hexadecimal *)

Definition hex_digit (n : Z) : ascii :=
  if (n <? 10)%Z then char_of (48 + n) else char_of (87 + n).

(** The [n] low nibbles of [z], most significant first: [%0nx] of a value that
    fits in [n] digits. *)
Fixpoint hexpad (n : nat) (z : Z) : string :=
  match n with
  | O => ""
  | S n' => String (hex_digit ((z / 16 ^ Z.of_nat n') mod 16)) (hexpad n' z)
  end.

(** [%x] of a byte slice, and [hex.EncodeToString]. *)
Fixpoint hex_bytes (bs : list Z) : string :=
  match bs with
  | [] => ""
  | b :: bs' => hexpad 2 b +:+ hex_bytes bs'
  end.

(** [hex.Decode] accepts upper and lower case digits. *)
Definition hex_value (c : ascii) : option Z :=
  if is_digit c then Some (byte_of c - 48)%Z
  else if in_range "a"%char "f"%char c then Some (byte_of c - 87)%Z
  else if in_range "A"%char "F"%char c then Some (byte_of c - 55)%Z
  else None.

Fixpoint hex_decode (s : string) : option (list Z) :=
  match s with
  | "" => Some []
  | String a (String b s') =>
      match hex_value a, hex_value b, hex_decode s' with
      | Some x, Some y, Some bs => Some ((16 * x + y)%Z :: bs)
      | _, _, _ => None
      end
  | String _ "" => None
  end.

(** ** Regular expressions of the contracts *)

(** [^sha256:[0-9a-f]{64}$] *)
Definition is_digest (s : string) : bool :=
  HasPrefix s "sha256:" && (len s =? 71)%Z && str_forall is_hex (str_drop 7 s).

(** [^[0-9a-f]{64}$] *)
Definition is_nonce (s : string) : bool := (len s =? 64)%Z && str_forall is_hex s.

(** [^[A-Za-z0-9._-]{1,128}$] *)
Definition is_run_owner (s : string) : bool :=
  (1 <=? len s)%Z && (len s <=? 128)%Z &&
  str_forall (fun c => is_digit c || is_lower c || is_upper c ||
                       Ascii.eqb c "."%char || Ascii.eqb c "_"%char || Ascii.eqb c "-"%char) s.

(** ** Sample text *)

Fixpoint str_repeat (n : nat) (c : ascii) : string :=
  match n with O => "" | S n' => String c (str_repeat n' c) end.

Definition sample_digest (c : ascii) : string := "sha256:" +:+ str_repeat 64 c.

(** ** Lemmas on strings *)

Lemma str_app_assoc (a b c : string) : (a +:+ b) +:+ c = a +:+ (b +:+ c).
Proof. induction a as [|x a IH]; simpl; [done|]. by rewrite IH. Qed.

Lemma str_app_nil_r (a : string) : a +:+ "" = a.
Proof. induction a as [|x a IH]; simpl; [done|]. by rewrite IH. Qed.

Lemma str_length_app (a b : string) :
  String.length (a +:+ b) = (String.length a + String.length b)%nat.
Proof. induction a as [|x a IH]; simpl; [done|]. by rewrite IH. Qed.

Lemma len_app (a b : string) : len (a +:+ b) = (len a + len b)%Z.
Proof. unfold len. rewrite str_length_app. lia. Qed.

Lemma str_app_inj_length (a b c d : string) :
  String.length a = String.length c → a +:+ b = c +:+ d → a = c ∧ b = d.
Proof.
  revert c. induction a as [|x a IH]; intros [|y c] Hlen Heq; simpl in *; try done.
  injection Heq as -> Heq. injection Hlen as Hlen. destruct (IH _ Hlen Heq); naive_solver.
Qed.

Lemma str_forall_app p (a b : string) :
  str_forall p (a +:+ b) = str_forall p a && str_forall p b.
Proof. induction a as [|x a IH]; simpl; [done|]. by rewrite IH, andb_assoc. Qed.

Lemma str_forall_impl (p q : ascii → bool) s :
  (∀ c, p c = true → q c = true) → str_forall p s = true → str_forall q s = true.
Proof.
  intros Himp. induction s as [|c s IH]; simpl; [done|].
  rewrite !andb_true_iff. naive_solver.
Qed.

Lemma str_forall_take p n s : str_forall p s = true → str_forall p (str_take n s) = true.
Proof.
  revert n. induction s as [|c s IH]; intros [|n]; simpl; try done.
  rewrite !andb_true_iff. naive_solver.
Qed.

Lemma str_forall_drop p n s : str_forall p s = true → str_forall p (str_drop n s) = true.
Proof.
  revert n. induction s as [|c s IH]; intros [|n]; simpl; try done.
  rewrite !andb_true_iff. naive_solver.
Qed.

Lemma str_take_drop n s : str_take n s +:+ str_drop n s = s.
Proof. revert n. induction s as [|c s IH]; intros [|n]; simpl; try done. by rewrite IH. Qed.

Lemma str_take_app (a b : string) : str_take (String.length a) (a +:+ b) = a.
Proof. induction a as [|c a IH]; simpl; [by destruct b|]. by rewrite IH. Qed.

Lemma str_drop_app (a b : string) : str_drop (String.length a) (a +:+ b) = b.
Proof. induction a as [|c a IH]; simpl; [by destruct b|done]. Qed.

Lemma str_length_drop n s : String.length (str_drop n s) = (String.length s - n)%nat.
Proof. revert n. induction s as [|c s IH]; intros [|n]; simpl; auto. Qed.

Lemma str_length_take n s : String.length (str_take n s) = Nat.min n (String.length s).
Proof. revert n. induction s as [|c s IH]; intros [|n]; simpl; auto. Qed.

Lemma str_length_map f s : String.length (str_map f s) = String.length s.
Proof. induction s as [|c s IH]; simpl; auto. Qed.

Lemma HasPrefix_spec (s p : string) : HasPrefix s p = true ↔ ∃ r, s = p +:+ r.
Proof.
  revert s. induction p as [|a p IH]; intros s; simpl.
  - split; [by exists s|by destruct s].
  - destruct s as [|b s]; simpl; [naive_solver|].
    rewrite andb_true_iff, Ascii.eqb_eq, IH. naive_solver.
Qed.

Lemma HasSuffix_spec (s p : string) : HasSuffix s p = true ↔ ∃ r, s = r +:+ p.
Proof.
  induction s as [|a s IH]; cbn [HasSuffix]; rewrite orb_true_iff, String.eqb_eq.
  - split; [intros [<-|?]; [by exists ""|done]|].
    intros [[|? r] Hr]; simpl in *; [by left|done].
  - rewrite IH. split.
    + intros [<-|[r ->]]; [by exists ""|by exists (String a r)].
    + intros [[|b r] Hr]; simpl in *; [by left|]. injection Hr as -> ->. right; by exists r.
Qed.

Lemma ContainsChar_app a b c : ContainsChar (a +:+ b) c = ContainsChar a c || ContainsChar b c.
Proof. unfold ContainsChar. by rewrite str_forall_app, negb_andb. Qed.

Lemma ContainsChar_cons d s c : ContainsChar (String d s) c = Ascii.eqb d c || ContainsChar s c.
Proof. unfold ContainsChar. simpl. by rewrite negb_andb, negb_involutive. Qed.

(** A string over an alphabet that lacks [c] does not contain [c]. *)
Lemma ContainsChar_forall p s c :
  str_forall p s = true → p c = false → ContainsChar s c = false.
Proof.
  unfold ContainsChar. intros Hs Hc. rewrite negb_false_iff.
  revert Hs. apply str_forall_impl. intros d Hd. destruct (Ascii.eqb_spec d c); [congruence|done].
Qed.

Lemma Cut_Some s c b a : Cut s c = Some (b, a) → s = b +:+ String c a ∧ ContainsChar b c = false.
Proof.
  revert b a. induction s as [|d s IH]; intros b a; simpl; [done|].
  destruct (Ascii.eqb_spec d c) as [->|Hne].
  - intros; simplify_eq. done.
  - destruct (Cut s c) as [[b' a']|] eqn:E; [|done]. intros; simplify_eq.
    destruct (IH _ _ eq_refl) as [-> Hb]. split; [done|].
    rewrite ContainsChar_cons, Hb. by destruct (Ascii.eqb_spec d c).
Qed.

Lemma Cut_app b c a : ContainsChar b c = false → Cut (b +:+ String c a) c = Some (b, a).
Proof.
  induction b as [|d b IH]; simpl.
  - intros _. by rewrite Ascii.eqb_refl.
  - rewrite ContainsChar_cons, orb_false_iff. intros [-> Hb]. by rewrite IH.
Qed.

Lemma Cut_None s c : Cut s c = None ↔ ContainsChar s c = false.
Proof.
  induction s as [|d s IH]; simpl; [done|]. rewrite ContainsChar_cons.
  destruct (Ascii.eqb d c); simpl; [done|]. rewrite <- IH.
  destruct (Cut s c) as [[]|]; naive_solver.
Qed.

(** A key [a ++ sep ++ b] determines [a] and [b] when [a] has no separator. *)
Lemma join_inj c a b a' b' :
  ContainsChar a c = false → ContainsChar a' c = false →
  a +:+ String c b = a' +:+ String c b' → a = a' ∧ b = b'.
Proof.
  intros Ha Ha' Heq. pose proof (Cut_app a c b Ha) as H1.
  rewrite Heq, (Cut_app a' c b' Ha') in H1. naive_solver.
Qed.

(** *** Order *)

Lemma ascii_compare_byte a b : Ascii.compare a b = (byte_of a ?= byte_of b)%Z.
Proof.
  unfold Ascii.compare, byte_of, Ascii.nat_of_ascii.
  rewrite N_nat_Z, N_nat_Z. symmetry. apply N2Z.inj_compare.
Qed.

Lemma byte_of_inj a b : byte_of a = byte_of b → a = b.
Proof.
  unfold byte_of. intros H%Nat2Z.inj.
  by rewrite <- (Ascii.ascii_nat_embedding a), H, Ascii.ascii_nat_embedding.
Qed.

Lemma byte_of_range c : (0 ≤ byte_of c < 256)%Z.
Proof. unfold byte_of. pose proof (Ascii.nat_ascii_bounded c). lia. Qed.

Lemma byte_of_char_of z : (0 ≤ z < 256)%Z → byte_of (char_of z) = z.
Proof. intros. unfold byte_of, char_of. rewrite Ascii.nat_ascii_embedding; lia. Qed.

Lemma compare_refl s : String.compare s s = Eq.
Proof.
  induction s as [|c s IH]; simpl; [done|].
  by rewrite ascii_compare_byte, Z.compare_refl.
Qed.

Lemma Compare_refl s : Compare s s = 0%Z.
Proof. unfold Compare. by rewrite compare_refl. Qed.

Lemma Compare_0 a b : Compare a b = 0%Z ↔ a = b.
Proof.
  unfold Compare. split; [|intros ->; by rewrite compare_refl].
  destruct (String.compare a b) eqn:E; try done. intros _. by apply String.compare_eq_iff.
Qed.

Lemma Compare_opp a b : Compare a b = (- Compare b a)%Z.
Proof. unfold Compare. rewrite String.compare_antisym. by destruct (String.compare b a). Qed.

Lemma compare_trans_lt a b c :
  String.compare a b = Lt → String.compare b c = Lt → String.compare a c = Lt.
Proof.
  revert b c. induction a as [|x a IH]; intros [|y b] [|z c]; simpl; try done.
  rewrite !ascii_compare_byte.
  destruct (Z.compare_spec (byte_of x) (byte_of y)) as [Hxy|Hxy|Hxy]; try done;
  destruct (Z.compare_spec (byte_of y) (byte_of z)) as [Hyz|Hyz|Hyz]; try done; intros H1 H2;
  destruct (Z.compare_spec (byte_of x) (byte_of z)); try done; try lia; eauto.
Qed.

Lemma Compare_trans a b c : (Compare a b ≤ 0 → Compare b c ≤ 0 → Compare a c ≤ 0)%Z.
Proof.
  unfold Compare.
  destruct (String.compare a b) eqn:E1; destruct (String.compare b c) eqn:E2; try lia; intros _ _.
  - apply String.compare_eq_iff in E1 as ->. apply String.compare_eq_iff in E2 as ->.
    by rewrite compare_refl.
  - apply String.compare_eq_iff in E1 as ->. by rewrite E2.
  - apply String.compare_eq_iff in E2 as ->. by rewrite E1.
  - by rewrite (compare_trans_lt _ _ _ E1 E2).
Qed.

(** *** Hexadecimal *)

Definition is_byte (z : Z) : Prop := (0 ≤ z < 256)%Z.

Ltac each_nibble n :=
  let H := fresh in
  assert (n = 0 ∨ n = 1 ∨ n = 2 ∨ n = 3 ∨ n = 4 ∨ n = 5 ∨ n = 6 ∨ n = 7 ∨
          n = 8 ∨ n = 9 ∨ n = 10 ∨ n = 11 ∨ n = 12 ∨ n = 13 ∨ n = 14 ∨ n = 15)%Z as H by lia;
  destruct_or! H; subst n.

Lemma hex_value_digit n : (0 ≤ n < 16)%Z → hex_value (hex_digit n) = Some n.
Proof. intros. each_nibble n; reflexivity. Qed.

Lemma is_hex_digit n : (0 ≤ n < 16)%Z → is_hex (hex_digit n) = true.
Proof. intros. each_nibble n; reflexivity. Qed.

Lemma hex_digit_value c : is_hex c = true → ∃ n, (0 ≤ n < 16)%Z ∧ c = hex_digit n ∧ hex_value c = Some n.
Proof.
  unfold is_hex, hex_value, is_digit, in_range. intros H. bsimpl.
  change (byte_of "0") with 48%Z in *. change (byte_of "9") with 57%Z in *.
  change (byte_of "a") with 97%Z in *. change (byte_of "f") with 102%Z in *.
  destruct H as [[H1 H2]|[H1 H2]].
  - exists (byte_of c - 48)%Z. rewrite (proj2 (Z.leb_le _ _) H1), (proj2 (Z.leb_le _ _) H2).
    repeat split; try lia. apply byte_of_inj. unfold hex_digit.
    rewrite (proj2 (Z.ltb_lt _ _)) by lia. rewrite byte_of_char_of; lia.
  - exists (byte_of c - 87)%Z. rewrite (proj2 (Z.leb_le _ _) H1), (proj2 (Z.leb_le _ _) H2).
    replace (48 <=? byte_of c)%Z with true by (symmetry; apply Z.leb_le; lia).
    replace (byte_of c <=? 57)%Z with false by (symmetry; apply Z.leb_gt; lia).
    simpl. repeat split; try lia. apply byte_of_inj. unfold hex_digit.
    rewrite (proj2 (Z.ltb_ge _ _)) by lia. rewrite byte_of_char_of; lia.
Qed.

Lemma hexpad_length n z : String.length (hexpad n z) = n.
Proof. induction n as [|n IH]; simpl; auto. Qed.

Lemma hexpad_is_hex n z : str_forall is_hex (hexpad n z) = true.
Proof.
  induction n as [|n IH]; simpl; [done|]. rewrite IH, andb_true_r.
  apply is_hex_digit, Z.mod_pos_bound. lia.
Qed.

Lemma hex_bytes_length bs : String.length (hex_bytes bs) = (2 * length bs)%nat.
Proof. induction bs as [|b bs IH]; [done|]. simpl. rewrite IH. lia. Qed.

Lemma hex_bytes_is_hex bs : str_forall is_hex (hex_bytes bs) = true.
Proof.
  induction bs as [|b bs IH]; [done|]. cbn [hex_bytes].
  by rewrite str_forall_app, hexpad_is_hex, IH.
Qed.

Lemma hex_bytes_app bs cs : hex_bytes (bs ++ cs) = hex_bytes bs +:+ hex_bytes cs.
Proof. induction bs as [|b bs IH]; [done|]. cbn [hex_bytes app]. by rewrite IH, str_app_assoc. Qed.

Lemma hex_decode_bytes bs : Forall is_byte bs → hex_decode (hex_bytes bs) = Some bs.
Proof.
  induction 1 as [|b bs Hb _ IH]; [done|]. unfold is_byte in Hb.
  simpl. rewrite Z.div_1_r.
  rewrite !hex_value_digit by (apply Z.mod_pos_bound; lia). rewrite IH.
  do 2 f_equal. rewrite (Z.mod_small (b / 16)) by (split; [apply Z.div_pos|apply Z.div_lt_upper_bound]; lia).
  symmetry. apply Z.div_mod. lia.
Qed.

Lemma hex_decode_length s bs : hex_decode s = Some bs → String.length s = (2 * length bs)%nat.
Proof.
  revert s. induction bs as [|b bs IH]; intros s.
  - destruct s as [|a [|c s]]; simpl; try done. repeat case_match; done.
  - destruct s as [|a [|c s]]; simpl; try done. repeat case_match; try done.
    intros; simplify_eq. rewrite (IH s); [lia|done].
Qed.

Lemma hex_value_range c n : hex_value c = Some n → (0 ≤ n < 16)%Z.
Proof.
  unfold hex_value, is_digit, in_range.
  change (byte_of "0") with 48%Z. change (byte_of "9") with 57%Z.
  change (byte_of "a") with 97%Z. change (byte_of "f") with 102%Z.
  change (byte_of "A") with 65%Z. change (byte_of "F") with 70%Z.
  repeat case_match; intros; simplify_eq; bsimpl; lia.
Qed.

Lemma hex_decode_bytes_range s bs : hex_decode s = Some bs → Forall is_byte bs.
Proof.
  revert s. induction bs as [|b bs IH]; intros s; [constructor|].
  destruct s as [|a [|c s]]; simpl; try done. repeat case_match; try done.
  intros; simplify_eq.
  constructor; [|by eapply IH].
  repeat match goal with H : hex_value _ = Some _ |- _ => apply hex_value_range in H end.
  unfold is_byte. lia.
Qed.

(** The bytes of [z], most significant first. *)
Fixpoint be_bytes (n : nat) (z : Z) : list Z :=
  match n with
  | O => []
  | S n' => ((z / 256 ^ Z.of_nat n') mod 256)%Z :: be_bytes n' z
  end.

Lemma hexpad_2_byte n z :
  hexpad 2 ((z / 256 ^ n) mod 256)%Z =
  String (hex_digit ((z / 256 ^ n / 16) mod 16)%Z) (String (hex_digit ((z / 256 ^ n) mod 16)%Z) "").
Proof.
  simpl. rewrite Z.div_1_r. change (16 ^ Z.of_nat 1)%Z with 16%Z.
  set (y := (z / 256 ^ n)%Z).
  replace ((y mod 256 / 16) mod 16)%Z with ((y / 16) mod 16)%Z
    by (Z.to_euclidean_division_equations; lia).
  replace ((y mod 256) mod 16)%Z with (y mod 16)%Z
    by (Z.to_euclidean_division_equations; lia).
  done.
Qed.

Lemma hexpad_be_bytes n z : hexpad (2 * n) z = hex_bytes (be_bytes n z).
Proof.
  induction n as [|n IH]; [done|].
  replace (2 * S n)%nat with (S (S (2 * n))) by lia. cbn [be_bytes hex_bytes].
  rewrite hexpad_2_byte, <- IH. cbn [hexpad String.append].
  replace (16 ^ Z.of_nat (S (2 * n)))%Z with (256 ^ Z.of_nat n * 16)%Z.
  2:{ rewrite Nat2Z.inj_succ, Z.pow_succ_r, Nat2Z.inj_mul, Z.pow_mul_r by lia.
      change (16 ^ Z.of_nat 2)%Z with 256%Z. lia. }
  replace (16 ^ Z.of_nat (2 * n))%Z with (256 ^ Z.of_nat n)%Z.
  2:{ rewrite Nat2Z.inj_mul, Z.pow_mul_r by lia. done. }
  by rewrite Z.div_div by (try apply Z.pow_nonzero; lia).
Qed.
