(* ===== verification/GoStd.v ===== *)
(** * More of the Go standard library

    Packages unicode/utf8, strconv, path, net/netip, slices and the RFC 3339
    layout of package time, as far as the validators of the build plane use them,
    and the shapes their regular expressions have. *)

From S2P Require Import Prelude Text.

Open Scope Z_scope.

Module GoStd.

(** ** Regular expressions *)

(** [^[first][rest]{0,max}$] *)
Definition name_like (first rest : ascii → bool) (max : Z) (s : string) : bool :=
  match s with
  | "" => false
  | String c s' => first c && str_forall rest s' && (len s' <=? max)
  end.

Definition is_char (c d : ascii) : bool := Ascii.eqb d c.

(** [[a-z0-9._-]] and its like *)
Definition lower_alnum (c : ascii) : bool := is_lower c || is_digit c.
Definition lower_dash (c : ascii) : bool := lower_alnum c || is_char "-" c.
Definition lower_name (c : ascii) : bool :=
  lower_alnum c || is_char "." c || is_char "_" c || is_char "-" c.
Definition upper_name (c : ascii) : bool := is_upper c || is_digit c || is_char "_" c.

(** [^[a-z][a-z0-9._-]{0,127}$]: key IDs and capability names *)
Definition is_capability_name : string → bool := name_like is_lower lower_name 127.

(** [^[a-z][a-z0-9-]{0,62}$] *)
Definition is_output_name : string → bool := name_like is_lower lower_dash 62.

(** [^[A-Z_][A-Z0-9_]{0,127}$] *)
Definition is_argument_name : string → bool :=
  name_like (fun c => is_upper c || is_char "_" c) upper_name 127.

(** [^n[1-9][0-9]{0,3}$] *)
Definition is_node_id (s : string) : bool :=
  match s with
  | String c s' => is_char "n" c && name_like (in_range "1" "9") is_digit 3 s'
  | "" => false
  end.

Definition nonempty_digits (s : string) : bool := negb (String.eqb s "") && str_forall is_digit s.

(** [^[0-9]+\.[0-9]+\.[0-9]+$] *)
Definition is_semantic_version (s : string) : bool :=
  match Split s "." with
  | [a; b; c] => nonempty_digits a && nonempty_digits b && nonempty_digits c
  | _ => false
  end.

Fixpoint last_char (s : string) : option ascii :=
  match s with
  | "" => None
  | String c "" => Some c
  | String _ s' => last_char s'
  end.

(** [[a-z0-9](?:[inner]{0,max}[a-z0-9])?]: alphanumeric at both ends *)
Definition framed (inner : ascii → bool) (max : Z) (s : string) : bool :=
  match s, last_char s with
  | String c _, Some d => lower_alnum c && lower_alnum d && str_forall inner s && (len s <=? max + 2)
  | _, _ => false
  end.

(** One DNS label, and dot-separated labels. *)
Definition is_label : string → bool := framed lower_dash 61.
Definition is_hostname (s : string) : bool := forallb is_label (Split s ".").

(** Characters of a set, as in [strings.ContainsAny]. *)
Definition ContainsAny (s : string) (p : ascii → bool) : bool := negb (str_forall (fun c => negb (p c)) s).

(** ** unicode/utf8 *)

Definition cont (c : ascii) : bool := (128 <=? byte_of c) && (byte_of c <=? 191).
Definition between (lo hi : Z) (c : ascii) : bool := (lo <=? byte_of c) && (byte_of c <=? hi).

(** [utf8.ValidString]: shortest forms, no surrogates, at most U+10FFFF. *)
Fixpoint ValidString (s : string) : bool :=
  match s with
  | "" => true
  | String a s1 =>
      if is_ascii a then ValidString s1
      else match s1 with
      | "" => false
      | String b s2 =>
          if between 194 223 a then cont b && ValidString s2
          else match s2 with
          | "" => false
          | String c s3 =>
              if between 224 239 a then
                between (if byte_of a =? 224 then 160 else 128) (if byte_of a =? 237 then 159 else 191) b &&
                cont c && ValidString s3
              else match s3 with
              | "" => false
              | String d s4 =>
                  between 240 244 a &&
                  between (if byte_of a =? 240 then 144 else 128) (if byte_of a =? 244 then 143 else 191) b &&
                  cont c && cont d && ValidString s4
              end
          end
      end
  end.

(** ** strconv *)

Fixpoint digits_value (acc : Z) (s : string) : Z :=
  match s with
  | "" => acc
  | String c s' => digits_value (10 * acc + (byte_of c - 48)) s'
  end.

(** [strconv.ParseUint(s, 10, 16)] *)
Definition ParseUint16 (s : string) : option Z :=
  if negb (nonempty_digits s) then None
  else let v := digits_value 0 s in if v <? 2 ^ 16 then Some v else None.

(** [strconv.Atoi] on a 64-bit platform: an optional sign and decimal digits. *)
Definition Atoi (s : string) : option Z :=
  let '(sign, digits) :=
    match s with
    | String c s' => if is_char "+" c then (1, s') else if is_char "-" c then (-1, s') else (1, s)
    | "" => (1, s)
    end in
  if negb (nonempty_digits digits) then None
  else let v := sign * digits_value 0 digits in
  if (- 2 ^ 63 <=? v) && (v <? 2 ^ 63) then Some v else None.

(** ** net/netip *)

Definition is_octet (s : string) : bool :=
  nonempty_digits s && (String.eqb s "0" || negb (HasPrefix s "0")) && (digits_value 0 s <=? 255) &&
  (len s <=? 3).

(** [netip.ParseAddr] succeeds, on text without ':' and '%' (a host name): the
    address is a dotted IPv4 one. *)
Definition is_ipv4 (s : string) : bool :=
  match Split s "." with
  | [a; b; c; d] => is_octet a && is_octet b && is_octet c && is_octet d
  | _ => false
  end.

(** ** path *)

Fixpoint Join (sep : string) (parts : list string) : string :=
  match parts with
  | [] => ""
  | [p] => p
  | p :: parts' => p +:+ sep +:+ Join sep parts'
  end.

(** The segments of a rooted path after [path.Clean], in reverse. *)
Fixpoint clean_segments (stack segments : list string) : list string :=
  match segments with
  | [] => stack
  | s :: rest =>
      if String.eqb s "" || String.eqb s "." then clean_segments stack rest
      else if String.eqb s ".." then clean_segments (tail stack) rest
      else clean_segments (s :: stack) rest
  end.

Definition IsAbs (s : string) : bool := HasPrefix s "/".

(** [path.Clean] of a rooted path. *)
Definition Clean_rooted (s : string) : string := "/" +:+ Join "/" (rev (clean_segments [] (Split s "/"))).

(** The segments of a relative path after [path.Clean], in reverse: a ".." that
    leaves the path stays. *)
Fixpoint clean_relative (stack segments : list string) : list string :=
  match segments with
  | [] => stack
  | s :: rest =>
      if String.eqb s "" || String.eqb s "." then clean_relative stack rest
      else if String.eqb s ".." then
        match stack with
        | top :: stack' =>
            if String.eqb top ".." then clean_relative (".." :: stack) rest else clean_relative stack' rest
        | [] => clean_relative [".."] rest
        end
      else clean_relative (s :: stack) rest
  end.

(** [path.Clean] *)
Definition Clean (s : string) : string :=
  if IsAbs s then Clean_rooted s
  else match clean_relative [] (Split s "/") with
       | [] => "."
       | stack => Join "/" (rev stack)
       end.

Fixpoint drop_slashes (reversed : list ascii) : list ascii :=
  match reversed with
  | c :: rest => if is_char "/" c then drop_slashes rest else reversed
  | [] => []
  end.

(** [path.Base] *)
Definition Base (s : string) : string :=
  if String.eqb s "" then "."
  else
    let trimmed := String.string_of_list_ascii (rev (drop_slashes (rev (String.list_ascii_of_string s)))) in
    if String.eqb trimmed "" then "/" else List.last (Split trimmed "/") "".

(** ** slices on strings *)

Definition slices_Contains (values : list string) (value : string) : bool := existsb (String.eqb value) values.

(** [slices.Sort] then [slices.Compact]. *)
Fixpoint Compact (l : list string) : list string :=
  match l with
  | [] => []
  | x :: l' =>
      match Compact l' with
      | y :: rest => if String.eqb x y then y :: rest else x :: y :: rest
      | [] => [x]
      end
  end.

(** Each value greater than the one before. *)
Fixpoint strictlySorted (values : list string) : bool :=
  match values with
  | x :: (y :: _) as rest => (Compare x y <? 0) && strictlySorted rest
  | _ => true
  end.

Definition Sort : list string → list string := SortStableFunc Compare.

Fixpoint IsSorted (l : list string) : bool :=
  match l with
  | x :: (y :: _) as l' => (Compare x y <=? 0) && IsSorted l'
  | _ => true
  end.

(** A set built while looping over values, and the test for a duplicate. *)
Fixpoint distinct (seen values : list string) : bool :=
  match values with
  | [] => true
  | v :: rest => negb (slices_Contains seen v) && distinct (v :: seen) rest
  end.

(** ** time: the RFC 3339 layout *)

Definition is_leap (year : Z) : bool :=
  (year mod 4 =? 0) && (negb (year mod 100 =? 0) || (year mod 400 =? 0)).

Definition month_days (year : Z) : list Z :=
  [31; if is_leap year then 29 else 28; 31; 30; 31; 30; 31; 31; 30; 31; 30; 31].

(** Days from 0001-01-01 to January 1 of [year]. *)
Definition days_before_year (year : Z) : Z :=
  let y := year - 1 in 365 * y + y / 4 - y / 100 + y / 400.

Definition sum_days (l : list Z) : Z := fold_right Z.add 0 l.

(** Year and day of the year of a day count, as absDate computes them. *)
Definition year_of_days (days : Z) : Z * Z :=
  let era := days / 146097 in
  let d := days mod 146097 in
  let n := d / 36524 in let n100 := n - n / 4 in
  let d := d - 36524 * n100 in
  let n4 := d / 1461 in
  let d := d - 1461 * n4 in
  let n := d / 365 in let n1 := n - n / 4 in
  (400 * era + 100 * n100 + 4 * n4 + n1 + 1, d - 365 * n1).

Fixpoint month_of_day (month day : Z) (lengths : list Z) : Z * Z :=
  match lengths with
  | [] => (month, day)
  | l :: rest => if day <? l then (month, day) else month_of_day (month + 1) (day - l) rest
  end.

(** [n] decimal digits of [z], most significant first. *)
Fixpoint decpad (n : nat) (z : Z) : string :=
  match n with
  | O => ""
  | S n' => String (char_of (48 + (z / 10 ^ Z.of_nat n') mod 10)) (decpad n' z)
  end.

(** Date and time of day in UTC, to the second, for the years 0 to 9999. *)
Definition date_time (t : Time) : string :=
  let seconds := t / Second in
  let days := seconds / 86400 in
  let s := seconds mod 86400 in
  let '(year, yday) := year_of_days days in
  let '(month, day) := month_of_day 1 yday (month_days year) in
  decpad 4 year +:+ "-" +:+ decpad 2 month +:+ "-" +:+ decpad 2 (day + 1) +:+ "T" +:+
  decpad 2 (s / 3600) +:+ ":" +:+ decpad 2 (s / 60 mod 60) +:+ ":" +:+ decpad 2 (s mod 60).

(** [t.UTC().Format(time.RFC3339)] *)
Definition FormatRFC3339 (t : Time) : string := date_time t +:+ "Z".

(** ** Lemmas *)

Lemma slices_Contains_true values value : slices_Contains values value = true ↔ (value ∈ values).
Proof.
  unfold slices_Contains. rewrite existsb_exists. split.
  - intros (y & Hy & E). apply String.eqb_eq in E as <-. by apply list_elem_of_In.
  - intros Hx. exists value. rewrite String.eqb_refl. split; [by apply list_elem_of_In|done].
Qed.

Lemma slices_Contains_false values value : slices_Contains values value = false ↔ (value ∉ values).
Proof. rewrite <- not_true_iff_false. by rewrite slices_Contains_true. Qed.

#[export] Hint Rewrite slices_Contains_true slices_Contains_false : go_bool.

Lemma distinct_true seen values :
  distinct seen values = true ↔ NoDup values ∧ (∀ v, v ∈ values → v ∉ seen).
Proof.
  revert seen. induction values as [|v rest IH]; intros seen; simpl.
  { split; [|done]. intros _. split; [constructor|set_solver]. }
  rewrite andb_true_iff, negb_true_iff, slices_Contains_false, IH, NoDup_cons. set_solver.
Qed.

Lemma distinct_nil values : distinct [] values = true ↔ NoDup values.
Proof. rewrite distinct_true. set_solver. Qed.

(** ** Sorted lists of strings *)

Lemma Compare_total a b : Compare a b ≤ 0 ∨ Compare b a ≤ 0.
Proof. rewrite (Compare_opp b a). lia. Qed.

Lemma Compare_antisym a b : Compare a b ≤ 0 → Compare b a ≤ 0 → a = b.
Proof. rewrite (Compare_opp b a). intros. apply Compare_0. lia. Qed.

Lemma Sort_perm l : Sort l ≡ₚ l.
Proof. apply SortStableFunc_perm. Qed.

Lemma Sort_sorted l : StronglySorted (le_by Compare) (Sort l).
Proof.
  apply (SortStableFunc_sorted Compare (fun _ => True)).
  - intros. apply Compare_total.
  - intros x y z _ _ _. apply Compare_trans.
  - by apply Forall_true.
Qed.

Lemma elem_of_Compact x l : x ∈ Compact l ↔ x ∈ l.
Proof.
  induction l as [|y l IH]; simpl; [done|]. rewrite elem_of_cons, <- IH.
  destruct (Compact l) as [|z rest]; [set_solver|].
  destruct (String.eqb_spec y z) as [->|Hne]; set_solver.
Qed.

(** [Compact] of a sorted list is sorted without duplicates. *)
Lemma Compact_sorted l :
  StronglySorted (le_by Compare) l → StronglySorted (le_by Compare) (Compact l) ∧ NoDup (Compact l).
Proof.
  induction l as [|x l IH]; simpl; intros Hs; [repeat constructor|].
  apply StronglySorted_inv in Hs as [Hs Hx]. destruct (IH Hs) as [Hc Hd].
  assert (Forall (le_by Compare x) (Compact l)) as Hxc.
  { rewrite Forall_forall in Hx |- *. intros y Hy. apply Hx. by apply elem_of_Compact. }
  destruct (Compact l) as [|z rest] eqn:Hz; [repeat constructor; set_solver|].
  destruct (String.eqb_spec x z) as [->|Hne]; [done|]. split; [by constructor|].
  constructor; [|done]. intros Hin. apply Hne. apply Compare_antisym.
  - by apply Forall_cons in Hxc as [? _].
  - apply StronglySorted_inv in Hc as [_ Hzr]. rewrite Forall_forall in Hzr.
    apply elem_of_cons in Hin as [->|Hin]; [by rewrite Compare_refl|by apply Hzr].
Qed.

Lemma sorted_ext l1 l2 :
  StronglySorted (le_by Compare) l1 → NoDup l1 → StronglySorted (le_by Compare) l2 → NoDup l2 →
  (∀ x, x ∈ l1 ↔ x ∈ l2) → l1 = l2.
Proof.
  intros Hs1 Hd1 Hs2 Hd2 Hx. apply (sort_unique Compare); [|by apply NoDup_Permutation|done|done].
  intros x y _ _. apply Compare_antisym.
Qed.

(** Sorting and compacting depends on the set of values only. *)
Lemma Compact_Sort_ext l1 l2 : (∀ x, x ∈ l1 ↔ x ∈ l2) → Compact (Sort l1) = Compact (Sort l2).
Proof.
  intros Hx. destruct (Compact_sorted _ (Sort_sorted l1)), (Compact_sorted _ (Sort_sorted l2)).
  apply sorted_ext; try done. intros x. by rewrite !elem_of_Compact, !Sort_perm.
Qed.

Lemma elem_of_Compact_Sort x l : x ∈ Compact (Sort l) ↔ x ∈ l.
Proof. by rewrite elem_of_Compact, Sort_perm. Qed.

(** ** Splitting and joining *)

Lemma TrimPrefix_app p r : TrimPrefix (p +:+ r) p = r.
Proof.
  unfold TrimPrefix. assert (HasPrefix (p +:+ r) p = true) as -> by (apply HasPrefix_spec; eauto).
  apply str_drop_app.
Qed.

Lemma Split_cons_sep s c : Split (String c s) c = "" :: Split s c.
Proof. simpl. by rewrite Ascii.eqb_refl. Qed.

Lemma Split_nonempty s c : Split s c ≠ [].
Proof. destruct s as [|d s]; [done|]. simpl. destruct (Ascii.eqb d c); [done|]. by destruct (Split s c). Qed.

Lemma Split_none s c : ContainsChar s c = false → Split s c = [s].
Proof.
  induction s as [|d s IH]; [done|]. rewrite ContainsChar_cons, orb_false_iff. intros [Hd Hs].
  simpl. by rewrite Hd, IH.
Qed.

Lemma Split_app a c b : ContainsChar a c = false → Split (a +:+ String c b) c = a :: Split b c.
Proof.
  induction a as [|d a IH]; [intros _; apply Split_cons_sep|].
  rewrite ContainsChar_cons, orb_false_iff. intros [Hd Ha]. simpl. by rewrite Hd, IH.
Qed.

(** No segment holds the separator. *)
Lemma Split_segments s c : Forall (fun w => ContainsChar w c = false) (Split s c).
Proof.
  induction s as [|d s IH]; simpl; [by repeat constructor|].
  destruct (Ascii.eqb d c) eqn:E; [by constructor|].
  destruct (Split s c) as [|w ws]; [by repeat constructor; simpl; rewrite ContainsChar_cons, E|].
  apply Forall_cons in IH as [Hw Hws]. constructor; [|done]. by rewrite ContainsChar_cons, E, Hw.
Qed.

Lemma Split_Join parts :
  parts ≠ [] → Forall (fun w => ContainsChar w "/" = false) parts → Split (Join "/" parts) "/" = parts.
Proof.
  induction parts as [|p [|q parts] IH]; [done|..]; intros _ Hf; apply Forall_cons in Hf as [Hp Hf].
  - by apply Split_none.
  - change (Join "/" (p :: q :: parts)) with (p +:+ String "/" (Join "/" (q :: parts))).
    rewrite Split_app by done. f_equal. by apply IH.
Qed.

Lemma Join_cons p parts : parts ≠ [] → Join "/" (p :: parts) = p +:+ String "/" (Join "/" parts).
Proof. by destruct parts. Qed.

Lemma Join_Split s : Join "/" (Split s "/") = s.
Proof.
  induction s as [|d s IH]; [done|]. simpl. destruct (Ascii.eqb_spec d "/") as [->|Hne].
  - rewrite Join_cons by apply Split_nonempty. by rewrite IH.
  - destruct (Split s "/") as [|w ws] eqn:Hs; [by apply Split_nonempty in Hs|].
    destruct ws; simpl in *; by rewrite IH.
Qed.

(** A segment that names an entry of its directory. *)
Definition plain_segment (s : string) : Prop :=
  s ≠ "" ∧ s ≠ "." ∧ s ≠ ".." ∧ ContainsChar s "/" = false.

(** A rooted path of plain segments only: it cannot leave the directory it is
    joined to. *)
Definition contained (p : string) : Prop :=
  HasPrefix p "/" = true ∧ tail (Split p "/") ≠ [] ∧ Forall plain_segment (tail (Split p "/")).

Lemma clean_segments_plain stack segments :
  Forall plain_segment stack → Forall (fun w => ContainsChar w "/" = false) segments →
  Forall plain_segment (clean_segments stack segments).
Proof.
  revert stack. induction segments as [|s rest IH]; intros stack Hs Hr; simpl; [done|].
  apply Forall_cons in Hr as [Hc Hr]. destruct (_ || _) eqn:E1; [by apply IH|].
  destruct (String.eqb s "..") eqn:E2.
  - apply IH; [|done]. destruct stack; simpl; [done|]. by apply Forall_cons in Hs as [_ Hs].
  - apply IH; [|done]. bsimpl. by repeat constructor.
Qed.

Lemma Clean_rooted_plain p : Clean_rooted p ≠ "/" → contained (Clean_rooted p).
Proof.
  unfold Clean_rooted. intros Hne.
  pose proof (clean_segments_plain [] (Split p "/") (Forall_nil_2 _) (Split_segments p "/")) as Hplain.
  set (parts := rev (clean_segments [] (Split p "/"))) in *.
  assert (Forall plain_segment parts) as Hp by (unfold parts; by apply Forall_rev).
  clearbody parts. clear Hplain.
  assert (parts ≠ []) as Hnil by (intros ->; by apply Hne).
  assert (HasPrefix ("/" +:+ Join "/" parts) "/" = true) as Hpre by (apply HasPrefix_spec; eauto).
  split; [done|].
  change ("/" +:+ Join "/" parts) with (String "/" (Join "/" parts)).
  rewrite Split_cons_sep. simpl tail. rewrite Split_Join; [done|done|].
  eapply Forall_impl; [exact Hp|]. intros w Hw. apply Hw.
Qed.

Lemma Clean_rooted_contained p : p ≠ "/" → Clean_rooted p = p → HasPrefix p "/" = true ∧ contained p.
Proof.
  intros Hne Hc. pose proof (Clean_rooted_plain p) as H. rewrite Hc in H. specialize (H Hne). split; [apply H|done].
Qed.

Lemma clean_segments_id stack segments :
  Forall plain_segment segments → clean_segments stack segments = rev segments ++ stack.
Proof.
  revert stack. induction segments as [|s rest IH]; intros stack Hp; simpl; [done|].
  apply Forall_cons in Hp as [(H1 & H2 & H3 & _) Hp].
  apply String.eqb_neq in H1, H2, H3. rewrite H1, H2, H3. simpl. rewrite IH by done. by rewrite <- app_assoc.
Qed.

Lemma contained_split p : contained p → Split p "/" = "" :: tail (Split p "/").
Proof.
  intros (Hp & _). apply HasPrefix_spec in Hp as [r ->]. change ("/" +:+ r) with (String "/" r).
  by rewrite Split_cons_sep.
Qed.

Lemma Clean_contained p : contained p → Clean p = p.
Proof.
  intros Hc. pose proof (contained_split p Hc) as Hs. destruct Hc as (Hp & Hne & Hplain).
  unfold Clean, IsAbs. rewrite Hp. unfold Clean_rooted. rewrite Hs at 1. cbn [clean_segments String.eqb orb].
  rewrite clean_segments_id by done. rewrite app_nil_r, rev_involutive.
  rewrite <- (Join_Split p) at 2. rewrite Hs. by rewrite Join_cons.
Qed.

End GoStd.
