(* ===== verification/GoTime.v ===== *)
(** * The Go standard library: the layouts time.RFC3339 and time.RFC3339Nano

    Assignments and the build service keep instants as text.  [FormatRFC3339] of
    GoStd.v and [FormatRFC3339Nano] print an instant in UTC; [ParseRFC3339] and
    [ParseRFC3339Nano] read one as [time.Parse] does, with what the
    layout's parser lets through besides RFC 3339: an hour of one digit, a fraction
    behind a comma, a fraction of more than nine digits, and zone offsets of up to
    24 hours and 60 minutes.  Printing and reading are inverse on the years 1 to
    9999. *)

From S2P Require Import Prelude Text GoStd.
Import GoStd.

Open Scope Z_scope.

Module GoTime.

(** ** Printing *)

(** The fraction of [ns] nanoseconds: nine digits without the zeros at the end. *)
Fixpoint fraction (n : nat) (ns : Z) : string :=
  match n with
  | O => ""
  | S n' =>
      if ns =? 0 then ""
      else String (char_of (48 + ns / 10 ^ Z.of_nat n')) (fraction n' (ns mod 10 ^ Z.of_nat n'))
  end.

Definition FormatRFC3339Nano (t : Time) : string :=
  let ns := t mod Second in
  date_time t +:+ (if ns =? 0 then "" else "." +:+ fraction 9 ns) +:+ "Z".

(** ** Reading *)

(** A parser step: what it read and the rest of the text. *)
Definition digit_value (c : ascii) : Z := byte_of c - 48.

Definition getnum (fixed : bool) (s : string) : option (Z * string) :=
  match s with
  | "" => None
  | String a r =>
      if negb (is_digit a) then None
      else match r with
      | "" => if fixed then None else Some (digit_value a, r)
      | String b r' =>
          if is_digit b then Some (10 * digit_value a + digit_value b, r')
          else if fixed then None else Some (digit_value a, r)
      end
  end.

Definition getyear (s : string) : option (Z * string) :=
  let year := str_take 4 s in
  if (len year =? 4) && str_forall is_digit year then Some (digits_value 0 year, str_drop 4 s) else None.

Definition literal (c : ascii) (s : string) : option string :=
  match s with String d r => if Ascii.eqb c d then Some r else None | "" => None end.

(** The digits at the start, and the rest. *)
Fixpoint digits (s : string) : string * string :=
  match s with
  | String c r => if is_digit c then let '(a, b) := digits r in (String c a, b) else ("", s)
  | "" => ("", "")
  end.

(** parseNanoseconds: digits after the ninth are dropped. *)
Definition nanoseconds (ds : string) : Z :=
  let ds := str_take 9 ds in digits_value 0 ds * 10 ^ (9 - len ds).

Definition getfraction (s : string) : Z * string :=
  match s with
  | String c r =>
      if is_char "." c || is_char "," c then
        let '(ds, rest) := digits r in
        if String.eqb ds "" then (0, s) else (nanoseconds ds, rest)
      else (0, s)
  | "" => (0, "")
  end.

(** The zone: its offset in seconds. *)
Definition getzone (s : string) : option (Z * string) :=
  match s with
  | String sign r =>
      if is_char "Z" sign then Some (0, r)
      else match getnum true r with
      | None => None
      | Some (hr, r) =>
          match literal ":" r with
          | None => None
          | Some r =>
              match getnum true r with
              | None => None
              | Some (mm, r) =>
                  let offset := (hr * 60 + mm) * 60 in
                  if (24 <? hr) || (60 <? mm) then None
                  else if is_char "+" sign then Some (offset, r)
                  else if is_char "-" sign then Some (- offset, r)
                  else None
              end
          end
      end
  | "" => None
  end.

(** time.Date for fields in range, in nanoseconds since the zero instant. *)
Definition Date (year month day hour minute second ns : Z) : Time :=
  let days := days_before_year year + sum_days (firstn (Z.to_nat (month - 1)) (month_days year)) + (day - 1) in
  (days * 86400 + hour * 3600 + minute * 60 + second) * Second + ns.

Definition ParseRFC3339Nano (s : string) : option Time :=
  '(year, s) ← getyear s; s ← literal "-" s;
  '(month, s) ← getnum true s; s ← literal "-" s;
  '(day, s) ← getnum true s; s ← literal "T" s;
  '(hour, s) ← getnum false s; s ← literal ":" s;
  '(minute, s) ← getnum true s; s ← literal ":" s;
  '(second, s) ← getnum true s;
  let '(ns, s) := getfraction s in
  '(offset, s) ← getzone s;
  if (month <? 1) || (12 <? month) || (23 <? hour) || (59 <? minute) || (59 <? second) ||
     (day <? 1) || (nth (Z.to_nat (month - 1)) (month_days year) 0 <? day) || negb (String.eqb s "")
  then None
  else Some (Date year month day hour minute second ns - offset * Second).

(** The layout without the fraction reads the same texts: the parser looks for a
    fraction behind the seconds in any case. *)
Definition ParseRFC3339 : string → option Time := ParseRFC3339Nano.

(** ** The calendar *)

(** Linear arithmetic with division by literals. *)
Ltac divlia := Z.to_euclidean_division_equations; lia.

Lemma sum_month_days year : sum_days (month_days year) = if is_leap year then 366 else 365.
Proof. unfold month_days. by destruct (is_leap year). Qed.

(** Centuries, groups of four years and years of a day in a period of 400 years. *)
Lemma era_parts d n100 n4 n1 :
  0 ≤ d < 146097 → n100 = d / 36524 - d / 36524 / 4 → n4 = (d - 36524 * n100) / 1461 →
  n1 = (d - 36524 * n100 - 1461 * n4) / 365 - (d - 36524 * n100 - 1461 * n4) / 365 / 4 →
  0 ≤ n100 ≤ 3 ∧ 0 ≤ n4 ≤ 24 ∧ 0 ≤ n1 ≤ 3 ∧ 0 ≤ d - 36524 * n100 - 1461 * n4 - 365 * n1 ≤ 365 ∧
  (d - 36524 * n100 - 1461 * n4 - 365 * n1 = 365 → n1 = 3 ∧ (n4 < 24 ∨ n100 = 3)).
Proof.
  intros Hd H100 H4 H1.
  assert (0 ≤ d / 36524 ≤ 4) as Hn by (split; [apply Z.div_pos|apply Z.div_le_upper_bound]; lia).
  pose proof (Z.div_mod d 36524 ltac:(lia)). pose proof (Z.mod_pos_bound d 36524 ltac:(lia)).
  assert (d / 36524 / 4 = if decide (d / 36524 = 4) then 1 else 0) as E.
  { destruct (decide _) as [E|]; [by rewrite E|]. apply Z.div_small. lia. }
  rewrite E in H100. clear E. set (d1 := d - 36524 * n100) in *.
  assert (0 ≤ n100 ≤ 3 ∧ 0 ≤ d1 ≤ 36524 ∧ (d1 = 36524 → n100 = 3)) as (? & ? & ?) by (case_decide; lia).
  pose proof (Z.div_mod d1 1461 ltac:(lia)). pose proof (Z.mod_pos_bound d1 1461 ltac:(lia)). rewrite <- H4 in *.
  set (d2 := d1 - 1461 * n4) in *. assert (0 ≤ n4 ≤ 24 ∧ 0 ≤ d2 < 1461) as [? ?] by lia.
  pose proof (Z.div_mod d2 365 ltac:(lia)). pose proof (Z.mod_pos_bound d2 365 ltac:(lia)).
  assert (0 ≤ d2 / 365 ≤ 4) by (split; [apply Z.div_pos|apply Z.div_le_upper_bound]; lia).
  assert (d2 / 365 / 4 = if decide (d2 / 365 = 4) then 1 else 0) as E.
  { destruct (decide (d2 / 365 = 4)) as [E|]; [by rewrite E|]. apply Z.div_small. lia. }
  rewrite E in H1. clear E H100 H. destruct (decide (d2 / 365 = 4)); lia.
Qed.

Lemma is_leap_parts era n100 n4 :
  0 ≤ n100 ≤ 3 → 0 ≤ n4 ≤ 24 → n4 < 24 ∨ n100 = 3 → is_leap (400 * era + 100 * n100 + 4 * n4 + 3 + 1) = true.
Proof.
  intros H100 H4 Hl. unfold is_leap. rewrite (proj2 (Z.eqb_eq (_ mod 4) 0)) by divlia. cbn [andb].
  destruct (decide (n4 = 24)) as [->|].
  - destruct Hl as [| ->]; [lia|]. rewrite (proj2 (Z.eqb_eq (_ mod 400) 0)) by divlia. apply orb_true_r.
  - replace (400 * era + 100 * n100 + 4 * n4 + 3 + 1) with (4 * n4 + 4 + (4 * era + n100) * 100) by lia.
    rewrite Z_mod_plus_full, (Z.mod_small (4 * n4 + 4)) by lia. rewrite (proj2 (Z.eqb_neq _ _)) by lia. done.
Qed.

Lemma year_of_days_spec d year yday :
  0 ≤ d → year_of_days d = (year, yday) →
  days_before_year year + yday = d ∧ 400 * (d / 146097) < year ≤ 400 * (d / 146097) + 400 ∧ 0 ≤ yday < sum_days (month_days year).
Proof.
  intros Hd Hy. pose proof (Z.mod_pos_bound d 146097 eq_refl) as Hm. pose proof (Z.div_mod d 146097 ltac:(done)) as Hdm.
  unfold year_of_days in Hy. injection Hy as Hyear Hyday.
  destruct (era_parts (d mod 146097) _ _ _ Hm eq_refl eq_refl eq_refl) as (H100 & H4 & H1 & Hday & Hlast).
  set (n100 := d mod 146097 / 36524 - d mod 146097 / 36524 / 4) in *.
  set (n4 := (d mod 146097 - 36524 * n100) / 1461) in *.
  set (n1 := (d mod 146097 - 36524 * n100 - 1461 * n4) / 365 - (d mod 146097 - 36524 * n100 - 1461 * n4) / 365 / 4) in *.
  set (era := d / 146097) in *. set (r := d mod 146097) in *. clearbody n100 n4 n1 era r. rewrite sum_month_days. split_and!.
  - subst. unfold days_before_year.
    replace (400 * era + 100 * n100 + 4 * n4 + n1 + 1 - 1) with (400 * era + 100 * n100 + 4 * n4 + n1) by lia.
    replace ((400 * era + 100 * n100 + 4 * n4 + n1) / 4) with (100 * era + 25 * n100 + n4) by divlia.
    replace ((400 * era + 100 * n100 + 4 * n4 + n1) / 100) with (4 * era + n100) by divlia.
    replace ((400 * era + 100 * n100 + 4 * n4 + n1) / 400) with era by divlia. lia.
  - lia.
  - lia.
  - lia.
  - destruct (decide (yday = 365)) as [E|]; [|case_match; lia].
    destruct Hlast as [-> Hl]; [lia|]. subst year. rewrite is_leap_parts by done. lia.
Qed.

Lemma days_before_year_mono y y' : y ≤ y' → days_before_year y ≤ days_before_year y'.
Proof. unfold days_before_year. divlia. Qed.

(** A day of the year has its month. *)
Lemma month_of_day_spec lengths month day m d :
  Forall (fun l => 0 < l) lengths → 0 ≤ day < sum_days lengths → month_of_day month day lengths = (m, d) →
  ∃ i : nat, m = month + Z.of_nat i ∧ (i < length lengths)%nat ∧
    sum_days (firstn i lengths) + d = day ∧ 0 ≤ d < nth i lengths 0.
Proof.
  intros Hl. revert month day. induction Hl as [|l lengths Hpos Hl IH]; intros month day; cbn [sum_days fold_right month_of_day]; [lia|].
  intros Hday. destruct (Z.ltb_spec day l) as [Hlt|Hge].
  - intros [= <- <-]. exists 0%nat. cbn. lia.
  - intros E. apply IH in E as (i & -> & Hi & Hsum & Hd); [|unfold sum_days; lia]. exists (S i). cbn [firstn sum_days fold_right nth length].
    fold sum_days. unfold sum_days in Hsum |- *. lia.
Qed.

Lemma month_days_pos year : Forall (fun l => 0 < l) (month_days year).
Proof. unfold month_days. repeat constructor; by destruct (is_leap year). Qed.

Lemma month_days_le year i : nth i (month_days year) 0 ≤ 31.
Proof. unfold month_days. do 13 (destruct i as [|i]; [cbn; by destruct (is_leap year)|]). by destruct i. Qed.

(** ** Reading what was printed *)

Lemma digit_char k : 0 ≤ k < 10 → is_digit (char_of (48 + k)) = true ∧ byte_of (char_of (48 + k)) - 48 = k.
Proof.
  intros Hk. assert (k ∈ [0; 1; 2; 3; 4; 5; 6; 7; 8; 9]) as Hin.
  { rewrite !elem_of_cons. lia. }
  repeat (apply elem_of_cons in Hin as [->|Hin]; [done|]). by apply elem_of_nil in Hin.
Qed.

Lemma digit_at z n : is_digit (char_of (48 + (z / 10 ^ Z.of_nat n) mod 10)) = true ∧
  byte_of (char_of (48 + (z / 10 ^ Z.of_nat n) mod 10)) - 48 = (z / 10 ^ Z.of_nat n) mod 10.
Proof. apply digit_char, Z.mod_pos_bound. lia. Qed.

Lemma str_take_decpad n z r : str_take n (decpad n z +:+ r) = decpad n z ∧ str_drop n (decpad n z +:+ r) = r.
Proof. induction n as [|n [IH1 IH2]]; [by destruct r|]. cbn. by rewrite IH1, IH2. Qed.

Lemma decpad_digits n z : str_forall is_digit (decpad n z) = true ∧ len (decpad n z) = Z.of_nat n.
Proof.
  induction n as [|n [IH1 IH2]]; [done|]. cbn [decpad str_forall]. destruct (digit_at z n) as [-> _]. rewrite IH1.
  split; [done|]. unfold len in *. cbn [String.length]. lia.
Qed.

Lemma digits_value_decpad n z acc : digits_value acc (decpad n z) = acc * 10 ^ Z.of_nat n + z mod 10 ^ Z.of_nat n.
Proof.
  revert acc. induction n as [|n IH]; intros acc; [cbn; rewrite Z.mod_1_r; lia|]. cbn [decpad digits_value].
  destruct (digit_at z n) as [_ ->]. rewrite IH. rewrite Nat2Z.inj_succ, Z.pow_succ_r by lia.
  rewrite (Z.mul_comm 10 (10 ^ _)), Z.rem_mul_r by lia. lia.
Qed.

Lemma getyear_decpad year r : 0 ≤ year < 10000 → getyear (decpad 4 year +:+ r) = Some (year, r).
Proof.
  intros Hy. unfold getyear. destruct (str_take_decpad 4 year r) as [-> ->]. destruct (decpad_digits 4 year) as [-> ->].
  rewrite digits_value_decpad, Z.mod_small by (cbn; lia). done.
Qed.

Lemma getnum_decpad fixed z r : 0 ≤ z < 100 → getnum fixed (decpad 2 z +:+ r) = Some (z, r).
Proof.
  intros Hz. pose proof (digits_value_decpad 2 z 0) as Hv. rewrite Z.mod_small in Hv by (cbn; lia).
  cbn [decpad String.append digits_value] in *. unfold getnum, digit_value.
  destruct (digit_at z 1) as [-> _], (digit_at z 0) as [-> _]. cbn [negb]. do 2 f_equal. lia.
Qed.

Lemma fraction_spec n ns acc r :
  0 ≤ ns < 10 ^ Z.of_nat n → (∀ c r', r = String c r' → is_digit c = false) →
  digits (fraction n ns +:+ r) = (fraction n ns, r) ∧ len (fraction n ns) ≤ Z.of_nat n ∧
  digits_value acc (fraction n ns) * 10 ^ (Z.of_nat n - len (fraction n ns)) = acc * 10 ^ Z.of_nat n + ns.
Proof.
  revert ns acc. induction n as [|n IH]; intros ns acc Hns Hr.
  { change (10 ^ Z.of_nat 0) with 1 in *. assert (ns = 0) as -> by lia. split_and!; [|done|cbn [fraction digits_value]; change (10 ^ (Z.of_nat 0 - len "")) with 1; lia].
    destruct r as [|c r]; [done|]. cbn. by rewrite (Hr c r). }
  cbn [fraction]. destruct (Z.eqb_spec ns 0) as [->|Hne].
  { split_and!; [|unfold len; cbn [String.length]; lia|cbn [digits_value]; unfold len; cbn [String.length]; rewrite Z.sub_0_r; lia].
    destruct r as [|c r]; [done|]. cbn. by rewrite (Hr c r). }
  rewrite Nat2Z.inj_succ, Z.pow_succ_r in * by lia. pose proof (Z.pow_pos_nonneg 10 (Z.of_nat n) ltac:(lia) ltac:(lia)) as Hp.
  assert (0 ≤ ns / 10 ^ Z.of_nat n < 10) as Hq by (split; [apply Z.div_pos; lia|apply Z.div_lt_upper_bound; lia]).
  pose proof (Z.div_mod ns (10 ^ Z.of_nat n) ltac:(lia)). pose proof (Z.mod_pos_bound ns (10 ^ Z.of_nat n) ltac:(lia)).
  destruct (digit_char _ Hq) as [Hd Hv].
  destruct (IH (ns mod 10 ^ Z.of_nat n) (10 * acc + ns / 10 ^ Z.of_nat n)) as (I1 & I2 & I3); [done..|].
  cbn [String.append digits digits_value]. rewrite Hd, I1, Hv. unfold len in *. cbn [String.length]. split_and!; [done|lia|].
  replace (Z.succ (Z.of_nat n) - Z.of_nat (S (String.length (fraction n (ns mod 10 ^ Z.of_nat n)))))
    with (Z.of_nat n - Z.of_nat (String.length (fraction n (ns mod 10 ^ Z.of_nat n)))) by lia.
  rewrite I3. lia.
Qed.

Lemma str_take_all n s : len s ≤ Z.of_nat n → str_take n s = s.
Proof.
  revert s. induction n as [|n IH]; intros [|c s]; unfold len; cbn [String.length]; [done|lia|done|]. intros Hl. cbn. f_equal. apply IH. unfold len. lia.
Qed.

Lemma getfraction_format ns r :
  0 ≤ ns < Second → (∀ c r', r = String c r' → is_digit c = false ∧ is_char "." c = false ∧ is_char "," c = false) →
  getfraction ((if ns =? 0 then "" else "." +:+ fraction 9 ns) +:+ r) = (ns, r).
Proof.
  intros Hns Hr. destruct (Z.eqb_spec ns 0) as [->|Hne].
  { change ("" +:+ r) with r. destruct r as [|c r]; [done|]. cbn [getfraction]. destruct (Hr c r eq_refl) as (_ & -> & ->). done. }
  destruct (fraction_spec 9 ns 0 r) as (H1 & H2 & H3); [done|naive_solver|].
  change (("." +:+ fraction 9 ns) +:+ r) with (String "." (fraction 9 ns +:+ r)). cbn [getfraction].
  change (is_char "." "." || is_char "," ".") with true. cbv iota. rewrite H1. destruct (String.eqb_spec (fraction 9 ns) "") as [E|].
  - exfalso. rewrite E in H3. cbn in H3. lia.
  - unfold nanoseconds. rewrite str_take_all by done. f_equal. change (Z.of_nat 9) with 9 in H3. lia.
Qed.

(** An instant of the years 1 to 9999. *)
Definition in_calendar (t : Time) : Prop := 0 ≤ t < days_before_year 10000 * 86400 * Second.

(** The fields of an instant, printed and in range. *)
Lemma date_time_spec t : in_calendar t → ∃ year month day hour minute second,
  (∀ r, date_time t +:+ r = decpad 4 year +:+ "-" +:+ decpad 2 month +:+ "-" +:+ decpad 2 day +:+ "T" +:+ decpad 2 hour +:+ ":" +:+
    decpad 2 minute +:+ ":" +:+ decpad 2 second +:+ r) ∧
  1 ≤ year < 10000 ∧ 1 ≤ month ≤ 12 ∧ 1 ≤ day ≤ nth (Z.to_nat (month - 1)) (month_days year) 0 ∧
  0 ≤ hour < 24 ∧ 0 ≤ minute < 60 ∧ 0 ≤ second < 60 ∧ Date year month day hour minute second (t mod Second) = t.
Proof.
  intros [H0 H9]. unfold date_time. set (seconds := t / Second). set (days := seconds / 86400).
  assert (0 ≤ seconds < days_before_year 10000 * 86400) as Hs by (unfold seconds, Second in *; split; [apply Z.div_pos|apply Z.div_lt_upper_bound]; lia).
  assert (0 ≤ days < days_before_year 10000) as Hd by (unfold days; split; [apply Z.div_pos|apply Z.div_lt_upper_bound]; lia).
  destruct (year_of_days days) as [year yday] eqn:Hy. apply year_of_days_spec in Hy as (Hyear & Hrange & Hyday); [|lia].
  destruct (month_of_day 1 yday (month_days year)) as [month day] eqn:Hm.
  apply month_of_day_spec in Hm as (i & -> & Hi & Hsum & Hday); [|apply month_days_pos|done]. change (length (month_days year)) with 12%nat in Hi.
  exists year, (1 + Z.of_nat i), (day + 1), (seconds mod 86400 / 3600), (seconds mod 86400 / 60 mod 60), (seconds mod 86400 mod 60).
  replace (Z.to_nat (1 + Z.of_nat i - 1)) with i by lia.
  pose proof (Z.mod_pos_bound seconds 86400 ltac:(lia)). pose proof (Z.div_mod t Second ltac:(done)) as Ht.
  split_and!; try lia; try divlia.
  - intros r. by rewrite !str_app_assoc.
  - destruct (decide (year < 10000)); [done|]. pose proof (days_before_year_mono 10000 year). lia.
  - unfold Date. replace (Z.to_nat (1 + Z.of_nat i - 1)) with i by lia.
    replace (days_before_year year + sum_days (firstn i (month_days year)) + (day + 1 - 1)) with days by lia.
    replace (days * 86400 + seconds mod 86400 / 3600 * 3600 + seconds mod 86400 / 60 mod 60 * 60 + seconds mod 86400 mod 60) with seconds
      by (unfold days; divlia). fold seconds in Ht. lia.
Qed.

#[local] Arguments decpad : simpl never.
#[local] Arguments fraction : simpl never.
#[local] Arguments month_days : simpl never.

Theorem parse_format_nano t : in_calendar t → ParseRFC3339Nano (FormatRFC3339Nano t) = Some t.
Proof.
  intros Ht. destruct (date_time_spec t Ht) as (year & month & day & hour & minute & second & Hf & Hy & Hm & Hd & Hh & Hmin & Hsec & HD).
  pose proof (month_days_le year (Z.to_nat (month - 1))) as H31.
  unfold ParseRFC3339Nano, FormatRFC3339Nano. rewrite Hf.
  rewrite getyear_decpad by lia. cbn. rewrite getnum_decpad by lia. cbn. rewrite getnum_decpad by lia. cbn. rewrite getnum_decpad by lia. cbn.
  rewrite getnum_decpad by lia. cbn. rewrite getnum_decpad by lia. cbn.
  rewrite getfraction_format; [|apply Z.mod_pos_bound; done|by intros c r' [= <- <-]]. cbn.
  rewrite HD, Z.sub_0_r.
  repeat match goal with |- context [?a <? ?b] => rewrite (proj2 (Z.ltb_ge a b)) by lia end. done.
Qed.

Theorem parse_format_seconds t : in_calendar t → t mod Second = 0 → ParseRFC3339 (FormatRFC3339 t) = Some t.
Proof.
  intros Ht H0. pose proof (parse_format_nano t Ht) as Hp. unfold FormatRFC3339Nano in Hp. by rewrite H0 in Hp.
Qed.

(** What the parser takes and refuses besides what is printed. *)
Example parse_samples :
  ParseRFC3339 "1970-01-01T00:00:00Z" = Some (unixToInternal * Second) ∧
  ParseRFC3339 "1970-01-01T2:00:00.5+02:00" = Some (unixToInternal * Second + 500 * Millisecond) ∧
  ParseRFC3339 "1970-01-01T00:00:00,0000000019Z" = Some (unixToInternal * Second + 1) ∧
  ParseRFC3339 "1900-02-29T00:00:00Z" = None ∧ ParseRFC3339 "2000-02-29T00:00:60Z" = None ∧
  ParseRFC3339 "2000-02-29T00:00:00" = None ∧ ParseRFC3339 "2000-02-29T00:00:00.Z" = None.
Proof. vm_compute. auto 10. Qed.

End GoTime.
