(* ===== verification/GoURL.v ===== *)
(** * The Go standard library: net/url

    What the sources use of a parsed URL.  The parser and the printer are an
    interface: the theorems hold for every reading of a URL. *)

From S2P Require Import Prelude.

Module GoURL.

Record URL := {
  u_Scheme : string; u_Opaque : string; u_User : option string; u_Host : string; u_Path : string; u_RawPath : string;
  u_OmitHost : bool; u_ForceQuery : bool; u_RawQuery : string; u_Fragment : string; u_RawFragment : string;
}.

Class NetURL := { url_Parse : string → option URL; url_String : URL → string }.

End GoURL.
