(* ===== verification/Crypto.v ===== *)
(** * Digests, encodings and signatures

    SHA-256 (FIPS 180-4) as crypto/sha256 computes it, the base64 alphabet of
    base64.RawURLEncoding, and Ed25519 as an interface: a verifier accepts what
    the signer of the same key pair signs. *)

From S2P Require Import Prelude Text.

Open Scope Z_scope.

Module Crypto.

(** ** SHA-256 *)

Definition rotr (n x : Z) : Z := Z.lor (Z.shiftr x n) (u32 (Z.shiftl x (32 - n))).
Definition not32 (x : Z) : Z := 2 ^ 32 - 1 - x.

(** The first primes: numbers below 312 that nothing smaller divides. *)
Definition first_primes : list Z :=
  List.filter (fun n => forallb (fun d => negb (n mod d =? 0)) (seqZ 2 (n - 2))) (seqZ 2 310).

(** The integer cube root of a number below 2^108, bit by bit. *)
Definition cube_root (n : Z) : Z :=
  fold_left (fun r i => let r' := r + 2 ^ i in if r' ^ 3 <=? n then r' else r) (rev (seqZ 0 36)) 0.

(** The round constants and the initial state: the first 32 bits of the fractional
    parts of the cube and square roots of the first primes. *)
Definition sha_k : list Z := Eval vm_compute in map (fun p => cube_root (p * 2 ^ 96) mod 2 ^ 32) first_primes.

Record sha_state := { sa : Z; sb : Z; sc : Z; sd : Z; se : Z; sf : Z; sg : Z; sh : Z }.

Definition sha_init : sha_state :=
  Eval vm_compute in
  let h p := Z.sqrt (p * 2 ^ 64) mod 2 ^ 32 in
  {| sa := h 2; sb := h 3; sc := h 5; sd := h 7; se := h 11; sf := h 13; sg := h 17; sh := h 19 |}.

Definition sha_round (s : sha_state) (kw : Z * Z) : sha_state :=
  let s1 := Z.lxor (rotr 6 (se s)) (Z.lxor (rotr 11 (se s)) (rotr 25 (se s))) in
  let ch := Z.lxor (Z.land (se s) (sf s)) (Z.land (not32 (se s)) (sg s)) in
  let t1 := sh s + s1 + ch + kw.1 + kw.2 in
  let s0 := Z.lxor (rotr 2 (sa s)) (Z.lxor (rotr 13 (sa s)) (rotr 22 (sa s))) in
  let maj := Z.lxor (Z.land (sa s) (sb s)) (Z.lxor (Z.land (sa s) (sc s)) (Z.land (sb s) (sc s))) in
  {| sa := u32 (t1 + s0 + maj); sb := sa s; sc := sb s; sd := sc s;
     se := u32 (sd s + t1); sf := se s; sg := sf s; sh := sg s |}.

(** The message schedule: [w] holds the words so far, newest first. *)
Fixpoint schedule (n : nat) (w : list Z) : list Z :=
  match n with
  | O => rev w
  | S n' =>
      let at_ i := nth i w 0 in
      let s0 := Z.lxor (rotr 7 (at_ 14%nat)) (Z.lxor (rotr 18 (at_ 14%nat)) (Z.shiftr (at_ 14%nat) 3)) in
      let s1 := Z.lxor (rotr 17 (at_ 1%nat)) (Z.lxor (rotr 19 (at_ 1%nat)) (Z.shiftr (at_ 1%nat) 10)) in
      schedule n' (u32 (at_ 15%nat + s0 + at_ 6%nat + s1) :: w)
  end.

Fixpoint be_words (bs : list Z) : list Z :=
  match bs with
  | a :: b :: c :: d :: rest => (a * 2 ^ 24 + b * 2 ^ 16 + c * 2 ^ 8 + d) :: be_words rest
  | _ => []
  end.

Definition sha_block (s : sha_state) (block : list Z) : sha_state :=
  let w := schedule 48 (rev (be_words block)) in
  let t := fold_left sha_round (combine sha_k w) s in
  {| sa := u32 (sa s + sa t); sb := u32 (sb s + sb t); sc := u32 (sc s + sc t); sd := u32 (sd s + sd t);
     se := u32 (se s + se t); sf := u32 (sf s + sf t); sg := u32 (sg s + sg t); sh := u32 (sh s + sh t) |}.

Fixpoint sha_blocks (n : nat) (s : sha_state) (bs : list Z) : sha_state :=
  match n with
  | O => s
  | S n' => sha_blocks n' (sha_block s (firstn 64 bs)) (skipn 64 bs)
  end.

(** The padding brings the length to a multiple of 64. *)
Definition sha_pad (bs : list Z) : list Z :=
  let n := Z.of_nat (length bs) in
  bs ++ [128] ++ repeat 0 (Z.to_nat ((55 - n) mod 64)) ++ be_bytes 8 (8 * n).

Definition bytes_of (s : string) : list Z := map byte_of (String.list_ascii_of_string s).

(** [sha256.Sum256] *)
Definition Sum256 (s : string) : list Z :=
  let padded := sha_pad (bytes_of s) in
  let t := sha_blocks (length padded / 64) sha_init padded in
  flat_map (be_bytes 4) [sa t; sb t; sc t; sd t; se t; sf t; sg t; sh t].

(** ["sha256:" + hex.EncodeToString(digest[:])] *)
Definition bytesDigest (value : string) : string := "sha256:" +:+ hex_bytes (Sum256 value).

(** ** base64.RawURLEncoding *)

Definition b64_char (n : Z) : ascii :=
  if n <? 26 then char_of (65 + n)
  else if n <? 52 then char_of (71 + n)
  else if n <? 62 then char_of (n - 4)
  else if n =? 62 then "-" else "_".

Definition b64_value (c : ascii) : option Z :=
  if is_upper c then Some (byte_of c - 65)
  else if is_lower c then Some (byte_of c - 71)
  else if is_digit c then Some (byte_of c + 4)
  else if Ascii.eqb c "-" then Some 62
  else if Ascii.eqb c "_" then Some 63
  else None.

Fixpoint b64_encode (bs : list Z) : string :=
  match bs with
  | [] => ""
  | [a] => String (b64_char (a / 4)) (String (b64_char (a mod 4 * 16)) "")
  | [a; b] =>
      String (b64_char (a / 4)) (String (b64_char (a mod 4 * 16 + b / 16)) (String (b64_char (b mod 16 * 4)) ""))
  | a :: b :: c :: rest =>
      String (b64_char (a / 4)) (String (b64_char (a mod 4 * 16 + b / 16))
        (String (b64_char (b mod 16 * 4 + c / 64)) (String (b64_char (c mod 64)) (b64_encode rest))))
  end.

Fixpoint b64_decode_chars (s : string) : option (list Z) :=
  match s with
  | "" => Some []
  | String a (String b "") =>
      match b64_value a, b64_value b with
      | Some x, Some y => Some [x * 4 + y / 16]
      | _, _ => None
      end
  | String a (String b (String c "")) =>
      match b64_value a, b64_value b, b64_value c with
      | Some x, Some y, Some z => Some [x * 4 + y / 16; y mod 16 * 16 + z / 4]
      | _, _, _ => None
      end
  | String a (String b (String c (String d rest))) =>
      match b64_value a, b64_value b, b64_value c, b64_value d, b64_decode_chars rest with
      | Some x, Some y, Some z, Some w, Some bs =>
          Some (x * 4 + y / 16 :: y mod 16 * 16 + z / 4 :: z mod 4 * 64 + w :: bs)
      | _, _, _, _, _ => None
      end
  | String _ "" => None
  end.

(** [DecodeString] skips carriage returns and newlines. *)
Definition b64_decode (s : string) : option (list Z) :=
  b64_decode_chars (str_filter (fun c => negb ((byte_of c =? 10) || (byte_of c =? 13))) s).

(** ** Ed25519 *)

Definition PublicKeySize : nat := 32.
Definition PrivateKeySize : nat := 64.
Definition SignatureSize : nat := 64.

(** Keys and signatures are byte slices. *)
Class Ed25519 := {
  ed_public : list Z → list Z;
  ed_Sign : list Z → string → list Z;
  ed_Verify : list Z → string → list Z → bool;
  ed_public_length : ∀ key, length key = PrivateKeySize → length (ed_public key) = PublicKeySize;
  ed_Sign_bytes : ∀ key m, length key = PrivateKeySize →
    length (ed_Sign key m) = SignatureSize ∧ Forall is_byte (ed_Sign key m);
  ed_Verify_Sign : ∀ key m, length key = PrivateKeySize → ed_Verify (ed_public key) m (ed_Sign key m) = true;
}.

(** ** Lemmas *)

(** The known answers of FIPS 180-4 for the empty message, "abc", and a message of
    two blocks. *)
Example sha256_known_answers :
  bytesDigest "" = "sha256:e3b0c44298fc1c149afbf4c8996fb92427ae41e4649b934ca495991b7852b855" ∧
  bytesDigest "abc" = "sha256:ba7816bf8f01cfea414140de5dae2223b00361a396177a9cb410ff61f20015ad" ∧
  bytesDigest "abcdbcdecdefdefgefghfghighijhijkijkljklmklmnlmnomnopnopq" =
    "sha256:248d6a61d20638b8e5c026930c3e6039a33ce45964ff2167f6ecedd419db06c1".
Proof. vm_compute. auto. Qed.

Lemma be_bytes_length n z : length (be_bytes n z) = n.
Proof. induction n; simpl; auto. Qed.

Lemma Sum256_length s : length (Sum256 s) = 32%nat.
Proof. unfold Sum256. cbn [flat_map]. rewrite !length_app, !be_bytes_length. done. Qed.

Lemma be_bytes_bytes n z : Forall is_byte (be_bytes n z).
Proof. induction n as [|n IH]; simpl; constructor; [|done]. unfold is_byte. apply Z.mod_pos_bound. lia. Qed.

Lemma Sum256_bytes s : Forall is_byte (Sum256 s).
Proof. unfold Sum256. cbn [flat_map]. rewrite !Forall_app. repeat split; try apply be_bytes_bytes. constructor. Qed.

Lemma hex_Sum256_inj s t : hex_bytes (Sum256 s) = hex_bytes (Sum256 t) → Sum256 s = Sum256 t.
Proof.
  intros E. pose proof (hex_decode_bytes _ (Sum256_bytes s)) as H1. rewrite E, hex_decode_bytes in H1 by apply Sum256_bytes.
  by apply (inj Some) in H1.
Qed.

Lemma is_digest_intro h : str_forall is_hex h = true → String.length h = 64%nat → is_digest ("sha256:" +:+ h) = true.
Proof.
  intros Hh Hl. unfold is_digest. rewrite len_app. unfold len. rewrite Hl.
  change (str_drop 7 ("sha256:" +:+ h)) with h. rewrite Hh, andb_true_r. simpl.
  rewrite andb_true_r. by destruct h.
Qed.

(** A SHA-256 digest matches the digest pattern of the contracts. *)
Lemma bytesDigest_is_digest s : is_digest (bytesDigest s) = true.
Proof. apply is_digest_intro; [apply hex_bytes_is_hex|]. by rewrite hex_bytes_length, Sum256_length. Qed.

(** SHA-256 collides on two given texts.  Collisions exist; a statement that allows for
    one names the two texts that have to collide. *)
Definition collide (x y : string) : Prop := x ≠ y ∧ Sum256 x = Sum256 y.

Lemma collide_sym x y : collide x y → collide y x.
Proof. by intros [??]. Qed.

(** Texts with the same digest are the same, or SHA-256 collides on them. *)
Lemma bytesDigest_same x y : bytesDigest x = bytesDigest y → x = y ∨ collide x y.
Proof.
  intros Heq. destruct (decide (x = y)) as [->|Hne]; [by left|]. right. split; [done|].
  unfold bytesDigest in Heq. apply (inj _) in Heq. by apply hex_Sum256_inj.
Qed.

(** Every character of the alphabet decodes to its value. *)
Lemma b64_value_char n : 0 ≤ n < 64 → b64_value (b64_char n) = Some n.
Proof.
  intros Hn. assert (forallb (fun n => bool_decide (b64_value (b64_char (Z.of_nat n)) = Some (Z.of_nat n))) (seq 0 64) = true)
    as Hall by (vm_compute; reflexivity).
  rewrite forallb_forall in Hall. specialize (Hall (Z.to_nat n)). rewrite Z2Nat.id in Hall by lia.
  apply (bool_decide_eq_true_1 _). apply Hall. apply in_seq. lia.
Qed.

Lemma b64_char_kept n : 0 ≤ n < 64 → (byte_of (b64_char n) =? 10) || (byte_of (b64_char n) =? 13) = false.
Proof.
  intros Hn. assert (forallb (fun n => negb ((byte_of (b64_char (Z.of_nat n)) =? 10) ||
    (byte_of (b64_char (Z.of_nat n)) =? 13))) (seq 0 64) = true) as Hall by (vm_compute; reflexivity).
  rewrite forallb_forall in Hall. specialize (Hall (Z.to_nat n)). rewrite Z2Nat.id in Hall by lia.
  apply negb_true_iff. apply Hall. apply in_seq. lia.
Qed.

Lemma b64_decode_encode bs : Forall is_byte bs → b64_decode (b64_encode bs) = Some bs.
Proof.
  unfold b64_decode. induction bs as [bs IH] using (induction_ltof1 _ (@length Z)). unfold ltof in IH.
  intros Hb. destruct bs as [|a [|b [|c rest]]]; [done|..];
    repeat match goal with Hf : Forall _ (_ :: _) |- _ => apply Forall_cons in Hf as [? Hf] end;
    unfold is_byte in *; cbn [b64_encode str_filter];
    rewrite ?b64_char_kept by (split; Z.to_euclidean_division_equations; lia); cbn [negb b64_decode_chars];
    rewrite ?b64_value_char by (split; Z.to_euclidean_division_equations; lia).
  - repeat f_equal. Z.to_euclidean_division_equations; lia.
  - repeat f_equal; Z.to_euclidean_division_equations; lia.
  - rewrite IH by (simpl; auto with lia). repeat f_equal; Z.to_euclidean_division_equations; lia.
Qed.

(** A scheme that satisfies the laws, for examples: the signature is the public
    key and the start of the message (and protects nothing). *)
Definition first_bytes (l : list Z) : list Z := map (fun b => b mod 256) (firstn 32 (l ++ repeat 0 32)).

Lemma first_bytes_spec l : length (first_bytes l) = 32%nat ∧ Forall is_byte (first_bytes l).
Proof.
  unfold first_bytes. split.
  - rewrite List.length_map, List.length_firstn, List.length_app, List.repeat_length. lia.
  - apply Forall_forall. intros b Hb. apply list_elem_of_In, in_map_iff in Hb as (x & <- & _).
    unfold is_byte. apply Z.mod_pos_bound. lia.
Qed.

Program Definition toy_ed25519 : Ed25519 := {|
  ed_public key := first_bytes key;
  ed_Sign key m := first_bytes key ++ first_bytes (bytes_of m);
  ed_Verify public m signature := bool_decide (signature = public ++ first_bytes (bytes_of m));
|}.
Next Obligation. intros key _. apply first_bytes_spec. Qed.
Next Obligation.
  intros key m _. destruct (first_bytes_spec key), (first_bytes_spec (bytes_of m)). split.
  - rewrite List.length_app. unfold SignatureSize. lia.
  - by apply Forall_app.
Qed.
Next Obligation. intros. by apply bool_decide_eq_true_2. Qed.

End Crypto.
