(* ===== verification/PlatformID.v ===== *)
(** * Resource identifiers (internal/platformid/id.go)

    Prefixed UUIDv7 identifiers: [NewAt] mints one from a clock and an entropy
    source, [Parse] accepts exactly the canonical ones, [Prefix] and [Time_of]
    read them back. *)

From S2P Require Import Prelude Text.

Open Scope Z_scope.

Module PlatformID.

Abbreviation ID := string (only parsing).

Definition uuidTextLength : Z := 36.

Definition allowedPrefixes : list string :=
  ["acct"; "org"; "mbr"; "inv"; "prj"; "env";
   "svc"; "src"; "snp"; "bld"; "rev"; "dep";
   "rel"; "op"; "dom"; "crt"; "rte"; "add";
   "att"; "bkp"; "rst"; "sch"; "wh"; "whd";
   "key"; "evt"; "tgt"; "edg"; "cell"; "pop";
   "use"; "sec"; "var"; "vol"; "job"; "run";
   "pol"; "inc"; "ses"; "tok";
   "upl"; "fet"; "psb"].

Definition allowed (prefix : string) : bool := existsb (String.eqb prefix) allowedPrefixes.

Definition invalid (msg : string) : error := Error "invalid resource identifier" msg.

(** [b[i:j]] of a byte array. *)
Definition slice {A} (i j : nat) (b : list A) : list A := take (j - i) (drop i b).

(** [binary.BigEndian.Uint16] and [Uint32]. *)
Definition be_uint (bs : list Z) : Z := fold_left (fun acc b => acc * 256 + b) bs 0.

(** [raw[i]] of a fixed-size array. *)
Definition idx (raw : list Z) (i : nat) : Z := nth i raw 0.

(** The entropy source: [None] is a nil reader, [Some bs] a reader that yields
    the bytes [bs] and then fails, so [io.ReadFull] needs sixteen of them. *)
Definition ReadFull (n : nat) (randomness : list Z) : option (list Z) :=
  if (length randomness <? n)%nat then None else Some (take n randomness).

(** Time, version and variant bits over the random bytes. *)
Definition stamp (milliseconds : Z) (raw : list Z) : list Z :=
  let raw := <[0%nat := u8 (Z.shiftr milliseconds 40)]> raw in
  let raw := <[1%nat := u8 (Z.shiftr milliseconds 32)]> raw in
  let raw := <[2%nat := u8 (Z.shiftr milliseconds 24)]> raw in
  let raw := <[3%nat := u8 (Z.shiftr milliseconds 16)]> raw in
  let raw := <[4%nat := u8 (Z.shiftr milliseconds 8)]> raw in
  let raw := <[5%nat := u8 milliseconds]> raw in
  let raw := <[6%nat := Z.lor 0x70 (Z.land (idx raw 6) 0x0f)]> raw in
  <[8%nat := Z.lor 0x80 (Z.land (idx raw 8) 0x3f)]> raw.

(** [fmt.Sprintf("%08x-%04x-%04x-%04x-%012x", ...)] *)
Definition format_uuid (raw : list Z) : string :=
  hexpad 8 (be_uint (slice 0 4 raw)) +:+ "-" +:+
  hexpad 4 (be_uint (slice 4 6 raw)) +:+ "-" +:+
  hexpad 4 (be_uint (slice 6 8 raw)) +:+ "-" +:+
  hexpad 4 (be_uint (slice 8 10 raw)) +:+ "-" +:+
  hex_bytes (slice 10 16 raw).

Definition NewAt (prefix : string) (now : Time) (randomness : option (list Z)) : result ID :=
  if negb (allowed prefix) then Err (invalid "unsupported prefix")
  else match randomness with
  | None => Err (invalid "randomness source is nil")
  | Some source =>
      let milliseconds := UnixMilli now in
      if (milliseconds <? 0) || (2 ^ 48 - 1 <? milliseconds)
      then Err (invalid "timestamp is outside UUIDv7 range")
      else match ReadFull 16 source with
      | None => Err (Error "read UUIDv7 randomness" "")
      | Some raw => Ok (prefix +:+ "_" +:+ format_uuid (stamp milliseconds raw))
      end
  end.

(** [fmt.Sprintf("%x-%x-%x-%x-%x", ...)] of byte slices *)
Definition canonical_uuid (raw : list Z) : string :=
  hex_bytes (slice 0 4 raw) +:+ "-" +:+ hex_bytes (slice 4 6 raw) +:+ "-" +:+
  hex_bytes (slice 6 8 raw) +:+ "-" +:+ hex_bytes (slice 8 10 raw) +:+ "-" +:+
  hex_bytes (slice 10 16 raw).

Definition is_dash (c : ascii) : bool := Ascii.eqb c "-"%char.

(** [strings.ReplaceAll(s, "-", "")] *)
Definition without_dashes (s : string) : string := str_filter (fun c => negb (is_dash c)) s.

Section Parse.
Context `{GoText}.

(** The sixteen-byte array [hex.Decode] fills; bytes it does not reach stay 0.
    [compact] has at most 32 digits, so it never overruns the array. *)
Definition Parse (value : string) : result ID :=
  match Cut value "_"%char with
  | None => Err (invalid "prefix separator is missing")
  | Some (prefix, uuid) =>
      if negb (allowed prefix) then Err (invalid "unsupported prefix")
      else if negb (len uuid =? uuidTextLength) || negb (String.eqb uuid (ToLower uuid))
      then Err (invalid "UUID must be canonical lowercase text")
      else if negb (is_dash (at_index uuid 8)) || negb (is_dash (at_index uuid 13)) ||
              negb (is_dash (at_index uuid 18)) || negb (is_dash (at_index uuid 23))
      then Err (invalid "UUID separators are not canonical")
      else match hex_decode (without_dashes uuid) with
      | None => Err (invalid "malformed UUID")
      | Some bytes =>
          let raw := take 16 (bytes ++ replicate 16 0) in
          if negb (Z.shiftr (idx raw 6) 4 =? 7) then Err (invalid "UUID version is not 7")
          else if negb (Z.land (idx raw 8) 0xc0 =? 0x80)
          then Err (invalid "UUID variant is not RFC 9562")
          else if negb (String.eqb uuid (canonical_uuid raw))
          then Err (invalid "UUID is not canonical")
          else Ok value
      end
  end.

Definition Prefix (id : ID) : string :=
  match Cut id "_"%char with Some (prefix, _) => prefix | None => id end.

(** [strconv.ParseInt(s, 16, 64)] on unsigned digits. *)
Fixpoint parse_hex (acc : Z) (s : string) : option Z :=
  match s with
  | "" => Some acc
  | String c s' => match hex_value c with Some d => parse_hex (acc * 16 + d) s' | None => None end
  end.

Definition Time_of (id : ID) : result Time :=
  let* parsed := Parse id in
  match Cut parsed "_"%char with
  | None => Err (Error "parse UUIDv7 timestamp" "")
  | Some (_, uuid) =>
      match parse_hex 0 (without_dashes (str_take 13 uuid)) with
      | None => Err (Error "parse UUIDv7 timestamp" "")
      | Some milliseconds => Ok (FromUnixMilli milliseconds)
      end
  end.

(** [id, err := Parse(v)] succeeds and [id.Prefix() == prefix]: the check every
    other component makes. *)
Definition has_prefix (value prefix : string) : bool :=
  match Parse value with
  | Ok id => String.eqb (Prefix id) prefix
  | Err _ => false
  end.

End Parse.

(** ** The set of identifiers *)

(** Sixteen bytes carrying version 7 and the RFC 9562 variant. *)
Definition uuidv7 (raw : list Z) : Prop :=
  length raw = 16%nat ∧ Forall is_byte raw ∧
  Z.shiftr (idx raw 6) 4 = 7 ∧ Z.land (idx raw 8) 0xc0 = 0x80.

Definition well_formed (prefix : string) (raw : list Z) (value : string) : Prop :=
  allowed prefix = true ∧ uuidv7 raw ∧ value = prefix +:+ "_" +:+ canonical_uuid raw.

(** The 48-bit timestamp of the array. *)
Definition timestamp (raw : list Z) : Z := be_uint (take 6 raw).

(** ** Lemmas *)

Lemma allowed_In prefix : allowed prefix = true ↔ In prefix allowedPrefixes.
Proof.
  unfold allowed. rewrite existsb_exists. split.
  - intros (x & Hx & ->%String.eqb_eq). done.
  - intros. exists prefix. by rewrite String.eqb_refl.
Qed.

(** No resource prefix contains one of the separators the key formats use. *)
Lemma allowed_alphabet prefix :
  allowed prefix = true → str_forall is_lower prefix = true.
Proof.
  rewrite allowed_In. unfold allowedPrefixes. simpl.
  intros; destruct_or!; subst; done.
Qed.

Ltac array16 raw H :=
  do 16 (destruct raw as [|? raw]; [done|]); destruct raw; [clear H|done].

Lemma be_uint_app bs cs :
  be_uint (bs ++ cs) = be_uint bs * 256 ^ Z.of_nat (length cs) + be_uint cs.
Proof.
  unfold be_uint. rewrite fold_left_app. generalize (fold_left (λ acc b, acc * 256 + b) bs 0).
  induction cs as [|c cs IH] using rev_ind; intros x; simpl; [lia|].
  rewrite !fold_left_app, length_app, IH. simpl.
  rewrite Nat2Z.inj_add, Z.pow_add_r by lia. change (256 ^ Z.of_nat 1) with 256. lia.
Qed.

Lemma be_uint_range bs : Forall is_byte bs → 0 ≤ be_uint bs < 256 ^ Z.of_nat (length bs).
Proof.
  induction bs as [|b bs IH] using rev_ind; intros HF; [done|].
  apply Forall_app in HF as [HF Hb]. apply Forall_inv in Hb. unfold is_byte in Hb.
  specialize (IH HF). rewrite be_uint_app, length_app, Nat2Z.inj_add, Z.pow_add_r by lia.
  change (256 ^ Z.of_nat (length [b])) with 256. change (be_uint [b]) with (0 * 256 + b). lia.
Qed.

Lemma be_bytes_be_uint bs : Forall is_byte bs → be_bytes (length bs) (be_uint bs) = bs.
Proof.
  cut (∀ k, 0 ≤ k → Forall is_byte bs →
    be_bytes (length bs) (k * 256 ^ Z.of_nat (length bs) + be_uint bs) = bs).
  { intros Hk HF. specialize (Hk 0 ltac:(lia) HF). simpl in Hk. by rewrite Z.add_0_l in Hk. }
  induction bs as [|b bs IH]; intros k Hk HF; [done|].
  apply Forall_cons in HF as [Hb HF]. unfold is_byte in Hb.
  change (b :: bs) with ([b] ++ bs). rewrite be_uint_app.
  change (be_uint [b]) with (0 * 256 + b). cbn [app length be_bytes].
  pose proof (be_uint_range bs HF) as Hr.
  assert (0 < 256 ^ Z.of_nat (length bs)) by (apply Z.pow_pos_nonneg; lia).
  rewrite Nat2Z.inj_succ, Z.pow_succ_r by lia.
  replace (k * (256 * 256 ^ Z.of_nat (length bs)) +
           ((0 * 256 + b) * 256 ^ Z.of_nat (length bs) + be_uint bs))
    with ((k * 256 + b) * 256 ^ Z.of_nat (length bs) + be_uint bs) by ring.
  rewrite IH by (done || lia).
  f_equal. rewrite Z.div_add_l by lia. rewrite (Z.div_small (be_uint bs)) by lia.
  rewrite Z.add_0_r, Z.add_comm, Z.mod_add by lia. by apply Z.mod_small.
Qed.

Lemma hexpad_be_uint bs :
  Forall is_byte bs → hexpad (2 * length bs) (be_uint bs) = hex_bytes bs.
Proof. intros. by rewrite hexpad_be_bytes, be_bytes_be_uint. Qed.

Lemma slice_length {A} (i j : nat) (b : list A) :
  (i ≤ j ≤ length b)%nat → length (slice i j b) = (j - i)%nat.
Proof. intros. unfold slice. rewrite length_take, length_drop. lia. Qed.

Lemma slice_Forall {A} (P : A → Prop) i j (b : list A) : Forall P b → Forall P (slice i j b).
Proof. intros. by apply Forall_take, Forall_drop. Qed.

(** Minting and parsing print the same text. *)
Lemma format_canonical raw :
  length raw = 16%nat → Forall is_byte raw → format_uuid raw = canonical_uuid raw.
Proof.
  intros Hl HF. unfold format_uuid, canonical_uuid.
  assert (∀ i j n, (i ≤ j ≤ 16)%nat → n = (2 * (j - i))%nat →
    hexpad n (be_uint (slice i j raw)) = hex_bytes (slice i j raw)) as Hs.
  { intros i j n Hij ->. rewrite <- hexpad_be_uint by (by apply slice_Forall).
    by rewrite slice_length by (rewrite Hl; lia). }
  by rewrite !Hs by (lia || done).
Qed.

Lemma is_hex_not_dash c : is_hex c = true → is_dash c = false.
Proof. intros Hc. unfold is_dash. by destruct (Ascii.eqb_spec c "-") as [->|]. Qed.

Lemma without_dashes_hex s : str_forall is_hex s = true → without_dashes s = s.
Proof.
  induction s as [|c s IH]; simpl; [done|]. intros [Hc Hs]%andb_true_iff.
  unfold without_dashes in *. simpl. rewrite is_hex_not_dash by done. simpl. by rewrite IH.
Qed.

Lemma without_dashes_hex_bytes bs : without_dashes (hex_bytes bs) = hex_bytes bs.
Proof. apply without_dashes_hex, hex_bytes_is_hex. Qed.

Lemma without_dashes_app a b : without_dashes (a +:+ b) = without_dashes a +:+ without_dashes b.
Proof.
  unfold without_dashes. induction a as [|c a IH]; simpl; [done|].
  rewrite IH. by destruct (is_dash c).
Qed.

Lemma slices (raw : list Z) : length raw = 16%nat →
  slice 0 4 raw ++ slice 4 6 raw ++ slice 6 8 raw ++ slice 8 10 raw ++ slice 10 16 raw = raw.
Proof. intros Hl. array16 raw Hl. done. Qed.

Lemma without_dashes_canonical raw :
  length raw = 16%nat → without_dashes (canonical_uuid raw) = hex_bytes raw.
Proof.
  intros Hl. unfold canonical_uuid. rewrite !without_dashes_app.
  rewrite !without_dashes_hex_bytes.
  change (without_dashes "-") with "". cbn [String.append].
  by rewrite <- !hex_bytes_app, slices.
Qed.

Lemma canonical_shape raw : length raw = 16%nat →
  len (canonical_uuid raw) = 36 ∧
  is_dash (at_index (canonical_uuid raw) 8) = true ∧ is_dash (at_index (canonical_uuid raw) 13) = true ∧
  is_dash (at_index (canonical_uuid raw) 18) = true ∧ is_dash (at_index (canonical_uuid raw) 23) = true.
Proof. intros Hl. array16 raw Hl. done. Qed.

Lemma canonical_alphabet raw :
  str_forall (fun c => is_hex c || is_dash c) (canonical_uuid raw) = true.
Proof.
  assert (∀ bs, str_forall (fun c => is_hex c || is_dash c) (hex_bytes bs) = true) as Hb.
  { intros bs. eapply str_forall_impl; [|apply hex_bytes_is_hex]. simpl. intros c ->. done. }
  unfold canonical_uuid. by rewrite !str_forall_app, !Hb.
Qed.

Lemma lower_char_alphabet c : is_hex c || is_dash c = true → is_ascii c = true ∧ lower_char c = c.
Proof.
  rewrite orb_true_iff. intros [H|H].
  - destruct (hex_digit_value c H) as (n & Hn & -> & _). each_nibble n; done.
  - unfold is_dash in H. apply Ascii.eqb_eq in H as ->. done.
Qed.

Lemma ToLower_alphabet `{GoText} s :
  str_forall (fun c => is_hex c || is_dash c) s = true → ToLower s = s.
Proof.
  intros Hs. unfold ToLower.
  rewrite (str_forall_impl _ is_ascii s (fun c Hc => proj1 (lower_char_alphabet c Hc)) Hs).
  induction s as [|c s IH]; simpl in *; [done|]. apply andb_true_iff in Hs as [Hc Hs].
  rewrite IH by done. by rewrite (proj2 (lower_char_alphabet c Hc)).
Qed.

Lemma prefix_no_underscore prefix : allowed prefix = true → ContainsChar prefix "_" = false.
Proof. intros. apply (ContainsChar_forall is_lower); [by apply allowed_alphabet|done]. Qed.

Lemma take_pad (raw : list Z) : length raw = 16%nat → take 16 (raw ++ replicate 16 0) = raw.
Proof. intros Hl. by rewrite take_app_length' by done. Qed.

Section ParseLemmas.
Context `{GoText}.

Lemma Parse_sound v id :
  Parse v = Ok id → id = v ∧ ∃ prefix raw, well_formed prefix raw v.
Proof.
  unfold Parse. intros Hp. run_ok Hp. split; [done|]. bsimpl.
  match goal with Hc : Cut _ _ = Some (?p, ?u), Hd : hex_decode _ = Some ?bs |- _ =>
    apply Cut_Some in Hc as [-> _];
    exists p, (take 16 (bs ++ replicate 16 0)); pose proof (hex_decode_bytes_range _ _ Hd) as HF end.
  split; [done|]. split; [|by f_equal; f_equal].
  split; [rewrite length_take, length_app, length_replicate; lia|].
  split; [|done]. apply Forall_take, Forall_app; split; [done|].
  apply Forall_replicate. unfold is_byte; lia.
Qed.

Lemma Parse_complete prefix raw v : well_formed prefix raw v → Parse v = Ok v.
Proof.
  intros (Hp & (Hl & HF & Hver & Hvar) & ->). unfold Parse.
  change ("_" +:+ canonical_uuid raw) with (String "_" (canonical_uuid raw)).
  rewrite Cut_app by (by apply prefix_no_underscore). rewrite Hp. cbn [negb].
  destruct (canonical_shape raw Hl) as (-> & -> & -> & -> & ->).
  rewrite ToLower_alphabet by apply canonical_alphabet. rewrite String.eqb_refl. cbn -[hex_decode take].
  rewrite without_dashes_canonical, hex_decode_bytes, take_pad by done.
  by rewrite Hver, Hvar, String.eqb_refl.
Qed.

Lemma Prefix_well_formed prefix raw v : well_formed prefix raw v → Prefix v = prefix.
Proof.
  intros (Hp & _ & ->). unfold Prefix.
  change ("_" +:+ canonical_uuid raw) with (String "_" (canonical_uuid raw)).
  by rewrite Cut_app by (by apply prefix_no_underscore).
Qed.

Lemma has_prefix_spec v prefix :
  has_prefix v prefix = true ↔ ∃ raw, well_formed prefix raw v.
Proof.
  unfold has_prefix. split.
  - destruct (Parse v) as [id|] eqn:E; [|done]. apply Parse_sound in E as (-> & p & raw & Hw).
    rewrite String.eqb_eq, (Prefix_well_formed _ _ _ Hw). intros <-. eauto.
  - intros [raw Hw]. rewrite (Parse_complete _ _ _ Hw), (Prefix_well_formed _ _ _ Hw).
    apply String.eqb_refl.
Qed.

(** Identifiers are over lower-case letters, digits, ['_'] and ['-']. *)
Definition id_char (c : ascii) : bool :=
  is_lower c || is_digit c || Ascii.eqb c "_" || Ascii.eqb c "-".

Lemma has_prefix_alphabet v prefix : has_prefix v prefix = true → str_forall id_char v = true.
Proof.
  rewrite has_prefix_spec. intros (raw & Hp & _ & ->).
  rewrite !str_forall_app. rewrite !andb_true_iff. split; [|split].
  - eapply str_forall_impl; [|by apply allowed_alphabet]. unfold id_char. by intros c ->.
  - done.
  - eapply str_forall_impl; [|by apply canonical_alphabet].
    intros c. rewrite orb_true_iff. intros [Hc|Hc].
    + destruct (hex_digit_value c Hc) as (n & Hn & -> & _). each_nibble n; done.
    + unfold is_dash in Hc. apply Ascii.eqb_eq in Hc as ->. done.
Qed.

(** An identifier has one resource type. *)
Lemma has_prefix_unique v p q : has_prefix v p = true → has_prefix v q = true → p = q.
Proof.
  unfold has_prefix. destruct (Parse v); [|done]. rewrite !String.eqb_eq. congruence.
Qed.

End ParseLemmas.

(** ** Minting *)

(** A boolean property of a byte holds when it holds of all 256. *)
Lemma byte_cases (P : Z → bool) b :
  forallb P (map Z.of_nat (seq 0 256)) = true → is_byte b → P b = true.
Proof.
  rewrite forallb_forall. intros HP Hb. apply HP. apply in_map_iff.
  exists (Z.to_nat b). unfold is_byte in Hb. split; [lia|]. apply in_seq. lia.
Qed.

Lemma version_bits b : is_byte b →
  Z.shiftr (Z.lor 0x70 (Z.land b 0x0f)) 4 = 7 ∧ is_byte (Z.lor 0x70 (Z.land b 0x0f)).
Proof.
  intros Hb. pose proof (byte_cases (fun b => (Z.shiftr (Z.lor 0x70 (Z.land b 0x0f)) 4 =? 7) &&
    (0 <=? Z.lor 0x70 (Z.land b 0x0f)) && (Z.lor 0x70 (Z.land b 0x0f) <? 256)) b eq_refl Hb).
  unfold is_byte. bsimpl. auto.
Qed.

Lemma variant_bits b : is_byte b →
  Z.land (Z.lor 0x80 (Z.land b 0x3f)) 0xc0 = 0x80 ∧ is_byte (Z.lor 0x80 (Z.land b 0x3f)).
Proof.
  intros Hb. pose proof (byte_cases (fun b => (Z.land (Z.lor 0x80 (Z.land b 0x3f)) 0xc0 =? 0x80) &&
    (0 <=? Z.lor 0x80 (Z.land b 0x3f)) && (Z.lor 0x80 (Z.land b 0x3f) <? 256)) b eq_refl Hb).
  unfold is_byte. bsimpl. auto.
Qed.

Lemma u8_byte z : is_byte (u8 z).
Proof. apply Z.mod_pos_bound. lia. Qed.

Lemma stamp_uuidv7 ms raw :
  length raw = 16%nat → Forall is_byte raw → uuidv7 (stamp ms raw).
Proof.
  intros Hl HF. array16 raw Hl. unfold stamp. simpl.
  repeat match goal with HF : Forall is_byte (_ :: _) |- _ => apply Forall_cons in HF as [? HF] end.
  destruct (version_bits z5), (variant_bits z7); try done.
  split; [done|]. split; [|done]. 
  repeat (apply Forall_cons_2; [assumption || apply u8_byte|]). constructor.
Qed.

Lemma be_uint_be_bytes n z : be_uint (be_bytes n z) = z mod 256 ^ Z.of_nat n.
Proof.
  induction n as [|n IH]; [by rewrite Z.mod_1_r|].
  change (be_bytes (S n) z) with ([(z / 256 ^ Z.of_nat n) mod 256] ++ be_bytes n z).
  rewrite be_uint_app, IH.
  assert (length (be_bytes n z) = n) as -> by (clear; induction n; simpl; auto).
  change (be_uint [?x]) with (0 * 256 + x). 
  rewrite Nat2Z.inj_succ, Z.pow_succ_r, (Z.mul_comm 256), Z.rem_mul_r by lia.
  unfold be_uint. simpl. ring.
Qed.

Lemma stamp_timestamp ms raw :
  length raw = 16%nat → 0 ≤ ms < 2 ^ 48 → timestamp (stamp ms raw) = ms.
Proof.
  intros Hl Hms. array16 raw Hl. unfold timestamp.
  replace (take 6 (stamp ms _)) with (be_bytes 6 ms).
  { rewrite be_uint_be_bytes. by apply Z.mod_small. }
  unfold stamp, u8. cbn -[Z.pow Z.div Z.modulo Z.shiftr Z.lor Z.land].
  rewrite !Z.shiftr_div_pow2 by lia. by rewrite Z.div_1_r.
Qed.

Lemma parse_hex_bytes bs acc :
  Forall is_byte bs → parse_hex acc (hex_bytes bs) = Some (acc * 256 ^ Z.of_nat (length bs) + be_uint bs).
Proof.
  intros HF. revert acc. induction HF as [|b bs Hb HF IH]; intros acc.
  { simpl. do 2 f_equal. change (be_uint []) with 0. lia. }
  unfold is_byte in Hb. cbn [hex_bytes hexpad String.append parse_hex].
  rewrite !hex_value_digit by (apply Z.mod_pos_bound; lia). rewrite IH. f_equal.
  change (b :: bs) with ([b] ++ bs). rewrite be_uint_app, length_app. change (be_uint [b]) with (0 * 256 + b).
  change (length [b]) with 1%nat. rewrite Nat2Z.inj_add, Z.pow_add_r by lia.
  change (256 ^ Z.of_nat 1) with 256. change (Z.of_nat 1) with 1. change (Z.of_nat 0) with 0.
  rewrite Z.pow_0_r, Z.pow_1_r, Z.div_1_r.
  replace ((acc * 16 + (b / 16) mod 16) * 16 + b mod 16) with (acc * 256 + b); [ring|].
  Z.to_euclidean_division_equations; lia.
Qed.

Lemma Time_of_well_formed `{GoText} prefix raw v :
  well_formed prefix raw v → Time_of v = Ok (FromUnixMilli (timestamp raw)).
Proof.
  intros Hw. unfold Time_of. rewrite (Parse_complete _ _ _ Hw). cbn [bind_result].
  destruct Hw as (Hp & (Hl & HF & _) & ->).
  change ("_" +:+ canonical_uuid raw) with (String "_" (canonical_uuid raw)).
  rewrite Cut_app by (by apply prefix_no_underscore).
  replace (str_take 13 (canonical_uuid raw))
    with (hex_bytes (slice 0 4 raw) +:+ "-" +:+ hex_bytes (slice 4 6 raw)).
  2:{ clear HF. array16 raw Hl. done. }
  rewrite !without_dashes_app, !without_dashes_hex_bytes.
  change (without_dashes "-" +:+ ?x) with x. rewrite <- hex_bytes_app.
  rewrite parse_hex_bytes by (apply Forall_app; split; by apply slice_Forall).
  rewrite Z.mul_0_l, Z.add_0_l. do 2 f_equal. unfold timestamp. f_equal. clear HF. array16 raw Hl. done.
Qed.

Lemma NewAt_Ok prefix now randomness id :
  NewAt prefix now randomness = Ok id →
  ∃ source, randomness = Some source ∧ allowed prefix = true ∧ (16 ≤ length source)%nat ∧
    0 ≤ UnixMilli now < 2 ^ 48 ∧
    id = prefix +:+ "_" +:+ format_uuid (stamp (UnixMilli now) (take 16 source)).
Proof.
  unfold NewAt, ReadFull. intros Hn. run_ok Hn. bsimpl. eexists; repeat split; eauto; lia.
Qed.

(** ** Order *)

Lemma byte_of_hex_digit n :
  0 ≤ n < 16 → byte_of (hex_digit n) = if n <? 10 then 48 + n else 87 + n.
Proof. intros. each_nibble n; done. Qed.

Lemma compare_hex_digit m n x y :
  0 ≤ m < 16 → 0 ≤ n < 16 →
  String.compare (String (hex_digit m) x) (String (hex_digit n) y) =
  match m ?= n with Eq => String.compare x y | c => c end.
Proof.
  intros Hm Hn. cbn [String.compare]. rewrite ascii_compare_byte, !byte_of_hex_digit by done.
  replace ((if m <? 10 then 48 + m else 87 + m) ?= (if n <? 10 then 48 + n else 87 + n)) with (m ?= n).
  { by destruct (m ?= n). }
  destruct (Z.ltb_spec m 10), (Z.ltb_spec n 10), (Z.compare_spec m n);
    symmetry; rewrite ?Z.compare_eq_iff, ?Z.compare_lt_iff, ?Z.compare_gt_iff; lia.
Qed.

Lemma compare_app_same p x y : String.compare (p +:+ x) (p +:+ y) = String.compare x y.
Proof. induction p as [|c p IH]; simpl; [done|]. by rewrite ascii_compare_byte, Z.compare_refl. Qed.

Lemma be_uint_cons b bs : be_uint (b :: bs) = b * 256 ^ Z.of_nat (length bs) + be_uint bs.
Proof. change (b :: bs) with ([b] ++ bs). rewrite be_uint_app. unfold be_uint. simpl. ring. Qed.

(** Equal-length hexadecimal text orders as the numbers it writes. *)
Lemma compare_hex_bytes bs cs x y :
  length bs = length cs → Forall is_byte bs → Forall is_byte cs →
  String.compare (hex_bytes bs +:+ x) (hex_bytes cs +:+ y) =
  match be_uint bs ?= be_uint cs with Eq => String.compare x y | c => c end.
Proof.
  revert cs. induction bs as [|b bs IH]; intros [|c cs] Hl HB HC; try done.
  apply Forall_cons in HB as [Hb HB]. apply Forall_cons in HC as [Hc HC]. unfold is_byte in Hb, Hc.
  injection Hl as Hl. cbn [hex_bytes hexpad String.append].
  change (Z.of_nat 1) with 1. change (Z.of_nat 0) with 0. rewrite Z.pow_0_r, Z.pow_1_r, !Z.div_1_r.
  rewrite !compare_hex_digit by (apply Z.mod_pos_bound; lia).
  rewrite IH by done. rewrite !be_uint_cons, Hl.
  pose proof (be_uint_range bs HB) as Rb. pose proof (be_uint_range cs HC) as Rc. rewrite Hl in Rb.
  set (P := 256 ^ Z.of_nat (length cs)) in *.
  destruct (Z.compare_spec ((b / 16) mod 16) ((c / 16) mod 16)) as [E1|E1|E1].
  - destruct (Z.compare_spec (b mod 16) (c mod 16)) as [E2|E2|E2].
    + assert (b = c) as -> by (Z.to_euclidean_division_equations; lia).
      destruct (Z.compare_spec (be_uint bs) (be_uint cs)) as [E3|E3|E3].
      * by rewrite E3, Z.compare_refl.
      * by rewrite (proj2 (Z.compare_lt_iff _ _)) by lia.
      * by rewrite (proj2 (Z.compare_gt_iff _ _)) by lia.
    + assert (b < c) by (Z.to_euclidean_division_equations; lia).
      rewrite (proj2 (Z.compare_lt_iff _ _)); [done|nia].
    + assert (c < b) by (Z.to_euclidean_division_equations; lia).
      rewrite (proj2 (Z.compare_gt_iff _ _)); [done|nia].
  - assert (b < c) by (Z.to_euclidean_division_equations; lia).
    rewrite (proj2 (Z.compare_lt_iff _ _)); [done|nia].
  - assert (c < b) by (Z.to_euclidean_division_equations; lia).
    rewrite (proj2 (Z.compare_gt_iff _ _)); [done|nia].
Qed.

Lemma timestamp_split raw : length raw = 16%nat →
  timestamp raw = be_uint (slice 0 4 raw) * 65536 + be_uint (slice 4 6 raw).
Proof.
  intros Hl. unfold timestamp.
  replace (take 6 raw) with (slice 0 4 raw ++ slice 4 6 raw) by (array16 raw Hl; done).
  by rewrite be_uint_app, (slice_length 4 6) by lia.
Qed.

Lemma well_formed_order prefix raw1 raw2 v1 v2 :
  well_formed prefix raw1 v1 → well_formed prefix raw2 v2 →
  timestamp raw1 < timestamp raw2 → String.compare v1 v2 = Lt.
Proof.
  intros (_ & (L1 & F1 & _) & ->) (_ & (L2 & F2 & _) & ->).
  rewrite !timestamp_split by done. intros Hlt.
  rewrite !compare_app_same. unfold canonical_uuid.
  assert (∀ i j raw, Forall is_byte raw → Forall is_byte (slice i j raw)) as HS
    by (intros; by apply slice_Forall).
  assert (∀ i j, (i ≤ j ≤ 16)%nat → length (slice i j raw1) = length (slice i j raw2)) as HL
    by (intros; rewrite !slice_length by lia; done).
  pose proof (be_uint_range _ (HS 4%nat 6%nat _ F1)) as R1.
  pose proof (be_uint_range _ (HS 4%nat 6%nat _ F2)) as R2.
  rewrite slice_length in R1, R2 by lia. change (256 ^ Z.of_nat (6 - 4)) with 65536 in *.
  rewrite compare_hex_bytes by auto with lia.
  destruct (Z.compare_spec (be_uint (slice 0 4 raw1)) (be_uint (slice 0 4 raw2))); [|done|lia].
  rewrite compare_app_same, compare_hex_bytes by auto with lia.
  rewrite (proj2 (Z.compare_lt_iff _ _)); [done|lia].
Qed.

Lemma NewAt_well_formed prefix now source :
  allowed prefix = true → 0 ≤ UnixMilli now < 2 ^ 48 →
  (16 ≤ length source)%nat → Forall is_byte source →
  ∃ id, NewAt prefix now (Some source) = Ok id ∧
    well_formed prefix (stamp (UnixMilli now) (take 16 source)) id.
Proof.
  intros Hp Hms Hl HF. unfold NewAt, ReadFull. rewrite Hp. cbn [negb].
  replace ((UnixMilli now <? 0) || (2 ^ 48 - 1 <? UnixMilli now)) with false
    by (symmetry; apply orb_false_iff; split; [apply Z.ltb_ge|apply Z.ltb_ge]; lia).
  replace (length source <? 16)%nat with false by (symmetry; apply Nat.ltb_ge; lia).
  assert (length (take 16 source) = 16%nat) as Ht by (rewrite length_take; lia).
  pose proof (stamp_uuidv7 (UnixMilli now) _ Ht (Forall_take _ _ _ HF)) as Hu.
  eexists; split; [done|]. split; [done|]. split; [done|].
  by rewrite format_canonical by apply Hu.
Qed.

(** ** Properties *)

(** [Parse] accepts exactly the canonical identifiers: an allowed prefix, an
    underscore and the lower-case text of sixteen bytes that carry version 7 and
    the RFC 9562 variant; it returns the text unchanged and rejects every other
    string, whatever the Unicode tables do with text outside ASCII. *)
Theorem parse_exact `{GoText} v id :
  Parse v = Ok id ↔ id = v ∧ ∃ prefix raw, well_formed prefix raw v.
Proof.
  split; [apply Parse_sound|]. intros (-> & prefix & raw & Hw). by eapply Parse_complete.
Qed.

(** For an allowed prefix, a clock inside the 48-bit millisecond range and
    sixteen bytes of entropy, [NewAt] succeeds, and what it mints parses, reads
    back its prefix and reads back the clock truncated to milliseconds. *)
Theorem mint_roundtrip `{GoText} prefix now source :
  allowed prefix = true → 0 ≤ UnixMilli now < 2 ^ 48 →
  (16 ≤ length source)%nat → Forall is_byte source →
  ∃ id, NewAt prefix now (Some source) = Ok id ∧ Parse id = Ok id ∧ Prefix id = prefix ∧
    Time_of id = Ok (FromUnixMilli (UnixMilli now)).
Proof.
  intros Hp Hms Hl HF. destruct (NewAt_well_formed prefix now source) as (id & Hn & Hw); auto.
  exists id. split; [done|]. split; [by eapply Parse_complete|]. split; [by eapply Prefix_well_formed|].
  rewrite (Time_of_well_formed _ _ _ Hw), stamp_timestamp; auto. rewrite length_take; lia.
Qed.

Definition sample_entropy : list Z := replicate 16 171.
Definition sample_clock : Time := FromUnixMilli 1700000000123.

Lemma mint_roundtrip_witness :
  ∃ id, NewAt "org" sample_clock (Some sample_entropy) = Ok id ∧ @Parse plain_text id = Ok id ∧
    Prefix id = "org" ∧ @Time_of plain_text id = Ok (FromUnixMilli (UnixMilli sample_clock)).
Proof.
  apply (@mint_roundtrip plain_text "org" sample_clock sample_entropy).
  - reflexivity.
  - vm_compute. split; discriminate || reflexivity.
  - vm_compute. lia.
  - apply Forall_replicate. split; [discriminate|reflexivity].
Defined.

(** Identifiers of one resource type sort by the time they were minted:
    the byte-wise order of the text is the order of the millisecond clocks,
    whatever the entropy. *)
Theorem mint_time_ordered prefix now1 now2 source1 source2 id1 id2 :
  Forall is_byte source1 → Forall is_byte source2 →
  NewAt prefix now1 (Some source1) = Ok id1 → NewAt prefix now2 (Some source2) = Ok id2 →
  UnixMilli now1 < UnixMilli now2 → Compare id1 id2 = -1.
Proof.
  intros HF1 HF2 H1 H2 Hlt.
  pose proof (NewAt_Ok _ _ _ _ H1) as (? & [= <-] & Hp & L1 & R1 & _).
  pose proof (NewAt_Ok _ _ _ _ H2) as (? & [= <-] & _ & L2 & R2 & _).
  destruct (NewAt_well_formed prefix now1 source1) as (? & E1 & W1); auto.
  destruct (NewAt_well_formed prefix now2 source2) as (? & E2 & W2); auto.
  rewrite H1 in E1. rewrite H2 in E2. simplify_eq.
  unfold Compare. rewrite (well_formed_order _ _ _ _ _ W1 W2); [done|].
  rewrite !stamp_timestamp; auto; rewrite length_take; lia.
Qed.

Lemma mint_time_ordered_witness :
  Compare "org_018bcfe5-687b-7bab-abab-abababababab" "org_018bcfe5-687c-7000-8000-000000000000" = -1.
Proof.
  apply (mint_time_ordered "org" sample_clock (sample_clock + Millisecond) sample_entropy (replicate 16 0)).
  - apply Forall_replicate. split; [discriminate|reflexivity].
  - apply Forall_replicate. split; [discriminate|reflexivity].
  - vm_compute. reflexivity.
  - vm_compute. reflexivity.
  - vm_compute. reflexivity.
Defined.

End PlatformID.
