(* ===== verification/Storage.v ===== *)
(** * Durable storage

    What the JSON file stores and the bbolt stores of the build plane share:
    serialisation, the file system during one call, and a bbolt transaction.
    encoding/json and bbolt are the interfaces [Codec] and [BoltTx]; a concrete
    instance of each, for the witnesses, is at the end. *)

From S2P Require Import Prelude Text GoStd.
Import GoStd.
From stdpp Require Import pretty.

Open Scope Z_scope.

Module Storage.

(** ** Serialisation *)

(** Serialisation of durable records: [marshal] is canonicaljson.Marshal,
    [unmarshal] a strict decode of exactly one value.  encoding/json reads back
    the values it wrote. *)
Class Codec (A : Type) := {
  marshal : A → option string;
  unmarshal : string → option A;
  unmarshal_marshal : ∀ a c, marshal a = Some c → unmarshal c = Some a;
}.

(** ** Files *)

(** What the file system does during one call: the lock is taken, the state file
    is regular and private to the owner, it opens and reads; the temporary file
    is created, protected, written, synced and closed; the rename succeeds; the
    directory syncs. *)
Record FileFaults := {
  lock_taken : bool;
  stat_regular : bool;
  stat_private : bool;
  open_ok : bool;
  read_complete : bool;
  temp_written : bool;
  rename_ok : bool;
  dir_synced : bool;
}.

(** ** bbolt

    bbolt is a library; a transaction is the interface below.  [tx_keyN] is
    [Bucket.Stats().KeyN]. *)

Class BoltTx (Tx : Type) := {
  tx_get : Tx → string → string → option string;
  tx_put : Tx → string → string → string → result Tx;
  tx_keyN : Tx → string → Z;
  tx_get_put : ∀ t b k v t', tx_put t b k v = Ok t' →
    ∀ b' k', tx_get t' b' k' = if decide (b' = b ∧ k' = k) then Some v else tx_get t b' k';
  tx_keyN_put : ∀ t b k v t', tx_put t b k v = Ok t' →
    ∀ b', tx_keyN t' b' =
      tx_keyN t b' + (if decide (b' = b ∧ tx_get t b k = None) then 1 else 0);
}.

(** Cursors and nested buckets.  A cursor walks the keys of a bucket in byte order;
    [nested_bucket b k] is the bucket [k] inside [b], which reads as empty until it is
    created. *)
Definition nested_bucket (b k : string) : string := b +:+ "/" +:+ k.

Class BoltCursor (Tx : Type) `{!BoltTx Tx} := {
  tx_keys : Tx → string → list string;
  tx_create : Tx → string → result Tx;
  tx_keys_get : ∀ t b k, k ∈ tx_keys t b ↔ is_Some (tx_get t b k);
  tx_keys_nodup : ∀ t b, NoDup (tx_keys t b);
  tx_keys_sorted : ∀ t b, StronglySorted (le_by Compare) (tx_keys t b);
  tx_keyN_keys : ∀ t b, tx_keyN t b = Z.of_nat (length (tx_keys t b));
  tx_create_get : ∀ t b t', tx_create t b = Ok t' → ∀ b' k, tx_get t' b' k = tx_get t b' k;
}.

(** [cursor.Seek(key)]: the keys from the first one that is not below [key]. *)
Fixpoint Seek (key : string) (keys : list string) : list string :=
  match keys with
  | [] => []
  | k :: rest => if Compare k key <? 0 then Seek key rest else keys
  end.

(** The end of [db.Update]: a commit that fails may or may not have reached the
    disk. *)
Inductive commit := CommitOk | CommitFailed (durable : bool).

Definition Update {Tx A} (c : commit) (tx : Tx) (fn : Tx → result (A * Tx)) : Tx * result A :=
  match fn tx with
  | Err e => (tx, Err e)
  | Ok (a, tx') =>
      match c with
      | CommitOk => (tx', Ok a)
      | CommitFailed durable => (if durable then tx' else tx, Err (Error "bolt" "commit"))
      end
  end.

(** ** Concrete instances *)

(** A codec that knows one value: enough to run an example. *)
Program Definition single_codec {A} `{EqDecision A} (a : A) : Codec A := {|
  marshal := fun x => if decide (x = a) then Some "json" else None;
  unmarshal := fun c => if decide (c = "json") then Some a else None;
|}.
Next Obligation.
  intros A ? a x c Hx. simpl in *. destruct (decide (x = a)); simplify_eq. by rewrite decide_True.
Qed.

(** One that knows two, for a state before and after a call. *)
Program Definition pair_codec {A} `{EqDecision A} (a b : A) : Codec A := {|
  marshal := fun x => if decide (x = a) then Some "before" else if decide (x = b) then Some "after" else None;
  unmarshal := fun c => if decide (c = "before") then Some a else if decide (c = "after") then Some b else None;
|}.
Next Obligation.
  intros A ? a b x c Hx. simpl in *. repeat case_decide; simplify_eq; done.
Qed.

(** One that knows a list of values: each is written as its position. *)
Section ListCodec.
Context {A : Type} `{!EqDecision A} (l : list A).

Definition list_marshal (a : A) : option string :=
  match list_find (a =.) l with Some (i, _) => Some (pretty i) | None => None end.

Definition list_unmarshal (c : string) : option A :=
  match list_find (fun a => list_marshal a = Some c) l with Some (_, a) => Some a | None => None end.

Lemma list_unmarshal_marshal a c : list_marshal a = Some c → list_unmarshal c = Some a.
Proof.
  intros Hm. unfold list_unmarshal. destruct (list_find _ l) as [[i b]|] eqn:Hf.
  - apply list_find_Some in Hf as (_ & Hb & _). unfold list_marshal in Hm, Hb.
    destruct (list_find (a =.) l) as [[j a']|] eqn:Ha; [|done]. destruct (list_find (b =.) l) as [[k b']|] eqn:Hb'; [|done].
    assert (pretty j = pretty k) as Hjk by congruence. apply (inj pretty) in Hjk as ->.
    apply list_find_Some in Ha as (Ha & <- & _). apply list_find_Some in Hb' as (Hb' & <- & _). congruence.
  - apply list_find_None in Hf. rewrite Forall_forall in Hf. unfold list_marshal in Hm.
    destruct (list_find (a =.) l) as [[j a']|] eqn:Ha; [|done]. pose proof Ha as Ha'.
    apply list_find_Some in Ha' as (Hj & <- & _). destruct (Hf a (list_elem_of_lookup_2 _ _ _ Hj)). unfold list_marshal. by rewrite Ha.
Qed.

Definition list_codec : Codec A :=
  {| marshal := list_marshal; unmarshal := list_unmarshal; unmarshal_marshal := list_unmarshal_marshal |}.
End ListCodec.

(** One that knows every value, and writes those of a list as their position. *)
Fixpoint pos_text (p : positive) : string :=
  match p with xH => "" | xO p' => String "0" (pos_text p') | xI p' => String "1" (pos_text p') end.

Fixpoint text_pos (s : string) : positive :=
  match s with "" => xH | String c s' => if Ascii.eqb c "1" then xI (text_pos s') else xO (text_pos s') end.

Lemma text_pos_text p : text_pos (pos_text p) = p.
Proof. induction p as [p IH|p IH|]; cbn; by rewrite ?IH. Qed.

Section TotalCodec.
Context {A : Type} `{!EqDecision A} `{!Countable A} (l : list A).

Definition total_marshal (a : A) : option string :=
  match list_marshal l a with Some c => Some (String "i" c) | None => Some (String "x" (pos_text (encode a))) end.

Definition total_unmarshal (c : string) : option A :=
  match c with
  | String "i" c' => list_unmarshal l c'
  | String _ c' => decode (text_pos c')
  | "" => None
  end.

Lemma total_unmarshal_marshal a c : total_marshal a = Some c → total_unmarshal c = Some a.
Proof.
  unfold total_marshal. destruct (list_marshal l a) as [c'|] eqn:Hm; intros [= <-]; cbn.
  - by apply list_unmarshal_marshal.
  - by rewrite text_pos_text, decode_encode.
Qed.

Definition total_codec : Codec A :=
  {| marshal := total_marshal; unmarshal := total_unmarshal; unmarshal_marshal := total_unmarshal_marshal |}.

Lemma total_codec_total a : is_Some (@marshal _ total_codec a).
Proof. cbn. unfold total_marshal. destruct (list_marshal l a); by eexists. Qed.
End TotalCodec.

Program Definition gmap_bolt : BoltTx (gmap string (gmap string string)) := {|
  tx_get := fun t b k => default ∅ (t !! b) !! k;
  tx_put := fun t b k v => Ok (<[b := <[k := v]> (default ∅ (t !! b))]> t);
  tx_keyN := fun t b => Z.of_nat (size (default ∅ (t !! b)));
|}.
Next Obligation.
  intros t b k v t' [= <-] b' k'. rewrite lookup_insert. case_decide; subst; simpl.
  - rewrite lookup_insert. repeat case_decide; naive_solver.
  - rewrite decide_False; [done|]. naive_solver.
Qed.
Next Obligation.
  intros t b k v t' [= <-] b'. rewrite lookup_insert. case_decide; subst; simpl.
  - rewrite map_size_insert. destruct (default ∅ (t !! b') !! k); simpl.
    + rewrite decide_False by naive_solver. lia.
    + rewrite decide_True by done. lia.
  - rewrite decide_False by naive_solver. lia.
Qed.

#[export] Program Instance gmap_cursor : @BoltCursor _ gmap_bolt := {|
  tx_keys := fun t b => Sort (map fst (map_to_list (default ∅ (t !! b))));
  tx_create := fun t b => Ok t;
|}.
Next Obligation.
  intros t b k. rewrite Sort_perm. simpl. split.
  - intros ([k' v] & -> & Hin)%list_elem_of_fmap. apply elem_of_map_to_list in Hin. by exists v.
  - intros [v Hv]. apply list_elem_of_fmap. exists (k, v). split; [done|]. by apply elem_of_map_to_list.
Qed.
Next Obligation. intros t b. rewrite Sort_perm. apply NoDup_fst_map_to_list. Qed.
Next Obligation. intros t b. apply Sort_sorted. Qed.
Next Obligation. intros t b. rewrite Sort_perm, length_map, length_map_to_list. done. Qed.
Next Obligation. by intros t b t' [= <-]. Qed.

End Storage.
