(* ===== verification/Base64.v ===== *)
(** * base64.StdEncoding

    The padded encoding signed facts and bundles carry their signatures in.
    [DecodeString] skips line ends, wants complete groups and accepts any bits behind
    the last byte. *)

From S2P Require Import Prelude Text GoStd Crypto.
Import GoStd Crypto.

Open Scope Z_scope.

Module Base64.

Definition std_char (n : Z) : ascii := if n =? 62 then "+" else if n =? 63 then "/" else b64_char n.

Definition std_value (c : ascii) : option Z :=
  if Ascii.eqb c "+" then Some 62 else if Ascii.eqb c "/" then Some 63
  else if Ascii.eqb c "-" || Ascii.eqb c "_" then None else b64_value c.

Fixpoint EncodeToString (bs : list Z) : string :=
  match bs with
  | [] => ""
  | [a] => String (std_char (a / 4)) (String (std_char (a mod 4 * 16)) "==")
  | [a; b] => String (std_char (a / 4)) (String (std_char (a mod 4 * 16 + b / 16)) (String (std_char (b mod 16 * 4)) "="))
  | a :: b :: c :: rest =>
      String (std_char (a / 4)) (String (std_char (a mod 4 * 16 + b / 16))
        (String (std_char (b mod 16 * 4 + c / 64)) (String (std_char (c mod 64)) (EncodeToString rest))))
  end.

(** The last group may end in one or two padding characters. *)
Definition decode_padded (a b c : ascii) : option (list Z) :=
  match std_value a, std_value b with
  | Some x, Some y =>
      if Ascii.eqb c "=" then Some [x * 4 + y / 16]
      else match std_value c with Some z => Some [x * 4 + y / 16; y mod 16 * 16 + z / 4] | None => None end
  | _, _ => None
  end.

Fixpoint decode_groups (s : string) : option (list Z) :=
  match s with
  | "" => Some []
  | String a (String b (String c (String d rest))) =>
      if Ascii.eqb d "=" then if String.eqb rest "" then decode_padded a b c else None
      else match std_value a, std_value b, std_value c, std_value d, decode_groups rest with
      | Some x, Some y, Some z, Some w, Some bs => Some (x * 4 + y / 16 :: y mod 16 * 16 + z / 4 :: z mod 4 * 64 + w :: bs)
      | _, _, _, _, _ => None
      end
  | _ => None
  end.

Definition is_line_end (c : ascii) : bool := (byte_of c =? 10) || (byte_of c =? 13).

Definition DecodeString (s : string) : option (list Z) := decode_groups (str_filter (fun c => negb (is_line_end c)) s).

Lemma std_value_char n : 0 ≤ n < 64 → std_value (std_char n) = Some n ∧ Ascii.eqb (std_char n) "=" = false ∧ is_line_end (std_char n) = false.
Proof.
  intros Hn. assert (n = Z.of_nat (Z.to_nat n)) as -> by lia. assert (Z.to_nat n < 64)%nat as Hlt by lia.
  revert Hlt. generalize (Z.to_nat n). intros k Hk. do 64 (destruct k as [|k]; [by vm_compute|]). lia.
Qed.

Lemma std_value_std n : 0 ≤ n < 64 → std_value (std_char n) = Some n.
Proof. intros. by apply std_value_char. Qed.

Lemma std_not_padding n : 0 ≤ n < 64 → Ascii.eqb (std_char n) "=" = false.
Proof. intros. by apply std_value_char. Qed.

Lemma group_bounds a b : is_byte a → is_byte b →
  0 ≤ a / 4 < 64 ∧ 0 ≤ a mod 4 * 16 < 64 ∧ 0 ≤ a mod 4 * 16 + b / 16 < 64 ∧ 0 ≤ b mod 16 * 4 < 64 ∧ 0 ≤ b mod 64 < 64 ∧ 0 ≤ a mod 16 * 4 + b / 64 < 64.
Proof. unfold is_byte. intros. Z.to_euclidean_division_equations. lia. Qed.

Lemma filter_std n s : 0 ≤ n < 64 → str_filter (fun c => negb (is_line_end c)) (String (std_char n) s) = String (std_char n) (str_filter (fun c => negb (is_line_end c)) s).
Proof. intros Hn. destruct (std_value_char n Hn) as (_ & _ & E). cbn [str_filter]. by rewrite E. Qed.

Lemma Decode_Encode bs : Forall is_byte bs → DecodeString (EncodeToString bs) = Some bs.
Proof.
  unfold DecodeString. revert bs. fix IH 1. intros [|a [|b [|c rest]]] Hb; [done|..].
  - apply Forall_cons in Hb as [Ha _]. pose proof (group_bounds a a Ha Ha). destruct_and?. cbn [EncodeToString].
    rewrite !filter_std by lia. cbn [str_filter decode_groups]. unfold decode_padded. vm_compute (is_line_end "="). cbn [negb].
    rewrite !std_value_std by lia. cbn. do 2 f_equal. Z.to_euclidean_division_equations. lia.
  - apply Forall_cons in Hb as [Ha Hb]. apply Forall_cons in Hb as [Hb _]. pose proof (group_bounds a b Ha Hb). pose proof (group_bounds b b Hb Hb). destruct_and?.
    cbn [EncodeToString]. rewrite !filter_std by lia. cbn [str_filter]. vm_compute (is_line_end "="). cbn [negb decode_groups].
    unfold decode_padded. rewrite !std_value_std, std_not_padding by lia. cbn.
    do 2 f_equal; [|f_equal]; Z.to_euclidean_division_equations; lia.
  - apply Forall_cons in Hb as [Ha Hb]. apply Forall_cons in Hb as [Hb Hc]. apply Forall_cons in Hc as [Hc Hr].
    pose proof (group_bounds a b Ha Hb). pose proof (group_bounds b c Hb Hc). destruct_and?.
    cbn [EncodeToString]. rewrite !filter_std by lia. cbn [decode_groups].
    rewrite std_not_padding, !std_value_std, (IH rest Hr) by lia.
    unfold is_byte in *. do 2 f_equal; [|f_equal; [|f_equal]]; Z.to_euclidean_division_equations; lia.
Qed.

End Base64.
