(* ===== verification/Ordering.v ===== *)
(** * Comparison functions

    A comparison function of the source returns a negative, zero or positive number.
    [Lawful] says that one orders the values of a domain; comparisons built by looking
    at one key after the other are lawful when each key's is. *)

From S2P Require Import Prelude Text GoStd.
Import GoStd.

Open Scope Z_scope.

Module Ordering.

Class Lawful {A} (D : A → Prop) (cmp : A → A → Z) : Prop := {
  lawful_sign : ∀ x y, D x → D y → (cmp x y <? 0) = (0 <? cmp y x) ∧ (cmp x y =? 0) = (cmp y x =? 0);
  lawful_trans : ∀ x y z, D x → D y → D z → cmp x y ≤ 0 → cmp y z ≤ 0 → cmp x z ≤ 0;
}.

(** [if order := first; order != 0 { return order }; return second] *)
Definition then_by {A} (first second : A → A → Z) (x y : A) : Z := if first x y =? 0 then second x y else first x y.

Section Laws.
Context {A : Type} (D : A → Prop).

Lemma lawful_flip cmp `{!Lawful D cmp} x y : D x → D y → (cmp x y < 0 ↔ 0 < cmp y x) ∧ (cmp x y = 0 ↔ cmp y x = 0) ∧ (0 < cmp x y ↔ cmp y x < 0).
Proof.
  intros Hx Hy. destruct (lawful_sign x y Hx Hy) as [S1 S2], (lawful_sign y x Hy Hx) as [S3 S4].
  rewrite <- !Z.ltb_lt, <- !Z.eqb_eq. rewrite S1, S2, <- S3. tauto.
Qed.

Lemma lawful_total cmp `{!Lawful D cmp} x y : D x → D y → cmp x y ≤ 0 ∨ cmp y x ≤ 0.
Proof. intros Hx Hy. pose proof (lawful_flip cmp x y Hx Hy). lia. Qed.

#[export] Instance then_by_lawful first second `{!Lawful D first} `{!Lawful D second} : Lawful D (then_by first second).
Proof.
  split.
  - intros x y Hx Hy. unfold then_by. destruct (lawful_flip first x y Hx Hy) as (F1 & F2 & F3). destruct (lawful_sign (cmp := second) x y Hx Hy) as [S1 S2].
    destruct (Z.eqb_spec (first x y) 0) as [E|E].
    + rewrite (proj2 (Z.eqb_eq (first y x) 0)) by (by apply F2). done.
    + rewrite (proj2 (Z.eqb_neq (first y x) 0)) by (by rewrite <- F2). split; apply Bool.eq_iff_eq_true; rewrite ?Z.ltb_lt, ?Z.eqb_eq; lia.
  - intros x y z Hx Hy Hz. unfold then_by. pose proof (lawful_flip first x y Hx Hy). pose proof (lawful_flip first y z Hy Hz). pose proof (lawful_flip first x z Hx Hz).
    pose proof (lawful_trans (cmp := first) x y z Hx Hy Hz). pose proof (lawful_trans (cmp := first) y z x Hy Hz Hx). pose proof (lawful_trans (cmp := first) z x y Hz Hx Hy).
    pose proof (lawful_trans (cmp := second) x y z Hx Hy Hz).
    destruct (Z.eqb_spec (first x y) 0), (Z.eqb_spec (first y z) 0), (Z.eqb_spec (first x z) 0); lia.
Qed.

Lemma key_lawful (f : A → Z) : Lawful D (fun x y => f x - f y).
Proof. split; intros; [split; apply Bool.eq_iff_eq_true; rewrite ?Z.ltb_lt, ?Z.eqb_eq|]; lia. Qed.

Lemma text_lawful (f : A → string) : Lawful D (fun x y => Compare (f x) (f y)).
Proof.
  split.
  - intros x y _ _. pose proof (Compare_opp (f x) (f y)). split; apply Bool.eq_iff_eq_true; rewrite ?Z.ltb_lt, ?Z.eqb_eq; lia.
  - intros x y z _ _ _. apply Compare_trans.
Qed.

(** A comparison that agrees with a lawful one on the domain is lawful. *)
Lemma lawful_ext cmp cmp' : Lawful D cmp → (∀ x y, D x → D y → cmp' x y = cmp x y) → Lawful D cmp'.
Proof.
  intros Hl E. split.
  - intros x y Hx Hy. rewrite !E by done. by apply (lawful_sign (D := D)).
  - intros x y z Hx Hy Hz. rewrite !E by done. by apply (lawful_trans (D := D)).
Qed.

(** Sorting with a lawful comparison gives one list for all orders of its input, when
    only equal elements compare equal. *)
Lemma sort_permutation cmp `{!Lawful D cmp} l1 l2 : Forall D l1 → l1 ≡ₚ l2 → (∀ x y, x ∈ l1 → y ∈ l1 → cmp x y = 0 → x = y) →
  SortStableFunc cmp l1 = SortStableFunc cmp l2.
Proof.
  intros HD Hp Hsep. assert (Forall D l2) as HD2 by (by rewrite <- Hp). apply (sort_unique cmp).
  - intros x y. rewrite !SortStableFunc_perm. intros Hx Hy H1 H2. rewrite Forall_forall in HD. apply Hsep; [done..|].
    pose proof (lawful_flip cmp x y (HD x Hx) (HD y Hy)). lia.
  - by rewrite !SortStableFunc_perm.
  - apply (SortStableFunc_sorted cmp D); [by apply lawful_total|by apply lawful_trans|done].
  - apply (SortStableFunc_sorted cmp D); [by apply lawful_total|by apply lawful_trans|done].
Qed.

Lemma sort_sorted cmp `{!Lawful D cmp} l : Forall D l → StronglySorted (le_by cmp) (SortStableFunc cmp l).
Proof. intros HD. apply (SortStableFunc_sorted cmp D); [by apply lawful_total|by apply lawful_trans|done]. Qed.
End Laws.

Lemma sorted_lookup {A} (R : A → A → Prop) l i j x y : StronglySorted R l → l !! i = Some x → l !! j = Some y → (i < j)%nat → R x y.
Proof.
  intros Hs. revert i j. induction Hs as [|a l _ IH Ha]; intros [|i] [|j] Hi Hj Hlt; try done; try lia; cbn in *.
  - injection Hi as ->. rewrite Forall_forall in Ha. by eapply Ha, list_elem_of_lookup_2.
  - apply (IH i j); [done..|lia].
Qed.

End Ordering.
