(* ===== verification/Framing.v ===== *)
(** * Length-prefixed fields (writeDigestField)

    Transcripts and directory digests hash fields that carry their length in eight
    bytes, so that what is hashed determines the fields. *)

From S2P Require Import Prelude Text GoStd Crypto Storage.
Import GoStd Crypto Storage.

Open Scope Z_scope.

Module Framing.

(** [binary.BigEndian.PutUint64] *)
Definition PutUint64 (n : Z) : string :=
  String.string_of_list_ascii (map (fun i => char_of (Z.shiftr n (8 * i) mod 256)) [7; 6; 5; 4; 3; 2; 1; 0]).

(** What [writeDigestField] writes. *)
Definition frame (encoded : string) : string := PutUint64 (len encoded) +:+ encoded.

Fixpoint frames (encs : list string) : string :=
  match encs with [] => "" | enc :: encs' => frame enc +:+ frames encs' end.

(** A number below 256^k is determined by its k bytes. *)
Lemma bytes_determine (k : nat) a b :
  0 ≤ a < 256 ^ Z.of_nat k → 0 ≤ b < 256 ^ Z.of_nat k →
  (∀ i, 0 ≤ i < Z.of_nat k → (a / 256 ^ i) mod 256 = (b / 256 ^ i) mod 256) → a = b.
Proof.
  revert a b. induction k as [|k IH]; intros a b Ha Hb Hi; [simpl in *; lia|].
  rewrite Nat2Z.inj_succ, Z.pow_succ_r in Ha, Hb by lia.
  assert (a / 256 = b / 256) as Hd.
  { apply IH; [split; [apply Z.div_pos; lia|apply Z.div_lt_upper_bound; lia]..|].
    intros i Hik. rewrite !Z.div_div, <- Z.pow_succ_r by lia. apply Hi. lia. }
  pose proof (Hi 0 ltac:(lia)) as H0. rewrite Z.pow_0_r, !Z.div_1_r in H0.
  rewrite (Z.div_mod a 256), (Z.div_mod b 256) by lia. lia.
Qed.

Lemma PutUint64_inj a b : 0 ≤ a < 2 ^ 64 → 0 ≤ b < 2 ^ 64 → PutUint64 a = PutUint64 b → a = b.
Proof.
  intros Ha Hb Heq. apply (f_equal String.list_ascii_of_string) in Heq.
  unfold PutUint64 in Heq. rewrite !String.list_ascii_of_string_of_list_ascii in Heq. simpl in Heq.
  apply (bytes_determine 8); [simpl; lia..|]. intros i Hi. simpl in Hi.
  assert (∀ j, In j [0; 1; 2; 3; 4; 5; 6; 7] → char_of (Z.shiftr a (8 * j) mod 256) = char_of (Z.shiftr b (8 * j) mod 256) →
    (a / 256 ^ j) mod 256 = (b / 256 ^ j) mod 256) as Hbyte.
  { intros j Hj Hc. apply (f_equal byte_of) in Hc. rewrite !byte_of_char_of in Hc by (apply Z.mod_pos_bound; lia).
    assert (0 ≤ j) by (simpl in Hj; lia). rewrite !Z.shiftr_div_pow2, !Z.pow_mul_r in Hc by lia. exact Hc. }
  injection Heq as H7 H6 H5 H4 H3 H2 H1 H0.
  assert (i = 0 ∨ i = 1 ∨ i = 2 ∨ i = 3 ∨ i = 4 ∨ i = 5 ∨ i = 6 ∨ i = 7) as Hcases by lia.
  destruct Hcases as [->|[->|[->|[->|[->|[->|[->| ->]]]]]]]; apply Hbyte; simpl; auto 10.
Qed.

Lemma frames_app e1 e2 : frames (e1 ++ e2) = frames e1 +:+ frames e2.
Proof. induction e1 as [|e e1 IH]; [done|]. simpl. by rewrite IH, str_app_assoc. Qed.

Lemma frames_inj e1 e2 :
  Forall (fun e => len e < 2 ^ 63) e1 → Forall (fun e => len e < 2 ^ 63) e2 → frames e1 = frames e2 → e1 = e2.
Proof.
  revert e2. induction e1 as [|a e1 IH]; intros [|b e2] H1 H2 Heq; try done.
  apply Forall_cons in H1 as [Ha H1], H2 as [Hb H2]. cbn [frames] in Heq. unfold frame in Heq. rewrite !str_app_assoc in Heq.
  apply str_app_inj_length in Heq as [Hn Heq]; [|done].
  assert (∀ s, 0 ≤ len s) as Hlen by (intros; unfold len; lia).
  apply PutUint64_inj in Hn; [|pose proof (Hlen a); lia|pose proof (Hlen b); lia].
  apply str_app_inj_length in Heq as [-> Heq]; [|unfold len in Hn; lia]. f_equal. by apply IH.
Qed.

(** What is framed is the list of encoded values. *)
Lemma framed_values {A} `{!Codec A} events1 events2 encs1 encs2 :
  Forall2 (fun (event : A) enc => marshal event = Some enc) events1 encs1 → Forall2 (fun event enc => marshal event = Some enc) events2 encs2 →
  (∀ event enc, event ∈ events1 → marshal event = Some enc → len enc < 2 ^ 63) → (∀ event enc, event ∈ events2 → marshal event = Some enc → len enc < 2 ^ 63) →
  frames encs1 = frames encs2 → events1 = events2.
Proof.
  intros F1 F2 L1 L2 Heq. assert (∀ sink encs, Forall2 (fun (event : A) enc => marshal event = Some enc) sink encs →
    (∀ event enc, event ∈ sink → marshal event = Some enc → len enc < 2 ^ 63) → Forall (fun e => len e < 2 ^ 63) encs) as Hsmall.
  { intros sink encs Hf. induction Hf as [|event enc sink encs Hm _ IH]; intros Hl; [constructor|]. constructor.
    - eapply Hl; [left|done].
    - apply IH. intros event' enc' Hin. apply Hl. by right. }
  apply frames_inj in Heq as ->; [|by eapply Hsmall..]. clear -F1 F2. revert events2 F2. induction F1 as [|x enc s1 encs Hx _ IH]; intros s2 F2; inversion F2; subst; [done|].
  f_equal; [|by apply IH]. match goal with Hy : marshal ?y = Some enc |- _ = ?y => apply unmarshal_marshal in Hy end. apply unmarshal_marshal in Hx. congruence.
Qed.

End Framing.
