(* ===== verification/ArtifactIdentity.v ===== *)
(** * Identities of exported artifacts (build-plane/internal/buildworker)

    What a worker exports is a file or a directory.  [fileDigest] and
    [directoryDigest] (executor.go) give its identity: the controller compares it
    with what the committer stored, and the build cache checks its records with it. *)

From S2P Require Import Prelude Text GoStd Crypto Framing.
Import GoStd Crypto Framing.

Open Scope Z_scope.

Module ArtifactIdentity.

(** ** Files and directories

    A regular file has the size its metadata gives and what reading it yields, if it
    can be read; a directory's entries are named by their path relative to it. *)

Inductive entry :=
| Regular (mode size : Z) (contents : option string)
| Directory
| Symlink
| Irregular.

(** [None] when walking fails. *)
Abbreviation tree := (gmap string entry) (only parsing).

(** What a path refers to; opening a symbolic link reads its target. *)
Inductive node :=
| File (contents : option string)
| Folder (walk : option tree)
| Link (contents : option string).

Definition unsized (message : string) : error := Error "" message.

Definition fileDigest (path : option node) : result (string * Z) :=
  match path with
  | None => Err (unsized "open")
  | Some (Folder _) => Err (unsized "artifact is empty or unreadable")
  | Some (File contents) | Some (Link contents) =>
      match contents with
      | None => Err (unsized "artifact is empty or unreadable")
      | Some contents => if len contents <=? 0 then Err (unsized "artifact is empty or unreadable") else Ok (bytesDigest contents, len contents)
      end
  end.

Definition digestContents (contents : string) : string := bytesDigest contents.

Definition normalizedArtifactMode (mode : Z) : Z := if negb (Z.land mode 73 =? 0) then 365 else 292.

(** An entry the walk refuses. *)
Definition refused (item : string * entry) : bool :=
  match item.2 with
  | Directory => false
  | Symlink | Irregular => true
  | Regular _ _ _ => String.eqb item.1 "." || HasPrefix item.1 ".."
  end.

Record item := { it_path : string; it_mode : Z; it_size : Z; it_contents : option string }.

Definition item_of (e : string * entry) : option item :=
  match e.2 with
  | Regular mode size contents => Some {| it_path := e.1; it_mode := normalizedArtifactMode mode; it_size := size; it_contents := contents |}
  | _ => None
  end.

Definition by_path (a b : item) : Z := Compare (it_path a) (it_path b).

(** What the loop hashes; reading may fail. *)
Fixpoint hash_items (items : list item) : option string :=
  match items with
  | [] => Some ""
  | i :: rest =>
      match it_contents i, hash_items rest with
      | Some contents, Some tail => Some (frame (it_path i) +:+ PutUint64 (it_mode i) +:+ PutUint64 (u64 (it_size i)) +:+ contents +:+ tail)
      | _, _ => None
      end
  end.

Definition total_size (items : list item) : Z := fold_left (fun total i => i64 (total + it_size i)) items 0.

Definition walked_items (walk : tree) : list item := SortStableFunc by_path (omap item_of (map_to_list walk)).

Definition directoryDigest (path : option node) : result (string * Z) :=
  match path with
  | Some (Folder (Some walk)) =>
      if existsb refused (map_to_list walk) then Err (unsized "static export is empty or invalid")
      else
        let items := walked_items walk in
        if (length items =? 0)%nat then Err (unsized "static export is empty or invalid")
        else match hash_items items with
        | None => Err (unsized "hash static export")
        | Some hashed => Ok (bytesDigest hashed, total_size items)
        end
  | _ => Err (unsized "static export is empty or invalid")
  end.

Definition exportedArtifactDigest (path : option node) (kind : string) : result (string * Z) :=
  if String.eqb kind "oci_image" then fileDigest path else directoryDigest path.

Definition ExportedArtifactIdentity (path : option node) (kind : string) : result (string * Z) :=
  if negb (String.eqb kind "oci_image") && negb (String.eqb kind "static_bundle") then Err (unsized "exported artifact kind is invalid")
  else exportedArtifactDigest path kind.

(** ** What a directory digest identifies *)

(** The files of a directory: executable or not, and their contents. *)
Definition file_of (e : entry) : option (Z * string) :=
  match e with Regular mode _ (Some contents) => Some (normalizedArtifactMode mode, contents) | _ => None end.

Definition files_of (walk : tree) : gmap string (Z * string) := omap file_of walk.

(** The directory is not changed while it is digested: a file's size is that of the
    contents read, and within what a file system holds. *)
Definition settled (walk : tree) : Prop :=
  ∀ path mode size contents, walk !! path = Some (Regular mode size contents) →
    ∃ c, contents = Some c ∧ size = len c ∧ len c < 2 ^ 63 ∧ len path < 2 ^ 63.

Definition settled_item (i : item) : Prop :=
  ∃ c, it_contents i = Some c ∧ it_size i = len c ∧ len c < 2 ^ 63 ∧ len (it_path i) < 2 ^ 63 ∧ 0 ≤ it_mode i < 512.

Lemma normalizedArtifactMode_range mode : 0 ≤ normalizedArtifactMode mode < 512.
Proof. unfold normalizedArtifactMode. destruct (negb _); lia. Qed.

Lemma PutUint64_length n : String.length (PutUint64 n) = 8%nat.
Proof. reflexivity. Qed.

Lemma len_range s : 0 ≤ len s.
Proof. unfold len. lia. Qed.

Lemma hash_items_inj l1 l2 h :
  Forall settled_item l1 → Forall settled_item l2 → hash_items l1 = Some h → hash_items l2 = Some h → l1 = l2.
Proof.
  revert l2 h. induction l1 as [|[p1 m1 s1 c1] l1 IH]; intros [|[p2 m2 s2 c2] l2] h F1 F2; cbn [hash_items it_contents it_path it_mode it_size].
  - done.
  - intros E1 E2. destruct c2, (hash_items l2); simplify_eq.
  - intros E1 E2. destruct c1, (hash_items l1); simplify_eq.
  - apply Forall_cons in F1 as [(x1 & ? & ? & ? & ? & ?) F1], F2 as [(x2 & ? & ? & ? & ? & ?) F2]. cbn [it_contents it_path it_mode it_size] in *. subst.
    destruct (hash_items l1) as [h1|] eqn:E1, (hash_items l2) as [h2|] eqn:E2; try done. intros <- Heq. apply (inj Some) in Heq.
    unfold frame in Heq. rewrite !str_app_assoc in Heq. pose proof (len_range p1). pose proof (len_range p2). pose proof (len_range x1). pose proof (len_range x2).
    apply str_app_inj_length in Heq as [Hp Heq]; [|done]. apply PutUint64_inj in Hp; [|lia..].
    apply str_app_inj_length in Heq as [-> Heq]; [|unfold len in Hp; lia]. apply str_app_inj_length in Heq as [Hm Heq]; [|done]. apply PutUint64_inj in Hm as ->; [|lia..].
    apply str_app_inj_length in Heq as [Hs Heq]; [|done]. rewrite !u64_small in Hs by (unfold is_u64; lia). apply PutUint64_inj in Hs; [|lia..].
    apply str_app_inj_length in Heq as [-> ->]; [|unfold len in Hs; lia]. f_equal. by apply (IH l2 h1).
Qed.

Lemma walked_items_perm walk : walked_items walk ≡ₚ omap item_of (map_to_list walk).
Proof. apply SortStableFunc_perm. Qed.

Lemma walked_items_settled walk : settled walk → Forall settled_item (walked_items walk).
Proof.
  intros Hs. apply Forall_forall. intros i Hi. rewrite walked_items_perm in Hi. apply list_elem_of_omap in Hi as ([path e] & He & Hi).
  apply elem_of_map_to_list in He. unfold item_of in Hi. destruct e as [mode size contents| | |]; simplify_eq/=.
  destruct (Hs _ _ _ _ He) as (c & -> & -> & ? & ?). exists c. pose proof (normalizedArtifactMode_range mode). done.
Qed.

(** The items of a settled walk are its files. *)
Lemma walked_items_files walk path mode contents : settled walk →
  files_of walk !! path = Some (mode, contents) ↔
  {| it_path := path; it_mode := mode; it_size := len contents; it_contents := Some contents |} ∈ walked_items walk.
Proof.
  intros Hs. unfold files_of. rewrite lookup_omap, walked_items_perm, list_elem_of_omap. split.
  - destruct (walk !! path) as [[m size c| | |]|] eqn:E; simpl; try done. destruct (Hs _ _ _ _ E) as (c' & -> & -> & _). intros ?. simplify_eq.
    exists (path, Regular m (len contents) (Some contents)). split; [by apply elem_of_map_to_list|done].
  - intros ([p e] & He & Hi). apply elem_of_map_to_list in He. unfold item_of in Hi. destruct e as [m size c| | |]; simplify_eq/=. by rewrite He.
Qed.

Lemma directoryDigest_Ok path digest size : directoryDigest path = Ok (digest, size) →
  ∃ walk hashed, path = Some (Folder (Some walk)) ∧ hash_items (walked_items walk) = Some hashed ∧ digest = bytesDigest hashed ∧ size = total_size (walked_items walk) ∧ walked_items walk ≠ [].
Proof.
  unfold directoryDigest. destruct path as [[|[walk|]|]|]; try done. intros H. passed H E1. passed H E2. destruct (hash_items _) as [hashed|] eqn:Eh; [|done].
  simplify_eq. exists walk, hashed. split_and!; try done. by destruct (walked_items walk).
Qed.

(** A directory digest identifies a directory.  Two directories with one digest have
    the same files: the same paths, with the same contents and the same executable
    bits; and the same total size; unless SHA-256 collides on what was hashed for them. *)
Theorem directory_identity walk1 walk2 digest size1 size2 :
  settled walk1 → settled walk2 →
  directoryDigest (Some (Folder (Some walk1))) = Ok (digest, size1) → directoryDigest (Some (Folder (Some walk2))) = Ok (digest, size2) →
  (files_of walk1 = files_of walk2 ∧ size1 = size2) ∨
  ∃ h1 h2, hash_items (walked_items walk1) = Some h1 ∧ hash_items (walked_items walk2) = Some h2 ∧ collide h1 h2.
Proof.
  intros S1 S2 D1 D2. apply directoryDigest_Ok in D1 as (w1 & h1 & [= <-] & H1 & -> & -> & _), D2 as (w2 & h2 & [= <-] & H2 & D & -> & _).
  apply bytesDigest_same in D as [<-|]; [left|right; by exists h1, h2].
  assert (walked_items walk1 = walked_items walk2) as E by (eapply hash_items_inj; eauto using walked_items_settled).
  split; [|by rewrite E]. apply map_eq. intros path. apply option_eq. intros [mode contents].
  by rewrite !walked_items_files, E.
Qed.

Definition sample_walk : tree := {["bin/run" := Regular 493 3 (Some "run"); "readme" := Regular 420 4 (Some "text"); "bin" := Directory]}.

Lemma settled_sample : settled sample_walk.
Proof.
  intros path mode size contents H. unfold sample_walk in H.
  repeat (apply lookup_insert_Some in H as [[<- ?]|[_ H]]; [simplify_eq; by eexists|]). apply lookup_singleton_Some in H as [_ ?]. done.
Qed.

Lemma directory_identity_witness :
  let walk := <["bin/run" := Regular 509 3 (Some "run")]> sample_walk in files_of sample_walk = files_of walk ∧ 7 = 7.
Proof.
  intros walk. destruct (directory_identity sample_walk walk (bytesDigest (default "" (hash_items (walked_items sample_walk)))) 7 7)
    as [E|(h1 & h2 & E1 & E2 & Hne & _)].
  3, 4: vm_compute; reflexivity.
  3: exact E.
  3: { destruct Hne. apply (inj Some). rewrite <- E1, <- E2. vm_compute. reflexivity. }
  - apply settled_sample.
  - intros path mode size contents H. apply lookup_insert_Some in H as [[<- ?]|[_ H]]; [simplify_eq; by eexists|by eapply settled_sample].
Defined.

End ArtifactIdentity.
