(* ===== verification/BuildIR.v ===== *)
(** * Build IR (build-plane/internal/buildir/buildir.go)

    The graph between the build language and BuildKit: nodes in evaluation order,
    each reading earlier nodes only, and the outputs taken from them.  [Validate]
    is the whole validator; the theorems say what a validated graph guarantees to
    the compiler that lowers it. *)

From S2P Require Import Prelude Text GoStd Crypto Storage.
From stdpp Require Import pretty.
Import GoStd Crypto Storage.

Open Scope Z_scope.
Local Set Warnings "-register-all".

Module BuildIR.

Definition CurrentVersion : Z := 2.
Definition CurrentDSLAPIVersion : string := "lrail.build/v1".
Definition MaxNodes : nat := 1024.
Definition MaxOutputs : nat := 64.
Definition MaxModules : nat := 64.
Definition MaxInputs : nat := 32.
Definition MaxArguments : nat := 128.
Definition MaxStringBytes : Z := 4096.

Definition invalidf (message : string) : error := Error "invalid Build IR" message.

(** ** Patterns *)

(** [^[a-z0-9][a-z0-9./_-]{0,127}$] *)
Definition is_label_key : string → bool :=
  name_like lower_alnum (fun c => lower_name c || is_char "/" c) 127.

(** [^[A-Za-z][A-Za-z0-9-]{0,126}$] *)
Definition is_header_name : string → bool :=
  name_like (fun c => is_upper c || is_lower c) (fun c => is_upper c || lower_dash c) 126.

(** [[1-9][0-9]{0,9}] *)
Definition is_owner_number : string → bool := name_like (in_range "1" "9") is_digit 9.

Definition is_owner (s : string) : bool :=
  match Cut s ":" with
  | Some (user, group) => is_owner_number user && is_owner_number group
  | None => false
  end.

(** [^0[0-7]{3}$] *)
Definition is_mode (s : string) : bool :=
  HasPrefix s "0" && (len s =? 4) && str_forall (in_range "0" "7") s.

(** [^[a-z0-9][a-z0-9./:_-]{0,511}@sha256:[0-9a-f]{64}$] *)
Definition is_pinned_image (s : string) : bool :=
  match Cut s "@" with
  | Some (name, digest) =>
      name_like lower_alnum (fun c => lower_name c || is_char "/" c || is_char ":" c) 511 name && is_digest digest
  | None => false
  end.

Definition module_char (c : ascii) : bool := lower_name c || is_upper c.

(** [[A-Za-z0-9._-]+(?:/[A-Za-z0-9._-]+)*\.star] *)
Definition is_star_path (s : string) : bool :=
  let segments := Split s "/" in
  forallb (fun segment => negb (String.eqb segment "") && str_forall module_char segment) segments &&
  HasSuffix s ".star" && (5 <? len (List.last segments "")).

Definition is_repository_module (s : string) : bool := HasPrefix s "//" && is_star_path (TrimPrefix s "//").

(** [^@lrail/v[1-9][0-9]*/...$] *)
Definition is_standard_module (s : string) : bool :=
  match Cut s "/" with
  | Some (scope, rest) =>
      String.eqb scope "@lrail" &&
      match Cut rest "/" with
      | Some (String v number, file) =>
          is_char "v" v && name_like (in_range "1" "9") is_digit (len number) number && is_star_path file
      | _ => false
      end
  | None => false
  end.

Definition allowedOperations : list string := ["cache"; "copy"; "image"; "run"; "secret"; "source"].
Definition allowedNetworks : list string := ["none"; "packages"; "allowlist"; "private"].
Definition stateOperations : list string := ["copy"; "image"; "run"].

(** ** The graph *)

(** A value of type [any] in a node's attributes: what JSON decoding with numbers
    preserved yields, and the typed slices and maps Go code may store. *)
Inductive any :=
| AnyNil
| AnyBool (b : bool)
| AnyNumber (text : string)
| AnyString (s : string)
| AnyStrings (l : list string)
| AnyList (l : list any)
| AnyStringMap (m : gmap string string)
| AnyMap (m : list (string * any)).

Record Module_ := { mod_Name : string; mod_Kind : string; mod_Digest : string }.

(** A nil map is [None]. *)
Record Node := {
  ID : string;
  Operation : string;
  Inputs : list string;
  Attributes : option (gmap string any);
}.

(** Nil slices and maps are [None]. *)
Record Output := {
  out_Name : string;
  out_Kind : string;
  out_State : string;
  Entrypoint : option (list string);
  Command : option (list string);
  Ports : option (list Z);
  Labels : option (gmap string string);
  Headers : option (gmap string string);
}.

Record IR := {
  ir_Version : Z;
  DSLAPIVersion : string;
  CompilerVersion : string;
  SourceSnapshot : string;
  TargetPlatform : string;
  NetworkProfile : string;
  AllowedHosts : list string;
  Modules : list Module_;
  Nodes : list Node;
  Outputs : list Output;
}.

(** ** Attribute access *)

(** [attributes[key]]; an absent key reads as nil. *)
Definition attr (node : Node) (key : string) : any :=
  default AnyNil (default ∅ (Attributes node) !! key).

Definition as_string (value : any) : option string := match value with AnyString s => Some s | _ => None end.
Definition as_bool (value : any) : option bool := match value with AnyBool b => Some b | _ => None end.

Fixpoint all_strings (l : list any) : option (list string) :=
  match l with
  | [] => Some []
  | AnyString s :: rest => match all_strings rest with Some t => Some (s :: t) | None => None end
  | _ => None
  end.

Definition stringSlice (value : any) : option (list string) :=
  match value with
  | AnyStrings l => Some l
  | AnyList l => all_strings l
  | _ => None
  end.

Fixpoint all_string_values (m : list (string * any)) : option (gmap string string) :=
  match m with
  | [] => Some ∅
  | (key, AnyString s) :: rest =>
      match all_string_values rest with Some t => Some (<[key := s]> t) | None => None end
  | _ => None
  end.

Definition stringMap (value : any) : option (gmap string string) :=
  match value with
  | AnyStringMap m => Some m
  | AnyMap m => all_string_values m
  | _ => None
  end.

Definition exactKeys (attributes : gmap string any) (expected : list string) : bool :=
  (size attributes =? length expected)%nat &&
  forallb (fun key => bool_decide (is_Some (attributes !! key))) expected.

(** ** Text and paths *)

Definition boundedString (value : string) (allowEmpty : bool) : bool :=
  (allowEmpty || negb (String.eqb value "")) && (len value <=? MaxStringBytes) && ValidString value &&
  negb (ContainsChar value (char_of 0)).

Definition validString (value : string) : bool := boundedString value false.
Definition validStrings (values : list string) : bool := forallb validString values.

Definition backslash_or_colon (c : ascii) : bool := (byte_of c =? 92) || is_char ":" c.

Definition safePattern (value : string) : bool :=
  if String.eqb value "" || HasPrefix value "/" || ContainsAny value backslash_or_colon then false
  else forallb (fun component => negb (String.eqb component "") && negb (String.eqb component "..")) (Split value "/").

Definition validPatterns (values : list string) : bool :=
  (length values <=? MaxArguments)%nat && strictlySorted values &&
  forallb (fun value => validString value && safePattern value) values.

Definition newline (c : ascii) : bool := (byte_of c =? 13) || (byte_of c =? 10).

Definition validStringMap (values : gmap string string) (keyPattern : string → bool) (rejectNewline : bool) : bool :=
  (size values <=? MaxArguments)%nat &&
  map_forallb (fun key value =>
    keyPattern key && boundedString value true && negb (rejectNewline && ContainsAny value newline)) values.

Definition safeRelativePath (value : string) : bool :=
  if String.eqb value "." then true
  else negb (String.eqb value "") && negb (HasPrefix value "/") && negb (ContainsAny value backslash_or_colon) &&
       String.eqb (Clean value) value && negb (String.eqb value "..") && negb (HasPrefix value "../").

Definition safeAbsolutePath (value : string) : bool :=
  negb (String.eqb value "/") && HasPrefix value "/" && negb (ContainsChar value (char_of 92)) &&
  negb (ContainsChar value (char_of 0)) && String.eqb (Clean value) value.

Definition safeSecretTarget (value : string) : bool :=
  HasPrefix value "/run/secrets/" && safeAbsolutePath value && (0 <? len (TrimPrefix value "/run/secrets/")).

(** [slices.Index], which is -1 when absent. *)
Fixpoint index_of (i : Z) (value : string) (values : list string) : Z :=
  match values with
  | [] => -1
  | v :: rest => if String.eqb v value then i else index_of (i + 1) value rest
  end.

Definition networkRank (network : string) : Z := index_of 0 network allowedNetworks.

Definition shells : list string := ["ash"; "bash"; "cmd.exe"; "dash"; "ksh"; "powershell"; "pwsh"; "sh"; "zsh"].

Definition isShell (value : string) : bool := slices_Contains shells (Base value).

Definition shellInvocation (arguments : list string) : bool :=
  match arguments with
  | [] => false
  | first :: rest =>
      isShell first ||
      match rest with
      | second :: _ => (String.eqb (Base first) "env" || String.eqb (Base first) "busybox") && isShell second
      | [] => false
      end
  end.

(** ** Validation *)

(** The operation of an earlier node; a missing one reads as the zero node. *)
Definition operation_of (earlier : gmap string Node) (id : string) : string :=
  match earlier !! id with Some node => Operation node | None => "" end.

(** [node.Inputs[i]]; every use is guarded by the length. *)
Definition input (node : Node) (i : nat) : string := nth i (Inputs node) "".

Definition require (ok : bool) (message : string) : result unit :=
  if ok then Ok tt else Err (invalidf message).

(** A value that must be a string passing [p]. *)
Definition string_attr (node : Node) (key : string) (p : string → bool) : bool :=
  match as_string (attr node key) with Some s => p s | None => false end.

Definition validateRun (node : Node) (earlier : gmap string Node) (networkCeiling : string) : result unit :=
  let attributes := default ∅ (Attributes node) in
  let* _ := require (negb (length (Inputs node) =? 0)%nat &&
    exactKeys attributes ["argv"; "env"; "mounts"; "network"; "shell"; "user"; "workdir"]) "run fields" in
  let* _ := require (slices_Contains stateOperations (operation_of earlier (input node 0))) "run base" in
  let shell := default false (as_bool (attr node "shell")) in
  let* arguments :=
    match stringSlice (attr node "argv") with
    | Some arguments =>
        if (length arguments =? 0)%nat || (MaxArguments <? length arguments)%nat || negb (validStrings arguments)
        then Err (invalidf "run argv") else Ok arguments
    | None => Err (invalidf "run argv")
    end in
  let* _ := require (negb (shell && (negb (length arguments =? 3)%nat || negb (String.eqb (nth 0 arguments "") "/bin/sh") ||
                                     negb (String.eqb (nth 1 arguments "") "-euc")))) "run shell command" in
  let* _ := require (negb (negb shell && shellInvocation arguments)) "run implicit shell" in
  let* mounts :=
    match stringSlice (attr node "mounts") with
    | Some mounts =>
        if negb (strictlySorted mounts) || negb (bool_decide (tail (Inputs node) = mounts))
        then Err (invalidf "run mounts") else Ok mounts
    | None => Err (invalidf "run mounts")
    end in
  let* _ := each (fun mount =>
    let operation := operation_of earlier mount in
    require (String.eqb operation "cache" || String.eqb operation "secret") "run mount kind") mounts in
  let* _ := require
    match stringMap (attr node "env") with
    | Some environment => validStringMap environment is_argument_name false
    | None => false
    end "run environment" in
  let* _ := require (string_attr node "network" (fun network =>
    slices_Contains allowedNetworks network && (networkRank network <=? networkRank networkCeiling))) "run network" in
  require (match as_bool (attr node "shell") with Some _ => true | None => false end &&
           string_attr node "user" is_owner && string_attr node "workdir" safeAbsolutePath) "run shell, user or workdir".

Definition validateNode (node : Node) (earlier : gmap string Node) (networkCeiling : string) : result unit :=
  match Attributes node with
  | None => Err (invalidf "node attributes")
  | Some attributes =>
      let no_inputs := (length (Inputs node) =? 0)%nat in
      if String.eqb (Operation node) "source" then
        let* _ := require (no_inputs && exactKeys attributes ["exclude"; "include"; "path"]) "source fields" in
        let* _ := require (string_attr node "path" safeRelativePath) "source path" in
        require match stringSlice (attr node "include"), stringSlice (attr node "exclude") with
                | Some include, Some exclude => validPatterns include && validPatterns exclude
                | _, _ => false
                end "source patterns"
      else if String.eqb (Operation node) "image" then
        let* _ := require (no_inputs && exactKeys attributes ["ref"]) "image fields" in
        require (string_attr node "ref" (fun ref =>
          is_pinned_image ref && negb (Contains ref "..") && negb (Contains ref "//"))) "image reference"
      else if String.eqb (Operation node) "run" then validateRun node earlier networkCeiling
      else if String.eqb (Operation node) "copy" then
        let* _ := require ((length (Inputs node) =? 2)%nat && exactKeys attributes ["dest"; "mode"; "owner"]) "copy fields" in
        let* _ := require (slices_Contains stateOperations (operation_of earlier (input node 0)) &&
                           String.eqb (operation_of earlier (input node 1)) "source") "copy inputs" in
        require (string_attr node "dest" safeAbsolutePath && string_attr node "owner" is_owner &&
                 string_attr node "mode" is_mode) "copy destination, owner or mode"
      else if String.eqb (Operation node) "cache" then
        let* _ := require (no_inputs && exactKeys attributes ["name"; "sharing"; "target"]) "cache fields" in
        require (string_attr node "name" is_capability_name && string_attr node "target" safeAbsolutePath &&
                 string_attr node "sharing" (slices_Contains ["locked"; "private"; "shared"])) "cache values"
      else if String.eqb (Operation node) "secret" then
        let* _ := require (no_inputs && exactKeys attributes ["name"; "required"; "target"]) "secret fields" in
        require (string_attr node "name" is_capability_name && string_attr node "target" safeSecretTarget &&
                 match as_bool (attr node "required") with Some _ => true | None => false end) "secret values"
      else Ok tt
  end.

Section Validate.
Context `{GoText}.

Definition validateAllowedHosts (profile : string) (hosts : list string) : result unit :=
  if negb (String.eqb profile "allowlist") && (0 <? length hosts)%nat then Err (invalidf "allowed_hosts profile")
  else if String.eqb profile "allowlist" && (length hosts =? 0)%nat then Err (invalidf "allowed_hosts required")
  else if (64 <? length hosts)%nat || negb (strictlySorted hosts) then Err (invalidf "allowed_hosts order")
  else each (fun host =>
    if (253 <? len host) || negb (String.eqb host (ToLower host)) || negb (is_hostname host)
    then Err (invalidf "allowed host") else Ok tt) hosts.

(** One module, after the module named [previousName]; the loop carries the name. *)
Definition check_module (previousName : string) (m : Module_) : result string :=
  if Compare (mod_Name m) previousName <=? 0 then Err (invalidf "module order")
  else
    let* _ :=
      if String.eqb (mod_Kind m) "repository" then
        require (is_repository_module (mod_Name m) && safeRelativePath (TrimPrefix (mod_Name m) "//")) "repository module"
      else if String.eqb (mod_Kind m) "standard" then
        require (is_standard_module (mod_Name m) &&
          match Cut (mod_Name m) "/" with
          | Some (_, rest) => match Cut rest "/" with Some (_, file) => safeRelativePath file | None => false end
          | None => false
          end) "standard module"
      else Err (invalidf "module kind") in
    if negb (is_digest (mod_Digest m)) then Err (invalidf "module digest") else Ok (mod_Name m).

Definition validateModules (modules : list Module_) : result unit :=
  if (MaxModules <? length modules)%nat then Err (invalidf "module count")
  else let* _ := fold_result check_module "" modules in Ok tt.

Definition expected_id (index : nat) : string := "n" +:+ pretty (S index).

(** The body of the loop over the nodes; the state is the index and [seen]. *)
Definition check_node (profile : string) (st : nat * gmap string Node) (node : Node)
    : result (nat * gmap string Node) :=
  let '(index, seen) := st in
  if negb (String.eqb (ID node) (expected_id index)) || negb (is_node_id (ID node)) then Err (invalidf "node id")
  else if negb (slices_Contains allowedOperations (Operation node)) then Err (invalidf "node operation")
  else if (MaxInputs <? length (Inputs node))%nat || negb (distinct [] (Inputs node)) then Err (invalidf "node inputs")
  else
    let* _ := each (fun id => require (bool_decide (is_Some (seen !! id))) "node input order") (Inputs node) in
    let* _ := validateNode node seen profile in
    Ok (S index, <[ID node := node]> seen).

Definition folded_keys (values : gmap string string) : list string := ToLower <$> (map_to_list values).*1.

Definition uniqueFoldedKeys (values : gmap string string) : bool := distinct [] (folded_keys values).

Definition uniqueInts (values : list Z) : bool := bool_decide (NoDup values).

Definition validateOutput (output : Output) (state : Node) : result unit :=
  match Entrypoint output, Command output, Ports output, Labels output, Headers output with
  | Some entrypoint, Some command, Some ports, Some labels, Some headers =>
      let* _ := require (negb ((32 <? length entrypoint)%nat || (64 <? length command)%nat || (16 <? length ports)%nat ||
        negb (validStrings entrypoint) || negb (validStrings command) || negb (uniqueInts ports))) "output process" in
      let* _ := each (fun port => require (negb ((port <? 1) || (65535 <? port))) "output port") ports in
      if String.eqb (out_Kind output) "oci_image" then
        require (slices_Contains stateOperations (Operation state) && (size headers =? 0)%nat &&
                 validStringMap labels is_label_key false) "OCI output"
      else if String.eqb (out_Kind output) "static_bundle" then
        require (slices_Contains ["copy"; "run"; "source"] (Operation state) && (length entrypoint =? 0)%nat &&
                 (length command =? 0)%nat && (length ports =? 0)%nat && (size labels =? 0)%nat &&
                 validStringMap headers is_header_name true && uniqueFoldedKeys headers) "static output"
      else Err (invalidf "output kind")
  | _, _, _, _, _ => Err (invalidf "output collections")
  end.

Definition check_output (seen : gmap string Node) (previousName : string) (output : Output) : result string :=
  if negb (is_output_name (out_Name output)) then Err (invalidf "output name")
  else if Compare (out_Name output) previousName <=? 0 then Err (invalidf "output order")
  else match seen !! out_State output with
  | None => Err (invalidf "output state")
  | Some state => let* _ := validateOutput output state in Ok (out_Name output)
  end.

Definition Validate (ir : IR) : result unit :=
  if negb (ir_Version ir =? CurrentVersion) then Err (invalidf "ir_version")
  else if negb (String.eqb (DSLAPIVersion ir) CurrentDSLAPIVersion) then Err (invalidf "dsl_api_version")
  else if negb (is_semantic_version (CompilerVersion ir)) then Err (invalidf "compiler_version")
  else if negb (is_digest (SourceSnapshot ir)) then Err (invalidf "source_snapshot")
  else if negb (String.eqb (TargetPlatform ir) "linux/amd64") && negb (String.eqb (TargetPlatform ir) "linux/arm64")
  then Err (invalidf "target_platform")
  else if negb (slices_Contains allowedNetworks (NetworkProfile ir)) then Err (invalidf "network_profile")
  else
    let* _ := validateAllowedHosts (NetworkProfile ir) (AllowedHosts ir) in
    let* _ := validateModules (Modules ir) in
    if (length (Nodes ir) =? 0)%nat || (MaxNodes <? length (Nodes ir))%nat then Err (invalidf "node count")
    else if (length (Outputs ir) =? 0)%nat || (MaxOutputs <? length (Outputs ir))%nat then Err (invalidf "output count")
    else
      let* visited := fold_result (check_node (NetworkProfile ir)) (0%nat, ∅) (Nodes ir) in
      let* _ := fold_result (check_output visited.2) "" (Outputs ir) in
      Ok tt.

Context `{!Codec IR}.

Definition DefinitionDigest (ir : IR) : result string :=
  let* _ := Validate ir in
  match marshal ir with
  | None => Err (Error "canonicalize Build IR" "")
  | Some canonical => Ok (bytesDigest canonical)
  end.

(** [unmarshal] reads exactly one typed value. *)
Definition Decode (raw : string) : result IR :=
  match unmarshal raw with
  | None => Err (invalidf "decode typed JSON")
  | Some ir => let* _ := Validate ir in Ok ir
  end.

End Validate.

(** ** The loop over the nodes *)

Lemma expected_id_inj i j : expected_id i = expected_id j → i = j.
Proof. unfold expected_id. intros E. injection E as E. apply (inj pretty) in E. lia. Qed.

(** What [check_node] establishes of a node standing after [earlier]. *)
Definition node_checked (profile : string) (earlier : list Node) (node : Node) : Prop :=
  ID node = expected_id (length earlier) ∧ (Operation node ∈ allowedOperations) ∧ NoDup (Inputs node) ∧
  Forall (fun id => ∃ n, n ∈ earlier ∧ ID n = id) (Inputs node) ∧
  ∃ seen, validateNode node seen profile = Ok tt ∧ ∀ id n, seen !! id = Some n → n ∈ earlier ∧ ID n = id.

Record visited (profile : string) (nodes : list Node) (st : nat * gmap string Node) : Prop := {
  vis_index : st.1 = length nodes;
  vis_seen : ∀ id n, st.2 !! id = Some n → n ∈ nodes ∧ ID n = id;
  vis_all : ∀ i n, nodes !! i = Some n → node_checked profile (take i nodes) n ∧ is_Some (st.2 !! ID n);
}.

Lemma visited_empty profile : visited profile [] (0%nat, ∅).
Proof. split; [done| |done]. intros id n. simpl. by rewrite lookup_empty. Qed.

Lemma check_node_Ok profile index seen node st :
  check_node profile (index, seen) node = Ok st →
  st = (S index, <[ID node := node]> seen) ∧ ID node = expected_id index ∧ (Operation node ∈ allowedOperations) ∧
  NoDup (Inputs node) ∧ Forall (fun id => is_Some (seen !! id)) (Inputs node) ∧ validateNode node seen profile = Ok tt.
Proof.
  unfold check_node. intros Hc. run_ok Hc. bsimpl.
  match goal with Hd : distinct [] _ = true |- _ => apply distinct_nil in Hd end.
  match goal with He : each _ _ = Ok ?u |- _ => destruct u; apply each_Ok in He; rename He into Heach end.
  split_and!; try done; [|by destruct a0].
  eapply Forall_impl; [exact Heach|]. intros id. unfold require. case_bool_decide; done.
Qed.

Lemma check_node_visited profile nodes st node st' :
  visited profile nodes st → check_node profile st node = Ok st' → visited profile (nodes ++ [node]) st'.
Proof.
  intros [Hi Hs Ha] Hc. destruct st as [index seen]. simpl in *. subst index.
  apply check_node_Ok in Hc as (-> & Hid & Hop & Hnd & Hin & Hv). split; simpl.
  - rewrite length_app. simpl. lia.
  - intros id n. rewrite lookup_insert. case_decide; intros Hl; simplify_eq; [set_solver|].
    destruct (Hs _ _ Hl). set_solver.
  - intros i n Hn. apply lookup_app_Some in Hn as [Hn|[Hle Hn]].
    + rewrite take_app_le by (apply lookup_lt_Some in Hn; lia). destruct (Ha _ _ Hn) as [Hc Hsome].
      split; [done|]. rewrite lookup_insert. case_decide; [done|done].
    + apply list_lookup_singleton_Some in Hn as [Hz <-].
      assert (i = length nodes) as -> by lia. rewrite take_app_length.
      split; [|by rewrite lookup_insert_eq]. split_and!; try done; [|by exists seen].
      eapply Forall_impl; [exact Hin|]. intros id [n Hl]. exists n. by apply Hs.
Qed.

Lemma Validate_nodes `{GoText} ir :
  Validate ir = Ok tt → ∃ st, visited (NetworkProfile ir) (Nodes ir) st ∧
    is_ok (fold_result (check_output st.2) "" (Outputs ir)) = true.
Proof.
  unfold Validate. intros Hv. run_ok Hv. eexists. split; [|by erewrite Hbind2].
  eapply fold_result_invariant; [apply visited_empty| |eassumption].
  intros. by eapply check_node_visited.
Qed.

(** ** What the checks of one node give *)

Lemma require_Ok ok message u : require ok message = Ok u → ok = true.
Proof. unfold require. by destruct ok. Qed.

Lemma string_attr_true node key p :
  string_attr node key p = true → ∃ s, attr node key = AnyString s ∧ p s = true.
Proof. unfold string_attr, as_string. destruct (attr node key); try done. eauto. Qed.

Lemma safeAbsolutePath_contained value : safeAbsolutePath value = true → contained value.
Proof.
  unfold safeAbsolutePath, Clean, IsAbs. intros Hs. bsimpl.
  match goal with Hp : HasPrefix value "/" = true |- _ => rewrite Hp in * end.
  by apply Clean_rooted_contained.
Qed.

Ltac node_checks H :=
  run_ok H; cbn [bind_result] in H;
  repeat match goal with Hr : require _ _ = Ok _ |- _ => apply require_Ok in Hr end;
  bsimpl;
  repeat match goal with Hs : string_attr _ _ _ = true |- _ => apply string_attr_true in Hs as (? & ? & Hs) end;
  bsimpl.

(** The attribute of each operation that names a place in the build root. *)
Definition path_attribute (operation : string) : option string :=
  if String.eqb operation "copy" then Some "dest"
  else if String.eqb operation "cache" then Some "target"
  else if String.eqb operation "secret" then Some "target"
  else if String.eqb operation "run" then Some "workdir"
  else None.

Lemma validateRun_Ok node seen ceiling u :
  validateRun node seen ceiling = Ok u →
  (∃ network, attr node "network" = AnyString network ∧ (network ∈ allowedNetworks) ∧
     networkRank network ≤ networkRank ceiling) ∧
  (∃ argv shell, stringSlice (attr node "argv") = Some argv ∧ attr node "shell" = AnyBool shell ∧ argv ≠ [] ∧
     (shellInvocation argv = true → shell = true)) ∧
  (∃ workdir, attr node "workdir" = AnyString workdir ∧ safeAbsolutePath workdir = true) ∧
  ∃ base mounts, Inputs node = base :: mounts ∧ (operation_of seen base ∈ stateOperations) ∧
    Forall (fun m => operation_of seen m = "cache" ∨ operation_of seen m = "secret") mounts.
Proof.
  unfold validateRun. intros Hv. node_checks Hv. split_and!.
  - eexists. split_and!; [done..|lia].
  - run_ok Hbind1. bsimpl. exists a1, b. split_and!; try done.
    + unfold as_bool in Hif. by destruct (attr node "shell"); simplify_eq.
    + by intros ->.
    + intros Hsh. simpl in *. destruct Hbind3; [done|congruence].
  - eauto.
  - run_ok Hbind4. bsimpl.
    match goal with Ht : bool_decide _ = true |- _ => apply bool_decide_eq_true_1 in Ht end.
    destruct (Inputs node) as [|base mounts] eqn:Hi; [done|]. exists base, mounts.
    unfold input in Hbind0. rewrite Hi in Hbind0. simpl in *. subst. split_and!; [done..|].
    destruct a5. apply each_Ok in Hbind5. eapply Forall_impl; [exact Hbind5|].
    intros m Hk. apply require_Ok in Hk. by bsimpl.
Qed.

Lemma validateNode_path node seen ceiling u key :
  validateNode node seen ceiling = Ok u → path_attribute (Operation node) = Some key →
  ∃ p, attr node key = AnyString p ∧ safeAbsolutePath p = true ∧
       (Operation node = "secret" → HasPrefix p "/run/secrets/" = true).
Proof.
  unfold validateNode, path_attribute. intros Hv Hk. destruct (Attributes node); [|done].
  destruct (String.eqb_spec (Operation node) "source") as [E|_]; [by rewrite E in Hk|].
  destruct (String.eqb_spec (Operation node) "image") as [E|_]; [by rewrite E in Hk|].
  destruct (String.eqb_spec (Operation node) "run") as [E|_].
  { rewrite E in Hk. simplify_eq/=. apply validateRun_Ok in Hv as (_ & _ & (p & Hp & Hs) & _). exists p. by rewrite E. }
  destruct (String.eqb_spec (Operation node) "copy") as [E|_].
  { simplify_eq. node_checks Hv. eexists. split_and!; try done. by rewrite E. }
  destruct (String.eqb_spec (Operation node) "cache") as [E|_].
  { simplify_eq. node_checks Hv. eexists. split_and!; try done. by rewrite E. }
  destruct (String.eqb_spec (Operation node) "secret") as [E|_]; [|done].
  simplify_eq. node_checks Hv. unfold safeSecretTarget in *. bsimpl. eauto.
Qed.

Lemma visited_node profile nodes st i node :
  visited profile nodes st → nodes !! i = Some node →
  ID node = expected_id i ∧
  Forall (fun id => ∃ j n, (j < i)%nat ∧ nodes !! j = Some n ∧ ID n = id) (Inputs node) ∧
  ∃ seen, validateNode node seen profile = Ok tt ∧
    ∀ id n, seen !! id = Some n → ID n = id ∧ ∃ j, (j < i)%nat ∧ nodes !! j = Some n.
Proof.
  intros [_ _ Ha] Hn. destruct (Ha _ _ Hn) as [(Hid & _ & _ & Hin & seen & Hv & Hs) _].
  assert (∀ n, n ∈ take i nodes → ∃ j, (j < i)%nat ∧ nodes !! j = Some n) as Hearlier.
  { intros n Hin'. apply list_elem_of_lookup in Hin' as [j Hj]. apply lookup_take_Some in Hj as [Hj Hlt]. eauto. }
  split_and!.
  - rewrite Hid, length_take_le; [done|]. apply lookup_lt_Some in Hn. lia.
  - eapply Forall_impl; [exact Hin|]. intros id (n & Hn' & Hid'). destruct (Hearlier _ Hn') as (j & ? & ?). eauto.
  - exists seen. split; [done|]. intros id n Hl. destruct (Hs _ _ Hl). auto.
Qed.

Lemma operation_of_earlier (seen : gmap string Node) (nodes : list Node) i id op :
  (∀ id n, seen !! id = Some n → ID n = id ∧ ∃ j, (j < i)%nat ∧ nodes !! j = Some n) →
  operation_of seen id = op → op ≠ "" →
  ∃ j n, (j < i)%nat ∧ nodes !! j = Some n ∧ ID n = id ∧ Operation n = op.
Proof.
  intros Hs Ho Hne. unfold operation_of in Ho. destruct (seen !! id) as [n|] eqn:Hl; [|congruence].
  destruct (Hs _ _ Hl) as (? & j & ? & ?). eauto 10.
Qed.

(** ** The outputs *)

Lemma check_output_Ok `{GoText} seen previous output name :
  check_output seen previous output = Ok name →
  name = out_Name output ∧ Compare previous name < 0 ∧ is_Some (seen !! out_State output).
Proof.
  unfold check_output. intros Hc. run_ok Hc. bsimpl. split_and!; [done| |done].
  rewrite Compare_opp. lia.
Qed.

Lemma check_outputs_sorted `{GoText} seen outputs previous last :
  fold_result (check_output seen) previous outputs = Ok last →
  strictlySorted (previous :: (out_Name <$> outputs)) = true ∧
  Forall (fun o => is_Some (seen !! out_State o)) outputs.
Proof.
  revert previous. induction outputs as [|o outputs IH]; intros previous Hf; [by simpl|].
  cbn [fold_result] in Hf. apply bind_result_Ok in Hf as (name & Hc & Hf).
  apply check_output_Ok in Hc as (-> & Hlt & Hst). apply IH in Hf as [Hs Ha]. split; [|by constructor].
  simpl fmap. cbn [strictlySorted]. apply Z.ltb_lt in Hlt. by rewrite Hlt.
Qed.

(** Strictly increasing names are distinct. *)
Lemma strictlySorted_NoDup names : strictlySorted names = true → NoDup names.
Proof.
  induction names as [|x [|y names] IH]; intros Hs; [constructor|apply NoDup_singleton|].
  cbn [strictlySorted] in Hs. apply andb_true_iff in Hs as [Hxy Hs]. specialize (IH Hs). constructor; [|done].
  assert (Forall (fun z => Compare x z < 0) (y :: names)) as Hall.
  { apply Z.ltb_lt in Hxy. clear IH. revert y Hxy Hs. induction names as [|z names IHn]; intros y Hxy Hs.
    - by repeat constructor.
    - cbn [strictlySorted] in Hs. apply andb_true_iff in Hs as [Hyz Hs]. apply Z.ltb_lt in Hyz.
      constructor; [done|]. apply IHn; [|done].
      pose proof (Compare_trans x y z ltac:(lia) ltac:(lia)). destruct (decide (Compare x z = 0)) as [E|?]; [|lia].
      apply Compare_0 in E as <-. rewrite Compare_opp in Hyz. lia. }
  intros Hin. rewrite Forall_forall in Hall. specialize (Hall _ Hin). rewrite Compare_refl in Hall. lia.
Qed.

(** ** Theorems *)

(** A validated graph is in evaluation order: the node at position i has ID
    n(i+1), so IDs are unique; each input names a node at a smaller position, so
    the graph has no cycle; outputs have distinct names and are taken from nodes
    of the graph. *)
Theorem validated_graph_ordered `{GoText} ir :
  Validate ir = Ok tt →
  (∀ i node, Nodes ir !! i = Some node → ID node = expected_id i ∧
     Forall (fun id => ∃ j n, (j < i)%nat ∧ Nodes ir !! j = Some n ∧ ID n = id) (Inputs node)) ∧
  NoDup (ID <$> Nodes ir) ∧ NoDup (out_Name <$> Outputs ir) ∧
  Forall (fun o => ∃ n, n ∈ Nodes ir ∧ ID n = out_State o) (Outputs ir).
Proof.
  intros Hv. apply Validate_nodes in Hv as (st & Hst & Ho).
  destruct (fold_result _ _ _) as [last|] eqn:Hf; [|done]. apply check_outputs_sorted in Hf as [Hs Ha].
  split_and!.
  - intros i node Hn. destruct (visited_node _ _ _ _ _ Hst Hn) as (? & ? & _). auto.
  - apply NoDup_alt. intros i j id Hi Hj. rewrite list_lookup_fmap in Hi, Hj.
    destruct (Nodes ir !! i) as [n1|] eqn:H1; [|done]. destruct (Nodes ir !! j) as [n2|] eqn:H2; [|done].
    destruct (visited_node _ _ _ _ _ Hst H1) as [E1 _]. destruct (visited_node _ _ _ _ _ Hst H2) as [E2 _].
    simplify_eq/=. apply expected_id_inj. congruence.
  - apply strictlySorted_NoDup in Hs. by apply NoDup_cons in Hs as [_ Hs].
  - eapply Forall_impl; [exact Ha|]. intros o [n Hn]. exists n. by apply (vis_seen _ _ _ Hst).
Qed.

Definition sample_source : Node :=
  {| ID := "n1"; Operation := "source"; Inputs := [];
     Attributes := Some {["path" := AnyString "."; "include" := AnyList []; "exclude" := AnyList []]} |}.
Definition sample_image : Node :=
  {| ID := "n2"; Operation := "image"; Inputs := [];
     Attributes := Some {["ref" := AnyString ("registry.test/base@" +:+ sample_digest "a")]} |}.
Definition sample_secret : Node :=
  {| ID := "n3"; Operation := "secret"; Inputs := [];
     Attributes := Some {["name" := AnyString "token"; "required" := AnyBool true;
                          "target" := AnyString "/run/secrets/token"]} |}.
Definition sample_run : Node :=
  {| ID := "n4"; Operation := "run"; Inputs := ["n2"; "n3"];
     Attributes := Some {["argv" := AnyList [AnyString "make"]; "env" := AnyMap []; "mounts" := AnyList [AnyString "n3"];
       "network" := AnyString "none"; "shell" := AnyBool false; "user" := AnyString "1000:1000";
       "workdir" := AnyString "/work/app"]} |}.

Definition sample_ir : IR :=
  {| ir_Version := 2; DSLAPIVersion := "lrail.build/v1"; CompilerVersion := "1.0.0";
     SourceSnapshot := sample_digest "b"; TargetPlatform := "linux/amd64"; NetworkProfile := "packages";
     AllowedHosts := []; Modules := []; Nodes := [sample_source; sample_image; sample_secret; sample_run];
     Outputs := [{| out_Name := "app"; out_Kind := "oci_image"; out_State := "n4"; Entrypoint := Some ["/app"];
       Command := Some []; Ports := Some [8080]; Labels := Some ∅; Headers := Some ∅ |}] |}.

Lemma validated_graph_ordered_witness :
  (∀ i node, Nodes sample_ir !! i = Some node → ID node = expected_id i ∧
     Forall (fun id => ∃ j n, (j < i)%nat ∧ Nodes sample_ir !! j = Some n ∧ ID n = id) (Inputs node)) ∧
  NoDup (ID <$> Nodes sample_ir) ∧ NoDup (out_Name <$> Outputs sample_ir) ∧
  Forall (fun o => ∃ n, n ∈ Nodes sample_ir ∧ ID n = out_State o) (Outputs sample_ir).
Proof. apply (@validated_graph_ordered plain_text). vm_compute. reflexivity. Defined.

(** In a validated graph a run step is confined: it asks for no network above
    the build's profile, starts from an earlier image, copy or run, mounts only
    earlier caches and secrets, and runs a shell only when it is marked as one. *)
Theorem validated_run_confined `{GoText} ir i node :
  Validate ir = Ok tt → Nodes ir !! i = Some node → Operation node = "run" →
  (∃ network, attr node "network" = AnyString network ∧ (network ∈ allowedNetworks) ∧
     networkRank network ≤ networkRank (NetworkProfile ir)) ∧
  (∃ argv shell, stringSlice (attr node "argv") = Some argv ∧ attr node "shell" = AnyBool shell ∧ argv ≠ [] ∧
     (shellInvocation argv = true → shell = true)) ∧
  ∃ base mounts, Inputs node = base :: mounts ∧
    (∃ j n, (j < i)%nat ∧ Nodes ir !! j = Some n ∧ ID n = base ∧ (Operation n ∈ stateOperations)) ∧
    Forall (fun m => ∃ j n, (j < i)%nat ∧ Nodes ir !! j = Some n ∧ ID n = m ∧
                            (Operation n = "cache" ∨ Operation n = "secret")) mounts.
Proof.
  intros Hv Hn Hop. apply Validate_nodes in Hv as (st & Hst & _).
  destruct (visited_node _ _ _ _ _ Hst Hn) as (_ & _ & seen & Hnode & Hs).
  assert (validateRun node seen (NetworkProfile ir) = Ok tt) as Hrun.
  { unfold validateNode in Hnode. rewrite Hop in Hnode. by destruct (Attributes node). }
  apply validateRun_Ok in Hrun as (Hnet & Hargv & _ & base & mounts & Hin & Hb & Hm).
  split_and!; [done..|]. exists base, mounts. split_and!; [done| |].
  - destruct (operation_of_earlier _ _ _ base _ Hs eq_refl) as (j & n & ? & ? & ? & Hjn).
    { intros E. rewrite E in Hb. unfold stateOperations in Hb. set_solver. }
    exists j, n. rewrite Hjn. auto.
  - eapply Forall_impl; [exact Hm|]. intros m Ho.
    destruct (operation_of_earlier _ _ _ m _ Hs eq_refl) as (j & n & ? & ? & ? & Hjn).
    { destruct Ho as [Ho|Ho]; by rewrite Ho. }
    exists j, n. rewrite Hjn. auto.
Qed.

Lemma validated_run_confined_witness :
  ∃ base mounts, Inputs sample_run = base :: mounts ∧
    Forall (fun m => ∃ j n, (j < 3)%nat ∧ Nodes sample_ir !! j = Some n ∧ ID n = m ∧
                            (Operation n = "cache" ∨ Operation n = "secret")) mounts.
Proof.
  destruct (@validated_run_confined plain_text sample_ir 3 sample_run) as (_ & _ & base & mounts & Hi & _ & Hm).
  - vm_compute. reflexivity.
  - reflexivity.
  - reflexivity.
  - exists base, mounts. split; [exact Hi|exact Hm].
Defined.

(** The paths of a validated graph stay where they are put: the destination of
    a copy, the target of a cache or secret and the working directory of a run are
    rooted paths of plain segments (no empty, "." or ".." segment), and secrets
    are mounted below /run/secrets/ only. *)
Theorem validated_paths_contained `{GoText} ir node key :
  Validate ir = Ok tt → node ∈ Nodes ir → path_attribute (Operation node) = Some key →
  ∃ p, attr node key = AnyString p ∧ contained p ∧
       (Operation node = "secret" → HasPrefix p "/run/secrets/" = true).
Proof.
  intros Hv Hn Hk. apply Validate_nodes in Hv as (st & Hst & _). apply list_elem_of_lookup in Hn as [i Hn].
  destruct (visited_node _ _ _ _ _ Hst Hn) as (_ & _ & seen & Hnode & _).
  destruct (validateNode_path _ _ _ _ _ Hnode Hk) as (p & Hp & Hs & Hsec).
  exists p. split_and!; [done|by apply safeAbsolutePath_contained|done].
Qed.

Lemma validated_paths_contained_witness :
  ∃ p, attr sample_secret "target" = AnyString p ∧ contained p ∧
       (Operation sample_secret = "secret" → HasPrefix p "/run/secrets/" = true).
Proof.
  apply (@validated_paths_contained plain_text sample_ir).
  - vm_compute. reflexivity.
  - simpl. set_solver.
  - reflexivity.
Defined.

End BuildIR.
