(* ===== verification/Redactor.v ===== *)
(** * The log redactor (build-plane/internal/buildworker/redactor.go)

    Build logs arrive in chunks, per stream.  The redactor buffers each stream up
    to the end of a line, replaces every known form of every secret in the line,
    and drops lines that are too long. *)

From S2P Require Import Prelude Text GoStd Crypto.
Import GoStd Crypto.

Open Scope Z_scope.

Module Redactor.

Definition MaxLogLineBytes : Z := 64 * 1024.
Definition redacted : string := "[REDACTED]".
Definition omitted : string := "[log line omitted: oversized]".
Definition newline : ascii := char_of 10.

Record logBuffer := { lb_contents : string; lb_dropping : bool }.

Record Redactor := { rd_patterns : list string; rd_buffers : gmap string logBuffer }.

(** ** Encodings of a secret *)

(** base64.RawStdEncoding: the URL alphabet with its last two characters replaced. *)
Definition std_char (c : ascii) : ascii := if Ascii.eqb c "-" then "+" else if Ascii.eqb c "_" then "/" else c.
Definition b64_raw_std (bs : list Z) : string := str_map std_char (b64_encode bs).

(** The padding of base64.StdEncoding and base64.URLEncoding. *)
Definition b64_pad (s : string) : string :=
  s +:+ str_repeat (Z.to_nat ((- len s) mod 4)) "=".

(** [url.QueryEscape] *)
Definition upper_hex (n : Z) : ascii := if n <? 10 then char_of (48 + n) else char_of (55 + n).
Definition unreserved (c : ascii) : bool :=
  is_lower c || is_upper c || is_digit c || is_char "-" c || is_char "_" c || is_char "." c || is_char "~" c.
Fixpoint QueryEscape (s : string) : string :=
  match s with
  | "" => ""
  | String c s' =>
      if unreserved c then String c (QueryEscape s')
      else if is_char " " c then String "+" (QueryEscape s')
      else String "%" (String (upper_hex (byte_of c / 16)) (String (upper_hex (byte_of c mod 16)) (QueryEscape s')))
  end.

(** What [strconv.Quote] writes for one ASCII character. *)
Definition quote_char (c : ascii) : string :=
  let b := byte_of c in
  if b =? 7 then "\a" else if b =? 8 then "\b" else if b =? 12 then "\f" else if b =? 10 then "\n"
  else if b =? 13 then "\r" else if b =? 9 then "\t" else if b =? 11 then "\v"
  else if (b =? 34) || (b =? 92) then String "\" (String c "")
  else if (b <? 32) || (b =? 127) then "\x" +:+ hex_bytes [b]
  else String c "".

Fixpoint quote_ascii (s : string) : string :=
  match s with "" => "" | String c s' => quote_char c +:+ quote_ascii s' end.

(** [strconv.Quote] between its quotation marks; which runes outside ASCII are
    printable is left to [unicode_Quote]. *)
Definition quote_inner (unicode_Quote : string → string) (s : string) : string :=
  if str_forall is_ascii s then quote_ascii s else unicode_Quote s.

(** [bytes.FieldsFunc] at carriage returns and newlines *)
Definition fields (s : string) : list string :=
  List.filter (fun f => negb (String.eqb f ""))
    (Split (str_map (fun c => if Ascii.eqb c (char_of 13) then newline else c) s) newline).

(** ** NewRedactor *)

Section New.
Context (unicode_Quote : string → string).

Definition secret_variants (value : string) : list string :=
  let bs := bytes_of value in
  [value; b64_pad (b64_raw_std bs); b64_raw_std bs; b64_pad (b64_encode bs); b64_encode bs; hex_bytes bs;
   QueryEscape value; quote_inner unicode_Quote value] ++ fields value.

(** The nonempty variants, by hash. *)
Definition add_variant (unique : gmap (list Z) string) (variant : string) : gmap (list Z) string :=
  if 0 <? len variant then <[Sum256 variant := variant]> unique else unique.

Definition unique_variants (secrets : gmap string string) : gmap (list Z) string :=
  fold_left (fun unique value => fold_left add_variant (secret_variants value) unique) ((map_to_list secrets).*2) ∅.

(** Go enumerates the map in any order and [sort.Slice] is not stable: [arrange] is
    what the two leave. *)
Definition NewRedactor (arrange : list string → list string) (secrets : gmap string string) : Redactor :=
  {| rd_patterns := arrange ((map_to_list (unique_variants secrets)).*2); rd_buffers := ∅ |}.

End New.

(** The patterns and buffers are overwritten with zeros before they are dropped. *)
Definition zeroBytes (value : string) : string := str_map (fun _ => Ascii.zero) value.

Definition Close (r : Redactor) : Redactor * list string :=
  ({| rd_patterns := []; rd_buffers := ∅ |},
   (zeroBytes <$> rd_patterns r) ++ ((fun b => zeroBytes (lb_contents b)) <$> (map_to_list (rd_buffers r)).*2)).

(** ** Redaction *)

(** [bytes.ReplaceAll] for a nonempty [old]: the leftmost occurrences that do not
    overlap; [skip] is what remains of the occurrence being replaced. *)
Fixpoint replace_from (skip : nat) (s old new : string) : string :=
  match s with
  | "" => ""
  | String c s' =>
      match skip with
      | S skip' => replace_from skip' s' old new
      | O => if HasPrefix s old then new +:+ replace_from (String.length old - 1) s' old new
             else String c (replace_from 0 s' old new)
      end
  end.
Definition ReplaceAll (s old new : string) : string := replace_from 0 s old new.

Definition redact (patterns : list string) (value : string) : string :=
  fold_left (fun result pattern => ReplaceAll result pattern redacted) patterns value.

Definition RedactString (r : Redactor) (value : string) : string := redact (rd_patterns r) value.

(** ** Push and Flush *)

Definition fresh : logBuffer := {| lb_contents := ""; lb_dropping := false |}.

(** The loop of [Push] over the data, cut at its newlines: every segment but the
    last ends a line. *)
Fixpoint push_segments (patterns : list string) (buffer : logBuffer) (segments : list string) : logBuffer * list string :=
  match segments with
  | [] => (buffer, [])
  | [data] =>
      if len data =? 0 then (buffer, [])
      else if lb_dropping buffer then (buffer, [])
      else if MaxLogLineBytes <? len (lb_contents buffer) + len data then ({| lb_contents := ""; lb_dropping := true |}, [omitted])
      else ({| lb_contents := lb_contents buffer +:+ data; lb_dropping := false |}, [])
  | chunk :: rest =>
      if lb_dropping buffer then push_segments patterns fresh rest
      else if MaxLogLineBytes <? len (lb_contents buffer) + len chunk then
        let '(buffer', result) := push_segments patterns fresh rest in (buffer', omitted :: result)
      else
        let line := redact patterns (lb_contents buffer +:+ chunk) in
        let '(buffer', result) := push_segments patterns fresh rest in (buffer', line :: result)
  end.

Definition Push (r : Redactor) (stream data : string) : Redactor * list string :=
  let buffer := default fresh (rd_buffers r !! stream) in
  let '(buffer', result) := push_segments (rd_patterns r) buffer (Split data newline) in
  ({| rd_patterns := rd_patterns r; rd_buffers := <[stream := buffer']> (rd_buffers r) |}, result).

Definition flush_buffer (patterns : list string) (buffer : logBuffer) : option (list string) :=
  if negb (lb_dropping buffer) && (0 <? len (lb_contents buffer)) then Some [redact patterns (lb_contents buffer)] else None.

Definition Flush (r : Redactor) : Redactor * gmap string (list string) :=
  ({| rd_patterns := rd_patterns r; rd_buffers := ∅ |}, omap (flush_buffer (rd_patterns r)) (rd_buffers r)).

(** ** What a stream's lines are *)

Section Lines.
Context (patterns : list string).

Definition oversized (line : string) : bool := MaxLogLineBytes <? len line.

(** A whole line as it is emitted. *)
Definition render (line : string) : string := if oversized line then omitted else redact patterns line.

(** What has been emitted for a stream with these segments: its whole lines, and
    the notice for an unfinished line that is already too long. *)
Definition emitted (segments : list string) : list string :=
  (render <$> removelast segments) ++ (if oversized (List.last segments "") then [omitted] else []).

(** The buffer that holds the unfinished line [line]. *)
Definition buffer_of (line : string) : logBuffer :=
  if oversized line then {| lb_contents := ""; lb_dropping := true |} else {| lb_contents := line; lb_dropping := false |}.

Lemma oversized_app t x : oversized t = true → oversized (t +:+ x) = true.
Proof. unfold oversized. rewrite len_app, !Z.ltb_lt. unfold len. lia. Qed.

Lemma push_segments_line buffer chunk y rest :
  push_segments patterns buffer (chunk :: y :: rest) =
  if lb_dropping buffer then push_segments patterns fresh (y :: rest)
  else ((push_segments patterns fresh (y :: rest)).1,
        render (lb_contents buffer +:+ chunk) :: (push_segments patterns fresh (y :: rest)).2).
Proof.
  unfold render, oversized. rewrite len_app. remember (y :: rest) as l eqn:El. destruct l as [|z l]; [done|]. simplify_eq.
  change (push_segments patterns buffer (chunk :: y :: rest)) with
    (if lb_dropping buffer then push_segments patterns fresh (y :: rest)
     else if MaxLogLineBytes <? len (lb_contents buffer) + len chunk then
       let '(buffer', result) := push_segments patterns fresh (y :: rest) in (buffer', omitted :: result)
     else
       let line := redact patterns (lb_contents buffer +:+ chunk) in
       let '(buffer', result) := push_segments patterns fresh (y :: rest) in (buffer', line :: result)).
  destruct (push_segments patterns fresh (y :: rest)) as [b o]. by destruct (_ <? _).
Qed.

Lemma push_segments_spec t x rest :
  (push_segments patterns (buffer_of t) (x :: rest)).1 = buffer_of (List.last ((t +:+ x) :: rest) "") ∧
  (if oversized t then [omitted] else []) ++ (push_segments patterns (buffer_of t) (x :: rest)).2 = emitted ((t +:+ x) :: rest).
Proof.
  revert t x. induction rest as [|y rest IH]; intros t x.
  - unfold emitted. cbn [push_segments removelast List.last fmap list_fmap app]. unfold buffer_of.
    destruct (len x =? 0) eqn:Hx.
    { assert (x = "") as -> by (destruct x; [done|]; apply Z.eqb_eq in Hx; unfold len in Hx; simpl in Hx; lia).
      rewrite str_app_nil_r. destruct (oversized t); simpl; by rewrite ?app_nil_r. }
    destruct (oversized t) eqn:Ht; cbn [lb_dropping lb_contents].
    + by rewrite (oversized_app _ x Ht).
    + unfold oversized. rewrite len_app. by destruct (_ <? _).
  - destruct (IH "" y) as [IH1 IH2]. cbn [String.append] in IH1, IH2.
    change (buffer_of "") with fresh in IH1, IH2. change (oversized "") with false in IH2. cbn [app] in IH2.
    change (emitted ((t +:+ x) :: y :: rest)) with (render (t +:+ x) :: emitted (y :: rest)).
    change (List.last ((t +:+ x) :: y :: rest) "") with (List.last (y :: rest) "").
    rewrite <- IH1, <- IH2, push_segments_line. unfold buffer_of.
    destruct (oversized t) eqn:Ht; cbn [lb_dropping lb_contents]; [|done].
    unfold render. by rewrite (oversized_app _ x Ht).
Qed.

(** ** A history of pushes *)

Fixpoint pushes (r : Redactor) (history : list (string * string)) : Redactor * list (string * list string) :=
  match history with
  | [] => (r, [])
  | (stream, data) :: history' =>
      let '(r1, lines) := Push r stream data in
      let '(r2, rest) := pushes r1 history' in (r2, (stream, lines) :: rest)
  end.

(** The text of a stream and the lines emitted for it. *)
Fixpoint text_of (stream : string) (history : list (string * string)) : string :=
  match history with
  | [] => ""
  | (s, data) :: history' => if String.eqb s stream then data +:+ text_of stream history' else text_of stream history'
  end.
Fixpoint lines_of (stream : string) (outputs : list (string * list string)) : list string :=
  match outputs with
  | [] => []
  | (s, lines) :: outputs' => if String.eqb s stream then lines ++ lines_of stream outputs' else lines_of stream outputs'
  end.

Definition segments (text : string) : list string := Split text newline.
Definition unfinished (text : string) : string := List.last (segments text) "".

Lemma Split_join_last a b c : ∃ x rest, Split b c = x :: rest ∧
  Split (a +:+ b) c = removelast (Split a c) ++ (List.last (Split a c) "" +:+ x) :: rest.
Proof.
  destruct (Split b c) as [|x rest] eqn:Eb; [by destruct (Split_nonempty b c)|].
  exists x, rest. split; [done|]. induction a as [|d a IH]; [done|].
  cbn [String.append Split]. destruct (Ascii.eqb d c).
  - rewrite IH. cbn [removelast List.last]. pose proof (Split_nonempty a c). by destruct (Split a c).
  - rewrite IH. destruct (Split a c) as [|y [|z l]] eqn:Ea; [by destruct (Split_nonempty a c)| |]; done.
Qed.

Lemma emitted_app_last init t x rest :
  emitted (init ++ (t +:+ x) :: rest) = (render <$> init) ++ emitted ((t +:+ x) :: rest).
Proof.
  unfold emitted. rewrite removelast_app by done. rewrite fmap_app, <- app_assoc. do 3 f_equal.
  f_equal. induction init as [|y init IH]; [done|]. simpl. destruct (init ++ (t +:+ x) :: rest) eqn:E; [by destruct init|]. done.
Qed.

(** One push to the stream that holds [text]. *)
Lemma push_text text data :
  (push_segments patterns (buffer_of (unfinished text)) (segments data)).1 = buffer_of (unfinished (text +:+ data)) ∧
  emitted (segments text) ++ (push_segments patterns (buffer_of (unfinished text)) (segments data)).2 = emitted (segments (text +:+ data)).
Proof.
  unfold unfinished, segments. destruct (Split_join_last text data newline) as (x & rest & -> & ->).
  destruct (push_segments_spec (List.last (Split text newline) "") x rest) as [H1 H2]. split.
  - rewrite H1. f_equal. generalize (removelast (Split text newline)). intros init.
    induction init as [|y init IH]; [done|]. simpl. destruct (init ++ _) eqn:E; [by destruct init|]. done.
  - rewrite emitted_app_last, <- H2. unfold emitted at 1. by rewrite app_assoc.
Qed.

(** The redactor has received the text [T s] on each stream [s]. *)
Definition holds (r : Redactor) (T : string → string) : Prop :=
  rd_patterns r = patterns ∧ ∀ s, default fresh (rd_buffers r !! s) = buffer_of (unfinished (T s)).

Lemma Push_holds r T stream data r' lines :
  holds r T → Push r stream data = (r', lines) →
  holds r' (fun s => if String.eqb stream s then T s +:+ data else T s) ∧
  emitted (segments (T stream)) ++ lines = emitted (segments (T stream +:+ data)).
Proof.
  intros [Hp Hb] Hpush. unfold Push in Hpush. rewrite Hp, (Hb stream) in Hpush. fold (segments data) in Hpush.
  destruct (push_text (T stream) data) as [H1 H2]. destruct (push_segments _ _ _) as [buffer result]. cbn [fst snd] in H1, H2.
  injection Hpush as <- <-. split; [|done]. split; [done|]. intros s. cbn [rd_buffers].
  destruct (String.eqb_spec stream s) as [<- | Hne]; [by rewrite lookup_insert_eq | by rewrite lookup_insert_ne].
Qed.

Lemma pushes_hold history r T :
  holds r T →
  holds (pushes r history).1 (fun s => T s +:+ text_of s history) ∧
  ∀ s, emitted (segments (T s)) ++ lines_of s (pushes r history).2 = emitted (segments (T s +:+ text_of s history)).
Proof.
  revert r T. induction history as [|[stream data] history IH]; intros r T Hr; simpl.
  { split; [|intros; by rewrite app_nil_r, str_app_nil_r]. destruct Hr as [Hp Hb]. split; [done|]. intros s. by rewrite str_app_nil_r. }
  destruct (Push r stream data) as [r1 lines] eqn:Hpush. destruct (Push_holds _ _ _ _ _ _ Hr Hpush) as [Hr1 Hlines].
  destruct (IH r1 _ Hr1) as [[Hp Hb] Hall]. destruct (pushes r1 history) as [r2 outputs]. cbn [fst snd] in *. split.
  - split; [done|]. intros s. rewrite Hb. by destruct (String.eqb stream s); rewrite ?str_app_assoc.
  - intros s. specialize (Hall s). cbn [lines_of]. destruct (String.eqb_spec stream s) as [E | Hne]; [subst s | done].
    by rewrite app_assoc, Hlines, Hall, str_app_assoc.
Qed.

End Lines.

(** ** Redacted text holds no secret *)

Lemma Contains_spec s sub : Contains s sub = true ↔ ∃ a b, s = a +:+ sub +:+ b.
Proof.
  split.
  - induction s as [|c s IH]; cbn [Contains]; rewrite orb_true_iff, HasPrefix_spec.
    + intros [[r Hr] | ?]; [by exists "", r | done].
    + intros [[r Hr] | Hs]; [by exists "", r|]. destruct (IH Hs) as (a & b & E). exists (String c a), b. by rewrite E.
  - intros (a & b & ->). induction a as [|c a IH].
    + cbn [String.append]. destruct (sub +:+ b) eqn:E; cbn [Contains]; rewrite <- E;
        by rewrite (proj2 (HasPrefix_spec _ _)) by (by exists b).
    + cbn [String.append Contains]. rewrite IH. by destruct (HasPrefix _ _).
Qed.

(** An occurrence of a text without [c] lies on one side of [c]. *)
Lemma Contains_sides a c b p :
  ContainsChar p c = false → Contains (a +:+ String c b) p = true → Contains a p = true ∨ Contains b p = true.
Proof.
  intros Hc. rewrite !Contains_spec. intros (x & y & E). revert x E. induction a as [|d a IH]; intros x E; simpl in E.
  - destruct x as [|d x]; simpl in E.
    + destruct p as [|e p]; [left; by exists "", ""|]. simpl in E. injection E as <- _.
      rewrite ContainsChar_cons, Ascii.eqb_refl in Hc. done.
    + injection E as _ ->. right. by exists x, y.
  - destruct x as [|e x]; simpl in E.
    + clear IH. left. assert (∃ r, String d a = p +:+ r) as [r ->]; [|by exists "", r].
      change (String d (a +:+ String c b)) with (String d a +:+ String c b) in E. revert p E Hc. generalize (String d a) as l.
      intros l. induction l as [|f l IHl]; intros p E Hc.
      * destruct p as [|g p]; [by exists ""|]. simpl in E. injection E as Eg _. by rewrite ContainsChar_cons, Eg, Ascii.eqb_refl in Hc.
      * destruct p as [|g p]; [by exists (String f l)|]. simpl in E. injection E as <- E.
        rewrite ContainsChar_cons in Hc. apply orb_false_iff in Hc as [_ Hc].
        destruct (IHl p E Hc) as [r ->]. by exists r.
    + injection E as -> E. destruct (IH x E) as [(u & v & ->) | ?]; [left; by exists (String e u), v | by right].
Qed.

Fixpoint join_by (sep : string) (pieces : list string) : string :=
  match pieces with [] => "" | [p] => p | p :: pieces' => p +:+ sep +:+ join_by sep pieces' end.

Lemma replace_skip x rest old new : replace_from (String.length x) (x +:+ rest) old new = replace_from 0 rest old new.
Proof. induction x as [|c x IH]; [by destruct rest | done]. Qed.

(** What [ReplaceAll] does: the text is cut at the occurrences it replaces, and no
    piece holds another. *)
Lemma ReplaceAll_pieces s old new : old ≠ "" →
  ∃ p pieces, s = join_by old (p :: pieces) ∧ ReplaceAll s old new = join_by new (p :: pieces) ∧
    Forall (fun piece => Contains piece old = false) (p :: pieces).
Proof.
  intros Hold. unfold ReplaceAll. remember (String.length s) as n eqn:Hn. revert s Hn.
  induction (lt_wf n) as [n _ IH]. intros s ->. destruct s as [|c s].
  { exists "", []. split_and!; [done | done |]. repeat constructor. by destruct old. }
  cbn [replace_from]. destruct (HasPrefix (String c s) old) eqn:Hpre.
  - apply HasPrefix_spec in Hpre as [rest Hrest]. destruct old as [|d old]; [done|]. injection Hrest as -> ->.
    destruct (IH (String.length rest)) with (s := rest) as (p & pieces & E1 & E2 & Hf); [simpl; rewrite str_length_app; lia | done |].
    cbn [String.length]. replace (S (String.length old) - 1)%nat with (String.length old) by lia. rewrite replace_skip, E2.
    exists "", (p :: pieces). split_and!; [by rewrite E1 at 1 | done |]. constructor; [done | done].
  - destruct (IH (String.length s)) with (s := s) as (p & pieces & E1 & E2 & Hf); [simpl; lia | done |].
    rewrite E2. exists (String c p), pieces. apply Forall_cons in Hf as [Hp Hf].
    split_and!; [rewrite E1 at 1; by destruct pieces | by destruct pieces |]. constructor; [|done].
    cbn [Contains]. rewrite Hp, orb_false_r. destruct (HasPrefix (String c p) old) eqn:E; [|done].
    exfalso. apply HasPrefix_spec in E as [r E].
    assert (HasPrefix (String c s) old = true) as Htrue; [|congruence].
    apply HasPrefix_spec. destruct pieces as [|q pieces].
    + exists r. simpl in E1. by rewrite E1.
    + exists (r +:+ old +:+ join_by old (q :: pieces)). rewrite E1.
      change (String c (join_by old (p :: q :: pieces))) with (String c p +:+ old +:+ join_by old (q :: pieces)).
      by rewrite E, str_app_assoc.
Qed.

(** A text that replacing by [redacted] can neither build nor leave behind. *)
Definition plain (p : string) : Prop :=
  p ≠ "" ∧ ContainsChar p "[" = false ∧ ContainsChar p "]" = false ∧ Contains "REDACTED" p = false.

Lemma join_redacted pieces p :
  plain p → Contains (join_by redacted pieces) p = true → ∃ piece, piece ∈ pieces ∧ Contains piece p = true.
Proof.
  intros (Hne & Hopen & Hclose & Hword). induction pieces as [|x [|y pieces] IH]; intros Hin.
  - destruct p; [done | done].
  - exists x. split; [by left | done].
  - change (join_by redacted (x :: y :: pieces)) with
      (x +:+ String "[" ("REDACTED" +:+ String "]" (join_by redacted (y :: pieces)))) in Hin.
    apply Contains_sides in Hin as [Hx | Hin]; [exists x; split; [by left | done] | | done].
    apply Contains_sides in Hin as [Hx | Hin]; [congruence | | done].
    destruct (IH Hin) as (piece & ? & ?). exists piece. split; [by right | done].
Qed.

Lemma join_by_Contains sep pieces piece : piece ∈ pieces → Contains (join_by sep pieces) piece = true.
Proof.
  rewrite Contains_spec. induction pieces as [|x [|y pieces] IH]; [by intros []%not_elem_of_nil | |].
  - intros ->%list_elem_of_singleton. exists "", "". by rewrite str_app_nil_r.
  - change (join_by sep (x :: y :: pieces)) with (x +:+ sep +:+ join_by sep (y :: pieces)).
    intros [-> | Hin]%elem_of_cons; [by exists "", (sep +:+ join_by sep (y :: pieces))|].
    destruct (IH Hin) as (a & b & ->). exists (x +:+ sep +:+ a), b. by rewrite !str_app_assoc.
Qed.

Lemma Contains_trans a b c : Contains a b = true → Contains b c = true → Contains a c = true.
Proof.
  rewrite !Contains_spec. intros (x & y & ->) (u & v & ->). exists (x +:+ u), (v +:+ y). by rewrite !str_app_assoc.
Qed.

Lemma replace_keeps_out s q p :
  plain p → q ≠ "" → Contains s p = false → Contains (ReplaceAll s q redacted) p = false.
Proof.
  intros Hp Hq Hs. destruct (Contains (ReplaceAll s q redacted) p) eqn:E; [|done]. rewrite <- Hs. symmetry.
  destruct (ReplaceAll_pieces s q redacted Hq) as (x & pieces & E1 & E2 & _). rewrite E2 in E.
  apply (join_redacted _ _ Hp) in E as (piece & Hin & Hpiece). eapply Contains_trans; [|done]. rewrite E1. by apply join_by_Contains.
Qed.

Lemma replace_removes s p : plain p → Contains (ReplaceAll s p redacted) p = false.
Proof.
  intros Hp. destruct (Contains (ReplaceAll s p redacted) p) eqn:E; [|done]. exfalso.
  destruct (ReplaceAll_pieces s p redacted) as (x & pieces & _ & E2 & Hf); [apply Hp|]. rewrite E2 in E.
  apply (join_redacted _ _ Hp) in E as (piece & Hin & Hpiece). rewrite Forall_forall in Hf. by rewrite (Hf _ Hin) in Hpiece.
Qed.

Lemma redact_clean patterns p value :
  plain p → p ∈ patterns → Forall (fun q => q ≠ "") patterns → Contains (redact patterns value) p = false.
Proof.
  intros Hp Hin Hne. apply list_elem_of_split in Hin as (l1 & l2 & ->). apply Forall_app in Hne as [_ [_ Hne]%Forall_cons].
  unfold redact. rewrite fold_left_app. cbn [fold_left].
  assert (Hgone : ∀ v, Contains v p = false → Contains (redact l2 v) p = false); [|by apply Hgone, replace_removes].
  induction l2 as [|q l2 IH]; intros v Hv; [done|]. apply Forall_cons in Hne as [Hq Hne].
  cbn [redact fold_left]. apply IH; [done|]. by apply replace_keeps_out.
Qed.

(** ** The patterns of a new redactor *)

Definition hashed (unique : gmap (list Z) string) : Prop := map_Forall (fun k v => k = Sum256 v ∧ v ≠ "") unique.

Lemma add_variant_spec unique variant :
  hashed unique → hashed (add_variant unique variant) ∧ dom unique ⊆ dom (add_variant unique variant) ∧
  (variant ≠ "" → Sum256 variant ∈ dom (add_variant unique variant)).
Proof.
  intros Hh. unfold add_variant. destruct (0 <? len variant) eqn:Hl.
  - split_and!; [|set_solver | set_solver]. apply map_Forall_insert_2; [|done]. split; [done|]. by intros ->.
  - split_and!; [done | done |]. intros Hne. destruct variant; [done|]. apply Z.ltb_ge in Hl. unfold len in Hl. simpl in Hl. lia.
Qed.

Lemma add_variants_spec variants unique :
  hashed unique → hashed (fold_left add_variant variants unique) ∧ dom unique ⊆ dom (fold_left add_variant variants unique) ∧
  ∀ variant, variant ∈ variants → variant ≠ "" → Sum256 variant ∈ dom (fold_left add_variant variants unique).
Proof.
  revert unique. induction variants as [|v variants IH]; intros unique Hh; simpl.
  { split_and!; [done | done | by intros ? []%not_elem_of_nil]. }
  destruct (add_variant_spec unique v Hh) as (Hh1 & Hd1 & Hv1). destruct (IH _ Hh1) as (Hh2 & Hd2 & Hv2).
  split_and!; [done | set_solver |]. intros w [-> | Hw]%elem_of_cons Hne; [by apply Hd2, Hv1 | by apply Hv2].
Qed.

Lemma unique_variants_spec quote secrets :
  hashed (unique_variants quote secrets) ∧
  ∀ name value variant, secrets !! name = Some value → variant ∈ secret_variants quote value → variant ≠ "" →
    Sum256 variant ∈ dom (unique_variants quote secrets).
Proof.
  unfold unique_variants.
  assert (Hgen : ∀ values unique, hashed unique →
    let all := fold_left (fun u value => fold_left add_variant (secret_variants quote value) u) values unique in
    hashed all ∧ dom unique ⊆ dom all ∧
    ∀ value variant, value ∈ values → variant ∈ secret_variants quote value → variant ≠ "" → Sum256 variant ∈ dom all).
  { intros values. induction values as [|v values IH]; intros unique Hh; cbn [fold_left].
    { split_and!; [done | done | by intros ? ? []%not_elem_of_nil]. }
    destruct (add_variants_spec (secret_variants quote v) unique Hh) as (Hh1 & Hd1 & Hv1). destruct (IH _ Hh1) as (Hh2 & Hd2 & Hv2).
    split_and!; [done | set_solver |]. intros value variant [-> | Hin]%elem_of_cons; [intros; by apply Hd2, Hv1 | by eapply Hv2]. }
  destruct (Hgen ((map_to_list secrets).*2) ∅) as (Hh & _ & Hv); [apply map_Forall_empty|]. split; [done|].
  intros name value variant Hname. apply Hv. apply list_elem_of_fmap. exists (name, value). split; [done|]. by apply elem_of_map_to_list.
Qed.

Lemma NewRedactor_patterns quote arrange secrets :
  (∀ l, arrange l ≡ₚ l) →
  Forall (fun q => q ≠ "") (rd_patterns (NewRedactor quote arrange secrets)) ∧
  ∀ name value variant, secrets !! name = Some value → variant ∈ secret_variants quote value → variant ≠ "" →
    variant ∈ rd_patterns (NewRedactor quote arrange secrets) ∨ ∃ other, other ∈ rd_patterns (NewRedactor quote arrange secrets) ∧ collide variant other.
Proof.
  intros Harrange. destruct (unique_variants_spec quote secrets) as [Hh Hv]. unfold NewRedactor. cbn [rd_patterns]. split.
  - rewrite Harrange. apply Forall_forall. intros q Hq. apply list_elem_of_fmap in Hq as ([k w] & -> & Hin).
    apply elem_of_map_to_list in Hin. by apply Hh in Hin as [_ ?].
  - intros name value variant Hname Hvar Hne. pose proof (Hv name value variant Hname Hvar Hne) as [w Hw]%elem_of_dom.
    pose proof (Hh _ _ Hw) as [Heq _]. setoid_rewrite Harrange.
    assert (Hin : w ∈ (map_to_list (unique_variants quote secrets)).*2).
    { apply list_elem_of_fmap. exists (Sum256 variant, w). split; [done|]. by apply elem_of_map_to_list. }
    destruct (decide (variant = w)) as [-> | Hd]; [by left | right]. exists w. by repeat split.
Qed.

(** ** Theorems *)

Lemma log_lines patterns history stream :
  let '(r, outputs) := pushes {| rd_patterns := patterns; rd_buffers := ∅ |} history in
  let text := text_of stream history in
  lines_of stream outputs = emitted patterns (segments text) ∧
  default [] ((Flush r).2 !! stream) =
    (if String.eqb (unfinished text) "" || oversized (unfinished text) then [] else [redact patterns (unfinished text)]).
Proof.
  assert (Hstart : holds patterns {| rd_patterns := patterns; rd_buffers := ∅ |} (fun _ => "")).
  { split; [done|]. intros s. cbn [rd_buffers]. by rewrite lookup_empty. }
  destruct (pushes_hold patterns history _ _ Hstart) as [[Hp Hb] Hlines].
  destruct (pushes _ history) as [r outputs]. cbn [fst snd String.append] in *. split; [apply Hlines|].
  specialize (Hb stream). unfold Flush. cbn [snd]. rewrite lookup_omap, Hp. unfold buffer_of in Hb.
  destruct (rd_buffers r !! stream) as [buffer|]; cbn [default mbind option_bind id] in *.
  - subst buffer. unfold flush_buffer. destruct (oversized (unfinished (text_of stream history))); cbn; [by rewrite orb_true_r|].
    rewrite orb_false_r. by destruct (unfinished (text_of stream history)).
  - destruct (oversized _) eqn:Ho; [done|]. injection Hb as <-. done.
Qed.

(** C38: What is emitted for a stream depends only on its text.  However the data of
    the streams is chunked and interleaved, the lines emitted for a stream are
    the lines of its whole text, redacted, each line over the limit replaced by
    one notice; and [Flush] yields the unfinished last line, redacted. *)
Theorem log_lines_exact patterns history stream :
  let '(r, outputs) := pushes {| rd_patterns := patterns; rd_buffers := ∅ |} history in
  let text := text_of stream history in
  lines_of stream outputs = emitted patterns (segments text) ∧
  default [] ((Flush r).2 !! stream) =
    (if String.eqb (unfinished text) "" || oversized (unfinished text) then [] else [redact patterns (unfinished text)]).
Proof. apply log_lines. Qed.

(** C24: No secret reaches the logs.  Take any form of a secret the redactor knows (the
    value, its base64, hexadecimal, URL and quoted encodings, its lines) that does
    not contain a bracket and is not part of the word REDACTED.  No line emitted in
    any history of pushes, nor any line flushed at its end, contains it, the fixed
    notice that replaces a line over the limit apart, unless SHA-256 collides on the
    form and a pattern of the redactor. *)
Theorem secrets_redacted quote arrange secrets history name value variant stream line :
  (∀ l, arrange l ≡ₚ l) → secrets !! name = Some value → variant ∈ secret_variants quote value → plain variant →
  let '(r, outputs) := pushes (NewRedactor quote arrange secrets) history in
  line ∈ lines_of stream outputs ++ default [] ((Flush r).2 !! stream) →
  line = omitted ∨ Contains line variant = false ∨ ∃ other, other ∈ rd_patterns (NewRedactor quote arrange secrets) ∧ collide variant other.
Proof.
  intros Harrange Hname Hvar Hplain. destruct (NewRedactor_patterns quote arrange secrets Harrange) as [Hne Hall].
  destruct (Hall name value variant Hname Hvar (proj1 Hplain)) as [Hin | ?]; [|destruct (pushes _ _); auto].
  set (patterns := rd_patterns (NewRedactor quote arrange secrets)) in *.
  change (NewRedactor quote arrange secrets) with {| rd_patterns := patterns; rd_buffers := ∅ |}.
  pose proof (log_lines patterns history stream) as Hlines. destruct (pushes _ history) as [r outputs]. cbv zeta in Hlines.
  destruct Hlines as [-> ->]. assert (Hclean : ∀ v, Contains (redact patterns v) variant = false) by (intros; by apply redact_clean).
  rewrite elem_of_app. intros [Hl | Hl].
  - unfold emitted in Hl. apply elem_of_app in Hl as [Hl | Hl].
    + apply list_elem_of_fmap in Hl as (x & -> & _). unfold render. destruct (oversized x); auto.
    + destruct (oversized _); [apply list_elem_of_singleton in Hl; by left | by apply not_elem_of_nil in Hl].
  - destruct (_ || _); [by apply not_elem_of_nil in Hl|]. apply list_elem_of_singleton in Hl as ->. right; left. apply Hclean.
Qed.

(** Longest first, and otherwise in the order given. *)
Definition by_length : list string → list string := SortStableFunc (fun a b => len b - len a).

Lemma secrets_redacted_witness :
  let '(r, outputs) := pushes (NewRedactor id by_length {["token" := "hunter2"]}) [("1", "login hun"); ("1", "ter2!")] in
  (Flush r).2 !! "1" = Some ["login [REDACTED]!"] ∧
  ("login [REDACTED]!" = omitted ∨ Contains "login [REDACTED]!" "hunter2" = false ∨
   ∃ other, other ∈ rd_patterns (NewRedactor id by_length {["token" := "hunter2"]}) ∧ collide "hunter2" other).
Proof.
  pose proof (secrets_redacted id by_length {["token" := "hunter2"]} [("1", "login hun"); ("1", "ter2!")]
                "token" "hunter2" "hunter2" "1" "login [REDACTED]!") as Hthm.
  assert (Hrun : (Flush (pushes (NewRedactor id by_length {["token" := "hunter2"]}) [("1", "login hun"); ("1", "ter2!")]).1).2 !! "1"
                 = Some ["login [REDACTED]!"]) by (vm_compute; reflexivity).
  destruct (pushes _ _) as [r outputs]. cbn [fst] in Hrun. split; [done|]. apply Hthm.
  - intros l. apply SortStableFunc_perm.
  - done.
  - left.
  - split_and!; [done | vm_compute; reflexivity..].
  - rewrite Hrun. apply elem_of_app. right. left.
Defined.

End Redactor.
