(* ===== verification/ClientHello.v ===== *)
(** * The TLS ClientHello check (build-plane/internal/buildegress/clienthello.go)

    The egress proxy lets a tunnel through only if it starts with a TLS ClientHello
    whose server name is the domain of the CONNECT request.  The parser works on
    untrusted bytes: slices and indices are checked here, and one out of range is
    a [Panic]. *)

From S2P Require Import Prelude Text GoStd Crypto.
Import GoStd Crypto.

Open Scope Z_scope.

Module ClientHello.

Definition maxClientHelloBytes : Z := Z.shiftl 64 10.

(** [^label(\.label)*$], not localhost nor below it *)
Definition validHostname (value : string) : bool :=
  is_hostname value && negb (String.eqb value "localhost") && negb (HasSuffix value ".localhost").

(** ** Byte slices *)

(** The result of Go code on slices: a value, an error, a panic; [Stuck] is a loop
    that has not ended within its fuel. *)
Inductive outcome (A : Type) := Ret (a : A) | Fail (message : string) | Panic | Stuck.
Arguments Ret {_}. Arguments Fail {_}. Arguments Panic {_}. Arguments Stuck {_}.

Definition bind {A B} (m : outcome A) (k : A → outcome B) : outcome B :=
  match m with Ret a => k a | Fail e => Fail e | Panic => Panic | Stuck => Stuck end.

Declare Scope outcome_scope.
Delimit Scope outcome_scope with outcome.
Notation "'let!' x := m 'in' k" := (bind m (fun x => k))
  (at level 10, x name, m at level 200, k at level 200) : outcome_scope.
Open Scope outcome_scope.

Definition size_of (bytes : list Z) : Z := Z.of_nat (length bytes).

(** [bytes[i]] *)
Definition index (bytes : list Z) (i : Z) : outcome Z :=
  if (i <? 0) || (size_of bytes <=? i) then Panic else Ret (nth (Z.to_nat i) bytes 0).

(** [bytes[i:j]] *)
Definition slice (bytes : list Z) (i j : Z) : outcome (list Z) :=
  if (i <? 0) || (j <? i) || (size_of bytes <? j) then Panic
  else Ret (firstn (Z.to_nat (j - i)) (skipn (Z.to_nat i) bytes)).

(** [binary.BigEndian.Uint16], which reads two bytes *)
Definition Uint16 (bytes : list Z) : outcome Z :=
  let! hi := index bytes 0 in let! lo := index bytes 1 in Ret (hi * 256 + lo).

(** [string(bytes)] *)
Definition text (bytes : list Z) : string := String.string_of_list_ascii (map char_of bytes).

(** ** clientHelloServerName *)

(** The closure [take]; [None] is [false]. *)
Definition take (hello : list Z) (cursor length : Z) : outcome (option (list Z * Z)) :=
  if (length <? 0) || (size_of hello - length <? cursor) then Ret None
  else let! value := slice hello cursor (cursor + length) in Ret (Some (value, cursor + length)).

(** A [take] that ends the function with [message] when it answers false. *)
Definition taken (hello : list Z) (cursor length : Z) (message : string) : outcome (list Z * Z) :=
  let! r := take hello cursor length in match r with Some p => Ret p | None => Fail message end.

Section ServerName.
Context `{GoText}.

(** The loop over the entries of a server name list. *)
Fixpoint names_loop (fuel : nat) (serverName : string) (names : list Z) : outcome string :=
  match fuel with
  | O => Stuck
  | S fuel' =>
      if size_of names <=? 0 then Ret serverName
      else if size_of names <? 3 then Fail "TLS server-name list is truncated"
      else
        let! nameType := index names 0 in
        let! header := slice names 1 3 in
        let! nameLength := Uint16 header in
        let! names := slice names 3 (size_of names) in
        if (nameLength =? 0) || (size_of names <? nameLength) then Fail "TLS server name is truncated"
        else
          let! bytes := slice names 0 nameLength in
          let! names := slice names nameLength (size_of names) in
          let name := text bytes in
          if nameType =? 0 then
            if negb (String.eqb serverName "") || negb (String.eqb name (ToLower name)) || negb (validHostname name)
            then Fail "TLS server name is invalid"
            else names_loop fuel' name names
          else names_loop fuel' serverName names
  end.

(** The loop over the extensions. *)
Fixpoint extensions_loop (fuel : nat) (serverName : string) (extensions : list Z) : outcome string :=
  match fuel with
  | O => Stuck
  | S fuel' =>
      if size_of extensions <=? 0 then
        if String.eqb serverName "" then Fail "TLS ClientHello lacks SNI" else Ret serverName
      else if size_of extensions <? 4 then Fail "TLS extension header is truncated"
      else
        let! typeBytes := slice extensions 0 2 in
        let! extensionType := Uint16 typeBytes in
        let! lengthBytes := slice extensions 2 4 in
        let! extensionLength := Uint16 lengthBytes in
        let! extensions := slice extensions 4 (size_of extensions) in
        if size_of extensions <? extensionLength then Fail "TLS extension is truncated"
        else
          let! value := slice extensions 0 extensionLength in
          let! extensions := slice extensions extensionLength (size_of extensions) in
          if negb (extensionType =? 0) then extensions_loop fuel' serverName extensions
          else if negb (String.eqb serverName "") || (size_of value <? 2) then Fail "TLS server-name extension is invalid"
          else
            let! listBytes := slice value 0 2 in
            let! listLength := Uint16 listBytes in
            if negb (listLength =? size_of value - 2) then Fail "TLS server-name extension is invalid"
            else
              let! names := slice value 2 (size_of value) in
              let! serverName := names_loop (S (length names)) serverName names in
              extensions_loop fuel' serverName extensions
  end.

Definition serverNameExtension (extensions : list Z) : outcome string :=
  extensions_loop (S (length extensions)) "" extensions.

Definition clientHelloServerName (hello : list Z) : outcome string :=
  let! fixed := taken hello 0 (2 + 32) "TLS ClientHello fixed fields are truncated" in
  let! sessionLength := taken hello fixed.2 1 "TLS ClientHello session ID is truncated" in
  let! sessionBytes := index sessionLength.1 0 in
  let! session := taken hello sessionLength.2 sessionBytes "TLS ClientHello session ID is truncated" in
  let! cipherLengthBytes := taken hello session.2 2 "TLS ClientHello cipher suites are truncated" in
  let! cipherLength := Uint16 cipherLengthBytes.1 in
  if (cipherLength =? 0) || negb (cipherLength mod 2 =? 0) then Fail "TLS ClientHello cipher suites are invalid"
  else
    let! ciphers := taken hello cipherLengthBytes.2 cipherLength "TLS ClientHello cipher suites are truncated" in
    let! compressionLength := taken hello ciphers.2 1 "TLS ClientHello compression methods are invalid" in
    let! compressionBytes := index compressionLength.1 0 in
    if compressionBytes =? 0 then Fail "TLS ClientHello compression methods are invalid"
    else
      let! compression := taken hello compressionLength.2 compressionBytes "TLS ClientHello compression methods are truncated" in
      let! extensionLengthBytes := taken hello compression.2 2 "TLS ClientHello extensions are absent" in
      let! extensionLength := Uint16 extensionLengthBytes.1 in
      let! extensions := taken hello extensionLengthBytes.2 extensionLength "TLS ClientHello extensions are truncated" in
      if negb (extensions.2 =? size_of hello) then Fail "TLS ClientHello extensions are truncated"
      else serverNameExtension extensions.1.

(** ** readValidatedClientHello *)

(** [io.ReadFull]: [n] bytes of the connection and the rest of it. *)
Definition ReadFull (connection : list Z) (n : Z) (message : string) : outcome (list Z * list Z) :=
  if size_of connection <? n then Fail message
  else Ret (firstn (Z.to_nat n) connection, skipn (Z.to_nat n) connection).

(** The length of the handshake message, once its header is there. *)
Definition handshake_length (handshakeLength : Z) (handshake : list Z) : outcome Z :=
  if (handshakeLength <? 0) && (4 <=? size_of handshake) then
    let! kind := index handshake 0 in
    if negb (kind =? 1) then Fail "first TLS handshake message is not ClientHello"
    else
      let! b1 := index handshake 1 in let! b2 := index handshake 2 in let! b3 := index handshake 3 in
      let total := 4 + Z.shiftl b1 16 + Z.shiftl b2 8 + b3 in
      if (total <? 4) || (maxClientHelloBytes <? total) then Fail "TLS ClientHello handshake size is invalid" else Ret total
  else Ret handshakeLength.

(** The loop over records: [raw] is what has been read, [handshake] the payloads.
    It returns [raw] and what remains of the connection. *)
Fixpoint records_loop (fuel : nat) (expectedDomain : string) (connection raw handshake : list Z) (handshakeLength : Z)
    : outcome (list Z * list Z) :=
  match fuel with
  | O => Stuck
  | S fuel' =>
      if maxClientHelloBytes <=? size_of raw then Fail "TLS ClientHello exceeds limit"
      else
        let! head := ReadFull connection 5 "read TLS record header" in
        let! h0 := index head.1 0 in let! h1 := index head.1 1 in let! h2 := index head.1 2 in
        if negb (h0 =? 22) || negb (h1 =? 3) || (4 <? h2) then Fail "tunnel did not begin with a TLS handshake"
        else
          let! lengthBytes := slice head.1 3 5 in
          let! recordLength := Uint16 lengthBytes in
          if (recordLength =? 0) || (Z.shiftl 18 10 <? recordLength) || (maxClientHelloBytes <? size_of raw + 5 + recordLength)
          then Fail "TLS ClientHello record size is invalid"
          else
            let! payload := ReadFull head.2 recordLength "read TLS record payload" in
            let raw := raw ++ head.1 ++ payload.1 in
            let handshake := handshake ++ payload.1 in
            let! handshakeLength := handshake_length handshakeLength handshake in
            if (0 <=? handshakeLength) && (handshakeLength <=? size_of handshake) then
              if negb (size_of handshake =? handshakeLength) then Fail "TLS record carries data after ClientHello"
              else
                let! hello := slice handshake 4 (size_of handshake) in
                match clientHelloServerName hello with
                | Ret serverName =>
                    if String.eqb serverName expectedDomain then Ret (raw, payload.2)
                    else Fail "TLS ClientHello SNI differs from CONNECT domain"
                | Fail _ => Fail "TLS ClientHello SNI differs from CONNECT domain"
                | Panic => Panic
                | Stuck => Stuck
                end
            else records_loop fuel' expectedDomain payload.2 raw handshake handshakeLength
  end.

(** Every record takes at least six bytes of the connection. *)
Definition readValidatedClientHello (connection : list Z) (expectedDomain : string) : outcome (list Z * list Z) :=
  if negb (validHostname expectedDomain) then Fail "TLS ClientHello validation input is invalid"
  else records_loop (S (length connection)) expectedDomain connection [] [] (-1).

End ServerName.

(** ** The wire format *)

Definition u16_bytes (n : Z) : list Z := [n / 256; n mod 256].
Definition u24_bytes (n : Z) : list Z := [n / 65536; n / 256 mod 256; n mod 256].

(** An entry of a server name list: its type and its bytes. *)
Definition enc_name (entry : Z * list Z) : list Z := entry.1 :: u16_bytes (size_of entry.2) ++ entry.2.
Definition enc_names (entries : list (Z * list Z)) : list Z := concat (map enc_name entries).

(** An extension: its type and its value. *)
Definition enc_extension (extension : Z * list Z) : list Z :=
  u16_bytes extension.1 ++ u16_bytes (size_of extension.2) ++ extension.2.
Definition enc_extensions (extensions : list (Z * list Z)) : list Z := concat (map enc_extension extensions).

Definition enc_name_list (entries : list (Z * list Z)) : list Z := u16_bytes (size_of (enc_names entries)) ++ enc_names entries.

Record hello_fields := {
  hf_fixed : list Z;                     (* version and random *)
  hf_session : list Z;
  hf_ciphers : list Z;
  hf_compression : list Z;
  hf_extensions : list (Z * list Z);
}.

Definition encode (h : hello_fields) : list Z :=
  hf_fixed h ++ [size_of (hf_session h)] ++ hf_session h ++ u16_bytes (size_of (hf_ciphers h)) ++ hf_ciphers h ++
  [size_of (hf_compression h)] ++ hf_compression h ++ u16_bytes (size_of (enc_extensions (hf_extensions h))) ++ enc_extensions (hf_extensions h).

(** The lengths fit their fields, and there are cipher suites and compression
    methods. *)
Record hello_ok (h : hello_fields) : Prop := {
  ho_fixed : size_of (hf_fixed h) = 34;
  ho_session : size_of (hf_session h) < 256;
  ho_ciphers : 0 < size_of (hf_ciphers h) < 65536;
  ho_even : size_of (hf_ciphers h) mod 2 = 0;
  ho_compression : 0 < size_of (hf_compression h) < 256;
  ho_extensions : size_of (enc_extensions (hf_extensions h)) < 65536;
  ho_each : Forall (fun e => 0 ≤ e.1 < 65536 ∧ size_of e.2 < 65536) (hf_extensions h);
}.

Section Meaning.
Context `{GoText}.

(** [hosts found entries name]: with [found] as the name so far, the entries leave
    [name]; an entry of type 0 is a valid host name, and the only one. *)
Inductive hosts : string → list (Z * list Z) → string → Prop :=
| hosts_nil found : hosts found [] found
| hosts_other found t bytes entries name :
    t ≠ 0 → 0 < size_of bytes < 65536 → hosts found entries name → hosts found ((t, bytes) :: entries) name
| hosts_name bytes entries name :
    0 < size_of bytes < 65536 → text bytes = ToLower (text bytes) → validHostname (text bytes) = true →
    hosts (text bytes) entries name → hosts "" ((0, bytes) :: entries) name.

(** [sni found extensions name]: the same over extensions; after a host name no
    other server name extension may come. *)
Inductive sni : string → list (Z * list Z) → string → Prop :=
| sni_end name : name ≠ "" → sni name [] name
| sni_other found t value extensions name : t ≠ 0 → sni found extensions name → sni found ((t, value) :: extensions) name
| sni_list entries found extensions name :
    hosts "" entries found → size_of (enc_names entries) < 65534 → sni found extensions name →
    sni "" ((0, enc_name_list entries) :: extensions) name.

(** ** Slices in range *)

Lemma size_of_app a b : size_of (a ++ b) = size_of a + size_of b.
Proof. unfold size_of. rewrite length_app. lia. Qed.

Lemma size_of_nonneg a : 0 ≤ size_of a.
Proof. unfold size_of. lia. Qed.

Lemma size_of_cons x a : size_of (x :: a) = 1 + size_of a.
Proof. unfold size_of. simpl. lia. Qed.

Lemma slice_prefix a b n : size_of a = n → slice (a ++ b) 0 n = Ret a.
Proof.
  intros <-. unfold slice. rewrite size_of_app. pose proof (size_of_nonneg a). pose proof (size_of_nonneg b).
  destruct ((0 <? 0) || _ || _) eqn:E; [exfalso; bsimpl; lia|]. f_equal. change (Z.to_nat 0) with 0%nat. rewrite drop_0.
  unfold size_of. rewrite Z.sub_0_r, Nat2Z.id. apply take_app_length.
Qed.

Lemma slice_suffix a b n m : size_of a = n → size_of (a ++ b) = m → slice (a ++ b) n m = Ret b.
Proof.
  intros <- <-. unfold slice. rewrite size_of_app. pose proof (size_of_nonneg a). pose proof (size_of_nonneg b).
  destruct (_ || _ || _) eqn:E; [exfalso; bsimpl; lia|]. f_equal.
  replace (size_of a + size_of b - size_of a) with (size_of b) by lia. unfold size_of. rewrite !Nat2Z.id.
  rewrite drop_app_length. apply take_ge. lia.
Qed.

Lemma index_app a x b n : size_of a = n → index (a ++ x :: b) n = Ret x.
Proof.
  intros <-. unfold index. rewrite size_of_app, size_of_cons. pose proof (size_of_nonneg a). pose proof (size_of_nonneg b).
  destruct (_ || _) eqn:E; [exfalso; bsimpl; lia|]. f_equal. unfold size_of. rewrite Nat2Z.id.
  rewrite app_nth2 by lia. by rewrite Nat.sub_diag.
Qed.

Lemma Uint16_bytes n : 0 ≤ n < 65536 → Uint16 (u16_bytes n) = Ret n.
Proof. intros Hn. unfold Uint16, u16_bytes. simpl. f_equal. pose proof (Z.div_mod n 256). lia. Qed.

Lemma u16_bytes_pair hi lo : is_byte hi → is_byte lo → u16_bytes (hi * 256 + lo) = [hi; lo].
Proof.
  unfold is_byte, u16_bytes. intros Hh Hl. f_equal; [|f_equal].
  - rewrite Z.div_add_l by lia. rewrite Z.div_small by lia. lia.
  - rewrite Z.add_comm, Z_mod_plus by lia. by apply Z.mod_small.
Qed.

Lemma split_at (n : Z) (l : list Z) : 0 ≤ n ≤ size_of l → ∃ a b, l = a ++ b ∧ size_of a = n.
Proof.
  intros Hn. exists (firstn (Z.to_nat n) l), (skipn (Z.to_nat n) l). split; [by rewrite firstn_skipn|].
  unfold size_of in *. rewrite length_firstn. lia.
Qed.

Lemma size_u16 n : size_of (u16_bytes n) = 2.
Proof. done. Qed.

Lemma u16_is_byte n : 0 ≤ n < 65536 → Forall is_byte (u16_bytes n).
Proof.
  intros Hn. unfold u16_bytes, is_byte. repeat constructor.
  - apply Z.div_pos; lia.
  - apply Z.div_lt_upper_bound; lia.
  - apply Z.mod_pos_bound; lia.
  - apply Z.mod_pos_bound; lia.
Qed.

(** ** The names of a server name list *)

(** One turn of the loop, on an entry that is not truncated. *)
Lemma names_loop_entry fuel found t bytes rest :
  0 < size_of bytes < 65536 →
  names_loop (S fuel) found (enc_name (t, bytes) ++ rest) =
  if t =? 0 then
    if negb (String.eqb found "") || negb (String.eqb (text bytes) (ToLower (text bytes))) || negb (validHostname (text bytes))
    then Fail "TLS server name is invalid"
    else names_loop fuel (text bytes) rest
  else names_loop fuel found rest.
Proof.
  intros Hn. unfold enc_name. cbn [fst snd names_loop]. set (all := (t :: _ ++ bytes) ++ rest).
  assert (Hall : all = [t] ++ u16_bytes (size_of bytes) ++ bytes ++ rest) by done.
  assert (Hsize : size_of all = 3 + size_of bytes + size_of rest) by (rewrite Hall, !size_of_app, size_u16; unfold size_of; simpl; lia).
  pose proof (size_of_nonneg rest).
  rewrite (proj2 (Z.leb_gt _ _)) by lia. rewrite (proj2 (Z.ltb_ge _ _)) by lia.
  assert (Hkind : index all 0 = Ret t) by (rewrite Hall; by apply (index_app [] t)). rewrite Hkind. cbn [bind].
  assert (Hhead : slice all 1 3 = Ret (u16_bytes (size_of bytes))).
  { rewrite Hall. unfold slice. rewrite <- Hall, Hsize. destruct (_ || _ || _) eqn:E; [exfalso; bsimpl; lia|]. done. }
  rewrite Hhead. cbn [bind]. rewrite Uint16_bytes by lia. cbn [bind].
  assert (Htail : slice all 3 (size_of all) = Ret (bytes ++ rest)).
  { rewrite Hall. rewrite app_assoc. apply slice_suffix; [done|]. by rewrite <- app_assoc. }
  rewrite Htail. cbn [bind]. rewrite size_of_app.
  rewrite (proj2 (Z.eqb_neq _ _)) by lia. rewrite (proj2 (Z.ltb_ge _ _)) by lia. cbn [orb].
  rewrite slice_prefix by done. cbn [bind]. rewrite slice_suffix by (by rewrite ?size_of_app). by cbn [bind].
Qed.

Lemma names_loop_sound fuel found names :
  Forall is_byte names → (length names < fuel)%nat →
  match names_loop fuel found names with
  | Ret name => ∃ entries, names = enc_names entries ∧ hosts found entries name
  | Fail _ => True
  | Panic | Stuck => False
  end.
Proof.
  revert found names. induction fuel as [|fuel IH]; intros found names Hb Hlen; [lia|].
  destruct names as [|t [|hi [|lo rest]]].
  { simpl. exists []. split; [done | constructor]. }
  { done. }
  { done. }
  apply Forall_cons in Hb as [Ht [Hhi [Hlo Hrest]%Forall_cons]%Forall_cons].
  assert (Hn : 0 ≤ hi * 256 + lo < 65536) by (unfold is_byte in *; lia).
  destruct (decide (0 < hi * 256 + lo ≤ size_of rest)) as [Hok | Hbad].
  - destruct (split_at (hi * 256 + lo) rest) as (bytes & rest' & -> & Hs); [lia|].
    replace (t :: hi :: lo :: bytes ++ rest') with (enc_name (t, bytes) ++ rest')
      by (unfold enc_name; cbn [fst snd]; rewrite Hs, u16_bytes_pair by done; done).
    rewrite names_loop_entry by lia. apply Forall_app in Hrest as [_ Hrest].
    assert (Hlen' : (length rest' < fuel)%nat) by (simpl in Hlen; rewrite length_app in Hlen; lia).
    destruct (Z.eqb_spec t 0) as [-> | Hne].
    + destruct (_ || _) eqn:E; [done|]. bsimpl. specialize (IH (text bytes) rest' Hrest Hlen').
      destruct (names_loop fuel (text bytes) rest') as [name| | |]; try done. destruct IH as (entries & -> & Hh).
      exists ((0, bytes) :: entries). split; [done|]. apply hosts_name; try done. lia.
    + specialize (IH found rest' Hrest Hlen'). destruct (names_loop fuel found rest') as [name| | |]; try done.
      destruct IH as (entries & -> & Hh). exists ((t, bytes) :: entries). split; [done|]. constructor; try done. lia.
  - pose proof (size_of_nonneg rest). cbn [names_loop]. rewrite !size_of_cons.
    rewrite (proj2 (Z.leb_gt _ _)) by lia. rewrite (proj2 (Z.ltb_ge _ _)) by lia.
    assert (Hkind : index (t :: hi :: lo :: rest) 0 = Ret t) by (by apply (index_app [] t)). rewrite Hkind. cbn [bind].
    assert (Hhead : slice (t :: hi :: lo :: rest) 1 3 = Ret [hi; lo]).
    { unfold slice. rewrite !size_of_cons. destruct (_ || _ || _) eqn:E; [exfalso; bsimpl; lia|]. done. }
    rewrite Hhead. cbn [bind Uint16]. change (Uint16 [hi; lo]) with (Ret (hi * 256 + lo)). cbn [bind].
    assert (Htail : slice (t :: hi :: lo :: rest) 3 (1 + (1 + (1 + size_of rest))) = Ret rest).
    { apply (slice_suffix [t; hi; lo] rest); [done|]. simpl. rewrite !size_of_cons. done. }
    rewrite Htail. cbn [bind]. destruct (_ || _) eqn:E; [done|]. exfalso. bsimpl. lia.
Qed.

Lemma names_loop_complete found entries name :
  hosts found entries name → ∀ fuel, (length (enc_names entries) < fuel)%nat → names_loop fuel found (enc_names entries) = Ret name.
Proof.
  induction 1 as [found | found t bytes entries name Ht Hs _ IH | bytes entries name Hs Hl Hv _ IH]; intros fuel Hf.
  - destruct fuel; [simpl in Hf; lia | done].
  - destruct fuel as [|fuel]; [lia|]. change (enc_names ((t, bytes) :: entries)) with (enc_name (t, bytes) ++ enc_names entries) in *.
    rewrite names_loop_entry by done. rewrite (proj2 (Z.eqb_neq _ _) Ht). apply IH. rewrite length_app in Hf. simpl in Hf. lia.
  - destruct fuel as [|fuel]; [lia|]. change (enc_names ((0, bytes) :: entries)) with (enc_name (0, bytes) ++ enc_names entries) in *.
    rewrite names_loop_entry by done. cbn [Z.eqb]. rewrite Hv, <- Hl, !String.eqb_refl. cbn [negb orb].
    apply IH. rewrite length_app in Hf. simpl in Hf. lia.
Qed.

(** ** The extensions *)

(** What the loop does with the value of a server name extension. *)
Definition server_name_value (found : string) (value : list Z) : outcome string :=
  if negb (String.eqb found "") || (size_of value <? 2) then Fail "TLS server-name extension is invalid"
  else
    let! listBytes := slice value 0 2 in
    let! listLength := Uint16 listBytes in
    if negb (listLength =? size_of value - 2) then Fail "TLS server-name extension is invalid"
    else let! names := slice value 2 (size_of value) in names_loop (S (length names)) found names.

Lemma extensions_loop_entry fuel found t value rest :
  0 ≤ t < 65536 → size_of value < 65536 →
  extensions_loop (S fuel) found (enc_extension (t, value) ++ rest) =
  if negb (t =? 0) then extensions_loop fuel found rest
  else let! found := server_name_value found value in extensions_loop fuel found rest.
Proof.
  intros Ht Hv. cbn [extensions_loop]. set (all := enc_extension (t, value) ++ rest).
  assert (Hall : all = u16_bytes t ++ u16_bytes (size_of value) ++ value ++ rest) by (unfold all, enc_extension; cbn; done).
  assert (Hsize : size_of all = 4 + size_of value + size_of rest) by (rewrite Hall, !size_of_app, !size_u16; lia).
  pose proof (size_of_nonneg rest). pose proof (size_of_nonneg value).
  rewrite (proj2 (Z.leb_gt _ _)) by lia. rewrite (proj2 (Z.ltb_ge _ _)) by lia.
  assert (S0 : slice all 0 2 = Ret (u16_bytes t)) by (rewrite Hall; by apply slice_prefix).
  assert (S2 : slice all 2 4 = Ret (u16_bytes (size_of value))).
  { rewrite Hall. unfold slice. rewrite <- Hall, Hsize. destruct (_ || _ || _) eqn:E; [exfalso; bsimpl; lia|]. done. }
  assert (S4 : slice all 4 (size_of all) = Ret (value ++ rest)).
  { rewrite Hall, app_assoc. apply slice_suffix; [done|]. by rewrite <- app_assoc. }
  rewrite S0, S2, S4. cbn [bind]. rewrite !Uint16_bytes by lia. cbn [bind]. rewrite size_of_app.
  rewrite (proj2 (Z.ltb_ge _ _)) by lia. rewrite slice_prefix by done. cbn [bind]. rewrite slice_suffix by (by rewrite ?size_of_app).
  cbn [bind]. destruct (negb (t =? 0)); [done|]. unfold server_name_value. destruct (_ || _); [done|].
  destruct (slice value 0 2); try done. cbn [bind]. destruct (Uint16 _); try done. cbn [bind].
  destruct (negb _); [done|]. by destruct (slice value 2 _).
Qed.

Lemma server_name_value_sound found value :
  Forall is_byte value →
  match server_name_value found value with
  | Ret name => found = "" ∧ ∃ entries, value = enc_name_list entries ∧ hosts "" entries name
  | Fail _ => True
  | Panic | Stuck => False
  end.
Proof.
  intros Hb. unfold server_name_value. destruct (String.eqb_spec found "") as [-> | ]; [|done]. cbn [negb orb].
  destruct (Z.ltb_spec (size_of value) 2) as [|Hs]; [done|].
  destruct value as [|hi [|lo names]]; [done | done |].
  apply Forall_cons in Hb as [Hhi [Hlo Hb]%Forall_cons].
  rewrite (slice_prefix [hi; lo] names) by done. cbn [bind]. change (Uint16 [hi; lo]) with (Ret (hi * 256 + lo)). cbn [bind].
  destruct (Z.eqb_spec (hi * 256 + lo) (size_of (hi :: lo :: names) - 2)) as [Hl|]; [|done]. cbn [negb].
  rewrite (slice_suffix [hi; lo] names) by done. cbn [bind].
  pose proof (names_loop_sound (S (length names)) "" names Hb ltac:(lia)) as Hn.
  destruct (names_loop _ _ _) as [name| | |]; try done. destruct Hn as (entries & -> & Hh). split; [done|]. exists entries. split; [|done].
  unfold enc_name_list. rewrite !size_of_cons in Hl. replace (size_of (enc_names entries)) with (hi * 256 + lo) by lia.
  by rewrite u16_bytes_pair.
Qed.

Lemma server_name_value_complete entries name :
  hosts "" entries name → size_of (enc_names entries) < 65534 → server_name_value "" (enc_name_list entries) = Ret name.
Proof.
  intros Hh Hs. unfold server_name_value, enc_name_list. rewrite size_of_app, size_u16. pose proof (size_of_nonneg (enc_names entries)).
  rewrite String.eqb_refl. cbn [negb orb]. rewrite (proj2 (Z.ltb_ge _ _)) by lia.
  rewrite slice_prefix by done. cbn [bind]. rewrite Uint16_bytes by lia. cbn [bind].
  rewrite (proj2 (Z.eqb_eq _ _)) by lia. cbn [negb]. rewrite slice_suffix by (by rewrite ?size_of_app). cbn [bind].
  apply names_loop_complete; [done | lia].
Qed.

Lemma extensions_loop_sound fuel found extensions :
  Forall is_byte extensions → (length extensions < fuel)%nat →
  match extensions_loop fuel found extensions with
  | Ret name => ∃ exts, extensions = enc_extensions exts ∧ Forall (fun e => 0 ≤ e.1 < 65536 ∧ size_of e.2 < 65536) exts ∧ sni found exts name
  | Fail _ => True
  | Panic | Stuck => False
  end.
Proof.
  revert found extensions. induction fuel as [|fuel IH]; intros found extensions Hb Hlen; [lia|].
  destruct extensions as [|t1 [|t2 [|l1 [|l2 rest]]]]; [|done..|].
  { simpl. destruct (String.eqb_spec found "") as [->|Hne]; [done|]. exists []. split_and!; [done | done | by constructor]. }
  apply Forall_cons in Hb as [Ht1 [Ht2 [Hl1 [Hl2 Hrest]%Forall_cons]%Forall_cons]%Forall_cons].
  assert (Hn : 0 ≤ l1 * 256 + l2 < 65536) by (unfold is_byte in *; lia).
  assert (Ht : 0 ≤ t1 * 256 + t2 < 65536) by (unfold is_byte in *; lia).
  destruct (decide (l1 * 256 + l2 ≤ size_of rest)) as [Hok | Hbad].
  - destruct (split_at (l1 * 256 + l2) rest) as (value & rest' & -> & Hs); [lia|].
    replace (t1 :: t2 :: l1 :: l2 :: value ++ rest') with (enc_extension (t1 * 256 + t2, value) ++ rest')
      by (unfold enc_extension; cbn [fst snd]; rewrite Hs, !u16_bytes_pair by done; done).
    rewrite extensions_loop_entry by lia. apply Forall_app in Hrest as [Hvalue Hrest].
    assert (Hlen' : (length rest' < fuel)%nat) by (simpl in Hlen; rewrite length_app in Hlen; lia).
    destruct (Z.eqb_spec (t1 * 256 + t2) 0) as [E | Hne]; cbn [negb].
    + pose proof (server_name_value_sound found value Hvalue) as Hv.
      destruct (server_name_value found value) as [found'| | |]; try done. destruct Hv as (-> & entries & -> & Hh). cbn [bind].
      specialize (IH found' rest' Hrest Hlen'). destruct (extensions_loop fuel found' rest') as [name| | |]; try done.
      destruct IH as (exts & -> & Hf & Hsni). exists ((0, enc_name_list entries) :: exts). rewrite E. split_and!; [done | constructor; [simpl; lia | done] |].
      econstructor; [done | | done]. unfold enc_name_list in Hs. rewrite size_of_app, size_u16 in Hs. lia.
    + specialize (IH found rest' Hrest Hlen'). destruct (extensions_loop fuel found rest') as [name| | |]; try done.
      destruct IH as (exts & -> & Hf & Hsni). exists ((t1 * 256 + t2, value) :: exts).
      split_and!; [done | constructor; [simpl; lia | done] | by constructor].
  - pose proof (size_of_nonneg rest). cbn [extensions_loop]. rewrite !size_of_cons.
    rewrite (proj2 (Z.leb_gt _ _)) by lia. rewrite (proj2 (Z.ltb_ge _ _)) by lia.
    rewrite (slice_prefix [t1; t2] (l1 :: l2 :: rest)) by done. cbn [bind]. change (Uint16 [t1; t2]) with (Ret (t1 * 256 + t2)). cbn [bind].
    assert (S2 : slice (t1 :: t2 :: l1 :: l2 :: rest) 2 4 = Ret [l1; l2]).
    { unfold slice. rewrite !size_of_cons. destruct (_ || _ || _) eqn:E; [exfalso; bsimpl; lia|]. done. }
    rewrite S2. cbn [bind]. change (Uint16 [l1; l2]) with (Ret (l1 * 256 + l2)). cbn [bind].
    rewrite (slice_suffix [t1; t2; l1; l2] rest) by (simpl; rewrite ?size_of_cons; done). cbn [bind].
    by rewrite (proj2 (Z.ltb_lt _ _)) by lia.
Qed.

Lemma extensions_loop_complete found exts name :
  sni found exts name → Forall (fun e => 0 ≤ e.1 < 65536 ∧ size_of e.2 < 65536) exts →
  ∀ fuel, (length (enc_extensions exts) < fuel)%nat → extensions_loop fuel found (enc_extensions exts) = Ret name.
Proof.
  induction 1 as [name Hne | found t value exts name Ht _ IH | entries found exts name Hh Hs _ IH]; intros Hf fuel Hlen.
  - destruct fuel; [simpl in Hlen; lia|]. simpl. by apply String.eqb_neq in Hne as ->.
  - destruct fuel as [|fuel]; [lia|]. apply Forall_cons in Hf as [[? ?] Hf]. cbn [fst snd] in *.
    change (enc_extensions ((t, value) :: exts)) with (enc_extension (t, value) ++ enc_extensions exts) in *.
    rewrite extensions_loop_entry by lia. rewrite (proj2 (Z.eqb_neq _ _) Ht). cbn [negb]. apply IH; [done|].
    rewrite length_app in Hlen. simpl in Hlen. lia.
  - destruct fuel as [|fuel]; [lia|]. apply Forall_cons in Hf as [[? ?] Hf]. cbn [fst snd] in *.
    change (enc_extensions ((0, enc_name_list entries) :: exts)) with (enc_extension (0, enc_name_list entries) ++ enc_extensions exts) in *.
    rewrite extensions_loop_entry by lia. cbn [Z.eqb negb]. rewrite (server_name_value_complete _ _ Hh Hs). cbn [bind].
    apply IH; [done|]. rewrite length_app in Hlen. simpl in Hlen. lia.
Qed.

(** ** The hello *)

Lemma taken_cases hello pre rest n message :
  hello = pre ++ rest → 0 ≤ n →
  taken hello (size_of pre) n message = Fail message ∨
  ∃ b c, rest = b ++ c ∧ size_of b = n ∧ taken hello (size_of pre) n message = Ret (b, size_of (pre ++ b)).
Proof.
  intros -> Hn. unfold taken, take. destruct (_ || _) eqn:E; [by left|]. right. bsimpl. rewrite size_of_app in *.
  destruct (split_at n rest) as (b & c & -> & Hs); [lia|]. exists b, c. split_and!; [done | done |].
  assert (Hslice : slice (pre ++ b ++ c) (size_of pre) (size_of pre + n) = Ret b).
  { unfold slice. rewrite !size_of_app. pose proof (size_of_nonneg pre). pose proof (size_of_nonneg c).
    destruct (_ || _ || _) eqn:E2; [exfalso; bsimpl; lia|]. f_equal.
    replace (size_of pre + n - size_of pre) with (size_of b) by lia. unfold size_of. rewrite !Nat2Z.id, drop_app_length. apply take_app_length. }
  rewrite Hslice. cbn [bind]. by rewrite size_of_app, Hs.
Qed.

Lemma taken_ok hello pre b c n message :
  hello = pre ++ b ++ c → size_of b = n → taken hello (size_of pre) n message = Ret (b, size_of (pre ++ b)).
Proof.
  intros Hh Hn. destruct (taken_cases hello pre (b ++ c) n message Hh) as [E | (b' & c' & Hbc & Hs & E)];
    [rewrite <- Hn; apply size_of_nonneg | |].
  - exfalso. revert E. unfold taken, take. subst hello. rewrite !size_of_app. pose proof (size_of_nonneg b). pose proof (size_of_nonneg c).
    destruct (_ || _) eqn:E2; [bsimpl; lia|]. unfold slice. destruct (_ || _ || _); cbn [bind]; congruence.
  - assert (b' = b) as -> by (apply app_inj_1 in Hbc as [? _]; [done | unfold size_of in *; lia]). done.
Qed.

(** A length of one byte, or of two. *)
Lemma length8_cases {B} hello pre rest message (k : list Z * Z → Z → outcome B) :
  hello = pre ++ rest → Forall is_byte rest →
  (let! p := taken hello (size_of pre) 1 message in let! n := index p.1 0 in k p n) = Fail message ∨
  ∃ n rest', rest = [n] ++ rest' ∧ is_byte n ∧ Forall is_byte rest' ∧
    (let! p := taken hello (size_of pre) 1 message in let! n := index p.1 0 in k p n) = k ([n], size_of (pre ++ [n])) n.
Proof.
  intros Hh Hb. destruct (taken_cases hello pre rest 1 message Hh) as [->|(b & c & -> & Hs & ->)]; [lia | by left |]. right.
  destruct b as [|n [|x b]]; [done | | rewrite !size_of_cons in Hs; pose proof (size_of_nonneg b); lia].
  apply Forall_app in Hb as [[Hn _]%Forall_cons Hb]. by exists n, c.
Qed.

Lemma length16_cases {B} hello pre rest message (k : list Z * Z → Z → outcome B) :
  hello = pre ++ rest → Forall is_byte rest →
  (let! p := taken hello (size_of pre) 2 message in let! n := Uint16 p.1 in k p n) = Fail message ∨
  ∃ n rest', rest = u16_bytes n ++ rest' ∧ 0 ≤ n < 65536 ∧ Forall is_byte rest' ∧
    (let! p := taken hello (size_of pre) 2 message in let! n := Uint16 p.1 in k p n) = k (u16_bytes n, size_of (pre ++ u16_bytes n)) n.
Proof.
  intros Hh Hb. destruct (taken_cases hello pre rest 2 message Hh) as [->|(b & c & -> & Hs & ->)]; [lia | by left |]. right.
  destruct b as [|x [|y [|z b]]]; [done | done | | rewrite !size_of_cons in Hs; pose proof (size_of_nonneg b); lia].
  apply Forall_app in Hb as [[Hx [Hy _]%Forall_cons]%Forall_cons Hb]. exists (x * 256 + y), c.
  rewrite u16_bytes_pair by done. split_and!; try done; unfold is_byte in *; lia.
Qed.

Lemma field_cases {B} hello pre rest n message (k : list Z * Z → outcome B) :
  hello = pre ++ rest → Forall is_byte rest → 0 ≤ n →
  (let! p := taken hello (size_of pre) n message in k p) = Fail message ∨
  ∃ field rest', rest = field ++ rest' ∧ size_of field = n ∧ Forall is_byte rest' ∧
    (let! p := taken hello (size_of pre) n message in k p) = k (field, size_of (pre ++ field)).
Proof.
  intros Hh Hb Hn. destruct (taken_cases hello pre rest n message Hh Hn) as [->|(b & c & -> & Hs & ->)]; [by left | right].
  apply Forall_app in Hb as [_ Hb]. by exists b, c.
Qed.

(** The next field of [hello], which starts after [pre] with [rest]. *)
Ltac field pre rest n field rest' :=
  match goal with |- context [bind (taken ?hello _ _ ?message) ?k] =>
    let E := fresh in let Eq := fresh "Eq" in let Sz := fresh "Sz" in let Hb := fresh "Hbytes" in
    destruct (field_cases hello pre rest n message k) as [E | (field & rest' & Eq & Sz & Hb & E)];
      [repeat match goal with x := _ : list Z |- _ => subst x end; subst; by rewrite <- ?app_assoc | done | unfold is_byte in *; lia | by rewrite E | rewrite E; clear E; cbn [fst snd app]; subst rest] end.
Ltac length8 pre rest n rest' :=
  match goal with |- context [bind (taken ?hello _ 1 ?message) (fun p => bind (index p.1 0) (@?k p))] =>
    let E := fresh in let Eq := fresh "Eq" in let Hn := fresh "Hn" in let Hb := fresh "Hbytes" in
    destruct (length8_cases hello pre rest message k) as [E | (n & rest' & Eq & Hn & Hb & E)];
      [repeat match goal with x := _ : list Z |- _ => subst x end; subst; by rewrite <- ?app_assoc | done | by rewrite E | rewrite E; clear E; cbn [fst snd app]; subst rest] end.
Ltac length16 pre rest n rest' :=
  match goal with |- context [bind (taken ?hello _ 2 ?message) (fun p => bind (Uint16 p.1) (@?k p))] =>
    let E := fresh in let Eq := fresh "Eq" in let Hn := fresh "Hn" in let Hb := fresh "Hbytes" in
    destruct (length16_cases hello pre rest message k) as [E | (n & rest' & Eq & Hn & Hb & E)];
      [repeat match goal with x := _ : list Z |- _ => subst x end; subst; by rewrite <- ?app_assoc | done | by rewrite E | rewrite E; clear E; cbn [fst snd app]; subst rest] end.

Lemma hello_sound hello :
  Forall is_byte hello →
  match clientHelloServerName hello with
  | Ret name => ∃ h, hello_ok h ∧ hello = encode h ∧ sni "" (hf_extensions h) name
  | Fail _ => True
  | Panic | Stuck => False
  end.
Proof.
  intros Hall. unfold clientHelloServerName. change 0 with (size_of []) at 1.
  remember hello as r0 eqn:Hhello in Hall. symmetry in Hhello.
  field (@nil Z) r0 (2 + 32) fixed r1.
  length8 fixed r1 sl r2.
  set (p2 := fixed ++ [sl]). field p2 r2 sl session r3.
  set (p3 := p2 ++ session). length16 p3 r3 cl r4.
  destruct (_ || _) eqn:Hciphers; [done|]. apply orb_false_iff in Hciphers as [Hc0%Z.eqb_neq Heven%negb_false_iff%Z.eqb_eq].
  set (p4 := p3 ++ u16_bytes cl). field p4 r4 cl ciphers r5.
  set (p5 := p4 ++ ciphers). length8 p5 r5 ml r6.
  destruct (ml =? 0) eqn:Hm0; [done|]. apply Z.eqb_neq in Hm0.
  set (p6 := p5 ++ [ml]). field p6 r6 ml compression r7.
  set (p7 := p6 ++ compression). length16 p7 r7 el r8.
  set (p8 := p7 ++ u16_bytes el). field p8 r8 el extensions r9.
  destruct (_ =? _) eqn:Hend; [|done]. cbn [negb]. apply Z.eqb_eq in Hend.
  assert (r9 = []) as ->.
  { subst p2 p3 p4 p5 p6 p7 p8. rewrite Eq, !size_of_app in Hend. destruct r9; [done|]. rewrite !size_of_cons in Hend.
    pose proof (size_of_nonneg r9). lia. }
  rewrite app_nil_r in *. unfold serverNameExtension.
  pose proof (extensions_loop_sound (S (length extensions)) "" extensions ltac:(done) ltac:(lia)) as Hx.
  destruct (extensions_loop _ _ _) as [name| | |]; try done. destruct Hx as (exts & -> & Hf & Hsni).
  exists {| hf_fixed := fixed; hf_session := session; hf_ciphers := ciphers; hf_compression := compression; hf_extensions := exts |}.
  unfold is_byte in *. subst sl cl ml el. split_and!; [|done | done].
  split; cbn [hf_fixed hf_session hf_ciphers hf_compression hf_extensions]; try done; lia.
Qed.

Lemma hello_complete h name :
  hello_ok h → sni "" (hf_extensions h) name → clientHelloServerName (encode h) = Ret name.
Proof.
  intros [Hfixed Hsession Hciphers Heven Hcompression Hexts Heach] Hsni.
  destruct h as [fixed session ciphers compression exts]. cbn [hf_fixed hf_session hf_ciphers hf_compression hf_extensions] in *.
  unfold encode. cbn [hf_fixed hf_session hf_ciphers hf_compression hf_extensions]. set (hello := fixed ++ _).
  pose proof (size_of_nonneg session). pose proof (size_of_nonneg (enc_extensions exts)).
  unfold clientHelloServerName. change 0 with (size_of []) at 1.
  erewrite (taken_ok hello [] fixed); [|reflexivity | lia]. cbn [bind fst snd app].
  set (p1 := fixed ++ [size_of session]).
  erewrite (taken_ok hello fixed [size_of session]); [|reflexivity | done]. cbn [bind fst snd].
  change (index [size_of session] 0) with (Ret (size_of session)). cbn [bind]. fold p1.
  set (p2 := p1 ++ session).
  erewrite (taken_ok hello p1 session); [|unfold p1, hello; by rewrite <- !app_assoc | done]. cbn [bind fst snd]. fold p2.
  set (p3 := p2 ++ u16_bytes (size_of ciphers)).
  erewrite (taken_ok hello p2 (u16_bytes (size_of ciphers))); [|unfold p2, p1, hello; by rewrite <- !app_assoc | done].
  cbn [bind fst snd]. fold p3. rewrite Uint16_bytes by lia. cbn [bind].
  rewrite (proj2 (Z.eqb_neq (size_of ciphers) 0)), Heven by lia. cbn [orb negb Z.eqb].
  set (p4 := p3 ++ ciphers).
  erewrite (taken_ok hello p3 ciphers); [|unfold p3, p2, p1, hello; by rewrite <- !app_assoc | done]. cbn [bind fst snd]. fold p4.
  set (p5 := p4 ++ [size_of compression]).
  erewrite (taken_ok hello p4 [size_of compression]); [|unfold p4, p3, p2, p1, hello; by rewrite <- !app_assoc | done].
  cbn [bind fst snd]. fold p5. change (index [size_of compression] 0) with (Ret (size_of compression)). cbn [bind].
  rewrite (proj2 (Z.eqb_neq (size_of compression) 0)) by lia.
  set (p6 := p5 ++ compression).
  erewrite (taken_ok hello p5 compression); [|unfold p5, p4, p3, p2, p1, hello; by rewrite <- !app_assoc | done]. cbn [bind fst snd]. fold p6.
  set (p7 := p6 ++ u16_bytes (size_of (enc_extensions exts))).
  erewrite (taken_ok hello p6 (u16_bytes (size_of (enc_extensions exts))));
    [|unfold p6, p5, p4, p3, p2, p1, hello; by rewrite <- !app_assoc | done].
  cbn [bind fst snd]. fold p7. rewrite Uint16_bytes by lia. cbn [bind].
  assert (Hlast : hello = p7 ++ enc_extensions exts) by (unfold p7, p6, p5, p4, p3, p2, p1, hello; by rewrite <- !app_assoc).
  rewrite (taken_ok hello p7 (enc_extensions exts) []); [|by rewrite app_nil_r | done]. cbn [bind fst snd].
  rewrite <- Hlast, Z.eqb_refl. cbn [negb]. unfold serverNameExtension. apply extensions_loop_complete; [done | done | lia].
Qed.

(** ** Records *)

(** A handshake record: the low byte of its version, and its payload. *)
Definition enc_record (r : Z * list Z) : list Z := [22; 3; r.1] ++ u16_bytes (size_of r.2) ++ r.2.
Definition enc_records (records : list (Z * list Z)) : list Z := concat (map enc_record records).
Definition payloads (records : list (Z * list Z)) : list Z := concat (map snd records).
Definition record_ok (r : Z * list Z) : Prop := 0 ≤ r.1 ≤ 4 ∧ 0 < size_of r.2 ≤ 18432.

(** The handshake message that carries a hello. *)
Definition handshake_of (hello : list Z) : list Z := 1 :: u24_bytes (size_of hello) ++ hello.

(** The part of the loop after a record has been read. *)
Definition after_record (fuel : nat) (expectedDomain : string) (connection raw handshake : list Z) (handshakeLength : Z) : outcome (list Z * list Z) :=
  let! handshakeLength := handshake_length handshakeLength handshake in
  if (0 <=? handshakeLength) && (handshakeLength <=? size_of handshake) then
    if negb (size_of handshake =? handshakeLength) then Fail "TLS record carries data after ClientHello"
    else
      let! hello := slice handshake 4 (size_of handshake) in
      match clientHelloServerName hello with
      | Ret serverName =>
          if String.eqb serverName expectedDomain then Ret (raw, connection)
          else Fail "TLS ClientHello SNI differs from CONNECT domain"
      | Fail _ => Fail "TLS ClientHello SNI differs from CONNECT domain"
      | Panic => Panic
      | Stuck => Stuck
      end
  else records_loop fuel expectedDomain connection raw handshake handshakeLength.

Lemma ReadFull_app a b n message : size_of a = n → ReadFull (a ++ b) n message = Ret (a, b).
Proof.
  intros <-. unfold ReadFull. rewrite size_of_app. pose proof (size_of_nonneg b). rewrite (proj2 (Z.ltb_ge _ _)) by lia.
  unfold size_of. by rewrite Nat2Z.id, take_app_length, drop_app_length.
Qed.

Lemma records_loop_record fuel domain r connection raw handshake hl :
  record_ok r →
  records_loop (S fuel) domain (enc_record r ++ connection) raw handshake hl =
  if maxClientHelloBytes <=? size_of raw then Fail "TLS ClientHello exceeds limit"
  else if maxClientHelloBytes <? size_of raw + 5 + size_of r.2 then Fail "TLS ClientHello record size is invalid"
  else after_record fuel domain connection (raw ++ enc_record r) (handshake ++ r.2) hl.
Proof.
  intros [Hv Hs]. cbn [records_loop]. destruct (maxClientHelloBytes <=? size_of raw); [done|].
  replace (enc_record r ++ connection) with (([22; 3; r.1] ++ u16_bytes (size_of r.2)) ++ r.2 ++ connection)
    by (unfold enc_record; by rewrite <- !app_assoc).
  rewrite ReadFull_app by done. cbn [bind fst snd].
  change (index ([22; 3; r.1] ++ u16_bytes (size_of r.2)) 0) with (@Ret Z 22).
  change (index ([22; 3; r.1] ++ u16_bytes (size_of r.2)) 1) with (@Ret Z 3).
  change (index ([22; 3; r.1] ++ u16_bytes (size_of r.2)) 2) with (@Ret Z r.1). cbn [bind negb Z.eqb Pos.eqb orb].
  rewrite (proj2 (Z.ltb_ge 4 r.1)) by lia.
  change (slice ([22; 3; r.1] ++ u16_bytes (size_of r.2)) 3 5) with (Ret (u16_bytes (size_of r.2))). cbn [bind].
  rewrite Uint16_bytes by lia. cbn [bind]. rewrite (proj2 (Z.eqb_neq (size_of r.2) 0)) by lia.
  change (Z.shiftl 18 10) with 18432. rewrite (proj2 (Z.ltb_ge 18432 _)) by lia. cbn [orb].
  destruct (maxClientHelloBytes <? _); [done|]. rewrite ReadFull_app by done. cbn [bind fst snd].
  unfold after_record, enc_record. by rewrite <- !app_assoc.
Qed.

(** A connection that starts with no record of the right shape is refused. *)
Lemma records_loop_cases fuel domain connection raw handshake hl :
  Forall is_byte connection →
  (∃ message, records_loop (S fuel) domain connection raw handshake hl = Fail message) ∨
  ∃ r rest, connection = enc_record r ++ rest ∧ record_ok r.
Proof.
  intros Hb. cbn [records_loop]. destruct (maxClientHelloBytes <=? size_of raw); [left; by eexists|].
  destruct (decide (5 ≤ size_of connection)) as [H5|]; [|left; unfold ReadFull; rewrite (proj2 (Z.ltb_lt _ _)) by lia; by eexists].
  destruct connection as [|h0 [|h1 [|h2 [|h3 [|h4 c]]]]]; try done.
  apply Forall_cons in Hb as [Hh0 [Hh1 [Hh2 [Hh3 [Hh4 Hc]%Forall_cons]%Forall_cons]%Forall_cons]%Forall_cons].
  rewrite (ReadFull_app [h0; h1; h2; h3; h4] c) by done. cbn [bind fst snd].
  change (index [h0; h1; h2; h3; h4] 0) with (Ret h0). change (index [h0; h1; h2; h3; h4] 1) with (Ret h1).
  change (index [h0; h1; h2; h3; h4] 2) with (Ret h2). cbn [bind].
  destruct (_ || _ || _) eqn:Hhead; [left; by eexists|]. apply orb_false_iff in Hhead as [[Hk Hv]%orb_false_iff Hl].
  apply negb_false_iff, Z.eqb_eq in Hk as ->. apply negb_false_iff, Z.eqb_eq in Hv as ->. apply Z.ltb_ge in Hl.
  change (slice [22; 3; h2; h3; h4] 3 5) with (Ret [h3; h4]). cbn [bind]. change (Uint16 [h3; h4]) with (Ret (h3 * 256 + h4)). cbn [bind].
  destruct (_ || _ || _) eqn:Hsize; [left; by eexists|]. apply orb_false_iff in Hsize as [[Hz%Z.eqb_neq Hmax%Z.ltb_ge]%orb_false_iff _].
  change (Z.shiftl 18 10) with 18432 in Hmax. unfold is_byte in *.
  destruct (decide (h3 * 256 + h4 ≤ size_of c)) as [Hok|]; [|left; unfold ReadFull; rewrite (proj2 (Z.ltb_lt _ _)) by lia; by eexists].
  right. destruct (split_at (h3 * 256 + h4) c) as (payload & rest & -> & Hp); [lia|]. exists (h2, payload), rest. split.
  - unfold enc_record. cbn [fst snd]. by rewrite Hp, u16_bytes_pair.
  - split; cbn [fst snd]; lia.
Qed.

(** What the length of the handshake is taken to be after reading [handshake]. *)
Definition declared (handshake : list Z) : Z :=
  match handshake with
  | _ :: b1 :: b2 :: b3 :: _ => 4 + Z.shiftl b1 16 + Z.shiftl b2 8 + b3
  | _ => -1
  end.

(** The state of the loop fits what has been read. *)
Definition tracked (handshake : list Z) (hl : Z) : Prop :=
  hl = declared handshake ∧ (4 ≤ size_of handshake → ∃ rest, handshake = 1 :: rest).

Lemma handshake_length_spec hs hl more :
  Forall is_byte (hs ++ more) → tracked hs hl →
  (∃ message, handshake_length hl (hs ++ more) = Fail message) ∨
  (handshake_length hl (hs ++ more) = Ret (declared (hs ++ more)) ∧ tracked (hs ++ more) (declared (hs ++ more))).
Proof.
  intros Hb [-> Hkind]. unfold handshake_length. pose proof (size_of_nonneg more).
  destruct (decide (4 ≤ size_of hs)) as [H4|H4].
  - assert (Hd : declared (hs ++ more) = declared hs ∧ 0 ≤ declared hs).
    { destruct hs as [|k [|b1 [|b2 [|b3 hs]]]]; try done. split; [done|]. cbn [declared].
      apply Forall_app in Hb as [Hb _]. apply Forall_cons in Hb as [_ [Hb1 [Hb2 [Hb3 _]%Forall_cons]%Forall_cons]%Forall_cons].
      unfold is_byte in *. rewrite !Z.shiftl_mul_pow2 by lia. lia. }
    destruct Hd as [-> Hd]. rewrite (proj2 (Z.ltb_ge _ _)) by lia. cbn [andb]. right. split; [done|]. split.
    + by destruct hs as [|k [|b1 [|b2 [|b3 hs]]]].
    + intros _. destruct (Hkind H4) as [rest ->]. by exists (rest ++ more).
  - assert (Hd : declared hs = -1) by (destruct hs as [|k [|b1 [|b2 [|b3 hs]]]]; [done..|]; rewrite !size_of_cons in H4; pose proof (size_of_nonneg hs); lia).
    rewrite Hd. cbn [Z.ltb Z.compare andb]. destruct (Z.leb_spec 4 (size_of (hs ++ more))) as [Hs|Hs].
    + clear Hd H4 Hkind. remember (hs ++ more) as all eqn:Hall. clear Hall.
      destruct all as [|k [|b1 [|b2 [|b3 all]]]]; try done.
      assert (index (k :: b1 :: b2 :: b3 :: all) 0 = Ret k) as -> by (by apply (index_app [] k)).
      assert (index (k :: b1 :: b2 :: b3 :: all) 1 = Ret b1) as -> by (by apply (index_app [k] b1)).
      assert (index (k :: b1 :: b2 :: b3 :: all) 2 = Ret b2) as -> by (by apply (index_app [k; b1] b2)).
      assert (index (k :: b1 :: b2 :: b3 :: all) 3 = Ret b3) as -> by (by apply (index_app [k; b1; b2] b3)).
      cbn [bind]. destruct (Z.eqb_spec k 1) as [->|]; [|left; by eexists]. cbn [negb].
      destruct (_ || _); [left; by eexists|]. right. split; [done|]. split; [done|]. intros _. by eexists.
    + right. assert (Hd' : declared (hs ++ more) = -1).
      { destruct (hs ++ more) as [|k [|b1 [|b2 [|b3 all]]]]; [done..|]. rewrite !size_of_cons in Hs. pose proof (size_of_nonneg all). lia. }
      rewrite Hd'. split; [done|]. split; [done|]. lia.
Qed.

Lemma declared_small hs : size_of hs < 4 → declared hs = -1.
Proof.
  intros Hs. destruct hs as [|k [|b1 [|b2 [|b3 hs]]]]; [done..|]. rewrite !size_of_cons in Hs. pose proof (size_of_nonneg hs). lia.
Qed.

(** Bytes whose declared length is their own are the handshake of a hello. *)
Lemma declared_exact hs :
  Forall is_byte hs → tracked hs (declared hs) → 0 ≤ declared hs → size_of hs = declared hs →
  ∃ hello, hs = handshake_of hello ∧ Forall is_byte hello ∧ slice hs 4 (size_of hs) = Ret hello.
Proof.
  intros Hb [_ Hkind] Hd Hs. destruct hs as [|k [|b1 [|b2 [|b3 hello]]]]; try done. exists hello.
  destruct Hkind as [rest [= -> _]]; [rewrite !size_of_cons; pose proof (size_of_nonneg hello); lia|].
  apply Forall_cons in Hb as [_ [Hb1 [Hb2 [Hb3 Hb]%Forall_cons]%Forall_cons]%Forall_cons]. unfold is_byte in *.
  cbn [declared] in Hs. rewrite !Z.shiftl_mul_pow2 in Hs by lia. rewrite !size_of_cons in Hs. split_and!; [|done|].
  - unfold handshake_of, u24_bytes. replace (size_of hello) with ((b1 * 256 + b2) * 256 + b3) by lia. f_equal. cbn [app]. f_equal; [|f_equal; [|f_equal]].
    + replace (((b1 * 256 + b2) * 256 + b3)) with (b1 * 65536 + (b2 * 256 + b3)) by lia.
      rewrite Z.div_add_l by lia. rewrite Z.div_small by lia. lia.
    + rewrite Z.div_add_l by lia. rewrite (Z.div_small b3) by lia. rewrite Z.add_0_r, Z.add_comm, Z_mod_plus by lia. by rewrite Z.mod_small.
    + rewrite Z.add_comm, Z_mod_plus by lia. by rewrite Z.mod_small.
  - by apply (slice_suffix [1; b1; b2; b3] hello).
Qed.

Lemma records_loop_sound fuel domain connection raw hs hl :
  Forall is_byte connection → Forall is_byte hs → tracked hs hl → (length connection < fuel)%nat →
  match records_loop fuel domain connection raw hs hl with
  | Ret (raw', rest) => ∃ records hello, Forall record_ok records ∧ connection = enc_records records ++ rest ∧
      raw' = raw ++ enc_records records ∧ size_of raw' ≤ maxClientHelloBytes ∧
      hs ++ payloads records = handshake_of hello ∧ clientHelloServerName hello = Ret domain
  | Fail _ => True
  | Panic | Stuck => False
  end.
Proof.
  revert connection raw hs hl. induction fuel as [|fuel IH]; intros connection raw hs hl Hb Hhs Ht Hlen; [lia|].
  destruct (records_loop_cases fuel domain connection raw hs hl Hb) as [[message ->] | (r & rest & -> & Hr)]; [done|].
  rewrite records_loop_record by done. destruct (_ <=? _); [done|]. destruct (Z.ltb_spec maxClientHelloBytes (size_of raw + 5 + size_of r.2)) as [|Hmax]; [done|].
  unfold after_record. apply Forall_app in Hb as [Hrec Hrest].
  assert (Hhs' : Forall is_byte (hs ++ r.2)).
  { apply Forall_app. split; [done|]. unfold enc_record in Hrec. by apply Forall_app in Hrec as [_ [_ ?]%Forall_app]. }
  destruct (handshake_length_spec hs hl r.2 Hhs' Ht) as [[message ->] | [-> Ht']]; [done|]. cbn [bind].
  assert (Henc : size_of (enc_record r) = 5 + size_of r.2) by (unfold enc_record; rewrite !size_of_app, size_u16; unfold size_of; simpl; lia).
  destruct (_ && _) eqn:Hcase.
  - apply andb_true_iff in Hcase as [H0%Z.leb_le _]. destruct (Z.eqb_spec (size_of (hs ++ r.2)) (declared (hs ++ r.2))) as [Heq|]; [|done]. cbn [negb].
    destruct (declared_exact _ Hhs' Ht' H0 Heq) as (hello & Hhello & Hbytes & ->). cbn [bind].
    pose proof (hello_sound hello Hbytes) as Hsound. destruct (clientHelloServerName hello) as [name| | |] eqn:Hname; try done.
    destruct (String.eqb_spec name domain) as [->|]; [|done]. exists [r], hello. unfold enc_records, payloads. cbn [map concat]. rewrite !app_nil_r.
    split_and!; [by constructor | done | done | rewrite size_of_app; lia | done | done].
  - assert (Hlen' : (length rest < fuel)%nat) by (rewrite length_app in Hlen; simpl in Hlen; lia).
    specialize (IH rest (raw ++ enc_record r) (hs ++ r.2) _ Hrest Hhs' Ht' Hlen').
    destruct (records_loop fuel domain rest _ _ _) as [[raw' rest']| | |]; try done.
    destruct IH as (records & hello & Hall & -> & -> & Hsize & Hhand & Hname). exists (r :: records), hello.
    unfold enc_records, payloads in *. cbn [map concat]. rewrite <- !app_assoc in *. split_and!; try done. by constructor.
Qed.

(** A part of the handshake of a hello, and the length it declares. *)
Lemma handshake_length_prefix hs hl more tail hello :
  tracked hs hl → (hs ++ more) ++ tail = handshake_of hello → Forall is_byte hello → 4 + size_of hello ≤ maxClientHelloBytes →
  handshake_length hl (hs ++ more) = Ret (declared (hs ++ more)) ∧ tracked (hs ++ more) (declared (hs ++ more)) ∧
  (4 ≤ size_of (hs ++ more) → declared (hs ++ more) = 4 + size_of hello).
Proof.
  intros Ht Hall Hb Hmax. change maxClientHelloBytes with 65536 in Hmax. pose proof (size_of_nonneg hello).
  assert (Hbytes : Forall is_byte (hs ++ more)).
  { assert (Forall is_byte (handshake_of hello)) as Hf; [|rewrite <- Hall in Hf; by apply Forall_app in Hf as [? _]].
    unfold handshake_of. constructor; [unfold is_byte; lia|]. apply Forall_app. split; [|done]. unfold u24_bytes, is_byte.
    repeat constructor; try (apply Z.mod_pos_bound; lia); [apply Z.div_pos; lia | apply Z.div_lt_upper_bound; lia]. }
  assert (Hd : 4 ≤ size_of (hs ++ more) → declared (hs ++ more) = 4 + size_of hello ∧ ∃ rest, hs ++ more = 1 :: rest).
  { intros H4. destruct (hs ++ more) as [|k [|b1 [|b2 [|b3 all]]]]; try done.
    unfold handshake_of, u24_bytes in Hall. cbn [app] in Hall. injection Hall as -> -> -> -> _. split; [|by eexists].
    cbn [declared]. rewrite !Z.shiftl_mul_pow2 by lia. rewrite (Z.div_small _ 65536) by lia.
    rewrite (Z.mod_small (_ / 256)) by (split; [apply Z.div_pos; lia | apply Z.div_lt_upper_bound; lia]).
    pose proof (Z.div_mod (size_of hello) 256). lia. }
  destruct (handshake_length_spec hs hl more Hbytes Ht) as [[message E] | [E Ht']]; [exfalso | split_and!; [done | done | intros; by apply Hd]].
  unfold handshake_length in E. destruct ((hl <? 0) && _) eqn:Hcase; [|done]. apply andb_true_iff in Hcase as [_ H4%Z.leb_le].
  destruct (Hd H4) as [Hdecl [rest Hone]]. destruct (hs ++ more) as [|k [|b1 [|b2 [|b3 all]]]]; try done. injection Hone as -> _.
  change (index (1 :: b1 :: b2 :: b3 :: all) 0) with (index ([] ++ 1 :: b1 :: b2 :: b3 :: all) 0) in E.
  rewrite (index_app [] 1) in E by done. cbn [bind Z.eqb Pos.eqb negb] in E.
  assert (index (1 :: b1 :: b2 :: b3 :: all) 1 = Ret b1) as I1 by (by apply (index_app [1] b1)).
  assert (index (1 :: b1 :: b2 :: b3 :: all) 2 = Ret b2) as I2 by (by apply (index_app [1; b1] b2)).
  assert (index (1 :: b1 :: b2 :: b3 :: all) 3 = Ret b3) as I3 by (by apply (index_app [1; b1; b2] b3)).
  rewrite I1, I2, I3 in E. cbn [bind] in E. cbn [declared] in Hdecl. rewrite Hdecl in E.
  change maxClientHelloBytes with 65536 in E. rewrite (proj2 (Z.ltb_ge _ _)), (proj2 (Z.ltb_ge _ _)) in E by lia. done.
Qed.

Lemma records_loop_complete domain records rest raw hs hl hello :
  Forall record_ok records → records ≠ [] → tracked hs hl → hs ++ payloads records = handshake_of hello → Forall is_byte hello →
  clientHelloServerName hello = Ret domain → size_of (raw ++ enc_records records) ≤ maxClientHelloBytes →
  4 + size_of hello ≤ maxClientHelloBytes →
  ∀ fuel, (length (enc_records records ++ rest) < fuel)%nat →
  records_loop fuel domain (enc_records records ++ rest) raw hs hl = Ret (raw ++ enc_records records, rest).
Proof.
  intros Hok Hne Ht Hhand Hb Hname Hsize Hmax. revert raw hs hl Ht Hhand Hsize Hne.
  induction Hok as [|r records Hr Hok IH]; intros raw hs hl Ht Hhand Hsize Hne fuel Hlen; [done|]. clear Hne.
  destruct fuel as [|fuel]; [lia|].
  change (enc_records (r :: records)) with (enc_record r ++ enc_records records) in *.
  change (payloads (r :: records)) with (r.2 ++ payloads records) in Hhand.
  assert (Henc : size_of (enc_record r) = 5 + size_of r.2) by (unfold enc_record; rewrite !size_of_app, size_u16; unfold size_of; simpl; lia).
  rewrite <- app_assoc. rewrite records_loop_record by done. rewrite !size_of_app, Henc in Hsize.
  pose proof (size_of_nonneg (enc_records records)). pose proof (size_of_nonneg r.2). destruct Hr as [Hv Hr].
  rewrite (proj2 (Z.leb_gt _ _)) by lia. rewrite (proj2 (Z.ltb_ge _ _)) by lia. unfold after_record.
  rewrite app_assoc in Hhand. destruct (handshake_length_prefix hs hl r.2 (payloads records) hello Ht Hhand Hb Hmax) as (-> & Ht' & Hd). cbn [bind].
  assert (Htotal : size_of (hs ++ r.2) + size_of (payloads records) = 4 + size_of hello).
  { rewrite <- size_of_app, Hhand. unfold handshake_of. rewrite size_of_cons, size_of_app. unfold u24_bytes. rewrite !size_of_cons. change (size_of []) with 0. lia. }
  destruct records as [|r' records].
  - change (payloads []) with (@nil Z) in *. change (enc_records []) with (@nil Z) in *. rewrite !app_nil_r in *. change (size_of []) with 0 in Htotal.
    rewrite Hd by (pose proof (size_of_nonneg hello); lia).
    rewrite (proj2 (Z.leb_le 0 _)), (proj2 (Z.leb_le _ (size_of (hs ++ r.2)))) by (pose proof (size_of_nonneg hello); lia). cbn [andb].
    rewrite (proj2 (Z.eqb_eq _ _)) by lia. cbn [negb]. rewrite Hhand.
    assert (slice (handshake_of hello) 4 (size_of (handshake_of hello)) = Ret hello) as ->.
    { unfold handshake_of, u24_bytes. cbn [app]. by apply (slice_suffix [1; _; _; _] hello). }
    cbn [bind]. rewrite Hname, String.eqb_refl. cbn [app]. done.
  - assert (Hmore : 0 < size_of (payloads (r' :: records))).
    { apply Forall_cons in Hok as [[_ Hr'] _]. change (payloads (r' :: records)) with (r'.2 ++ payloads records). rewrite size_of_app.
      pose proof (size_of_nonneg (payloads records)). lia. }
    destruct (_ && _) eqn:Hcase.
    { apply andb_true_iff in Hcase as [Hc0%Z.leb_le Hc1%Z.leb_le]. exfalso.
      destruct (decide (4 ≤ size_of (hs ++ r.2))) as [H4|H4]; [rewrite (Hd H4) in Hc1; lia | rewrite declared_small in Hc0 by lia; lia]. }
    rewrite (IH (raw ++ enc_record r) (hs ++ r.2) (declared (hs ++ r.2))); [by rewrite <- app_assoc | done | done | | done |].
    + rewrite !size_of_app, Henc. lia.
    + rewrite <- app_assoc, length_app in Hlen. assert (0 < length (enc_record r))%nat by (simpl; lia). lia.
Qed.

Lemma payloads_bytes records :
  Forall is_byte (enc_records records) → size_of (payloads records) ≤ size_of (enc_records records) ∧ Forall is_byte (payloads records).
Proof.
  induction records as [|r records IH]; intros Hb; [done|].
  change (enc_records (r :: records)) with (enc_record r ++ enc_records records) in *.
  change (payloads (r :: records)) with (r.2 ++ payloads records). apply Forall_app in Hb as [Hr Hb]. destruct (IH Hb) as [IH1 IH2].
  unfold enc_record in *. apply Forall_app in Hr as [_ [_ Hr]%Forall_app]. rewrite !size_of_app, size_u16. split; [|by apply Forall_app].
  unfold size_of in *. simpl. lia.
Qed.

End Meaning.

(** ** Theorems *)

Section Theorems.
Context `{GoText}.

Lemma read_total connection domain : Forall is_byte connection →
  ∃ p, readValidatedClientHello connection domain = Ret p ∨ ∃ message, readValidatedClientHello connection domain = Fail message.
Proof.
  intros Hc. unfold readValidatedClientHello. destruct (negb _); [exists ([], []); eauto|].
  assert (Ht : tracked [] (-1)) by (split; [done | intros Hlt; by compute in Hlt]).
  pose proof (records_loop_sound (S (length connection)) domain connection [] [] (-1) Hc ltac:(constructor) Ht ltac:(lia)) as Hs.
  destruct (records_loop _ _ _ _ _ _) as [p|message| |]; try done; [exists p | exists ([], [])]; eauto.
Qed.

Lemma ReadFull_more pre tail n message : n ≤ size_of pre →
  ReadFull (pre ++ tail) n message = let! p := ReadFull pre n message in Ret (p.1, p.2 ++ tail).
Proof.
  intros Hn. unfold ReadFull. rewrite size_of_app. pose proof (size_of_nonneg tail). rewrite !(proj2 (Z.ltb_ge _ _)) by lia. cbn [bind fst snd].
  unfold size_of in Hn. rewrite take_app_le, drop_app_le by lia. done.
Qed.

(** The loop with more behind the connection. *)
Definition with_rest (tail : list Z) (o : outcome (list Z * list Z)) : outcome (list Z * list Z) :=
  let! p := o in Ret (p.1, p.2 ++ tail).

Lemma ReadFull_size pre n message p : 0 ≤ n → ReadFull pre n message = Ret p → size_of p.1 = n ∧ size_of p.2 = size_of pre - n.
Proof.
  unfold ReadFull. intros Hn. destruct (Z.ltb_spec (size_of pre) n); [done|]. intros [= <-]. cbn [fst snd].
  unfold size_of in *. rewrite length_take, length_drop. lia.
Qed.

(** Once the limit and four bytes more are there the loop reads no further: a header is
    begun below the limit, and a payload is within it. *)
Lemma records_loop_bounded fuel domain pre tail raw hs hl :
  Forall is_byte pre → maxClientHelloBytes + 4 ≤ size_of raw + size_of pre →
  records_loop fuel domain (pre ++ tail) raw hs hl = with_rest tail (records_loop fuel domain pre raw hs hl).
Proof.
  revert pre raw hs hl. induction fuel as [|fuel IH]; intros pre raw hs hl Hb Hsize; [done|]. cbn [records_loop].
  destruct (Z.leb_spec maxClientHelloBytes (size_of raw)) as [|Hraw]; [done|]. rewrite ReadFull_more by lia.
  destruct (ReadFull pre 5 _) as [[header pre1]| | |] eqn:Eh; [|done..]. destruct (ReadFull_size pre 5 _ _ ltac:(lia) Eh) as [Hh Hp1]. cbn [bind fst snd] in *.
  unfold ReadFull in Eh. destruct (_ <? _) in Eh; [done|]. injection Eh as Eh1 Eh2.
  assert (Hbytes : Forall is_byte header ∧ Forall is_byte pre1) by (subst; split; [by apply Forall_take|by apply Forall_drop]). clear Eh1 Eh2. destruct Hbytes as [Hhb Hb1].
  destruct (index header 0) as [h0| | |]; [|done..]. cbn [bind]. destruct (index header 1) as [h1| | |]; [|done..]. cbn [bind].
  destruct (index header 2) as [h2| | |]; [|done..]. cbn [bind]. destruct (_ || _ || _); [done|].
  destruct (slice header 3 5) as [lb| | |]; [|done..]. cbn [bind]. destruct (Uint16 lb) as [n| | |]; [|done..]. cbn [bind].
  destruct (_ || _ || _) eqn:Hn; [done|]. apply orb_false_iff in Hn as [_ Hn%Z.ltb_ge]. rewrite ReadFull_more by lia.
  destruct (ReadFull pre1 n _) as [[payload pre2]| | |] eqn:Ep; [|done..]. cbn [bind fst snd].
  destruct (handshake_length hl _) as [hl'| | |]; [|done..]. cbn [bind]. destruct (_ && _).
  - destruct (negb _); [done|]. destruct (slice _ 4 _) as [hello| | |]; [|done..]. cbn [bind]. destruct (clientHelloServerName hello); [|done..]. by destruct (String.eqb _ _).
  - unfold ReadFull in Ep. destruct (Z.ltb_spec (size_of pre1) n) as [|Hle]; [done|]. injection Ep as <- <-. apply IH; [by apply Forall_drop|].
    rewrite !size_of_app. pose proof (take_drop (Z.to_nat n) pre1) as Htd. apply (f_equal size_of) in Htd. rewrite size_of_app in Htd. lia.
Qed.

(** More fuel changes nothing once the loop has ended. *)
Lemma records_loop_fuel more fuel domain connection raw hs hl :
  records_loop fuel domain connection raw hs hl ≠ Stuck →
  records_loop (fuel + more) domain connection raw hs hl = records_loop fuel domain connection raw hs hl.
Proof.
  revert connection raw hs hl. induction fuel as [|fuel IH]; intros connection raw hs hl; [done|]. cbn [records_loop Nat.add].
  destruct (_ <=? _); [done|]. destruct (ReadFull connection 5 _) as [[header rest]| | |]; [|done..]. cbn [bind fst snd].
  destruct (index header 0) as [h0| | |]; [|done..]. cbn [bind]. destruct (index header 1) as [h1| | |]; [|done..]. cbn [bind].
  destruct (index header 2) as [h2| | |]; [|done..]. cbn [bind]. destruct (_ || _ || _); [done|].
  destruct (slice header 3 5) as [lb| | |]; [|done..]. cbn [bind]. destruct (Uint16 lb) as [n| | |]; [|done..]. cbn [bind].
  destruct (_ || _ || _); [done|]. destruct (ReadFull rest n _) as [[payload rest']| | |]; [|done..]. cbn [bind fst snd].
  destruct (handshake_length hl _) as [hl'| | |]; [|done..]. cbn [bind]. destruct (_ && _); [done|]. apply IH.
Qed.

Lemma read_bounded first more domain : Forall is_byte first → maxClientHelloBytes + 4 ≤ size_of first →
  readValidatedClientHello (first ++ more) domain = with_rest more (readValidatedClientHello first domain).
Proof.
  intros Hb Hsize. unfold readValidatedClientHello. destruct (negb _); [done|]. rewrite length_app.
  assert (Ht : tracked [] (-1)) by (split; [done | intros Hlt; by compute in Hlt]).
  pose proof (records_loop_sound (S (length first)) domain first [] [] (-1) Hb ltac:(constructor) Ht ltac:(lia)) as Hs.
  change (S (length first + length more)) with (S (length first) + length more)%nat.
  rewrite records_loop_bounded by (change (size_of []) with 0; auto with lia). f_equal. apply records_loop_fuel. intros E. by rewrite E in Hs.
Qed.

(** C39: The parser is safe on untrusted bytes.  On any bytes [clientHelloServerName]
    returns a name or an error: no slice or index is out of range and both loops
    end; likewise [readValidatedClientHello] on any connection.  It reads no more than
    the limit of 64 KiB and four bytes: what it returns is decided by that much of the
    connection, and everything behind is left unread; what it accepts is within the limit. *)
Theorem hello_parser_total hello connection domain :
  Forall is_byte hello → Forall is_byte connection →
  (∃ name, clientHelloServerName hello = Ret name ∨ ∃ message, clientHelloServerName hello = Fail message) ∧
  (∃ p, readValidatedClientHello connection domain = Ret p ∨ ∃ message, readValidatedClientHello connection domain = Fail message) ∧
  (∀ first more, connection = first ++ more → maxClientHelloBytes + 4 ≤ size_of first →
     readValidatedClientHello connection domain = let! p := readValidatedClientHello first domain in Ret (p.1, p.2 ++ more)) ∧
  (∀ raw rest, readValidatedClientHello connection domain = Ret (raw, rest) → connection = raw ++ rest ∧ size_of raw ≤ maxClientHelloBytes).
Proof.
  intros Hh Hc. split_and!.
  - pose proof (hello_sound hello Hh) as Hs. destruct (clientHelloServerName hello) as [name|message| |]; try done; [exists name | exists ""]; eauto.
  - by apply read_total.
  - intros first more -> Hsize. apply Forall_app in Hc as [Hc _]. by apply read_bounded.
  - intros raw rest. unfold readValidatedClientHello. destruct (negb _); [done|]. assert (Ht : tracked [] (-1)) by (split; [done | intros Hlt; by compute in Hlt]).
    intros E. pose proof (records_loop_sound (S (length connection)) domain connection [] [] (-1) Hc ltac:(constructor) Ht ltac:(lia)) as Hs.
    rewrite E in Hs. by destruct Hs as (records & message & _ & -> & -> & Hsize & _).
Qed.

(** The server name is read exactly.  [clientHelloServerName] returns a name
    precisely for the well-formed encodings of a ClientHello, with nothing left
    over, whose extensions carry that name: in a server name extension, as the one
    entry of type host_name, a valid lower case host name. *)
Theorem server_name_exact hello name :
  Forall is_byte hello →
  clientHelloServerName hello = Ret name ↔ ∃ h, hello_ok h ∧ hello = encode h ∧ sni "" (hf_extensions h) name.
Proof.
  intros Hb. split.
  - intros E. pose proof (hello_sound hello Hb) as Hs. by rewrite E in Hs.
  - intros (h & Hok & -> & Hsni). by apply hello_complete.
Qed.

(** A tunnel forwards exactly the ClientHello that was checked.
    [readValidatedClientHello] accepts a connection and splits it into [raw] and
    [rest] precisely when [raw] is, within the limit, a sequence of handshake
    records whose payloads are together one ClientHello message that names the
    expected domain; the records may fragment the message anywhere.  The message is
    the well-formed encoding of a ClientHello, with nothing left over, whose
    extensions carry the domain: in a server name extension, as the one entry of
    type host_name, a valid lower case host name. *)
Theorem tunnel_start_exact connection domain raw rest :
  Forall is_byte connection → validHostname domain = true →
  readValidatedClientHello connection domain = Ret (raw, rest) ↔
  connection = raw ++ rest ∧ size_of raw ≤ maxClientHelloBytes ∧
  ∃ records h, Forall record_ok records ∧ raw = enc_records records ∧ payloads records = handshake_of (encode h) ∧
    hello_ok h ∧ sni "" (hf_extensions h) domain.
Proof.
  intros Hb Hdomain. unfold readValidatedClientHello. rewrite Hdomain. cbn [negb].
  assert (Ht : tracked [] (-1)) by (split; [done | intros Hlt; by compute in Hlt]). split.
  - intros E. pose proof (records_loop_sound (S (length connection)) domain connection [] [] (-1) Hb ltac:(constructor) Ht ltac:(lia)) as Hs.
    rewrite E in Hs. destruct Hs as (records & hello & Hok & -> & -> & Hsize & Hhand & Hname). split_and!; [done | done |].
    apply Forall_app in Hb as [Hb _]. destruct (payloads_bytes records Hb) as [_ Hpb]. cbn [app] in Hhand. rewrite Hhand in Hpb.
    apply Forall_cons in Hpb as [_ [_ Hpb]%Forall_app]. pose proof (hello_sound hello Hpb) as Hs. rewrite Hname in Hs.
    destruct Hs as (h & Hh & -> & Hsni). by exists records, h.
  - intros (-> & Hsize & records & h & Hok & -> & Hhand & Hh & Hsni). apply Forall_app in Hb as [Hb _].
    pose proof (hello_complete h domain Hh Hsni) as Hname. set (hello := encode h) in *.
    pose proof (payloads_bytes records Hb) as Hpayload.
    destruct Hpayload as [Hp Hpb]. rewrite Hhand in Hp, Hpb. unfold handshake_of in Hp, Hpb.
    apply Forall_cons in Hpb as [_ [_ Hpb]%Forall_app]. rewrite size_of_cons, size_of_app in Hp. unfold u24_bytes in Hp. rewrite !size_of_cons in Hp. change (size_of []) with 0 in Hp.
    apply (records_loop_complete domain records rest [] [] (-1) hello); try done; [by intros -> | lia | lia].
Qed.

End Theorems.

(** ** Witnesses *)

Definition sample_hello_fields : hello_fields :=
  {| hf_fixed := repeat 3 34; hf_session := []; hf_ciphers := [19; 1]; hf_compression := [0];
     hf_extensions := [(43, [2; 3; 4]); (0, enc_name_list [(0, bytes_of "pypi.org")])] |}.

(** The hello in two records, and the first bytes of what follows. *)
Definition sample_records : list (Z * list Z) :=
  let message := handshake_of (encode sample_hello_fields) in [(1, firstn 3 message); (3, skipn 3 message)].
Definition sample_connection : list Z := enc_records sample_records ++ [23; 3; 3].

Lemma sample_bytes l : forallb (fun b => (0 <=? b) && (b <? 256)) l = true → Forall is_byte l.
Proof. intros Hl. apply Forall_forall. intros b Hb. apply list_elem_of_In in Hb. rewrite forallb_forall in Hl. specialize (Hl b Hb). unfold is_byte. bsimpl. lia. Qed.

Lemma hello_parser_total_witness :
  ∃ name, @clientHelloServerName plain_text (encode sample_hello_fields) = Ret name ∨
    ∃ message, @clientHelloServerName plain_text (encode sample_hello_fields) = Fail message.
Proof.
  apply (@hello_parser_total plain_text (encode sample_hello_fields) sample_connection "pypi.org"); apply sample_bytes; vm_compute; reflexivity.
Defined.

Lemma server_name_exact_witness :
  ∃ h, hello_ok h ∧ encode sample_hello_fields = encode h ∧ @sni plain_text "" (hf_extensions h) "pypi.org".
Proof.
  apply (@server_name_exact plain_text (encode sample_hello_fields) "pypi.org").
  - apply sample_bytes. vm_compute. reflexivity.
  - vm_compute. reflexivity.
Defined.

Lemma tunnel_start_exact_witness :
  sample_connection = enc_records sample_records ++ [23; 3; 3] ∧ size_of (enc_records sample_records) ≤ maxClientHelloBytes.
Proof.
  destruct (proj1 (@tunnel_start_exact plain_text sample_connection "pypi.org" (enc_records sample_records) [23; 3; 3]
              ltac:(apply sample_bytes; vm_compute; reflexivity) ltac:(vm_compute; reflexivity))) as (E & Hsize & _).
  - vm_compute. reflexivity.
  - split; [exact E | exact Hsize].
Defined.

End ClientHello.
