(* ===== verification/CanonicalJSON.v ===== *)
(** * Canonical JSON (internal/canonicaljson)

    Digests and signatures of the platform are over the bytes [Normalize] emits.
    encoding/json is modelled here: the scanner's grammar, the decoding of strings
    and numbers ([UseNumber] keeps a number as its text), and the encoder with HTML
    escaping off.  A Go map is the list of its entries in key order, which is the
    order the encoder writes them in. *)

From S2P Require Import Prelude Text GoStd Storage.
Import GoStd Storage.

Open Scope Z_scope.

Module CanonicalJSON.

(** What [Decode] puts in an [any]. *)
#[warnings="-register-all"]
Inductive json :=
| JNull
| JBool (b : bool)
| JNumber (literal : string)
| JString (s : string)
| JArray (items : list json)
| JObject (entries : list (string * json)).

(** ** Scanning *)

Definition quote : ascii := "034".

Definition is_json_space (c : ascii) : bool :=
  is_char " " c || is_char "009" c || is_char "013" c || is_char "010" c.

Fixpoint span (p : ascii → bool) (s : string) : string * string :=
  match s with
  | "" => ("", "")
  | String c s' => if p c then let '(a, b) := span p s' in (String c a, b) else ("", s)
  end.

Definition skip_space (s : string) : string := (span is_json_space s).2.

Definition scan_integer (s : string) : option (string * string) :=
  match s with
  | String c s' =>
      if is_char "0" c then Some ("0", s')
      else if is_digit c then Some (span is_digit s)
      else None
  | "" => None
  end.

Definition scan_fraction (s : string) : option (string * string) :=
  match s with
  | String c s' =>
      if is_char "." c then
        let '(digits, rest) := span is_digit s' in
        if String.eqb digits "" then None else Some (String c digits, rest)
      else Some ("", s)
  | "" => Some ("", s)
  end.

Definition scan_exponent (s : string) : option (string * string) :=
  match s with
  | String c s' =>
      if is_char "e" c || is_char "E" c then
        let '(sign, s2) := match s' with String d s2 => if is_char "+" d || is_char "-" d then (String d "", s2) else ("", s') | "" => ("", s') end in
        let '(digits, rest) := span is_digit s2 in
        if String.eqb digits "" then None else Some (String c (sign +:+ digits), rest)
      else Some ("", s)
  | "" => Some ("", s)
  end.

(** A number: its text and what follows. *)
Definition scan_number (s : string) : option (string * string) :=
  let '(sign, s1) := match s with String c s' => if is_char "-" c then ("-", s') else ("", s) | "" => ("", s) end in
  match scan_integer s1 with
  | None => None
  | Some (integer, s2) =>
      match scan_fraction s2 with
      | None => None
      | Some (fraction, s3) =>
          match scan_exponent s3 with
          | None => None
          | Some (exponent, s4) => Some (sign +:+ integer +:+ fraction +:+ exponent, s4)
          end
      end
  end.

(** ** Strings *)

(** utf8.EncodeRune *)
Definition encode_rune (r : Z) : string :=
  let tail n := char_of (128 + Z.land (Z.shiftr r (6 * n)) 63) in
  if r <? 128 then String (char_of r) ""
  else if r <? 2048 then String (char_of (192 + Z.shiftr r 6)) (String (tail 0) "")
  else if r <? 65536 then String (char_of (224 + Z.shiftr r 12)) (String (tail 1) (String (tail 0) ""))
  else String (char_of (240 + Z.shiftr r 18)) (String (tail 2) (String (tail 1) (String (tail 0) ""))).

(** U+FFFD *)
Definition replacement : string := Eval vm_compute in encode_rune 65533.

(** How many bytes follow the first one in the well-formed multi-byte rune at the
    start; [None] if there is none (utf8.DecodeRune answers RuneError, 1). *)
Definition rune_tail (s : string) : option nat :=
  match s with
  | String a (String b s2) =>
      if between 194 223 a then if cont b then Some 1%nat else None
      else match s2 with
      | "" => None
      | String c s3 =>
          if between 224 239 a then
            if between (if byte_of a =? 224 then 160 else 128) (if byte_of a =? 237 then 159 else 191) b && cont c then Some 2%nat else None
          else match s3 with
          | "" => None
          | String d _ =>
              if between 240 244 a && between (if byte_of a =? 240 then 144 else 128) (if byte_of a =? 244 then 143 else 191) b && cont c && cont d
              then Some 3%nat else None
          end
      end
  | _ => None
  end.

Definition hex4 (a b c d : ascii) : option Z :=
  match hex_value a, hex_value b, hex_value c, hex_value d with
  | Some a, Some b, Some c, Some d => Some (((a * 16 + b) * 16 + c) * 16 + d)
  | _, _, _, _ => None
  end.

(** The six characters [\uXXXX] at the start, as getu4. *)
Definition getu4 (s : string) : option Z :=
  match s with
  | String b (String u (String h1 (String h2 (String h3 (String h4 _))))) =>
      if is_char "\" b && is_char "u" u then hex4 h1 h2 h3 h4 else None
  | _ => None
  end.

Definition is_surrogate (r : Z) : bool := (55296 <=? r) && (r <? 57344).

(** utf16.DecodeRune, [None] for U+FFFD *)
Definition surrogate_pair (r1 r2 : Z) : option Z :=
  if (55296 <=? r1) && (r1 <? 56320) && (56320 <=? r2) && (r2 <? 57344)
  then Some (Z.lor (Z.shiftl (r1 - 55296) 10) (r2 - 56320) + 65536) else None.

(** What a one-character escape stands for. *)
Definition unescape (e : ascii) : option ascii :=
  if is_char quote e || is_char "\" e || is_char "/" e then Some e
  else if is_char "b" e then Some "008"%char
  else if is_char "f" e then Some "012"%char
  else if is_char "n" e then Some "010"%char
  else if is_char "r" e then Some "013"%char
  else if is_char "t" e then Some "009"%char
  else None.

Definition prepend (a : string) (r : option (string * string)) : option (string * string) :=
  match r with Some (t, rest) => Some (a +:+ t, rest) | None => None end.

(** The characters of a string literal up to its closing quote, decoded; [pending]
    bytes of a rune are still to be copied. *)
Fixpoint scan_chars (pending : nat) (s : string) : option (string * string) :=
  match s with
  | "" => None
  | String a s' =>
      match pending with
      | S p => prepend (String a "") (scan_chars p s')
      | O =>
          if is_char quote a then Some ("", s')
          else if is_char "\" a then
            match s' with
            | "" => None
            | String e s2 =>
                if is_char "u" e then
                  match s2 with
                  | String h1 (String h2 (String h3 (String h4 s3))) =>
                      match hex4 h1 h2 h3 h4 with
                      | None => None
                      | Some r =>
                          if is_surrogate r then
                            match (match getu4 s3 with Some r2 => surrogate_pair r r2 | None => None end), s3 with
                            | Some both, String _ (String _ (String _ (String _ (String _ (String _ s4))))) =>
                                prepend (encode_rune both) (scan_chars 0 s4)
                            | _, _ => prepend replacement (scan_chars 0 s3)
                            end
                          else prepend (encode_rune r) (scan_chars 0 s3)
                      end
                  | _ => None
                  end
                else match unescape e with Some c => prepend (String c "") (scan_chars 0 s2) | None => None end
            end
          else if byte_of a <? 32 then None
          else if is_ascii a then prepend (String a "") (scan_chars 0 s')
          else match rune_tail s with
               | Some n => prepend (String a "") (scan_chars n s')
               | None => prepend replacement (scan_chars 0 s')
               end
      end
  end.

(** ** Values *)

Definition maxNestingDepth : Z := 10000.

(** [m[key] = value] *)
Fixpoint set_entry (key : string) (value : json) (entries : list (string * json)) : list (string * json) :=
  match entries with
  | [] => [(key, value)]
  | (k, v) :: rest =>
      if Compare key k <? 0 then (key, value) :: entries
      else if Compare key k =? 0 then (key, value) :: rest
      else (k, v) :: set_entry key value rest
  end.

Definition scan_word (word : string) (value : json) (s : string) : option (json * string) :=
  if HasPrefix s word then Some (value, str_drop (String.length word) s) else None.

(** One value; [depth] arrays and objects are open around it. *)
Fixpoint scan_value (fuel : nat) (depth : Z) (s : string) : option (json * string) :=
  match fuel with
  | O => None
  | S fuel' =>
      let s := skip_space s in
      match s with
      | "" => None
      | String c s' =>
          if is_char quote c then match scan_chars 0 s' with Some (t, rest) => Some (JString t, rest) | None => None end
          else if is_char "[" c then
            if maxNestingDepth <? depth + 1 then None
            else match skip_space s' with
            | String d rest =>
                if is_char "]" d then Some (JArray [], rest)
                else match scan_items fuel' (depth + 1) s' with Some (items, rest) => Some (JArray items, rest) | None => None end
            | "" => None
            end
          else if is_char "{" c then
            if maxNestingDepth <? depth + 1 then None
            else match skip_space s' with
            | String d rest =>
                if is_char "}" d then Some (JObject [], rest)
                else match scan_entries fuel' (depth + 1) [] s' with Some (entries, rest) => Some (JObject entries, rest) | None => None end
            | "" => None
            end
          else if is_char "t" c then scan_word "true" (JBool true) s
          else if is_char "f" c then scan_word "false" (JBool false) s
          else if is_char "n" c then scan_word "null" JNull s
          else match scan_number s with Some (text, rest) => Some (JNumber text, rest) | None => None end
      end
  end
(** The elements of an array, up to the closing bracket. *)
with scan_items (fuel : nat) (depth : Z) (s : string) : option (list json * string) :=
  match fuel with
  | O => None
  | S fuel' =>
      match scan_value fuel' depth s with
      | None => None
      | Some (item, rest) =>
          match skip_space rest with
          | "" => None
          | String c rest =>
              if is_char "]" c then Some ([item], rest)
              else if is_char "," c then match scan_items fuel' depth rest with Some (items, rest) => Some (item :: items, rest) | None => None end
              else None
          end
      end
  end
(** The entries of an object, up to the closing brace, stored into a map. *)
with scan_entries (fuel : nat) (depth : Z) (entries : list (string * json)) (s : string) : option (list (string * json) * string) :=
  match fuel with
  | O => None
  | S fuel' =>
      match skip_space s with
      | "" => None
      | String q s' =>
          if negb (is_char quote q) then None
          else match scan_chars 0 s' with
          | None => None
          | Some (key, rest) =>
              match skip_space rest with
              | "" => None
              | String c rest =>
                  if negb (is_char ":" c) then None
                  else match scan_value fuel' depth rest with
                  | None => None
                  | Some (value, rest) =>
                      let entries := set_entry key value entries in
                      match skip_space rest with
                      | "" => None
                      | String c rest =>
                          if is_char "}" c then Some (entries, rest)
                          else if is_char "," c then scan_entries fuel' depth entries rest
                          else None
                      end
                  end
              end
          end
      end
  end.

(** Every two turns read a character. *)
Definition scan_fuel (s : string) : nat := 2 * String.length s + 2.

(** [decoder.Decode(&value)] *)
Definition Decode (s : string) : option (json * string) := scan_value (scan_fuel s) 0 s.

(** ** Encoding *)

Definition hex_escape (a : ascii) : string := "\u00" +:+ hexpad 2 (byte_of a).

(** How the encoder writes an ASCII character. *)
Definition escape (a : ascii) : string :=
  if is_char "\" a || is_char quote a then String "\" (String a "")
  else if is_char "008" a then "\b"
  else if is_char "012" a then "\f"
  else if is_char "010" a then "\n"
  else if is_char "013" a then "\r"
  else if is_char "009" a then "\t"
  else if byte_of a <? 32 then hex_escape a
  else String a "".

Definition is_line_separator (a b c : ascii) : bool := (byte_of a =? 226) && (byte_of b =? 128) && ((byte_of c =? 168) || (byte_of c =? 169)).

(** The encoder's characters; [pending] bytes of a rune are still to be copied. *)
Fixpoint emit_chars (pending : nat) (s : string) : string :=
  match s with
  | "" => ""
  | String a s' =>
      match pending with
      | S p => String a (emit_chars p s')
      | O =>
          if is_ascii a then escape a +:+ emit_chars 0 s'
          else match rune_tail s with
          | None => "\ufffd" +:+ emit_chars 0 s'
          | Some n =>
              match s' with
              | String b (String c s3) =>
                  if is_line_separator a b c then "\u202" +:+ String (hex_digit (Z.land (byte_of c) 15)) (emit_chars 0 s3)
                  else String a (emit_chars n s')
              | _ => String a (emit_chars n s')
              end
          end
      end
  end.

Definition emit_string (s : string) : string := String quote (emit_chars 0 s +:+ String quote "").

Fixpoint emit (v : json) : string :=
  match v with
  | JNull => "null"
  | JBool true => "true"
  | JBool false => "false"
  | JNumber literal => literal
  | JString s => emit_string s
  | JArray items => "[" +:+ Join "," (map emit items) +:+ "]"
  | JObject entries => "{" +:+ Join "," (map (fun kv => emit_string kv.1 +:+ ":" +:+ emit kv.2) entries) +:+ "}"
  end.

(** ** The package *)

Definition ErrTrailingData : error := Error "canonicaljson.ErrTrailingData" "canonical JSON input contains trailing data".

(** The literals of a decoded value are valid numbers, so encoding it does not
    fail. *)
Definition Normalize (raw : string) : result string :=
  match Decode raw with
  | None => Err (Error "" "decode canonical JSON")
  | Some (value, rest) =>
      if String.eqb (skip_space rest) "" then Ok (emit value)
      else match Decode rest with
      | Some _ => Err ErrTrailingData
      | None => Err (Error "" "decode canonical JSON trailing data")
      end
  end.

(** ** Lemmas on scanning *)

Definition starts (p : ascii → bool) (s : string) : bool := match s with String c _ => p c | "" => false end.

Lemma span_spec p s a b : span p s = (a, b) → s = a +:+ b ∧ str_forall p a = true ∧ starts p b = false.
Proof.
  revert a b. induction s as [|c s IH]; simpl; intros a b E; [by simplify_eq|].
  destruct (p c) eqn:Hc; [|by simplify_eq]. destruct (span p s) as [a' b']. simplify_eq. destruct (IH _ _ eq_refl) as (-> & Hf & Hs).
  simpl. by rewrite Hc.
Qed.

Lemma span_app p a b : str_forall p a = true → starts p b = false → span p (a +:+ b) = (a, b).
Proof.
  induction a as [|c a IH]; simpl; intros Ha Hb.
  - destruct b as [|c b]; [done|]. simpl in *. by rewrite Hb.
  - bsimpl. by rewrite H, IH.
Qed.

Lemma skip_space_length s : (String.length (skip_space s) ≤ String.length s)%nat.
Proof.
  unfold skip_space. destruct (span _ s) as [a b] eqn:E. apply span_spec in E as (-> & _). rewrite str_length_app. simpl. lia.
Qed.

Lemma skip_space_start s : starts is_json_space s = false → skip_space s = s.
Proof. intros Hs. unfold skip_space. change s with ("" +:+ s) at 1. by rewrite span_app. Qed.

Lemma starts_app p a b : starts p (a +:+ b) = match a with "" => starts p b | _ => starts p a end.
Proof. by destruct a. Qed.

(** ** Numbers *)

Definition number_char (c : ascii) : bool := is_digit c || is_char "." c || is_char "e" c || is_char "E" c.

Lemma starts_impl (p q : ascii → bool) s : (∀ c, p c = true → q c = true) → starts q s = false → starts p s = false.
Proof. destruct s as [|c s]; simpl; [done|]. intros Hpq Hq. destruct (p c) eqn:E; [|done]. by rewrite (Hpq _ E) in Hq. Qed.

Lemma scan_integer_spec s a b : scan_integer s = Some (a, b) →
  s = a +:+ b ∧ starts is_digit a = true ∧ ∀ b', starts is_digit b' = false → scan_integer (a +:+ b') = Some (a, b').
Proof.
  destruct s as [|c s]; [done|]. simpl. destruct (is_char "0" c) eqn:H0.
  { intros [= <- <-]. unfold is_char in H0. apply Ascii.eqb_eq in H0 as ->. split; [done|]. split; [done|]. by intros [|]. }
  destruct (is_digit c) eqn:Hd; [|done]. destruct (span is_digit s) as [x y] eqn:E. intros [= <- <-].
  apply span_spec in E as (-> & Hf & _). split; [done|]. split; [by simpl|].
  intros b' Hb. simpl. by rewrite H0, Hd, span_app.
Qed.

Lemma scan_fraction_spec s a b : scan_fraction s = Some (a, b) →
  s = a +:+ b ∧ (a = "" ∨ starts (is_char ".") a = true) ∧
  ∀ b', starts is_digit b' = false → starts (is_char ".") b' = false → scan_fraction (a +:+ b') = Some (a, b').
Proof.
  assert (∀ b', starts (is_char ".") b' = false → scan_fraction b' = Some ("", b')) as Hnone.
  { intros [|c b'] Hb; simpl in *; [done|]. by rewrite Hb. }
  destruct s as [|c s]; simpl; [intros; simplify_eq; split_and!; auto|].
  destruct (is_char "." c) eqn:Hc; [|intros; simplify_eq; split_and!; auto].
  destruct (span is_digit s) as [x y] eqn:E. destruct (String.eqb x "") eqn:Hx; [done|]. intros [= <- <-].
  apply span_spec in E as (-> & Hf & _). split_and!; [done|by right|]. intros b' Hb _. simpl. by rewrite Hc, span_app, Hx.
Qed.

Definition is_exponent (c : ascii) : bool := is_char "e" c || is_char "E" c.

Lemma scan_exponent_spec s a b : scan_exponent s = Some (a, b) →
  s = a +:+ b ∧ (a = "" ∨ starts is_exponent a = true) ∧
  ∀ b', starts is_digit b' = false → starts is_exponent b' = false → scan_exponent (a +:+ b') = Some (a, b').
Proof.
  assert (∀ b', starts is_exponent b' = false → scan_exponent b' = Some ("", b')) as Hnone.
  { intros [|c b'] Hb; simpl in *; [done|]. unfold is_exponent in Hb. by rewrite Hb. }
  destruct s as [|c s]; simpl; [intros; simplify_eq; split_and!; auto|].
  destruct (is_char "e" c || is_char "E" c) eqn:Hc; [|intros; simplify_eq; split_and!; auto].
  set (q := match s with String d s2 => if is_char "+" d || is_char "-" d then (String d "", s2) else ("", s) | "" => ("", s) end).
  destruct q as [sign s2] eqn:Hq. destruct (span is_digit s2) as [x y] eqn:E.
  destruct (String.eqb x "") eqn:Hx; [done|]. intros [= <- <-]. apply span_spec in E as (-> & Hf & _).
  destruct x as [|d x]; [done|]. simpl in Hf. apply andb_true_iff in Hf as [Hd Hf].
  assert (is_char "+" d || is_char "-" d = false) as Hsign.
  { destruct (is_char "+" d) eqn:E1; [apply Ascii.eqb_eq in E1; by subst|]. destruct (is_char "-" d) eqn:E2; [apply Ascii.eqb_eq in E2; by subst|done]. }
  unfold q in Hq. destruct s as [|d' s']; [by simplify_eq|]. destruct (is_char "+" d' || is_char "-" d') eqn:Hd'; simplify_eq.
  - split_and!; [done|right; done|]. intros b' Hb _. simpl. rewrite Hc, Hd'. cbn [span]. by rewrite Hd, span_app.
  - rewrite H0. split_and!; [done|right; done|]. intros b' Hb _. simpl. rewrite Hc, Hsign. cbn [span]. by rewrite Hd, span_app.
Qed.

(** A number is read back when no character that could continue it follows. *)
Lemma scan_number_spec s t r : scan_number s = Some (t, r) →
  s = t +:+ r ∧ starts (fun c => is_digit c || is_char "-" c) t = true ∧
  ∀ r', starts number_char r' = false → scan_number (t +:+ r') = Some (t, r').
Proof.
  unfold scan_number. set (q := match s with String c s' => if is_char "-" c then ("-", s') else ("", s) | "" => ("", s) end).
  destruct q as [sign s1] eqn:Hq. destruct (scan_integer s1) as [[i s2]|] eqn:Hi; [|done].
  destruct (scan_fraction s2) as [[f s3]|] eqn:Hf; [|done]. destruct (scan_exponent s3) as [[e s4]|] eqn:He; [|done].
  intros [= <- <-]. apply scan_integer_spec in Hi as (-> & Hi0 & Hi). apply scan_fraction_spec in Hf as (-> & Hf0 & Hf).
  apply scan_exponent_spec in He as (-> & He0 & He). rewrite !str_app_assoc.
  assert (s = sign +:+ (i +:+ f +:+ e +:+ s4) ∧ (sign = "-" ∨ sign = "")) as [Hs Hsign].
  { unfold q in Hq. destruct s as [|c s]; [simplify_eq; auto|]. destruct (is_char "-" c) eqn:Hc; [|simplify_eq; auto].
    apply Ascii.eqb_eq in Hc as ->. simplify_eq. auto. }
  split; [done|]. split.
  { destruct Hsign as [-> | ->]; [done|]. simpl. destruct i as [|c i]; [done|]. simpl in *. by rewrite Hi0. }
  intros r' Hr. rewrite !str_app_assoc.
  assert (starts is_digit r' = false ∧ starts (is_char ".") r' = false ∧ starts is_exponent r' = false) as (R1 & R2 & R3).
  { split_and!; (eapply starts_impl; [|exact Hr]); intros c Hc; unfold number_char; unfold is_exponent in *; rewrite ?Hc, ?orb_true_r; try done.
    destruct (is_char "e" c), (is_char "E" c); try done; by rewrite ?orb_true_r. }
  assert (starts is_digit (e +:+ r') = false ∧ starts (is_char ".") (e +:+ r') = false) as [E1 E2].
  { rewrite !starts_app. destruct e as [|c e]; [done|]. destruct He0 as [|He0]; [done|]. simpl in *. unfold is_exponent in He0.
    apply orb_true_iff in He0 as [He0|He0]; apply Ascii.eqb_eq in He0 as ->; done. }
  assert (starts is_digit (f +:+ e +:+ r') = false) as F1.
  { rewrite starts_app. destruct f as [|c f]; [done|]. destruct Hf0 as [|Hf0]; [done|]. simpl in *. by apply Ascii.eqb_eq in Hf0 as ->. }
  assert (match sign +:+ i +:+ f +:+ e +:+ r' with String c s' => if is_char "-" c then ("-", s') else ("", sign +:+ i +:+ f +:+ e +:+ r') | "" => ("", sign +:+ i +:+ f +:+ e +:+ r') end
    = (sign, i +:+ f +:+ e +:+ r')) as ->.
  { destruct Hsign as [-> | ->]; [done|]. simpl. destruct i as [|c i]; [done|]. simpl in *.
    destruct (is_char "-" c) eqn:Hc; [|done]. apply Ascii.eqb_eq in Hc; by subst. }
  by rewrite Hi, Hf, He.
Qed.

(** ** Strings *)

(** A well-formed UTF-8 text. *)
Inductive clean : string → Prop :=
| clean_nil : clean ""
| clean_ascii a s : is_ascii a = true → clean s → clean (String a s)
| clean_rune a r s : is_ascii a = false → rune_tail (String a r) = Some (String.length r) → clean s → clean (String a (r +:+ s)).

(** The bytes after the first of a rune, and that it is recognised whatever follows. *)
Lemma rune_tail_split a s n : rune_tail (String a s) = Some n →
  is_ascii a = false ∧ ∃ r s', s = r +:+ s' ∧ String.length r = n ∧ ∀ s'', rune_tail (String a (r +:+ s'')) = Some n.
Proof.
  intros Hr.
  assert (is_ascii a = false) as ->.
  { unfold is_ascii. destruct s as [|b [|c [|d s]]]; simpl in Hr; [done|..]; unfold between in Hr;
      repeat match type of Hr with context [if ?x then _ else _] => destruct x eqn:?; try done end; bsimpl; lia. }
  split; [done|].
  destruct s as [|b s]; [done|]. simpl in Hr. destruct (between 194 223 a) eqn:H1.
  { destruct (cont b) eqn:Hb; simplify_eq. exists (String b ""), s. split_and!; [done..|]. intros s''. simpl. by rewrite H1, Hb. }
  destruct s as [|c s]; [done|]. destruct (between 224 239 a) eqn:H2.
  { destruct (between _ _ b && cont c) eqn:Hb; simplify_eq. exists (String b (String c "")), s.
    split_and!; [done..|]. intros s''. simpl. by rewrite H1, H2, Hb. }
  destruct s as [|d s]; [done|]. destruct (between 240 244 a && _ && cont c && cont d) eqn:Hb; simplify_eq.
  exists (String b (String c (String d ""))), s. split_and!; [done..|]. intros s''. simpl. by rewrite H1, H2, Hb.
Qed.

Lemma clean_head a r s : rune_tail (String a r) = Some (String.length r) → rune_tail (String a (r +:+ s)) = Some (String.length r).
Proof.
  intros Hr. destruct (rune_tail_split _ _ _ Hr) as (_ & r' & s' & -> & Hl & Hp).
  assert (s' = "") as -> by (rewrite str_length_app in Hl; destruct s'; [done|simpl in Hl; lia]).
  rewrite str_app_nil_r in *. apply Hp.
Qed.

Lemma scan_chars_pending r s : scan_chars (String.length r) (r +:+ s) = prepend r (scan_chars 0 s).
Proof.
  induction r as [|a r IH]; simpl.
  - destruct (scan_chars 0 s) as [[]|]; done.
  - rewrite IH. by destruct (scan_chars 0 s) as [[]|].
Qed.

Lemma emit_chars_pending r s : emit_chars (String.length r) (r +:+ s) = r +:+ emit_chars 0 s.
Proof. induction r as [|a r IH]; simpl; [done|]. by rewrite IH. Qed.

Lemma clean_app a b : clean a → clean b → clean (a +:+ b).
Proof. induction 1; intros Hb; simpl; rewrite ?str_app_assoc; [done|apply clean_ascii; auto|apply clean_rune; auto]. Qed.

Lemma encode_rune_clean r : 0 ≤ r < 1114112 → is_surrogate r = false → clean (encode_rune r).
Proof.
  intros Hr Hs. unfold is_surrogate in Hs. apply andb_false_iff in Hs.
  assert (55296 > r ∨ 57344 ≤ r) as Hsur by (destruct Hs as [Hs|Hs]; bsimpl; lia). clear Hs.
  unfold encode_rune. change 63 with (Z.ones 6). rewrite !Z.land_ones, !Z.shiftr_div_pow2 by lia. cbn [Z.mul].
  change (2 ^ (6 * 0)) with 1. change (2 ^ (6 * 1)) with 64. change (2 ^ (6 * 2)) with 4096. change (2 ^ 6) with 64.
  change (2 ^ 12) with 4096. change (2 ^ 18) with 262144. rewrite Z.div_1_r.
  assert (∀ z, 128 ≤ z < 256 → is_ascii (char_of z) = false) as Hhigh.
  { intros z Hz. unfold is_ascii. rewrite byte_of_char_of; lia. }
  pose proof (Z.mod_pos_bound r 64 ltac:(lia)). pose proof (Z.mod_pos_bound (r / 64) 64 ltac:(lia)).
  pose proof (Z.mod_pos_bound (r / 4096) 64 ltac:(lia)).
  assert (r / 64 / 64 = r / 4096 ∧ r / 4096 / 64 = r / 262144) as [E1 E2] by (rewrite !Z.div_div by lia; done).
  pose proof (Z.div_mod r 64 ltac:(lia)). pose proof (Z.div_mod (r / 64) 64 ltac:(lia)). pose proof (Z.div_mod (r / 4096) 64 ltac:(lia)).
  destruct (Z.ltb_spec r 128).
  { constructor; [|constructor]. unfold is_ascii. rewrite byte_of_char_of by lia. lia. }
  destruct (Z.ltb_spec r 2048); [|destruct (Z.ltb_spec r 65536)];
    (match goal with |- clean (String ?a ?r) => rewrite <- (str_app_nil_r r) end; apply clean_rune; [apply Hhigh; lia| |constructor]);
    cbn [rune_tail String.length]; unfold between, cont; rewrite !byte_of_char_of by lia.
  all: repeat match goal with |- context [if ?b then _ else _] => lazymatch b with context [if _ then _ else _] => fail | _ => destruct b eqn:?; bsimpl; try lia end end; done.
Qed.

Lemma hex4_range a b c d r : hex4 a b c d = Some r → 0 ≤ r < 65536.
Proof.
  unfold hex4. intros Hh. destruct (hex_value a) eqn:Ha, (hex_value b) eqn:Hb, (hex_value c) eqn:Hc, (hex_value d) eqn:Hd; try done.
  simplify_eq. apply hex_value_range in Ha, Hb, Hc, Hd. lia.
Qed.

Lemma surrogate_pair_clean r1 r2 r : surrogate_pair r1 r2 = Some r → clean (encode_rune r).
Proof.
  unfold surrogate_pair. intros Hp. destruct (_ && _) eqn:Hc; [|done]. simplify_eq. bsimpl.
  set (x := Z.shiftl (r1 - 55296) 10). set (y := r2 - 56320).
  assert (0 ≤ x < 2 ^ 20) as Hx by (unfold x; rewrite Z.shiftl_mul_pow2 by lia; lia). assert (0 ≤ y < 2 ^ 20) as Hy by (unfold y; lia).
  assert (0 ≤ Z.lor x y < 2 ^ 20) as Hl.
  { split; [apply Z.lor_nonneg; lia|]. destruct (Z.eq_dec (Z.lor x y) 0) as [->|N]; [lia|].
    assert (0 ≤ Z.lor x y) by (apply Z.lor_nonneg; lia). apply Z.log2_lt_pow2; [lia|]. rewrite Z.log2_lor by lia.
    assert (∀ z, 0 ≤ z < 2 ^ 20 → Z.log2 z < 20) as Hlog.
    { intros z Hz. destruct (Z.eq_dec z 0) as [->|]; [done|]. apply Z.log2_lt_pow2; lia. }
    apply Z.max_lub_lt; by apply Hlog. }
  apply encode_rune_clean; [lia|]. unfold is_surrogate. apply andb_false_iff. right. lia.
Qed.

Lemma prepend_Some a r t rest : prepend a r = Some (t, rest) → ∃ t', r = Some (t', rest) ∧ t = a +:+ t'.
Proof. destruct r as [[t' rest']|]; simpl; [|done]. intros [= <- <-]. eauto. Qed.

Lemma unescape_ascii e c : unescape e = Some c → is_ascii c = true.
Proof.
  unfold unescape. intros Hu. repeat case_match; simplify_eq; try done. bsimpl.
  unfold is_char in *. rewrite !Ascii.eqb_eq in *. destruct H as [[->| ->]| ->]; done.
Qed.

(** A string literal is decoded to a well-formed text, and is read up to a point
    strictly after its start. *)
Lemma scan_chars_spec n s t rest : (String.length s ≤ n)%nat → scan_chars 0 s = Some (t, rest) →
  clean t ∧ (String.length rest < String.length s)%nat.
Proof.
  revert s t rest. induction n as [|n IH]; intros [|a s'] t rest Hn Hs; simpl in Hn; [done|lia|done|].
  cbn [scan_chars] in Hs. destruct (is_char quote a).
  { simplify_eq. split; [constructor|simpl; lia]. }
  assert (∀ s2 x, (String.length s2 ≤ String.length s')%nat → clean x → prepend x (scan_chars 0 s2) = Some (t, rest) →
    clean t ∧ (String.length rest < String.length (String a s'))%nat) as Hgo.
  { intros s2 x Hl Hx (t' & E & ->)%prepend_Some. apply IH in E as [E1 E2]; [|lia]. split; [by apply clean_app|simpl; lia]. }
  assert (∀ c, is_ascii c = true → clean (String c "")) as Hone by (intros; apply clean_ascii; [done|constructor]).
  assert (clean replacement) as Hrep by (change replacement with (encode_rune 65533); by apply encode_rune_clean).
  destruct (is_char "\" a).
  { destruct s' as [|e s2]; [done|]. simpl in Hgo, Hn |- *. destruct (is_char "u" e).
    - destruct s2 as [|h1 [|h2 [|h3 [|h4 s3]]]]; try done. destruct (hex4 h1 h2 h3 h4) as [r|] eqn:Hh; [|done]. apply hex4_range in Hh.
      destruct (is_surrogate r) eqn:Hsur.
      + destruct (match getu4 s3 with Some r2 => surrogate_pair r r2 | None => None end) as [both|] eqn:Hp.
        * destruct (getu4 s3) as [r2|]; [|done]. destruct s3 as [|? [|? [|? [|? [|? [|? s4]]]]]]; eapply Hgo; try exact Hs; try done; simpl; try lia.
          by eapply surrogate_pair_clean.
        * eapply Hgo; [| |exact Hs]; [simpl; lia|done].
      + eapply Hgo; [| |exact Hs]; [simpl; lia|]. apply encode_rune_clean; [lia|done].
    - destruct (unescape e) as [c|] eqn:Hu; [|done]. eapply Hgo; [| |exact Hs]; [simpl; lia|]. apply Hone. by eapply unescape_ascii. }
  destruct (byte_of a <? 32); [done|]. destruct (is_ascii a) eqn:Ha.
  { eapply Hgo; [| |exact Hs]; [lia|by apply Hone]. }
  destruct (rune_tail (String a s')) as [k|] eqn:Hr; [|eapply Hgo; [| |exact Hs]; [lia|done]].
  destruct (rune_tail_split _ _ _ Hr) as (_ & r & s2 & -> & <- & Hp). rewrite scan_chars_pending in Hs.
  apply (Hgo s2 (String a r)).
  - rewrite str_length_app. simpl. lia.
  - rewrite <- (str_app_nil_r r). apply clean_rune; [done| |constructor]. specialize (Hp ""). by rewrite str_app_nil_r in Hp.
  - destruct (scan_chars 0 s2) as [[]|]; done.
Qed.

(** What the encoder writes for an ASCII character is decoded to it. *)
Lemma scan_escape a rest : is_ascii a = true → scan_chars 0 (escape a +:+ rest) = prepend (String a "") (scan_chars 0 rest).
Proof. destruct a as [[] [] [] [] [] [] [] []]; try discriminate; intros _; reflexivity. Qed.

Lemma scan_emit_chars s rest : clean s → scan_chars 0 (emit_chars 0 s +:+ String quote rest) = Some (s, rest).
Proof.
  induction 1 as [|a s Ha Hc IH|a r s Ha Hr Hc IH]; [done| |].
  - cbn [emit_chars]. rewrite Ha, str_app_assoc, scan_escape, IH by done. done.
  - pose proof (clean_head a r s Hr) as Hr'. cbn [emit_chars]. rewrite Ha, Hr'.
    assert (scan_chars 0 (String a (r +:+ emit_chars 0 s +:+ String quote rest)) = Some (String a (r +:+ s), rest)) as Hcopy.
    { cbn [scan_chars]. rewrite (clean_head a r _ Hr), scan_chars_pending, IH, Ha. unfold is_ascii in Ha.
      destruct (is_char quote a) eqn:E1; [apply Ascii.eqb_eq in E1; by subst|]. destruct (is_char "\" a) eqn:E2; [apply Ascii.eqb_eq in E2; by subst|].
      destruct (Z.ltb_spec (byte_of a) 32); [bsimpl; lia|]. done. }
    assert (scan_chars 0 (String a (emit_chars (String.length r) (r +:+ s)) +:+ String quote rest) = Some (String a (r +:+ s), rest)) as Hplain.
    { rewrite emit_chars_pending. simpl. by rewrite str_app_assoc. }
    destruct (r +:+ s) as [|b [|c s3]] eqn:Ers; [done..|]. destruct (is_line_separator a b c) eqn:Hl; [|done].
    unfold is_line_separator in Hl. apply andb_true_iff in Hl as [[Ea Eb]%andb_true_iff Ec]. bsimpl.
    assert (a = "226"%char ∧ b = "128"%char) as [-> ->] by (split; by apply byte_of_inj).
    assert (c = "168"%char ∨ c = "169"%char) as Hcs by (destruct Ec; [left|right]; by apply byte_of_inj).
    assert (r = String "128" (String c "") ∧ s3 = s) as [-> ->].
    { assert (String.length r = 2%nat) as Hlen by (destruct Hcs; subst c; simpl in Hr'; congruence).
      destruct r as [|r1 [|r2 [|]]]; simpl in Hlen; try lia. simpl in Ers. by simplify_eq. }
    destruct Hcs; subst c; 
      [exact (f_equal (prepend (encode_rune 8232)) IH)|exact (f_equal (prepend (encode_rune 8233)) IH)].
Qed.

(** ** Fuel *)

(** Follow a scan that succeeds through its tests. *)
Ltac scan_step H :=
  match type of H with
  | context [match ?x with _ => _ end] =>
      lazymatch x with
      | context [match _ with _ => _ end] => fail
      | _ => destruct x eqn:?; try discriminate H
      end
  end.

Lemma scan_word_rest word value s v rest : scan_word word value s = Some (v, rest) → word ≠ "" →
  v = value ∧ s = word +:+ rest ∧ (String.length rest < String.length s)%nat.
Proof.
  unfold scan_word. destruct (HasPrefix s word) eqn:Hp; [|done]. apply HasPrefix_spec in Hp as [r ->]. rewrite str_drop_app.
  intros [= <- <-] Hw. split_and!; [done..|]. rewrite str_length_app. destruct word; [done|]. simpl. lia.
Qed.

Lemma scan_number_rest s t rest : scan_number s = Some (t, rest) → (String.length rest < String.length s)%nat.
Proof.
  intros (-> & Ht & _)%scan_number_spec. rewrite str_length_app. destruct t; [done|]. simpl. lia.
Qed.

Lemma scan_chars_rest s t rest : scan_chars 0 s = Some (t, rest) → (String.length rest < String.length s)%nat.
Proof. intros [_ Hl]%(scan_chars_spec (String.length s)); done. Qed.

Lemma skip_space_cons s c rest : skip_space s = String c rest → (String.length rest < String.length s)%nat.
Proof. intros E. pose proof (skip_space_length s). rewrite E in *. simpl in *. lia. Qed.

(** Every scan reads at least one character. *)
Lemma scan_rest fuel :
  (∀ depth s v rest, scan_value fuel depth s = Some (v, rest) → (String.length rest < String.length s)%nat) ∧
  (∀ depth s items rest, scan_items fuel depth s = Some (items, rest) → (String.length rest < String.length s)%nat) ∧
  (∀ depth acc s entries rest, scan_entries fuel depth acc s = Some (entries, rest) → (String.length rest < String.length s)%nat).
Proof.
  induction fuel as [|fuel (IHv & IHi & IHe)]; [done|]. split_and!.
  - intros depth s v rest Hs. cbn [scan_value] in Hs. pose proof (skip_space_length s) as Hk.
    destruct (skip_space s) as [|c s'] eqn:E; [done|]. simpl in Hk.
    repeat scan_step Hs; simplify_eq; repeat match goal with
      | H : scan_chars 0 _ = Some _ |- _ => apply scan_chars_rest in H
      | H : scan_items _ _ _ = Some _ |- _ => apply IHi in H
      | H : scan_entries _ _ _ _ = Some _ |- _ => apply IHe in H
      | H : scan_word _ _ _ = Some _ |- _ => apply scan_word_rest in H as (_ & _ & H); [|done]
      | H : scan_number _ = Some _ |- _ => apply scan_number_rest in H
      | H : skip_space _ = String _ _ |- _ => apply skip_space_cons in H
      end; simpl in *; lia.
  - intros depth s items rest Hs. cbn [scan_items] in Hs.
    repeat scan_step Hs; simplify_eq; repeat match goal with
      | H : scan_value _ _ _ = Some _ |- _ => apply IHv in H
      | H : scan_items _ _ _ = Some _ |- _ => apply IHi in H
      | H : skip_space _ = String _ _ |- _ => apply skip_space_cons in H
      end; simpl in *; lia.
  - intros depth acc s entries rest Hs. cbn [scan_entries] in Hs. cbv zeta in Hs.
    repeat scan_step Hs; simplify_eq; repeat match goal with
      | H : scan_chars 0 _ = Some _ |- _ => apply scan_chars_rest in H
      | H : scan_value _ _ _ = Some _ |- _ => apply IHv in H
      | H : scan_entries _ _ _ _ = Some _ |- _ => apply IHe in H
      | H : skip_space _ = String _ _ |- _ => apply skip_space_cons in H
      end; simpl in *; lia.
Qed.

(** With fuel for every character, more fuel changes nothing. *)
Lemma scan_enough f g :
  (∀ depth s, (2 * String.length s + 2 ≤ f → 2 * String.length s + 2 ≤ g → scan_value f depth s = scan_value g depth s)%nat) ∧
  (∀ depth s, (2 * String.length s + 3 ≤ f → 2 * String.length s + 3 ≤ g → scan_items f depth s = scan_items g depth s)%nat) ∧
  (∀ depth acc s, (2 * String.length s + 3 ≤ f → 2 * String.length s + 3 ≤ g → scan_entries f depth acc s = scan_entries g depth acc s)%nat).
Proof.
  revert g. induction f as [|f IH]; intros g; [split_and!; intros; lia|].
  destruct g as [|g]; [split_and!; intros; lia|]. destruct (IH g) as (IHv & IHi & IHe). split_and!.
  - intros depth s Hf Hg. cbn [scan_value]. pose proof (skip_space_length s) as Hk.
    destruct (skip_space s) as [|c s'] eqn:E; [done|]. simpl in Hk. rewrite (IHi (depth + 1) s'), (IHe (depth + 1) [] s') by lia. done.
  - intros depth s Hf Hg. cbn [scan_items]. rewrite (IHv depth s) by lia.
    destruct (scan_value g depth s) as [[item rest]|] eqn:E; [|done]. apply scan_rest in E.
    destruct (skip_space rest) as [|c rest'] eqn:E'; [done|]. apply skip_space_cons in E'. rewrite (IHi depth rest') by lia. done.
  - intros depth acc s Hf Hg. cbn [scan_entries]. cbv zeta. destruct (skip_space s) as [|q s'] eqn:E; [done|]. apply skip_space_cons in E.
    destruct (negb _); [done|]. destruct (scan_chars 0 s') as [[key r1]|] eqn:E1; [|done]. apply scan_chars_rest in E1.
    destruct (skip_space r1) as [|c r2] eqn:E2; [done|]. apply skip_space_cons in E2. destruct (negb _); [done|].
    rewrite (IHv depth r2) by lia. destruct (scan_value g depth r2) as [[value r3]|] eqn:E3; [|done]. apply scan_rest in E3.
    destruct (skip_space r3) as [|c' r4] eqn:E4; [done|]. apply skip_space_cons in E4. rewrite (IHe depth _ r4) by lia. done.
Qed.

Lemma Decode_fuel n s r : (∀ fuel, (n ≤ fuel)%nat → scan_value fuel 0 s = r) → Decode s = r.
Proof.
  intros Hn. rewrite <- (Hn (n + scan_fuel s)%nat) by lia. unfold Decode. apply scan_enough; unfold scan_fuel; lia.
Qed.

(** ** Decoded values *)

Definition before_key (a b : string * json) : Prop := Compare a.1 b.1 < 0.

(** A value [Decode] can answer below [depth] open brackets. *)
#[warnings="-register-all"]
Inductive normal : Z → json → Prop :=
| normal_null d : normal d JNull
| normal_bool d b : normal d (JBool b)
| normal_number d t : scan_number t = Some (t, "") → normal d (JNumber t)
| normal_string d t : clean t → normal d (JString t)
| normal_array d items : d + 1 ≤ maxNestingDepth → Forall (normal (d + 1)) items → normal d (JArray items)
| normal_object d entries : d + 1 ≤ maxNestingDepth → StronglySorted before_key entries →
    Forall (fun kv => clean kv.1 ∧ normal (d + 1) kv.2) entries → normal d (JObject entries).

Lemma set_entry_spec key value entries :
  Forall (fun kv => kv = (key, value) ∨ kv ∈ entries) (set_entry key value entries) ∧
  (StronglySorted before_key entries → StronglySorted before_key (set_entry key value entries)).
Proof.
  induction entries as [|[k v] entries [IH1 IH2]]; simpl.
  { split; [repeat constructor|]. repeat constructor. }
  assert (∀ rest, Forall (fun kv => kv = (key, value) ∨ kv ∈ entries) rest → Forall (fun kv => kv = (key, value) ∨ kv ∈ (k, v) :: entries) rest) as Hw.
  { intros rest Hr. eapply Forall_impl; [exact Hr|]. intros kv []; set_solver. }
  destruct (Z.ltb_spec (Compare key k) 0); [|destruct (Z.eqb_spec (Compare key k) 0)].
  - split; [apply Forall_forall; set_solver|]. intros Hs. constructor; [done|]. constructor; [done|].
    apply StronglySorted_inv in Hs as [_ Hs]. eapply Forall_impl; [exact Hs|]. unfold before_key. simpl. intros kv Hk.
    pose proof (Compare_trans key k kv.1 ltac:(lia) ltac:(lia)) as Hle. destruct (Z.eq_dec (Compare key kv.1) 0) as [E|]; [|lia].
    apply Compare_0 in E. subst. rewrite Compare_opp in Hk. lia.
  - apply Compare_0 in e as ->. split; [apply Forall_forall; set_solver|]. intros Hs. apply StronglySorted_inv in Hs as [Hs Hf]. by constructor.
  - split; [constructor; [set_solver|by apply Hw]|]. intros Hs. apply StronglySorted_inv in Hs as [Hs Hf]. constructor; [by apply IH2|].
    rewrite Forall_forall in Hf, IH1 |- *. intros kv [->|Hin]%IH1; [|by apply Hf]. unfold before_key. simpl. rewrite Compare_opp. lia.
Qed.

Lemma set_entry_last key value entries : Forall (fun kv => Compare kv.1 key < 0) entries → set_entry key value entries = entries ++ [(key, value)].
Proof.
  induction 1 as [|[k v] entries Hk Hf IH]; simpl in *; [done|]. rewrite Compare_opp in Hk.
  destruct (Z.ltb_spec (Compare key k) 0); [lia|]. destruct (Z.eqb_spec (Compare key k) 0); [lia|]. by rewrite IH.
Qed.

Lemma scan_normal fuel :
  (∀ depth s v rest, scan_value fuel depth s = Some (v, rest) → normal depth v) ∧
  (∀ depth s items rest, scan_items fuel depth s = Some (items, rest) → Forall (normal depth) items) ∧
  (∀ depth acc s entries rest, StronglySorted before_key acc → Forall (fun kv => clean kv.1 ∧ normal depth kv.2) acc →
     scan_entries fuel depth acc s = Some (entries, rest) → StronglySorted before_key entries ∧ Forall (fun kv => clean kv.1 ∧ normal depth kv.2) entries).
Proof.
  induction fuel as [|fuel (IHv & IHi & IHe)]; [done|]. split_and!.
  - intros depth s v rest Hs. cbn [scan_value] in Hs.
    destruct (skip_space s) as [|c s'] eqn:E; [done|].
    repeat scan_step Hs; simplify_eq; bsimpl;
      repeat match goal with H : scan_word _ _ _ = Some _ |- _ => apply scan_word_rest in H as (-> & _ & _); [|done] end.
    + constructor. by eapply (scan_chars_spec (String.length s')).
    + by constructor.
    + constructor; [done|]. by eapply IHi.
    + constructor; [done|constructor..].
    + edestruct IHe as [? ?]; [| |done|]; [constructor..|]. by constructor.
    + constructor.
    + constructor.
    + constructor.
    + constructor. match goal with H : scan_number _ = _ |- _ => apply scan_number_spec in H as (_ & _ & H); specialize (H "" eq_refl) end.
      by rewrite str_app_nil_r in *.
  - intros depth s items rest Hs. cbn [scan_items] in Hs.
    repeat scan_step Hs; simplify_eq; (constructor; [by eapply IHv|]); [constructor|by eapply IHi].
  - intros depth acc s entries rest Ha Hf Hs. cbn [scan_entries] in Hs. cbv zeta in Hs.
    destruct (skip_space s) as [|q s'] eqn:E; [done|]. destruct (negb _); [done|].
    destruct (scan_chars 0 s') as [[key r1]|] eqn:E1; [|done]. destruct (skip_space r1) as [|c r2] eqn:E2; [done|]. destruct (negb _); [done|].
    destruct (scan_value fuel depth r2) as [[value r3]|] eqn:E3; [|done]. apply (scan_chars_spec (String.length s')) in E1 as [E1 _]; [|done].
    apply IHv in E3. destruct (set_entry_spec key value acc) as [Hin Hsort].
    assert (Forall (fun kv => clean kv.1 ∧ normal depth kv.2) (set_entry key value acc)) as Hf'.
    { rewrite Forall_forall in Hf, Hin |- *. intros kv [->|Hkv]%Hin; [done|by apply Hf]. }
    repeat scan_step Hs; simplify_eq; [by auto|]. eapply IHe; [by apply Hsort|done|done].
Qed.

(** ** Reading back what was written *)

Lemma json_nested_ind (P : json → Prop) :
  P JNull → (∀ b, P (JBool b)) → (∀ t, P (JNumber t)) → (∀ t, P (JString t)) →
  (∀ items, Forall P items → P (JArray items)) →
  (∀ entries, Forall (fun kv => P kv.2) entries → P (JObject entries)) → ∀ v, P v.
Proof.
  intros Hnull Hbool Hnum Hstr Harr Hobj. fix IH 1. intros [|b|t|t|items|entries]; [exact Hnull|apply Hbool|apply Hnum|apply Hstr| |].
  - apply Harr. induction items as [|v items IHi]; constructor; [apply IH|exact IHi].
  - apply Hobj. induction entries as [|[k v] entries IHe]; constructor; [apply IH|exact IHe].
Qed.

Definition opening (c : ascii) : bool := is_json_space c || is_char "]" c || is_char "}" c.

Lemma emit_start d v : normal d v → ∃ c r, emit v = String c r ∧ opening c = false.
Proof.
  destruct 1 as [|d b|d t Ht| | |]; simpl.
  - eauto.
  - destruct b; eauto.
  - apply scan_number_spec in Ht as (_ & Ht & _). destruct t as [|c t]; [done|]. simpl in Ht. exists c, t. split; [done|].
    unfold opening. destruct (is_json_space c || is_char "]" c || is_char "}" c) eqn:E; [|done]. exfalso. unfold is_json_space in E.
    repeat apply orb_true_iff in E as [E|E]; apply Ascii.eqb_eq in E; by subst.
  - unfold emit_string. eauto.
  - eauto.
  - eauto.
Qed.

Lemma skip_space_emit d v rest : normal d v → skip_space (emit v +:+ rest) = emit v +:+ rest.
Proof.
  intros (c & r & -> & Hc)%emit_start. apply skip_space_start. simpl. unfold opening in Hc. by bsimpl.
Qed.

Definition reads (v : json) : Prop := ∀ d, normal d v → ∃ n, ∀ fuel rest, (n ≤ fuel)%nat → starts number_char rest = false →
  scan_value fuel d (emit v +:+ rest) = Some (v, rest).

Lemma Join_cons_sep sep p parts : parts ≠ [] → Join sep (p :: parts) = p +:+ sep +:+ Join sep parts.
Proof. by destruct parts. Qed.

Lemma reads_items items d : items ≠ [] → Forall reads items → Forall (normal d) items → ∃ n, ∀ fuel rest, (n ≤ fuel)%nat →
  scan_items fuel d (Join "," (map emit items) +:+ String "]" rest) = Some (items, rest).
Proof.
  intros Hne. induction items as [|v items IH]; [done|]. intros [Hv Hr]%Forall_cons [Nv Hn]%Forall_cons.
  destruct (Hv d Nv) as [n1 H1]. destruct items as [|w items].
  - exists (S n1). intros [|fuel] rest Hf; [lia|]. cbn [map Join scan_items]. by rewrite H1 by (done || lia).
  - destruct IH as [n2 H2]; [done..|]. exists (S (n1 + n2)). intros [|fuel] rest Hf; [lia|].
    change (Join "," (map emit (v :: w :: items))) with (emit v +:+ "," +:+ Join "," (map emit (w :: items))).
    cbn [scan_items]. rewrite !str_app_assoc. rewrite H1 by (done || lia). simpl. by rewrite H2 by lia.
Qed.

Definition emit_entry (kv : string * json) : string := emit_string kv.1 +:+ ":" +:+ emit kv.2.

Lemma scan_entry fuel d acc k v rest n : clean k → normal d v → (n ≤ fuel)%nat → starts number_char rest = false →
  (∀ fuel rest, (n ≤ fuel)%nat → starts number_char rest = false → scan_value fuel d (emit v +:+ rest) = Some (v, rest)) →
  scan_entries (S fuel) d acc (emit_entry (k, v) +:+ rest) =
    match skip_space rest with
    | "" => None
    | String c rest => if is_char "}" c then Some (set_entry k v acc, rest) else if is_char "," c then scan_entries fuel d (set_entry k v acc) rest else None
    end.
Proof.
  intros Hk Hv Hf Hr Hscan. unfold emit_entry, emit_string. simpl. rewrite !str_app_assoc. simpl.
  rewrite scan_emit_chars by done. simpl. by rewrite Hscan.
Qed.

Lemma reads_entries entries d acc : entries ≠ [] → Forall (fun kv => reads kv.2) entries → Forall (fun kv => clean kv.1 ∧ normal d kv.2) entries →
  StronglySorted before_key (acc ++ entries) → ∃ n, ∀ fuel rest, (n ≤ fuel)%nat →
  scan_entries fuel d acc (Join "," (map emit_entry entries) +:+ String "}" rest) = Some (acc ++ entries, rest).
Proof.
  revert acc. induction entries as [|[k v] entries IH]; [done|]. intros acc _ [Hv Hr]%Forall_cons [[Hk Nv] Hn]%Forall_cons Hs.
  destruct (Hv d Nv) as [n1 H1]. cbn [fst snd] in *.
  assert (set_entry k v acc = acc ++ [(k, v)]) as Hset.
  { apply set_entry_last. apply StronglySorted_app in Hs as (Hs & _ & _). apply Forall_forall. intros kv Hkv. apply (Hs kv (k, v) Hkv). set_solver. }
  destruct entries as [|kw entries].
  - exists (S n1). intros [|fuel] rest Hf; [lia|]. cbn [map Join]. rewrite (scan_entry _ _ _ _ _ _ n1) by (done || lia). simpl. by rewrite Hset.
  - destruct (IH (acc ++ [(k, v)])) as [n2 H2]; [done|done|done|by rewrite <- app_assoc|]. exists (S (n1 + n2)). intros [|fuel] rest Hf; [lia|].
    change (map emit_entry ((k, v) :: kw :: entries)) with (emit_entry (k, v) :: map emit_entry (kw :: entries)).
    rewrite Join_cons_sep by done.
    rewrite !str_app_assoc. rewrite (scan_entry _ _ _ _ _ _ n1) by (done || lia). simpl. rewrite Hset. rewrite H2 by lia. by rewrite <- app_assoc.
Qed.

Lemma scan_word_app word value rest : scan_word word value (word +:+ rest) = Some (value, rest).
Proof.
  unfold scan_word. assert (HasPrefix (word +:+ rest) word = true) as -> by (apply HasPrefix_spec; eauto). by rewrite str_drop_app.
Qed.

Lemma scan_value_number fuel d t rest : scan_number (t +:+ rest) = Some (t, rest) → starts number_char rest = false →
  scan_value (S fuel) d (t +:+ rest) = Some (JNumber t, rest).
Proof.
  intros Hs Hr. pose proof (scan_number_spec _ _ _ Hs) as (_ & Ht & _). destruct t as [|c t]; [done|]. simpl in Ht.
  assert (∀ e, is_digit e || is_char "-" e = false → is_char e c = false) as Hother.
  { intros e He. destruct (is_char e c) eqn:E; [|done]. apply Ascii.eqb_eq in E. subst. congruence. }
  cbn [scan_value]. rewrite skip_space_start by (simpl; unfold is_json_space; by rewrite !Hother).
  simpl in Hs |- *. by rewrite !Hother, Hs.
Qed.

Lemma scan_value_array fuel d text items rest : d + 1 ≤ maxNestingDepth → starts opening text = false ∧ text ≠ "" →
  scan_items fuel (d + 1) (text +:+ String "]" rest) = Some (items, rest) →
  scan_value (S fuel) d ((String "[" (text +:+ "]")) +:+ rest) = Some (JArray items, rest).
Proof.
  intros Hd [Hstart Hne] Hi. destruct text as [|c text]; [done|]. simpl in Hstart. unfold opening in Hstart. bsimpl.
  simpl. rewrite str_app_assoc. simpl. rewrite skip_space_start by done.
  destruct (Z.ltb_spec maxNestingDepth (d + 1)); [lia|]. simpl in Hi. rewrite Hi. by destruct (is_char "]" c).
Qed.

Lemma scan_value_object fuel d text entries rest : d + 1 ≤ maxNestingDepth → starts opening text = false ∧ text ≠ "" →
  scan_entries fuel (d + 1) [] (text +:+ String "}" rest) = Some (entries, rest) →
  scan_value (S fuel) d ((String "{" (text +:+ "}")) +:+ rest) = Some (JObject entries, rest).
Proof.
  intros Hd [Hstart Hne] Hi. destruct text as [|c text]; [done|]. simpl in Hstart. unfold opening in Hstart. bsimpl.
  simpl. rewrite str_app_assoc. simpl. rewrite skip_space_start by done.
  destruct (Z.ltb_spec maxNestingDepth (d + 1)); [lia|]. simpl in Hi. rewrite Hi. by destruct (is_char "}" c).
Qed.

Lemma emit_reads v : reads v.
Proof.
  induction v as [| | | |items IH|entries IH] using json_nested_ind; intros d Hn.
  - exists 1%nat. intros [|fuel] rest Hf Hr; [lia|]. apply (scan_word_app "null").
  - exists 1%nat. intros [|fuel] rest Hf Hr; [lia|]. destruct b; [apply (scan_word_app "true")|apply (scan_word_app "false")].
  - exists 1%nat. intros [|fuel] rest Hf Hr; [lia|]. inversion_clear Hn as [| |? ? Ht| | |]. apply scan_value_number; [|done].
    apply scan_number_spec in Ht as (_ & _ & Ht). by apply Ht.
  - exists 1%nat. intros [|fuel] rest Hf Hr; [lia|]. inversion_clear Hn as [| | |? ? Ht| |]. unfold emit, emit_string. simpl. rewrite str_app_assoc. simpl.
    by rewrite scan_emit_chars.
  - inversion_clear Hn as [| | | |? ? Hd Hf|]. destruct (decide (items = [])) as [->|Hne].
    { exists 1%nat. intros [|fuel] rest Hfuel Hr; [lia|]. simpl. by destruct (Z.ltb_spec maxNestingDepth (d + 1)); [lia|]. }
    destruct (reads_items items (d + 1) Hne IH Hf) as [n Hi]. exists (S n). intros [|fuel] rest Hfuel Hr; [lia|].
    change (emit (JArray items)) with (String "[" (Join "," (map emit items) +:+ "]")). apply scan_value_array; [done| |by apply Hi; lia].
    destruct items as [|v items]; [done|]. apply Forall_cons in Hf as [Hv _]. destruct (emit_start _ _ Hv) as (c & r & E & Hc).
    rewrite map_cons, E. destruct (map emit items); done.
  - inversion_clear Hn as [| | | | |? ? Hd Hs Hf]. destruct (decide (entries = [])) as [->|Hne].
    { exists 1%nat. intros [|fuel] rest Hfuel Hr; [lia|]. simpl. by destruct (Z.ltb_spec maxNestingDepth (d + 1)); [lia|]. }
    destruct (reads_entries entries (d + 1) [] Hne IH Hf Hs) as [n He]. exists (S n). intros [|fuel] rest Hfuel Hr; [lia|].
    change (emit (JObject entries)) with (String "{" (Join "," (map emit_entry entries) +:+ "}")). apply scan_value_object; [done| |by apply He; lia]. destruct entries as [|kv [|]]; done.
Qed.

(** ** Normalize *)

(** [raw] holds the value [v], and space. *)
Definition decoded (raw : string) (v : json) : Prop := ∃ rest, Decode raw = Some (v, rest) ∧ skip_space rest = "".

Lemma Normalize_Ok raw out : Normalize raw = Ok out ↔ ∃ v, decoded raw v ∧ out = emit v.
Proof.
  unfold Normalize, decoded. split.
  - destruct (Decode raw) as [[v rest]|]; [|done]. destruct (String.eqb_spec (skip_space rest) ""); [|by destruct (Decode rest)].
    intros [= <-]. eauto.
  - intros (v & (rest & -> & ->) & ->). done.
Qed.

Lemma decoded_emit raw v : decoded raw v → decoded (emit v) v.
Proof.
  intros (rest & Hd & _). apply scan_normal in Hd. destruct (emit_reads v 0 Hd) as [n Hn]. exists "". split; [|done].
  apply (Decode_fuel n). intros fuel Hf. rewrite <- (str_app_nil_r (emit v)). by apply Hn.
Qed.

Lemma decoded_unique raw v w : decoded raw v → decoded raw w → v = w.
Proof. intros (? & E & _) (? & E' & _). congruence. Qed.

Lemma Normalize_idempotent raw out : Normalize raw = Ok out → Normalize out = Ok out.
Proof. intros (v & Hd & ->)%Normalize_Ok. apply Normalize_Ok. exists v. split; [by eapply decoded_emit|done]. Qed.

(** The canonical form of a JSON text is a fixed point of [Normalize] that holds
    the same value, and the texts with that canonical form are exactly the texts of
    that value: whatever their spacing, the order of their keys, the spelling of their
    escapes. *)
Theorem normalize_canonical raw out :
  Normalize raw = Ok out →
  Normalize out = Ok out ∧ ∃ v, decoded raw v ∧ decoded out v ∧ ∀ other, Normalize other = Ok out ↔ decoded other v.
Proof.
  intros Hn. split; [by eapply Normalize_idempotent|]. apply Normalize_Ok in Hn as (v & Hd & ->).
  pose proof (decoded_emit _ _ Hd) as He. exists v. split_and!; [done..|]. intros other. rewrite Normalize_Ok. split; [|eauto].
  intros (w & Hw & E). pose proof (decoded_emit _ _ Hw) as He'. rewrite <- E in He'. by rewrite (decoded_unique _ _ _ He He').
Qed.

(** A text with every apostrophe a double quote. *)
Definition quoted (s : string) : string := str_map (fun c => if is_char "'" c then quote else c) s.

Example trailing_data : Normalize (quoted "{} {}") = Err ErrTrailingData.
Proof. vm_compute. reflexivity. Qed.

Lemma normalize_canonical_witness :
  Normalize (quoted "{'a':[true,'<safe>'],'z':9007199254740993}") = Ok (quoted "{'a':[true,'<safe>'],'z':9007199254740993}").
Proof.
  apply (normalize_canonical (quoted " { 'z': 1, 'a': [true, '\u003Csafe\u003e'], 'z': 9007199254740993 } ")).
  vm_compute. reflexivity.
Defined.

(** ** Typed values *)

(** encoding/json on a type of the platform: it writes a value as a text, and reads
    the value back from the canonical form of that text. *)
Class JSON (A : Type) := {
  json_Marshal : A → option string;
  json_Decode : string → option A;
  json_read_back : ∀ a raw c, json_Marshal a = Some raw → Normalize raw = Ok c → json_Decode c = Some a;
}.

Definition Marshal `{JSON A} (value : A) : result string :=
  match json_Marshal value with Some raw => Normalize raw | None => Err (Error "" "marshal canonical JSON source") end.

Lemma Marshal_Ok `{JSON A} (a : A) c : Marshal a = Ok c → json_Decode c = Some a ∧ Normalize c = Ok c.
Proof.
  unfold Marshal. destruct (json_Marshal a) as [raw|] eqn:Hr; [|done].
  intros Hn. split; [by eapply json_read_back|by eapply Normalize_idempotent].
Qed.

(** What the stores ask of a serialisation. *)
Program Definition JSON_codec `{JSON A} : Codec A :=
  {| marshal a := match Marshal a with Ok c => Some c | Err _ => None end; unmarshal := json_Decode |}.
Next Obligation. intros A ? a c Hm. simpl in Hm. destruct (Marshal a) eqn:E; simplify_eq. by apply Marshal_Ok in E as [E _]. Qed.

(** A type with one value that is written, for examples. *)
Program Definition single_json {A} `{EqDecision A} (a : A) : JSON A := {|
  json_Marshal x := if decide (x = a) then Some "{ }" else None;
  json_Decode c := if decide (c = "{}") then Some a else None;
|}.
Next Obligation.
  intros A ? a x raw c Hm Hn. simpl in *. case_decide; simplify_eq. vm_compute in Hn. injection Hn as <-. by rewrite decide_True.
Qed.

End CanonicalJSON.
