(* ===== verification/NetAddr.v ===== *)
(** * IP addresses and prefixes: the part of net/netip and net the source uses

    An address is a 32 or 128 bit number; parsing follows netip.ParseAddr and
    netip.ParsePrefix. *)

From S2P Require Import Prelude Text GoStd.
Import GoStd.

Open Scope Z_scope.

Module NetAddr.

(** netip.Addr; a zone is a string, empty when there is none. *)
Inductive Addr :=
| NoAddr
| Addr4 (n : Z)
| Addr6 (n : Z) (zone : string).

#[export] Instance Addr_eq_dec : EqDecision Addr.
Proof. solve_decision. Defined.

Definition IsValid (a : Addr) : bool := match a with NoAddr => false | _ => true end.
Definition BitLen (a : Addr) : Z := match a with NoAddr => 0 | Addr4 _ => 32 | Addr6 _ _ => 128 end.
Definition hasZone (a : Addr) : bool := match a with Addr6 _ zone => negb (String.eqb zone "") | _ => false end.

Definition Is4In6 (a : Addr) : bool := match a with Addr6 n _ => Z.shiftr n 32 =? 65535 | _ => false end.
Definition Unmap (a : Addr) : Addr := match a with Addr6 n _ => if Is4In6 a then Addr4 (n mod 2 ^ 32) else a | _ => a end.

(** ** Classes *)

Definition in_block (bits base len n : Z) : bool := Z.shiftr n (bits - len) =? Z.shiftr base (bits - len).

Definition quad (a b c d : Z) : Z := ((a * 256 + b) * 256 + c) * 256 + d.

Definition IsLoopback (a : Addr) : bool :=
  match Unmap a with Addr4 n => in_block 32 (quad 127 0 0 0) 8 n | Addr6 n _ => n =? 1 | NoAddr => false end.
Definition IsMulticast (a : Addr) : bool :=
  match Unmap a with Addr4 n => in_block 32 (quad 224 0 0 0) 4 n | Addr6 n _ => in_block 128 (Z.shiftl 255 120) 8 n | NoAddr => false end.
Definition IsLinkLocalUnicast (a : Addr) : bool :=
  match Unmap a with Addr4 n => in_block 32 (quad 169 254 0 0) 16 n | Addr6 n _ => in_block 128 (Z.shiftl 65152 112) 10 n | NoAddr => false end.
Definition IsPrivate (a : Addr) : bool :=
  match Unmap a with
  | Addr4 n => in_block 32 (quad 10 0 0 0) 8 n || in_block 32 (quad 172 16 0 0) 12 n || in_block 32 (quad 192 168 0 0) 16 n
  | Addr6 n _ => in_block 128 (Z.shiftl 252 120) 7 n
  | NoAddr => false
  end.
(** Unlike the others this one does not unmap. *)
Definition IsUnspecified (a : Addr) : bool :=
  match a with Addr4 n => n =? 0 | Addr6 n zone => (n =? 0) && String.eqb zone "" | NoAddr => false end.
Definition IsGlobalUnicast (a : Addr) : bool :=
  match Unmap a with
  | NoAddr => false
  | Addr4 n => negb (n =? 0) && negb (n =? 2 ^ 32 - 1) && negb (IsLoopback a) && negb (IsMulticast a) && negb (IsLinkLocalUnicast a)
  | Addr6 n zone => negb ((n =? 0) && String.eqb zone "") && negb (IsLoopback a) && negb (IsMulticast a) && negb (IsLinkLocalUnicast a)
  end.

(** Addr.Compare: by width, then by value, then by zone *)
Definition value (a : Addr) : Z := match a with NoAddr => 0 | Addr4 n => n | Addr6 n _ => n end.
Definition zone_of (a : Addr) : string := match a with Addr6 _ zone => zone | _ => "" end.
Definition order (c : comparison) : Z := match c with Lt => -1 | Eq => 0 | Gt => 1 end.
Definition CompareAddr (a b : Addr) : Z :=
  if negb (BitLen a =? BitLen b) then order (BitLen a ?= BitLen b)
  else if negb (value a =? value b) then order (value a ?= value b)
  else Compare (zone_of a) (zone_of b).

(** ** Prefixes *)

Record Prefix := { px_addr : Addr; px_bits : Z }.

#[export] Instance Prefix_eq_dec : EqDecision Prefix.
Proof. solve_decision. Defined.

Definition ContainsAddr (p : Prefix) (a : Addr) : bool :=
  negb (hasZone a) && IsValid (px_addr p) && (BitLen (px_addr p) =? BitLen a) &&
  in_block (BitLen a) (value (px_addr p)) (px_bits p) (value a).

Definition Masked (p : Prefix) : Prefix :=
  let host := BitLen (px_addr p) - px_bits p in
  let keep n := Z.shiftl (Z.shiftr n host) host in
  {| px_bits := px_bits p;
     px_addr := match px_addr p with NoAddr => NoAddr | Addr4 n => Addr4 (keep n) | Addr6 n _ => Addr6 (keep n) "" end |}.

(** ** Parsing *)

(** One octet: at least one digit, no leading zero, at most 255. *)
Definition parse_octet (s : string) : option Z :=
  if negb (nonempty_digits s) || ((1 <? len s) && HasPrefix s "0") || (3 <? len s) then None
  else let n := digits_value 0 s in if 255 <? n then None else Some n.

Definition parse_ipv4 (s : string) : option Z :=
  match Split s "." with
  | [a; b; c; d] =>
      match parse_octet a, parse_octet b, parse_octet c, parse_octet d with
      | Some a, Some b, Some c, Some d => Some (quad a b c d)
      | _, _, _, _ => None
      end
  | _ => None
  end.

(** The hexadecimal digits at the start: their number, value and what follows. *)
Fixpoint hex_run (count : nat) (acc : Z) (s : string) : nat * Z * string :=
  match s with
  | "" => (count, acc, "")
  | String c s' => match hex_value c with Some v => hex_run (S count) (acc * 16 + v) s' | None => (count, acc, s) end
  end.

(** The groups of an IPv6 address, in order, and where the ellipsis is. *)
Record groups := { gr_groups : list Z; gr_ellipsis : option nat }.

(** The loop of parseIPv6; a group is 16 bits, a trailing IPv4 address two. *)
Fixpoint parse_groups (fuel : nat) (g : groups) (s : string) : option groups :=
  match fuel with
  | O => None
  | S fuel' =>
      let done := length (gr_groups g) in
      if (8 <=? done)%nat then if String.eqb s "" then Some g else None
      else
        let '(count, acc, rest) := hex_run 0 0 s in
        if (count =? 0)%nat || (4 <? count)%nat then None
        else match rest with
        | String "." _ =>
            if negb (bool_decide (is_Some (gr_ellipsis g))) && negb (done =? 6)%nat then None
            else if (8 <? done + 2)%nat then None
            else match parse_ipv4 s with
                 | Some n => Some {| gr_groups := gr_groups g ++ [n / 65536; n mod 65536]; gr_ellipsis := gr_ellipsis g |}
                 | None => None
                 end
        | "" => Some {| gr_groups := gr_groups g ++ [acc]; gr_ellipsis := gr_ellipsis g |}
        | String ":" "" => None
        | String ":" (String ":" s') =>
            if bool_decide (is_Some (gr_ellipsis g)) then None
            else
              let g' := {| gr_groups := gr_groups g ++ [acc]; gr_ellipsis := Some (S done) |} in
              if String.eqb s' "" then Some g' else parse_groups fuel' g' s'
        | String ":" s' => parse_groups fuel' {| gr_groups := gr_groups g ++ [acc]; gr_ellipsis := gr_ellipsis g |} s'
        | _ => None
        end
  end.

Definition join_groups (gs : list Z) : Z := fold_left (fun n g => n * 65536 + g) gs 0.

(** The groups with the ellipsis expanded, to eight of them. *)
Definition expand (g : groups) : option Z :=
  let count := length (gr_groups g) in
  if (count <? 8)%nat then
    match gr_ellipsis g with
    | None => None
    | Some i => Some (join_groups (firstn i (gr_groups g) ++ repeat 0 (8 - count) ++ skipn i (gr_groups g)))
    end
  else match gr_ellipsis g with Some _ => None | None => Some (join_groups (gr_groups g)) end.

(** Nine turns are enough: there are at most eight groups. *)
Definition from_groups (e : option nat) (s : string) : option Z :=
  match parse_groups 9 {| gr_groups := []; gr_ellipsis := e |} s with Some g => expand g | None => None end.

Definition parse_ipv6 (s : string) : option Z :=
  match s with
  | String ":" (String ":" "") => Some 0
  | String ":" (String ":" s') => from_groups (Some 0%nat) s'
  | _ => from_groups None s
  end.

(** The first of the characters that decide the family. *)
Fixpoint family (s : string) : option ascii :=
  match s with
  | "" => None
  | String c s' => if is_char "." c || is_char ":" c || is_char "%" c then Some c else family s'
  end.

Definition ParseAddr (s : string) : option Addr :=
  match family s with
  | Some "."%char => match parse_ipv4 s with Some n => Some (Addr4 n) | None => None end
  | Some ":"%char =>
      match Cut s "%" with
      | Some (text, zone) =>
          if String.eqb zone "" then None else match parse_ipv6 text with Some n => Some (Addr6 n zone) | None => None end
      | None => match parse_ipv6 s with Some n => Some (Addr6 n "") | None => None end
      end
  | _ => None
  end.

(** The text before and after the last slash. *)
Fixpoint cut_last (s : string) (sep : ascii) : option (string * string) :=
  match s with
  | "" => None
  | String c s' =>
      match cut_last s' sep with
      | Some (before, after) => Some (String c before, after)
      | None => if Ascii.eqb c sep then Some ("", s') else None
      end
  end.

Definition ParsePrefix (s : string) : option Prefix :=
  match cut_last s "/" with
  | None => None
  | Some (text, bits) =>
      match ParseAddr text with
      | None => None
      | Some a =>
          if hasZone a || ((1 <? len bits) && negb (match bits with String c _ => in_range "1" "9" c | "" => false end)) then None
          else match Atoi bits with
          | Some n => if (n <? 0) || (BitLen a <? n) then None else Some {| px_addr := a; px_bits := n |}
          | None => None
          end
      end
  end.

(** net.SplitHostPort *)
Definition SplitHostPort (hostport : string) : option (string * string) :=
  match cut_last hostport ":" with
  | None => None
  | Some (before, port) =>
      match hostport with
      | String "[" inside =>
          match Cut inside "]" with
          | None => None
          | Some (host, tail) =>
              if negb (String.eqb before ("[" +:+ host +:+ "]")) || ContainsChar inside "[" || ContainsChar tail "]" then None
              else Some (host, port)
          end
      | _ => if ContainsChar before ":" || ContainsChar hostport "[" || ContainsChar hostport "]" then None else Some (before, port)
      end
  end.

Example splits : (SplitHostPort "example.com:443", SplitHostPort "[::1]:80", SplitHostPort "::1:80", SplitHostPort "example.com") =
  (Some ("example.com", "443"), Some ("::1", "80"), None, None).
Proof. vm_compute. reflexivity. Qed.

Example parses : (ParseAddr "10.1.2.3", ParseAddr "010.1.2.3", ParseAddr "::1", ParseAddr "fe80::1:2%eth0", ParseAddr "::ffff:1.2.3.4", ParseAddr "1:2:3:4:5:6:7:8:9") =
  (Some (Addr4 (quad 10 1 2 3)), None, Some (Addr6 1 ""), Some (Addr6 (Z.shiftl 65152 112 + 65538) "eth0"),
   Some (Addr6 (Z.shiftl 65535 32 + quad 1 2 3 4) ""), None).
Proof. vm_compute. reflexivity. Qed.

Example prefixes : (ParsePrefix "10.0.0.0/8", ParsePrefix "10.0.0.0/08", ParsePrefix "fc00::/7", ParsePrefix "10.0.0.0/33") =
  (Some {| px_addr := Addr4 (quad 10 0 0 0); px_bits := 8 |}, None, Some {| px_addr := Addr6 (Z.shiftl 252 120) ""; px_bits := 7 |}, None).
Proof. vm_compute. reflexivity. Qed.

End NetAddr.
