(* ===== verification/AddrText.v ===== *)
(** * The text of IP addresses: netip.Addr.String

    [AddrString] writes what [ParseAddr] reads: the quad form for IPv4; for IPv6 eight
    hexadecimal groups, the first longest run of two or more zero groups as ::, and the
    zone. *)

From stdpp Require Import pretty.
From S2P Require Import Prelude Text GoStd NetAddr.
Import GoStd NetAddr.

Open Scope Z_scope.

Module AddrText.

(** ** Writing *)

Definition octet (n : Z) (shift : Z) : string := pretty (Z.shiftr n shift mod 256).

Definition text4 (n : Z) : string := octet n 24 +:+ "." +:+ octet n 16 +:+ "." +:+ octet n 8 +:+ "." +:+ octet n 0.

(** Addr.v6u16: the eight groups of an address. *)
Definition group (n : Z) (i : nat) : Z := n / 2 ^ (16 * (7 - Z.of_nat i)) mod 65536.
Definition groups_of (n : Z) : list Z := map (group n) (seq 0 8).

(** appendHex: no leading zeros. *)
Definition hex16 (x : Z) : string :=
  if 4096 <=? x then hexpad 4 x else if 256 <=? x then hexpad 3 x else if 16 <=? x then hexpad 2 x else hexpad 1 x.

(** The number of zero groups at the start. *)
Fixpoint zeros (gs : list Z) : nat := match gs with g :: rest => if g =? 0 then S (zeros rest) else O | [] => O end.

(** The first longest run of at least two zero groups: where it starts and its length. *)
Definition longer (gs : list Z) (best : nat * nat) (i : nat) : nat * nat :=
  let l := zeros (drop i gs) in if (2 <=? l)%nat && (best.2 <? l)%nat then (i, l) else best.
Definition longest (gs : list Z) : nat * nat := fold_left (longer gs) (seq 0 8) (0%nat, 0%nat).

Definition hex_groups (gs : list Z) : string := Join ":" (map hex16 gs).

Definition text6 (gs : list Z) : string :=
  let '(start, l) := longest gs in
  if (l =? 0)%nat then hex_groups gs else hex_groups (take start gs) +:+ "::" +:+ hex_groups (drop (start + l) gs).

Definition with_zone (text zone : string) : string := if String.eqb zone "" then text else text +:+ "%" +:+ zone.

Definition AddrString (a : Addr) : string :=
  match a with
  | NoAddr => "invalid IP"
  | Addr4 n => text4 n
  | Addr6 n zone => with_zone (if Is4In6 a then "::ffff:" +:+ text4 (n mod 2 ^ 32) else text6 (groups_of n)) zone
  end.

(** The addresses of netip: the number fits the width. *)
Definition well_formed (a : Addr) : Prop := match a with NoAddr => True | Addr4 n => 0 ≤ n < 2 ^ 32 | Addr6 n _ => 0 ≤ n < 2 ^ 128 end.

(** ** Lemmas *)

Definition no_digit (rest : string) : Prop := match rest with "" => True | String c _ => hex_value c = None end.

Lemma hex_run_pad k x count acc rest : no_digit rest →
  hex_run count acc (hexpad k x +:+ rest) = ((count + k)%nat, acc * 16 ^ Z.of_nat k + x mod 16 ^ Z.of_nat k, rest).
Proof.
  intros Hr. revert count acc. induction k as [|k IH]; intros count acc.
  - cbn [hexpad String.append]. rewrite Nat.add_0_r, Z.mod_1_r. replace (acc * _ + 0) with acc by (cbn; lia). 
    destruct rest as [|c rest]; [done|]. cbn in Hr |- *. by rewrite Hr.
  - cbn [hexpad String.append hex_run]. rewrite hex_value_digit by (apply Z.mod_pos_bound; lia). rewrite IH.
    replace (S count + k)%nat with (count + S k)%nat by lia. do 2 f_equal.
    rewrite Nat2Z.inj_succ, Z.pow_succ_r by lia. rewrite (Z.mul_comm 16), Z.rem_mul_r by lia. ring.
Qed.

Lemma hex_run_start k x rest : 0 ≤ x < 16 ^ Z.of_nat k → no_digit rest → hex_run 0 0 (hexpad k x +:+ rest) = (k, x, rest).
Proof. intros Hx Hr. rewrite hex_run_pad by done. by rewrite Z.mod_small by done. Qed.

Lemma hex_run_hex16 x rest : 0 ≤ x < 65536 → no_digit rest → ∃ k, (1 ≤ k ≤ 4)%nat ∧ hex_run 0 0 (hex16 x +:+ rest) = (k, x, rest).
Proof.
  intros Hx Hr. unfold hex16. repeat case_match; bsimpl; (eexists; split; [|apply hex_run_start; [|done]]; [lia|]); cbn; lia.
Qed.

Definition group_range (g : Z) : Prop := 0 ≤ g < 65536.

Lemma hex16_starts x rest : group_range x → ∃ c tail, hex16 x +:+ rest = String c tail ∧ hex_value c ≠ None.
Proof.
  intros Hx. unfold hex16. repeat case_match; (cbn [hexpad String.append]; do 2 eexists; split; [reflexivity|]; rewrite hex_value_digit by (apply Z.mod_pos_bound; lia); done).
Qed.

Lemma hex_groups_cons g h gs : hex_groups (g :: h :: gs) = hex16 g +:+ String ":" (hex_groups (h :: gs)).
Proof. done. Qed.

Lemma hex_groups_starts g gs rest : group_range g → ∃ c tail, hex_groups (g :: gs) +:+ rest = String c tail ∧ hex_value c ≠ None.
Proof.
  intros Hg. destruct gs as [|h gs]; [by apply hex16_starts|]. rewrite hex_groups_cons, str_app_assoc. by apply hex16_starts.
Qed.

(** One turn of the loop that ends with a colon and another group. *)
Lemma parse_groups_turn fuel e before g c tail : group_range g → (length before < 8)%nat → hex_value c ≠ None →
  parse_groups (S fuel) {| gr_groups := before; gr_ellipsis := e |} (hex16 g +:+ String ":" (String c tail)) =
  parse_groups fuel {| gr_groups := before ++ [g]; gr_ellipsis := e |} (String c tail).
Proof.
  intros Hg Hl Hc. cbn [parse_groups gr_groups]. rewrite (proj2 (Nat.leb_gt _ _)) by lia.
  destruct (hex_run_hex16 g (String ":" (String c tail)) Hg eq_refl) as (k & Hk & ->). 
  rewrite (proj2 (Nat.eqb_neq k 0)), (proj2 (Nat.ltb_ge 4 k)) by lia. cbn [orb].
  destruct c as [[] [] [] [] [] [] [] []]; try reflexivity. by destruct Hc.
Qed.

Lemma parse_groups_last fuel e before g : group_range g → (length before < 8)%nat →
  parse_groups (S fuel) {| gr_groups := before; gr_ellipsis := e |} (hex16 g) = Some {| gr_groups := before ++ [g]; gr_ellipsis := e |}.
Proof.
  intros Hg Hl. cbn [parse_groups gr_groups]. rewrite (proj2 (Nat.leb_gt _ _)) by lia.
  destruct (hex_run_hex16 g "" Hg I) as (k & Hk & E). rewrite str_app_nil_r in E. rewrite E.
  by rewrite (proj2 (Nat.eqb_neq k 0)), (proj2 (Nat.ltb_ge 4 k)) by lia.
Qed.

Lemma parse_groups_plain gs : ∀ fuel e before, gs ≠ [] → Forall group_range gs → (length before + length gs ≤ 8)%nat → (length gs ≤ fuel)%nat →
  parse_groups fuel {| gr_groups := before; gr_ellipsis := e |} (hex_groups gs) = Some {| gr_groups := before ++ gs; gr_ellipsis := e |}.
Proof.
  induction gs as [|g [|h gs] IH]; intros [|fuel] e before Hne Hf Hl Hfuel; [done|done|cbn in *; lia| |cbn in *; lia|]; apply Forall_cons in Hf as [Hg Hf]; cbn [length] in Hl, Hfuel.
  - apply parse_groups_last; [done|lia].
  - rewrite hex_groups_cons. pose proof Hf as [Hh _]%Forall_cons. destruct (hex_groups_starts h gs "" Hh) as (c & tail & E & Hc). rewrite str_app_nil_r in E.
    rewrite E, parse_groups_turn, <- E by (done || lia). rewrite IH; [by rewrite <- app_assoc|done|done| |cbn; lia]. rewrite length_app. cbn. lia.
Qed.

(** The turn that reads the ellipsis. *)
Lemma parse_groups_gap fuel before g gs : group_range g → Forall group_range gs → (length before + S (length gs) ≤ 8)%nat → (length gs ≤ fuel)%nat →
  parse_groups (S fuel) {| gr_groups := before; gr_ellipsis := None |} (hex16 g +:+ "::" +:+ hex_groups gs) =
  Some {| gr_groups := before ++ g :: gs; gr_ellipsis := Some (S (length before)) |}.
Proof.
  intros Hg Hf Hl Hfuel. cbn [parse_groups gr_groups]. rewrite (proj2 (Nat.leb_gt _ _)) by lia.
  destruct (hex_run_hex16 g ("::" +:+ hex_groups gs) Hg eq_refl) as (k & Hk & ->).
  rewrite (proj2 (Nat.eqb_neq k 0)), (proj2 (Nat.ltb_ge 4 k)) by lia. cbn [orb String.append gr_ellipsis].
  rewrite bool_decide_eq_false_2 by (by intros []). destruct gs as [|h gs]; [done|]. pose proof Hf as [Hh _]%Forall_cons.
  destruct (hex_groups_starts h gs "" Hh) as (c & tail & E & _). rewrite str_app_nil_r in E. rewrite E. cbn [String.eqb]. rewrite <- E.
  rewrite parse_groups_plain; [by rewrite <- app_assoc|done|done| |done]. rewrite length_app. cbn in *. lia.
Qed.

Lemma parse_groups_ellipsis gs1 gs2 : ∀ fuel before, gs1 ≠ [] → Forall group_range gs1 → Forall group_range gs2 →
  (length before + length gs1 + length gs2 ≤ 8)%nat → (length gs1 + length gs2 ≤ fuel)%nat →
  parse_groups fuel {| gr_groups := before; gr_ellipsis := None |} (hex_groups gs1 +:+ "::" +:+ hex_groups gs2) =
  Some {| gr_groups := before ++ gs1 ++ gs2; gr_ellipsis := Some (length before + length gs1)%nat |}.
Proof.
  induction gs1 as [|g [|h gs1] IH]; intros [|fuel] before Hne H1 H2 Hl Hfuel; [done|done|cbn in *; lia| |cbn in *; lia|]; apply Forall_cons in H1 as [Hg H1]; cbn [length] in Hl, Hfuel.
  - unfold hex_groups at 1. cbn [map Join]. rewrite parse_groups_gap by (done || lia). cbn. do 3 f_equal. lia.
  - rewrite hex_groups_cons, str_app_assoc. cbn [String.append]. pose proof H1 as [Hh _]%Forall_cons.
    destruct (hex_groups_starts h gs1 ("::" +:+ hex_groups gs2) Hh) as (c & tail & E & Hc). cbn [String.append] in E. rewrite E, parse_groups_turn, <- E by (done || lia).
    pose proof (IH fuel (before ++ [g])) as IH'. cbn [String.append] in IH'. rewrite IH'; [|done|done|done| |cbn in *; lia]; rewrite ?length_app; cbn [length] in *; [|lia].
    rewrite <- app_assoc. cbn. do 3 f_equal. lia.
Qed.

(** ** The run of zeros *)

Lemma zeros_repeat gs : gs = repeat 0 (zeros gs) ++ drop (zeros gs) gs.
Proof. induction gs as [|g gs IH]; [done|]. cbn. destruct (Z.eqb_spec g 0); [subst; cbn; by f_equal|done]. Qed.

(** The run found is a run of zeros inside the groups. *)
Lemma longest_run gs start l : longest gs = (start, l) → l ≠ 0%nat → gs = take start gs ++ repeat 0 l ++ drop (start + l) gs.
Proof.
  unfold longest. assert (∀ places best, (best.2 ≠ 0%nat → gs = take best.1 gs ++ repeat 0 best.2 ++ drop (best.1 + best.2) gs) →
    let r := fold_left (longer gs) places best in r.2 ≠ 0%nat → gs = take r.1 gs ++ repeat 0 r.2 ++ drop (r.1 + r.2) gs) as Hgen.
  { induction places as [|i places IH]; intros best Hb; [done|]. cbn [fold_left]. apply IH. unfold longer. destruct (_ && _); [|done]. cbn [fst snd]. intros _.
    rewrite <- drop_drop, <- zeros_repeat. symmetry. apply take_drop. }
  intros E Hl. pose proof (Hgen (seq 0 8) (0, 0)%nat) as H. cbv zeta in H. rewrite E in H. by apply H.
Qed.

Lemma longest_length gs start l : longest gs = (start, l) → l ≠ 0%nat → (start + l ≤ length gs)%nat.
Proof.
  intros E Hl. pose proof (longest_run gs start l E Hl) as H. apply (f_equal length) in H. rewrite !length_app, repeat_length, length_take, length_drop in H. lia.
Qed.

(** ** Reading what is written *)

Lemma parse_ipv6_digit c tail : hex_value c ≠ None →
  parse_ipv6 (String c tail) = from_groups None (String c tail).
Proof. intros Hc. destruct c as [[] [] [] [] [] [] [] []]; try reflexivity. by destruct Hc. Qed.

Lemma expand_whole gs : length gs = 8%nat → expand {| gr_groups := gs; gr_ellipsis := None |} = Some (join_groups gs).
Proof. intros E. unfold expand. cbn [gr_groups gr_ellipsis]. by rewrite E. Qed.

Lemma expand_gap gs1 gs2 l : (length gs1 + l + length gs2 = 8)%nat → l ≠ 0%nat →
  expand {| gr_groups := gs1 ++ gs2; gr_ellipsis := Some (length gs1) |} = Some (join_groups (gs1 ++ repeat 0 l ++ gs2)).
Proof.
  intros E Hl. unfold expand. cbn [gr_groups gr_ellipsis]. rewrite length_app, (proj2 (Nat.ltb_lt _ _)) by lia.
  replace (8 - (length gs1 + length gs2))%nat with l by lia. by rewrite firstn_app, Nat.sub_diag, firstn_all, app_nil_r, skipn_app, skipn_all, Nat.sub_diag.
Qed.

Lemma parse_text6 gs : length gs = 8%nat → Forall group_range gs → parse_ipv6 (text6 gs) = Some (join_groups gs).
Proof.
  intros Hlen Hf. unfold text6. destruct (longest gs) as [start l] eqn:E. destruct (Nat.eqb_spec l 0) as [->|Hl].
  - destruct gs as [|g gs]; [done|]. pose proof Hf as [Hg _]%Forall_cons. destruct (hex_groups_starts g gs "" Hg) as (c & tail & Et & Hc). rewrite str_app_nil_r in Et.
    rewrite Et, parse_ipv6_digit, <- Et by done. unfold from_groups. rewrite parse_groups_plain by (done || cbn in *; lia). by apply expand_whole.
  - pose proof (longest_run _ _ _ E Hl) as Hrun. pose proof (longest_length _ _ _ E Hl) as Hrl.
    set (gs1 := take start gs) in *. set (gs2 := drop (start + l) gs) in *.
    assert (length gs1 = start ∧ length gs2 = 8 - (start + l))%nat as [L1 L2] by (subst gs1 gs2; rewrite length_take, length_drop; lia).
    assert (Forall group_range gs1 ∧ Forall group_range gs2) as [F1 F2] by (split; [by apply Forall_take|by apply Forall_drop]).
    rewrite Hrun. destruct gs1 as [|g gs1].
    + change (hex_groups [] +:+ "::" +:+ hex_groups gs2) with ("::" +:+ hex_groups gs2). destruct gs2 as [|h gs2].
      * cbn in L1, L2. cbn. by replace l with 8%nat by lia.
      * pose proof F2 as [Hh _]%Forall_cons. destruct (hex_groups_starts h gs2 "" Hh) as (c & tail & Et & Hc). rewrite str_app_nil_r in Et.
        rewrite Et. change (parse_ipv6 ("::" +:+ String c tail)) with (from_groups (Some 0%nat) (String c tail)).
        rewrite <- Et. unfold from_groups. rewrite parse_groups_plain by (done || cbn in *; lia). apply (expand_gap [] (h :: gs2) l); [cbn in *; lia|done].
    + pose proof F1 as [Hg _]%Forall_cons. destruct (hex_groups_starts g gs1 ("::" +:+ hex_groups gs2) Hg) as (c & tail & Et & Hc).
      rewrite Et, parse_ipv6_digit, <- Et by done. unfold from_groups. rewrite parse_groups_ellipsis by (done || cbn in *; lia). cbn [app length Nat.add].
      apply (expand_gap (g :: gs1) gs2 l); [cbn in *; lia|done].
Qed.

Definition high (n : Z) (i : nat) : Z := n / 2 ^ (16 * (7 - Z.of_nat i)).

Lemma high_step n i : (i < 7)%nat → high n i * 65536 + group n (S i) = high n (S i).
Proof.
  intros Hi. unfold high, group. replace (16 * (7 - Z.of_nat i)) with (16 * (7 - Z.of_nat (S i)) + 16) by lia.
  rewrite Z.pow_add_r, <- Z.div_div by lia. change (2 ^ 16) with 65536. rewrite (Z.div_mod (n / 2 ^ (16 * (7 - Z.of_nat (S i)))) 65536) at 3 by lia. lia.
Qed.

Lemma join_groups_of n : 0 ≤ n < 2 ^ 128 → join_groups (groups_of n) = n.
Proof.
  intros Hn. unfold join_groups, groups_of. cbn [map seq fold_left]. rewrite Z.mul_0_l, Z.add_0_l.
  replace (group n 0) with (high n 0).
  2: { unfold group, high. rewrite Z.mod_small; [done|]. split; [apply Z.div_pos; lia|]. apply Z.div_lt_upper_bound; lia. }
  rewrite !high_step by lia. apply Z.div_1_r.
Qed.

Lemma groups_of_range n : Forall group_range (groups_of n).
Proof. apply Forall_fmap, Forall_forall. intros i _. apply Z.mod_pos_bound. lia. Qed.

(** Only hexadecimal digits and colons are written for IPv6, with a colon among them. *)
Definition text6_char (c : ascii) : bool := bool_decide (hex_value c ≠ None) || is_char ":" c.

Lemma hexpad_chars k x : str_forall text6_char (hexpad k x) = true.
Proof.
  induction k as [|k IH]; [done|]. cbn [hexpad str_forall]. rewrite IH, andb_true_r. unfold text6_char. by rewrite hex_value_digit by (apply Z.mod_pos_bound; lia).
Qed.

Lemma hex16_chars x : str_forall text6_char (hex16 x) = true.
Proof. unfold hex16. repeat case_match; apply hexpad_chars. Qed.

Lemma hex_groups_chars gs : str_forall text6_char (hex_groups gs) = true.
Proof.
  induction gs as [|g [|h gs] IH]; [done|apply hex16_chars|]. rewrite hex_groups_cons, str_forall_app, hex16_chars. by cbn [str_forall].
Qed.

Lemma text6_chars gs : str_forall text6_char (text6 gs) = true.
Proof.
  unfold text6. destruct (longest gs) as [start l]. destruct (l =? 0)%nat; [apply hex_groups_chars|]. rewrite !str_forall_app, !hex_groups_chars. done.
Qed.

Lemma hex_groups_colon gs : (2 ≤ length gs)%nat → ContainsChar (hex_groups gs) ":" = true.
Proof. destruct gs as [|g [|h gs]]; cbn [length]; try lia. intros _. rewrite hex_groups_cons, ContainsChar_app, ContainsChar_cons. cbn. apply orb_true_r. Qed.

Lemma text6_colon gs : (2 ≤ length gs)%nat → ContainsChar (text6 gs) ":" = true.
Proof.
  intros Hl. unfold text6. destruct (longest gs) as [start l]. destruct (l =? 0)%nat; [by apply hex_groups_colon|].
  rewrite !ContainsChar_app. cbn. by rewrite orb_true_r.
Qed.

Lemma family_text6 text rest : str_forall text6_char text = true → ContainsChar text ":" = true → family (text +:+ rest) = Some ":"%char.
Proof.
  intros Hf Hc. induction text as [|c text IH]; [done|]. cbn [String.append family str_forall] in *. apply andb_true_iff in Hf as [Hd Hf].
  rewrite ContainsChar_cons in Hc. destruct (Ascii.eqb_spec c ":") as [->|Hne]; [done|]. rewrite IH by done.
  destruct c as [[] [] [] [] [] [] [] []]; try reflexivity; done.
Qed.

Lemma text6_no_percent text : str_forall text6_char text = true → ContainsChar text "%" = false.
Proof.
  intros Hf. unfold ContainsChar. apply negb_false_iff. revert Hf. apply str_forall_impl. intros c. destruct c as [[] [] [] [] [] [] [] []]; vm_compute; by intros.
Qed.

(** ** IPv4 *)

Lemma octet_parses m : 0 ≤ m < 256 → parse_octet (pretty m) = Some m.
Proof.
  intros Hm. assert (forallb (fun i => bool_decide (parse_octet (pretty (Z.of_nat i)) = Some (Z.of_nat i))) (seq 0 256) = true) as Hall by (vm_compute; reflexivity).
  rewrite forallb_forall in Hall. specialize (Hall (Z.to_nat m)). rewrite Z2Nat.id in Hall by lia. apply (bool_decide_eq_true_1 _), Hall, in_seq. lia.
Qed.

Lemma octet_digits m : 0 ≤ m < 256 → str_forall is_digit (pretty m) = true ∧ pretty m ≠ "" ∧ (String.length (pretty m) ≤ 3)%nat.
Proof.
  intros E%octet_parses. unfold parse_octet in E. destruct (_ || _ || _) eqn:H in E; [done|]. bsimpl. unfold nonempty_digits, len in *. bsimpl. split_and!; [done| |lia].
  by destruct (pretty m).
Qed.

Lemma octet_range n shift : 0 ≤ Z.shiftr n shift mod 256 < 256.
Proof. apply Z.mod_pos_bound. lia. Qed.

Lemma digit_no_dot s : str_forall is_digit s = true → ContainsChar s "." = false.
Proof. intros Hf. unfold ContainsChar. apply negb_false_iff. revert Hf. apply str_forall_impl. intros c. destruct c as [[] [] [] [] [] [] [] []]; vm_compute; by intros. Qed.

Lemma quad_octets n : 0 ≤ n < 2 ^ 32 → quad (Z.shiftr n 24 mod 256) (Z.shiftr n 16 mod 256) (Z.shiftr n 8 mod 256) (Z.shiftr n 0 mod 256) = n.
Proof.
  intros Hn. unfold quad. rewrite !Z.shiftr_div_pow2 by lia. change (2 ^ 24) with 16777216. change (2 ^ 16) with 65536. change (2 ^ 8) with 256. change (2 ^ 0) with 1.
  rewrite Z.div_1_r. Z.div_mod_to_equations. lia.
Qed.

Lemma parse_text4 n : 0 ≤ n < 2 ^ 32 → parse_ipv4 (text4 n) = Some n.
Proof.
  intros Hn. unfold text4, octet, parse_ipv4. cbn [String.append].
  rewrite !Split_app, Split_none by (apply digit_no_dot, octet_digits, octet_range). rewrite !octet_parses by apply octet_range. by rewrite quad_octets.
Qed.

Lemma hex_run_digits s : ∀ count acc rest, str_forall is_digit s = true → no_digit rest → ∃ v, hex_run count acc (s +:+ rest) = ((count + String.length s)%nat, v, rest).
Proof.
  induction s as [|c s IH]; intros count acc rest Hs Hr; cbn [String.append String.length str_forall] in *.
  - exists acc. rewrite Nat.add_0_r. destruct rest; [done|]. cbn in *. by rewrite Hr.
  - apply andb_true_iff in Hs as [Hc Hs]. cbn [hex_run]. unfold hex_value. rewrite Hc. destruct (IH (S count) (acc * 16 + (byte_of c - 48)) rest Hs Hr) as (v & ->).
    exists v. do 2 f_equal. lia.
Qed.

Lemma family_text4 n : family (text4 n) = Some "."%char.
Proof.
  unfold text4, octet. destruct (octet_digits _ (octet_range n 24)) as [Hd _]. revert Hd. generalize (pretty (Z.shiftr n 24 mod 256)). cbn [String.append].
  intros s. generalize (pretty (Z.shiftr n 16 mod 256)). intros t. induction s as [|c s IH]; [done|]. cbn [str_forall String.append family]. intros [Hc Hs]%andb_true_iff. rewrite IH by done.
  destruct c as [[] [] [] [] [] [] [] []]; try reflexivity; done.
Qed.

Lemma text4_no_percent n : ContainsChar (text4 n) "%" = false.
Proof.
  assert (∀ shift, ContainsChar (octet n shift) "%" = false) as Ho.
  { intros shift. unfold ContainsChar. apply negb_false_iff. destruct (octet_digits _ (octet_range n shift)) as [Hd _]. revert Hd. apply str_forall_impl.
    intros c. destruct c as [[] [] [] [] [] [] [] []]; vm_compute; by intros. }
  unfold text4. by rewrite !ContainsChar_app, !Ho.
Qed.

(** ** IPv4 inside IPv6 *)

Lemma hex_run_text4 n : ∃ k v rest, (1 ≤ k ≤ 3)%nat ∧ hex_run 0 0 (text4 n) = (k, v, String "." rest).
Proof.
  unfold text4. destruct (octet_digits _ (octet_range n 24)) as (Hd & Hne & Hl).
  destruct (hex_run_digits (octet n 24) 0 0 ("." +:+ octet n 16 +:+ "." +:+ octet n 8 +:+ "." +:+ octet n 0) Hd eq_refl) as (v & ->).
  do 3 eexists. split; [|reflexivity]. unfold octet. destruct (pretty _); [done|]. cbn [String.length] in *. lia.
Qed.

Lemma parse_mapped n : 0 ≤ n < 2 ^ 32 → parse_ipv6 ("::ffff:" +:+ text4 n) = Some (65535 * 2 ^ 32 + n).
Proof.
  intros Hn. destruct (hex_run_text4 n) as (k & v & rest & Hk & Hr).
  assert (∀ fuel, parse_groups (S fuel) {| gr_groups := [65535]; gr_ellipsis := Some 0%nat |} (text4 n) = Some {| gr_groups := [65535; n / 65536; n mod 65536]; gr_ellipsis := Some 0%nat |}) as Hp.
  { intros fuel. cbn [parse_groups gr_groups length]. rewrite Hr, (proj2 (Nat.eqb_neq k 0)), (proj2 (Nat.ltb_ge 4 k)) by lia. cbn [orb gr_ellipsis]. by rewrite parse_text4. }
  assert (∃ c tail, text4 n = String c tail ∧ is_digit c = true) as (c & tail & E & Hc).
  { unfold text4, octet. destruct (octet_digits _ (octet_range n 24)) as (Hd & Hne & _). destruct (pretty _) as [|c s]; [done|]. cbn in Hd. apply andb_true_iff in Hd as [? _]. by do 2 eexists. }
  change (parse_ipv6 ("::ffff:" +:+ text4 n)) with (from_groups (Some 0%nat) (hex16 65535 +:+ String ":" (text4 n))). unfold from_groups.
  rewrite E in *. rewrite parse_groups_turn by (done || (unfold hex_value; by rewrite Hc) || (cbn; lia)). cbn [app]. rewrite Hp. unfold expand, join_groups. cbn.
  f_equal. Z.div_mod_to_equations. lia.
Qed.

Lemma mapped_value n : 0 ≤ n < 2 ^ 128 → Z.shiftr n 32 = 65535 → 65535 * 2 ^ 32 + n mod 2 ^ 32 = n.
Proof. intros Hn. rewrite Z.shiftr_div_pow2 by lia. intros <-. rewrite (Z.div_mod n (2 ^ 32)) at 3 by lia. lia. Qed.

Lemma family_mapped text : family ("::ffff:" +:+ text) = Some ":"%char.
Proof. done. Qed.

(** ** The round trip *)

Lemma parse_zoned text zone n : family (with_zone text zone) = Some ":"%char → ContainsChar text "%" = false → parse_ipv6 text = Some n →
  ParseAddr (with_zone text zone) = Some (Addr6 n zone).
Proof.
  intros Hf Hc Hp. unfold ParseAddr. rewrite Hf. unfold with_zone. destruct (String.eqb zone "") eqn:Ez.
  - apply String.eqb_eq in Ez as ->. rewrite (proj2 (Cut_None _ _) Hc), Hp. done.
  - cbn [String.append]. rewrite Cut_app by done. by rewrite Ez, Hp.
Qed.

(** What an address is written as reads back as the address. *)
Theorem ParseAddr_AddrString a : well_formed a → IsValid a = true → ParseAddr (AddrString a) = Some a.
Proof.
  destruct a as [|n|n zone]; cbn [well_formed IsValid AddrString]; [done| |]; intros Hn _.
  - unfold ParseAddr. by rewrite family_text4, parse_text4.
  - destruct (Is4In6 _) eqn:E; cbn in E.
    + apply Z.eqb_eq in E. rewrite (parse_zoned _ _ n); [done| | |].
      * unfold with_zone. destruct (String.eqb zone ""); [done|]. by rewrite str_app_assoc.
      * rewrite ContainsChar_app, (text4_no_percent _). done.
      * rewrite parse_mapped by (apply Z.mod_pos_bound; lia). by rewrite mapped_value.
    + rewrite (parse_zoned _ _ n); [done| | |].
      * unfold with_zone. destruct (String.eqb zone ""); [rewrite <- (str_app_nil_r (text6 _))|]; (apply family_text6; [apply text6_chars|apply text6_colon; unfold groups_of; rewrite length_map, length_seq; lia]).
      * apply text6_no_percent, text6_chars.
      * rewrite parse_text6; [by rewrite join_groups_of|done|apply groups_of_range].
Qed.

(** ** What parsing gives fits its width *)

Lemma hex_run_range s : ∀ count acc k v rest, 0 ≤ acc → hex_run count acc s = (k, v, rest) →
  (count ≤ k)%nat ∧ 0 ≤ v < (acc + 1) * 16 ^ Z.of_nat (k - count).
Proof.
  induction s as [|c s IH]; intros count acc k v rest Ha; cbn [hex_run].
  - intros [= <- <- <-]. rewrite Nat.sub_diag. cbn. lia.
  - destruct (hex_value c) as [x|] eqn:Ex.
    + pose proof (hex_value_range _ _ Ex). intros [Hk Hv]%IH; [|lia]. split; [lia|]. split; [lia|].
      replace (Z.of_nat (k - count)) with (Z.succ (Z.of_nat (k - S count))) by lia. rewrite Z.pow_succ_r by lia. 
      assert (0 < 16 ^ Z.of_nat (k - S count)) by (apply Z.pow_pos_nonneg; lia). nia.
    + intros [= <- <- <-]. rewrite Nat.sub_diag. cbn. lia.
Qed.

Lemma digits_value_nonneg s : ∀ acc, 0 ≤ acc → str_forall is_digit s = true → 0 ≤ digits_value acc s.
Proof.
  induction s as [|c s IH]; intros acc Ha; [done|]. cbn [str_forall digits_value]. intros [Hc Hs]%andb_true_iff. apply IH; [|done].
  assert (48 ≤ byte_of c) by (clear -Hc; destruct c as [[] [] [] [] [] [] [] []]; by vm_compute in Hc |- *). lia.
Qed.

Lemma parse_octet_range s n : parse_octet s = Some n → 0 ≤ n < 256.
Proof.
  unfold parse_octet. destruct (_ || _ || _) eqn:H; [done|]. destruct (255 <? _) eqn:E; [done|]. intros [= <-]. apply Z.ltb_ge in E. bsimpl.
  unfold nonempty_digits in *. bsimpl. split; [by apply digits_value_nonneg|lia].
Qed.

Lemma parse_ipv4_range s n : parse_ipv4 s = Some n → 0 ≤ n < 2 ^ 32.
Proof.
  unfold parse_ipv4. destruct (Split s ".") as [|a [|b [|c [|d []]]]]; try done. destruct (parse_octet a) eqn:Ea, (parse_octet b) eqn:Eb, (parse_octet c) eqn:Ec, (parse_octet d) eqn:Ed; try done.
  apply parse_octet_range in Ea, Eb, Ec, Ed. intros [= <-]. unfold quad. lia.
Qed.

Definition fits (g : groups) : Prop := Forall group_range (gr_groups g) ∧ (length (gr_groups g) ≤ 8)%nat.

Lemma fits_snoc gs gs' e : Forall group_range gs → Forall group_range gs' → (length gs + length gs' ≤ 8)%nat → fits {| gr_groups := gs ++ gs'; gr_ellipsis := e |}.
Proof. intros H1 H2 Hl. split; cbn [gr_groups]; [by apply Forall_app|by rewrite length_app]. Qed.

Lemma parse_groups_fits fuel : ∀ g s g', fits g → parse_groups fuel g s = Some g' → fits g'.
Proof.
  induction fuel as [|fuel IH]; intros g s g' Hg; cbn [parse_groups]; [done|]. destruct (8 <=? _)%nat eqn:E8; [destruct (String.eqb s ""); [by intros [= <-]|done]|].
  apply Nat.leb_gt in E8. destruct Hg as [Hg _].
  destruct (hex_run 0 0 s) as [[k v] rest] eqn:Er. destruct (hex_run_range _ _ _ _ _ _ ltac:(done) Er) as [_ Hv].
  destruct (_ || _) eqn:Ek; [done|]. apply orb_false_iff in Ek as [Ek1 Ek2]. apply Nat.eqb_neq in Ek1. apply Nat.ltb_ge in Ek2.
  assert (group_range v) as Hr.
  { assert (k = 1 ∨ k = 2 ∨ k = 3 ∨ k = 4)%nat as [->|[->|[->| ->]]] by lia; cbn in Hv; unfold group_range; lia. }
  assert (∀ e, fits {| gr_groups := gr_groups g ++ [v]; gr_ellipsis := e |}) as Hsnoc by (intros e; apply fits_snoc; [done|by apply Forall_singleton|cbn; lia]).
  intros H. repeat case_match; simplify_eq/=; try done; try (eapply IH; [|eassumption]; by apply Hsnoc); try apply Hsnoc.
  match goal with E : parse_ipv4 _ = Some _ |- _ => apply parse_ipv4_range in E end. match goal with E : (8 <? _)%nat = false |- _ => apply Nat.ltb_ge in E end.
  apply fits_snoc; [done| |cbn; lia]. rewrite Forall_cons, Forall_singleton. unfold group_range. Z.div_mod_to_equations. lia.
Qed.

Lemma join_groups_range gs : Forall group_range gs → 0 ≤ join_groups gs < 65536 ^ Z.of_nat (length gs).
Proof.
  unfold join_groups. assert (∀ acc, 0 ≤ acc → Forall group_range gs → 0 ≤ fold_left (fun n g => n * 65536 + g) gs acc < (acc + 1) * 65536 ^ Z.of_nat (length gs)) as Hgen.
  { induction gs as [|g gs IH]; intros acc Ha Hf; cbn [fold_left length]; [cbn; lia|]. apply Forall_cons in Hf as [Hg Hf]. unfold group_range in Hg.
    destruct (IH (acc * 65536 + g) ltac:(lia) Hf) as [H1 H2]. split; [done|]. rewrite Nat2Z.inj_succ, Z.pow_succ_r by lia.
    assert (0 < 65536 ^ Z.of_nat (length gs)) by (apply Z.pow_pos_nonneg; lia). nia. }
  intros Hf. destruct (Hgen 0 ltac:(lia) Hf). lia.
Qed.

Lemma expand_range g n : fits g → expand g = Some n → 0 ≤ n < 2 ^ 128.
Proof.
  intros [Hf Hl]. unfold expand. destruct (length (gr_groups g) <? 8)%nat eqn:E; destruct (gr_ellipsis g) as [i|]; try done; intros [= <-]; change (2 ^ 128) with (65536 ^ 8).
  - assert (Forall group_range (firstn i (gr_groups g) ++ repeat 0 (8 - length (gr_groups g)) ++ skipn i (gr_groups g))) as Hall.
    { rewrite !Forall_app. split_and!; [by apply Forall_take| |by apply Forall_drop]. by apply Forall_forall; intros x ->%list_elem_of_In%repeat_spec. }
    apply join_groups_range in Hall. rewrite !length_app, repeat_length in Hall. apply Nat.ltb_lt in E.
    pose proof (f_equal length (firstn_skipn i (gr_groups g))) as Hs. rewrite length_app in Hs. 
    by replace (length (firstn i (gr_groups g)) + (8 - length (gr_groups g) + length (skipn i (gr_groups g))))%nat with 8%nat in Hall by lia.
  - apply join_groups_range in Hf. apply Nat.ltb_ge in E. by replace (length (gr_groups g)) with 8%nat in Hf by lia.
Qed.

Lemma from_groups_range e t n : from_groups e t = Some n → 0 ≤ n < 2 ^ 128.
Proof.
  unfold from_groups. destruct (parse_groups 9 _ t) as [g|] eqn:E; [|done]. apply expand_range. eapply parse_groups_fits; [|exact E].
  split; cbn; [constructor|lia].
Qed.

Lemma parse_ipv6_cases s : parse_ipv6 s = Some 0 ∨ ∃ e t, parse_ipv6 s = from_groups e t.
Proof.
  destruct s as [|[[] [] [] [] [] [] [] []] s]; try (right; by eexists None, _).
  destruct s as [|[[] [] [] [] [] [] [] []] s]; try (right; by eexists None, _).
  destruct s as [|c s]; [by left|right]. by eexists (Some 0%nat), _.
Qed.

Lemma parse_ipv6_range s n : parse_ipv6 s = Some n → 0 ≤ n < 2 ^ 128.
Proof. destruct (parse_ipv6_cases s) as [->|(e & t & ->)]; [intros [= <-]; lia|apply from_groups_range]. Qed.

Lemma ParseAddr_well_formed s a : ParseAddr s = Some a → well_formed a ∧ IsValid a = true.
Proof.
  unfold ParseAddr. intros H. repeat case_match; simplify_eq; cbn; split; try done; (eapply parse_ipv4_range || eapply parse_ipv6_range); eassumption.
Qed.

Lemma Unmap_well_formed a : well_formed a → well_formed (Unmap a).
Proof. intros Hw. destruct a as [|n|n zone]; [exact Hw|exact Hw|]. unfold Unmap. destruct (Is4In6 _); [|exact Hw]. cbn [well_formed]. apply Z.mod_pos_bound. lia. Qed.

Example addresses_written :
  map (fun s => AddrString <$> ParseAddr s) ["192.0.2.1"; "2001:DB8:0:0:0:0:0:1"; "0:0:0:0:0:0:0:0"; "1:0:0:2:0:0:0:3"; "fe80:0::1%eth0"; "::ffff:10.0.0.1"; "1:2:3:4:5:6:0:8"] =
  [Some "192.0.2.1"; Some "2001:db8::1"; Some "::"; Some "1:0:0:2::3"; Some "fe80::1%eth0"; Some "::ffff:10.0.0.1"; Some "1:2:3:4:5:6:0:8"].
Proof. vm_compute. reflexivity. Qed.

End AddrText.
