(* ===== verification/GoNet.v ===== *)
(** * Names and URLs of network destinations

    golang.org/x/net/idna and the parsers of net/url and regexp are libraries; what the
    sources rely on is the interface below.  [Hostname], [Port] and [JoinHostPort] are
    those of net/url and net. *)

From S2P Require Import Prelude Text GoStd GoURL NetAddr.
Import GoStd GoURL NetAddr.

Open Scope Z_scope.

Module GoNet.

(** [idna.Lookup.ToASCII], [url.ParseRequestURI] and whether [regexp.Compile] accepts. *)
Class NetNames := {
  ToASCII : string → option string;
  ParseRequestURI : string → option URL;
  regexp_Compile : string → bool;
}.

(** The port behind the last colon of a host, when it is made of digits only. *)
Definition stripPort (hostport : string) : string * string :=
  match cut_last hostport ":" with
  | Some (host, port) => if str_forall is_digit port then (host, port) else (hostport, "")
  | None => (hostport, "")
  end.

Definition unbracket (host : string) : string :=
  if HasPrefix host "[" && HasSuffix host "]" then TrimSuffix (TrimPrefix host "[") "]" else host.

(** [URL.Hostname] and [URL.Port]: splitHostPort of the host. *)
Definition Hostname (u : URL) : string := unbracket (stripPort (u_Host u)).1.
Definition Port (u : URL) : string := (stripPort (u_Host u)).2.

Definition JoinHostPort (host port : string) : string :=
  if ContainsChar host ":" then "[" +:+ host +:+ "]:" +:+ port else host +:+ ":" +:+ port.

(** Library answers for examples: ASCII names are left alone, a URI is its path. *)
Definition plain_names : NetNames := {|
  ToASCII s := if str_forall is_ascii s then Some s else None;
  ParseRequestURI s := if HasPrefix s "/" then Some {| u_Scheme := ""; u_Opaque := ""; u_User := None; u_Host := ""; u_Path := s; u_RawPath := ""; u_OmitHost := false;
    u_ForceQuery := false; u_RawQuery := ""; u_Fragment := ""; u_RawFragment := "" |} else None;
  regexp_Compile s := true;
|}.

End GoNet.
