(* ===== verification/OCIArtifact.v ===== *)
(** * OCI archives (build-plane/internal/buildworker/oci.go)

    What a worker exports is an OCI layout in a tar file.  [InspectOCIArtifact] reads
    its identity, [VisitOCIArtifactBlobs] streams its blobs to a registry and
    [ExtractOCIArtifact] unpacks it.  A file is the list of its tar entries; the
    strict JSON decoding of the layout, the index and the manifest is an interface. *)

From S2P Require Import Prelude Text GoStd Crypto.
Import GoStd Crypto.

Open Scope Z_scope.

Module OCIArtifact.

Definition MaxOCIEntries : nat := Z.to_nat 100000.
Definition MaxOCIMetadataBytes : Z := Z.shiftl 4 20.
Definition MaxOCILayers : nat := Z.to_nat 4096.

(** ** The file *)

Inductive tar_type := TypeReg | TypeDir | TypeOther.

Record tar_header := { th_Name : string; th_Typeflag : tar_type; th_Size : Z; th_Contents : string }.

(** The entries before the end of the file, and whether it ends without an error. *)
Record tar_file := { tf_entries : list tar_header; tf_complete : bool }.

(** ** Descriptors *)

Record Descriptor := { d_MediaType : string; d_Digest : string; d_Size : Z }.

#[export] Instance Descriptor_eq_dec : EqDecision Descriptor.
Proof. solve_decision. Defined.

Record Index := { ix_SchemaVersion : Z; ix_MediaType : string; ix_Manifests : list Descriptor }.

Record Manifest := { mf_SchemaVersion : Z; mf_MediaType : string; mf_Config : Descriptor; mf_Layers : list Descriptor }.

(** encoding/json with unknown fields and trailing data refused. *)
Class OCIJSON := {
  decode_layout : string → option string;
  decode_index : string → option Index;
  decode_manifest : string → option Manifest;
}.

Definition ImageLayoutVersion : string := "1.0.0".
Definition MediaTypeImageIndex : string := "application/vnd.oci.image.index.v1+json".
Definition MediaTypeImageManifest : string := "application/vnd.oci.image.manifest.v1+json".
Definition MediaTypeImageConfig : string := "application/vnd.oci.image.config.v1+json".
Definition layer_media_types : list string :=
  ["application/vnd.oci.image.layer.v1.tar"; "application/vnd.oci.image.layer.v1.tar+gzip"; "application/vnd.oci.image.layer.v1.tar+zstd";
   "application/vnd.oci.image.layer.nondistributable.v1.tar"; "application/vnd.oci.image.layer.nondistributable.v1.tar+gzip";
   "application/vnd.oci.image.layer.nondistributable.v1.tar+zstd"].

Record OCIArtifactIdentity := {
  id_ManifestDigest : string;
  id_ManifestMediaType : string;
  id_Manifest : string;
  id_Config : Descriptor;
  id_Layers : list Descriptor;
  id_LayerDigests : list string;
}.

#[export] Instance OCIArtifactIdentity_eq_dec : EqDecision OCIArtifactIdentity.
Proof. solve_decision. Defined.

Definition validOCIDescriptor (descriptor : Descriptor) : bool := is_digest (d_Digest descriptor) && (0 <? d_Size descriptor).

Definition descriptorBlobPath (digest : string) : string := "blobs/sha256/" +:+ TrimPrefix digest "sha256:".

Definition validOCILayerMediaType (mediaType : string) : bool := slices_Contains layer_media_types mediaType.

(** [^blobs/sha256/[0-9a-f]{64}$] *)
Definition is_blob_path (s : string) : bool :=
  HasPrefix s "blobs/sha256/" && (len s =? 77) && str_forall is_hex (str_drop 13 s).

Definition failure (message : string) : error := Error "" message.

(** ** Scanning *)

Record ociCapture := { cap_expectedDigest : string; cap_expectedSize : Z; cap_maxBytes : Z; cap_keep : bool }.

Record scan_state := {
  sc_captured : gmap string string;
  sc_files : gset string;
  sc_found : gset string;
  sc_seen : gset string;
}.

Definition scan_start : scan_state := {| sc_captured := ∅; sc_files := ∅; sc_found := ∅; sc_seen := ∅ |}.

(** A regular file that [captures] asks for. *)
Definition scan_capture (capture : ociCapture) (s : scan_state) (name : string) (header : tar_header) : result scan_state :=
  if (cap_maxBytes capture <? 0) || (cap_maxBytes capture <? th_Size header) ||
     ((0 <? cap_expectedSize capture) && negb (th_Size header =? cap_expectedSize capture))
  then Err (failure "OCI artifact entry size differs from its descriptor")
  else if negb (len (th_Contents header) =? th_Size header) then Err (failure "read OCI artifact entry contents")
  else
    let actualDigest := bytesDigest (th_Contents header) in
    if negb (String.eqb (cap_expectedDigest capture) "") && negb (String.eqb actualDigest (cap_expectedDigest capture))
    then Err (failure "OCI artifact blob digest differs from its descriptor")
    else if HasPrefix name "blobs/sha256/" && negb (String.eqb actualDigest ("sha256:" +:+ Base name))
    then Err (failure "OCI artifact blob path differs from its contents")
    else Ok {| sc_captured := if cap_keep capture then <[name := th_Contents header]> (sc_captured s) else sc_captured s;
               sc_files := sc_files s; sc_found := {[name]} ∪ sc_found s; sc_seen := sc_seen s |}.

(** One turn of the loop. *)
Definition scan_entry (captures : gmap string ociCapture) (s : scan_state) (header : tar_header) : result scan_state :=
  let rawName := TrimPrefix (th_Name header) "./" in
  if IsAbs rawName || HasPrefix rawName "../" || ContainsChar rawName "\" then Err (failure "OCI artifact contains an unsafe path")
  else
    let is_dir := match th_Typeflag header with TypeDir => true | _ => false end in
    let rawName := if is_dir then TrimSuffix rawName "/" else rawName in
    if is_dir && (String.eqb rawName "" || String.eqb rawName ".") then Ok s
    else
      let name := Clean rawName in
      if String.eqb name "." || negb (String.eqb name rawName) || HasPrefix name "../" then Err (failure "OCI artifact contains an unsafe path")
      else if bool_decide (name ∈ sc_seen s) then Err (failure "OCI artifact contains a duplicate path")
      else
        let s := {| sc_captured := sc_captured s; sc_files := sc_files s; sc_found := sc_found s; sc_seen := {[name]} ∪ sc_seen s |} in
        match th_Typeflag header with
        | TypeDir => Ok s
        | TypeOther => Err (failure "OCI artifact contains an unsupported entry")
        | TypeReg =>
            if (th_Size header <? 0) || (negb (String.eqb name "oci-layout") && negb (String.eqb name "index.json") && negb (is_blob_path name))
            then Err (failure "OCI artifact contains an unsupported entry")
            else
              let s := {| sc_captured := sc_captured s; sc_files := {[name]} ∪ sc_files s; sc_found := sc_found s; sc_seen := sc_seen s |} in
              match captures !! name with
              | None => Ok s
              | Some capture => scan_capture capture s name header
              end
        end.

Definition scanOCIArchive (file : option tar_file) (captures : gmap string ociCapture) : result (gmap string string * gset string) :=
  match file with
  | None => Err (failure "open OCI artifact")
  | Some file =>
      if (MaxOCIEntries <? length (tf_entries file))%nat then
        (* the entries up to the limit are scanned first *)
        let* _ := fold_result (scan_entry captures) scan_start (firstn MaxOCIEntries (tf_entries file)) in
        Err (failure "OCI artifact entry limit exceeded")
      else
        let* s := fold_result (scan_entry captures) scan_start (tf_entries file) in
        if negb (tf_complete file) then Err (failure "read OCI artifact tar")
        else if negb (bool_decide (dom captures ⊆ sc_found s)) then Err (failure "OCI artifact lacks required entry")
        else Ok (sc_captured s, sc_files s)
  end.

(** ** InspectOCIArtifact *)

Section Inspect.
Context `{OCIJSON}.

Definition metadata_capture : ociCapture := {| cap_expectedDigest := ""; cap_expectedSize := 0; cap_maxBytes := MaxOCIMetadataBytes; cap_keep := true |}.

Definition blob_capture (descriptor : Descriptor) : ociCapture :=
  {| cap_expectedDigest := d_Digest descriptor; cap_expectedSize := d_Size descriptor; cap_maxBytes := d_Size descriptor; cap_keep := false |}.

Definition blob_path (descriptor : Descriptor) : string := descriptorBlobPath (d_Digest descriptor).

(** The loop over the layers of the manifest. *)
Definition add_layer (captures : gmap string ociCapture) (layer : Descriptor) : result (gmap string ociCapture) :=
  if negb (validOCIDescriptor layer) || negb (validOCILayerMediaType (d_MediaType layer)) then Err (failure "OCI artifact layer descriptor is invalid")
  else match captures !! blob_path layer with
  | Some _ => Err (failure "OCI artifact contains duplicate descriptor identities")
  | None => Ok (<[blob_path layer := blob_capture layer]> captures)
  end.

Definition InspectOCIArtifact (file : option tar_file) : result OCIArtifactIdentity :=
  let* initial := scanOCIArchive file {["oci-layout" := metadata_capture; "index.json" := metadata_capture]} in
  if negb (bool_decide (decode_layout (default "" (initial.1 !! "oci-layout")) = Some ImageLayoutVersion)) then Err (failure "OCI artifact layout is invalid")
  else match decode_index (default "" (initial.1 !! "index.json")) with
  | None => Err (failure "OCI artifact index is invalid")
  | Some index =>
      if negb (ix_SchemaVersion index =? 2) || negb (String.eqb (ix_MediaType index) MediaTypeImageIndex) then Err (failure "OCI artifact index is invalid")
      else match ix_Manifests index with
      | [manifestDescriptor] =>
          if negb (String.eqb (d_MediaType manifestDescriptor) MediaTypeImageManifest) || negb (validOCIDescriptor manifestDescriptor) ||
             (MaxOCIMetadataBytes <? d_Size manifestDescriptor)
          then Err (failure "OCI artifact manifest descriptor is invalid")
          else
            let manifestPath := blob_path manifestDescriptor in
            let* manifestBytes := scanOCIArchive file {[manifestPath :=
              {| cap_expectedDigest := d_Digest manifestDescriptor; cap_expectedSize := d_Size manifestDescriptor;
                 cap_maxBytes := MaxOCIMetadataBytes; cap_keep := true |}]} in
            match decode_manifest (default "" (manifestBytes.1 !! manifestPath)) with
            | None => Err (failure "OCI artifact manifest is invalid")
            | Some manifest =>
                if negb (mf_SchemaVersion manifest =? 2) || negb (String.eqb (mf_MediaType manifest) MediaTypeImageManifest) ||
                   negb (String.eqb (d_MediaType (mf_Config manifest)) MediaTypeImageConfig) || negb (validOCIDescriptor (mf_Config manifest)) ||
                   (MaxOCIMetadataBytes <? d_Size (mf_Config manifest)) || (length (mf_Layers manifest) =? 0)%nat ||
                   (MaxOCILayers <? length (mf_Layers manifest))%nat
                then Err (failure "OCI artifact manifest is invalid")
                else
                  let* captures := fold_result add_layer {[blob_path (mf_Config manifest) := blob_capture (mf_Config manifest)]} (mf_Layers manifest) in
                  let* _ := scanOCIArchive file captures in
                  let allowedEntries : gset string :=
                    {["oci-layout"; "index.json"; manifestPath; blob_path (mf_Config manifest)]} ∪ list_to_set (blob_path <$> mf_Layers manifest) in
                  if negb (size initial.2 =? size allowedEntries)%nat then Err (failure "OCI artifact contains unreferenced entries")
                  else if negb (bool_decide (initial.2 ⊆ allowedEntries)) then Err (failure "OCI artifact contains an unreferenced blob")
                  else Ok {| id_ManifestDigest := d_Digest manifestDescriptor; id_ManifestMediaType := d_MediaType manifestDescriptor;
                             id_Manifest := default "" (manifestBytes.1 !! manifestPath); id_Config := mf_Config manifest;
                             id_Layers := mf_Layers manifest; id_LayerDigests := d_Digest <$> mf_Layers manifest |}
            end
      | _ => Err (failure "OCI artifact index is invalid")
      end
  end.

(** ** VisitOCIArtifactBlobs *)

(** [visit descriptor contents] is how many bytes the visitor consumed, or its
    error; the visited blobs are collected. *)
Definition visit_entry (visit : Descriptor → string → result Z) (expected : gmap string Descriptor)
    (s : gset string * list (Descriptor * string)) (header : tar_header) : result (gset string * list (Descriptor * string)) :=
  let name := Clean (TrimPrefix (th_Name header) "./") in
  match expected !! name with
  | None => Ok s
  | Some descriptor =>
      if negb (match th_Typeflag header with TypeReg => true | _ => false end) || negb (th_Size header =? d_Size descriptor)
      then Err (failure "OCI publication blob size differs from descriptor")
      else
        let* count := visit descriptor (th_Contents header) in
        let read := str_take (Z.to_nat count) (th_Contents header) in
        if negb (count =? d_Size descriptor) || negb (String.eqb (bytesDigest read) (d_Digest descriptor))
        then Err (failure "OCI publication blob was not consumed with its exact identity")
        else Ok ({[name]} ∪ s.1, s.2 ++ [(descriptor, read)])
  end.

(** The context is read before every entry and before the end of the file. *)
Fixpoint visit_loop (ctx : nat → Ctx) (visit : Descriptor → string → result Z) (expected : gmap string Descriptor) (turn : nat)
    (s : gset string * list (Descriptor * string)) (entries : list tar_header) : result (gset string * list (Descriptor * string)) :=
  match ctx turn with
  | Some e => Err e
  | None =>
      match entries with
      | [] => Ok s
      | header :: rest => let* s := visit_entry visit expected s header in visit_loop ctx visit expected (S turn) s rest
      end
  end.

Definition add_expected (expected : gmap string Descriptor) (descriptor : Descriptor) : result (gmap string Descriptor) :=
  match expected !! blob_path descriptor with
  | Some _ => Err (failure "OCI artifact publication descriptor is duplicated")
  | None => Ok (<[blob_path descriptor := descriptor]> expected)
  end.

(** [inspected] is the file when it is inspected again, [file] when its blobs are
    read. *)
Definition VisitOCIArtifactBlobs (ctx : nat → Ctx) (inspected file : option tar_file) (identity : OCIArtifactIdentity)
    (visit : Descriptor → string → result Z) : result (list (Descriptor * string)) :=
  if negb (is_digest (id_ManifestDigest identity)) || (length (id_Layers identity) =? 0)%nat then Err (failure "OCI artifact blob visit is invalid")
  else match InspectOCIArtifact inspected with
  | Err _ => Err (failure "OCI artifact changed before blob publication")
  | Ok verified =>
      if negb (String.eqb (id_ManifestDigest verified) (id_ManifestDigest identity)) || negb (bool_decide (id_Config verified = id_Config identity)) ||
         negb (bool_decide (id_Layers verified = id_Layers identity)) || negb (String.eqb (id_Manifest verified) (id_Manifest identity))
      then Err (failure "OCI artifact changed before blob publication")
      else
        let* expected := fold_result add_expected {[blob_path (id_Config identity) := id_Config identity]} (id_Layers identity) in
        match file with
        | None => Err (failure "open OCI artifact for publication")
        | Some file =>
            let* s := visit_loop ctx visit expected 0 (∅, []) (tf_entries file) in
            if negb (tf_complete file) then Err (failure "read OCI artifact during publication")
            else if negb (size s.1 =? size expected)%nat then Err (failure "OCI artifact publication lacks a required blob")
            else Ok s.2
        end
  end.

(** ** ExtractOCIArtifact *)

(** A directory, the directories above a file, or the bytes written to a new file. *)
Inductive write := MakeDir (target : string) | MakeParents (target : string) | MakeFile (target contents : string).

(** filepath.Join of a rooted directory and a name *)
Definition join_path (directory name : string) : string := Clean (directory +:+ "/" +:+ name).

(** One entry: what it writes below [absolute] and how it ends; [io] is whether the
    file system takes a write. *)
Definition extract_entry (absolute : string) (expectedSize : Z) (io : write → bool) (header : tar_header) : list write * result unit :=
  let rawName := TrimPrefix (th_Name header) "./" in
  let name := Clean (TrimSuffix rawName "/") in
  if String.eqb rawName "" || IsAbs rawName || ContainsChar rawName "\" || String.eqb name "." || negb (String.eqb name (TrimSuffix rawName "/")) || HasPrefix name "../"
  then ([], Err (failure "OCI artifact extraction path is unsafe"))
  else
    let target := join_path absolute name in
    if negb (String.eqb target absolute) && negb (HasPrefix target (absolute +:+ "/")) then ([], Err (failure "OCI artifact extraction escaped destination"))
    else match th_Typeflag header with
    | TypeDir => ([MakeDir target], if io (MakeDir target) then Ok tt else Err (failure "create OCI artifact directory"))
    | TypeReg =>
        if (th_Size header <? 0) || (expectedSize <? th_Size header) then ([], Err (failure "OCI artifact extraction entry size is invalid"))
        else if negb (io (MakeParents target)) then ([MakeParents target], Err (failure "create OCI artifact parent directory"))
        else if negb (io (MakeFile target "")) then ([MakeParents target], Err (failure "create OCI artifact file"))
        else
          let contents := str_take (Z.to_nat (th_Size header)) (th_Contents header) in
          ([MakeParents target; MakeFile target contents],
           if negb (io (MakeFile target contents)) || negb (len contents =? th_Size header) then Err (failure "write OCI artifact file") else Ok tt)
    | TypeOther => ([], Err (failure "OCI artifact extraction entry type is unsupported"))
    end.

(** The loop: what was written, and how it ended. *)
Fixpoint extract_loop (ctx : nat → Ctx) (absolute : string) (expectedSize : Z) (io : write → bool) (entries : nat) (headers : list tar_header) (complete : bool)
    : list write * result unit :=
  match ctx entries with
  | Some e => ([], Err e)
  | None =>
      if (MaxOCIEntries <? entries)%nat then ([], Err (failure "OCI artifact extraction entry limit exceeded"))
      else match headers with
      | [] => ([], if complete then Ok tt else Err (failure "read OCI artifact during extraction"))
      | header :: rest =>
          match extract_entry absolute expectedSize io header with
          | (ws, Err e) => (ws, Err e)
          | (ws, Ok _) => let '(more, r) := extract_loop ctx absolute expectedSize io (S entries) rest complete in (ws ++ more, r)
          end
      end
  end.

(** The destination is absolute, its parent traverses no symbolic link and it does
    not exist; the directory is made. *)
Record Destination := { ds_absolute : option string; ds_parent_plain : bool; ds_absent : bool; ds_made : bool }.

(** Reading the open file from its start: whether the first seek succeeds, the bytes when
    they can be read, and whether the second seek succeeds. *)
Record reading := { re_seek : bool; re_raw : option string; re_rewind : bool }.

Definition verifyOpenOCIArchive (file : reading) (expectedDigest : string) (expectedSize : Z) : result unit :=
  if negb (re_seek file) then Err (failure "seek OCI artifact")
  else match re_raw file with
  | None => Err (failure "OCI archive identity differs during extraction")
  | Some raw =>
      if negb (len raw =? expectedSize) || negb (String.eqb (bytesDigest raw) expectedDigest) then Err (failure "OCI archive identity differs during extraction")
      else if negb (re_rewind file) then Err (failure "seek") else Ok tt
  end.

(** What the open file reads before and after, and the entries read in between;
    the answer has what was written and whether it is removed again. *)
Definition ExtractOCIArtifact (ctx : nat → Ctx) (inspected file : option tar_file) (before after : reading) (destination : Destination) (io : write → bool)
    (expectedDigest : string) (expectedSize : Z) (identity : OCIArtifactIdentity) : list write * bool * result unit :=
  if negb (is_digest expectedDigest) || (expectedSize <=? 0) then ([], false, Err (failure "OCI artifact extraction request is invalid"))
  else match InspectOCIArtifact inspected with
  | Err _ => ([], false, Err (failure "OCI artifact changed before extraction"))
  | Ok verified =>
      if negb (bool_decide (id_ManifestDigest verified = id_ManifestDigest identity ∧ id_ManifestMediaType verified = id_ManifestMediaType identity ∧
                            id_Config verified = id_Config identity ∧ id_Layers verified = id_Layers identity ∧ id_Manifest verified = id_Manifest identity))
      then ([], false, Err (failure "OCI artifact changed before extraction"))
      else match ds_absolute destination with
      | None => ([], false, Err (failure "OCI extraction destination is invalid"))
      | Some absolute =>
          if negb (ds_parent_plain destination) then ([], false, Err (failure "OCI extraction destination traverses a symlink"))
          else if negb (ds_absent destination) then ([], false, Err (failure "OCI extraction destination already exists or is unreadable"))
          else match file with
          | None => ([], false, Err (failure "open OCI artifact for extraction"))
          | Some file =>
              match verifyOpenOCIArchive before expectedDigest expectedSize with
              | Err e => ([], false, Err e)
              | Ok _ =>
              if negb (ds_made destination) then ([], false, Err (failure "create OCI extraction destination"))
              else match extract_loop ctx absolute expectedSize io 0 (tf_entries file) (tf_complete file) with
              | (ws, Err e) => (ws, true, Err e)
              | (ws, Ok _) =>
                  match verifyOpenOCIArchive after expectedDigest expectedSize with
                  | Err _ => (ws, true, Err (failure "OCI artifact changed during extraction"))
                  | Ok _ => (ws, false, Ok tt)
                  end
              end
              end
          end
      end
  end.

End Inspect.

(** ** Lemmas on scanning *)

(** The regular files of a tar file, by name. *)
Definition file_name (header : tar_header) : string := TrimPrefix (th_Name header) "./".
Definition is_regular (header : tar_header) : bool := match th_Typeflag header with TypeReg => true | _ => false end.
Definition regular (entries : list tar_header) : list tar_header := filter (fun h => is_regular h = true) entries.

(** An entry is what a capture asks for. *)
Definition captured (capture : ociCapture) (name : string) (header : tar_header) : Prop :=
  len (th_Contents header) = th_Size header ∧ th_Size header ≤ cap_maxBytes capture ∧
  (0 < cap_expectedSize capture → th_Size header = cap_expectedSize capture) ∧
  (cap_expectedDigest capture ≠ "" → bytesDigest (th_Contents header) = cap_expectedDigest capture).

Definition supported (name : string) : Prop := name = "oci-layout" ∨ name = "index.json" ∨ is_blob_path name = true.

Record scanned (captures : gmap string ociCapture) (entries : list tar_header) (s : scan_state) : Prop := {
  scn_files : ∀ name, name ∈ sc_files s ↔ name ∈ file_name <$> regular entries;
  scn_nodup : NoDup (file_name <$> regular entries);
  scn_seen : ∀ name, name ∈ file_name <$> regular entries → name ∈ sc_seen s;
  scn_supported : Forall supported (file_name <$> regular entries);
  scn_found : ∀ name, name ∈ sc_found s → ∃ capture header, captures !! name = Some capture ∧ header ∈ regular entries ∧ file_name header = name ∧
    captured capture name header ∧ (cap_keep capture = true → sc_captured s !! name = Some (th_Contents header));
}.

Lemma regular_snoc entries header : regular (entries ++ [header]) = regular entries ++ if is_regular header then [header] else [].
Proof. unfold regular. rewrite filter_app, filter_cons, filter_nil. case_decide as E; destruct (is_regular header); done. Qed.

Lemma scan_capture_Ok capture s name header s' : scan_capture capture s name header = Ok s' →
  captured capture name header ∧ sc_files s' = sc_files s ∧ sc_seen s' = sc_seen s ∧ sc_found s' = {[name]} ∪ sc_found s ∧
  sc_captured s' = if cap_keep capture then <[name := th_Contents header]> (sc_captured s) else sc_captured s.
Proof.
  unfold scan_capture. intros Hs. passed Hs E1. passed Hs E2. passed Hs E3. passed Hs E4. injection Hs as <-. simpl. split; [|done].
  apply negb_false_iff, Z.eqb_eq in E2. apply orb_false_iff in E1 as [E1 E1']. bsimpl. unfold captured. split_and!; [done|lia| |].
  - intros Hp. lia.
  - intros Hd. by destruct E3.
Qed.

(** What an accepted entry adds. *)
Lemma scan_entry_Ok captures s header s' : scan_entry captures s header = Ok s' →
  (is_regular header = false ∧ sc_files s' = sc_files s ∧ sc_found s' = sc_found s ∧ sc_captured s' = sc_captured s ∧ sc_seen s ⊆ sc_seen s') ∨
  (is_regular header = true ∧ supported (file_name header) ∧ (file_name header ∉ sc_seen s) ∧ sc_seen s' = {[file_name header]} ∪ sc_seen s ∧
   sc_files s' = {[file_name header]} ∪ sc_files s ∧
   ((sc_found s' = sc_found s ∧ sc_captured s' = sc_captured s) ∨
    ∃ capture, captures !! file_name header = Some capture ∧ captured capture (file_name header) header ∧ sc_found s' = {[file_name header]} ∪ sc_found s ∧
      sc_captured s' = if cap_keep capture then <[file_name header := th_Contents header]> (sc_captured s) else sc_captured s)).
Proof.
  unfold scan_entry. cbv zeta. fold (file_name header). intros Hs. passed Hs E1. unfold is_regular.
  destruct (th_Typeflag header) eqn:Ht; cbn [andb] in Hs.
  - right. passed Hs E2. passed Hs E3. passed Hs E4. apply orb_false_iff in E2 as [[_ E2]%orb_false_iff _].
    apply negb_false_iff, String.eqb_eq in E2. rewrite E2 in *. apply bool_decide_eq_false in E3.
    apply orb_false_iff in E4 as [_ E4]. assert (supported (file_name header)) as Hsup.
    { unfold supported. rewrite !andb_false_iff, !negb_false_iff, !String.eqb_eq in E4. naive_solver. }
    destruct (captures !! file_name header) as [capture|] eqn:Hc.
    + apply scan_capture_Ok in Hs as (Hcap & -> & -> & -> & ->). simpl. split_and!; try done. right. by exists capture.
    + injection Hs as <-. simpl. split_and!; try done. by left.
  - left. destruct (String.eqb _ "" || _); [by injection Hs as <-|]. passed Hs E2. passed Hs E3. injection Hs as <-. simpl. split_and!; [done..|set_solver].
  - left. passed Hs E2. passed Hs E3. done.
Qed.

Lemma scanned_step captures entries header s s' :
  scanned captures entries s → scan_entry captures s header = Ok s' → scanned captures (entries ++ [header]) s'.
Proof.
  intros [Hf Hn Hse Hsup Hfo] Hs. apply scan_entry_Ok in Hs as [(Hr & Ef & Efo & Ec & Hsub)|(Hr & Hs & Hnew & Es & Ef & Hcase)].
  - split; rewrite regular_snoc, Hr, app_nil_r; rewrite ?Ef, ?Efo, ?Ec; try done. intros name Hin. apply Hsub. by apply Hse.
  - assert (file_name header ∉ file_name <$> regular entries) as Hfresh by (intros Hin; by apply Hnew, Hse).
    split; rewrite regular_snoc, Hr, ?fmap_app; simpl.
    + intros name. rewrite Ef. set_solver.
    + apply NoDup_app. split_and!; [done|set_solver|apply NoDup_singleton].
    + intros name. rewrite Es. set_solver.
    + apply Forall_app. split; [done|]. by constructor.
    + destruct Hcase as [[Efo Ec]|(capture & Hc & Hcap & Efo & Ec)].
      * intros name. rewrite Efo, Ec. intros (c & h & ? & ? & ?)%Hfo. exists c, h. set_solver.
      * intros name. rewrite Efo. intros [Hin|Hin]%elem_of_union.
        { apply elem_of_singleton in Hin as ->. exists capture, header. split_and!; [done|set_solver|done|done|].
          intros Hk. rewrite Ec, Hk. by rewrite lookup_insert_eq. }
        destruct (Hfo _ Hin) as (c & h & Hc' & Hh & Hname & Hcap' & Hkeep). exists c, h. split_and!; [done|set_solver|done|done|].
        intros Hk. rewrite Ec. destruct (cap_keep capture); [|by apply Hkeep]. rewrite lookup_insert_ne; [by apply Hkeep|].
        intros E. apply Hfresh. rewrite E, <- Hname. by apply list_elem_of_fmap_2.
Qed.

Lemma scanOCIArchive_Ok file captures found files : scanOCIArchive file captures = Ok (found, files) →
  ∃ archive s, file = Some archive ∧ scanned captures (tf_entries archive) s ∧ dom captures ⊆ sc_found s ∧ found = sc_captured s ∧ files = sc_files s.
Proof.
  unfold scanOCIArchive. destruct file as [archive|]; [|done]. destruct (_ <? _)%nat.
  { intros Hs. by apply bind_result_Ok in Hs as (? & _ & Hs). }
  intros Hs. apply bind_result_Ok in Hs as (s & Hs & Hrest). passed Hrest E1. passed Hrest E2. apply negb_false_iff, bool_decide_eq_true in E2.
  injection Hrest as <- <-. exists archive, s. split_and!; [done| |done..].
  revert Hs. apply (fold_result_invariant _ (scanned captures)); [|intros; by eapply scanned_step].
  split; simpl; [set_solver|constructor|set_solver|constructor|set_solver].
Qed.

(** ** Lemmas on InspectOCIArtifact *)

Section Identity.
Context `{OCIJSON}.

Record layered (config : Descriptor) (layers : list Descriptor) (captures : gmap string ociCapture) : Prop := {
  ly_captures : ∀ d, d ∈ config :: layers → captures !! blob_path d = Some (blob_capture d);
  ly_nodup : NoDup (blob_path <$> (config :: layers));
  ly_valid : Forall (fun d => validOCIDescriptor d = true) layers;
  ly_only : dom captures ⊆ list_to_set (blob_path <$> (config :: layers));
}.

Lemma layers_captured config layers captures :
  fold_result add_layer {[blob_path config := blob_capture config]} layers = Ok captures → layered config layers captures.
Proof.
  apply (fold_result_invariant add_layer (fun seen c => layered config seen c)).
  - split; [|apply NoDup_singleton|constructor|set_solver]. intros d Hd. apply list_elem_of_singleton in Hd as ->. by rewrite lookup_singleton_eq.
  - intros seen d c c' [Hc Hn Hv Ho] Hadd. unfold add_layer in Hadd. passed Hadd E. destruct (c !! blob_path d) eqn:Hfresh; [done|]. injection Hadd as <-.
    assert (blob_path d ∉ blob_path <$> (config :: seen)) as Hnew.
    { intros Hin. apply list_elem_of_fmap in Hin as (e & Ep & He). specialize (Hc e He). rewrite Ep in Hfresh. congruence. }
    split; change (config :: seen ++ [d]) with ((config :: seen) ++ [d]).
    + intros e He. apply elem_of_app in He as [He|He].
      * rewrite lookup_insert_ne; [by apply Hc|]. intros Ep. apply Hnew. rewrite Ep. by apply list_elem_of_fmap_2.
      * apply list_elem_of_singleton in He as ->. by rewrite lookup_insert_eq.
    + rewrite fmap_app. apply NoDup_app. split_and!; [done| |apply NoDup_singleton]. intros x Hx Hx'. apply list_elem_of_singleton in Hx'. by subst.
    + apply Forall_app. split; [done|]. constructor; [|constructor]. by bsimpl.
    + rewrite dom_insert, fmap_app. set_solver.
Qed.

(** The entry of the archive that holds a captured blob. *)
Lemma captured_entry captures entries s name capture : scanned captures entries s → dom captures ⊆ sc_found s → captures !! name = Some capture →
  ∃ header, header ∈ regular entries ∧ file_name header = name ∧ captured capture name header ∧
    (cap_keep capture = true → sc_captured s !! name = Some (th_Contents header)).
Proof.
  intros Hs Hd Hc. assert (name ∈ sc_found s) as Hin by (apply Hd, elem_of_dom; eauto).
  destruct (scn_found _ _ _ Hs name Hin) as (c & header & Hc' & Hh & Hn & Hcap & Hk). exists header. by simplify_eq.
Qed.

(** What an accepted file [file] with [identity] holds. *)
Definition identified (file : option tar_file) (identity : OCIArtifactIdentity) : Prop :=
  ∃ archive manifest, file = Some archive ∧ NoDup (file_name <$> regular (tf_entries archive)) ∧
    (∀ name, name ∈ file_name <$> regular (tf_entries archive) ↔
       name ∈ ["oci-layout"; "index.json"; descriptorBlobPath (id_ManifestDigest identity)] ++ (blob_path <$> (id_Config identity :: id_Layers identity))) ∧
    bytesDigest (id_Manifest identity) = id_ManifestDigest identity ∧
    (∃ header, header ∈ regular (tf_entries archive) ∧ file_name header = descriptorBlobPath (id_ManifestDigest identity) ∧ th_Contents header = id_Manifest identity) ∧
    decode_manifest (id_Manifest identity) = Some manifest ∧ mf_Config manifest = id_Config identity ∧ mf_Layers manifest = id_Layers identity ∧
    (∀ d, d ∈ id_Config identity :: id_Layers identity → ∃ header, header ∈ regular (tf_entries archive) ∧ file_name header = blob_path d ∧
       bytesDigest (th_Contents header) = d_Digest d ∧ len (th_Contents header) = d_Size d) ∧
    id_LayerDigests identity = d_Digest <$> id_Layers identity ∧ id_Layers identity ≠ [] ∧ NoDup (blob_path <$> (id_Config identity :: id_Layers identity)) ∧
    Forall (fun layer => is_digest layer = true) (id_LayerDigests identity).

Lemma oci_identity file identity : InspectOCIArtifact file = Ok identity → identified file identity.
Proof.
  unfold InspectOCIArtifact, identified. intros Hi. apply bind_result_Ok in Hi as ([initial files] & Hinit & Hi). cbn [fst snd] in Hi.
  passed Hi E1. destruct (decode_index _) as [index|]; [|done]. passed Hi E2. destruct (ix_Manifests index) as [|md [|]]; [done| |done]. passed Hi E3.
  apply bind_result_Ok in Hi as ([manifestBytes files2] & Hman & Hi). cbn [fst snd] in Hi.
  destruct (decode_manifest _) as [manifest|] eqn:Hdec; [|done]. passed Hi E4. apply bind_result_Ok in Hi as (captures & Hlayers & Hi).
  apply bind_result_Ok in Hi as ([blobs files3] & Hblobs & Hi). passed Hi E5. passed Hi E6. injection Hi as <-. cbn [id_ManifestDigest id_Config id_Layers id_LayerDigests id_Manifest].
  apply scanOCIArchive_Ok in Hinit as (archive & s1 & -> & Hs1 & _ & _ & ->).
  apply scanOCIArchive_Ok in Hman as (? & s2 & [= <-] & Hs2 & Hd2 & -> & _). apply scanOCIArchive_Ok in Hblobs as (? & s3 & [= <-] & Hs3 & Hd3 & _ & _).
  apply layers_captured in Hlayers as [Hcap Hnd Hval Honly]. apply negb_false_iff, Nat.eqb_eq in E5. apply negb_false_iff, bool_decide_eq_true in E6.
  pose proof (set_subseteq_size_eq _ _ E6 ltac:(lia)) as Efiles.
  destruct (captured_entry _ _ _ _ _ Hs2 Hd2 (lookup_singleton_eq _ _)) as (hm & Hhm & Hnm & Hcm & Hkm). rewrite Hkm in Hdec |- * by done. cbn [default] in Hdec |- *.
  destruct Hcm as (Hlm & _ & _ & Hdm). cbn [cap_expectedDigest] in Hdm.
  assert (is_digest (d_Digest md) = true ∧ Forall (fun d => validOCIDescriptor d = true) (mf_Config manifest :: mf_Layers manifest) ∧ mf_Layers manifest ≠ []) as (Hmd & Hall & Hne).
  { clear -E3 E4 Hval. unfold validOCIDescriptor in E3. bsimpl. split_and!; [done|constructor; [done|done]|]. intros El. rewrite El in *. done. }
  exists archive, manifest. split_and!; try done.
  - apply Hs1.
  - intros name. rewrite <- (scn_files _ _ _ Hs1), Efiles. set_solver.
  - apply Hdm. intros E. by rewrite E in Hmd.
  - by exists hm.
  - intros d Hd. destruct (captured_entry _ _ _ _ _ Hs3 Hd3 (Hcap d Hd)) as (h & Hh & Hn & (Hl & _ & Hsz & Hdg) & _). cbn [blob_capture cap_expectedDigest cap_expectedSize] in *.
    rewrite Forall_forall in Hall. specialize (Hall d Hd). unfold validOCIDescriptor in Hall. bsimpl. exists h. split_and!; [done..| |].
    + apply Hdg. intros E. by rewrite E in *.
    + rewrite Hl. by apply Hsz.
  - apply Forall_fmap. apply Forall_cons in Hall as [_ Hall]. eapply Forall_impl; [exact Hall|]. intros d Hd. unfold validOCIDescriptor in Hd. by bsimpl.
Qed.

Lemma identity_digests file identity : InspectOCIArtifact file = Ok identity →
  is_digest (id_ManifestDigest identity) = true ∧ id_LayerDigests identity ≠ [] ∧ NoDup (id_LayerDigests identity) ∧
  Forall (fun layer => is_digest layer = true) (id_LayerDigests identity).
Proof.
  intros Hi. destruct (oci_identity _ _ Hi) as (archive & manifest & _ & _ & _ & Hm & _ & _ & _ & _ & _ & Hl & Hne & Hnd & Hd). split_and!; [| | |done].
  - rewrite <- Hm. apply bytesDigest_is_digest.
  - rewrite Hl. by destruct (id_Layers identity).
  - rewrite fmap_cons, NoDup_cons in Hnd. destruct Hnd as [_ Hnd]. rewrite Hl. unfold blob_path in Hnd. rewrite list_fmap_compose with (f := d_Digest) (g := descriptorBlobPath) in Hnd.
    by apply NoDup_fmap_1 in Hnd.
Qed.

(** C22: The identity of an OCI archive is that of its contents.  If
    [InspectOCIArtifact] accepts a file, its regular entries have distinct names and
    are exactly the layout, the index, the manifest, the configuration and the layers
    the manifest names; the manifest's bytes have the manifest digest and decode to
    that configuration and those layers; every descriptor has the digest and the size
    of its blob; and the layers, at least one, are distinct. *)
Theorem oci_identity_exact file identity :
  InspectOCIArtifact file = Ok identity →
  ∃ archive manifest, file = Some archive ∧ NoDup (file_name <$> regular (tf_entries archive)) ∧
    (∀ name, name ∈ file_name <$> regular (tf_entries archive) ↔
       name ∈ ["oci-layout"; "index.json"; descriptorBlobPath (id_ManifestDigest identity)] ++ (blob_path <$> (id_Config identity :: id_Layers identity))) ∧
    bytesDigest (id_Manifest identity) = id_ManifestDigest identity ∧
    (∃ header, header ∈ regular (tf_entries archive) ∧ file_name header = descriptorBlobPath (id_ManifestDigest identity) ∧ th_Contents header = id_Manifest identity) ∧
    decode_manifest (id_Manifest identity) = Some manifest ∧ mf_Config manifest = id_Config identity ∧ mf_Layers manifest = id_Layers identity ∧
    (∀ d, d ∈ id_Config identity :: id_Layers identity → ∃ header, header ∈ regular (tf_entries archive) ∧ file_name header = blob_path d ∧
       bytesDigest (th_Contents header) = d_Digest d ∧ len (th_Contents header) = d_Size d) ∧
    id_LayerDigests identity = d_Digest <$> id_Layers identity ∧ id_Layers identity ≠ [] ∧ NoDup (blob_path <$> (id_Config identity :: id_Layers identity)) ∧
    Forall (fun layer => is_digest layer = true) (id_LayerDigests identity).
Proof. apply oci_identity. Qed.

(** ** Publication and extraction *)

Lemma expected_descriptors config layers expected :
  fold_result add_expected {[blob_path config := config]} layers = Ok expected →
  ∀ name d, expected !! name = Some d ↔ d ∈ config :: layers ∧ name = blob_path d.
Proof.
  apply (fold_result_invariant add_expected (fun seen m => ∀ name d, m !! name = Some d ↔ d ∈ config :: seen ∧ name = blob_path d)).
  - intros name d. rewrite lookup_singleton_Some. set_solver.
  - intros seen d m m' IH Hadd name e. unfold add_expected in Hadd. destruct (m !! blob_path d) eqn:Hfresh; [done|]. injection Hadd as <-.
    rewrite lookup_insert_Some, IH. change (config :: seen ++ [d]) with ((config :: seen) ++ [d]). rewrite elem_of_app, list_elem_of_singleton. split.
    + intros [[<- <-]|[Hne [Hin ->]]]; auto.
    + intros [[Hin| ->] ->]; [|by left]. right. split; [|done]. intros E. rewrite E in Hfresh. assert (m !! blob_path e = Some e) by (apply IH; done). congruence.
Qed.

Record visited_of (expected : gmap string Descriptor) (s : gset string * list (Descriptor * string)) : Prop := {
  vs_found : ∀ name, name ∈ s.1 ↔ ∃ d contents, expected !! name = Some d ∧ (d, contents) ∈ s.2;
  vs_blobs : ∀ d contents, (d, contents) ∈ s.2 → bytesDigest contents = d_Digest d ∧ ∃ name, expected !! name = Some d;
}.

Lemma visit_entry_Ok visit expected s header s' :
  (∀ n m d, expected !! n = Some d → expected !! m = Some d → n = m) →
  visited_of expected s → visit_entry visit expected s header = Ok s' → visited_of expected s'.
Proof.
  intros Hinj [Hf Hb] Hv. unfold visit_entry in Hv. cbv zeta in Hv. destruct (expected !! _) as [d|] eqn:Hd; [|by injection Hv as <-]. passed Hv E1.
  apply bind_result_Ok in Hv as (count & Hcount & Hv). cbv zeta in Hv. passed Hv E2. injection Hv as <-. set (read := str_take _ _) in *. bsimpl.
  split; simpl.
  - intros name. rewrite elem_of_union, elem_of_singleton, Hf. setoid_rewrite elem_of_app. setoid_rewrite list_elem_of_singleton. split.
    + intros [->|(e & c & He & Hin)]; eauto 10.
    + intros (e & c & He & [Hin|Heq]); [by eauto|]. injection Heq as -> ->. left. by eapply Hinj.
  - intros e c [Hin|Heq]%elem_of_app; [by apply Hb|]. apply list_elem_of_singleton in Heq. injection Heq as -> ->. eauto.
Qed.

Lemma visit_loop_Ok ctx visit expected turn s entries s' :
  (∀ n m d, expected !! n = Some d → expected !! m = Some d → n = m) →
  visited_of expected s → visit_loop ctx visit expected turn s entries = Ok s' → visited_of expected s'.
Proof.
  intros Hinj. revert turn s. induction entries as [|header entries IH]; intros turn s Hs Hv; simpl in Hv; destruct (ctx turn); try done.
  { by injection Hv as <-. }
  apply bind_result_Ok in Hv as (s2 & Hs2 & Hv). eapply IH; [|exact Hv]. by eapply visit_entry_Ok.
Qed.

(** What is published is what was inspected.  If [VisitOCIArtifactBlobs]
    succeeds, every blob it handed to the visitor was read to the end with the digest
    of a descriptor of the identity, even if the file changed in between, and every
    descriptor of the identity was handed over. *)
Theorem publication_exact ctx inspected file identity visit blobs :
  VisitOCIArtifactBlobs ctx inspected file identity visit = Ok blobs →
  (∀ d contents, (d, contents) ∈ blobs → d ∈ id_Config identity :: id_Layers identity ∧ bytesDigest contents = d_Digest d) ∧
  (∀ d, d ∈ id_Config identity :: id_Layers identity → ∃ contents, (d, contents) ∈ blobs).
Proof.
  unfold VisitOCIArtifactBlobs. intros Hv. passed Hv E1. destruct (InspectOCIArtifact inspected); [|done]. passed Hv E2.
  apply bind_result_Ok in Hv as (expected & He & Hv). destruct file as [file|]; [|done]. apply bind_result_Ok in Hv as (s & Hs & Hv).
  passed Hv E3. passed Hv E4. injection Hv as <-. pose proof (expected_descriptors _ _ _ He) as Hx.
  assert (∀ n m d, expected !! n = Some d → expected !! m = Some d → n = m) as Hinj.
  { intros n m d [_ ->]%Hx [_ ->]%Hx. done. }
  apply (visit_loop_Ok _ _ _ _ (∅, [])) in Hs as [Hf Hb]; [|done|split; set_solver].
  assert (s.1 = dom expected) as Hdom.
  { apply set_subseteq_size_eq.
    - intros name (d & c & Hd & _)%Hf. apply elem_of_dom. eauto.
    - rewrite size_dom. apply negb_false_iff, Nat.eqb_eq in E4. lia. }
  split.
  - intros d contents (Hd & name & Hn)%Hb. split; [|done]. by apply Hx in Hn as [].
  - intros d Hd. assert (blob_path d ∈ s.1) as Hin by (rewrite Hdom; apply elem_of_dom; exists d; by apply Hx).
    apply Hf in Hin as (e & contents & He' & Hc). apply Hx in He' as [_ Ep]. exists contents.
    assert (e = d) as <-; [|done]. assert (expected !! blob_path d = Some d) as H1 by (by apply Hx). assert (expected !! blob_path d = Some e) as H2.
    { apply Hx. apply Hb in Hc as (_ & name & Hn). apply Hx in Hn as [Hin _]. done. }
    congruence.
Qed.

Definition target_of (w : write) : string := match w with MakeDir target | MakeParents target | MakeFile target _ => target end.

Section Targets.
Context (absolute : string).

Definition joined_below (w : write) : Prop :=
  ∃ name, target_of w = join_path absolute name ∧ (target_of w = absolute ∨ HasPrefix (target_of w) (absolute +:+ "/") = true).

Lemma extract_entry_targets expectedSize io header : Forall joined_below (extract_entry absolute expectedSize io header).1.
Proof.
  unfold extract_entry. cbv zeta. destruct (_ || _); [constructor|]. set (name := Clean _). destruct (_ && _) eqn:E; [constructor|].
  assert (∀ w, target_of w = join_path absolute name → joined_below w) as Hin.
  { intros w Hw. exists name. split; [done|]. rewrite Hw. by bsimpl. }
  repeat case_match; repeat constructor; by apply Hin.
Qed.

Lemma extract_loop_targets ctx expectedSize io entries headers complete :
  Forall joined_below (extract_loop ctx absolute expectedSize io entries headers complete).1.
Proof.
  revert entries. induction headers as [|header headers IH]; intros entries; simpl; (destruct (ctx entries); [constructor|]); (destruct (_ <? _)%nat; [constructor|]); [constructor|].
  pose proof (extract_entry_targets expectedSize io header) as He. destruct (extract_entry _ _ _ _) as [ws [[]|]]; [|done].
  specialize (IH (S entries)). destruct (extract_loop _ _ _ _ _ _ _) as [more r]. simpl in *. by apply Forall_app.
Qed.

End Targets.

(** A refusal before anything is written. *)
#[local] Ltac refused := cbn [negb] in *; simplify_eq; split_and!; [constructor|done..].

Lemma join_path_contained absolute name : contained absolute → join_path absolute name ≠ "/" → contained (join_path absolute name).
Proof.
  intros (Habs & _). unfold join_path, Clean. assert (IsAbs (absolute +:+ "/" +:+ name) = true) as ->; [|apply Clean_rooted_plain].
  apply HasPrefix_spec in Habs as [r ->]. by apply HasPrefix_spec; exists (r +:+ "/" +:+ name).
Qed.

Lemma verifyOpenOCIArchive_digest file expectedDigest expectedSize : verifyOpenOCIArchive file expectedDigest expectedSize = Ok tt →
  ∃ raw, re_raw file = Some raw ∧ bytesDigest raw = expectedDigest.
Proof.
  unfold verifyOpenOCIArchive. intros Hv. passed Hv Hs. destruct (re_raw file) as [raw|]; [|done]. passed Hv Hd. exists raw. split; [done|].
  apply orb_false_iff in Hd as [_ Hd]. by apply negb_false_iff, String.eqb_eq in Hd.
Qed.

(** C23: Extraction stays in its directory.  Whatever the archive holds, every path
    [ExtractOCIArtifact] writes is a path of plain segments below the destination; it
    writes only into a directory that did not exist, whose parent traverses no
    symbolic link; if it fails after writing, what it wrote is removed; and if it
    succeeds the file had the expected digest before and after. *)
Theorem extraction_confined ctx inspected file before after destination io expectedDigest expectedSize identity ws removed r absolute :
  ExtractOCIArtifact ctx inspected file before after destination io expectedDigest expectedSize identity = (ws, removed, r) →
  ds_absolute destination = Some absolute → contained absolute →
  Forall (fun w => contained (target_of w) ∧ (target_of w = absolute ∨ HasPrefix (target_of w) (absolute +:+ "/") = true)) ws ∧
  (ws ≠ [] → ds_absent destination = true ∧ ds_parent_plain destination = true) ∧
  (ws ≠ [] → is_err r = true → removed = true) ∧
  (r = Ok tt → removed = false ∧
     (∃ raw, re_raw before = Some raw ∧ bytesDigest raw = expectedDigest) ∧ ∃ raw, re_raw after = Some raw ∧ bytesDigest raw = expectedDigest).
Proof.
  intros He Habs Hc.
  assert (∀ w name, target_of w = join_path absolute name ∧ (target_of w = absolute ∨ HasPrefix (target_of w) (absolute +:+ "/") = true) →
    contained (target_of w) ∧ (target_of w = absolute ∨ HasPrefix (target_of w) (absolute +:+ "/") = true)) as Hin.
  { intros w name [Hj Hor]. split; [|done]. destruct Hor as [->|Hp]; [done|]. rewrite Hj in *. apply join_path_contained; [done|].
    intros E. rewrite E in Hp. apply HasPrefix_spec in Hp as [rest Er]. destruct Hc as (Ha & _). apply HasPrefix_spec in Ha as [x ->]. by destruct x. }
  unfold ExtractOCIArtifact in He. rewrite Habs in He.
  destruct (negb _ || _); [refused|]. destruct (InspectOCIArtifact inspected); [|refused]. destruct (negb _); [refused|].
  destruct (ds_parent_plain destination); [|refused]. destruct (ds_absent destination); [|refused]. destruct file as [file|]; [|refused].
  destruct (verifyOpenOCIArchive before _ _) as [[]|] eqn:Hb; [|refused]. destruct (ds_made destination); [|refused].
  pose proof (extract_loop_targets absolute ctx expectedSize io 0 (tf_entries file) (tf_complete file)) as Hloop. cbn [negb] in He.
  destruct (extract_loop _ _ _ _ _ _ _) as [ws' r']. cbn [fst] in Hloop.
  assert (Forall (fun w => contained (target_of w) ∧ (target_of w = absolute ∨ HasPrefix (target_of w) (absolute +:+ "/") = true)) ws') as Hall.
  { eapply Forall_impl; [exact Hloop|]. intros w [name Hw]. by eapply Hin. }
  destruct r' as [[]|e]; [|by simplify_eq]. destruct (verifyOpenOCIArchive after _ _) as [[]|] eqn:Hafter; simplify_eq; [|done].
  split_and!; [done..|]. intros _. split_and!; [done|by eapply verifyOpenOCIArchive_digest..].
Qed.

End Identity.

(** ** Witnesses *)

Definition layout_entry : tar_header := {| th_Name := "./oci-layout"; th_Typeflag := TypeReg; th_Size := 6; th_Contents := "layout" |}.
Definition index_entry : tar_header := {| th_Name := "index.json"; th_Typeflag := TypeReg; th_Size := 5; th_Contents := "index" |}.
Definition dir_entry : tar_header := {| th_Name := "blobs/"; th_Typeflag := TypeDir; th_Size := 0; th_Contents := "" |}.
Definition digest_of_manifest : string := Eval vm_compute in bytesDigest "manifest".
Definition digest_of_config : string := Eval vm_compute in bytesDigest "config".
Definition digest_of_layer : string := Eval vm_compute in bytesDigest "layer".
Definition blob_entry (digest contents : string) : tar_header :=
  {| th_Name := descriptorBlobPath digest; th_Typeflag := TypeReg; th_Size := len contents; th_Contents := contents |}.

Definition sample_file : tar_file :=
  {| tf_entries := [layout_entry; dir_entry; blob_entry digest_of_manifest "manifest"; blob_entry digest_of_config "config";
                    blob_entry digest_of_layer "layer"; index_entry]; tf_complete := true |}.

Definition manifest_descriptor : Descriptor := {| d_MediaType := MediaTypeImageManifest; d_Digest := digest_of_manifest; d_Size := 8 |}.
Definition config_descriptor : Descriptor := {| d_MediaType := MediaTypeImageConfig; d_Digest := digest_of_config; d_Size := 6 |}.
Definition layer_descriptor : Descriptor := {| d_MediaType := "application/vnd.oci.image.layer.v1.tar+gzip"; d_Digest := digest_of_layer; d_Size := 5 |}.

Definition toy_oci_json : OCIJSON := {|
  decode_layout := fun s => if String.eqb s "layout" then Some ImageLayoutVersion else None;
  decode_index := fun s => if String.eqb s "index" then Some {| ix_SchemaVersion := 2; ix_MediaType := MediaTypeImageIndex; ix_Manifests := [manifest_descriptor] |} else None;
  decode_manifest := fun s => if String.eqb s "manifest" then Some {| mf_SchemaVersion := 2; mf_MediaType := MediaTypeImageManifest; mf_Config := config_descriptor; mf_Layers := [layer_descriptor] |} else None;
|}.

Definition sample_identity : OCIArtifactIdentity :=
  {| id_ManifestDigest := digest_of_manifest; id_ManifestMediaType := MediaTypeImageManifest; id_Manifest := "manifest"; id_Config := config_descriptor;
     id_Layers := [layer_descriptor]; id_LayerDigests := [digest_of_layer] |}.

Lemma oci_identity_exact_witness : bytesDigest "manifest" = digest_of_manifest ∧ ∃ manifest, @decode_manifest toy_oci_json "manifest" = Some manifest.
Proof.
  destruct (@oci_identity_exact toy_oci_json (Some sample_file) sample_identity) as (archive & manifest & _ & _ & _ & Hd & _ & Hm & _);
    [vm_compute; reflexivity|]. split; [exact Hd|]. by exists manifest.
Defined.

Lemma publication_exact_witness : ∃ contents, (layer_descriptor, contents) ∈ [(config_descriptor, "config"); (layer_descriptor, "layer")].
Proof.
  apply (@publication_exact toy_oci_json (fun _ => None) (Some sample_file) (Some sample_file) sample_identity (fun _ contents => Ok (len contents))
    [(config_descriptor, "config"); (layer_descriptor, "layer")]); [vm_compute; reflexivity|]. apply list_elem_of_further, list_elem_of_here.
Defined.

Definition manifest_reading : reading := {| re_seek := true; re_raw := Some "manifest"; re_rewind := true |}.

Lemma extraction_confined_witness :
  Forall (fun w => contained (target_of w))
    [MakeParents "/scratch/image/oci-layout"; MakeFile "/scratch/image/oci-layout" "layout"; MakeDir "/scratch/image/blobs";
     MakeParents "/scratch/image/index.json"; MakeFile "/scratch/image/index.json" "index"].
Proof.
  refine (Forall_impl _ _ _ (proj1 (@extraction_confined toy_oci_json (fun _ => None) (Some sample_file)
    (Some {| tf_entries := [layout_entry; dir_entry; index_entry]; tf_complete := true |}) manifest_reading manifest_reading
    {| ds_absolute := Some "/scratch/image"; ds_parent_plain := true; ds_absent := true; ds_made := true |} (fun _ => true) digest_of_manifest 8 sample_identity
    _ false (Ok tt) "/scratch/image" _ _ _)) _).
  - vm_compute. reflexivity.
  - reflexivity.
  - split; [reflexivity|]. split; [discriminate|]. vm_compute. repeat constructor; discriminate.
  - intros w [Hw _]. exact Hw.
Defined.

End OCIArtifact.
