(* ===== verification/LLBPolicy.v ===== *)
(** * Build policy and capabilities (build-plane/internal/llbcompiler: types.go,
    policy.go, capabilities.go)

    What a build may use is decided before it is compiled: the organisation's
    policy is normalised and validated, every base image must be covered by locked
    evidence, and each run, cache and secret node is turned into a capability the
    policy allows. *)

From S2P Require Import Prelude Text GoStd Crypto PlatformID Storage BuildIR.
Import GoStd Crypto PlatformID Storage BuildIR.

Open Scope Z_scope.

Module LLBPolicy.

(** ** types.go *)

Definition CurrentPolicyAPIVersion : string := "lrail.build-policy/v1".
Definition CurrentLockVersion : Z := 2.
Definition CurrentSupplyChainPolicyVersion : Z := 1.

Record SupplyChainPolicy := {
  sp_Version : Z;
  SyftVersion : string;
  TrivyVersion : string;
  SignerKeyID : string;
  AllowedSignerPublicKeyDigests : list string;
  DeniedVulnerabilitySeverities : list string;
  DeniedConfigurationSeverities : list string;
  DeniedLicenseClassifications : list string;
  RequireSecretFree : bool;
  RequireImageConfigurationScan : bool;
}.

Record BasePolicy := {
  AllowedRegistries : list string;
  CuratedDigests : list string;
  AllowCustomerBases : bool;
  AllowedSignatureIdentities : list string;
  RequireSBOM : bool;
  RequireProvenance : bool;
}.

Record NetworkPolicy := {
  AllowedProfiles : list string;
  PackageHosts : list string;
  ExternalHosts : list string;
  PackageGatewayID : string;
  AllowlistGatewayID : string;
  PrivateGatewayID : string;
}.

Record CachePolicy := {
  cp_Scope : string;
  TrustDomain : string;
  AllowShared : bool;
  AllowSharedWithSecrets : bool;
}.

Record Policy := {
  APIVersion : string;
  pol_ID : string;
  Revision : string;
  Base_ : BasePolicy;
  Network_ : NetworkPolicy;
  Cache_ : CachePolicy;
  SecretNames : list string;
  ArgumentNames : list string;
  SupplyChain : SupplyChainPolicy;
}.

Record BaseMaterial := {
  RequestedRef : string;
  ResolvedRef : string;
  bm_Digest : string;
  Registry : string;
  Classification : string;
  Platforms : list string;
  SBOMDigest : string;
  ProvenanceDigest : string;
  SignatureIdentity : string;
  bm_ResolutionDigest : string;
}.

Record NameValue := { nv_Name : string; nv_Value : string }.

Record NetworkCapability := {
  nc_NodeID : string;
  nc_Profile : string;
  nc_Hosts : list string;
  nc_GatewayID : string;
}.

Record CacheCapability := {
  cc_NodeID : string;
  cc_Name : string;
  cc_Target : string;
  cc_Sharing : string;
  cc_Scope : string;
  cc_Namespace : string;
}.

Record SecretCapability := {
  se_NodeID : string;
  se_Name : string;
  se_Target : string;
  se_Required : bool;
  se_MountID : string;
}.

Record OutputLock := {
  ol_Name : string;
  ol_Kind : string;
  ol_StateID : string;
  ol_LLBDigest : string;
  ol_ConfigDigest : string;
}.

Record DefinitionLock := {
  dl_Version : Z;
  dl_CompilerVersion : string;
  dl_IRDigest : string;
  dl_PolicyDigest : string;
  dl_SourceSnapshot : string;
  dl_TargetPlatform : string;
  dl_BuildArguments : list NameValue;
  dl_BaseMaterials : list BaseMaterial;
  dl_Network : list NetworkCapability;
  dl_Caches : list CacheCapability;
  dl_Secrets : list SecretCapability;
  dl_SupplyChain : SupplyChainPolicy;
  dl_Outputs : list OutputLock;
}.

Record Request := {
  rq_OrganizationID : string;
  rq_ProjectID : string;
  rq_IR : IR;
  rq_ExpectedIRDigest : string;
  rq_Policy : Policy;
  rq_BaseMaterials : list BaseMaterial;
  rq_BuildArguments : gmap string string;
}.

#[export] Instance SupplyChainPolicy_eq_dec : EqDecision SupplyChainPolicy.
Proof. solve_decision. Defined.
#[export] Instance BaseMaterial_eq_dec : EqDecision BaseMaterial.
Proof. solve_decision. Defined.
#[export] Instance NameValue_eq_dec : EqDecision NameValue.
Proof. solve_decision. Defined.
#[export] Instance NetworkCapability_eq_dec : EqDecision NetworkCapability.
Proof. solve_decision. Defined.
#[export] Instance CacheCapability_eq_dec : EqDecision CacheCapability.
Proof. solve_decision. Defined.
#[export] Instance SecretCapability_eq_dec : EqDecision SecretCapability.
Proof. solve_decision. Defined.
#[export] Instance OutputLock_eq_dec : EqDecision OutputLock.
Proof. solve_decision. Defined.
#[export] Instance DefinitionLock_eq_dec : EqDecision DefinitionLock.
Proof. solve_decision. Defined.

(** ** errors.go *)

Definition fail (code message : string) : error := Error code message.

(** ** policy.go: text *)

Definition maxPolicyValues : nat := 128.

(** [^[a-z0-9](?:[a-z0-9.-]{0,251}[a-z0-9])?(?::[1-9][0-9]{0,4})?$] *)
Definition is_registry (s : string) : bool :=
  let host := framed (fun c => lower_dash c || is_char "." c) 251 in
  match Cut s ":" with
  | Some (name, port) => host name && name_like (in_range "1" "9") is_digit 4 port
  | None => host s
  end.

(** [(?:AUTH|CREDENTIAL|PASSWORD|PRIVATE_KEY|SECRET|TOKEN)] anywhere *)
Definition suspiciousArgument (s : string) : bool :=
  existsb (Contains s) ["AUTH"; "CREDENTIAL"; "PASSWORD"; "PRIVATE_KEY"; "SECRET"; "TOKEN"].

Definition validCapabilityID (value : string) : bool := is_capability_name value.

Definition boundedText (value : string) (allowEmpty : bool) : bool :=
  (allowEmpty || negb (String.eqb value "")) && (len value <=? MaxStringBytes) && ValidString value &&
  negb (ContainsChar value (char_of 0)).

Definition allDigests (values : list string) : bool := forallb is_digest values.
Definition allBounded (values : list string) : bool := forallb (fun value => boundedText value false) values.
Definition allCapabilities (values : list string) : bool := forallb is_capability_name values.

Definition sortedUnique (values : list string) : list string := Compact (Sort values).

Definition sortedDistinct (values : list string) : bool :=
  IsSorted values && (length (Compact values) =? length values)%nat.

Definition registryFromReference (reference : string) : string :=
  let name := match Cut reference "@" with Some (before, _) => before | None => reference end in
  match Cut name "/" with
  | Some (component, _) =>
      if Contains component "." || Contains component ":" || String.eqb component "localhost"
      then component else "docker.io"
  | None => "docker.io"
  end.

Definition digestValue {A} `{Codec A} (value : A) : result string :=
  match marshal value with
  | None => Err (Error "canonicalize digest input" "")
  | Some canonical => Ok (bytesDigest canonical)
  end.

Definition check (ok : bool) (code message : string) : result unit :=
  if ok then Ok tt else Err (fail code message).

(** ** policy.go: the policy *)

Definition severities : list string := ["CRITICAL"; "HIGH"; "LOW"; "MEDIUM"; "UNKNOWN"].
Definition classifications : list string :=
  ["Forbidden"; "Notice"; "Permissive"; "Reciprocal"; "Restricted"; "Unencumbered"; "Unknown"].

(** A denied list: bounded, sorted, holding [mandatory] and only known values. *)
Definition check_denied (values known : list string) (bound : nat) (mandatory message : string) : result unit :=
  let* _ := check (negb (length values =? 0)%nat && (length values <=? bound)%nat && sortedDistinct values &&
                   slices_Contains values mandatory) "llb.policy_supply_chain" message in
  each (fun value => check (slices_Contains known value) "llb.policy_supply_chain" message) values.

Definition ValidateSupplyChainPolicy (policy : SupplyChainPolicy) : result unit :=
  if negb (sp_Version policy =? CurrentSupplyChainPolicyVersion) || negb (is_semantic_version (SyftVersion policy)) ||
     negb (is_semantic_version (TrivyVersion policy)) || negb (validCapabilityID (SignerKeyID policy)) ||
     (length (AllowedSignerPublicKeyDigests policy) =? 0)%nat || (8 <? length (AllowedSignerPublicKeyDigests policy))%nat ||
     negb (allDigests (AllowedSignerPublicKeyDigests policy)) ||
     negb (sortedDistinct (AllowedSignerPublicKeyDigests policy)) ||
     negb (RequireSecretFree policy) || negb (RequireImageConfigurationScan policy)
  then Err (fail "llb.policy_supply_chain" "evidence policy is incomplete")
  else
    let* _ := check_denied (DeniedVulnerabilitySeverities policy) severities 5 "CRITICAL" "vulnerability" in
    let* _ := check_denied (DeniedConfigurationSeverities policy) severities 5 "CRITICAL" "configuration" in
    check_denied (DeniedLicenseClassifications policy) classifications 7 "Forbidden" "license".

Definition validateHosts (hosts : list string) : result unit :=
  if (maxPolicyValues <? length hosts)%nat then Err (fail "llb.policy_network" "host policy exceeds the limit")
  else each (fun host => check (is_registry host && negb (ContainsChar host ":"))
                           "llb.policy_network" "invalid hostname") hosts.

(** The lists of the policy, sorted and without duplicates. *)
Definition sort_policy (policy : Policy) : Policy :=
  let base := Base_ policy in let network := Network_ policy in let chain := SupplyChain policy in
  {| APIVersion := APIVersion policy; pol_ID := pol_ID policy; Revision := Revision policy;
     Base_ := {| AllowedRegistries := sortedUnique (AllowedRegistries base);
                 CuratedDigests := sortedUnique (CuratedDigests base);
                 AllowCustomerBases := AllowCustomerBases base;
                 AllowedSignatureIdentities := sortedUnique (AllowedSignatureIdentities base);
                 RequireSBOM := RequireSBOM base; RequireProvenance := RequireProvenance base |};
     Network_ := {| AllowedProfiles := sortedUnique (AllowedProfiles network);
                    PackageHosts := sortedUnique (PackageHosts network);
                    ExternalHosts := sortedUnique (ExternalHosts network);
                    PackageGatewayID := PackageGatewayID network;
                    AllowlistGatewayID := AllowlistGatewayID network;
                    PrivateGatewayID := PrivateGatewayID network |};
     Cache_ := Cache_ policy;
     SecretNames := sortedUnique (SecretNames policy);
     ArgumentNames := sortedUnique (ArgumentNames policy);
     SupplyChain := {| sp_Version := sp_Version chain; SyftVersion := SyftVersion chain;
                       TrivyVersion := TrivyVersion chain; SignerKeyID := SignerKeyID chain;
                       AllowedSignerPublicKeyDigests := sortedUnique (AllowedSignerPublicKeyDigests chain);
                       DeniedVulnerabilitySeverities := sortedUnique (DeniedVulnerabilitySeverities chain);
                       DeniedConfigurationSeverities := sortedUnique (DeniedConfigurationSeverities chain);
                       DeniedLicenseClassifications := sortedUnique (DeniedLicenseClassifications chain);
                       RequireSecretFree := RequireSecretFree chain;
                       RequireImageConfigurationScan := RequireImageConfigurationScan chain |} |}.

(** The checks after the lists have been sorted. *)
Definition check_policy (policy : Policy) : result unit :=
  let base := Base_ policy in let network := Network_ policy in let cache := Cache_ policy in
  let profiles := AllowedProfiles network in
  let* _ := check (negb (length (AllowedRegistries base) =? 0)%nat &&
                   (length (AllowedRegistries base) <=? maxPolicyValues)%nat) "llb.policy_base" "registry allowlist" in
  let* _ := each (fun registry => check (is_registry registry) "llb.policy_base" "invalid registry")
              (AllowedRegistries base) in
  let* _ := check ((length (CuratedDigests base) <=? maxPolicyValues)%nat && allDigests (CuratedDigests base))
              "llb.policy_base" "curated digests" in
  let* _ := check (negb (length (AllowedSignatureIdentities base) =? 0)%nat &&
                   (length (AllowedSignatureIdentities base) <=? maxPolicyValues)%nat &&
                   allBounded (AllowedSignatureIdentities base)) "llb.policy_base" "signature identities" in
  let* _ := check (negb (length profiles =? 0)%nat && (length profiles <=? 4)%nat) "llb.policy_network" "profiles" in
  let* _ := each (fun profile => check (slices_Contains ["allowlist"; "none"; "packages"; "private"] profile)
                    "llb.policy_network" "unsupported profile") profiles in
  let* _ := validateHosts (PackageHosts network) in
  let* _ := validateHosts (ExternalHosts network) in
  let* _ := check (negb (slices_Contains profiles "packages" &&
                         ((length (PackageHosts network) =? 0)%nat || negb (validCapabilityID (PackageGatewayID network)))))
              "llb.policy_network" "packages gateway" in
  let* _ := check (negb (slices_Contains profiles "allowlist" && negb (validCapabilityID (AllowlistGatewayID network))))
              "llb.policy_network" "allowlist gateway" in
  let* _ := check (negb (slices_Contains profiles "private" && negb (validCapabilityID (PrivateGatewayID network))))
              "llb.policy_network" "private gateway" in
  let* _ := check (slices_Contains ["organization"; "project"] (cp_Scope cache) && validCapabilityID (TrustDomain cache))
              "llb.policy_cache" "scope or trust domain" in
  let* _ := check (negb (AllowSharedWithSecrets cache && negb (AllowShared cache))) "llb.policy_cache" "shared" in
  let* _ := check ((length (SecretNames policy) <=? maxPolicyValues)%nat && allCapabilities (SecretNames policy))
              "llb.policy_secret" "names" in
  let* _ := check (length (ArgumentNames policy) <=? maxPolicyValues)%nat "llb.policy_argument" "limit" in
  let* _ := each (fun name => check (is_argument_name name && negb (suspiciousArgument name))
                    "llb.policy_argument" "secret-like name") (ArgumentNames policy) in
  ValidateSupplyChainPolicy (SupplyChain policy).

Section Policy_.
Context `{GoText}.

Definition validateResourceID (value prefix : string) : result unit :=
  check (has_prefix value prefix) "llb.scope" "invalid immutable scope identifier".

Definition normalizePolicy (policy : Policy) : result Policy :=
  if negb (String.eqb (APIVersion policy) CurrentPolicyAPIVersion) || negb (is_semantic_version (Revision policy))
  then Err (fail "llb.policy_version" "policy API version or revision")
  else
    let* _ := validateResourceID (pol_ID policy) "pol" in
    let policy := sort_policy policy in
    let* _ := check_policy policy in
    Ok policy.

(** ** policy.go: base materials *)

(** The struct whose canonical JSON is the resolution evidence. *)
Record ResolutionEvidence := {
  re_Version : Z;
  re_RequestedRef : string;
  re_ResolvedRef : string;
  re_Digest : string;
  re_Registry : string;
  re_Classification : string;
  re_Platforms : list string;
  re_SBOMDigest : string;
  re_ProvenanceDigest : string;
  re_SignatureIdentity : string;
}.

#[export] Instance ResolutionEvidence_eq_dec : EqDecision ResolutionEvidence.
Proof. solve_decision. Defined.

Context `{!Codec ResolutionEvidence}.

Definition materialResolutionDigest (m : BaseMaterial) : result string :=
  digestValue
    {| re_Version := 1; re_RequestedRef := RequestedRef m; re_ResolvedRef := ResolvedRef m; re_Digest := bm_Digest m;
       re_Registry := Registry m; re_Classification := Classification m; re_Platforms := Platforms m;
       re_SBOMDigest := SBOMDigest m; re_ProvenanceDigest := ProvenanceDigest m;
       re_SignatureIdentity := SignatureIdentity m |}.

Definition with_sorted_platforms (m : BaseMaterial) : BaseMaterial :=
  {| RequestedRef := RequestedRef m; ResolvedRef := ResolvedRef m; bm_Digest := bm_Digest m; Registry := Registry m;
     Classification := Classification m; Platforms := sortedUnique (Platforms m); SBOMDigest := SBOMDigest m;
     ProvenanceDigest := ProvenanceDigest m; SignatureIdentity := SignatureIdentity m;
     bm_ResolutionDigest := bm_ResolutionDigest m |}.

Definition ResolutionDigest (m : BaseMaterial) : result string := materialResolutionDigest (with_sorted_platforms m).

(** References of image nodes, each with its node. *)
Fixpoint expected_materials (nodes : list Node) (expected : gmap string string) : gmap string string :=
  match nodes with
  | [] => expected
  | node :: rest =>
      expected_materials rest
        (if String.eqb (Operation node) "image"
         then <[default "" (as_string (attr node "ref")) := ID node]> expected else expected)
  end.

(** One material against the references not yet covered. *)
Definition check_material (policy : Policy) (platform : string) (expected : gmap string string) (m : BaseMaterial)
    : result (gmap string string * BaseMaterial) :=
  let base := Base_ policy in
  match expected !! RequestedRef m with
  | None => Err (fail "llb.material_extra" "no such image node")
  | Some _ =>
      let* _ := check (is_digest (bm_Digest m) && HasSuffix (RequestedRef m) ("@" +:+ bm_Digest m) &&
                       HasSuffix (ResolvedRef m) ("@" +:+ bm_Digest m)) "llb.material_digest" "" in
      let registry := registryFromReference (ResolvedRef m) in
      let* _ := check (String.eqb (Registry m) registry && slices_Contains (AllowedRegistries base) registry)
                  "llb.material_registry" "" in
      let m := with_sorted_platforms m in
      let* _ := check (slices_Contains (Platforms m) platform) "llb.material_platform" "" in
      let* _ :=
        if String.eqb (Classification m) "curated" then
          check (slices_Contains (CuratedDigests base) (bm_Digest m)) "llb.material_curated" ""
        else if String.eqb (Classification m) "customer" then
          check (AllowCustomerBases base) "llb.material_customer" ""
        else Err (fail "llb.material_classification" "") in
      let* _ := check (slices_Contains (AllowedSignatureIdentities base) (SignatureIdentity m)) "llb.material_signature" "" in
      let* _ := check (negb (RequireSBOM base && negb (is_digest (SBOMDigest m)))) "llb.material_sbom" "" in
      let* _ := check (negb (RequireProvenance base && negb (is_digest (ProvenanceDigest m)))) "llb.material_provenance" "" in
      match materialResolutionDigest m with
      | Err _ => Err (fail "llb.material_resolution" "")
      | Ok expectedResolution =>
          let* _ := check (String.eqb (bm_ResolutionDigest m) expectedResolution) "llb.material_resolution" "" in
          Ok (delete (RequestedRef m) expected, m)
      end
  end.

Fixpoint check_materials (policy : Policy) (platform : string) (expected : gmap string string)
    (materials : list BaseMaterial) : result (gmap string string * list BaseMaterial) :=
  match materials with
  | [] => Ok (expected, [])
  | m :: rest =>
      let* one := check_material policy platform expected m in
      let* all := check_materials policy platform one.1 rest in
      Ok (all.1, one.2 :: all.2)
  end.

Fixpoint adjacent_distinct (materials : list BaseMaterial) : bool :=
  match materials with
  | a :: (b :: _) as rest => negb (String.eqb (RequestedRef a) (RequestedRef b)) && adjacent_distinct rest
  | _ => true
  end.

Definition compare_materials (left right : BaseMaterial) : Z := Compare (RequestedRef left) (RequestedRef right).

Definition normalizeMaterials (ir : IR) (materials : list BaseMaterial) (policy : Policy) : result (list BaseMaterial) :=
  let expected := expected_materials (Nodes ir) ∅ in
  if negb (length materials =? size expected)%nat then Err (fail "llb.material_set" "")
  else
    let* checked := check_materials policy (TargetPlatform ir) expected materials in
    if negb (size checked.1 =? 0)%nat then Err (fail "llb.material_missing" "")
    else
      let sorted := SortStableFunc compare_materials checked.2 in
      if adjacent_distinct sorted then Ok sorted else Err (fail "llb.material_duplicate" "").

(** ** policy.go: build arguments *)

Definition check_argument (allowed : list string) (argument : string * string) : result NameValue :=
  let '(name, value) := argument in
  if negb (is_argument_name name) || suspiciousArgument name || negb (slices_Contains allowed name)
  then Err (fail "llb.argument_denied" "")
  else if negb (boundedText value true) then Err (fail "llb.argument_value" "")
  else Ok {| nv_Name := name; nv_Value := value |}.

Definition compare_names (left right : NameValue) : Z := Compare (nv_Name left) (nv_Name right).

Definition normalizeBuildArguments (arguments : gmap string string) (allowed : list string) : result (list NameValue) :=
  if (64 <? size arguments)%nat then Err (fail "llb.argument_limit" "")
  else
    let* values := map_result (check_argument allowed) (map_to_list arguments) in
    Ok (SortStableFunc compare_names values).

(** ** policy.go: the request *)

Record normalizedRequest := {
  n_organizationID : string;
  n_projectID : string;
  n_ir : IR;
  n_irDigest : string;
  n_policy : Policy;
  n_policyDigest : string;
  n_materials : list BaseMaterial;
  n_buildArguments : list NameValue;
}.

Context `{!Codec IR} `{!Codec Policy}.

Definition normalizeRequest (request : Request) : result normalizedRequest :=
  let* _ := validateResourceID (rq_OrganizationID request) "org" in
  let* _ := validateResourceID (rq_ProjectID request) "prj" in
  match DefinitionDigest (rq_IR request) with
  | Err _ => Err (fail "llb.ir_invalid" "")
  | Ok irDigest =>
      if negb (String.eqb (rq_ExpectedIRDigest request) irDigest) then Err (fail "llb.ir_digest" "")
      else
        let* policy := normalizePolicy (rq_Policy request) in
        match digestValue policy with
        | Err _ => Err (fail "llb.policy_digest" "")
        | Ok policyDigest =>
            let* materials := normalizeMaterials (rq_IR request) (rq_BaseMaterials request) policy in
            let* arguments := normalizeBuildArguments (rq_BuildArguments request) (ArgumentNames policy) in
            Ok {| n_organizationID := rq_OrganizationID request; n_projectID := rq_ProjectID request;
                  n_ir := rq_IR request; n_irDigest := irDigest; n_policy := policy; n_policyDigest := policyDigest;
                  n_materials := materials; n_buildArguments := arguments |}
        end
  end.

End Policy_.

(** ** capabilities.go *)

Record capabilitySet := {
  cs_networkByNode : gmap string NetworkCapability;
  cs_cacheByNode : gmap string CacheCapability;
  cs_secretByNode : gmap string SecretCapability;
  cs_network : list NetworkCapability;
  cs_caches : list CacheCapability;
  cs_secrets : list SecretCapability;
}.

Definition no_capabilities : capabilitySet :=
  {| cs_networkByNode := ∅; cs_cacheByNode := ∅; cs_secretByNode := ∅; cs_network := []; cs_caches := []; cs_secrets := [] |}.

(** A missing or mistyped attribute reads as the zero string. *)
Definition text_attr (node : Node) (key : string) : string := default "" (as_string (attr node key)).

Definition networkCapability (input : normalizedRequest) (nodeID profile : string) : result NetworkCapability :=
  let network := Network_ (n_policy input) in
  let capability hosts gateway :=
    {| nc_NodeID := nodeID; nc_Profile := profile; nc_Hosts := hosts; nc_GatewayID := gateway |} in
  if negb (slices_Contains (AllowedProfiles network) profile) then Err (fail "llb.network_denied" "")
  else if String.eqb profile "none" then Ok (capability [] "")
  else if String.eqb profile "packages" then Ok (capability (PackageHosts network) (PackageGatewayID network))
  else if String.eqb profile "allowlist" then
    let* _ := each (fun host => check (slices_Contains (ExternalHosts network) host) "llb.network_host" "")
                (AllowedHosts (n_ir input)) in
    Ok (capability (AllowedHosts (n_ir input)) (AllowlistGatewayID network))
  else if String.eqb profile "private" then Ok (capability [] (PrivateGatewayID network))
  else Err (fail "llb.network_profile" "").

(** The struct whose canonical JSON names a cache. *)
Record CacheIdentity := {
  ci_Version : Z;
  ci_NodeID : string;
  ci_Scope : string;
  ci_ScopeID : string;
  ci_TrustDomain : string;
  ci_PolicyDigest : string;
  ci_Name : string;
  ci_Target : string;
}.

#[export] Instance CacheIdentity_eq_dec : EqDecision CacheIdentity.
Proof. solve_decision. Defined.

Definition cache_identity (input : normalizedRequest) (node : Node) : CacheIdentity :=
  let cache := Cache_ (n_policy input) in
  {| ci_Version := 1; ci_NodeID := ID node; ci_Scope := cp_Scope cache;
     ci_ScopeID := if String.eqb (cp_Scope cache) "organization" then n_organizationID input else n_projectID input;
     ci_TrustDomain := TrustDomain cache; ci_PolicyDigest := n_policyDigest input;
     ci_Name := text_attr node "name"; ci_Target := text_attr node "target" |}.

Definition cacheCapability `{!Codec CacheIdentity} (input : normalizedRequest) (node : Node) : result CacheCapability :=
  let cache := Cache_ (n_policy input) in
  if String.eqb (text_attr node "sharing") "shared" && negb (AllowShared cache) then Err (fail "llb.cache_shared" "")
  else match digestValue (cache_identity input node) with
  | Err _ => Err (fail "llb.cache_namespace" "")
  | Ok namespace =>
      Ok {| cc_NodeID := ID node; cc_Name := text_attr node "name"; cc_Target := text_attr node "target";
            cc_Sharing := text_attr node "sharing"; cc_Scope := cp_Scope cache;
            cc_Namespace := "lrail-cache-" +:+ TrimPrefix namespace "sha256:" |}
  end.

Definition secretCapability (input : normalizedRequest) (node : Node) : result SecretCapability :=
  let name := text_attr node "name" in
  if negb (slices_Contains (SecretNames (n_policy input)) name) then Err (fail "llb.secret_denied" "")
  else Ok {| se_NodeID := ID node; se_Name := name; se_Target := text_attr node "target";
             se_Required := default false (as_bool (attr node "required")); se_MountID := name |}.

Definition rejectSecretReferences (input : normalizedRequest) (capabilities : capabilitySet) : result unit :=
  let identifiers := (se_Name <$> cs_secrets capabilities) ++ (se_MountID <$> cs_secrets capabilities) in
  let clean value := check (negb (slices_Contains identifiers value)) "llb.secret_reference" "" in
  let* _ := each (fun argument => clean (nv_Value argument)) (n_buildArguments input) in
  each (fun node =>
    if negb (String.eqb (Operation node) "run") then Ok tt
    else
      let* _ := each clean (default [] (stringSlice (attr node "argv"))) in
      each (fun entry => clean entry.2) (map_to_list (default ∅ (stringMap (attr node "env")))))
    (Nodes (n_ir input)).

(** One node of the loop. *)
Definition add_capability `{!Codec CacheIdentity} (input : normalizedRequest) (s : capabilitySet) (node : Node)
    : result capabilitySet :=
  if String.eqb (Operation node) "cache" then
    let* c := cacheCapability input node in
    Ok {| cs_networkByNode := cs_networkByNode s; cs_cacheByNode := <[ID node := c]> (cs_cacheByNode s);
          cs_secretByNode := cs_secretByNode s; cs_network := cs_network s; cs_caches := cs_caches s ++ [c];
          cs_secrets := cs_secrets s |}
  else if String.eqb (Operation node) "secret" then
    let* c := secretCapability input node in
    Ok {| cs_networkByNode := cs_networkByNode s; cs_cacheByNode := cs_cacheByNode s;
          cs_secretByNode := <[ID node := c]> (cs_secretByNode s); cs_network := cs_network s;
          cs_caches := cs_caches s; cs_secrets := cs_secrets s ++ [c] |}
  else if String.eqb (Operation node) "run" then
    let* c := networkCapability input (ID node) (text_attr node "network") in
    Ok {| cs_networkByNode := <[ID node := c]> (cs_networkByNode s); cs_cacheByNode := cs_cacheByNode s;
          cs_secretByNode := cs_secretByNode s; cs_network := cs_network s ++ [c]; cs_caches := cs_caches s;
          cs_secrets := cs_secrets s |}
  else Ok s.

Definition compileCapabilities `{!Codec CacheIdentity} (input : normalizedRequest) : result capabilitySet :=
  if negb (slices_Contains (AllowedProfiles (Network_ (n_policy input))) (NetworkProfile (n_ir input)))
  then Err (fail "llb.network_denied" "")
  else
    let* capabilities := fold_result (add_capability input) no_capabilities (Nodes (n_ir input)) in
    let* _ := rejectSecretReferences input capabilities in
    Ok capabilities.

Definition pathsOverlap (left right : string) : bool :=
  let left := Clean left in let right := Clean right in
  String.eqb left right || HasPrefix left (right +:+ "/") || HasPrefix right (left +:+ "/").

(** The mounts of one run: their targets, and whether a secret or a shared cache
    is among them. *)
Fixpoint run_mounts (capabilities : capabilitySet) (mountIDs : list string) : result (list string * bool * bool) :=
  match mountIDs with
  | [] => Ok ([], false, false)
  | mountID :: rest =>
      match cs_cacheByNode capabilities !! mountID with
      | Some cache =>
          let* r := run_mounts capabilities rest in
          Ok (cc_Target cache :: r.1.1, r.1.2, String.eqb (cc_Sharing cache) "shared" || r.2)
      | None =>
          match cs_secretByNode capabilities !! mountID with
          | Some secret =>
              let* r := run_mounts capabilities rest in Ok (se_Target secret :: r.1.1, true, r.2)
          | None => Err (fail "llb.mount_unknown" "")
          end
      end
  end.

Fixpoint any_overlap (targets : list string) : bool :=
  match targets with
  | [] => false
  | target :: rest => existsb (pathsOverlap target) rest || any_overlap rest
  end.

Definition validateRunMounts (node : Node) (capabilities : capabilitySet) (policy : CachePolicy) : result unit :=
  match stringSlice (attr node "mounts") with
  | None => Err (fail "llb.mount_shape" "")
  | Some mountIDs =>
      let* mounts := run_mounts capabilities mountIDs in
      let '(targets, hasSecret, hasShared) := mounts in
      if any_overlap targets then Err (fail "llb.mount_overlap" "")
      else if hasSecret && hasShared && negb (AllowSharedWithSecrets policy) then Err (fail "llb.cache_secret" "")
      else Ok tt
  end.

(** The decimal user and group of "uid:gid". *)
Definition parseOwner (value : string) : result (Z * Z) :=
  match Split value ":" with
  | [user; group] =>
      match Atoi user, Atoi group with
      | Some uid, Some gid => Ok (uid, gid)
      | _, _ => Err (Error "invalid owner" "")
      end
  | _ => Err (Error "invalid owner" "")
  end.

(** ** Policies that differ in presentation only *)

Definition same_set (a b : list string) : Prop := ∀ x, x ∈ a ↔ x ∈ b.

#[export] Instance same_set_equiv : Equivalence same_set.
Proof. split; [by intros a x|by intros a b E x|]. intros a b c E1 E2 x. by rewrite (E1 x). Qed.

#[export] Instance sortedUnique_proper : Proper (same_set ==> eq) sortedUnique.
Proof. intros a b E. by apply Compact_Sort_ext. Qed.

Lemma sortedUnique_same values : same_set (sortedUnique values) values.
Proof. intros x. apply elem_of_Compact_Sort. Qed.

(** Equal up to the order and repetition of listed values. *)
Record same_policy (p q : Policy) : Prop := {
  sm_version : APIVersion p = APIVersion q ∧ pol_ID p = pol_ID q ∧ Revision p = Revision q;
  sm_base : same_set (AllowedRegistries (Base_ p)) (AllowedRegistries (Base_ q)) ∧
    same_set (CuratedDigests (Base_ p)) (CuratedDigests (Base_ q)) ∧
    same_set (AllowedSignatureIdentities (Base_ p)) (AllowedSignatureIdentities (Base_ q)) ∧
    AllowCustomerBases (Base_ p) = AllowCustomerBases (Base_ q) ∧
    RequireSBOM (Base_ p) = RequireSBOM (Base_ q) ∧ RequireProvenance (Base_ p) = RequireProvenance (Base_ q);
  sm_network : same_set (AllowedProfiles (Network_ p)) (AllowedProfiles (Network_ q)) ∧
    same_set (PackageHosts (Network_ p)) (PackageHosts (Network_ q)) ∧
    same_set (ExternalHosts (Network_ p)) (ExternalHosts (Network_ q)) ∧
    PackageGatewayID (Network_ p) = PackageGatewayID (Network_ q) ∧
    AllowlistGatewayID (Network_ p) = AllowlistGatewayID (Network_ q) ∧
    PrivateGatewayID (Network_ p) = PrivateGatewayID (Network_ q);
  sm_cache : Cache_ p = Cache_ q;
  sm_names : same_set (SecretNames p) (SecretNames q) ∧ same_set (ArgumentNames p) (ArgumentNames q);
  sm_chain : sp_Version (SupplyChain p) = sp_Version (SupplyChain q) ∧
    SyftVersion (SupplyChain p) = SyftVersion (SupplyChain q) ∧
    TrivyVersion (SupplyChain p) = TrivyVersion (SupplyChain q) ∧
    SignerKeyID (SupplyChain p) = SignerKeyID (SupplyChain q) ∧
    RequireSecretFree (SupplyChain p) = RequireSecretFree (SupplyChain q) ∧
    RequireImageConfigurationScan (SupplyChain p) = RequireImageConfigurationScan (SupplyChain q);
  sm_chain_sets :
    same_set (AllowedSignerPublicKeyDigests (SupplyChain p)) (AllowedSignerPublicKeyDigests (SupplyChain q)) ∧
    same_set (DeniedVulnerabilitySeverities (SupplyChain p)) (DeniedVulnerabilitySeverities (SupplyChain q)) ∧
    same_set (DeniedConfigurationSeverities (SupplyChain p)) (DeniedConfigurationSeverities (SupplyChain q)) ∧
    same_set (DeniedLicenseClassifications (SupplyChain p)) (DeniedLicenseClassifications (SupplyChain q));
}.

#[export] Instance sort_policy_proper : Proper (same_policy ==> eq) sort_policy.
Proof.
  intros p q [Hv Hb Hn Hc Hs Hch Hcs]. unfold sort_policy. destruct_and!.
  repeat match goal with
  | Hx : same_set ?a ?b |- context [sortedUnique ?a] => rewrite (sortedUnique_proper a b Hx); clear Hx
  end. by f_equal; try done; f_equal.
Qed.

#[export] Instance normalizePolicy_proper `{GoText} : Proper (same_policy ==> eq) normalizePolicy.
Proof.
  intros p q E. unfold normalizePolicy. rewrite (sort_policy_proper p q E).
  destruct (sm_version _ _ E) as (-> & -> & ->). done.
Qed.

Lemma sort_policy_same p : same_policy p (sort_policy p).
Proof. split; simpl; split_and?; try done; symmetry; apply sortedUnique_same. Qed.

Lemma normalizePolicy_Ok `{GoText} p p' : normalizePolicy p = Ok p' → p' = sort_policy p ∧ check_policy p' = Ok tt.
Proof. unfold normalizePolicy. intros Hn. run_ok Hn. split; [done|]. by destruct a0. Qed.

(** ** Capabilities *)

(** What a network capability may carry under [input]'s policy. *)
Definition network_allowed (input : normalizedRequest) (c : NetworkCapability) : Prop :=
  let network := Network_ (n_policy input) in
  (nc_Profile c ∈ AllowedProfiles network) ∧
  ((nc_Profile c = "none" ∧ nc_Hosts c = [] ∧ nc_GatewayID c = "") ∨
   (nc_Profile c = "packages" ∧ nc_Hosts c = PackageHosts network ∧ nc_GatewayID c = PackageGatewayID network) ∨
   (nc_Profile c = "allowlist" ∧ (∀ h, h ∈ nc_Hosts c → h ∈ ExternalHosts network) ∧
    nc_GatewayID c = AllowlistGatewayID network) ∨
   (nc_Profile c = "private" ∧ nc_Hosts c = [] ∧ nc_GatewayID c = PrivateGatewayID network)).

Lemma check_Ok ok code message u : check ok code message = Ok u → ok = true.
Proof. unfold check. by destruct ok. Qed.

Lemma each_check {A} (p : A → bool) code message l u :
  each (fun x => check (p x) code message) l = Ok u → Forall (fun x => p x = true) l.
Proof.
  intros He. apply each_ok_unit in He. eapply Forall_impl; [exact He|]. intros x. apply check_Ok.
Qed.

Lemma networkCapability_allowed input nodeID profile c :
  networkCapability input nodeID profile = Ok c → network_allowed input c ∧ nc_NodeID c = nodeID ∧ nc_Profile c = profile.
Proof.
  unfold networkCapability, network_allowed. intros Hn. cbv zeta in Hn. run_ok Hn; simpl; bsimpl; (split; [|done]);
    (split; [done|]); auto 10.
  right; right; left. split; [done|]. split; [|done].
  match goal with He : each _ _ = Ok _ |- _ => apply each_check in He; rename He into Heach end.
  rewrite Forall_forall in Heach. intros h Hh. specialize (Heach h Hh). by bsimpl.
Qed.

Lemma secretCapability_allowed input node c :
  secretCapability input node = Ok c → (se_Name c ∈ SecretNames (n_policy input)) ∧ se_NodeID c = ID node ∧ se_MountID c = se_Name c.
Proof. unfold secretCapability. intros Hs. run_ok Hs. bsimpl. done. Qed.

Section Capabilities.
Context `{!Codec CacheIdentity}.

Lemma cacheCapability_allowed input node c :
  cacheCapability input node = Ok c →
  (cc_Sharing c = "shared" → AllowShared (Cache_ (n_policy input)) = true) ∧ cc_NodeID c = ID node ∧
  cc_Scope c = cp_Scope (Cache_ (n_policy input)).
Proof.
  unfold cacheCapability. intros Hc. run_ok Hc. simpl. split; [|done]. intros Hs. rewrite Hs in Hif.
  bsimpl. by destruct Hif.
Qed.

(** What the loop over the nodes has collected. *)
Record collected (input : normalizedRequest) (nodes : list Node) (s : capabilitySet) : Prop := {
  col_network : Forall (fun c => network_allowed input c ∧
    ∃ n, n ∈ nodes ∧ Operation n = "run" ∧ ID n = nc_NodeID c ∧ text_attr n "network" = nc_Profile c) (cs_network s);
  col_caches : Forall (fun c => cc_Sharing c = "shared" → AllowShared (Cache_ (n_policy input)) = true) (cs_caches s);
  col_secrets : Forall (fun c => se_Name c ∈ SecretNames (n_policy input)) (cs_secrets s);
  col_runs : ∀ n, n ∈ nodes → Operation n = "run" → ID n ∈ nc_NodeID <$> cs_network s;
}.

Lemma collected_nothing input : collected input [] no_capabilities.
Proof. split; simpl; try constructor. by intros n ?%elem_of_nil. Qed.

Lemma add_capability_collected input nodes s node s' :
  collected input nodes s → add_capability input s node = Ok s' → collected input (nodes ++ [node]) s'.
Proof.
  intros [Hn Hc Hs Hr] Ha.
  assert (∀ c, network_allowed input c ∧ (∃ n, n ∈ nodes ∧ Operation n = "run" ∧ ID n = nc_NodeID c ∧
      text_attr n "network" = nc_Profile c) → network_allowed input c ∧ (∃ n, n ∈ nodes ++ [node] ∧
      Operation n = "run" ∧ ID n = nc_NodeID c ∧ text_attr n "network" = nc_Profile c)) as Hmono.
  { intros c [Hal (n & Hin & Hrest)]. split; [done|]. exists n. split; [by apply elem_of_app; left|done]. }
  pose proof (Forall_impl _ _ _ Hn Hmono) as Hn'.
  unfold add_capability in Ha. destruct (String.eqb_spec (Operation node) "cache") as [E|Hne1].
  { run_ok Ha. apply cacheCapability_allowed in Hbind. split; simpl; [done| |done|].
    - apply Forall_app; split; [done|]. repeat constructor. apply Hbind.
    - intros n Hin Hop. apply Hr; [|done]. apply elem_of_app in Hin as [?|?%list_elem_of_singleton]; [done|congruence]. }
  destruct (String.eqb_spec (Operation node) "secret") as [E|Hne2].
  { run_ok Ha. apply secretCapability_allowed in Hbind. split; simpl; [done|done| |].
    - apply Forall_app; split; [done|]. repeat constructor. apply Hbind.
    - intros n Hin Hop. apply Hr; [|done]. apply elem_of_app in Hin as [?|?%list_elem_of_singleton]; [done|congruence]. }
  destruct (String.eqb_spec (Operation node) "run") as [E|Hne3].
  - run_ok Ha. apply networkCapability_allowed in Hbind as (Hal & Hid & Hpr). split; simpl; [|done|done|].
    + apply Forall_app; split; [done|]. apply Forall_singleton. split; [done|]. exists node.
      split_and!; [|done..]. by apply elem_of_app; right; apply list_elem_of_singleton.
    + intros n Hin Hop. rewrite fmap_app. apply elem_of_app in Hin as [Hin| ->%list_elem_of_singleton]; apply elem_of_app.
      * left. by apply Hr.
      * right. rewrite <- Hid. by apply list_elem_of_singleton.
  - simplify_eq. split; [done..|]. intros n Hin Hop. apply Hr; [|done].
    apply elem_of_app in Hin as [?|?%list_elem_of_singleton]; [done|congruence].
Qed.

Lemma compileCapabilities_collected input s :
  compileCapabilities input = Ok s → collected input (Nodes (n_ir input)) s ∧ rejectSecretReferences input s = Ok tt.
Proof.
  unfold compileCapabilities. intros Hc. run_ok Hc. split; [|by destruct a0].
  eapply fold_result_invariant; [apply collected_nothing| |eassumption].
  intros. by eapply add_capability_collected.
Qed.

Lemma cacheCapability_namespace input node c :
  cacheCapability input node = Ok c →
  ∃ canonical, marshal (cache_identity input node) = Some canonical ∧
    cc_Namespace c = "lrail-cache-" +:+ hex_bytes (Sum256 canonical).
Proof.
  unfold cacheCapability, digestValue. intros Hc. destruct (_ && _); [done|].
  destruct (marshal _) as [canonical|]; [|done]. injection Hc as <-. exists canonical. split; [done|].
  cbn [cc_Namespace]. unfold bytesDigest. by rewrite TrimPrefix_app.
Qed.

End Capabilities.

(** ** Mounts *)

(** One path is the other or lies below it. *)
Definition nested (p q : string) : Prop :=
  (∃ r, Split p "/" = Split q "/" ++ r) ∨ (∃ r, Split q "/" = Split p "/" ++ r).

Lemma below_split p q : contained p → contained q → HasPrefix p (q +:+ "/") = true → ∃ r, Split p "/" = Split q "/" ++ r.
Proof.
  intros Hp Hq Hx. apply HasPrefix_spec in Hx as [r ->]. exists (Split r "/").
  rewrite str_app_assoc. change ("/" +:+ r) with (String "/" r). clear.
  induction q as [|d q IH]; [done|]. simpl. rewrite IH.
  destruct (Ascii.eqb d "/"); [done|]. destruct (Split q "/") as [|w ws] eqn:Hw; [by apply Split_nonempty in Hw|done].
Qed.

(** [pathsOverlap] decides nesting. *)
Lemma pathsOverlap_nested p q : contained p → contained q → pathsOverlap p q = true ↔ nested p q.
Proof.
  intros Hp Hq. unfold pathsOverlap. rewrite !Clean_contained by done. split.
  - intros Ho. bsimpl. destruct Ho as [[->|Ho]|Ho].
    + left. exists []. by rewrite app_nil_r.
    + left. by apply below_split.
    + right. by apply below_split.
  - assert (∀ a b r, Split a "/" = Split b "/" ++ r → a = b ∨ HasPrefix a (b +:+ "/") = true) as Hdir.
    { intros a b r Hs. destruct r as [|w r].
      - left. rewrite <- (Join_Split a), <- (Join_Split b), Hs. by rewrite app_nil_r.
      - right. rewrite <- (Join_Split a), <- (Join_Split b), Hs. clear.
        pose proof (Split_nonempty b "/") as Hne. generalize dependent (Split b "/"). intros l Hne.
        apply HasPrefix_spec. exists (Join "/" (w :: r)). induction l as [|x [|y l] IH]; [done|by rewrite str_app_assoc|].
        change (Join "/" ((x :: y :: l) ++ w :: r)) with (x +:+ "/" +:+ Join "/" ((y :: l) ++ w :: r)).
        rewrite IH by done. change (Join "/" (x :: y :: l)) with (x +:+ "/" +:+ Join "/" (y :: l)).
        by rewrite !str_app_assoc. }
    intros [[r Hr]|[r Hr]]; apply Hdir in Hr as [->|Hr]; rewrite ?String.eqb_refl, ?Hr; simpl;
      rewrite ?orb_true_r; done.
Qed.

Lemma run_mounts_targets capabilities mountIDs targets hasSecret hasShared :
  run_mounts capabilities mountIDs = Ok (targets, hasSecret, hasShared) →
  length targets = length mountIDs ∧
  ∀ i mountID, mountIDs !! i = Some mountID →
    (∃ c, cs_cacheByNode capabilities !! mountID = Some c ∧ targets !! i = Some (cc_Target c) ∧
          (cc_Sharing c = "shared" → hasShared = true)) ∨
    (∃ c, cs_cacheByNode capabilities !! mountID = None ∧ cs_secretByNode capabilities !! mountID = Some c ∧
          targets !! i = Some (se_Target c) ∧ hasSecret = true).
Proof.
  revert targets hasSecret hasShared.
  induction mountIDs as [|m rest IH]; intros targets hasSecret hasShared Hr; simpl in Hr; [by simplify_eq|].
  destruct (cs_cacheByNode capabilities !! m) as [c|] eqn:Hc.
  - destruct (run_mounts capabilities rest) as [[[t s1] s2]|] eqn:Hrest; simplify_eq/=.
    destruct (IH _ _ _ eq_refl) as [Hl Hi]. split; [by rewrite Hl|]. intros [|i] mountID Hm; simplify_eq/=.
    + left. exists c. split_and!; [done..|]. intros ->. by rewrite String.eqb_refl.
    + destruct (Hi _ _ Hm) as [(c' & ? & ? & Hs)|(c' & ?)]; [left|right; eauto].
      exists c'. split_and!; [done..|]. intros E. by rewrite (Hs E), orb_true_r.
  - destruct (cs_secretByNode capabilities !! m) as [c|] eqn:Hs; [|done].
    destruct (run_mounts capabilities rest) as [[[t s1] s2]|] eqn:Hrest; simplify_eq/=.
    destruct (IH _ _ _ eq_refl) as [Hl Hi]. split; [by rewrite Hl|]. intros [|i] mountID Hm; simplify_eq/=.
    + right. exists c. done.
    + destruct (Hi _ _ Hm) as [(c' & ? & ? & ?)|(c' & ? & ? & ? & ?)]; [left; eauto|right; eauto 10].
Qed.

Lemma any_overlap_false targets i j p q :
  any_overlap targets = false → (i < j)%nat → targets !! i = Some p → targets !! j = Some q →
  pathsOverlap p q = false.
Proof.
  revert i j. induction targets as [|t rest IH]; intros i j Ho Hij Hi Hj; [done|]. simpl in Ho. bsimpl.
  destruct i as [|i], j as [|j]; try lia; simplify_eq/=.
  - match goal with Hx : existsb _ _ = false |- _ => rename Hx into He end.
    destruct (pathsOverlap p q) eqn:E; [|done]. rewrite <- He. symmetry. apply existsb_exists.
    exists q. split; [|done]. apply list_elem_of_In. by eapply list_elem_of_lookup_2.
  - eapply (IH i j); eauto. lia.
Qed.

(** ** Base materials *)

Section Materials.
Context `{GoText} `{!Codec ResolutionEvidence}.

(** What a locked material proves about itself under [policy]. *)
Definition material_proven (policy : Policy) (platform : string) (m : BaseMaterial) : Prop :=
  is_digest (bm_Digest m) = true ∧ HasSuffix (RequestedRef m) ("@" +:+ bm_Digest m) = true ∧
  HasSuffix (ResolvedRef m) ("@" +:+ bm_Digest m) = true ∧ Registry m = registryFromReference (ResolvedRef m) ∧
  (Registry m ∈ AllowedRegistries (Base_ policy)) ∧ (platform ∈ Platforms m) ∧
  (SignatureIdentity m ∈ AllowedSignatureIdentities (Base_ policy)) ∧
  ((Classification m = "curated" ∧ (bm_Digest m ∈ CuratedDigests (Base_ policy))) ∨
   (Classification m = "customer" ∧ AllowCustomerBases (Base_ policy) = true)) ∧
  materialResolutionDigest m = Ok (bm_ResolutionDigest m).

Lemma check_material_Ok policy platform expected m expected' m' :
  check_material policy platform expected m = Ok (expected', m') →
  is_Some (expected !! RequestedRef m) ∧ RequestedRef m' = RequestedRef m ∧
  expected' = delete (RequestedRef m) expected ∧ material_proven policy platform m'.
Proof.
  unfold check_material. intros Hc. run_ok Hc; cbn [bind_result] in *;
    repeat match goal with Hk : check _ _ _ = Ok _ |- _ => apply check_Ok in Hk end; bsimpl;
    (split_and!; [done|done|done|]); unfold material_proven; simpl in *; split_and!; try done; try congruence; auto.
Qed.

Lemma check_materials_Ok policy platform expected materials expected' out :
  check_materials policy platform expected materials = Ok (expected', out) →
  NoDup (RequestedRef <$> out) ∧ Forall (material_proven policy platform) out ∧
  (∀ r, is_Some (expected !! r) ↔ is_Some (expected' !! r) ∨ r ∈ RequestedRef <$> out) ∧
  (∀ r, r ∈ RequestedRef <$> out → expected' !! r = None).
Proof.
  revert expected expected' out. induction materials as [|m rest IH]; intros expected expected' out Hc; simpl in Hc.
  { simplify_eq. split_and!; [constructor|constructor|set_solver|set_solver]. }
  destruct (check_material _ _ _ _) as [[e1 m1]|] eqn:H1; [|done]. simpl in Hc.
  destruct (check_materials _ _ e1 rest) as [[e2 out2]|] eqn:H2; [|done]. simplify_eq/=.
  apply check_material_Ok in H1 as (Hin & Href & -> & Hp). apply IH in H2 as (Hnd & Hf & Hiff & Hnone).
  assert (RequestedRef m ∉ RequestedRef <$> out2) as Hnot.
  { intros Hx. assert (is_Some (delete (RequestedRef m) expected !! RequestedRef m)) as [? Hy] by (apply Hiff; auto).
    by rewrite lookup_delete_eq in Hy. }
  assert (expected' !! RequestedRef m = None) as Hgone.
  { destruct (expected' !! RequestedRef m) eqn:E; [|done].
    assert (is_Some (delete (RequestedRef m) expected !! RequestedRef m)) as [? Hy] by (apply Hiff; eauto).
    by rewrite lookup_delete_eq in Hy. }
  split_and!.
  - simpl. rewrite Href. by constructor.
  - by constructor.
  - intros r. simpl. rewrite elem_of_cons, Href. destruct (decide (r = RequestedRef m)) as [->|Hne].
    + split; [auto|done].
    + specialize (Hiff r). rewrite lookup_delete_ne in Hiff by done. rewrite Hiff. naive_solver.
  - intros r. simpl. rewrite elem_of_cons, Href. intros [->|Hr]; [done|auto].
Qed.

Lemma expected_materials_dom nodes expected r :
  is_Some (expected_materials nodes expected !! r) ↔
  is_Some (expected !! r) ∨ ∃ n, n ∈ nodes ∧ Operation n = "image" ∧ text_attr n "ref" = r.
Proof.
  revert expected. induction nodes as [|n nodes IH]; intros expected; simpl.
  { split; [auto|]. intros [?|(n & Hn & _)]; [done|]. by apply elem_of_nil in Hn. }
  rewrite IH. destruct (String.eqb_spec (Operation n) "image") as [E|Hne].
  - rewrite lookup_insert. change (default "" (as_string (attr n "ref"))) with (text_attr n "ref"). case_decide.
    + split; [|eauto]. intros _. right. exists n. set_solver.
    + split; [intros [?|(n' & ? & ? & ?)]; [auto|]|intros [?|(n' & Hn' & ? & ?)]; [auto|]].
      * right. exists n'. set_solver.
      * apply elem_of_cons in Hn' as [->|Hn']; [done|]. right. exists n'. auto.
  - split; [intros [?|(n' & ? & ? & ?)]; [auto|]|intros [?|(n' & Hn' & ? & ?)]; [auto|]].
    + right. exists n'. set_solver.
    + apply elem_of_cons in Hn' as [->|Hn']; [done|]. right. exists n'. auto.
Qed.

Lemma normalizeMaterials_Ok ir materials policy out :
  normalizeMaterials ir materials policy = Ok out →
  NoDup (RequestedRef <$> out) ∧ Forall (material_proven policy (TargetPlatform ir)) out ∧
  (∀ r, r ∈ RequestedRef <$> out ↔ ∃ n, n ∈ Nodes ir ∧ Operation n = "image" ∧ text_attr n "ref" = r) ∧
  StronglySorted (le_by compare_materials) out.
Proof.
  unfold normalizeMaterials. intros Hn. cbv zeta in Hn. run_ok Hn. destruct a as [e checked]. simpl in *.
  apply check_materials_Ok in Hbind as (Hnd & Hf & Hiff & Hnone). bsimpl.
  match goal with Hs : size e = 0%nat |- _ => apply map_size_empty_inv in Hs as -> end.
  pose proof (SortStableFunc_perm compare_materials checked) as Hp. split_and!.
  - by rewrite Hp.
  - by rewrite Hp.
  - intros r. rewrite Hp. specialize (Hiff r). rewrite lookup_empty, expected_materials_dom, lookup_empty in Hiff.
    split; [intros Hr|intros Hr].
    + destruct Hiff as [_ Hiff]. destruct Hiff as [[? Hx]|Hx]; [by right|done|done].
    + destruct Hiff as [Hiff _]. destruct Hiff as [[? Hx]|Hx]; [by right|done|done].
  - apply (SortStableFunc_sorted compare_materials (fun _ => True)).
    + intros. apply Compare_total.
    + intros x y z _ _ _. apply Compare_trans.
    + by apply Forall_true.
Qed.

End Materials.

(** ** Examples *)

Definition sample_policy : Policy :=
  {| APIVersion := CurrentPolicyAPIVersion; pol_ID := "pol_018bcfe5-687b-7bab-abab-abababababab"; Revision := "1.2.3";
     Base_ := {| AllowedRegistries := ["registry.test"; "docker.io"; "registry.test"]; CuratedDigests := [sample_digest "a"];
                 AllowCustomerBases := false; AllowedSignatureIdentities := ["platform"];
                 RequireSBOM := false; RequireProvenance := false |};
     Network_ := {| AllowedProfiles := ["packages"; "none"]; PackageHosts := ["pypi.org"; "npmjs.com"];
                    ExternalHosts := []; PackageGatewayID := "gw-packages"; AllowlistGatewayID := "";
                    PrivateGatewayID := "" |};
     Cache_ := {| cp_Scope := "project"; TrustDomain := "customer"; AllowShared := false; AllowSharedWithSecrets := false |};
     SecretNames := ["token"]; ArgumentNames := ["VERSION"];
     SupplyChain := {| sp_Version := 1; SyftVersion := "1.46.0"; TrivyVersion := "0.72.0"; SignerKeyID := "lrail-build-evidence";
       AllowedSignerPublicKeyDigests := [sample_digest "c"]; DeniedVulnerabilitySeverities := ["CRITICAL"];
       DeniedConfigurationSeverities := ["HIGH"; "CRITICAL"]; DeniedLicenseClassifications := ["Forbidden"];
       RequireSecretFree := true; RequireImageConfigurationScan := true |} |}.

Definition sample_input : normalizedRequest :=
  {| n_organizationID := "org_018bcfe5-687b-7bab-abab-abababababab"; n_projectID := "prj_018bcfe5-687b-7bab-abab-abababababab";
     n_ir := sample_ir; n_irDigest := sample_digest "b"; n_policy := sort_policy sample_policy;
     n_policyDigest := sample_digest "d"; n_materials := []; n_buildArguments := [{| nv_Name := "VERSION"; nv_Value := "7" |}] |}.

(** ** Theorems *)

(** A policy has one normal form.  What [normalizePolicy] accepts it returns
    with the same values listed; and any policy that lists the same values, in
    whatever order and however often, is accepted with the very same result.  So
    the policy digest identifies the policy, and normalising twice changes
    nothing. *)
Theorem policy_normal_form `{GoText} p p' :
  normalizePolicy p = Ok p' →
  same_policy p p' ∧ (∀ q, same_policy p q → normalizePolicy q = Ok p') ∧ normalizePolicy p' = Ok p'.
Proof.
  intros Hn. destruct (normalizePolicy_Ok _ _ Hn) as [-> Hc]. pose proof (sort_policy_same p) as Hs. split_and!.
  - done.
  - intros q Hq. by rewrite <- (normalizePolicy_proper p q Hq).
  - by rewrite <- (normalizePolicy_proper p (sort_policy p) Hs).
Qed.

Lemma policy_normal_form_witness :
  same_policy sample_policy (sort_policy sample_policy) ∧
  (∀ q, same_policy sample_policy q → @normalizePolicy plain_text q = Ok (sort_policy sample_policy)) ∧
  @normalizePolicy plain_text (sort_policy sample_policy) = Ok (sort_policy sample_policy).
Proof. apply policy_normal_form. vm_compute. reflexivity. Defined.

(** C31: Compiled capabilities stay within the policy.  Every run node gets a
    network capability with an allowed profile and exactly the gateway and hosts
    the policy gives that profile; every secret is one the policy names; shared
    caches appear only where they are allowed; and no secret's name is passed as a
    build argument, a command-line argument or an environment value of a run. *)
Theorem capabilities_within_policy `{!Codec CacheIdentity} input s :
  compileCapabilities input = Ok s →
  Forall (network_allowed input) (cs_network s) ∧
  (∀ n, n ∈ Nodes (n_ir input) → Operation n = "run" → ID n ∈ nc_NodeID <$> cs_network s) ∧
  Forall (fun c => se_Name c ∈ SecretNames (n_policy input)) (cs_secrets s) ∧
  Forall (fun c => cc_Sharing c = "shared" → AllowShared (Cache_ (n_policy input)) = true) (cs_caches s) ∧
  ∀ c, c ∈ cs_secrets s →
    Forall (fun a => nv_Value a ≠ se_Name c) (n_buildArguments input) ∧
    ∀ n, n ∈ Nodes (n_ir input) → Operation n = "run" →
      (∀ argv, stringSlice (attr n "argv") = Some argv → se_Name c ∉ argv) ∧
      (∀ env key, stringMap (attr n "env") = Some env → env !! key ≠ Some (se_Name c)).
Proof.
  intros Hc. apply compileCapabilities_collected in Hc as [[Hn Hca Hs Hr] Hrej].
  split_and!; [|done..|].
  { eapply Forall_impl; [exact Hn|]. by intros c [? _]. }
  intros c Hcin. unfold rejectSecretReferences in Hrej. cbv zeta in Hrej. run_ok Hrej. cbn [bind_result] in Hrej.
  set (identifiers := (se_Name <$> cs_secrets s) ++ (se_MountID <$> cs_secrets s)) in *.
  assert (se_Name c ∈ identifiers) as Hid by (apply elem_of_app; left; by apply list_elem_of_fmap_2).
  split.
  - apply (each_check (fun a => negb (slices_Contains identifiers (nv_Value a)))) in Hbind.
    eapply Forall_impl; [exact Hbind|]. intros x Hx E. bsimpl. congruence.
  - intros n Hnin Hop. apply each_Ok in Hrej. rewrite Forall_forall in Hrej.
    specialize (Hrej n Hnin). simpl in Hrej. rewrite Hop in Hrej. simpl in Hrej. run_ok Hrej. cbn [bind_result] in Hrej.
    apply (each_check (fun v => negb (slices_Contains identifiers v))) in Hbind0.
    apply (each_check (fun e => negb (slices_Contains identifiers e.2))) in Hrej.
    rewrite Forall_forall in Hbind0. rewrite Forall_forall in Hrej. split.
    + intros argv Hargv Hin. rewrite Hargv in Hbind0. specialize (Hbind0 _ Hin). simpl in Hbind0. bsimpl. done.
    + intros env key Henv Hl. rewrite Henv in Hrej. simpl in Hrej.
      specialize (Hrej (key, se_Name c) ltac:(by apply elem_of_map_to_list)). simpl in Hrej. bsimpl. done.
Qed.

Lemma capabilities_within_policy_witness :
  let codec := single_codec (cache_identity sample_input sample_run) in
  ∃ s, @compileCapabilities codec sample_input = Ok s ∧ Forall (network_allowed sample_input) (cs_network s) ∧
       length (cs_network s) = 1%nat ∧ length (cs_secrets s) = 1%nat.
Proof.
  intros codec. eexists. split; [vm_compute; reflexivity|]. split; [|split; reflexivity].
  apply (@capabilities_within_policy codec). vm_compute. reflexivity.
Defined.

(** Caches of different scopes are apart.  Two cache capabilities share a
    namespace only when they have the same identity (node, scope and scope ID,
    trust domain, policy digest, name and target), unless SHA-256 collides on two
    distinct canonical texts. *)
Theorem cache_namespace_isolated `{!Codec CacheIdentity} in1 in2 node1 node2 c1 c2 :
  cacheCapability in1 node1 = Ok c1 → cacheCapability in2 node2 = Ok c2 → cc_Namespace c1 = cc_Namespace c2 →
  cache_identity in1 node1 = cache_identity in2 node2 ∨
  ∃ x y, x ≠ y ∧ Sum256 x = Sum256 y ∧
    marshal (cache_identity in1 node1) = Some x ∧ marshal (cache_identity in2 node2) = Some y.
Proof.
  intros H1 H2 Heq. apply cacheCapability_namespace in H1 as (x & Hx & N1).
  apply cacheCapability_namespace in H2 as (y & Hy & N2). rewrite N1, N2 in Heq. apply (inj _) in Heq.
  apply hex_Sum256_inj in Heq. destruct (decide (x = y)) as [<-|Hne]; [left|right; eauto 10].
  apply unmarshal_marshal in Hx, Hy. congruence.
Qed.

Lemma cache_namespace_isolated_witness :
  let node := {| ID := "n1"; Operation := "cache"; Inputs := [];
                 Attributes := Some {["name" := AnyString "deps"; "target" := AnyString "/cache"; "sharing" := AnyString "private"]} |} in
  let codec := single_codec (cache_identity sample_input node) in
  cache_identity sample_input node = cache_identity sample_input node ∨
  ∃ x y, x ≠ y ∧ Sum256 x = Sum256 y ∧
    marshal (cache_identity sample_input node) = Some x ∧ marshal (cache_identity sample_input node) = Some y.
Proof.
  intros node codec.
  apply (@cache_namespace_isolated codec sample_input sample_input node node
    {| cc_NodeID := "n1"; cc_Name := "deps"; cc_Target := "/cache"; cc_Sharing := "private"; cc_Scope := "project";
       cc_Namespace := "lrail-cache-" +:+ hex_bytes (Sum256 "json") |}
    {| cc_NodeID := "n1"; cc_Name := "deps"; cc_Target := "/cache"; cc_Sharing := "private"; cc_Scope := "project";
       cc_Namespace := "lrail-cache-" +:+ hex_bytes (Sum256 "json") |}); vm_compute; reflexivity.
Defined.

(** The mounts of a run do not shadow each other: every mount is a known cache
    or secret, no target (a contained path) lies at or below another, and a secret
    is never mounted beside a shared cache unless the policy allows it. *)
Theorem run_mounts_disjoint node capabilities policy :
  validateRunMounts node capabilities policy = Ok tt →
  ∃ mounts targets, stringSlice (attr node "mounts") = Some mounts ∧ length targets = length mounts ∧
    (∀ i j p q, (i < j)%nat → targets !! i = Some p → targets !! j = Some q → contained p → contained q → ¬ nested p q) ∧
    (∀ i m, mounts !! i = Some m →
       (∃ c, cs_cacheByNode capabilities !! m = Some c ∧ targets !! i = Some (cc_Target c)) ∨
       (∃ c, cs_secretByNode capabilities !! m = Some c ∧ targets !! i = Some (se_Target c))) ∧
    (∀ m1 m2 cache secret, m1 ∈ mounts → m2 ∈ mounts → cs_cacheByNode capabilities !! m1 = Some cache →
       cs_cacheByNode capabilities !! m2 = None → cs_secretByNode capabilities !! m2 = Some secret →
       cc_Sharing cache = "shared" → AllowSharedWithSecrets policy = true).
Proof.
  unfold validateRunMounts. destruct (stringSlice _) as [mounts|]; [|done]. intros Hv.
  destruct (run_mounts capabilities mounts) as [[[targets hasSecret] hasShared]|] eqn:Hr; [|done]. simpl in Hv.
  destruct (any_overlap targets) eqn:Ho; [done|]. destruct (_ && _) eqn:Hs; [done|].
  apply run_mounts_targets in Hr as [Hl Hm]. exists mounts, targets. split_and!; [done..| | |].
  - intros i j p q Hij Hp Hq Hcp Hcq Hnest. apply pathsOverlap_nested in Hnest; [|done..].
    by rewrite (any_overlap_false _ _ _ _ _ Ho Hij Hp Hq) in Hnest.
  - intros i m Hi. destruct (Hm _ _ Hi) as [(c & ? & ? & _)|(c & _ & ? & ? & _)]; eauto.
  - intros m1 m2 cache secret [i Hi]%list_elem_of_lookup [j Hj]%list_elem_of_lookup Hc Hn2 Hs2 Hsh.
    destruct (Hm _ _ Hi) as [(c & Hc' & _ & Hshared)|(c & Hc' & _)]; [|congruence].
    destruct (Hm _ _ Hj) as [(c' & Hc2 & _)|(c' & _ & _ & _ & ->)]; [congruence|].
    rewrite Hshared in Hs by congruence. simpl in Hs. by apply negb_false_iff.
Qed.

Lemma run_mounts_disjoint_witness :
  let codec := single_codec (cache_identity sample_input sample_run) in
  let capabilities := match @compileCapabilities codec sample_input with Ok s => s | Err _ => no_capabilities end in
  ∃ mounts targets, stringSlice (attr sample_run "mounts") = Some mounts ∧ length targets = length mounts ∧
    (∀ i m, mounts !! i = Some m →
       (∃ c, cs_cacheByNode capabilities !! m = Some c ∧ targets !! i = Some (cc_Target c)) ∨
       (∃ c, cs_secretByNode capabilities !! m = Some c ∧ targets !! i = Some (se_Target c))).
Proof.
  intros codec capabilities.
  destruct (run_mounts_disjoint sample_run capabilities (Cache_ sample_policy)) as (mounts & targets & H1 & H2 & _ & H4 & _).
  - vm_compute. reflexivity.
  - exists mounts, targets. split; [exact H1|]. split; [exact H2|exact H4].
Defined.

(** The locked base materials cover the images of the graph exactly: the
    accepted references are those of the image nodes, each once and in order, and
    each material pins one digest under both names, comes from an allowed registry
    and signer, fits the target platform, is curated or an allowed customer base,
    and carries its own resolution digest. *)
Theorem materials_cover_images `{GoText} `{!Codec ResolutionEvidence} ir materials policy out :
  normalizeMaterials ir materials policy = Ok out →
  NoDup (RequestedRef <$> out) ∧ Forall (material_proven policy (TargetPlatform ir)) out ∧
  (∀ r, r ∈ RequestedRef <$> out ↔ ∃ n, n ∈ Nodes ir ∧ Operation n = "image" ∧ text_attr n "ref" = r) ∧
  StronglySorted (le_by compare_materials) out.
Proof. apply normalizeMaterials_Ok. Qed.

Definition sample_material : BaseMaterial :=
  let ref := "registry.test/base@" +:+ sample_digest "a" in
  {| RequestedRef := ref; ResolvedRef := ref; bm_Digest := sample_digest "a"; Registry := "registry.test";
     Classification := "curated"; Platforms := ["linux/amd64"]; SBOMDigest := ""; ProvenanceDigest := "";
     SignatureIdentity := "platform"; bm_ResolutionDigest := bytesDigest "json" |}.

Definition sample_resolution : ResolutionEvidence :=
  let ref := "registry.test/base@" +:+ sample_digest "a" in
  {| re_Version := 1; re_RequestedRef := ref; re_ResolvedRef := ref; re_Digest := sample_digest "a";
     re_Registry := "registry.test"; re_Classification := "curated"; re_Platforms := ["linux/amd64"]; re_SBOMDigest := "";
     re_ProvenanceDigest := ""; re_SignatureIdentity := "platform" |}.

Lemma materials_cover_images_witness :
  let policy := sort_policy sample_policy in
  NoDup [RequestedRef sample_material] ∧
  Forall (@material_proven (single_codec sample_resolution) policy "linux/amd64") [sample_material] ∧
  (∀ r, r ∈ [RequestedRef sample_material] ↔
        ∃ n, n ∈ Nodes sample_ir ∧ Operation n = "image" ∧ text_attr n "ref" = r) ∧
  StronglySorted (le_by compare_materials) [sample_material].
Proof.
  intros policy.
  apply (@materials_cover_images plain_text (single_codec sample_resolution) sample_ir [sample_material] policy [sample_material]).
  vm_compute. reflexivity.
Defined.

End LLBPolicy.
