(* ===== verification/EgressPolicy.v ===== *)
(** * The egress capability of a build (build-plane/internal/buildegress/policy.go, certificate.go)

    [NewPolicy] turns the lock of a verified assignment into the destinations a
    worker may reach; the policy travels in the worker's client certificate and the
    proxy reads it back.  [public_grant] and [private_grant] say what a lock grants;
    the theorems show that the policy's lookups answer exactly that. *)

From S2P Require Import Prelude Text GoStd PlatformID CanonicalJSON ClientHello NetAddr LLBPolicy.
Import GoStd PlatformID CanonicalJSON NetAddr.

Open Scope Z_scope.

Module EgressPolicy.

Abbreviation BaseMaterial := LLBPolicy.BaseMaterial (only parsing).
Abbreviation NetworkCapability := LLBPolicy.NetworkCapability (only parsing).
Abbreviation DefinitionLock := LLBPolicy.DefinitionLock (only parsing).
Abbreviation validHostname := ClientHello.validHostname.

Definition CurrentPolicyVersion : Z := 1.
Definition MaxPolicyBytes : Z := Z.shiftl 16 10.
Definition MaxDestinations : nat := 256.
Definition MaxResolvedAddresses : nat := 32.
Definition maxPolicyLifetime : Duration := Hour.

(** [^[a-z0-9]([-a-z0-9]{0,61}[a-z0-9])?$] *)
Definition is_worker_name : string → bool := is_label.

Record PrivateEndpoint := { pe_CIDRs : list string; pe_Ports : list Z; pe_Hosts : list string }.

Record Destination := { de_Domain : string; de_Ports : list Z; de_Profiles : list string }.

Record PrivateDestination := { pd_GatewayID : string; pd_CIDRs : list string; pd_Ports : list Z; pd_Domains : list string }.

Record NetworkAuthority := { na_NodeID : string; na_Profile : string; na_Hosts : list string; na_GatewayID : string }.

Record Policy := {
  ep_Version : Z;
  ep_BuildID : string;
  ep_OrganizationID : string;
  ep_WorkerName : string;
  ep_PayloadDigest : string;
  ep_Generation : Z;
  ep_NotBeforeUnix : Z;
  ep_ExpiresAtUnix : Z;
  ep_Destinations : list Destination;
  ep_PrivateGateways : list PrivateDestination;
  ep_NetworkAuthority : list NetworkAuthority;
}.

#[export] Instance Destination_eq_dec : EqDecision Destination.
Proof. solve_decision. Defined.
#[export] Instance PrivateDestination_eq_dec : EqDecision PrivateDestination.
Proof. solve_decision. Defined.
#[export] Instance NetworkAuthority_eq_dec : EqDecision NetworkAuthority.
Proof. solve_decision. Defined.
#[export] Instance Policy_eq_dec : EqDecision Policy.
Proof. solve_decision. Defined.

(** [map[uint16]map[string]struct{}] *)
Abbreviation portProfiles := (gmap Z (gset string)).

(** ** Time in seconds *)

Definition Truncate (t : Time) (d : Duration) : Time := t - t mod d.
Definition Unix (t : Time) : Z := t / Second - unixToInternal.
Definition FromUnix (seconds : Z) : Time := (seconds + unixToInternal) * Second.

(** ** Checks on values *)

Definition private_parents : list string := ["10.0.0.0/8"; "100.64.0.0/10"; "172.16.0.0/12"; "192.168.0.0/16"; "fc00::/7"].

(** [netip.MustParsePrefix]; its argument is always valid here, so a panic is the
    prefix of no address. *)
Definition MustParsePrefix (s : string) : Prefix :=
  match ParsePrefix s with Some p => p | None => {| px_addr := NoAddr; px_bits := 0 |} end.

Definition allowedPrivatePrefix (value : string) : bool :=
  match ParsePrefix value with
  | None => false
  | Some prefix =>
      if negb (bool_decide (prefix = Masked prefix)) || Is4In6 (px_addr prefix) then false
      else existsb (fun parentText =>
        let parent := MustParsePrefix parentText in
        (BitLen (px_addr parent) =? BitLen (px_addr prefix)) && (px_bits parent <=? px_bits prefix) && ContainsAddr parent (px_addr prefix))
        private_parents
  end.

Fixpoint ports_above (previous : Z) (values : list Z) : bool :=
  match values with
  | [] => true
  | value :: rest => negb ((value =? 0) || (value <=? previous)) && ports_above value rest
  end.

Definition strictPorts (values : list Z) : bool := negb (length values =? 0)%nat && ports_above 0 values.

Fixpoint strings_above (previous : string) (values : list string) : bool :=
  match values with
  | [] => true
  | value :: rest => negb (String.eqb value "" || (Compare value previous <=? 0)) && strings_above value rest
  end.

Definition strictOptionalStrings (values : list string) : bool := strings_above "" values.
Definition strictStrings (values : list string) : bool := negb (length values =? 0)%nat && strictOptionalStrings values.

Definition equalPrivateDestination (left right : PrivateDestination) : bool :=
  String.eqb (pd_GatewayID left) (pd_GatewayID right) && bool_decide (pd_CIDRs left = pd_CIDRs right) &&
  bool_decide (pd_Ports left = pd_Ports right) && bool_decide (pd_Domains left = pd_Domains right).

Definition containsPort (ports : list Z) (port : Z) : bool := existsb (Z.eqb port) ports.

(** ** Validate *)

Definition invalid (message : string) : error := Error "" message.

Fixpoint check_destinations (previousDomain : string) (destinations : list Destination) : result unit :=
  match destinations with
  | [] => Ok tt
  | d :: rest =>
      if negb (validHostname (de_Domain d)) || (Compare (de_Domain d) previousDomain <=? 0) || (length (de_Ports d) =? 0)%nat || negb (strictPorts (de_Ports d)) ||
         (length (de_Profiles d) =? 0)%nat || negb (strictStrings (de_Profiles d))
      then Err (invalid "egress policy public destination is invalid")
      else if existsb (fun profile => negb (String.eqb profile "base") && negb (String.eqb profile "packages") && negb (String.eqb profile "allowlist")) (de_Profiles d)
      then Err (invalid "egress policy public destination profile is invalid")
      else check_destinations (de_Domain d) rest
  end.

Fixpoint check_gateways (previousGateway : string) (gateways : list PrivateDestination) : result unit :=
  match gateways with
  | [] => Ok tt
  | g :: rest =>
      if String.eqb (pd_GatewayID g) "" || (Compare (pd_GatewayID g) previousGateway <=? 0) || (length (pd_CIDRs g) =? 0)%nat || (length (pd_Ports g) =? 0)%nat ||
         negb (strictStrings (pd_CIDRs g)) || negb (strictPorts (pd_Ports g)) || negb (strictOptionalStrings (pd_Domains g))
      then Err (invalid "egress policy private destination is invalid")
      else if existsb (fun cidr => negb (allowedPrivatePrefix cidr)) (pd_CIDRs g) then Err (invalid "egress policy private prefix is invalid")
      else if existsb (fun domain => negb (validHostname domain)) (pd_Domains g) then Err (invalid "egress policy private domain is invalid")
      else check_gateways (pd_GatewayID g) rest
  end.

Fixpoint check_authority (previousNode : string) (authorities : list NetworkAuthority) : result unit :=
  match authorities with
  | [] => Ok tt
  | a :: rest =>
      if String.eqb (na_NodeID a) "" || (Compare (na_NodeID a) previousNode <=? 0) ||
         negb (slices_Contains ["none"; "packages"; "allowlist"; "private"] (na_Profile a)) || negb (strictOptionalStrings (na_Hosts a))
      then Err (invalid "egress policy network authority is invalid")
      else if existsb (fun host => negb (validHostname host)) (na_Hosts a) then Err (invalid "egress policy network host is invalid")
      else if (String.eqb (na_Profile a) "none" && (negb (length (na_Hosts a) =? 0)%nat || negb (String.eqb (na_GatewayID a) ""))) ||
              (negb (String.eqb (na_Profile a) "none") && String.eqb (na_GatewayID a) "") ||
              (String.eqb (na_Profile a) "private" && negb (length (na_Hosts a) =? 0)%nat)
      then Err (invalid "egress policy network authority shape is invalid")
      else check_authority (na_NodeID a) rest
  end.

Section Policy.
Context `{GoText} `{!JSON Policy}.

Definition Validate (policy : Policy) : result unit :=
  if negb (ep_Version policy =? CurrentPolicyVersion) || negb (has_prefix (ep_BuildID policy) "bld") || negb (has_prefix (ep_OrganizationID policy) "org") ||
     negb (is_worker_name (ep_WorkerName policy)) || negb (is_digest (ep_PayloadDigest policy)) || (ep_Generation policy =? 0) ||
     (ep_NotBeforeUnix policy <=? 0) || (ep_ExpiresAtUnix policy <=? ep_NotBeforeUnix policy) ||
     ((maxPolicyLifetime + Minute) / Second <? i64 (ep_ExpiresAtUnix policy - ep_NotBeforeUnix policy)) ||
     (MaxDestinations <? length (ep_Destinations policy))%nat || (MaxDestinations <? length (ep_PrivateGateways policy))%nat ||
     (MaxDestinations <? length (ep_NetworkAuthority policy))%nat
  then Err (invalid "egress policy identity, lifetime, or size is invalid")
  else
    let* _ := check_destinations "" (ep_Destinations policy) in
    let* _ := check_gateways "" (ep_PrivateGateways policy) in
    let* _ := check_authority "" (ep_NetworkAuthority policy) in
    match Marshal policy with
    | Ok encoded => if MaxPolicyBytes <? len encoded then Err (invalid "egress policy cannot be encoded within its limit") else Ok tt
    | Err _ => Err (invalid "egress policy cannot be encoded within its limit")
    end.

(** ** NewPolicy *)

Definition addDestination (destinations : gmap string portProfiles) (domain : string) (port : Z) (profile : string) : gmap string portProfiles :=
  let ports := default ∅ (destinations !! domain) in
  <[domain := <[port := default ∅ (ports !! port) ∪ {[profile]}]> ports]> destinations.

Definition parseRegistryAuthority (authority : string) : result (string * Z) :=
  let authority := ToLower (TrimSpace authority) in
  if String.eqb authority "docker.io" then Ok ("registry-1.docker.io", 443)
  else if validHostname authority then Ok (authority, 443)
  else match SplitHostPort authority with
  | None => Err (invalid "registry authority is invalid")
  | Some (host, portText) =>
      if negb (validHostname host) then Err (invalid "registry authority is invalid")
      else match ParseUint16 portText with
      | Some port => if port =? 443 then Ok (host, port) else Err (invalid "public registry must use HTTPS port 443")
      | None => Err (invalid "public registry must use HTTPS port 443")
      end
  end.

Definition add_material (destinations : gmap string portProfiles) (material : BaseMaterial) : result (gmap string portProfiles) :=
  match parseRegistryAuthority (LLBPolicy.Registry material) with
  | Err _ => Err (invalid "base registry egress authority is invalid")
  | Ok (host, port) =>
      let destinations := addDestination destinations host port "base" in
      let destinations :=
        if String.eqb (LLBPolicy.Registry material) "docker.io"
        then addDestination (addDestination destinations "auth.docker.io" 443 "base") "production.cloudfront.docker.com" 443 "base"
        else destinations in
      Ok (if String.eqb (LLBPolicy.Registry material) "ghcr.io"
          then addDestination destinations "pkg-containers.githubusercontent.com" 443 "base" else destinations)
  end.

(** [slices.Compact] after a sort of ports *)
Fixpoint compact_ports (l : list Z) : list Z :=
  match l with
  | x :: (y :: _) as rest => if x =? y then compact_ports rest else x :: compact_ports rest
  | _ => l
  end.

Definition sort_ports : list Z → list Z := SortStableFunc (fun a b => a - b).

Definition normalizePrivateDestination (gatewayID : string) (endpoint : PrivateEndpoint) : result PrivateDestination :=
  if existsb (fun port => (port <? 1) || (65535 <? port)) (pe_Ports endpoint) then Err (invalid "private egress port is invalid")
  else
    let private := {| pd_GatewayID := gatewayID; pd_CIDRs := Compact (Sort (pe_CIDRs endpoint));
                      pd_Ports := compact_ports (sort_ports (map u16 (pe_Ports endpoint))); pd_Domains := Compact (Sort (pe_Hosts endpoint)) |} in
    if String.eqb gatewayID "" || (length (pd_CIDRs private) =? 0)%nat || (length (pd_Ports private) =? 0)%nat
    then Err (invalid "private egress gateway mapping is empty")
    else if existsb (fun cidr => negb (allowedPrivatePrefix cidr)) (pd_CIDRs private) then Err (invalid "private egress CIDR is not an exact private prefix")
    else if existsb (fun domain => negb (validHostname domain)) (pd_Domains private) then Err (invalid "private egress domain is invalid")
    else Ok private.

(** What the loop over [lock.Network] builds: the authorities, the destinations and
    the private gateways. *)
Record network_state := {
  ns_authority : list NetworkAuthority;
  ns_destinations : gmap string portProfiles;
  ns_private : gmap string PrivateDestination;
}.

Definition add_network (privateMappings : gmap string PrivateEndpoint) (s : network_state) (capability : NetworkCapability) : result network_state :=
  let profile := LLBPolicy.nc_Profile capability in
  let gatewayID := LLBPolicy.nc_GatewayID capability in
  let authority := ns_authority s ++ [{| na_NodeID := LLBPolicy.nc_NodeID capability; na_Profile := profile;
                                         na_Hosts := LLBPolicy.nc_Hosts capability; na_GatewayID := gatewayID |}] in
  if String.eqb profile "none" then Ok {| ns_authority := authority; ns_destinations := ns_destinations s; ns_private := ns_private s |}
  else if String.eqb profile "packages" || String.eqb profile "allowlist" then
    Ok {| ns_authority := authority; ns_private := ns_private s;
          ns_destinations := fold_left (fun d host => addDestination d host 443 profile) (LLBPolicy.nc_Hosts capability) (ns_destinations s) |}
  else if String.eqb profile "private" then
    match privateMappings !! gatewayID with
    | None => Err (invalid "private egress gateway has no site mapping")
    | Some mapped =>
        let* private := normalizePrivateDestination gatewayID mapped in
        if match ns_private s !! gatewayID with Some existing => negb (equalPrivateDestination existing private) | None => false end
        then Err (invalid "private egress gateway mapping is inconsistent")
        else Ok {| ns_authority := authority; ns_destinations := ns_destinations s; ns_private := <[gatewayID := private]> (ns_private s) |}
    end
  else Err (invalid "network authority contains an unsupported profile").

(** The loops over maps collect in any order and then sort. *)
Definition to_destination (entry : string * portProfiles) : Destination :=
  {| de_Domain := entry.1; de_Ports := sort_ports (elements (dom entry.2));
     de_Profiles := Sort (elements (⋃ (map_to_list entry.2).*2)) |}.

Definition by_domain (left right : Destination) : Z := Compare (de_Domain left) (de_Domain right).
Definition by_node (left right : NetworkAuthority) : Z := Compare (na_NodeID left) (na_NodeID right).

Definition sortedKeys {T} (values : gmap string T) : list string := Sort (elements (dom values)).

Definition NewPolicy (buildID organizationID workerName payloadDigest : string) (generation : Z) (notBefore expiresAt : Time)
    (lock : DefinitionLock) (privateMappings : gmap string PrivateEndpoint) : result Policy :=
  let* destinations := fold_result add_material ∅ (LLBPolicy.dl_BaseMaterials lock) in
  let* network := fold_result (add_network privateMappings) {| ns_authority := []; ns_destinations := destinations; ns_private := ∅ |} (LLBPolicy.dl_Network lock) in
  let policy :=
    {| ep_Version := CurrentPolicyVersion; ep_BuildID := buildID; ep_OrganizationID := organizationID; ep_WorkerName := workerName;
       ep_PayloadDigest := payloadDigest; ep_Generation := generation;
       ep_NotBeforeUnix := Unix (Truncate notBefore Second); ep_ExpiresAtUnix := Unix (Truncate expiresAt Second);
       ep_Destinations := SortStableFunc by_domain (map to_destination (map_to_list (ns_destinations network)));
       ep_PrivateGateways := omap (fun gatewayID => ns_private network !! gatewayID) (sortedKeys (ns_private network));
       ep_NetworkAuthority := SortStableFunc by_node (ns_authority network) |} in
  let* _ := Validate policy in
  Ok policy.

(** ** Lookups *)

(** slices.BinarySearchFunc: the loop on [i] and [j] *)
Fixpoint search_loop {A} (fuel : nat) (cmp : A → Z) (x : list A) (i j : nat) : nat :=
  match fuel with
  | O => i
  | S fuel' =>
      if (i <? j)%nat then
        let h := Nat.div2 (i + j) in
        match x !! h with
        | Some e => if cmp e <? 0 then search_loop fuel' cmp x (S h) j else search_loop fuel' cmp x i h
        | None => i
        end
      else i
  end.

Definition BinarySearchFunc {A} (x : list A) (cmp : A → Z) : option A :=
  match x !! search_loop (length x) cmp x 0 (length x) with
  | Some e => if cmp e =? 0 then Some e else None
  | None => None
  end.

Definition publicDestination (policy : Policy) (domain : string) (port : Z) : option Destination :=
  match BinarySearchFunc (ep_Destinations policy) (fun d => Compare (de_Domain d) domain) with
  | Some d => if containsPort (de_Ports d) port then Some d else None
  | None => None
  end.

Definition privateDestinationContains (gateway : PrivateDestination) (address : Addr) : bool :=
  let address := Unmap address in existsb (fun cidr => ContainsAddr (MustParsePrefix cidr) address) (pd_CIDRs gateway).

(** The first gateway that passes [test]. *)
Fixpoint first_gateway (test : PrivateDestination → bool) (gateways : list PrivateDestination) : option PrivateDestination :=
  match gateways with
  | [] => None
  | g :: rest => if test g then Some g else first_gateway test rest
  end.

Definition privateDestination (policy : Policy) (address : Addr) (port : Z) : option PrivateDestination :=
  let address := Unmap address in
  first_gateway (fun g => containsPort (pd_Ports g) port && existsb (fun cidr => ContainsAddr (MustParsePrefix cidr) address) (pd_CIDRs g)) (ep_PrivateGateways policy).

Definition privateDomainDestination (policy : Policy) (domain : string) (port : Z) : option PrivateDestination :=
  first_gateway (fun g => containsPort (pd_Ports g) port && slices_Contains (pd_Domains g) domain) (ep_PrivateGateways policy).

(** ** decodePolicy *)

Definition decodePolicy (contents : string) : result Policy :=
  if (len contents =? 0) || (MaxPolicyBytes <? len contents) then Err (invalid "egress policy extension is absent or oversized")
  else if negb (match Normalize contents with Ok canonical => String.eqb canonical contents | Err _ => false end)
  then Err (invalid "egress policy extension is not canonical JSON")
  else match json_Decode contents with
  | None => Err (invalid "egress policy extension is malformed")
  | Some policy => let* _ := Validate policy in Ok policy
  end.

(** ** certificate.go *)

Definition policyExtensionOID : list Z := [1; 3; 6; 1; 4; 1; 61117; 1; 38; 1].

Inductive ExtKeyUsage := ExtKeyUsageClientAuth | ExtKeyUsageOther (n : Z).

(** The parts of an x509 leaf that carry the capability. *)
Record Certificate := {
  ct_URIs : list string;
  ct_DNSNames : list string;
  ct_Extensions : list (list Z * string);
  ct_CommonName : string;
  ct_NotBefore : Time;
  ct_NotAfter : Time;
  ct_ExtKeyUsage : list ExtKeyUsage;
}.

Definition identity (workerName : string) : string := "spiffe://lrail.internal/build-egress/" +:+ workerName.

(** What key generation, the serial number, x509.CreateCertificate and the encoding
    of the key answer. *)
Record IssueFaults := { key_ok : bool; serial_ok : bool; create_ok : bool; encode_ok : bool }.

(** The issuer's validity; the answer is the leaf that is signed. *)
Definition Issue (issuerNotBefore issuerNotAfter : Time) (ctx : Ctx) (clock : Time) (faults : IssueFaults) (policy : Policy) : result Certificate :=
  match ctx with
  | Some e => Err e
  | None =>
      let* _ := Validate policy in
      let now := Truncate clock Second in
      let issuer := Unix (Truncate issuerNotBefore Second) in
      let policy :=
        if ep_NotBeforeUnix policy <? issuer then
          {| ep_Version := ep_Version policy; ep_BuildID := ep_BuildID policy; ep_OrganizationID := ep_OrganizationID policy;
             ep_WorkerName := ep_WorkerName policy; ep_PayloadDigest := ep_PayloadDigest policy; ep_Generation := ep_Generation policy;
             ep_NotBeforeUnix := issuer; ep_ExpiresAtUnix := ep_ExpiresAtUnix policy; ep_Destinations := ep_Destinations policy;
             ep_PrivateGateways := ep_PrivateGateways policy; ep_NetworkAuthority := ep_NetworkAuthority policy |}
        else policy in
      let* _ := Validate policy in
      let notBefore := FromUnix (ep_NotBeforeUnix policy) in
      let expiresAt := FromUnix (ep_ExpiresAtUnix policy) in
      if Before now (Add notBefore (- Minute)) || negb (After expiresAt now) || Before notBefore issuerNotBefore || After expiresAt issuerNotAfter
      then Err (invalid "egress policy lifetime is outside issuer validity")
      else match Marshal policy with
      | Err _ => Err (invalid "encode egress certificate policy")
      | Ok policyBytes =>
          if MaxPolicyBytes <? len policyBytes then Err (invalid "encode egress certificate policy")
          else if negb (key_ok faults) then Err (invalid "generate egress client key")
          else if negb (serial_ok faults) then Err (invalid "generate egress certificate serial")
          else if negb (create_ok faults) then Err (invalid "issue egress client certificate")
          else if negb (encode_ok faults) then Err (invalid "marshal egress client key")
          else Ok {| ct_URIs := [identity (ep_WorkerName policy)]; ct_DNSNames := []; ct_Extensions := [(policyExtensionOID, policyBytes)];
                     ct_CommonName := ep_WorkerName policy; ct_NotBefore := notBefore; ct_NotAfter := expiresAt;
                     ct_ExtKeyUsage := [ExtKeyUsageClientAuth] |}
      end
  end.

(** The loop over the extensions. *)
Fixpoint policy_extension (extension : option string) (candidates : list (list Z * string)) : result (option string) :=
  match candidates with
  | [] => Ok extension
  | (id, value) :: rest =>
      if bool_decide (id = policyExtensionOID) then
        match extension with
        | Some _ => Err (invalid "egress client identity repeats its policy")
        | None => policy_extension (Some value) rest
        end
      else policy_extension extension rest
  end.

Definition containsUsage (usages : list ExtKeyUsage) : bool :=
  existsb (fun usage => match usage with ExtKeyUsageClientAuth => true | ExtKeyUsageOther _ => false end) usages.

Definition PolicyFromCertificate (certificate : option Certificate) (now : Time) : result Policy :=
  match certificate with
  | None => Err (invalid "egress client identity is malformed")
  | Some c =>
      if negb (length (ct_URIs c) =? 1)%nat || negb (length (ct_DNSNames c) =? 0)%nat then Err (invalid "egress client identity is malformed")
      else
        let* extension := policy_extension None (ct_Extensions c) in
        let* policy := decodePolicy (default "" extension) in
        if negb (String.eqb (List.hd "" (ct_URIs c)) (identity (ep_WorkerName policy))) || negb (String.eqb (ct_CommonName c) (ep_WorkerName policy)) ||
           negb (Unix (ct_NotBefore c) =? ep_NotBeforeUnix policy) || negb (Unix (ct_NotAfter c) =? ep_ExpiresAtUnix policy) ||
           Before now (ct_NotBefore c) || negb (Before now (ct_NotAfter c))
        then Err (invalid "egress client identity differs from its signed policy")
        else if negb (containsUsage (ct_ExtKeyUsage c)) then Err (invalid "egress client identity lacks client authentication usage")
        else Ok policy
  end.

End Policy.

(** ** Lemmas on the search *)

Section Search.
Context {A : Type} (cmp : A → Z) (x : list A).
Context (ordered : ∀ i j a b, (i < j)%nat → x !! i = Some a → x !! j = Some b → cmp a < 0 ∨ 0 < cmp b).

Lemma search_loop_spec fuel i j : (j - i ≤ fuel)%nat → (i ≤ j ≤ length x)%nat →
  (∀ k a, (k < i)%nat → x !! k = Some a → cmp a < 0) → (∀ k a, (j ≤ k)%nat → x !! k = Some a → 0 ≤ cmp a) →
  let r := search_loop fuel cmp x i j in
  (∀ k a, (k < r)%nat → x !! k = Some a → cmp a < 0) ∧ (∀ k a, (r ≤ k)%nat → x !! k = Some a → 0 ≤ cmp a).
Proof using ordered.
  revert i j. induction fuel as [|fuel IH]; intros i j Hf Hij Hlo Hhi; simpl.
  { assert (i = j) as -> by lia. done. }
  destruct (Nat.ltb_spec i j); [|assert (i = j) as -> by lia; done].
  pose proof (Nat.div2_odd (i + j)) as Hd. destruct (lookup_lt_is_Some_2 x (Nat.div2 (i + j))) as [e He]; [destruct (Nat.odd _); simpl in *; lia|].
  rewrite He. destruct (Z.ltb_spec (cmp e) 0); apply IH; try done; try (destruct (Nat.odd _); simpl in *; lia).
  - intros k a Hk Ha. destruct (decide (k = Nat.div2 (i + j))) as [->|]; [congruence|].
    destruct (ordered k (Nat.div2 (i + j)) a e); [lia|done..|done|lia].
  - intros k a Hk Ha. destruct (decide (k = Nat.div2 (i + j))) as [->|]; [by simplify_eq|].
    destruct (ordered (Nat.div2 (i + j)) k e a); [lia|done..|lia|lia].
Qed.

Lemma BinarySearchFunc_spec e : BinarySearchFunc x cmp = Some e ↔ e ∈ x ∧ cmp e = 0.
Proof using ordered.
  destruct (search_loop_spec (length x) 0 (length x)) as [Hlo Hhi]; [lia|lia|lia|intros k a Hk Ha; apply lookup_lt_Some in Ha; lia|].
  unfold BinarySearchFunc. set (r := search_loop _ _ _ _ _) in *. split.
  - destruct (x !! r) as [e'|] eqn:Hr; [|done]. destruct (Z.eqb_spec (cmp e') 0); [|done]. intros [= ->].
    split; [by eapply list_elem_of_lookup_2|done].
  - intros [[k Hk]%list_elem_of_lookup He]. assert (r ≤ k)%nat as Hrk by (destruct (decide (k < r)%nat); [specialize (Hlo _ _ l Hk); lia|lia]).
    destruct (decide (r = k)) as [->|]; [by rewrite Hk, He|].
    destruct (lookup_lt_is_Some_2 x r) as [e' He']; [apply lookup_lt_Some in Hk; lia|].
    pose proof (Hhi r e' ltac:(lia) He'). destruct (ordered r k e' e); [lia|done..|lia|lia].
Qed.
End Search.

(** ** Lemmas on Validate *)

Lemma StronglySorted_lookup {A} (R : A → A → Prop) l i j a b :
  StronglySorted R l → (i < j)%nat → l !! i = Some a → l !! j = Some b → R a b.
Proof.
  intros Hs. revert i j. induction Hs as [|x l Hs IH Hf]; intros i j Hij Ha Hb; [done|].
  destruct j as [|j]; [lia|]. destruct i as [|i]; simpl in *; [|apply (IH i j); [lia|done..]].
  simplify_eq. rewrite Forall_forall in Hf. apply Hf. by eapply list_elem_of_lookup_2.
Qed.

Lemma containsPort_true ports port : containsPort ports port = true ↔ port ∈ ports.
Proof. unfold containsPort. rewrite existsb_exists. setoid_rewrite Z.eqb_eq. setoid_rewrite <- list_elem_of_In. naive_solver. Qed.

Lemma first_gateway_Some test gateways g : first_gateway test gateways = Some g → g ∈ gateways ∧ test g = true.
Proof.
  induction gateways as [|h gateways IH]; simpl; [done|]. destruct (test h) eqn:Ht; [intros [= <-]; split; [apply list_elem_of_here|done]|].
  intros [? ?]%IH. split; [by apply list_elem_of_further|done].
Qed.

Lemma first_gateway_is_Some test gateways : is_Some (first_gateway test gateways) ↔ ∃ g, g ∈ gateways ∧ test g = true.
Proof.
  split; [intros [g Hg]; eauto using first_gateway_Some|]. intros (g & Hg & Ht).
  induction gateways as [|h gateways IH]; simpl; [by apply elem_of_nil in Hg|].
  destruct (test h) eqn:Hh; [eauto|]. apply IH. apply elem_of_cons in Hg as [->|]; [congruence|done].
Qed.

Definition before_domain (a b : Destination) : Prop := Compare (de_Domain a) (de_Domain b) < 0.

Lemma Compare_lt_trans a b c : Compare a b < 0 → Compare b c < 0 → Compare a c < 0.
Proof.
  intros H1 H2. pose proof (Compare_trans a b c ltac:(lia) ltac:(lia)). destruct (Z.eq_dec (Compare a c) 0) as [E|]; [|lia].
  apply Compare_0 in E as ->. rewrite Compare_opp in H1. lia.
Qed.

Lemma check_destinations_Ok previous ds u : check_destinations previous ds = Ok u →
  StronglySorted before_domain ds ∧ Forall (fun d => Compare previous (de_Domain d) < 0) ds ∧ Forall (fun d => validHostname (de_Domain d) = true ∧ de_Profiles d ≠ []) ds.
Proof.
  revert previous. induction ds as [|d ds IH]; intros previous Hc; simpl in Hc; [repeat constructor|].
  passed Hc E1. passed Hc E2. apply IH in Hc as (Hs & Hp & Hv). bsimpl. rewrite (Compare_opp (de_Domain d) previous) in *.
  split_and!; constructor; try done; try lia; [|by split; [|intros E; rewrite E in *]].
  eapply Forall_impl; [exact Hp|]. intros d' Hd. eapply Compare_lt_trans; [|exact Hd]. lia.
Qed.

Lemma existsb_false {A} (f : A → bool) l : existsb f l = false ↔ Forall (fun x => f x = false) l.
Proof.
  induction l as [|x l IH]; simpl; [split; [constructor|done]|]. rewrite orb_false_iff, IH, Forall_cons. done.
Qed.

Definition gateway_valid (g : PrivateDestination) : Prop :=
  Forall (fun cidr => allowedPrivatePrefix cidr = true) (pd_CIDRs g) ∧ Forall (fun domain => validHostname domain = true) (pd_Domains g).

Lemma check_gateways_Ok previous gs u : check_gateways previous gs = Ok u → Forall gateway_valid gs.
Proof.
  revert previous. induction gs as [|g gs IH]; intros previous Hc; simpl in Hc; [constructor|].
  passed Hc E1. passed Hc E2. passed Hc E3. apply IH in Hc. constructor; [|done]. apply existsb_false in E2, E3.
  split; [eapply Forall_impl; [exact E2|]|eapply Forall_impl; [exact E3|]]; intros; by bsimpl.
Qed.

Section Facts.
Context `{GoText} `{!JSON Policy}.

Record valid (policy : Policy) : Prop := {
  valid_worker : is_worker_name (ep_WorkerName policy) = true;
  valid_lifetime : 0 < ep_NotBeforeUnix policy < ep_ExpiresAtUnix policy;
  valid_sorted : StronglySorted before_domain (ep_Destinations policy);
  valid_public : Forall (fun d => validHostname (de_Domain d) = true ∧ de_Profiles d ≠ []) (ep_Destinations policy);
  valid_private : Forall gateway_valid (ep_PrivateGateways policy);
  valid_encoded : ∃ encoded, Marshal policy = Ok encoded ∧ len encoded ≤ MaxPolicyBytes;
}.

Lemma Validate_Ok policy u : Validate policy = Ok u → valid policy.
Proof.
  unfold Validate. intros Hv. passed Hv E. destruct (check_destinations _ _) eqn:E1; [|done]. destruct (check_gateways _ _) eqn:E2; [|done].
  destruct (check_authority _ _) eqn:E3; [|done]. cbn [bind_result] in Hv. destruct (Marshal policy) as [encoded|] eqn:E4; [|done]. passed Hv E5.
  apply check_destinations_Ok in E1 as (Hs & _ & Hp). apply check_gateways_Ok in E2. bsimpl. split; [done|lia|done|done|done|eauto].
Qed.

Lemma publicDestination_spec policy domain port d : StronglySorted before_domain (ep_Destinations policy) →
  publicDestination policy domain port = Some d ↔ d ∈ ep_Destinations policy ∧ de_Domain d = domain ∧ port ∈ de_Ports d.
Proof.
  intros Hs. unfold publicDestination.
  assert (∀ e, BinarySearchFunc (ep_Destinations policy) (fun d => Compare (de_Domain d) domain) = Some e ↔
               e ∈ ep_Destinations policy ∧ Compare (de_Domain e) domain = 0) as Hb.
  { apply BinarySearchFunc_spec. intros i j a b Hij Ha Hb. pose proof (StronglySorted_lookup _ _ _ _ _ _ Hs Hij Ha Hb) as Hlt.
    unfold before_domain in Hlt. destruct (Z.lt_ge_cases (Compare (de_Domain a) domain) 0) as [|Hge]; [by left|right].
    rewrite Compare_opp in Hge. destruct (Z.eq_dec (Compare domain (de_Domain a)) 0) as [E|].
    - apply Compare_0 in E. rewrite <- E in Hlt. rewrite Compare_opp in Hlt. lia.
    - pose proof (Compare_lt_trans domain (de_Domain a) (de_Domain b) ltac:(lia) Hlt) as Hd. rewrite Compare_opp in Hd. lia. }
  setoid_rewrite Compare_0 in Hb. split.
  - destruct (BinarySearchFunc _ _) as [e|] eqn:E; [|done]. destruct (containsPort _ _) eqn:Hc; [|done]. intros [= ->].
    destruct (proj1 (Hb d) eq_refl). apply containsPort_true in Hc. done.
  - intros (Hin & Hd & Hp). pose proof (proj2 (Hb d) (conj Hin Hd)) as ->. by apply containsPort_true in Hp as ->.
Qed.

(** ** What a lock grants *)

(** The public hosts a base registry needs. *)
Definition registry_grant (material : BaseMaterial) (domain : string) (port : Z) : Prop :=
  parseRegistryAuthority (LLBPolicy.Registry material) = Ok (domain, port) ∨
  (port = 443 ∧ LLBPolicy.Registry material = "docker.io" ∧ (domain = "auth.docker.io" ∨ domain = "production.cloudfront.docker.com")) ∨
  (port = 443 ∧ LLBPolicy.Registry material = "ghcr.io" ∧ domain = "pkg-containers.githubusercontent.com").

Definition host_grant (capability : NetworkCapability) (domain : string) (port : Z) : Prop :=
  port = 443 ∧ (LLBPolicy.nc_Profile capability = "packages" ∨ LLBPolicy.nc_Profile capability = "allowlist") ∧ domain ∈ LLBPolicy.nc_Hosts capability.

Definition public_grant (lock : DefinitionLock) (domain : string) (port : Z) : Prop :=
  (∃ material, material ∈ LLBPolicy.dl_BaseMaterials lock ∧ registry_grant material domain port) ∨
  (∃ capability, capability ∈ LLBPolicy.dl_Network lock ∧ host_grant capability domain port).

(** A private gateway the lock names, with the site's endpoint for it. *)
Definition gateway_grant (capabilities : list NetworkCapability) (mappings : gmap string PrivateEndpoint) (gatewayID : string) (endpoint : PrivateEndpoint) : Prop :=
  (∃ capability, capability ∈ capabilities ∧ LLBPolicy.nc_Profile capability = "private" ∧ LLBPolicy.nc_GatewayID capability = gatewayID) ∧
  mappings !! gatewayID = Some endpoint.

Definition private_grant (lock : DefinitionLock) (mappings : gmap string PrivateEndpoint) (address : Addr) (port : Z) : Prop :=
  ∃ gatewayID endpoint, gateway_grant (LLBPolicy.dl_Network lock) mappings gatewayID endpoint ∧ port ∈ pe_Ports endpoint ∧
    ∃ cidr, cidr ∈ pe_CIDRs endpoint ∧ ContainsAddr (MustParsePrefix cidr) (Unmap address) = true.

Definition private_domain_grant (lock : DefinitionLock) (mappings : gmap string PrivateEndpoint) (domain : string) (port : Z) : Prop :=
  ∃ gatewayID endpoint, gateway_grant (LLBPolicy.dl_Network lock) mappings gatewayID endpoint ∧ port ∈ pe_Ports endpoint ∧ domain ∈ pe_Hosts endpoint.

(** ** Lemmas on NewPolicy *)

Definition reaches (destinations : gmap string portProfiles) (domain : string) (port : Z) : Prop :=
  ∃ ports, destinations !! domain = Some ports ∧ is_Some (ports !! port).

Lemma reaches_add destinations domain port profile domain' port' :
  reaches (addDestination destinations domain port profile) domain' port' ↔ (domain' = domain ∧ port' = port) ∨ reaches destinations domain' port'.
Proof.
  unfold reaches, addDestination. destruct (decide (domain' = domain)) as [->|Hd].
  - setoid_rewrite lookup_insert_eq. split.
    + intros (ports & [= <-] & Hp). destruct (decide (port' = port)) as [->|]; [by left|]. rewrite lookup_insert_ne in Hp by done.
      destruct (destinations !! domain) as [ports|]; simpl in Hp; [right; eauto|]. rewrite lookup_empty in Hp. by destruct Hp.
    + intros Hc. eexists. split; [done|]. destruct (decide (port' = port)) as [->|]; [rewrite lookup_insert_eq; eauto|].
      rewrite lookup_insert_ne by done. destruct Hc as [[_ ?]|(ports & -> & Hp)]; done.
  - setoid_rewrite lookup_insert_ne; [|done]. naive_solver.
Qed.

Lemma reaches_fold profile hosts destinations domain port :
  reaches (fold_left (fun d host => addDestination d host 443 profile) hosts destinations) domain port ↔
  (port = 443 ∧ domain ∈ hosts) ∨ reaches destinations domain port.
Proof.
  revert destinations. induction hosts as [|host hosts IH]; intros destinations; simpl; [set_solver|].
  rewrite IH, reaches_add, elem_of_cons. naive_solver.
Qed.

Lemma add_material_reaches destinations material destinations' domain port :
  add_material destinations material = Ok destinations' →
  reaches destinations' domain port ↔ registry_grant material domain port ∨ reaches destinations domain port.
Proof.
  unfold add_material, registry_grant. destruct (parseRegistryAuthority _) as [[host p]|]; [|done]. intros [= <-].
  destruct (String.eqb_spec (LLBPolicy.Registry material) "docker.io") as [E|N], (String.eqb_spec (LLBPolicy.Registry material) "ghcr.io") as [E'|N'];
    rewrite !reaches_add; naive_solver.
Qed.

Lemma materials_reach materials destinations :
  fold_result add_material ∅ materials = Ok destinations →
  ∀ domain port, reaches destinations domain port ↔ ∃ material, material ∈ materials ∧ registry_grant material domain port.
Proof.
  apply (fold_result_invariant add_material (fun seen d => ∀ domain port, reaches d domain port ↔ ∃ m, m ∈ seen ∧ registry_grant m domain port)).
  - intros domain port. split; [intros (ports & Hp & _); by rewrite lookup_empty in Hp|set_solver].
  - intros seen m d d' IH Hm domain port. rewrite (add_material_reaches _ _ _ _ _ Hm), IH. set_solver.
Qed.

Record network_built (mappings : gmap string PrivateEndpoint) (start : gmap string portProfiles) (seen : list NetworkCapability) (s : network_state) : Prop := {
  nb_public : ∀ domain port, reaches (ns_destinations s) domain port ↔
    reaches start domain port ∨ ∃ capability, capability ∈ seen ∧ host_grant capability domain port;
  nb_private : ∀ gatewayID g, ns_private s !! gatewayID = Some g ↔
    ∃ endpoint, gateway_grant seen mappings gatewayID endpoint ∧ normalizePrivateDestination gatewayID endpoint = Ok g;
  nb_mapped : ∀ gatewayID endpoint, gateway_grant seen mappings gatewayID endpoint → is_Some (ns_private s !! gatewayID);
}.

Lemma host_grant_other capability domain port :
  LLBPolicy.nc_Profile capability ≠ "packages" → LLBPolicy.nc_Profile capability ≠ "allowlist" → ¬ host_grant capability domain port.
Proof. intros ? ? (_ & [] & _); done. Qed.

Lemma gateway_grant_snoc seen capability mappings gatewayID endpoint :
  gateway_grant (seen ++ [capability]) mappings gatewayID endpoint ↔
  gateway_grant seen mappings gatewayID endpoint ∨
  (LLBPolicy.nc_Profile capability = "private" ∧ LLBPolicy.nc_GatewayID capability = gatewayID ∧ mappings !! gatewayID = Some endpoint).
Proof. unfold gateway_grant. set_solver. Qed.

(** A capability that is not private adds no gateway. *)
Lemma network_built_public mappings start seen s capability destinations authority :
  network_built mappings start seen s → LLBPolicy.nc_Profile capability ≠ "private" →
  (∀ domain port, reaches destinations domain port ↔ reaches (ns_destinations s) domain port ∨ host_grant capability domain port) →
  network_built mappings start (seen ++ [capability]) {| ns_authority := authority; ns_destinations := destinations; ns_private := ns_private s |}.
Proof.
  intros [Hpub Hpriv Hmap] Hp Hd. split; simpl.
  - intros domain port. rewrite Hd, Hpub. set_solver.
  - intros gatewayID g. rewrite Hpriv. setoid_rewrite gateway_grant_snoc. naive_solver.
  - intros gatewayID endpoint. rewrite gateway_grant_snoc. naive_solver.
Qed.

Lemma network_built_step mappings start seen s capability s' :
  network_built mappings start seen s → add_network mappings s capability = Ok s' → network_built mappings start (seen ++ [capability]) s'.
Proof.
  intros Hb. pose proof Hb as [Hpub Hpriv Hmap]. unfold add_network. cbv zeta.
  destruct (String.eqb_spec (LLBPolicy.nc_Profile capability) "none") as [E|].
  { intros [= <-]. apply network_built_public; [done|by rewrite E|]. intros domain port. split; [auto|].
    intros [|[]%host_grant_other]; [done|by rewrite E..]. }
  destruct (String.eqb (LLBPolicy.nc_Profile capability) "packages" || String.eqb (LLBPolicy.nc_Profile capability) "allowlist") eqn:E.
  { intros [= <-]. assert (LLBPolicy.nc_Profile capability = "packages" ∨ LLBPolicy.nc_Profile capability = "allowlist") as Hp by (by bsimpl).
    apply network_built_public; [done|by destruct Hp as [-> | ->]|]. intros domain port. rewrite reaches_fold. unfold host_grant. naive_solver. }
  destruct (String.eqb_spec (LLBPolicy.nc_Profile capability) "private") as [Ep|]; [|done].
  destruct (mappings !! _) as [mapped|] eqn:Em; [|done]. destruct (normalizePrivateDestination _ _) as [private|] eqn:En; [|done].
  cbn [bind_result]. intros Hs. passed Hs Ee. injection Hs as <-. split; simpl.
  - intros domain port. rewrite Hpub. split; [set_solver|]. intros [|(c & [Hin|Hin]%elem_of_app & Hc)]; [by left|right; eauto|].
    apply list_elem_of_singleton in Hin. subst c. apply host_grant_other in Hc; [done|by rewrite Ep..].
  - intros gatewayID g. setoid_rewrite gateway_grant_snoc. destruct (decide (gatewayID = LLBPolicy.nc_GatewayID capability)) as [->|Hne].
    + rewrite lookup_insert_eq. split; [intros [= <-]; eauto 10|].
      intros (endpoint & [[_ Hm]|(_ & _ & Hm)] & Hn); congruence.
    + rewrite lookup_insert_ne, Hpriv by done. naive_solver.
  - intros gatewayID endpoint. rewrite gateway_grant_snoc. destruct (decide (gatewayID = LLBPolicy.nc_GatewayID capability)) as [->|Hne].
    + rewrite lookup_insert_eq. eauto.
    + rewrite lookup_insert_ne by done. naive_solver.
Qed.

Lemma networks_built mappings start capabilities s :
  fold_result (add_network mappings) {| ns_authority := []; ns_destinations := start; ns_private := ∅ |} capabilities = Ok s →
  network_built mappings start capabilities s.
Proof.
  apply (fold_result_invariant (add_network mappings) (network_built mappings start)).
  - split; simpl; [set_solver| |].
    + intros gatewayID g. rewrite lookup_empty. split; [done|]. intros (endpoint & [(c & Hc & _) _] & _). set_solver.
    + intros gatewayID endpoint [(c & Hc & _) _]. set_solver.
  - intros. by eapply network_built_step.
Qed.

(** ** Lemmas on the sorted lists *)

Lemma elem_of_sort_ports x l : x ∈ sort_ports l ↔ x ∈ l.
Proof. unfold sort_ports. by rewrite SortStableFunc_perm. Qed.

Lemma elem_of_compact_ports x l : x ∈ compact_ports l ↔ x ∈ l.
Proof.
  induction l as [|y l IH]; [done|]. destruct l as [|z l]; [done|]. change (compact_ports (y :: z :: l)) with
    (if y =? z then compact_ports (z :: l) else y :: compact_ports (z :: l)).
  destruct (Z.eqb_spec y z) as [->|]; rewrite ?elem_of_cons, IH, !elem_of_cons; naive_solver.
Qed.

Lemma normalizePrivateDestination_Ok gatewayID endpoint g :
  normalizePrivateDestination gatewayID endpoint = Ok g →
  pd_GatewayID g = gatewayID ∧ (∀ port, port ∈ pd_Ports g ↔ port ∈ pe_Ports endpoint) ∧ (∀ cidr, cidr ∈ pd_CIDRs g ↔ cidr ∈ pe_CIDRs endpoint) ∧
  (∀ domain, domain ∈ pd_Domains g ↔ domain ∈ pe_Hosts endpoint).
Proof.
  unfold normalizePrivateDestination. intros Hn. passed Hn E1. passed Hn E2. passed Hn E3. passed Hn E4. injection Hn as <-. simpl.
  split_and!; [done| |intros; apply elem_of_Compact_Sort..]. intros port. rewrite elem_of_compact_ports, elem_of_sort_ports.
  apply existsb_false in E1. assert (map u16 (pe_Ports endpoint) = pe_Ports endpoint) as ->; [|done].
  clear E2 E3 E4. induction E1 as [|p l Hp Hl IH]; simpl; [done|]. rewrite IH. f_equal. bsimpl. unfold u16. apply Z.mod_small. lia.
Qed.

Lemma NewPolicy_Ok buildID organizationID workerName payloadDigest generation notBefore expiresAt lock mappings policy :
  NewPolicy buildID organizationID workerName payloadDigest generation notBefore expiresAt lock mappings = Ok policy →
  valid policy ∧ ∃ destinations s, fold_result add_material ∅ (LLBPolicy.dl_BaseMaterials lock) = Ok destinations ∧
    network_built mappings destinations (LLBPolicy.dl_Network lock) s ∧
    (∀ d, d ∈ ep_Destinations policy ↔ ∃ entry, entry ∈ map_to_list (ns_destinations s) ∧ d = to_destination entry) ∧
    (∀ g, g ∈ ep_PrivateGateways policy ↔ ∃ gatewayID, ns_private s !! gatewayID = Some g).
Proof.
  unfold NewPolicy. intros Hn. destruct (fold_result add_material _ _) as [destinations|] eqn:Hd; [|done]. cbn [bind_result] in Hn.
  destruct (fold_result (add_network mappings) _ _) as [s|] eqn:Hs; [|done]. cbn [bind_result] in Hn. cbv zeta in Hn.
  apply bind_result_Ok in Hn as ([] & Hv & Hn). apply Validate_Ok in Hv. injection Hn as <-. split; [done|]. exists destinations, s.
  split_and!; [done|by apply networks_built|..]; simpl.
  - intros d. rewrite SortStableFunc_perm, list_elem_of_fmap. naive_solver.
  - intros g. rewrite list_elem_of_omap. unfold sortedKeys. setoid_rewrite Sort_perm. setoid_rewrite elem_of_elements.
    split; [naive_solver|]. intros [gatewayID Hg]. exists gatewayID. split; [|done]. apply elem_of_dom. eauto.
Qed.

Lemma reaches_destination destinations domain port :
  (∃ d, (∃ entry, entry ∈ map_to_list destinations ∧ d = to_destination entry) ∧ de_Domain d = domain ∧ port ∈ de_Ports d) ↔
  reaches destinations domain port.
Proof.
  unfold reaches. split.
  - intros (d & ([domain' ports] & Hin & ->) & Hdom & Hport). simpl in *. subst domain'. apply elem_of_map_to_list in Hin.
    exists ports. split; [done|]. apply elem_of_dom. by rewrite <- elem_of_elements, <- elem_of_sort_ports.
  - intros (ports & Hp & Hport). exists (to_destination (domain, ports)). simpl. split_and!; [|done|].
    + exists (domain, ports). split; [by apply elem_of_map_to_list|done].
    + rewrite elem_of_sort_ports, elem_of_elements. by apply elem_of_dom.
Qed.

(** A test of the policy's gateways that reads the endpoint of each. *)
Lemma gateway_exact policy mappings destinations capabilities s (test : PrivateDestination → bool) (Q : PrivateEndpoint → Prop) :
  network_built mappings destinations capabilities s →
  (∀ g, g ∈ ep_PrivateGateways policy ↔ ∃ gatewayID, ns_private s !! gatewayID = Some g) →
  (∀ gatewayID endpoint g, normalizePrivateDestination gatewayID endpoint = Ok g → test g = true ↔ Q endpoint) →
  (∃ g, g ∈ ep_PrivateGateways policy ∧ test g = true) ↔
  ∃ gatewayID endpoint, gateway_grant capabilities mappings gatewayID endpoint ∧ Q endpoint.
Proof.
  intros Hn Hpriv Htest. split.
  - intros (g & (gatewayID & (endpoint & Hg & Hnorm)%(nb_private _ _ _ _ Hn))%Hpriv & Ht). exists gatewayID, endpoint. split; [done|]. by eapply Htest.
  - intros (gatewayID & endpoint & Hg & HQ). destruct (nb_mapped _ _ _ _ Hn _ _ Hg) as [g Hlook]. exists g. split; [apply Hpriv; eauto|].
    apply (nb_private _ _ _ _ Hn) in Hlook as (endpoint' & [_ Hm'] & Hnorm). destruct Hg as [_ Hm]. rewrite Hm in Hm'. injection Hm' as <-.
    by eapply Htest.
Qed.

Lemma policy_grants buildID organizationID workerName payloadDigest generation notBefore expiresAt lock mappings policy :
  NewPolicy buildID organizationID workerName payloadDigest generation notBefore expiresAt lock mappings = Ok policy →
  (∀ domain port, is_Some (publicDestination policy domain port) ↔ public_grant lock domain port) ∧
  (∀ address port, is_Some (privateDestination policy address port) ↔ private_grant lock mappings address port) ∧
  (∀ domain port, is_Some (privateDomainDestination policy domain port) ↔ private_domain_grant lock mappings domain port).
Proof.
  intros (Hv & destinations & s & Hd & Hn & Hpub & Hpriv)%NewPolicy_Ok. pose proof (materials_reach _ _ Hd) as Hm.
  split_and!.
  - intros domain port. unfold public_grant. setoid_rewrite <- Hm. rewrite <- (nb_public _ _ _ _ Hn), <- reaches_destination. split.
    + intros [d (Hin & Hdom & Hport)%publicDestination_spec]; [|apply Hv]. apply Hpub in Hin. eauto.
    + intros (d & Hin & Hdom & Hport). exists d. apply publicDestination_spec; [apply Hv|]. rewrite Hpub. eauto.
  - intros address port. unfold privateDestination, private_grant. rewrite first_gateway_is_Some.
    apply gateway_exact with (policy := policy) (s := s) (destinations := destinations); [done..|].
    intros gatewayID endpoint g (_ & Hport & Hcidr & _)%normalizePrivateDestination_Ok. rewrite andb_true_iff, containsPort_true, Hport, existsb_exists.
    setoid_rewrite <- list_elem_of_In. by setoid_rewrite Hcidr.
  - intros domain port. unfold privateDomainDestination, private_domain_grant. rewrite first_gateway_is_Some.
    apply gateway_exact with (policy := policy) (s := s) (destinations := destinations); [done..|].
    intros gatewayID endpoint g (_ & Hport & _ & Hdom)%normalizePrivateDestination_Ok.
    by rewrite andb_true_iff, containsPort_true, Hport, slices_Contains_true, Hdom.
Qed.

(** C21: A policy grants what the lock grants.  A domain and port are a public
    destination of the policy exactly when a base registry of the lock or a
    [packages] or [allowlist] capability of it names them; an address (or a domain)
    and port are a private destination exactly when a private capability of the lock
    names a gateway whose site mapping holds them. *)
Theorem policy_grants_exact buildID organizationID workerName payloadDigest generation notBefore expiresAt lock mappings policy :
  NewPolicy buildID organizationID workerName payloadDigest generation notBefore expiresAt lock mappings = Ok policy →
  (∀ domain port, is_Some (publicDestination policy domain port) ↔ public_grant lock domain port) ∧
  (∀ address port, is_Some (privateDestination policy address port) ↔ private_grant lock mappings address port) ∧
  (∀ domain port, is_Some (privateDomainDestination policy domain port) ↔ private_domain_grant lock mappings domain port).
Proof. apply policy_grants. Qed.

(** ** Lemmas on certificates *)

Lemma Unix_FromUnix seconds : Unix (FromUnix seconds) = seconds.
Proof. unfold Unix, FromUnix. rewrite Z.div_mul by done. lia. Qed.

Lemma decodePolicy_Marshal policy c u : Validate policy = Ok u → Marshal policy = Ok c → decodePolicy c = Ok policy.
Proof.
  intros Hv Hm. pose proof (Validate_Ok _ _ Hv) as [_ _ _ _ _ (c' & Hm' & Hlen)]. rewrite Hm in Hm'. injection Hm' as <-.
  apply Marshal_Ok in Hm as [Hd Hn]. unfold decodePolicy. rewrite Hn, Hd, Hv, String.eqb_refl.
  destruct (Z.ltb_spec MaxPolicyBytes (len c)); [lia|]. destruct (Z.eqb_spec (len c) 0) as [E|]; [|done].
  destruct c; [|unfold len in E; simpl in E; lia]. vm_compute in Hn. done.
Qed.

Lemma Issue_Ok issuerNotBefore issuerNotAfter ctx clock faults policy leaf :
  Issue issuerNotBefore issuerNotAfter ctx clock faults policy = Ok leaf →
  ∃ issued c u, Validate issued = Ok u ∧ Marshal issued = Ok c ∧ ep_NotBeforeUnix issued = Z.max (ep_NotBeforeUnix policy) (Unix (Truncate issuerNotBefore Second)) ∧
    ep_ExpiresAtUnix issued = ep_ExpiresAtUnix policy ∧ ep_BuildID issued = ep_BuildID policy ∧ ep_WorkerName issued = ep_WorkerName policy ∧ ep_Destinations issued = ep_Destinations policy ∧
    ep_PrivateGateways issued = ep_PrivateGateways policy ∧
    issuerNotBefore ≤ FromUnix (ep_NotBeforeUnix issued) ∧ FromUnix (ep_ExpiresAtUnix issued) ≤ issuerNotAfter ∧
    leaf = {| ct_URIs := [identity (ep_WorkerName issued)]; ct_DNSNames := []; ct_Extensions := [(policyExtensionOID, c)];
              ct_CommonName := ep_WorkerName issued; ct_NotBefore := FromUnix (ep_NotBeforeUnix issued); ct_NotAfter := FromUnix (ep_ExpiresAtUnix issued);
              ct_ExtKeyUsage := [ExtKeyUsageClientAuth] |}.
Proof.
  unfold Issue. destruct ctx; [done|]. intros Hi. apply bind_result_Ok in Hi as ([] & _ & Hi). cbv zeta in Hi.
  match type of Hi with context [if ep_NotBeforeUnix policy <? ?i then ?a else policy] => set (issued := if ep_NotBeforeUnix policy <? i then a else policy) in Hi end.
  apply bind_result_Ok in Hi as (u & Hv & Hi). passed Hi E1. destruct (Marshal issued) as [c|] eqn:Hm; [|done].
  passed Hi E2. passed Hi E3. passed Hi E4. passed Hi E5. passed Hi E6. injection Hi as <-.
  exists issued, c, u. unfold Before, After, Add in E1. bsimpl. split_and!; try done; unfold issued; case_match; bsimpl; simpl; try done; lia.
Qed.

(** The leaf issued for a policy is read back exactly while it is valid. *)
Lemma PolicyFromCertificate_leaf issued c u now : Validate issued = Ok u → Marshal issued = Ok c →
  PolicyFromCertificate (Some {| ct_URIs := [identity (ep_WorkerName issued)]; ct_DNSNames := []; ct_Extensions := [(policyExtensionOID, c)];
      ct_CommonName := ep_WorkerName issued; ct_NotBefore := FromUnix (ep_NotBeforeUnix issued); ct_NotAfter := FromUnix (ep_ExpiresAtUnix issued);
      ct_ExtKeyUsage := [ExtKeyUsageClientAuth] |}) now =
  if (FromUnix (ep_NotBeforeUnix issued) <=? now) && (now <? FromUnix (ep_ExpiresAtUnix issued)) then Ok issued
  else Err (invalid "egress client identity differs from its signed policy").
Proof.
  intros Hv Hm. unfold PolicyFromCertificate. simpl.
  rewrite (decodePolicy_Marshal _ _ _ Hv Hm). simpl. rewrite !String.eqb_refl, !Unix_FromUnix, !Z.eqb_refl. simpl. unfold Before.
  rewrite Z.leb_antisym. by destruct (now <? FromUnix (ep_NotBeforeUnix issued)), (now <? FromUnix (ep_ExpiresAtUnix issued)).
Qed.

(** The capability survives its certificate.  Whatever leaf [Issue] signs for a
    policy, [PolicyFromCertificate] reads back that policy, with its start moved to
    the issuer's if it was earlier, exactly while the leaf is valid; the leaf is
    valid only while the policy and the issuer both are. *)
Theorem certificate_roundtrip issuerNotBefore issuerNotAfter ctx clock faults policy leaf :
  Issue issuerNotBefore issuerNotAfter ctx clock faults policy = Ok leaf →
  ∃ issued, ep_Destinations issued = ep_Destinations policy ∧ ep_PrivateGateways issued = ep_PrivateGateways policy ∧
    ep_WorkerName issued = ep_WorkerName policy ∧ ep_ExpiresAtUnix issued = ep_ExpiresAtUnix policy ∧
    ep_NotBeforeUnix issued = Z.max (ep_NotBeforeUnix policy) (Unix (Truncate issuerNotBefore Second)) ∧
    (∀ now, PolicyFromCertificate (Some leaf) now = Ok issued ↔ ct_NotBefore leaf ≤ now < ct_NotAfter leaf) ∧
    issuerNotBefore ≤ ct_NotBefore leaf ∧ ct_NotAfter leaf ≤ issuerNotAfter ∧ ct_NotAfter leaf = FromUnix (ep_ExpiresAtUnix policy).
Proof.
  intros (issued & c & u & Hv & Hm & Hnb & Hex & _ & Hw & Hd & Hp & Hlo & Hhi & ->)%Issue_Ok. exists issued. cbn [ct_NotBefore ct_NotAfter].
  split_and!; try done; [|by rewrite Hex]. intros now. rewrite (PolicyFromCertificate_leaf _ _ _ _ Hv Hm).
  destruct (Z.leb_spec (FromUnix (ep_NotBeforeUnix issued)) now), (Z.ltb_spec now (FromUnix (ep_ExpiresAtUnix issued))); simpl; split; try done; lia.
Qed.

End Facts.

(** ** Examples *)

Definition sample_lock : DefinitionLock :=
  {| LLBPolicy.dl_Version := 1; LLBPolicy.dl_CompilerVersion := "lrail-llb-v1"; LLBPolicy.dl_IRDigest := sample_digest "a";
     LLBPolicy.dl_PolicyDigest := sample_digest "b"; LLBPolicy.dl_SourceSnapshot := sample_digest "c"; LLBPolicy.dl_TargetPlatform := "linux/amd64";
     LLBPolicy.dl_BuildArguments := [];
     LLBPolicy.dl_BaseMaterials :=
       [{| LLBPolicy.RequestedRef := "docker.io/library/ruby:3"; LLBPolicy.ResolvedRef := "docker.io/library/ruby"; LLBPolicy.bm_Digest := sample_digest "d";
           LLBPolicy.Registry := "docker.io"; LLBPolicy.Classification := "curated"; LLBPolicy.Platforms := ["linux/amd64"];
           LLBPolicy.SBOMDigest := sample_digest "e"; LLBPolicy.ProvenanceDigest := sample_digest "f"; LLBPolicy.SignatureIdentity := "";
           LLBPolicy.bm_ResolutionDigest := sample_digest "a" |}];
     LLBPolicy.dl_Network :=
       [{| LLBPolicy.nc_NodeID := "n2"; LLBPolicy.nc_Profile := "private"; LLBPolicy.nc_Hosts := []; LLBPolicy.nc_GatewayID := "db" |};
        {| LLBPolicy.nc_NodeID := "n1"; LLBPolicy.nc_Profile := "packages"; LLBPolicy.nc_Hosts := ["rubygems.org"]; LLBPolicy.nc_GatewayID := "packages" |}];
     LLBPolicy.dl_Caches := []; LLBPolicy.dl_Secrets := [];
     LLBPolicy.dl_SupplyChain :=
       {| LLBPolicy.sp_Version := 1; LLBPolicy.SyftVersion := ""; LLBPolicy.TrivyVersion := ""; LLBPolicy.SignerKeyID := "";
          LLBPolicy.AllowedSignerPublicKeyDigests := []; LLBPolicy.DeniedVulnerabilitySeverities := []; LLBPolicy.DeniedConfigurationSeverities := [];
          LLBPolicy.DeniedLicenseClassifications := []; LLBPolicy.RequireSecretFree := true; LLBPolicy.RequireImageConfigurationScan := true |};
     LLBPolicy.dl_Outputs := [] |}.

Definition sample_mappings : gmap string PrivateEndpoint :=
  {["db" := {| pe_CIDRs := ["10.1.0.0/16"]; pe_Ports := [5432]; pe_Hosts := ["db.corp"] |}]}.

Definition build_id : string := "bld_018bcfe5-687b-7bab-abab-abababababab".
Definition organization_id : string := "org_018bcfe5-687b-7bab-abab-abababababab".

Definition sample_policy : Policy :=
  {| ep_Version := 1; ep_BuildID := build_id; ep_OrganizationID := organization_id; ep_WorkerName := "worker-1"; ep_PayloadDigest := sample_digest "a";
     ep_Generation := 1; ep_NotBeforeUnix := 1700000000; ep_ExpiresAtUnix := 1700000600;
     ep_Destinations :=
       [{| de_Domain := "auth.docker.io"; de_Ports := [443]; de_Profiles := ["base"] |};
        {| de_Domain := "production.cloudfront.docker.com"; de_Ports := [443]; de_Profiles := ["base"] |};
        {| de_Domain := "registry-1.docker.io"; de_Ports := [443]; de_Profiles := ["base"] |};
        {| de_Domain := "rubygems.org"; de_Ports := [443]; de_Profiles := ["packages"] |}];
     ep_PrivateGateways := [{| pd_GatewayID := "db"; pd_CIDRs := ["10.1.0.0/16"]; pd_Ports := [5432]; pd_Domains := ["db.corp"] |}];
     ep_NetworkAuthority :=
       [{| na_NodeID := "n1"; na_Profile := "packages"; na_Hosts := ["rubygems.org"]; na_GatewayID := "packages" |};
        {| na_NodeID := "n2"; na_Profile := "private"; na_Hosts := []; na_GatewayID := "db" |}] |}.

Definition sample_json : JSON Policy := single_json sample_policy.

Lemma policy_grants_exact_witness :
  is_Some (publicDestination sample_policy "rubygems.org" 443) ∧ ¬ is_Some (publicDestination sample_policy "example.com" 443) ∧
  @private_grant sample_lock sample_mappings (Addr4 (quad 10 1 2 3)) 5432.
Proof.
  destruct (@policy_grants_exact plain_text sample_json build_id organization_id "worker-1" (sample_digest "a") 1 (FromUnix 1700000000 + 5)
    (FromUnix 1700000600) sample_lock sample_mappings sample_policy) as (_ & Hprivate & _); [vm_compute; reflexivity|].
  split_and!; [vm_compute; eauto|vm_compute; by intros []|]. apply Hprivate. vm_compute. eauto.
Defined.

Definition no_faults : IssueFaults := {| key_ok := true; serial_ok := true; create_ok := true; encode_ok := true |}.

Definition sample_leaf : Certificate :=
  {| ct_URIs := [identity "worker-1"]; ct_DNSNames := []; ct_Extensions := [(policyExtensionOID, "{}")]; ct_CommonName := "worker-1";
     ct_NotBefore := FromUnix 1700000000; ct_NotAfter := FromUnix 1700000600; ct_ExtKeyUsage := [ExtKeyUsageClientAuth] |}.

Lemma certificate_roundtrip_witness : ∃ issued,
  @PolicyFromCertificate plain_text sample_json (Some sample_leaf) (FromUnix 1700000300) = Ok issued ∧ ep_Destinations issued = ep_Destinations sample_policy.
Proof.
  destruct (@certificate_roundtrip plain_text sample_json (FromUnix 1600000000) (FromUnix 1800000000) None (FromUnix 1700000010) no_faults sample_policy sample_leaf)
    as (issued & Hd & _ & _ & _ & _ & Hread & _); [vm_compute; reflexivity|].
  exists issued. split; [|done]. apply Hread. vm_compute. split; [discriminate|reflexivity].
Defined.

End EgressPolicy.
