(* ===== verification/EgressProxy.v ===== *)
(** * The egress proxy (build-plane/internal/buildegress/proxy.go)

    [ServeHTTP] handles one CONNECT of a build worker.  The resolver, the dialer, the
    audit sink, the clock and the client's bytes are an environment; the handler is
    the sequence of actions it takes there, so the theorems can speak about their
    order: what is dialed, what was audited before, what is forwarded. *)

From S2P Require Import Prelude Text GoStd Crypto PlatformID CanonicalJSON ClientHello NetAddr LLBPolicy EgressPolicy.
Import GoStd CanonicalJSON NetAddr EgressPolicy.

Open Scope Z_scope.

Module EgressProxy.

Abbreviation readValidatedClientHello := ClientHello.readValidatedClientHello.

Definition DefaultConnectTimeout : Duration := 10 * Second.
Definition DefaultTunnelLifetime : Duration := Hour.

Record Proxy := { pr_connectTimeout : Duration; pr_tunnelLifetime : Duration }.

(** [dependencies] are not nil; zero options take their default. *)
Definition NewProxy (dependencies : bool) (connectTimeout tunnelLifetime : Duration) : result Proxy :=
  if negb dependencies then Err (invalid "egress proxy dependencies are incomplete")
  else
    let connectTimeout := if connectTimeout =? 0 then DefaultConnectTimeout else connectTimeout in
    let tunnelLifetime := if tunnelLifetime =? 0 then DefaultTunnelLifetime else tunnelLifetime in
    if (connectTimeout <? Second) || (Minute <? connectTimeout) || (tunnelLifetime <? Minute) || (DefaultTunnelLifetime <? tunnelLifetime)
    then Err (invalid "egress proxy timeouts are outside safe bounds")
    else Ok {| pr_connectTimeout := connectTimeout; pr_tunnelLifetime := tunnelLifetime |}.

(** ** Requests and events *)

Record ConnectionState := { cs_VerifiedChains : list (list Certificate); cs_PeerCertificates : list Certificate }.

Record Request := { rq_TLS : option ConnectionState; rq_Method : string; rq_Host : string }.

(** An address that is not set is the empty text. *)
Record AuditEvent := {
  ae_Version : Z;
  ae_Timestamp : Time;
  ae_BuildID : string;
  ae_OrganizationID : string;
  ae_WorkerName : string;
  ae_PayloadDigest : string;
  ae_Generation : Z;
  ae_Domain : string;
  ae_RequestedIP : option Addr;
  ae_ResolvedIPs : list Addr;
  ae_ConnectedIP : option Addr;
  ae_Port : Z;
  ae_Profiles : list string;
  ae_GatewayID : string;
  ae_Action : string;
  ae_Reason : string;
}.

Inductive action :=
| Audited (event : AuditEvent) (accepted : bool)
| Resolved (host : string)
| Dialed (candidate : Addr) (port : Z) (connected : bool)
| Answered (status : Z)
| Hijacked
| Lifetime (lifetime : Duration)
| Established
| Forwarded (bytes : list Z) (written : bool)
| Piped
| ClosedClient
| ClosedUpstream
| Panicked.

(** What surrounds one call: the answers of the resolver, of the sink to the [n]-th
    record, of the dialer to the [n]-th dial, and the client's connection. *)
Record Env := {
  env_clock : nat → Time;
  env_lookup : string → result (list Addr);
  env_record : nat → AuditEvent → bool;
  env_dial : nat → Addr → Z → bool;
  env_hijacker : bool;
  env_hijacked : bool;
  env_established : bool;
  env_client : list Z;
  env_hello_written : bool;
}.

(** ** Addresses *)

Definition forbiddenPrefixes : list Prefix :=
  map MustParsePrefix
    ["0.0.0.0/8"; "100.64.0.0/10"; "169.254.0.0/16"; "192.0.0.0/24"; "192.0.2.0/24"; "192.88.99.0/24"; "198.18.0.0/15"; "198.51.100.0/24";
     "203.0.113.0/24"; "240.0.0.0/4"; "64:ff9b:1::/48"; "100::/64"; "2001:2::/48"; "2001:10::/28"; "2001:db8::/32"; "3fff::/20"; "fe80::/10"; "fec0::/10"].

Definition forbiddenAddress (address : Addr) : bool :=
  let address := Unmap address in
  negb (IsValid address) || negb (IsGlobalUnicast address) || IsPrivate address || IsLoopback address || IsLinkLocalUnicast address ||
  IsMulticast address || IsUnspecified address || existsb (fun prefix => ContainsAddr prefix address) forbiddenPrefixes.

Definition allowedPrivateAddress (address : Addr) : bool :=
  let address := Unmap address in existsb (fun parentText => ContainsAddr (MustParsePrefix parentText) address) private_parents.

Section Serve.
Context `{GoText} `{!JSON Policy}.

(** The host, port and address of a CONNECT: for an address the host, its text, is not
    used; for a domain the address is not valid. *)
Definition parseConnectAuthority (authority : string) : result (string * Z * Addr) :=
  if String.eqb authority "" || negb (String.eqb authority (TrimSpace authority)) ||
     ContainsAny authority (fun c => is_char "/" c || is_char "\" c || is_char "@" c || is_char "?" c || is_char "#" c)
  then Err (invalid "CONNECT authority is invalid")
  else match SplitHostPort authority with
  | None => Err (invalid "CONNECT authority requires host and port")
  | Some (host, portText) =>
      if String.eqb host "" then Err (invalid "CONNECT authority requires host and port")
      else match ParseUint16 portText with
      | None => Err (invalid "CONNECT authority port is invalid")
      | Some portValue =>
          if portValue =? 0 then Err (invalid "CONNECT authority port is invalid")
          else match ParseAddr host with
          | Some address => Ok ("", portValue, Unmap address)
          | None =>
              let host := ToLower host in
              if negb (validHostname host) then Err (invalid "CONNECT domain is invalid") else Ok (host, portValue, NoAddr)
          end
      end
  end.

Context (env : Env) (proxy : Proxy).

Definition clientPolicy (request : Request) : result Policy :=
  match rq_TLS request with
  | None => Err (invalid "verified client certificate is absent")
  | Some state =>
      if negb (length (cs_VerifiedChains state) =? 1)%nat || (length (List.hd [] (cs_VerifiedChains state)) =? 0)%nat || (length (cs_PeerCertificates state) =? 0)%nat
      then Err (invalid "verified client certificate is absent")
      else PolicyFromCertificate (List.hd_error (cs_PeerCertificates state)) (env_clock env 1)
  end.

(** [event] with an outcome. *)
Definition decided (event : AuditEvent) (connectedIP : option Addr) (action reason : string) : AuditEvent :=
  {| ae_Version := ae_Version event; ae_Timestamp := ae_Timestamp event; ae_BuildID := ae_BuildID event; ae_OrganizationID := ae_OrganizationID event;
     ae_WorkerName := ae_WorkerName event; ae_PayloadDigest := ae_PayloadDigest event; ae_Generation := ae_Generation event;
     ae_Domain := ae_Domain event; ae_RequestedIP := ae_RequestedIP event; ae_ResolvedIPs := ae_ResolvedIPs event; ae_ConnectedIP := connectedIP;
     ae_Port := ae_Port event; ae_Profiles := ae_Profiles event; ae_GatewayID := ae_GatewayID event; ae_Action := action; ae_Reason := reason |}.

(** [records] audit records came before. *)
Definition deny (records : nat) (event : AuditEvent) (status : Z) (reason : string) : list action :=
  let event := decided event (ae_ConnectedIP event) "denied" reason in
  let accepted := env_record env records event in
  [Audited event accepted; Answered (if accepted then status else 503)].

Definition allowed_event (event : AuditEvent) (candidate : Addr) : AuditEvent := decided event (Some candidate) "allowed" "policy_match".

(** How [connect] ends; without candidates errors.Join answers nil, and so there is
    neither a connection nor an error. *)
Inductive connected := Connection (records : nat) | AuditUnavailable | ConnectFailed (records : nat) | NoConnection.

Fixpoint connect (attempts : nat) (event : AuditEvent) (candidates : list Addr) (port : Z) : list action * connected :=
  match candidates with
  | [] => ([], if (attempts =? 0)%nat then NoConnection else ConnectFailed attempts)
  | candidate :: rest =>
      let attempt := allowed_event event candidate in
      if negb (env_record env attempts attempt) then ([Audited attempt false], AuditUnavailable)
      else if env_dial env attempts candidate port then ([Audited attempt true; Dialed candidate port true], Connection (S attempts))
      else
        let '(actions, result) := connect (S attempts) event rest port in
        (Audited attempt true :: Dialed candidate port false :: actions, result)
  end.

(** After the connection: deadlines, the answer, the check of the ClientHello of a
    domain, then both directions. *)
Definition tunnel (records : nat) (policy : Policy) (event : AuditEvent) : list action :=
  if negb (env_hijacker env) then [ClosedUpstream; Answered 500]
  else if negb (env_hijacked env) then [ClosedUpstream]
  else
    let remaining := Sub (FromUnix (ep_ExpiresAtUnix policy)) (env_clock env 2) in
    let lifetime := if remaining <? pr_tunnelLifetime proxy then remaining else pr_tunnelLifetime proxy in
    Hijacked :: Lifetime lifetime ::
    if negb (env_established env) then [ClosedClient; ClosedUpstream]
    else Established ::
      if negb (String.eqb (ae_Domain event) "") then
        match readValidatedClientHello (env_client env) (ae_Domain event) with
        | ClientHello.Ret (clientHello, _) =>
            if env_hello_written env then [Forwarded clientHello true; Piped; ClosedClient; ClosedUpstream]
            else [Forwarded clientHello false; ClosedClient; ClosedUpstream]
        | ClientHello.Fail _ =>
            let event := decided event (ae_ConnectedIP event) "denied" "tls_sni_mismatch" in
            [Audited event (env_record env records event); ClosedClient; ClosedUpstream]
        | _ => [Panicked]
        end
      else [Piped; ClosedClient; ClosedUpstream].

(** The loop over the resolved addresses; [Some] is the reason of a denial. *)
Fixpoint check_candidates (publicAllowed : bool) (privateGateway : option PrivateDestination) (resolved : list Addr) : option string :=
  match resolved with
  | [] => None
  | candidate :: rest =>
      let candidate := Unmap candidate in
      if negb (IsValid candidate) || (publicAllowed && forbiddenAddress candidate) then Some "dns_address_forbidden"
      else if match privateGateway with Some gateway => negb (privateDestinationContains gateway candidate) | None => false end then Some "private_dns_mismatch"
      else check_candidates publicAllowed privateGateway rest
  end.

Definition anonymous : AuditEvent :=
  {| ae_Version := 1; ae_Timestamp := env_clock env 0; ae_BuildID := ""; ae_OrganizationID := ""; ae_WorkerName := ""; ae_PayloadDigest := "";
     ae_Generation := 0; ae_Domain := ""; ae_RequestedIP := None; ae_ResolvedIPs := []; ae_ConnectedIP := None; ae_Port := 0; ae_Profiles := [];
     ae_GatewayID := ""; ae_Action := "denied"; ae_Reason := "invalid_request" |}.

(** The event with what the request asks for. *)
Definition request_event (policy : Policy) (domain : string) (address : option Addr) (port : Z) (profiles : list string) (gatewayID : string) (resolved : list Addr) : AuditEvent :=
  {| ae_Version := 1; ae_Timestamp := env_clock env 0; ae_BuildID := ep_BuildID policy; ae_OrganizationID := ep_OrganizationID policy;
     ae_WorkerName := ep_WorkerName policy; ae_PayloadDigest := ep_PayloadDigest policy; ae_Generation := ep_Generation policy;
     ae_Domain := domain; ae_RequestedIP := address; ae_ResolvedIPs := resolved; ae_ConnectedIP := None; ae_Port := port; ae_Profiles := profiles;
     ae_GatewayID := gatewayID; ae_Action := "denied"; ae_Reason := "invalid_request" |}.

(** From the candidates on. *)
Definition open (policy : Policy) (event : AuditEvent) (candidates : list Addr) (port : Z) : list action :=
  let '(actions, result) := connect 0 event candidates port in
  actions ++
  match result with
  | Connection records => tunnel records policy event
  | AuditUnavailable => [Answered 503]
  | ConnectFailed records => deny records event 502 "connect_failed"
  | NoConnection => [Panicked]
  end.

Definition ServeHTTP (request : Request) : list action :=
  match clientPolicy request with
  | Err _ => deny 0 anonymous 403 "client_identity"
  | Ok policy =>
      if negb (String.eqb (rq_Method request) "CONNECT") then deny 0 (request_event policy "" None 0 [] "" []) 405 "connect_required"
      else match parseConnectAuthority (rq_Host request) with
      | Err _ => deny 0 (request_event policy "" None 0 [] "" []) 400 "authority_invalid"
      | Ok (host, port, address) =>
          if IsValid address then
            let address := Unmap address in
            match privateDestination policy address port with
            | None => deny 0 (request_event policy "" (Some address) port [] "" []) 403 "ip_not_mapped"
            | Some gateway =>
                if forbiddenAddress address && negb (allowedPrivateAddress address)
                then deny 0 (request_event policy "" (Some address) port [] "" []) 403 "ip_not_mapped"
                else open policy (request_event policy "" (Some address) port ["private"] (pd_GatewayID gateway) [address]) [address] port
            end
          else
            let destination := publicDestination policy host port in
            let privateGateway := privateDomainDestination policy host port in
            let grants :=
              match destination, privateGateway with
              | Some d, _ => Some (de_Profiles d, "")
              | None, Some g => Some (["private"], pd_GatewayID g)
              | None, None => None
              end in
            match grants with
            | None => deny 0 (request_event policy host None port [] "" []) 403 "domain_not_allowed"
            | Some (profiles, gatewayID) =>
                let event := request_event policy host None port profiles gatewayID in
                Resolved host ::
                match env_lookup env host with
                | Err _ => deny 0 (event []) 502 "dns_failed"
                | Ok resolved =>
                    if (length resolved =? 0)%nat || (MaxResolvedAddresses <? length resolved)%nat then deny 0 (event []) 502 "dns_failed"
                    else match check_candidates (bool_decide (is_Some destination)) privateGateway resolved with
                    | Some reason => deny 0 (event []) 403 reason
                    | None =>
                        let candidates := SortStableFunc CompareAddr (remove_dups (map Unmap resolved)) in
                        open policy (event candidates) candidates port
                    end
                end
            end
      end
  end.

End Serve.

(** ** Lemmas on addresses *)

Lemma in_block_widen bits base len len' base' n : 0 ≤ len' ≤ len → len ≤ bits →
  in_block bits base len n = true → in_block bits base' len' base = true → in_block bits base' len' n = true.
Proof.
  unfold in_block. intros Hl Hb. rewrite !Z.eqb_eq. intros E E'.
  replace (bits - len') with ((bits - len) + (len - len')) in * by lia.
  by rewrite <- (Z.shiftr_shiftr n), E, Z.shiftr_shiftr by lia.
Qed.

Lemma ParsePrefix_bits s p : ParsePrefix s = Some p → IsValid (px_addr p) = true ∧ 0 ≤ px_bits p ≤ BitLen (px_addr p).
Proof.
  unfold ParsePrefix, ParseAddr. intros Hp. repeat case_match; simplify_eq; simpl in *; bsimpl; (split; [done|lia]).
Qed.

(** Every address of a private prefix is private. *)
Lemma allowedPrivatePrefix_contains cidr a :
  allowedPrivatePrefix cidr = true → ContainsAddr (MustParsePrefix cidr) a = true →
  existsb (fun parentText => ContainsAddr (MustParsePrefix parentText) a) private_parents = true.
Proof.
  unfold allowedPrivatePrefix. destruct (ParsePrefix cidr) as [p|] eqn:Hp; [|done].
  assert (MustParsePrefix cidr = p) as -> by (unfold MustParsePrefix; by rewrite Hp). apply ParsePrefix_bits in Hp as [_ Hbits].
  destruct (negb _ || _); [done|]. rewrite !existsb_exists. intros (text & Hin & Ht) Hc. exists text. split; [done|].
  assert (0 ≤ px_bits (MustParsePrefix text)) as Hpos.
  { unfold MustParsePrefix. destruct (ParsePrefix text) eqn:E; [|done]. apply ParsePrefix_bits in E as [_ ?]. lia. }
  unfold ContainsAddr in *. bsimpl. split_and!; try done; [congruence|].
  eapply in_block_widen; [| |done|]; [lia|lia|]. by replace (BitLen a) with (BitLen (px_addr p)) by congruence.
Qed.

Lemma privateDestinationContains_private g address : gateway_valid g → privateDestinationContains g address = true → allowedPrivateAddress address = true.
Proof.
  intros [Hc _] Hp. unfold privateDestinationContains in Hp. apply existsb_exists in Hp as (cidr & Hin & Ha). rewrite Forall_forall in Hc.
  eapply allowedPrivatePrefix_contains; [|exact Ha]. apply Hc. by apply list_elem_of_In.
Qed.

(** ** Lemmas on traces *)

Section Traces.
Context `{GoText} `{!JSON Policy} (env : Env) (proxy : Proxy).

(** Nothing is reached: lookups, denials and answers only. *)
Definition quiet (a : action) : Prop :=
  match a with
  | Audited event _ => ae_Action event = "denied"
  | Resolved _ | Answered _ => True
  | _ => False
  end.

Lemma deny_quiet records event status reason : Forall quiet (deny env records event status reason).
Proof. by repeat constructor. Qed.

(** Where the candidates of a request come from. *)
Inductive target (policy : Policy) (request : Request) (port : Z) : string → list Addr → Prop :=
| target_address address gateway :
    parseConnectAuthority (rq_Host request) = Ok ("", port, address) → IsValid address = true →
    privateDestination policy (Unmap address) port = Some gateway → target policy request port "" [Unmap address]
| target_domain host address resolved candidates :
    parseConnectAuthority (rq_Host request) = Ok (host, port, address) → IsValid address = false →
    env_lookup env host = Ok resolved → candidates ≠ [] → (∀ c, c ∈ candidates ↔ c ∈ map Unmap resolved) →
    is_Some (publicDestination policy host port) ∨ is_Some (privateDomainDestination policy host port) →
    (is_Some (publicDestination policy host port) → Forall (fun c => forbiddenAddress c = false) candidates) →
    (∀ g, privateDomainDestination policy host port = Some g → Forall (fun c => privateDestinationContains g c = true) candidates) →
    target policy request port host candidates.

Lemma parseConnectAuthority_Ok authority host port address :
  parseConnectAuthority authority = Ok (host, port, address) → (IsValid address = true ∧ host = "") ∨ (IsValid address = false ∧ validHostname host = true).
Proof.
  unfold parseConnectAuthority. intros Hp. passed Hp E1. destruct (SplitHostPort authority) as [[h p]|]; [|done]. passed Hp E2.
  destruct (ParseUint16 p) as [v|]; [|done]. passed Hp E3. destruct (ParseAddr h) as [a|] eqn:Ha.
  - simplify_eq. left. split; [|done]. unfold ParseAddr in Ha. repeat case_match; simplify_eq; unfold Unmap; by try case_match.
  - cbv zeta in Hp. passed Hp E4. simplify_eq. right. split; [done|by bsimpl].
Qed.

Lemma check_candidates_None publicAllowed gateway resolved : check_candidates publicAllowed gateway resolved = None →
  (publicAllowed = true → Forall (fun c => forbiddenAddress c = false) (map Unmap resolved)) ∧
  (∀ g, gateway = Some g → Forall (fun c => privateDestinationContains g c = true) (map Unmap resolved)).
Proof.
  induction resolved as [|c resolved IH]; simpl; intros Hc; [split; constructor|].
  destruct (negb (IsValid (Unmap c)) || _) eqn:E1; [done|]. destruct (match gateway with Some _ => _ | None => _ end) eqn:E2; [done|].
  apply IH in Hc as [Hpub Hpriv]. split.
  - intros ->. constructor; [|auto]. by apply orb_false_iff in E1 as [_ E1].
  - intros g ->. constructor; [by bsimpl|auto].
Qed.

(** A request is turned away, or its candidates are tried in turn. *)
Lemma ServeHTTP_cases request :
  Forall quiet (ServeHTTP env proxy request) ∨
  ∃ prefix policy event candidates port,
    ServeHTTP env proxy request = prefix ++ open env proxy policy event candidates port ∧ Forall quiet prefix ∧
    clientPolicy env request = Ok policy ∧ rq_Method request = "CONNECT" ∧ target policy request port (ae_Domain event) candidates ∧
    ae_Port event = port ∧ ae_BuildID event = ep_BuildID policy ∧ ae_ConnectedIP event = None.
Proof.
  unfold ServeHTTP. destruct (clientPolicy env request) as [policy|] eqn:Hpol; [|left; apply deny_quiet].
  destruct (String.eqb_spec (rq_Method request) "CONNECT") as [Hm|]; [|left; apply deny_quiet]. cbn [negb].
  destruct (parseConnectAuthority _) as [[[host port] address]|] eqn:Hp; [|left; apply deny_quiet].
  destruct (parseConnectAuthority_Ok _ _ _ _ Hp) as [[Hv ->]|[Hv Hhost]]; rewrite Hv.
  - destruct (privateDestination policy _ port) as [gateway|] eqn:Hg; [|left; apply deny_quiet].
    destruct (_ && _); [left; apply deny_quiet|]. right. exists []. do 4 eexists. split_and!; [done|constructor|done..| |done|done|done]. by econstructor.
  - destruct (match publicDestination policy host port with Some d => _ | None => _ end) as [[profiles gatewayID]|] eqn:Hgr; [|left; apply deny_quiet].
    destruct (env_lookup env host) as [resolved|] eqn:Hl; [|left; constructor; [done|apply deny_quiet]].
    destruct (_ || _) eqn:Hlen; [left; constructor; [done|apply deny_quiet]|].
    destruct (check_candidates _ _ _) as [reason|] eqn:Hc; [left; constructor; [done|apply deny_quiet]|].
    apply check_candidates_None in Hc as [Hpub Hpriv]. right.
    eexists [Resolved host], policy, _, _, port. split_and!; [done|by repeat constructor|done..| |done|done|done]. cbn [ae_Domain request_event].
    assert (∀ c, c ∈ SortStableFunc CompareAddr (remove_dups (map Unmap resolved)) ↔ c ∈ map Unmap resolved) as Hin.
    { intros c. by rewrite SortStableFunc_perm, elem_of_remove_dups. }
    econstructor; try done.
    + intros E. destruct resolved as [|c resolved]; [by simpl in Hlen|]. apply (not_elem_of_nil (Unmap c)). rewrite <- E, Hin. simpl. apply list_elem_of_here.
    + destruct (publicDestination _ _ _) eqn:E1; [eauto|]. destruct (privateDomainDestination _ _ _) eqn:E2; [eauto|done].
    + intros Hs. rewrite bool_decide_true in Hpub by done. specialize (Hpub eq_refl). rewrite Forall_forall in Hpub |- *. intros c Hc. by apply Hpub, Hin.
    + intros g Hg. specialize (Hpriv g Hg). rewrite Forall_forall in Hpriv |- *. intros c Hc. by apply Hpriv, Hin.
Qed.

(** A candidate is dialed right after an accepted record of the attempt. *)
Lemma connect_dialed attempts event candidates port a p ok :
  Dialed a p ok ∈ (connect env attempts event candidates port).1 →
  a ∈ candidates ∧ p = port ∧ ∃ before after,
    (connect env attempts event candidates port).1 = before ++ Audited (allowed_event event a) true :: Dialed a p ok :: after.
Proof.
  revert attempts. induction candidates as [|c candidates IH]; intros attempts; simpl; [set_solver|].
  destruct (env_record env attempts _); simpl; [|set_solver]. destruct (env_dial env attempts c port); simpl.
  - intros Hin. apply elem_of_cons in Hin as [|[E|Hin]%elem_of_cons]; [done| |set_solver]. simplify_eq.
    split_and!; [set_solver|done|]. by exists [], [].
  - destruct (connect env (S attempts) event candidates port) as [actions r] eqn:E. simpl. specialize (IH (S attempts)). rewrite E in IH. simpl in IH.
    intros Hin. apply elem_of_cons in Hin as [|[E'|Hin]%elem_of_cons]; [done| |].
    + simplify_eq. split_and!; [set_solver|done|]. by exists [], actions.
    + destruct (IH Hin) as (Hc & Hp & before & after & ->). split_and!; [set_solver|done|].
      by exists (Audited (allowed_event event c) true :: Dialed c port false :: before), after.
Qed.

Lemma tunnel_no_dial records policy event a p ok : Dialed a p ok ∉ tunnel env proxy records policy event.
Proof. unfold tunnel. cbv zeta. repeat case_match; intros Hin; repeat (apply elem_of_cons in Hin as [Hin|Hin]; [done|]); by apply elem_of_nil in Hin. Qed.

Lemma quiet_no_dial l a p ok : Forall quiet l → Dialed a p ok ∉ l.
Proof. rewrite Forall_forall. intros Hq Hin. by apply Hq in Hin. Qed.

Lemma open_dialed policy event candidates port a p ok :
  Dialed a p ok ∈ open env proxy policy event candidates port →
  a ∈ candidates ∧ p = port ∧ ∃ before after,
    open env proxy policy event candidates port = before ++ Audited (allowed_event event a) true :: Dialed a p ok :: after.
Proof.
  unfold open. pose proof (connect_dialed 0 event candidates port a p ok) as Hd.
  destruct (connect env 0 event candidates port) as [actions r]. simpl in Hd. intros [Hin|Hin]%elem_of_app.
  - destruct (Hd Hin) as (Hc & Hp & before & after & ->). split_and!; [done..|]. exists before. eexists. by rewrite <- app_assoc.
  - exfalso. destruct r; [by apply tunnel_no_dial in Hin|set_solver|by apply quiet_no_dial in Hin; [|apply deny_quiet]|set_solver].
Qed.

(** What is sent to the destination. *)
Definition sends (a : action) : bool := match a with Forwarded _ _ | Piped => true | _ => false end.

Lemma quiet_sends_nothing l a : Forall quiet l → sends a = true → a ∉ l.
Proof. rewrite Forall_forall. intros Hq Hs Hin. apply Hq in Hin. by destruct a. Qed.

(** A connection is the last dial, after an accepted record of it. *)
Lemma connect_Connection attempts event candidates port actions records :
  connect env attempts event candidates port = (actions, Connection records) →
  ∃ before candidate, candidate ∈ candidates ∧ actions = before ++ [Audited (allowed_event event candidate) true; Dialed candidate port true].
Proof.
  revert attempts actions. induction candidates as [|c candidates IH]; intros attempts actions; simpl; [by destruct (attempts =? 0)%nat|].
  destruct (env_record env attempts _); simpl; [|done]. destruct (env_dial env attempts c port); simpl.
  - intros [= <- <-]. exists [], c. split; [left|done].
  - destruct (connect env (S attempts) event candidates port) as [l r] eqn:E. intros [= <- ->]. destruct (IH _ _ E) as (before & a & Hin & ->).
    exists (Audited (allowed_event event c) true :: Dialed c port false :: before), a. split; [by right|done].
Qed.

Lemma connect_sends_nothing attempts event candidates port a : sends a = true → a ∉ (connect env attempts event candidates port).1.
Proof.
  intros Hs. revert attempts. induction candidates as [|c candidates IH]; intros attempts; simpl; [set_solver|].
  destruct (env_record env attempts _); simpl; [|destruct a; set_solver]. destruct (env_dial env attempts c port); simpl; [destruct a; set_solver|].
  specialize (IH (S attempts)). destruct (connect env (S attempts) event candidates port). simpl in *. destruct a; set_solver.
Qed.

(** What a tunnel that sends something does. *)
Definition tunneled (policy : Policy) (domain : string) (l : list action) : Prop :=
  ∃ lifetime tail, l = Hijacked :: Lifetime lifetime :: Established :: tail ∧
    lifetime ≤ pr_tunnelLifetime proxy ∧ lifetime ≤ Sub (FromUnix (ep_ExpiresAtUnix policy)) (env_clock env 2) ∧
    if String.eqb domain "" then tail = [Piped; ClosedClient; ClosedUpstream]
    else ∃ hello rest, readValidatedClientHello (env_client env) domain = ClientHello.Ret (hello, rest) ∧
      (tail = [Forwarded hello true; Piped; ClosedClient; ClosedUpstream] ∨ tail = [Forwarded hello false; ClosedClient; ClosedUpstream]).

Lemma tunnel_sends records policy event a : sends a = true → a ∈ tunnel env proxy records policy event → tunneled policy (ae_Domain event) (tunnel env proxy records policy event).
Proof.
  intros Hs. unfold tunnel. destruct (env_hijacker env); [|destruct a; set_solver]. destruct (env_hijacked env); [|destruct a; set_solver]. cbn [negb]. cbv zeta.
  destruct (env_established env); [|destruct a; set_solver]. cbn [negb]. intros Hin. eexists _, _. split; [reflexivity|]. split; [case_match; bsimpl; lia|]. split; [case_match; bsimpl; lia|].
  destruct (String.eqb (ae_Domain event) ""); [done|]. cbn [negb] in *.
  destruct (readValidatedClientHello _ _) as [[hello rest]|message| |]; [|destruct a; set_solver..]. exists hello, rest. destruct (env_hello_written env); auto.
Qed.

Lemma open_sends policy event candidates port a : sends a = true → a ∈ open env proxy policy event candidates port →
  ∃ before candidate last, candidate ∈ candidates ∧ tunneled policy (ae_Domain event) last ∧
    open env proxy policy event candidates port = before ++ Audited (allowed_event event candidate) true :: Dialed candidate port true :: last.
Proof.
  intros Hs. unfold open. pose proof (connect_sends_nothing 0 event candidates port a Hs) as Hn.
  destruct (connect env 0 event candidates port) as [actions r] eqn:E. simpl in Hn. intros [Hin|Hin]%elem_of_app; [done|].
  destruct r as [records| |records|]; [|destruct a; set_solver|by apply quiet_sends_nothing in Hin; [|apply deny_quiet|]|destruct a; set_solver].
  destruct (connect_Connection _ _ _ _ _ _ E) as (before & candidate & Hc & ->). exists before, candidate, (tunnel env proxy records policy event).
  split_and!; [done|by eapply tunnel_sends|by rewrite <- app_assoc].
Qed.

(** ** Connections

    The client's connection belongs to the server until it is answered or hijacked. *)

Inductive client := Fresh | Served | Taken | Gone.

Record connections := { cn_upstream : bool; cn_client : client }.

Definition when (b : bool) (c : connections) : option connections := if b then Some c else None.

(** What an action does to the connections; [None] when it uses one it does not have. *)
Definition use (c : connections) (a : action) : option connections :=
  let taken := match cn_client c with Taken => true | _ => false end in
  let fresh := match cn_client c with Fresh => true | _ => false end in
  match a with
  | Audited _ _ | Resolved _ => Some c
  | Dialed _ _ connected => when (negb (cn_upstream c)) {| cn_upstream := connected; cn_client := cn_client c |}
  | Answered _ => when (fresh && negb (cn_upstream c)) {| cn_upstream := false; cn_client := Served |}
  | Hijacked => when (fresh && cn_upstream c) {| cn_upstream := true; cn_client := Taken |}
  | Lifetime _ | Established | Forwarded _ _ | Piped => when (taken && cn_upstream c) c
  | ClosedClient => when taken {| cn_upstream := cn_upstream c; cn_client := Gone |}
  | ClosedUpstream => when (cn_upstream c) {| cn_upstream := false; cn_client := cn_client c |}
  | Panicked => None
  end.

Fixpoint use_all (c : connections) (l : list action) : option connections :=
  match l with [] => Some c | a :: l => c' ← use c a; use_all c' l end.

Lemma use_all_app c l1 l2 : use_all c (l1 ++ l2) = c' ← use_all c l1; use_all c' l2.
Proof. revert c. induction l1 as [|a l1 IH]; intros c; [done|]. simpl. destruct (use c a); [apply IH|done]. Qed.

Definition idle : connections := {| cn_upstream := false; cn_client := Fresh |}.
Definition dialed : connections := {| cn_upstream := true; cn_client := Fresh |}.

(** Nothing is left open: the client was answered, or its hijacked connection closed, or
    the hijack failed and left it to the server. *)
Definition released (c : connections) : Prop :=
  cn_upstream c = false ∧
  (cn_client c = Served ∨ cn_client c = Gone ∨ cn_client c = Fresh ∧ env_hijacker env = true ∧ env_hijacked env = false).

Definition settled (c : connections) (l : list action) : Prop := ∃ c', use_all c l = Some c' ∧ released c'.

Lemma settled_app c l1 l2 c1 : use_all c l1 = Some c1 → settled c1 l2 → settled c (l1 ++ l2).
Proof. intros E (c' & E' & Hr). exists c'. split; [|done]. by rewrite use_all_app, E. Qed.

Lemma deny_settled records event status reason : settled idle (deny env records event status reason).
Proof. unfold settled, released. eexists. split; [reflexivity|]. cbn. auto. Qed.

Lemma tunnel_settled records policy event : Forall is_byte (env_client env) → settled dialed (tunnel env proxy records policy event).
Proof.
  intros Hb. unfold settled, released, tunnel. destruct (env_hijacker env) eqn:E1; [|eexists; split; [reflexivity|cbn; auto]].
  destruct (env_hijacked env) eqn:E2; [|eexists; split; [reflexivity|cbn; auto 6]]. cbn [negb]. cbv zeta.
  destruct (env_established env); [|eexists; split; [reflexivity|cbn; auto]]. cbn [negb].
  destruct (String.eqb (ae_Domain event) ""); [eexists; split; [reflexivity|cbn; auto]|]. cbn [negb].
  destruct (ClientHello.read_total (env_client env) (ae_Domain event) Hb) as [[hello rest] [->|[message ->]]]; [destruct (env_hello_written env)|]; (eexists; split; [reflexivity|cbn; auto]).
Qed.

(** The dials leave a connection only when one succeeds. *)
Lemma connect_uses attempts event candidates port : candidates ≠ [] ∨ attempts ≠ 0%nat →
  let '(actions, r) := connect env attempts event candidates port in
  use_all idle actions = Some (match r with Connection _ => dialed | _ => idle end) ∧ r ≠ NoConnection.
Proof.
  revert attempts. induction candidates as [|c candidates IH]; intros attempts Hn; simpl; [destruct attempts; naive_solver|].
  destruct (env_record env attempts _); simpl; [|done]. destruct (env_dial env attempts c port); simpl; [done|].
  specialize (IH (S attempts) ltac:(auto)). by destruct (connect env (S attempts) event candidates port).
Qed.

Lemma open_settled policy event candidates port : Forall is_byte (env_client env) → candidates ≠ [] → settled idle (open env proxy policy event candidates port).
Proof.
  intros Hb Hne. unfold open. pose proof (connect_uses 0 event candidates port ltac:(auto)) as Hu.
  destruct (connect env 0 event candidates port) as [actions r]. destruct Hu as [Hu Hr]. eapply settled_app; [exact Hu|].
  destruct r; [by apply tunnel_settled|unfold settled, released; eexists; split; [reflexivity|cbn; auto]|apply deny_settled|done].
Qed.

Lemma ServeHTTP_settled : Forall is_byte (env_client env) → ∀ request, settled idle (ServeHTTP env proxy request).
Proof.
  intros Hb request. unfold ServeHTTP. destruct (clientPolicy env request) as [policy|] eqn:Hpol; [|apply deny_settled].
  destruct (negb _); [apply deny_settled|].
  destruct (parseConnectAuthority _) as [[[host port] address]|] eqn:Hp; [|apply deny_settled]. destruct (IsValid address).
  - destruct (privateDestination policy _ port) as [gateway|]; [|apply deny_settled]. destruct (_ && _); [apply deny_settled|]. by apply open_settled.
  - destruct (match publicDestination policy host port with Some d => _ | None => _ end) as [[profiles gatewayID]|]; [|apply deny_settled].
    apply (settled_app idle [Resolved host] _ idle); [done|]. destruct (env_lookup env host) as [resolved|]; [|apply deny_settled].
    destruct (_ || _) eqn:Hlen; [apply deny_settled|]. destruct (check_candidates _ _ _); [apply deny_settled|]. apply open_settled; [done|].
    intros E. destruct resolved as [|c resolved]; [by simpl in Hlen|]. apply (not_elem_of_nil (Unmap c)).
    rewrite <- E, SortStableFunc_perm, elem_of_remove_dups. simpl. apply list_elem_of_here.
Qed.

(** What a valid policy allows for a candidate. *)
Lemma target_allowed policy request port domain candidates a : valid policy → target policy request port domain candidates → a ∈ candidates →
  (is_Some (privateDestination policy a port) ∧ allowedPrivateAddress a = true) ∨
  (∃ host resolved, is_Some (publicDestination policy host port) ∧ env_lookup env host = Ok resolved ∧ a ∈ map Unmap resolved ∧ forbiddenAddress a = false).
Proof.
  intros Hv Ht Ha.
  assert (∀ g, g ∈ ep_PrivateGateways policy → containsPort (pd_Ports g) port = true → privateDestinationContains g a = true →
    is_Some (privateDestination policy a port) ∧ allowedPrivateAddress a = true) as Hgate.
  { intros g Hg Hport Hc. split.
    - apply first_gateway_is_Some. exists g. split; [done|]. by rewrite Hport.
    - eapply privateDestinationContains_private; [|exact Hc]. pose proof (valid_private _ Hv) as Hp. rewrite Forall_forall in Hp. by apply Hp. }
  destruct Ht as [address gateway Hparse Hvalid Hg|host address resolved candidates Hparse Hvalid Hl Hne Hin Hsome Hpub Hpriv].
  - apply list_elem_of_singleton in Ha. subst a. left. apply first_gateway_Some in Hg as [Hg Htest]. apply andb_true_iff in Htest as [Hport Hc].
    apply (Hgate gateway); [done..|]. unfold privateDestinationContains. exact Hc.
  - destruct (privateDomainDestination policy host port) as [g|] eqn:Eg.
    + left. pose proof Eg as Hg. apply first_gateway_Some in Hg as [Hg Htest]. apply andb_true_iff in Htest as [Hport _].
      specialize (Hpriv g eq_refl). rewrite Forall_forall in Hpriv. apply (Hgate g); auto.
    + right. destruct Hsome as [Hs|[? ?]]; [|done]. specialize (Hpub Hs). rewrite Forall_forall in Hpub. exists host, resolved.
      split_and!; [done|done|by apply Hin|by apply Hpub].
Qed.

End Traces.

Lemma clientPolicy_leaf `{GoText} `{!JSON Policy} env request state leaf policy :
  rq_TLS request = Some state → List.hd_error (cs_PeerCertificates state) = Some leaf →
  clientPolicy env request = Ok policy → PolicyFromCertificate (Some leaf) (env_clock env 1) = Ok policy.
Proof. unfold clientPolicy. intros -> -> Hc. by passed Hc E. Qed.

Section Theorems.
Context `{GoText} `{!JSON Policy} (env : Env) (proxy : Proxy).

(** C10: A build reaches only what its lock grants.  For a worker that presents a
    certificate issued for the policy of a lock: whatever the proxy dials on its
    behalf, whatever the resolver answers, is either an address of the site's mapping
    of a private gateway the lock names, and private, or an address a domain the lock
    names resolves to, and public; the port is the one granted; the certificate is
    valid; and the attempt on that very address was audited, for that build, right
    before. *)
Theorem egress_confined_to_lock buildID organizationID workerName payloadDigest generation notBefore expiresAt lock mappings policy
    issuerNotBefore issuerNotAfter ctx clock faults leaf request state address port connected :
  NewPolicy buildID organizationID workerName payloadDigest generation notBefore expiresAt lock mappings = Ok policy →
  Issue issuerNotBefore issuerNotAfter ctx clock faults policy = Ok leaf →
  rq_TLS request = Some state → List.hd_error (cs_PeerCertificates state) = Some leaf →
  Dialed address port connected ∈ ServeHTTP env proxy request →
  ct_NotBefore leaf ≤ env_clock env 1 < ct_NotAfter leaf ∧
  ((private_grant lock mappings address port ∧ allowedPrivateAddress address = true) ∨
   (∃ host resolved, public_grant lock host port ∧ env_lookup env host = Ok resolved ∧ address ∈ map Unmap resolved ∧ forbiddenAddress address = false)) ∧
  ∃ before after event, ServeHTTP env proxy request = before ++ Audited event true :: Dialed address port connected :: after ∧
    ae_Action event = "allowed" ∧ ae_ConnectedIP event = Some address ∧ ae_Port event = port ∧ ae_BuildID event = buildID.
Proof.
  intros Hnew Hissue Htls Hpeer Hdial. destruct (policy_grants _ _ _ _ _ _ _ _ _ _ Hnew) as (Hpub & Hpriv & _).
  assert (ep_BuildID policy = buildID) as Hid.
  { unfold NewPolicy in Hnew. run_ok Hnew. done. }
  apply Issue_Ok in Hissue as (issued & c & u & Hv & Hm & _ & _ & Hbuild & _ & Hdest & Hgates & _ & _ & Hleaf).
  destruct (ServeHTTP_cases env proxy request) as [Hq|(prefix & presented & event & candidates & port' & Htrace & Hq & Hcp & _ & Htarget & Hport & Hbid & _)].
  { by apply quiet_no_dial in Hdial. }
  pose proof (clientPolicy_leaf _ _ _ _ _ Htls Hpeer Hcp) as Hread. rewrite Hleaf in Hread |- *. rewrite (PolicyFromCertificate_leaf _ _ _ _ Hv Hm) in Hread.
  destruct (_ && _) eqn:Htime; [|done]. injection Hread as ->. bsimpl.
  rewrite Htrace in Hdial |- *. apply elem_of_app in Hdial as [Hdial|Hdial]; [by apply quiet_no_dial in Hdial|].
  apply open_dialed in Hdial as (Hin & -> & before & after & Hopen). split; [done|]. split.
  - apply Validate_Ok in Hv. destruct (target_allowed env _ _ _ _ _ _ Hv Htarget Hin) as [[Hs Ha]|(host & resolved & Hs & Hl & Hres & Hf)].
    + left. split; [|done]. apply Hpriv. unfold privateDestination in *. by rewrite <- Hgates.
    + right. exists host, resolved. split_and!; try done. apply Hpub. unfold publicDestination in *. by rewrite <- Hdest.
  - exists (prefix ++ before), after. eexists. rewrite Hopen, <- app_assoc. split_and!; try done. simpl. congruence.
Qed.

(** C33: A tunnel carries what was checked, for as long as the policy lasts.  Whatever
    the handler sends to a destination, it sends after an audit record of the attempt on
    that very address was accepted, the address was dialed, the client's connection was
    hijacked, its deadlines set to no more than the tunnel lifetime and the time the
    policy has left, and the client answered.  For a domain what is sent first is the
    ClientHello that [readValidatedClientHello] accepted for that domain, and nothing
    else is sent when that cannot be written; for an address there is no such check. *)
Theorem tunnel_checked request a :
  sends a = true → a ∈ ServeHTTP env proxy request →
  ∃ policy host port address candidate event lifetime before tail,
    clientPolicy env request = Ok policy ∧ parseConnectAuthority (rq_Host request) = Ok (host, port, address) ∧
    ServeHTTP env proxy request = before ++ [Audited event true; Dialed candidate port true; Hijacked; Lifetime lifetime; Established] ++ tail ∧
    ae_Action event = "allowed" ∧ ae_ConnectedIP event = Some candidate ∧ ae_Port event = port ∧ ae_BuildID event = ep_BuildID policy ∧
    lifetime ≤ pr_tunnelLifetime proxy ∧ lifetime ≤ Sub (FromUnix (ep_ExpiresAtUnix policy)) (env_clock env 2) ∧
    if IsValid address then tail = [Piped; ClosedClient; ClosedUpstream]
    else ∃ hello rest, readValidatedClientHello (env_client env) host = ClientHello.Ret (hello, rest) ∧
      (tail = [Forwarded hello true; Piped; ClosedClient; ClosedUpstream] ∨ tail = [Forwarded hello false; ClosedClient; ClosedUpstream]).
Proof.
  intros Hs Hp. destruct (ServeHTTP_cases env proxy request) as [Hq|(prefix & policy & event & candidates & port & Htrace & Hq & Hcp & _ & Htarget & Hport & Hbid & _)].
  { by apply quiet_sends_nothing in Hp. }
  rewrite Htrace in Hp |- *. apply elem_of_app in Hp as [Hp|Hp]; [by apply quiet_sends_nothing in Hp|].
  apply open_sends in Hp as (before & candidate & last & Hc & (lifetime & tail & -> & Hl1 & Hl2 & Htail) & Hopen); [|done].
  assert (∃ address, parseConnectAuthority (rq_Host request) = Ok (ae_Domain event, port, address) ∧ IsValid address = String.eqb (ae_Domain event) "") as (address & Hparse & Hvalid).
  { destruct Htarget as [address gateway Hparse Hv _|host address resolved candidates Hparse Hv _ _ _ _ _ _]; exists address; [by rewrite Hv|].
    split; [done|]. rewrite Hv. destruct (parseConnectAuthority_Ok _ _ _ _ Hparse) as [[? _]|[_ Hhost]]; [congruence|]. by destruct host. }
  exists policy, (ae_Domain event), port, address, candidate, (allowed_event event candidate), lifetime, (prefix ++ before), tail.
  rewrite Hopen, app_assoc, Hvalid. split_and!; done.
Qed.

(** C34: Every CONNECT is settled.  On any request, any answers and any bytes of the
    client the handler uses the connections as they are: it sends only over a hijacked
    client and a dialed destination, answers only a client it has not hijacked, closes
    only what is open, and does not panic.  When it ends the destination's connection
    is closed, and the client was answered or its connection closed; it is left to the
    server only when the hijack failed. *)
Theorem connect_settled request :
  Forall is_byte (env_client env) →
  ∃ c, use_all idle (ServeHTTP env proxy request) = Some c ∧ cn_upstream c = false ∧
    (cn_client c = Served ∨ cn_client c = Gone ∨ cn_client c = Fresh ∧ env_hijacker env = true ∧ env_hijacked env = false).
Proof. intros Hb. destruct (ServeHTTP_settled env proxy Hb request) as (c & E & Hr & Hc). by exists c. Qed.

End Theorems.

(** ** Witnesses *)

Definition sample_request (host : string) : Request :=
  {| rq_TLS := Some {| cs_VerifiedChains := [[sample_leaf]]; cs_PeerCertificates := [sample_leaf] |}; rq_Method := "CONNECT"; rq_Host := host |}.

Definition sample_hello : ClientHello.hello_fields :=
  {| ClientHello.hf_fixed := repeat 3 34; ClientHello.hf_session := []; ClientHello.hf_ciphers := [19; 1]; ClientHello.hf_compression := [0];
     ClientHello.hf_extensions := [(0, ClientHello.enc_name_list [(0, Crypto.bytes_of "rubygems.org")])] |}.

Definition sample_env : Env :=
  {| env_clock := fun _ => FromUnix 1700000300; env_lookup := fun host => if String.eqb host "rubygems.org" then Ok [Addr4 (quad 151 101 1 227)] else Err (invalid "");
     env_record := fun _ _ => true; env_dial := fun _ _ _ => true; env_hijacker := true; env_hijacked := true; env_established := true;
     env_client := ClientHello.enc_records [(1, ClientHello.handshake_of (ClientHello.encode sample_hello))]; env_hello_written := true |}.

Definition sample_proxy : Proxy := {| pr_connectTimeout := DefaultConnectTimeout; pr_tunnelLifetime := DefaultTunnelLifetime |}.

Lemma egress_confined_to_lock_witness : ∃ host resolved,
  @public_grant plain_text sample_lock host 443 ∧ env_lookup sample_env host = Ok resolved ∧ Addr4 (quad 151 101 1 227) ∈ map Unmap resolved.
Proof.
  destruct (@egress_confined_to_lock plain_text sample_json sample_env sample_proxy build_id organization_id "worker-1" (sample_digest "a") 1
    (FromUnix 1700000000) (FromUnix 1700000600) sample_lock sample_mappings sample_policy (FromUnix 1600000000) (FromUnix 1800000000) None (FromUnix 1700000010)
    no_faults sample_leaf (sample_request "RubyGems.org:443") {| cs_VerifiedChains := [[sample_leaf]]; cs_PeerCertificates := [sample_leaf] |}
    (Addr4 (quad 151 101 1 227)) 443 true) as (_ & Hgrant & _).
  - vm_compute. reflexivity.
  - vm_compute. reflexivity.
  - reflexivity.
  - reflexivity.
  - apply list_elem_of_lookup. exists 2%nat. vm_compute. reflexivity.
  - destruct Hgrant as [[_ Hpriv]|(host & resolved & Hg & Hl & Hin & _)]; [vm_compute in Hpriv; discriminate|]. by exists host, resolved.
Defined.

Lemma tunnel_checked_witness : ∃ policy host port address,
  @clientPolicy plain_text sample_json sample_env (sample_request "rubygems.org:443") = Ok policy ∧
  @parseConnectAuthority plain_text "rubygems.org:443" = Ok (host, port, address).
Proof.
  destruct (@tunnel_checked plain_text sample_json sample_env sample_proxy (sample_request "rubygems.org:443") Piped) as (policy & host & port & address & _ & _ & _ & _ & _ & Hc & Hp & _).
  - reflexivity.
  - apply list_elem_of_lookup. exists 7%nat. vm_compute. reflexivity.
  - by exists policy, host, port, address.
Defined.

Lemma connect_settled_witness : ∃ c, use_all idle (@ServeHTTP plain_text sample_json sample_env sample_proxy (sample_request "rubygems.org:443")) = Some c ∧ cn_upstream c = false.
Proof.
  destruct (@connect_settled plain_text sample_json sample_env sample_proxy (sample_request "rubygems.org:443")) as (c & E & Hc & _).
  - apply ClientHello.sample_bytes. vm_compute. reflexivity.
  - exact (ex_intro _ c (conj E Hc)).
Defined.

End EgressProxy.
