(* ===== verification/LLBAudit.v ===== *)
(** * The audit of LLB definitions (build-plane/internal/llbcompiler/audit.go)

    A build cell receives BuildKit definitions as bytes.  Before it runs them,
    [AuditDefinitions] proves that they use no more than the signed lock grants:
    the locked source and base images, one network capability per execution, the
    locked secrets and caches; and that they use all of it.

    BuildKit's wire format is an interface ([Buildkit]): what proto.Unmarshal
    yields, and the head of a definition.  The messages below have the fields the
    audit reads; a pointer is an [option], an enum keeps unknown values. *)

From S2P Require Import Prelude Text GoStd Crypto PlatformID Storage BuildIR LLBPolicy.
Import GoStd Crypto Storage LLBPolicy.

Open Scope Z_scope.

Module LLBAudit.

(** ** Messages of package pb *)

Record Input := { in_Digest : string }.

Record Platform := {
  pf_OS : string;
  pf_Architecture : string;
  pf_Variant : string;
  pf_OSVersion : string;
  pf_OSFeatures : list string;
}.

Record SourceOp := { so_Identifier : string; so_Attrs : gmap string string }.

Inductive SecurityMode := SecurityMode_SANDBOX | SecurityMode_INSECURE | SecurityMode_other (n : Z).
Inductive NetMode := NetMode_UNSET | NetMode_HOST | NetMode_NONE | NetMode_other (n : Z).
Inductive MountType := MountType_BIND | MountType_SECRET | MountType_SSH | MountType_CACHE | MountType_TMPFS | MountType_other (n : Z).
Inductive CacheSharingOpt := CacheSharingOpt_SHARED | CacheSharingOpt_PRIVATE | CacheSharingOpt_LOCKED | CacheSharingOpt_other (n : Z).

#[export] Instance SecurityMode_eq_dec : EqDecision SecurityMode.
Proof. solve_decision. Defined.
#[export] Instance NetMode_eq_dec : EqDecision NetMode.
Proof. solve_decision. Defined.
#[export] Instance CacheSharingOpt_eq_dec : EqDecision CacheSharingOpt.
Proof. solve_decision. Defined.

Record SecretOpt := { so_ID : string; so_Mode : Z; so_Optional : bool }.
Record CacheOpt := { co_ID : string; co_Sharing : CacheSharingOpt }.

Record Mount := {
  mt_Dest : string;
  mt_MountType : MountType;
  mt_SecretOpt : option SecretOpt;
  mt_CacheOpt : option CacheOpt;
}.

Record ProxyEnv := {
  px_HttpProxy : string;
  px_HttpsProxy : string;
  px_FtpProxy : string;
  px_NoProxy : string;
  px_AllProxy : string;
}.

(** Of the repeated fields only the length matters. *)
Record Meta := {
  me_ProxyEnv : option ProxyEnv;
  me_ExtraHosts : list string;
  me_Hostname : string;
  me_Ulimit : list string;
  me_CgroupParent : string;
  me_ValidExitCodes : list Z;
}.

Record ExecOp := {
  ex_Meta : option Meta;
  ex_Mounts : list (option Mount);
  ex_Network : NetMode;
  ex_Security : SecurityMode;
  ex_Secretenv : list string;
  ex_CdiDevices : list string;
}.

Inductive isOp :=
| Op_Source (source : option SourceOp)
| Op_Exec (exec : option ExecOp)
| Op_File
| Op_Merge
| Op_Diff
| Op_Build.

(** [op_Constraints] is the worker constraints' filter. *)
Record Op := {
  op_Inputs : list (option Input);
  op_Op : option isOp;
  op_Platform : option Platform;
  op_Constraints : option (list string);
}.

Record OpMetadata := { md_Description : gmap string string; md_LinuxResources : bool }.

(** [d_Metadata] maps an operation's digest to its metadata; a nil entry reads as
    an absent one. *)
Record Definition_ := { d_Def : list string; d_Metadata : gmap string OpMetadata }.

(** proto.Unmarshal into a pb.Definition and a pb.Op, [Head] of a definition, and
    the constants of package pb the audit names. *)
Class Buildkit := {
  unmarshal_definition : string → option Definition_;
  unmarshal_op : string → option Op;
  Head : Definition_ → option string;
  AttrLocalUniqueID : string;
  AttrSharedKeyHint : string;
  AttrImageResolveMode : string;
  AttrImageResolveModeForcePull : string;
}.

(** ** Authorities *)

(** The structs whose canonical JSON identifies what a vertex may use. *)
Record NetworkAuthority := { na_Profile : string; na_GatewayID : string; na_Hosts : list string }.
Record SecretAuthority := { sea_MountID : string; sea_Target : string; sea_Required : bool }.
Record CacheAuthority := { ca_Namespace : string; ca_Target : string; ca_Sharing : string }.

#[export] Instance NetworkAuthority_eq_dec : EqDecision NetworkAuthority.
Proof. solve_decision. Defined.
#[export] Instance SecretAuthority_eq_dec : EqDecision SecretAuthority.
Proof. solve_decision. Defined.
#[export] Instance CacheAuthority_eq_dec : EqDecision CacheAuthority.
Proof. solve_decision. Defined.

Class AuthorityCodecs := {
  network_codec :: Codec NetworkAuthority;
  secret_codec :: Codec SecretAuthority;
  cache_codec :: Codec CacheAuthority;
}.

Definition BuildEgressProxyURL : string := "http://127.0.0.1:3128".

Definition materialAuthority (material : BaseMaterial) : string :=
  ResolvedRef material +:+ String (char_of 0) (bm_Digest material).

Definition networkAuthority `{AuthorityCodecs} (network : NetworkCapability) : result string :=
  digestValue {| na_Profile := nc_Profile network; na_GatewayID := nc_GatewayID network; na_Hosts := nc_Hosts network |}.

Definition secretAuthority `{AuthorityCodecs} (secret : SecretCapability) : result string :=
  digestValue {| sea_MountID := se_MountID secret; sea_Target := se_Target secret; sea_Required := se_Required secret |}.

Definition cacheAuthority `{AuthorityCodecs} (cache : CacheCapability) : result string :=
  digestValue {| ca_Namespace := cc_Namespace cache; ca_Target := cc_Target cache; ca_Sharing := cc_Sharing cache |}.

Definition cacheSharingOption (value : string) : CacheSharingOpt :=
  if String.eqb value "private" then CacheSharingOpt_PRIVATE
  else if String.eqb value "locked" then CacheSharingOpt_LOCKED
  else CacheSharingOpt_SHARED.

(** [name[strings.Index(name, marker):]] *)
Fixpoint from_index (s sub : string) : option string :=
  if HasPrefix s sub then Some s else match s with "" => None | String _ s' => from_index s' sub end.

Definition networkProfileFromName (name : string) : string :=
  match from_index name " network=" with
  | None => ""
  | Some found =>
      let remaining := TrimPrefix found " network=" in
      match Cut remaining " " with Some (profile, _) => profile | None => remaining end
  end.

(** The name the compiler gives the vertex of a run. *)
Definition vertex_name (network : NetworkCapability) : string :=
  "lrail run " +:+ nc_NodeID network +:+ " network=" +:+ nc_Profile network +:+ " gateway=" +:+ nc_GatewayID network +:+
  " hosts=" +:+ Join "," (nc_Hosts network).

(** ** The auditor *)

Record authorities := {
  au_materials : gset string;
  au_network : gset string;
  au_secrets : gset string;
  au_caches : gset string;
}.

(** [da_expected] are the fields expectedMaterials, expectedNetwork,
    expectedSecrets and expectedCaches, [da_observed] the observed ones. *)
Record definitionAuditor := {
  da_lock : DefinitionLock;
  da_materials : gmap string string;
  da_networkNames : gmap string string;
  da_secrets : gmap string SecretCapability;
  da_caches : gmap string CacheCapability;
  da_expected : authorities;
  da_observed : authorities;
}.

Definition audit_error (message : string) : error := Error message "".

Definition material_identifier (material : BaseMaterial) : string := "docker-image://" +:+ ResolvedRef material.

Definition add_material (acc : gmap string string * gset string) (material : BaseMaterial) : result (gmap string string * gset string) :=
  let identifier := material_identifier material in
  let key := materialAuthority material in
  let ambiguous := match acc.1 !! identifier with Some existing => negb (String.eqb existing key) | None => false end in
  if ambiguous then Err (audit_error "LLB base material authority is ambiguous")
  else Ok (<[identifier := key]> acc.1, {[key]} ∪ acc.2).

(** The loop bodies over networks, secrets and caches: the authority, and an entry
    under a name that must be new. *)
Definition add_capability {A V} (authority : A → result string) (name : A → string) (value : A → string → V)
    (acc : gmap string V * gset string) (capability : A) : result (gmap string V * gset string) :=
  match authority capability with
  | Err _ => Err (audit_error "LLB authority cannot be canonicalized")
  | Ok key =>
      if bool_decide (is_Some (acc.1 !! name capability)) then Err (audit_error "LLB identity is duplicated")
      else Ok (<[name capability := value capability key]> acc.1, {[key]} ∪ acc.2)
  end.

Definition nothing : authorities := {| au_materials := ∅; au_network := ∅; au_secrets := ∅; au_caches := ∅ |}.

Section Audit.
Context `{!Buildkit} `{!AuthorityCodecs}.

Definition newDefinitionAuditor (lock : DefinitionLock) : result definitionAuditor :=
  let* materials := fold_result add_material (∅, ∅) (dl_BaseMaterials lock) in
  let* networks := fold_result (add_capability networkAuthority vertex_name (fun _ key => key)) (∅, ∅) (dl_Network lock) in
  let* secrets := fold_result (add_capability secretAuthority se_MountID (fun secret _ => secret)) (∅, ∅) (dl_Secrets lock) in
  let* caches := fold_result (add_capability cacheAuthority cc_Namespace (fun cache _ => cache)) (∅, ∅) (dl_Caches lock) in
  Ok {| da_lock := lock; da_materials := materials.1; da_networkNames := networks.1; da_secrets := secrets.1; da_caches := caches.1;
        da_expected := {| au_materials := materials.2; au_network := networks.2; au_secrets := secrets.2; au_caches := caches.2 |};
        da_observed := nothing |}.

(** Adds to what has been observed. *)
Definition observe (a : definitionAuditor) (materials network secrets caches : gset string) : definitionAuditor :=
  let seen := da_observed a in
  {| da_lock := da_lock a; da_materials := da_materials a; da_networkNames := da_networkNames a; da_secrets := da_secrets a;
     da_caches := da_caches a; da_expected := da_expected a;
     da_observed := {| au_materials := materials ∪ au_materials seen; au_network := network ∪ au_network seen;
                       au_secrets := secrets ∪ au_secrets seen; au_caches := caches ∪ au_caches seen |} |}.

(** ** The graph *)

(** The sets [visiting] and [visited] of the closure [visit]. *)
Record marks := { mk_visiting : gset string; mk_visited : gset string }.

(** The loop over an operation's inputs. *)
Fixpoint visit_inputs (visit : string → marks → option (marks * bool)) (inputs : list (option Input)) (m : marks)
    : option (marks * bool) :=
  match inputs with
  | [] => Some (m, true)
  | None :: _ => Some (m, false)
  | Some input :: inputs' =>
      match visit (in_Digest input) m with
      | Some (m', true) => visit_inputs visit inputs' m'
      | answer => answer
      end
  end.

(** The closure [visit]; [None] when the recursion is deeper than [fuel]. *)
Fixpoint visit (fuel : nat) (operations : gmap string Op) (operationDigest : string) (m : marks) : option (marks * bool) :=
  match fuel with
  | O => None
  | S fuel' =>
      if bool_decide (operationDigest ∈ mk_visiting m) then Some (m, false)
      else if bool_decide (operationDigest ∈ mk_visited m) then Some (m, true)
      else match operations !! operationDigest with
      | None => Some (m, false)
      | Some operation =>
          let entered := {| mk_visiting := {[operationDigest]} ∪ mk_visiting m; mk_visited := mk_visited m |} in
          match visit_inputs (visit fuel' operations) (op_Inputs operation) entered with
          | Some (m', true) =>
              Some ({| mk_visiting := mk_visiting m' ∖ {[operationDigest]}; mk_visited := {[operationDigest]} ∪ mk_visited m' |}, true)
          | answer => answer
          end
      end
  end.

(** One call deeper than there are operations is enough. *)
Definition completeLLBGraph (operations : gmap string Op) (outputDigest : string) : option bool :=
  match visit (S (size operations)) operations outputDigest {| mk_visiting := ∅; mk_visited := ∅ |} with
  | None => None
  | Some (m, ok) => Some (ok && (size (mk_visited m) =? size operations)%nat)
  end.

(** ** Operations *)

Definition auditPlatform (a : definitionAuditor) (platform : option Platform) : result unit :=
  match platform with
  | None => Ok tt
  | Some p =>
      if negb (String.eqb (pf_OS p +:+ "/" +:+ pf_Architecture p) (dl_TargetPlatform (da_lock a))) ||
         negb (String.eqb (pf_Variant p) "") || negb (String.eqb (pf_OSVersion p) "") || negb (length (pf_OSFeatures p) =? 0)%nat
      then Err (audit_error "LLB operation platform exceeds the signed target")
      else Ok tt
  end.

(** A missing key of a Go map reads as the empty string. *)
Definition attr (attrs : gmap string string) (key : string) : string := default "" (attrs !! key).

Definition auditSource (a : definitionAuditor) (source : option SourceOp) : result definitionAuditor :=
  match source with
  | None => Err (audit_error "LLB source operation is absent")
  | Some s =>
      if String.eqb (so_Identifier s) "local://lrail-source" then
        if negb (String.eqb (attr (so_Attrs s) AttrLocalUniqueID) (dl_SourceSnapshot (da_lock a))) ||
           negb (String.eqb (attr (so_Attrs s) AttrSharedKeyHint) (dl_SourceSnapshot (da_lock a)))
        then Err (audit_error "LLB local source is not bound to the signed snapshot")
        else Ok a
      else match da_materials a !! so_Identifier s with
      | None => Err (audit_error "LLB source is not an exact signed base material")
      | Some key =>
          if negb (String.eqb (attr (so_Attrs s) AttrImageResolveMode) AttrImageResolveModeForcePull)
          then Err (audit_error "LLB source is not an exact signed base material")
          else Ok (observe a {[key]} ∅ ∅ ∅)
      end
  end.

(** [key, _ := authority(...)]: the key, or the empty string of a failed call. *)
Definition key_of (authority : result string) : string := match authority with Ok key => key | Err _ => "" end.

Definition auditSecretMount (a : definitionAuditor) (mount : Mount) : result definitionAuditor :=
  match mt_SecretOpt mount with
  | None => Err (audit_error "LLB secret mount lacks options")
  | Some opt =>
      match da_secrets a !! so_ID opt with
      | None => Err (audit_error "LLB secret mount differs from its signed capability")
      | Some secret =>
          if negb (String.eqb (mt_Dest mount) (se_Target secret)) || negb (so_Mode opt =? 256) ||
             Bool.eqb (so_Optional opt) (se_Required secret)
          then Err (audit_error "LLB secret mount differs from its signed capability")
          else Ok (observe a ∅ ∅ {[key_of (secretAuthority secret)]} ∅)
      end
  end.

Definition auditCacheMount (a : definitionAuditor) (mount : Mount) : result definitionAuditor :=
  match mt_CacheOpt mount with
  | None => Err (audit_error "LLB cache mount lacks options")
  | Some opt =>
      match da_caches a !! co_ID opt with
      | None => Err (audit_error "LLB cache mount differs from its signed capability")
      | Some cache =>
          if negb (String.eqb (mt_Dest mount) (cc_Target cache)) ||
             negb (bool_decide (co_Sharing opt = cacheSharingOption (cc_Sharing cache)))
          then Err (audit_error "LLB cache mount differs from its signed capability")
          else Ok (observe a ∅ ∅ ∅ {[key_of (cacheAuthority cache)]})
      end
  end.

Definition audit_mount (a : definitionAuditor) (mount : option Mount) : result definitionAuditor :=
  match mount with
  | None => Err (audit_error "LLB execution contains an empty mount")
  | Some m =>
      match mt_MountType m with
      | MountType_BIND | MountType_TMPFS => Ok a
      | MountType_SECRET => auditSecretMount a m
      | MountType_CACHE => auditCacheMount a m
      | _ => Err (audit_error "LLB execution contains an unsupported SSH or unknown mount")
      end
  end.

(** The proxy settings fit the profile: none for a hermetic run, otherwise exactly
    the policy proxy. *)
Definition proxy_ok (profile : string) (proxy : option ProxyEnv) : bool :=
  if String.eqb profile "none" then negb (bool_decide (is_Some proxy))
  else match proxy with
  | None => false
  | Some p =>
      String.eqb (px_HttpProxy p) BuildEgressProxyURL && String.eqb (px_HttpsProxy p) BuildEgressProxyURL &&
      String.eqb (px_FtpProxy p) "" && String.eqb (px_NoProxy p) "" && String.eqb (px_AllProxy p) ""
  end.

Definition empty {A} (l : list A) : bool := (length l =? 0)%nat.

Definition auditExec (a : definitionAuditor) (execution : option ExecOp) (metadata : option OpMetadata) : result definitionAuditor :=
  match execution with
  | None => Err (audit_error "LLB execution requests unsupported ambient authority")
  | Some x =>
      if negb (bool_decide (ex_Security x = SecurityMode_SANDBOX)) || bool_decide (ex_Network x = NetMode_HOST) ||
         negb (empty (ex_Secretenv x)) || negb (empty (ex_CdiDevices x))
      then Err (audit_error "LLB execution requests unsupported ambient authority")
      else match ex_Meta x with
      | None => Err (audit_error "LLB execution metadata is absent")
      | Some meta =>
          if negb (empty (me_ExtraHosts meta)) then Err (audit_error "LLB execution metadata requests unsupported network authority")
          else if negb (String.eqb (me_CgroupParent meta) "") || negb (String.eqb (me_Hostname meta) "") ||
                  negb (empty (me_Ulimit meta)) || negb (empty (me_ValidExitCodes meta))
          then Err (audit_error "LLB execution metadata requests unsupported process authority")
          else match metadata with
          | None => Err (audit_error "LLB execution metadata is absent or carries resource authority")
          | Some md =>
              if md_LinuxResources md then Err (audit_error "LLB execution metadata is absent or carries resource authority")
              else
                let name := attr (md_Description md) "llb.customname" in
                match da_networkNames a !! name with
                | None => Err (audit_error "LLB execution is not bound to a signed network capability")
                | Some networkKey =>
                    let profile := networkProfileFromName name in
                    if (String.eqb profile "none" && negb (bool_decide (ex_Network x = NetMode_NONE))) ||
                       (negb (String.eqb profile "none") && negb (bool_decide (ex_Network x = NetMode_UNSET)))
                    then Err (audit_error "LLB execution network mode differs from its signed capability")
                    else if negb (proxy_ok profile (me_ProxyEnv meta))
                    then Err (audit_error "LLB execution proxy differs from its signed capability")
                    else fold_result audit_mount (observe a ∅ {[networkKey]} ∅ ∅) (ex_Mounts x)
                end
          end
      end
  end.

(** The first loop of [audit]: the operations by digest and the output vertex. *)
Definition add_operation (acc : gmap string Op * string) (raw : string) : result (gmap string Op * string) :=
  match unmarshal_op raw with
  | None => Err (audit_error "LLB operation is malformed")
  | Some operation =>
      let operationDigest := bytesDigest raw in
      if bool_decide (is_Some (acc.1 !! operationDigest)) then Err (audit_error "LLB definition contains a duplicate operation")
      else
        let operations := <[operationDigest := operation]> acc.1 in
        match op_Op operation with
        | Some _ => Ok (operations, acc.2)
        | None =>
            if negb (String.eqb acc.2 "") || negb (length (op_Inputs operation) =? 1)%nat
            then Err (audit_error "LLB definition must contain exactly one output vertex")
            else Ok (operations, operationDigest)
        end
  end.

Definition input_ok (input : option Input) : bool :=
  match input with None => false | Some i => HasPrefix (in_Digest i) "sha256:" end.

(** The body of the second loop; [operations] has an entry for every raw operation
    of the definition. *)
Definition audit_operation (operations : gmap string Op) (metadata : gmap string OpMetadata) (a : definitionAuditor) (raw : string)
    : result definitionAuditor :=
  let operationDigest := bytesDigest raw in
  match operations !! operationDigest with
  | None => Err (audit_error "unreachable")
  | Some operation =>
      let* _ := auditPlatform a (op_Platform operation) in
      if match op_Constraints operation with Some filter => negb (empty filter) | None => false end
      then Err (audit_error "LLB operation carries unsupported worker constraints")
      else if negb (forallb input_ok (op_Inputs operation)) then Err (audit_error "LLB operation input identity is invalid")
      else match op_Op operation with
      | Some (Op_Source source) => auditSource a source
      | Some (Op_Exec execution) => auditExec a execution (metadata !! operationDigest)
      | Some Op_File | Some Op_Merge | Some Op_Diff | None => Ok a
      | Some Op_Build => Err (audit_error "LLB contains an unsupported privileged operation")
      end
  end.

Definition audit (a : definitionAuditor) (contents : string) : result definitionAuditor :=
  match unmarshal_definition contents with
  | None => Err (audit_error "LLB definition is malformed or exceeds graph limits")
  | Some definition =>
      if empty (d_Def definition) || (BuildIR.MaxNodes + 1 <? length (d_Def definition))%nat
      then Err (audit_error "LLB definition is malformed or exceeds graph limits")
      else
        let* found := fold_result add_operation (∅, "") (d_Def definition) in
        if String.eqb found.2 "" || negb (bool_decide (completeLLBGraph found.1 found.2 = Some true))
        then Err (audit_error "LLB definition is disconnected, cyclic, or has a missing input")
        else fold_result (audit_operation found.1 (d_Metadata definition)) a (d_Def definition)
  end.

Definition equalStringSets (left right : gset string) : bool :=
  (size left =? size right)%nat && forallb (fun key => bool_decide (key ∈ right)) (elements left).

(** Go visits the four pairs in any order: the answer is the same. *)
Definition complete (a : definitionAuditor) : result unit :=
  let expected := da_expected a in let observed := da_observed a in
  if negb (equalStringSets (au_materials expected) (au_materials observed)) ||
     negb (equalStringSets (au_network expected) (au_network observed)) ||
     negb (equalStringSets (au_secrets expected) (au_secrets observed)) ||
     negb (equalStringSets (au_caches expected) (au_caches observed))
  then Err (audit_error "LLB capabilities do not exactly match the signed lock")
  else Ok tt.

Definition AuditDefinitions (definitions : list string) (lock : DefinitionLock) : result unit :=
  if empty definitions || negb (length definitions =? length (dl_Outputs lock))%nat
  then Err (audit_error "LLB definition set does not match the output lock")
  else
    let* a := newDefinitionAuditor lock in
    let* a := fold_result audit a definitions in
    complete a.

End Audit.

(** ** The graph check is exact *)

Section Graph.
Context (operations : gmap string Op).

(** [e] is an input of [d]. *)
Definition edge (d e : string) : Prop :=
  ∃ operation input, operations !! d = Some operation ∧ Some input ∈ op_Inputs operation ∧ in_Digest input = e.

(** Every input names an operation of the definition. *)
Definition closed_graph : Prop :=
  ∀ d operation, operations !! d = Some operation →
  Forall (fun input => ∃ i, input = Some i ∧ is_Some (operations !! in_Digest i)) (op_Inputs operation).

Definition acyclic : Prop := ∀ d, ¬ tc edge d d.

(** The operations in [visited] have their inputs there, in an order. *)
Definition ranked (visited : gset string) : Prop :=
  ∃ rank : string → nat, ∀ d operation, d ∈ visited → operations !! d = Some operation →
  Forall (fun input => ∃ i, input = Some i ∧ in_Digest i ∈ visited ∧ (rank (in_Digest i) < rank d)%nat) (op_Inputs operation).

Definition marks_ok (m : marks) : Prop :=
  mk_visiting m ⊆ dom operations ∧ mk_visited m ⊆ dom operations ∧ mk_visiting m ## mk_visited m ∧ ranked (mk_visited m).

(** What a visit of [roots] that answers true leaves. *)
Definition visited_all (roots : gset string) (m m' : marks) : Prop :=
  mk_visiting m' = mk_visiting m ∧ marks_ok m' ∧ mk_visited m ⊆ mk_visited m' ∧ roots ⊆ mk_visited m' ∧
  ∀ x, x ∈ mk_visited m' → x ∈ mk_visited m ∨ ∃ r, r ∈ roots ∧ rtc edge r x.

(** A visit answers; it answers true and marks everything below its root, and does
    so whenever the graph has no dangling input and no cycle. *)
Definition visit_answers (root : string) (m : marks) (answer : option (marks * bool)) : Prop :=
  ∃ m' b, answer = Some (m', b) ∧ (b = true → visited_all {[root]} m m') ∧
  (closed_graph → acyclic → is_Some (operations !! root) → (∀ v, v ∈ mk_visiting m → tc edge v root) → b = true).

Lemma visited_all_refl m : marks_ok m → visited_all ∅ m m.
Proof. intros Hm. split_and!; try set_solver; done. Qed.

Lemma visited_all_step root roots m m1 m2 :
  visited_all {[root]} m m1 → visited_all roots m1 m2 → visited_all ({[root]} ∪ roots) m m2.
Proof.
  intros (E1 & _ & S1 & R1 & X1) (E2 & Hm2 & S2 & R2 & X2). split_and!; [congruence | done | set_solver | set_solver |].
  intros x Hx. destruct (X2 x Hx) as [Hx1 | (r & Hr & Hp)]; [|right; exists r; set_solver].
  destruct (X1 x Hx1) as [? | (r & Hr & Hp)]; [by left | right; exists r; set_solver].
Qed.

(** The digests of a list of inputs. *)
Definition digests (inputs : list (option Input)) : gset string := list_to_set (in_Digest <$> omap id inputs).

Lemma visit_inputs_spec (step : string → marks → option (marks * bool)) (from : string) operation inputs m :
  operations !! from = Some operation → (∀ input, input ∈ inputs → input ∈ op_Inputs operation) →
  (∀ root m0, marks_ok m0 → mk_visiting m0 = mk_visiting m → visit_answers root m0 (step root m0)) →
  marks_ok m →
  ∃ m' b, visit_inputs step inputs m = Some (m', b) ∧
    (b = true → visited_all (digests inputs) m m' ∧ Forall is_Some inputs) ∧
    (closed_graph → acyclic → (∀ v, v ∈ mk_visiting m → v = from ∨ tc edge v from) → b = true).
Proof.
  intros Hop Hsub Hstep Hm. remember (mk_visiting m) as V eqn:HV.
  revert m Hm HV. induction inputs as [|input inputs IH]; intros m Hm HV; simpl.
  { exists m, true. split_and!; [done | intros _; split; [by apply visited_all_refl | constructor] | done]. }
  destruct input as [i|].
  2: { exists m, false. split_and!; [done | done | intros Hclosed _ _]. exfalso.
       pose proof (Hclosed _ _ Hop) as Hall. rewrite Forall_forall in Hall.
       destruct (Hall None) as (i & ? & _); [apply Hsub; left | done]. }
  destruct (Hstep (in_Digest i) m Hm (eq_sym HV)) as (m1 & b & -> & Htrue & Hgood).
  assert (Hedge : edge from (in_Digest i)).
  { exists operation, i. split_and!; [done | apply Hsub; left | done]. }
  assert (Hok : closed_graph → acyclic → (∀ v, v ∈ V → v = from ∨ tc edge v from) → b = true).
  { intros Hclosed Hacyclic Hpath. apply Hgood; [done | done | |].
    - pose proof (Hclosed _ _ Hop) as Hall. rewrite Forall_forall in Hall.
      destruct (Hall (Some i)) as (j & [= <-] & ?); [apply Hsub; left | done].
    - intros v Hv. rewrite <- HV in Hv. destruct (Hpath v Hv) as [-> | Hv']; [by apply tc_once | by eapply tc_r]. }
  destruct b; [|exists m1, false; split_and!; [done | done | done]].
  specialize (Htrue eq_refl). destruct (IH) with (m := m1) as (m2 & b2 & E2 & Htrue2 & Hok2).
  - intros j Hj. apply Hsub. by right.
  - apply Htrue.
  - rewrite HV. symmetry. apply Htrue.
  - rewrite E2. exists m2, b2. split_and!; [done | | done].
    intros Hb2. destruct (Htrue2 Hb2) as [Hall Hsome]. split; [|by constructor].
    unfold digests. simpl. by apply (visited_all_step _ _ m m1 m2).
Qed.

(** Marking an operation whose inputs are marked. *)
Lemma marks_ok_leave d operation V m0 m :
  operations !! d = Some operation → d ∉ V →
  visited_all (digests (op_Inputs operation)) {| mk_visiting := {[d]} ∪ V; mk_visited := mk_visited m0 |} m →
  Forall is_Some (op_Inputs operation) → mk_visiting m0 = V →
  visited_all {[d]} m0 {| mk_visiting := mk_visiting m ∖ {[d]}; mk_visited := {[d]} ∪ mk_visited m |}.
Proof.
  intros Hop Hd (EV & (SV & Sv & Disj & (rank & Hrank)) & Hkeep & Hroots & Hnew) Hsome HV. simpl in *.
  assert (Hfresh : d ∉ mk_visited m) by set_solver.
  assert (Hdigest : ∀ i, Some i ∈ op_Inputs operation → in_Digest i ∈ digests (op_Inputs operation)).
  { intros i Hi. apply elem_of_list_to_set, list_elem_of_fmap. exists i. split; [done|]. apply list_elem_of_omap. by exists (Some i). }
  split_and!; simpl; [set_solver | | set_solver | set_solver |].
  - split_and!; simpl; [set_solver | | set_solver |].
    { apply union_subseteq. split; [apply singleton_subseteq_l, elem_of_dom; by eexists | done]. }
    exists (fun x => if decide (x = d) then S (max_list (rank <$> (in_Digest <$> omap id (op_Inputs operation)))) else rank x).
    intros x op' Hx Hop'. apply elem_of_union in Hx as [->%elem_of_singleton | Hx].
    + rewrite Hop in Hop'. injection Hop' as <-. apply Forall_forall. intros input Hin.
      rewrite Forall_forall in Hsome. destruct (Hsome input Hin) as (i & ->). exists i.
      pose proof (Hroots _ (Hdigest i Hin)) as Hi. split_and!; [done | set_solver |].
      rewrite decide_False by (intros E; by rewrite E in Hi). rewrite decide_True by done. apply Nat.lt_succ_r.
      apply max_list_elem_of_le. apply list_elem_of_fmap. exists (in_Digest i). split; [done|].
      apply list_elem_of_fmap. exists i. split; [done|]. apply list_elem_of_omap. by exists (Some i).
    + eapply Forall_impl; [by apply Hrank|]. intros input (i & -> & Hi & Hlt). exists i. split_and!; [done | set_solver |].
      rewrite !decide_False; [done | intros ->; by rewrite Hop in Hop' | intros E; by rewrite E in Hi].
  - intros x Hx. apply elem_of_union in Hx as [->%elem_of_singleton | Hx]; [right; exists d; split; [set_solver | done]|].
    destruct (Hnew x Hx) as [? | (r & Hr & Hp)]; [by left|]. right. exists d. split; [set_solver|].
    apply elem_of_list_to_set, list_elem_of_fmap in Hr as (i & -> & Hi). apply list_elem_of_omap in Hi as ([j|] & Hj & [= ->]).
    eapply rtc_l; [by exists operation, i | done].
Qed.

Lemma visit_spec fuel root m :
  marks_ok m → (size operations - size (mk_visiting m) < fuel)%nat → visit_answers root m (visit fuel operations root m).
Proof.
  revert root m. induction fuel as [|fuel IH]; intros root m Hm Hfuel; [lia|]. simpl.
  case_bool_decide as Hvisiting.
  { exists m, false. split_and!; [done | done | intros _ Hacyclic _ Hpath]. by destruct (Hacyclic root (Hpath root Hvisiting)). }
  case_bool_decide as Hvisited.
  { exists m, true. split_and!; [done | intros _ | done]. split_and!; try done; set_solver. }
  destruct (operations !! root) as [operation|] eqn:Hop.
  2: { exists m, false. split_and!; [done | done | intros _ _ [? Hs]; congruence]. }
  set (entered := {| mk_visiting := {[root]} ∪ mk_visiting m; mk_visited := mk_visited m |}).
  assert (Hroot : root ∈ dom operations) by (apply elem_of_dom; by eexists).
  assert (Hentered : marks_ok entered).
  { destruct Hm as (? & ? & ? & ?). split_and!; simpl; try done; set_solver. }
  destruct (visit_inputs_spec (visit fuel operations) root operation (op_Inputs operation) entered) as (m' & b & E & Htrue & Hgood);
    [done | done | | done |].
  - intros r m0 Hm0 EV. apply IH; [done|]. rewrite EV. unfold entered. simpl.
    rewrite size_union, size_singleton by set_solver.
    assert (size ({[root]} ∪ mk_visiting m) ≤ size (dom operations))%nat as Hle.
    { apply subseteq_size. destruct Hm as (? & _). set_solver. }
    rewrite size_union, size_singleton, size_dom in Hle by set_solver. lia.
  - rewrite E. destruct b.
    + eexists _, true. split_and!; [done | | done]. intros _. destruct (Htrue eq_refl) as [Hall Hsome].
      by apply (marks_ok_leave root operation (mk_visiting m)).
    + exists m', false. split_and!; [done | done | intros Hclosed Hacyclic _ Hpath]. apply Hgood; [done | done |].
      intros v Hv. simpl in Hv. apply elem_of_union in Hv as [->%elem_of_singleton | Hv]; [by left | right; by apply Hpath].
Qed.

Lemma ranked_acyclic visited : ranked visited → dom operations ⊆ visited → acyclic.
Proof.
  intros (rank & Hrank) Hall.
  assert (Hlt : ∀ d e, tc edge d e → (rank e < rank d)%nat).
  { intros d e Htc. induction Htc as [d e (operation & input & Hop & Hin & <-) | d e f (operation & input & Hop & Hin & <-) _ IH];
      assert (Hd : d ∈ visited) by (apply Hall, elem_of_dom; by eexists);
      pose proof (Hrank d operation Hd Hop) as Hf; rewrite Forall_forall in Hf;
      destruct (Hf _ Hin) as (i & [= <-] & _ & ?); lia. }
  intros d Hd. apply Hlt in Hd. lia.
Qed.

Lemma ranked_closed visited : ranked visited → dom operations ⊆ visited → visited ⊆ dom operations → closed_graph.
Proof.
  intros (rank & Hrank) Hall Hsub d operation Hop.
  assert (Hd : d ∈ visited) by (apply Hall, elem_of_dom; by eexists).
  eapply Forall_impl; [by apply (Hrank d operation)|]. intros input (i & -> & Hi & _). exists i. split; [done|].
  apply elem_of_dom. by apply Hsub.
Qed.

Lemma ranked_below visited d e : ranked visited → rtc edge d e → d ∈ visited → e ∈ visited.
Proof.
  intros (rank & Hrank) Hpath. induction Hpath as [|d x e (operation & input & Hop & Hin & <-) _ IH]; [done|].
  intros Hd. apply IH. pose proof (Hrank d operation Hd Hop) as Hf. rewrite Forall_forall in Hf.
  by destruct (Hf _ Hin) as (i & [= <-] & ? & _).
Qed.

End Graph.

(** The operations form one graph below the output vertex: every input is an
    operation, there is no cycle, and every operation is reachable. *)
Definition complete_graph (operations : gmap string Op) (outputDigest : string) : Prop :=
  closed_graph operations ∧ acyclic operations ∧ is_Some (operations !! outputDigest) ∧
  ∀ d, is_Some (operations !! d) → rtc (edge operations) outputDigest d.

Lemma graph_check operations outputDigest :
  ∃ b, completeLLBGraph operations outputDigest = Some b ∧ (b = true ↔ complete_graph operations outputDigest).
Proof.
  set (start := {| mk_visiting := ∅; mk_visited := ∅ |}).
  assert (Hstart : marks_ok operations start).
  { split_and!; simpl; [set_solver | set_solver | set_solver |]. exists (fun _ => 0%nat). set_solver. }
  destruct (visit_spec operations (S (size operations)) outputDigest start Hstart) as (m & b & E & Htrue & Hgood); [simpl; lia|].
  unfold completeLLBGraph. fold start. rewrite E. eexists. split; [done|]. rewrite andb_true_iff, Nat.eqb_eq. split.
  - intros [-> Hsize]. destruct (Htrue eq_refl) as (_ & (_ & Hsub & _ & Hranked) & _ & Hroot & Hfrom).
    assert (Hall : mk_visited m = dom operations) by (apply set_subseteq_size_eq; [done | rewrite size_dom; lia]).
    split_and!.
    + eapply ranked_closed; [done | by rewrite Hall | done].
    + eapply ranked_acyclic; [done | by rewrite Hall].
    + apply elem_of_dom. set_solver.
    + intros d Hd. destruct (Hfrom d) as [? | (r & ->%elem_of_singleton & ?)]; [rewrite Hall; by apply elem_of_dom | set_solver | done].
  - intros (Hclosed & Hacyclic & Hroot & Hreach).
    assert (Hb : b = true) by (apply Hgood; try done; set_solver). split; [done|].
    destruct (Htrue Hb) as (_ & (_ & Hsub & _ & Hranked) & _ & Hout & _).
    rewrite <- size_dom. f_equal. apply set_eq. intros d. split; [set_solver|]. intros Hd%elem_of_dom.
    eapply ranked_below; [done | by apply Hreach | set_solver].
Qed.

(** C37: [completeLLBGraph] terminates on every graph, its recursion no deeper than
    the number of operations plus one, and answers true exactly for the graphs
    that are closed, acyclic and connected below the output vertex. *)
Theorem graph_check_exact operations outputDigest :
  ∃ b, completeLLBGraph operations outputDigest = Some b ∧ (b = true ↔ complete_graph operations outputDigest).
Proof. apply graph_check. Qed.

(** ** What an audited definition may do *)

Section Authority.
Context `{!Buildkit} `{!AuthorityCodecs} (lock : DefinitionLock).

(** An operation of a serialized definition, with its metadata. *)
Definition vertex (contents : string) (operation : Op) (metadata : option OpMetadata) : Prop :=
  ∃ definition raw, unmarshal_definition contents = Some definition ∧ raw ∈ d_Def definition ∧
    unmarshal_op raw = Some operation ∧ metadata = d_Metadata definition !! bytesDigest raw.

Definition granted_platform (platform : option Platform) : Prop :=
  match platform with
  | None => True
  | Some p => pf_OS p +:+ "/" +:+ pf_Architecture p = dl_TargetPlatform lock ∧ pf_Variant p = "" ∧ pf_OSVersion p = "" ∧ pf_OSFeatures p = []
  end.

Definition granted_source (s : SourceOp) : Prop :=
  (so_Identifier s = "local://lrail-source" ∧ attr (so_Attrs s) AttrLocalUniqueID = dl_SourceSnapshot lock ∧
   attr (so_Attrs s) AttrSharedKeyHint = dl_SourceSnapshot lock) ∨
  (∃ material, material ∈ dl_BaseMaterials lock ∧ so_Identifier s = material_identifier material ∧
     attr (so_Attrs s) AttrImageResolveMode = AttrImageResolveModeForcePull).

Definition secret_mount (m : Mount) (secret : SecretCapability) : Prop :=
  secret ∈ dl_Secrets lock ∧ mt_MountType m = MountType_SECRET ∧ mt_Dest m = se_Target secret ∧
  mt_SecretOpt m = Some {| so_ID := se_MountID secret; so_Mode := 256; so_Optional := negb (se_Required secret) |}.

Definition cache_mount (m : Mount) (cache : CacheCapability) : Prop :=
  cache ∈ dl_Caches lock ∧ mt_MountType m = MountType_CACHE ∧ mt_Dest m = cc_Target cache ∧
  mt_CacheOpt m = Some {| co_ID := cc_Namespace cache; co_Sharing := cacheSharingOption (cc_Sharing cache) |}.

Definition granted_mount (m : option Mount) : Prop :=
  ∃ mount, m = Some mount ∧
    (mt_MountType mount = MountType_BIND ∨ mt_MountType mount = MountType_TMPFS ∨
     (∃ secret, secret_mount mount secret) ∨ (∃ cache, cache_mount mount cache)).

(** The name of an execution's vertex is the one of [network]. *)
Definition bound_to (metadata : option OpMetadata) (network : NetworkCapability) : Prop :=
  network ∈ dl_Network lock ∧
  ∃ md, metadata = Some md ∧ md_LinuxResources md = false ∧ attr (md_Description md) "llb.customname" = vertex_name network.

(** An execution is sandboxed, has no authority of its own, and reaches the network
    as the profile of its capability says: not at all, or through the proxy. *)
Definition granted_exec (x : ExecOp) (metadata : option OpMetadata) : Prop :=
  ex_Security x = SecurityMode_SANDBOX ∧ ex_Secretenv x = [] ∧ ex_CdiDevices x = [] ∧ Forall granted_mount (ex_Mounts x) ∧
  ∃ meta network, ex_Meta x = Some meta ∧ bound_to metadata network ∧
    me_ExtraHosts meta = [] ∧ me_CgroupParent meta = "" ∧ me_Hostname meta = "" ∧ me_Ulimit meta = [] ∧ me_ValidExitCodes meta = [] ∧
    let profile := networkProfileFromName (vertex_name network) in
    (profile = "none" → ex_Network x = NetMode_NONE ∧ me_ProxyEnv meta = None) ∧
    (profile ≠ "none" → ex_Network x = NetMode_UNSET ∧
       me_ProxyEnv meta = Some {| px_HttpProxy := BuildEgressProxyURL; px_HttpsProxy := BuildEgressProxyURL;
                                  px_FtpProxy := ""; px_NoProxy := ""; px_AllProxy := "" |}).

Definition granted (operation : Op) (metadata : option OpMetadata) : Prop :=
  granted_platform (op_Platform operation) ∧ default [] (op_Constraints operation) = [] ∧
  match op_Op operation with
  | Some (Op_Source source) => ∃ s, source = Some s ∧ granted_source s
  | Some (Op_Exec exec) => ∃ x, exec = Some x ∧ granted_exec x metadata
  | Some Op_File | Some Op_Merge | Some Op_Diff | None => True
  | Some Op_Build => False
  end.

(** ** What an operation uses *)

Definition uses_material (operation : Op) (key : string) : Prop :=
  ∃ s material, op_Op operation = Some (Op_Source (Some s)) ∧ material ∈ dl_BaseMaterials lock ∧
    so_Identifier s = material_identifier material ∧ key = materialAuthority material.

Definition uses_network (operation : Op) (metadata : option OpMetadata) (key : string) : Prop :=
  ∃ x network, op_Op operation = Some (Op_Exec (Some x)) ∧ bound_to metadata network ∧ networkAuthority network = Ok key.

Definition uses_secret (operation : Op) (key : string) : Prop :=
  ∃ x m secret, op_Op operation = Some (Op_Exec (Some x)) ∧ Some m ∈ ex_Mounts x ∧ secret_mount m secret ∧ key = key_of (secretAuthority secret).

Definition uses_cache (operation : Op) (key : string) : Prop :=
  ∃ x m cache, op_Op operation = Some (Op_Exec (Some x)) ∧ Some m ∈ ex_Mounts x ∧ cache_mount m cache ∧ key = key_of (cacheAuthority cache).

(** Every key of [seen] is used by an operation that [P] holds of. *)
Definition justified (P : Op → option OpMetadata → Prop) (seen : authorities) : Prop :=
  (∀ key, key ∈ au_materials seen → ∃ op md, P op md ∧ uses_material op key) ∧
  (∀ key, key ∈ au_network seen → ∃ op md, P op md ∧ uses_network op md key) ∧
  (∀ key, key ∈ au_secrets seen → ∃ op md, P op md ∧ uses_secret op key) ∧
  (∀ key, key ∈ au_caches seen → ∃ op md, P op md ∧ uses_cache op key).

(** ** The auditor of a lock *)

(** Its maps hold capabilities of the lock, and it expects all of them. *)
Record auditor_of (a : definitionAuditor) : Prop := {
  ao_lock : da_lock a = lock;
  ao_materials : ∀ id key, da_materials a !! id = Some key →
    ∃ material, material ∈ dl_BaseMaterials lock ∧ id = material_identifier material ∧ key = materialAuthority material;
  ao_networks : ∀ name key, da_networkNames a !! name = Some key →
    ∃ network, network ∈ dl_Network lock ∧ name = vertex_name network ∧ networkAuthority network = Ok key;
  ao_secrets : ∀ id secret, da_secrets a !! id = Some secret → secret ∈ dl_Secrets lock ∧ id = se_MountID secret;
  ao_caches : ∀ id cache, da_caches a !! id = Some cache → cache ∈ dl_Caches lock ∧ id = cc_Namespace cache;
  ao_expected_materials : ∀ material, material ∈ dl_BaseMaterials lock → materialAuthority material ∈ au_materials (da_expected a);
  ao_expected_networks : ∀ network, network ∈ dl_Network lock → ∃ key, networkAuthority network = Ok key ∧ key ∈ au_network (da_expected a);
  ao_expected_secrets : ∀ secret, secret ∈ dl_Secrets lock → ∃ key, secretAuthority secret = Ok key ∧ key ∈ au_secrets (da_expected a);
  ao_expected_caches : ∀ cache, cache ∈ dl_Caches lock → ∃ key, cacheAuthority cache = Ok key ∧ key ∈ au_caches (da_expected a);
}.

Lemma add_materials_spec materials acc :
  fold_result add_material (∅, ∅) materials = Ok acc →
  (∀ id key, acc.1 !! id = Some key → ∃ material, material ∈ materials ∧ id = material_identifier material ∧ key = materialAuthority material) ∧
  ∀ material, material ∈ materials → materialAuthority material ∈ acc.2.
Proof.
  apply (fold_result_invariant add_material (fun materials acc =>
    (∀ id key, acc.1 !! id = Some key → ∃ material, material ∈ materials ∧ id = material_identifier material ∧ key = materialAuthority material) ∧
    ∀ material, material ∈ materials → materialAuthority material ∈ acc.2)).
  { split; [intros id key; simpl; by rewrite lookup_empty | intros ? []%not_elem_of_nil]. }
  intros seen m s s' [IH1 IH2] Hadd. unfold add_material in Hadd. passed Hadd Hnew. injection Hadd as <-. simpl. split.
  - intros id key. rewrite lookup_insert. case_decide as E.
    + intros [= <-]. exists m. split_and!; [apply elem_of_app; right; by left | done | done].
    + intros (m' & ? & ? & ?)%IH1. exists m'. split_and!; [apply elem_of_app; by left | done | done].
  - intros m'. rewrite elem_of_app, list_elem_of_singleton. intros [?%IH2 | ->]; set_solver.
Qed.

Lemma add_capabilities_spec {A V} (authority : A → result string) name (value : A → string → V) capabilities acc :
  fold_result (add_capability authority name value) (∅, ∅) capabilities = Ok acc →
  (∀ id v, acc.1 !! id = Some v → ∃ c key, c ∈ capabilities ∧ id = name c ∧ authority c = Ok key ∧ v = value c key) ∧
  ∀ c, c ∈ capabilities → ∃ key, authority c = Ok key ∧ key ∈ acc.2.
Proof.
  apply (fold_result_invariant (add_capability authority name value) (fun capabilities acc =>
    (∀ id v, acc.1 !! id = Some v → ∃ c key, c ∈ capabilities ∧ id = name c ∧ authority c = Ok key ∧ v = value c key) ∧
    ∀ c, c ∈ capabilities → ∃ key, authority c = Ok key ∧ key ∈ acc.2)).
  { split; [intros id v; simpl; by rewrite lookup_empty | intros ? []%not_elem_of_nil]. }
  intros seen c s s' [IH1 IH2] Hadd. unfold add_capability in Hadd.
  destruct (authority c) as [key|] eqn:Hkey; [|done]. case_bool_decide; [done|]. injection Hadd as <-. simpl. split.
  - intros id v. rewrite lookup_insert. case_decide as E.
    + intros [= <-]. exists c, key. split_and!; try done. apply elem_of_app; right; by left.
    + intros (c' & key' & ? & ? & ? & ?)%IH1. exists c', key'. split_and!; try done. apply elem_of_app; by left.
  - intros c'. rewrite elem_of_app, list_elem_of_singleton. intros [(key' & ? & ?)%IH2 | ->]; [exists key' | exists key]; set_solver.
Qed.

Lemma newDefinitionAuditor_spec a : newDefinitionAuditor lock = Ok a → auditor_of a ∧ da_observed a = nothing.
Proof.
  intros Hnew. unfold newDefinitionAuditor in Hnew.
  apply bind_result_Ok in Hnew as (materials & [M1 M2]%add_materials_spec & Hnew).
  apply bind_result_Ok in Hnew as (networks & [N1 N2]%add_capabilities_spec & Hnew).
  apply bind_result_Ok in Hnew as (secrets & [S1 S2]%add_capabilities_spec & Hnew).
  apply bind_result_Ok in Hnew as (caches & [C1 C2]%add_capabilities_spec & Hnew).
  injection Hnew as <-. split; [|done]. constructor; simpl; try done.
  - intros name key (n & k & ? & ? & ? & ->)%N1. eauto.
  - intros id secret (s & k & ? & ? & ? & ->)%S1. eauto.
  - intros id cache (c & k & ? & ? & ? & ->)%C1. eauto.
Qed.

(** ** Each step of the audit *)

Lemma observe_auditor a m n se c : auditor_of a → auditor_of (observe a m n se c).
Proof. by intros []. Qed.

Definition step_of (P : Op → option OpMetadata → Prop) (a a' : definitionAuditor) : Prop :=
  auditor_of a' ∧ (justified P (da_observed a) → justified P (da_observed a')).

Lemma auditSource_spec (P : Op → option OpMetadata → Prop) operation md a source a' :
  auditSource a source = Ok a' → op_Op operation = Some (Op_Source source) → P operation md → auditor_of a →
  (∃ s, source = Some s ∧ granted_source s) ∧ step_of P a a'.
Proof.
  unfold auditSource. intros Haudit Hop HP Hof. destruct source as [s|]; [|done].
  destruct (String.eqb _ _) eqn:Hlocal in Haudit.
  - passed Haudit Hbound. injection Haudit as <-. rewrite (ao_lock _ Hof) in Hbound. bsimpl.
    split; [|by split]. exists s. split; [done | by left].
  - destruct (da_materials a !! so_Identifier s) as [key|] eqn:Hkey; [|done]. passed Haudit Hmode. injection Haudit as <-.
    destruct (ao_materials _ Hof _ _ Hkey) as (material & Hin & Hid & ->). bsimpl. split.
    + exists s. split; [done | right; by exists material].
    + split; [by apply observe_auditor|]. intros (J1 & J2 & J3 & J4). split_and!; simpl; [|set_solver..].
      intros key [->%elem_of_singleton | ?]%elem_of_union; [|by apply J1].
      exists operation, md. split; [done|]. exists s, material. by rewrite Hop.
Qed.

Lemma audit_mount_spec (P : Op → option OpMetadata → Prop) operation md x a m a' :
  audit_mount a m = Ok a' → op_Op operation = Some (Op_Exec (Some x)) → m ∈ ex_Mounts x → P operation md → auditor_of a →
  granted_mount m ∧ step_of P a a'.
Proof.
  unfold audit_mount. intros Haudit Hop Hin HP Hof. destruct m as [m|]; [|done].
  destruct (mt_MountType m) eqn:Hty; try done; try (injection Haudit as <-; split; [exists m; eauto | by split]).
  - unfold auditSecretMount in Haudit. destruct (mt_SecretOpt m) as [opt|] eqn:Hopt; [|done].
    destruct (da_secrets a !! so_ID opt) as [secret|] eqn:Hs; [|done]. passed Haudit Hsame. injection Haudit as <-.
    destruct (ao_secrets _ Hof _ _ Hs) as [Hsecret Hid]. bsimpl.
    assert (Hmount : secret_mount m secret).
    { split_and!; try done. rewrite Hopt. f_equal. destruct opt as [id mode optional]. simpl in *. subst.
      f_equal. by destruct optional, (se_Required secret). }
    split; [exists m; eauto 6|]. split; [by apply observe_auditor|]. intros (J1 & J2 & J3 & J4).
    split_and!; simpl; [set_solver | set_solver | | set_solver].
    intros key [->%elem_of_singleton | ?]%elem_of_union; [|by apply J3].
    exists operation, md. split; [done|]. by exists x, m, secret.
  - unfold auditCacheMount in Haudit. destruct (mt_CacheOpt m) as [opt|] eqn:Hopt; [|done].
    destruct (da_caches a !! co_ID opt) as [cache|] eqn:Hs; [|done]. passed Haudit Hsame. injection Haudit as <-.
    destruct (ao_caches _ Hof _ _ Hs) as [Hcache Hid]. bsimpl. rewrite bool_decide_eq_true in *.
    assert (Hmount : cache_mount m cache).
    { split_and!; try done. rewrite Hopt. f_equal. destruct opt as [id sharing]. simpl in *. by subst. }
    split; [exists m; eauto 6|]. split; [by apply observe_auditor|]. intros (J1 & J2 & J3 & J4).
    split_and!; simpl; [set_solver | set_solver | set_solver |].
    intros key [->%elem_of_singleton | ?]%elem_of_union; [|by apply J4].
    exists operation, md. split; [done|]. by exists x, m, cache.
Qed.

Lemma empty_true {A} (l : list A) : empty l = true ↔ l = [].
Proof. unfold empty. destruct l; simpl; split; congruence. Qed.

Lemma proxy_ok_spec profile proxy : proxy_ok profile proxy = true →
  (profile = "none" → proxy = None) ∧
  (profile ≠ "none" → proxy = Some {| px_HttpProxy := BuildEgressProxyURL; px_HttpsProxy := BuildEgressProxyURL;
                                      px_FtpProxy := ""; px_NoProxy := ""; px_AllProxy := "" |}).
Proof.
  unfold proxy_ok. destruct (String.eqb_spec profile "none") as [-> | Hne]; intros Hp.
  - split; [|done]. destruct proxy; [done | done].
  - split; [done|]. intros _. destruct proxy as [[? ? ? ? ?]|]; [|done]. simpl in Hp. bsimpl. congruence.
Qed.

(** The loop over the mounts of an execution. *)
Lemma audit_mounts_spec (P : Op → option OpMetadata → Prop) operation md x mounts a a' :
  fold_result audit_mount a mounts = Ok a' → op_Op operation = Some (Op_Exec (Some x)) → mounts ⊆ ex_Mounts x → P operation md →
  auditor_of a → Forall granted_mount mounts ∧ step_of P a a'.
Proof.
  intros Hfold Hop Hsub HP. revert a Hfold Hsub. induction mounts as [|m mounts IH]; simpl; intros a Hfold Hsub Hof.
  { injection Hfold as <-. split; [constructor | by split]. }
  apply bind_result_Ok in Hfold as (a1 & Hm & Hfold).
  destruct (audit_mount_spec P operation md x a m a1) as [Hgranted Hstep]; [done | done | set_solver | done | done |].
  destruct (IH a1 Hfold) as [Hall Hstep']; [set_solver | apply Hstep |].
  split; [by constructor|]. split; [apply Hstep'|]. intros HJ. by apply Hstep', Hstep.
Qed.

Lemma auditExec_spec (P : Op → option OpMetadata → Prop) operation md a exec a' :
  auditExec a exec md = Ok a' → op_Op operation = Some (Op_Exec exec) → P operation md → auditor_of a →
  (∃ x, exec = Some x ∧ granted_exec x md) ∧ step_of P a a'.
Proof.
  unfold auditExec. intros Haudit Hop HP Hof. destruct exec as [x|]; [|done]. passed Haudit Hambient.
  destruct (ex_Meta x) as [meta|] eqn:Hmeta; [|done]. passed Haudit Hhosts. passed Haudit Hprocess.
  destruct md as [md|]; [|done]. passed Haudit Hresources.
  set (name := attr (md_Description md) "llb.customname") in *.
  destruct (da_networkNames a !! name) as [key|] eqn:Hkey; [|done]. passed Haudit Hmode. passed Haudit Hproxy.
  destruct (ao_networks _ Hof _ _ Hkey) as (network & Hin & Hname & Hauthority).
  assert (Hbound : bound_to (Some md) network) by (split; [done|]; by exists md).
  bsimpl. rewrite !bool_decide_eq_true, !empty_true in *.
  apply (audit_mounts_spec P operation (Some md) x) in Haudit as [Hmounts [Hof' HJ]]; [|done..|by apply observe_auditor].
  split.
  - exists x. split; [done|]. split_and!; try done. exists meta, network. split_and!; try done.
    rewrite <- Hname. destruct (proxy_ok_spec _ _ Hproxy) as [Hnone Hsome].
    split; intros Hp; (split; [|auto]).
    + rewrite Hp in *. naive_solver.
    + naive_solver.
  - split; [done|]. intros (J1 & J2 & J3 & J4). apply HJ. split_and!; simpl; [set_solver | | set_solver | set_solver].
    intros k [->%elem_of_singleton | ?]%elem_of_union; [|by apply J2]. exists operation, (Some md). split; [done|].
    by exists x, network.
Qed.

(** The operations of a definition by digest, and its one output vertex. *)
Definition indexed (def : list string) (operations : gmap string Op) (out : string) : Prop :=
  (∀ d operation, operations !! d = Some operation ↔ ∃ raw, raw ∈ def ∧ d = bytesDigest raw ∧ unmarshal_op raw = Some operation) ∧
  (∀ raw, raw ∈ def → is_Some (unmarshal_op raw)) ∧
  (∀ d operation, operations !! d = Some operation → op_Op operation = None ↔ d = out) ∧
  (out = "" ∨ is_Some (operations !! out)).

Lemma bytesDigest_nonempty raw : bytesDigest raw ≠ "".
Proof. unfold bytesDigest. by destruct (hex_bytes _). Qed.

Lemma index_add def acc raw acc' :
  indexed def acc.1 acc.2 → add_operation acc raw = Ok acc' → indexed (def ++ [raw]) acc'.1 acc'.2.
Proof.
  intros (Hops & Hdecoded & Hout & Hset) Hadd. unfold add_operation in Hadd.
  destruct (unmarshal_op raw) as [operation|] eqn:Hraw; [|done]. cbv zeta in Hadd. case_bool_decide as Hnew; [done|].
  assert (Hfresh : acc.1 !! bytesDigest raw = None) by (by apply eq_None_not_Some).
  assert (Hops' : ∀ d o, <[bytesDigest raw := operation]> acc.1 !! d = Some o ↔
    ∃ r, r ∈ def ++ [raw] ∧ d = bytesDigest r ∧ unmarshal_op r = Some o).
  { intros d o. rewrite lookup_insert_Some, Hops. setoid_rewrite elem_of_app. setoid_rewrite list_elem_of_singleton. split.
    - intros [[<- <-] | [? (r & ? & ? & ?)]]; [exists raw; auto | exists r; auto].
    - intros (r & [Hr | ->] & -> & Ho); [|left; split; congruence].
      right. split; [|by exists r]. intros E. apply Hnew. exists o. rewrite E. apply Hops. by exists r. }
  assert (Hdecoded' : ∀ r, r ∈ def ++ [raw] → is_Some (unmarshal_op r)).
  { intros r. rewrite elem_of_app, list_elem_of_singleton. intros [?%Hdecoded | ->]; [done | by eexists]. }
  destruct (op_Op operation) as [kind|] eqn:Hkind.
  - injection Hadd as <-. split_and!; simpl; [done | done | |].
    + intros d o. rewrite lookup_insert_Some. intros [[<- <-] | [_ Ho]]; [|by eapply Hout].
      rewrite Hkind. split; [done|]. intros E'. rewrite <- E' in Hset. destruct Hset as [E | Hset]; [by destruct (bytesDigest_nonempty raw) | done].
    + destruct Hset as [? | [o Ho]]; [by left | right]. exists o. rewrite lookup_insert_ne; [done|]. intros E. by rewrite E, Ho in Hfresh.
  - passed Hadd Hfirst. injection Hadd as <-. apply orb_false_iff in Hfirst as [Hfirst _].
    apply negb_false_iff, String.eqb_eq in Hfirst. split_and!; simpl; [done | done | |].
    + intros d o. rewrite lookup_insert_Some. intros [[<- <-] | [Hne Ho]]; [by rewrite Hkind|].
      rewrite (Hout d o Ho), Hfirst. apply Hops in Ho as (r & _ & E & _). split; [|by intros E'; rewrite E' in Hne].
      intros E'. by destruct (bytesDigest_nonempty r); rewrite <- E, E'.
    + right. exists operation. by rewrite lookup_insert_eq.
Qed.

Lemma index_definition def found : fold_result add_operation (∅, "") def = Ok found → indexed def found.1 found.2.
Proof.
  apply (fold_result_invariant add_operation (fun def acc => indexed def acc.1 acc.2)); [|intros; by eapply index_add].
  split_and!; simpl; [|by intros ? []%not_elem_of_nil | by intros d o; rewrite lookup_empty | by left].
  intros d o. rewrite lookup_empty. split; [done|]. by intros (r & []%not_elem_of_nil & _).
Qed.

Lemma audit_operation_spec (P : Op → option OpMetadata → Prop) operations metadata a raw a' operation :
  operations !! bytesDigest raw = Some operation → audit_operation operations metadata a raw = Ok a' →
  P operation (metadata !! bytesDigest raw) → auditor_of a → granted operation (metadata !! bytesDigest raw) ∧ step_of P a a'.
Proof.
  unfold audit_operation. intros Hop Haudit HP Hof. rewrite Hop in Haudit.
  apply bind_result_Ok in Haudit as ([] & Hplatform & Haudit). passed Haudit Hfilter. passed Haudit Hinputs.
  assert (Hplatform' : granted_platform (op_Platform operation)).
  { unfold auditPlatform in Hplatform. destruct (op_Platform operation) as [p|]; [|done]. passed Hplatform Hsame.
    rewrite (ao_lock _ Hof) in Hsame. bsimpl. split_and!; try done. by apply empty_true, Nat.eqb_eq. }
  assert (Hfilter' : default [] (op_Constraints operation) = []).
  { destruct (op_Constraints operation) as [filter|]; [|done]. bsimpl. by apply empty_true. }
  unfold granted. destruct (op_Op operation) as [[source | exec | | | |]|] eqn:Hkind;
    try (injection Haudit as <-; split; [done | by split]); [| |done].
  - destruct (auditSource_spec P operation (metadata !! bytesDigest raw) a source a') as [? ?]; done.
  - destruct (auditExec_spec P operation (metadata !! bytesDigest raw) a exec a') as [? ?]; done.
Qed.

Lemma audit_operations_spec (P : Op → option OpMetadata → Prop) operations metadata def a a' :
  fold_result (audit_operation operations metadata) a def = Ok a' → auditor_of a →
  (∀ raw, raw ∈ def → ∃ operation, operations !! bytesDigest raw = Some operation ∧ P operation (metadata !! bytesDigest raw)) →
  (∀ raw operation, raw ∈ def → operations !! bytesDigest raw = Some operation → granted operation (metadata !! bytesDigest raw)) ∧
  step_of P a a'.
Proof.
  revert a. induction def as [|raw def IH]; simpl; intros a Hfold Hof Hdef.
  { injection Hfold as <-. split; [by intros ? ? []%not_elem_of_nil | by split]. }
  apply bind_result_Ok in Hfold as (a1 & Hraw & Hfold).
  destruct (Hdef raw) as (operation & Hop & HP); [by left|].
  destruct (audit_operation_spec P operations metadata a raw a1 operation) as [Hgranted [Hof1 HJ1]]; [done..|].
  destruct (IH a1 Hfold Hof1) as [Hrest [Hof' HJ']]; [intros r Hr; apply Hdef; by right|]. split.
  - intros r o [-> | Hr]%elem_of_cons Ho; [by simplify_eq | by apply Hrest].
  - split; [done|]. intros HJ. by apply HJ', HJ1.
Qed.

(** The operations of a definition form one graph below its one output vertex. *)
Definition wired (contents : string) : Prop :=
  ∃ definition operations out, unmarshal_definition contents = Some definition ∧
    indexed (d_Def definition) operations out ∧ complete_graph operations out.

Lemma audit_spec (P : Op → option OpMetadata → Prop) a contents a' :
  audit a contents = Ok a' → auditor_of a → (∀ operation md, vertex contents operation md → P operation md) →
  wired contents ∧ (∀ operation md, vertex contents operation md → granted operation md) ∧ step_of P a a'.
Proof.
  unfold audit. intros Haudit Hof HP. destruct (unmarshal_definition contents) as [definition|] eqn:Hdef; [|done].
  passed Haudit Hsize. apply bind_result_Ok in Haudit as ([operations out] & Hindex & Haudit). passed Haudit Hgraph.
  simpl in *. apply index_definition in Hindex. simpl in Hindex. pose proof Hindex as (Hops & Hdecoded & _). bsimpl.
  rewrite bool_decide_eq_true in *.
  destruct (audit_operations_spec P operations (d_Metadata definition) (d_Def definition) a a') as [Hgranted Hstep]; [done | done | |].
  { intros raw Hraw. destruct (Hdecoded raw Hraw) as [o Ho]. exists o. split; [apply Hops; by exists raw|]. apply HP.
    by exists definition, raw. }
  split_and!; [| |done].
  - exists definition, operations, out. split_and!; [done | done |].
    destruct (graph_check operations out) as (b & E & Hb). apply Hb. congruence.
  - intros operation md (d' & raw & Hd' & Hraw & Ho & ->). rewrite Hdef in Hd'. injection Hd' as <-.
    apply Hgranted; [done|]. apply Hops. by exists raw.
Qed.

Lemma audits_spec (P : Op → option OpMetadata → Prop) definitions a a' :
  fold_result audit a definitions = Ok a' → auditor_of a →
  (∀ contents operation md, contents ∈ definitions → vertex contents operation md → P operation md) →
  (∀ contents, contents ∈ definitions → wired contents ∧ ∀ operation md, vertex contents operation md → granted operation md) ∧
  step_of P a a'.
Proof.
  revert a. induction definitions as [|contents definitions IH]; simpl; intros a Hfold Hof HP.
  { injection Hfold as <-. split; [by intros ? []%not_elem_of_nil | by split]. }
  apply bind_result_Ok in Hfold as (a1 & Hone & Hfold).
  destruct (audit_spec P a contents a1) as (Hwired & Hgranted & Hof1 & HJ1); [done | done | intros; eapply HP; [by left | done] |].
  destruct (IH a1 Hfold Hof1) as [Hrest [Hof' HJ']]; [intros; eapply HP; [by right | done]|]. split.
  - intros c [-> | Hc]%elem_of_cons; [done | by apply Hrest].
  - split; [done|]. intros HJ. by apply HJ', HJ1.
Qed.

Lemma equalStringSets_true left right : equalStringSets left right = true → left ⊆ right.
Proof.
  unfold equalStringSets. rewrite andb_true_iff, forallb_forall. intros [_ Hall] key Hkey.
  specialize (Hall key). rewrite bool_decide_eq_true in Hall. apply Hall, list_elem_of_In. by apply elem_of_elements.
Qed.

(** [Q] holds of a vertex of one of the definitions. *)
Definition some_vertex (definitions : list string) (Q : Op → option OpMetadata → Prop) : Prop :=
  ∃ contents operation md, contents ∈ definitions ∧ vertex contents operation md ∧ Q operation md.

(** The definitions stay within the lock and use all of it. *)
Record within_lock (definitions : list string) : Prop := {
  wl_outputs : length definitions = length (dl_Outputs lock);
  wl_wired : Forall wired definitions;
  wl_granted : ∀ contents operation md, contents ∈ definitions → vertex contents operation md → granted operation md;
  wl_materials : ∀ material, material ∈ dl_BaseMaterials lock →
    some_vertex definitions (fun operation _ => uses_material operation (materialAuthority material));
  wl_networks : ∀ network, network ∈ dl_Network lock →
    ∃ key, networkAuthority network = Ok key ∧ some_vertex definitions (fun operation md => uses_network operation md key);
  wl_secrets : ∀ secret, secret ∈ dl_Secrets lock →
    ∃ key, secretAuthority secret = Ok key ∧ some_vertex definitions (fun operation _ => uses_secret operation key);
  wl_caches : ∀ cache, cache ∈ dl_Caches lock →
    ∃ key, cacheAuthority cache = Ok key ∧ some_vertex definitions (fun operation _ => uses_cache operation key);
}.

Lemma AuditDefinitions_within definitions : AuditDefinitions definitions lock = Ok tt → within_lock definitions.
Proof.
  unfold AuditDefinitions. intros Haudit. passed Haudit Hlen. bsimpl.
  apply bind_result_Ok in Haudit as (a & [Hof Hnone]%newDefinitionAuditor_spec & Haudit).
  apply bind_result_Ok in Haudit as (a' & Hfold & Hcomplete).
  set (P := fun operation md => ∃ contents, contents ∈ definitions ∧ vertex contents operation md).
  destruct (audits_spec P definitions a a' Hfold Hof) as [Hall [Hof' HJ]]; [by intros; exists contents|].
  destruct HJ as (J1 & J2 & J3 & J4); [rewrite Hnone; split_and!; set_solver|].
  unfold complete in Hcomplete. passed Hcomplete Hsame. clear Hcomplete. bsimpl.
  repeat match goal with E : equalStringSets _ _ = true |- _ => apply equalStringSets_true in E end.
  split; [done | apply Forall_forall; intros; by apply Hall | intros; by eapply Hall | ..].
  - intros material Hin. apply (ao_expected_materials _ Hof') in Hin. destruct (J1 (materialAuthority material)) as (o & md & (c & ? & ?) & ?);
      [set_solver | by exists c, o, md].
  - intros network Hin. apply (ao_expected_networks _ Hof') in Hin as (key & Hkey & Hin). exists key. split; [done|].
    destruct (J2 key) as (o & md & (c & ? & ?) & ?); [set_solver | by exists c, o, md].
  - intros secret Hin. apply (ao_expected_secrets _ Hof') in Hin as (key & Hkey & Hin). exists key. split; [done|].
    destruct (J3 key) as (o & md & (c & ? & ?) & ?); [set_solver | by exists c, o, md].
  - intros cache Hin. apply (ao_expected_caches _ Hof') in Hin as (key & Hkey & Hin). exists key. split; [done|].
    destruct (J4 key) as (o & md & (c & ? & ?) & ?); [set_solver | by exists c, o, md].
Qed.

End Authority.

(** ** Names of vertices *)

Lemma from_index_skip c s sub : HasPrefix (String c s) sub = false → from_index (String c s) sub = from_index s sub.
Proof. intros E. cbn [from_index]. by rewrite E. Qed.

Lemma from_index_text name rest :
  str_forall (fun c => negb (is_char " " c)) name = true →
  from_index (name +:+ " network=" +:+ rest) " network=" = Some (" network=" +:+ rest).
Proof.
  induction name as [|c name IH]; intros Hname; [by destruct rest|].
  cbn [str_forall] in Hname. apply andb_true_iff in Hname as [Hc Hname]. cbn [String.append].
  rewrite from_index_skip; [by apply IH|]. cbn [HasPrefix]. unfold is_char in Hc. rewrite Ascii.eqb_sym.
  apply negb_true_iff in Hc. by rewrite Hc.
Qed.

Lemma range_excludes lo hi c d : in_range lo hi c = true → in_range lo hi d = false → Ascii.eqb c d = false.
Proof. intros Hc Hd. apply Ascii.eqb_neq. congruence. Qed.

(** The audit reads back the profile of a capability from the name of its vertex. *)
Lemma networkProfileFromName_vertex network :
  is_node_id (nc_NodeID network) = true → ContainsChar (nc_Profile network) " " = false →
  networkProfileFromName (vertex_name network) = nc_Profile network.
Proof.
  intros Hid Hprofile. unfold networkProfileFromName, vertex_name.
  set (tail := nc_Profile network +:+ " gateway=" +:+ nc_GatewayID network +:+ " hosts=" +:+ Join "," (nc_Hosts network)).
  assert (Hfound : from_index ("lrail run " +:+ nc_NodeID network +:+ " network=" +:+ tail) " network=" = Some (" network=" +:+ tail)).
  { destruct (nc_NodeID network) as [|n id]; [done|]. cbn [is_node_id] in Hid.
    apply andb_true_iff in Hid as [Hn Hid]. apply Ascii.eqb_eq in Hn as ->.
    destruct id as [|d id]; [done|]. cbn [name_like] in Hid. apply andb_true_iff in Hid as [[Hd Hid]%andb_true_iff _].
    change ("lrail run " +:+ String "n" (String d id) +:+ " network=" +:+ tail) with
      ("lrail" +:+ " run" +:+ " n" +:+ String d id +:+ " network=" +:+ tail). cbn [String.append].
    assert (He : Ascii.eqb "e" d = false) by (rewrite Ascii.eqb_sym; by apply (range_excludes _ _ _ _ Hd)).
    do 11 (rewrite from_index_skip; [|cbn [HasPrefix]; rewrite ?He; reflexivity]).
    apply (from_index_text (String d id)). cbn [str_forall]. unfold is_char. rewrite (range_excludes _ _ _ " " Hd) by done.
    eapply str_forall_impl; [|done]. intros c Hc. by rewrite (range_excludes _ _ _ " " Hc). }
  rewrite Hfound, TrimPrefix_app. unfold tail. change (" gateway=" +:+ ?s) with (String " " ("gateway=" +:+ s)).
  by rewrite Cut_app.
Qed.

(** ** Theorems *)

(** Audited definitions stay within the signed lock and use all of it.  Each
    definition is one acyclic graph below one output vertex; every source is the
    signed snapshot or a locked base image pulled by digest; every execution is
    sandboxed, is bound to a network capability of the lock, has no network or
    only the policy proxy as its profile says, and mounts only locked secrets and
    caches at their targets; no operation is privileged.  Conversely every
    capability of the lock is used by some operation. *)
Theorem audit_within_lock `{!Buildkit} `{!AuthorityCodecs} lock definitions :
  AuditDefinitions definitions lock = Ok tt → within_lock lock definitions.
Proof. apply AuditDefinitions_within. Qed.

(** ** A definition format with a few operations, for examples *)

Definition sample_network : NetworkCapability :=
  {| nc_NodeID := "n1"; nc_Profile := "packages"; nc_Hosts := ["pypi.org"]; nc_GatewayID := "gw-packages" |}.
Definition sample_secret : SecretCapability :=
  {| se_NodeID := "n2"; se_Name := "token"; se_Target := "/run/secrets/token"; se_Required := true; se_MountID := "token" |}.
Definition sample_cache : CacheCapability :=
  {| cc_NodeID := "n3"; cc_Name := "pip"; cc_Target := "/root/.cache"; cc_Sharing := "locked"; cc_Scope := "project";
     cc_Namespace := "lrail-cache" |}.
Definition sample_material : BaseMaterial :=
  {| RequestedRef := "alpine"; ResolvedRef := "docker.io/library/alpine"; bm_Digest := sample_digest "d"; Registry := "docker.io";
     Classification := "curated"; Platforms := ["linux/amd64"]; SBOMDigest := sample_digest "e"; ProvenanceDigest := sample_digest "f";
     SignatureIdentity := "alpine"; bm_ResolutionDigest := sample_digest "0" |}.

Definition source_digest : string := Eval vm_compute in bytesDigest "source".
Definition image_digest : string := Eval vm_compute in bytesDigest "image".
Definition run_digest : string := Eval vm_compute in bytesDigest "run".
Definition all_digest : string := Eval vm_compute in bytesDigest "all".

Definition on_inputs (inputs : list string) (kind : option isOp) : Op :=
  {| op_Inputs := (fun d => Some {| in_Digest := d |}) <$> inputs; op_Op := kind; op_Platform := None; op_Constraints := None |}.

Definition sample_exec (mounts : list (option Mount)) : ExecOp :=
  {| ex_Meta := Some {| me_ProxyEnv := Some {| px_HttpProxy := BuildEgressProxyURL; px_HttpsProxy := BuildEgressProxyURL;
                                               px_FtpProxy := ""; px_NoProxy := ""; px_AllProxy := "" |};
                        me_ExtraHosts := []; me_Hostname := ""; me_Ulimit := []; me_CgroupParent := ""; me_ValidExitCodes := [] |};
     ex_Mounts := mounts; ex_Network := NetMode_UNSET; ex_Security := SecurityMode_SANDBOX; ex_Secretenv := []; ex_CdiDevices := [] |}.

Definition sample_mounts : list (option Mount) :=
  [Some {| mt_Dest := "/"; mt_MountType := MountType_BIND; mt_SecretOpt := None; mt_CacheOpt := None |};
   Some {| mt_Dest := se_Target sample_secret; mt_MountType := MountType_SECRET; mt_CacheOpt := None;
           mt_SecretOpt := Some {| so_ID := "token"; so_Mode := 256; so_Optional := false |} |};
   Some {| mt_Dest := cc_Target sample_cache; mt_MountType := MountType_CACHE; mt_SecretOpt := None;
           mt_CacheOpt := Some {| co_ID := "lrail-cache"; co_Sharing := CacheSharingOpt_LOCKED |} |}].

Definition toy_op (raw : string) : option Op :=
  if String.eqb raw "source" then
    Some (on_inputs [] (Some (Op_Source (Some
      {| so_Identifier := "local://lrail-source";
         so_Attrs := {["local.unique" := sample_digest "c"; "local.sharedkeyhint" := sample_digest "c"]} |}))))
  else if String.eqb raw "image" then
    Some (on_inputs [] (Some (Op_Source (Some
      {| so_Identifier := material_identifier sample_material; so_Attrs := {["image.resolvemode" := "pull"]} |}))))
  else if String.eqb raw "run" then Some (on_inputs [source_digest] (Some (Op_Exec (Some (sample_exec [])))))
  else if String.eqb raw "all" then Some (on_inputs [source_digest; image_digest] (Some (Op_Exec (Some (sample_exec sample_mounts)))))
  else if String.eqb raw "run-output" then Some (on_inputs [run_digest] None)
  else if String.eqb raw "all-output" then Some (on_inputs [all_digest] None)
  else None.

Definition toy_definition (ops : list string) (run : string) : Definition_ :=
  {| d_Def := ops;
     d_Metadata := {[run := {| md_Description := {["llb.customname" := vertex_name sample_network]}; md_LinuxResources := false |}]} |}.

Definition toy_buildkit : Buildkit :=
  {| unmarshal_definition contents :=
       if String.eqb contents "llb" then Some (toy_definition ["source"; "run"; "run-output"] run_digest)
       else if String.eqb contents "llb-all" then Some (toy_definition ["source"; "image"; "all"; "all-output"] all_digest)
       else None;
     unmarshal_op := toy_op;
     Head definition := match last (d_Def definition) with
                        | Some raw => match toy_op raw with
                                      | Some {| op_Inputs := Some input :: _ |} => Some (in_Digest input)
                                      | _ => Some ""
                                      end
                        | None => Some ""
                        end;
     AttrLocalUniqueID := "local.unique"; AttrSharedKeyHint := "local.sharedkeyhint";
     AttrImageResolveMode := "image.resolvemode"; AttrImageResolveModeForcePull := "pull" |}.

Definition toy_authorities : AuthorityCodecs :=
  {| network_codec := single_codec {| na_Profile := "packages"; na_GatewayID := "gw-packages"; na_Hosts := ["pypi.org"] |};
     secret_codec := single_codec {| sea_MountID := "token"; sea_Target := "/run/secrets/token"; sea_Required := true |};
     cache_codec := single_codec {| ca_Namespace := "lrail-cache"; ca_Target := "/root/.cache"; ca_Sharing := "locked" |} |}.

Definition audit_lock : DefinitionLock :=
  {| dl_Version := CurrentLockVersion; dl_CompilerVersion := "1.2.3"; dl_IRDigest := sample_digest "a";
     dl_PolicyDigest := sample_digest "b"; dl_SourceSnapshot := sample_digest "c"; dl_TargetPlatform := "linux/amd64";
     dl_BuildArguments := []; dl_BaseMaterials := [sample_material]; dl_Network := [sample_network]; dl_Caches := [sample_cache];
     dl_Secrets := [sample_secret]; dl_SupplyChain := SupplyChain (sort_policy sample_policy);
     dl_Outputs := [{| ol_Name := "web"; ol_Kind := "oci_image"; ol_StateID := "n1";
                       ol_LLBDigest := sample_digest "1"; ol_ConfigDigest := sample_digest "2" |}] |}.

Lemma audit_within_lock_witness : @within_lock toy_buildkit toy_authorities audit_lock ["llb-all"].
Proof. apply (@audit_within_lock toy_buildkit toy_authorities audit_lock ["llb-all"]). vm_compute. reflexivity. Defined.

(** A definition that leaves a capability of its lock unused is refused. *)
Example unused_capability_refused : is_err (@AuditDefinitions toy_buildkit toy_authorities ["llb"] audit_lock) = true.
Proof. vm_compute. reflexivity. Qed.

End LLBAudit.
