(* ===== verification/Replay.v ===== *)
(** * Assignment replay protection (build-plane/internal/buildcell)

    A build cell executes a signed assignment at most once.  [reserveReplayState]
    keeps, per cell, the newest generation of every build and every nonce ever
    accepted; replay.go holds it in memory, replay_file.go in a locked JSON file
    replaced by rename, replay_bolt.go in two buckets of a bbolt database.

    [ReplayStore] is the interface the controller relies on.  Its law relates a
    store to [AReplay], an abstract table keyed by pairs of identifiers; the
    three stores are its instances. *)

From S2P Require Import Prelude Text PlatformID Storage.
Import PlatformID Storage.

Open Scope Z_scope.

Module Replay.

Definition assignmentError (code message : string) : error :=
  Error "invalid build assignment" (code +:+ ": " +:+ message).

Definition ErrReplay (message : string) : error :=
  Error "build assignment replay rejected" message.

Definition validateID `{GoText} (value prefix : string) : result unit :=
  if has_prefix value prefix then Ok tt
  else Err (assignmentError "assignment.scope" "Assignment contains an invalid resource identity.").

Record Reservation := {
  CellID : string;
  BuildID : string;
  Generation : Z;
  Nonce : string;
  PayloadDigest : string;
  ExpiresAt : Time;
}.

Inductive ReservationOutcome :=
| ReservationAccepted | ReservationReplay | ReservationStale | ReservationConflict.

#[export] Instance ReservationOutcome_eq_dec : EqDecision ReservationOutcome.
Proof. solve_decision. Defined.

Record replayEntry := {
  e_Generation : Z;
  e_Nonce : string;
  e_PayloadDigest : string;
}.

#[export] Instance replayEntry_eq_dec : EqDecision replayEntry.
Proof. solve_decision. Defined.

(** [cellID + ":" + x] *)
Definition key_of (cellID x : string) : string := cellID +:+ ":" +:+ x.
#[global] Arguments key_of : simpl never.

Definition buildKey (r : Reservation) : string := key_of (CellID r) (BuildID r).
Definition nonceKey (r : Reservation) : string := key_of (CellID r) (Nonce r).

Definition entry_of (r : Reservation) : replayEntry :=
  {| e_Generation := Generation r; e_Nonce := Nonce r; e_PayloadDigest := PayloadDigest r |}.

(** The two maps [reserveReplayState] mutates. *)
Record tables := {
  builds : gmap string replayEntry;
  nonces : gmap string bool;
}.

Definition empty_tables : tables := {| builds := ∅; nonces := ∅ |}.

(** [nonces[key]] of a Go map: the zero value when the key is absent. *)
Definition nonce_seen (t : tables) (key : string) : bool :=
  match nonces t !! key with Some b => b | None => false end.

Definition reserveReplayState (t : tables) (maxEntries : Z) (r : Reservation)
    : tables * result ReservationOutcome :=
  let accept :=
    if nonce_seen t (nonceKey r) then (t, Ok ReservationConflict)
    else if (maxEntries <=? Z.of_nat (size (builds t))) || (maxEntries <=? Z.of_nat (size (nonces t)))
    then (t, Err (ErrReplay "replay store capacity exhausted"))
    else ({| builds := <[buildKey r := entry_of r]> (builds t);
             nonces := <[nonceKey r := true]> (nonces t) |}, Ok ReservationAccepted) in
  match builds t !! buildKey r with
  | Some existing =>
      if Generation r <? e_Generation existing then (t, Ok ReservationStale)
      else if Generation r =? e_Generation existing then
        if String.eqb (Nonce r) (e_Nonce existing) &&
           String.eqb (PayloadDigest r) (e_PayloadDigest existing)
        then (t, Ok ReservationReplay)
        else (t, Ok ReservationConflict)
      else accept
  | None => accept
  end.

Section Validate.
Context `{GoText}.

Definition validateReservation (r : Reservation) : result unit :=
  let* _ := validateID (CellID r) "cell" in
  let* _ := validateID (BuildID r) "bld" in
  if (Generation r =? 0) || negb (is_nonce (Nonce r)) || negb (is_digest (PayloadDigest r)) ||
     IsZero (ExpiresAt r)
  then Err (ErrReplay "reservation identity is invalid")
  else Ok tt.

(** ** replay.go: the in-memory store *)

Definition NewMemoryReplayStore (maxEntries : Z) : result tables :=
  if (maxEntries <? 1) || (1000000 <? maxEntries)
  then Err (ErrReplay "replay store capacity is invalid")
  else Ok empty_tables.

Definition Reserve_memory (maxEntries : Z) (ctx : Ctx) (now : Time) (t : tables) (r : Reservation)
    : tables * result ReservationOutcome :=
  match ctx with
  | Some e => (t, Err e)
  | None =>
      match validateReservation r with
      | Err e => (t, Err e)
      | Ok _ =>
          if negb (After (ExpiresAt r) now) then (t, Err (ErrReplay "reservation is expired"))
          else reserveReplayState t maxEntries r
      end
  end.

(** ** replay_file.go: the durable JSON file *)

Definition replayStateVersion : Z := 1.

(** A nil map of the decoded JSON is [None]. *)
Record replayState := {
  Version : Z;
  Builds : option (gmap string replayEntry);
  Nonces : option (gmap string bool);
}.

#[export] Instance replayState_eq_dec : EqDecision replayState.
Proof. solve_decision. Defined.

Definition newReplayState : replayState :=
  {| Version := replayStateVersion; Builds := Some ∅; Nonces := Some ∅ |}.

Definition valid_build_entry (ns : gmap string bool) (key : string) (e : replayEntry) : bool :=
  match Cut key ":" with
  | None => false
  | Some (cellID, buildID) =>
      is_ok (validateID cellID "cell") && is_ok (validateID buildID "bld") &&
      negb (e_Generation e =? 0) && is_nonce (e_Nonce e) && is_digest (e_PayloadDigest e) &&
      match ns !! key_of cellID (e_Nonce e) with Some b => b | None => false end
  end.

Definition valid_nonce_entry (key : string) (present : bool) : bool :=
  present &&
  match Cut key ":" with
  | None => false
  | Some (cellID, nonce) => is_ok (validateID cellID "cell") && is_nonce nonce
  end.

Definition validateReplayState (state : replayState) (maxEntries : Z) : result unit :=
  match Builds state, Nonces state with
  | Some bs, Some ns =>
      if negb (Version state =? replayStateVersion) ||
         (maxEntries <? Z.of_nat (size bs)) || (maxEntries <? Z.of_nat (size ns))
      then Err (ErrReplay "durable replay state shape is invalid")
      else if negb (map_forallb (valid_build_entry ns) bs)
      then Err (ErrReplay "durable replay build watermark is invalid")
      else if negb (map_forallb valid_nonce_entry ns)
      then Err (ErrReplay "durable replay nonce watermark is invalid")
      else Ok tt
  | _, _ => Err (ErrReplay "durable replay state shape is invalid")
  end.

Context `{!Codec replayState}.

Definition readState (maxEntries : Z) (io : FileFaults) (file : option string) : result replayState :=
  match file with
  | None => Err (ErrReplay "durable replay state is absent or not regular")
  | Some contents =>
      if negb (stat_regular io) then Err (ErrReplay "durable replay state is absent or not regular")
      else if negb (stat_private io) then Err (ErrReplay "durable replay state permissions are too broad")
      else if negb (open_ok io) then Err (ErrReplay "open durable replay state")
      else if negb (read_complete io) || (maxEntries * 512 + 1024 <? len contents)
      then Err (ErrReplay "durable replay state is unreadable or oversized")
      else match unmarshal contents with
      | None => Err (ErrReplay "durable replay state is malformed")
      | Some state => let* _ := validateReplayState state maxEntries in Ok state
      end
  end.

(** The new contents are published by the rename; a directory sync that fails
    afterwards returns an error with the new state already in place. *)
Definition writeState (maxEntries : Z) (io : FileFaults) (file : option string) (state : replayState)
    : option string * result unit :=
  match validateReplayState state maxEntries with
  | Err e => (file, Err e)
  | Ok _ =>
      match marshal state with
      | None => (file, Err (ErrReplay "canonicalize durable replay state"))
      | Some contents =>
          if negb (temp_written io) then (file, Err (ErrReplay "write durable replay state"))
          else if negb (rename_ok io) then (file, Err (ErrReplay "publish durable replay state"))
          else if negb (dir_synced io) then (Some contents, Err (ErrReplay "sync durable replay directory"))
          else (Some contents, Ok tt)
      end
  end.

(** The state file after [NewFileReplayStore]: created empty when absent. *)
Definition NewFileReplayStore (maxEntries : Z) (io : FileFaults) (file : option string)
    : option string * result unit :=
  if (maxEntries <? 1) || (1000000 <? maxEntries)
  then (file, Err (ErrReplay "durable replay configuration is invalid"))
  else if negb (lock_taken io) then (file, Err (ErrReplay "acquire durable replay lock"))
  else match file with
  | None => writeState maxEntries io file newReplayState
  | Some _ => (file, let* _ := readState maxEntries io file in Ok tt)
  end.

Definition with_tables (state : replayState) (t : tables) : replayState :=
  {| Version := Version state; Builds := Some (builds t); Nonces := Some (nonces t) |}.

(** The maps of a state [readState] returned, which are not nil. *)
Definition tables_of (state : replayState) : tables :=
  {| builds := default ∅ (Builds state); nonces := default ∅ (Nonces state) |}.

Definition Reserve_file (maxEntries : Z) (io : FileFaults) (ctx : Ctx) (now : Time)
    (file : option string) (r : Reservation) : option string * result ReservationOutcome :=
  match ctx with
  | Some e => (file, Err e)
  | None =>
      match validateReservation r with
      | Err e => (file, Err e)
      | Ok _ =>
          if negb (After (ExpiresAt r) now) then (file, Err (ErrReplay "reservation is expired"))
          else if negb (lock_taken io) then (file, Err (ErrReplay "acquire durable replay lock"))
          else match readState maxEntries io file with
          | Err e => (file, Err e)
          | Ok state =>
              match reserveReplayState (tables_of state) maxEntries r with
              | (_, Err e) => (file, Err e)
              | (t, Ok ReservationAccepted) =>
                  match writeState maxEntries io file (with_tables state t) with
                  | (file', Err e) => (file', Err e)
                  | (file', Ok _) => (file', Ok ReservationAccepted)
                  end
              | (_, Ok outcome) => (file, Ok outcome)
              end
          end
      end
  end.

End Validate.

(** ** replay_bolt.go: the bbolt database

    The transaction is that of [Storage.BoltTx]. *)

Definition replayBuildBucket : string := "build-watermarks-v1".
Definition replayNonceBucket : string := "nonce-watermarks-v1".

Section Bolt.
Context `{GoText} {Tx : Type} `{!BoltTx Tx} `{!Codec replayEntry}.

Definition decodeReplayEntry (contents : string) : result replayEntry :=
  match unmarshal contents with
  | None => Err (ErrReplay "Bolt replay entry is malformed")
  | Some entry =>
      if (e_Generation entry =? 0) || negb (is_nonce (e_Nonce entry)) ||
         negb (is_digest (e_PayloadDigest entry))
      then Err (ErrReplay "Bolt replay entry is invalid")
      else Ok entry
  end.

(** The body of the update transaction. *)
Definition reserve_tx (maxEntries : Z) (r : Reservation) (tx : Tx)
    : result (ReservationOutcome * Tx) :=
  let accept :=
    match tx_get tx replayNonceBucket (nonceKey r) with
    | Some _ => Ok (ReservationConflict, tx)
    | None =>
        if (maxEntries <=? tx_keyN tx replayBuildBucket) || (maxEntries <=? tx_keyN tx replayNonceBucket)
        then Err (ErrReplay "Bolt replay capacity exhausted")
        else match marshal (entry_of r) with
        | None => Err (Error "marshal" "")
        | Some entry =>
            let* tx := tx_put tx replayBuildBucket (buildKey r) entry in
            let* tx := tx_put tx replayNonceBucket (nonceKey r) (String (char_of 1) "") in
            Ok (ReservationAccepted, tx)
        end
    end in
  match tx_get tx replayBuildBucket (buildKey r) with
  | Some contents =>
      let* existing := decodeReplayEntry contents in
      if Generation r <? e_Generation existing then Ok (ReservationStale, tx)
      else if Generation r =? e_Generation existing then
        if String.eqb (Nonce r) (e_Nonce existing) &&
           String.eqb (PayloadDigest r) (e_PayloadDigest existing)
        then Ok (ReservationReplay, tx)
        else Ok (ReservationConflict, tx)
      else accept
  | None => accept
  end.

(** [ctx] is asked on entry and again inside the transaction. *)
Definition Reserve_bolt (maxEntries : Z) (ctx ctx' : Ctx) (c : commit) (now : Time)
    (tx : Tx) (r : Reservation) : Tx * result ReservationOutcome :=
  match ctx with
  | Some e => (tx, Err e)
  | None =>
      match validateReservation r with
      | Err e => (tx, Err e)
      | Ok _ =>
          if negb (After (ExpiresAt r) now) then (tx, Err (ErrReplay "reservation is expired"))
          else Update c tx (fun tx =>
            match ctx' with Some e => Err e | None => reserve_tx maxEntries r tx end)
      end
  end.

End Bolt.

(** ** The abstract table *)

(** Per cell and build the newest accepted assignment; per cell the nonces that
    have been accepted. *)
Record AReplay := {
  watermark : gmap (string * string) replayEntry;
  used : gset (string * string);
}.

Definition empty_replay : AReplay := {| watermark := ∅; used := ∅ |}.

Definition arecord (a : AReplay) (r : Reservation) : AReplay :=
  {| watermark := <[(CellID r, BuildID r) := entry_of r]> (watermark a);
     used := {[(CellID r, Nonce r)]} ∪ used a |}.

(** What a reservation decides; [None] when the table is full. *)
Definition adecide (capacity : Z) (a : AReplay) (r : Reservation) : option ReservationOutcome :=
  let accept :=
    if decide ((CellID r, Nonce r) ∈ used a) then Some ReservationConflict
    else if (capacity <=? Z.of_nat (size (watermark a))) || (capacity <=? Z.of_nat (size (used a)))
    then None else Some ReservationAccepted in
  match watermark a !! (CellID r, BuildID r) with
  | Some e =>
      if Generation r <? e_Generation e then Some ReservationStale
      else if Generation r =? e_Generation e then
        if decide (entry_of r = e) then Some ReservationReplay else Some ReservationConflict
      else accept
  | None => accept
  end.

Definition aapply (capacity : Z) (a : AReplay) (r : Reservation) : AReplay :=
  match adecide capacity a r with
  | Some ReservationAccepted => arecord a r
  | _ => a
  end.

(** A reservation the validator lets through at [now]. *)
Definition admissible `{GoText} (ctx : Ctx) (now : Time) (r : Reservation) : Prop :=
  ctx = None ∧ validateReservation r = Ok tt ∧ After (ExpiresAt r) now = true.

(** ** The interface *)

(** [Env] is what the surroundings of one call decide (clock, faults, commit).
    A store answers as the abstract table does; a call that fails either changes
    nothing or has recorded exactly the reservation it was asked for. *)
Class ReplayStore `{GoText} (S Env : Type) := {
  capacity : Z;
  env_now : Env → Time;
  env_ctx : Env → Ctx;
  reserve : Env → S → Reservation → S * result ReservationOutcome;
  represents : S → AReplay → Prop;
  reserve_law : ∀ env s a r s' o,
    represents s a → reserve env s r = (s', o) →
    match o with
    | Ok outcome =>
        admissible (env_ctx env) (env_now env) r ∧
        adecide capacity a r = Some outcome ∧ represents s' (aapply capacity a r)
    | Err _ =>
        represents s' a ∨
        (admissible (env_ctx env) (env_now env) r ∧
         adecide capacity a r = Some ReservationAccepted ∧ represents s' (arecord a r))
    end;
}.

(** ** Lemmas on validation *)

Definition colon_free (c : string) : Prop := ContainsChar c ":" = false.

Lemma validateID_Ok `{GoText} v p u : validateID v p = Ok u → has_prefix v p = true.
Proof. unfold validateID. by case_match. Qed.

Lemma is_ok_validateID `{GoText} v p : is_ok (validateID v p) = has_prefix v p.
Proof. unfold validateID. by case_match. Qed.

Lemma has_prefix_colon_free `{GoText} v p : has_prefix v p = true → colon_free v.
Proof. intros Hv. eapply ContainsChar_forall; [by eapply has_prefix_alphabet|done]. Qed.

Lemma validateReservation_Ok `{GoText} r u :
  validateReservation r = Ok u →
  has_prefix (CellID r) "cell" = true ∧ has_prefix (BuildID r) "bld" = true ∧
  Generation r ≠ 0 ∧ is_nonce (Nonce r) = true ∧ is_digest (PayloadDigest r) = true.
Proof.
  unfold validateReservation. intros Hv. run_ok Hv.
  repeat match goal with Hi : validateID _ _ = Ok _ |- _ => apply validateID_Ok in Hi end.
  bsimpl. auto.
Qed.

(** ** String keys against pairs *)

(** The string-keyed tables hold what the abstract table holds. *)
Record rel (t : tables) (a : AReplay) : Prop := {
  rel_builds : ∀ c b, colon_free c → builds t !! key_of c b = watermark a !! (c, b);
  rel_nonces : ∀ c n, colon_free c →
    nonces t !! key_of c n = if decide ((c, n) ∈ used a) then Some true else None;
  rel_size_builds : size (builds t) = size (watermark a);
  rel_size_nonces : size (nonces t) = size (used a);
}.

Lemma rel_empty : rel empty_tables empty_replay.
Proof. split; try done; intros; simpl; by rewrite ?lookup_empty, ?decide_False by set_solver. Qed.

Lemma key_inj c b c' b' :
  colon_free c → colon_free c' → key_of c b = key_of c' b' → (c, b) = (c', b').
Proof. intros Hc Hc' Heq. by destruct (join_inj ":" c b c' b' Hc Hc' Heq) as [-> ->]. Qed.

Lemma rel_nonce_seen t a c n :
  rel t a → colon_free c → nonce_seen t (key_of c n) = bool_decide ((c, n) ∈ used a).
Proof.
  intros Hr Hc. unfold nonce_seen. rewrite (rel_nonces t a Hr c n Hc).
  case_decide; by rewrite ?bool_decide_true, ?bool_decide_false by done.
Qed.

Lemma lookup_insert_key {V} (m : gmap string V) (w : gmap (string * string) V) c b v :
  colon_free c →
  (∀ c' b', colon_free c' → m !! key_of c' b' = w !! (c', b')) →
  ∀ c' b', colon_free c' →
    <[key_of c b := v]> m !! key_of c' b' = <[(c, b) := v]> w !! (c', b').
Proof.
  intros Hc Hm c' b' Hc'. rewrite !lookup_insert. rewrite Hm by done.
  destruct (decide ((c, b) = (c', b'))) as [Heq|Hne].
  - injection Heq as -> ->. by rewrite decide_True.
  - rewrite decide_False; [done|]. intros Heq. apply Hne. by apply key_inj.
Qed.

Lemma rel_record t a r :
  rel t a → colon_free (CellID r) → (CellID r, Nonce r) ∉ used a →
  rel {| builds := <[buildKey r := entry_of r]> (builds t);
         nonces := <[nonceKey r := true]> (nonces t) |} (arecord a r).
Proof.
  intros Hr Hc Hn. pose proof (rel_nonces t a Hr (CellID r) (Nonce r) Hc) as Hk.
  rewrite decide_False in Hk by done.
  split; simpl; unfold buildKey, nonceKey.
  - apply lookup_insert_key; [done|]. apply Hr.
  - intros c n Hc'. rewrite lookup_insert.
    destruct (decide ((CellID r, Nonce r) = (c, n))) as [Heq|Hne].
    + injection Heq as -> ->. by rewrite !decide_True by set_solver.
    + rewrite decide_False by (intros Heq; apply Hne; by apply key_inj).
      rewrite (rel_nonces t a Hr) by done.
      destruct (decide ((c, n) ∈ used a)); [rewrite decide_True by set_solver|rewrite decide_False by set_solver]; done.
  - pose proof (rel_builds t a Hr (CellID r) (BuildID r) Hc) as Hb.
    destruct (watermark a !! (CellID r, BuildID r)) eqn:Hw.
    + rewrite !map_size_insert_Some by eauto. apply Hr.
    + rewrite !map_size_insert_None by done. f_equal. apply Hr.
  - rewrite map_size_insert_None by done. rewrite size_union by set_solver.
    rewrite size_singleton. f_equal. apply Hr.
Qed.

(** The Go routine decides and records what the abstract table does. *)
Lemma reserveReplayState_refines max t a r t' o :
  rel t a → colon_free (CellID r) → reserveReplayState t max r = (t', o) →
  match o with
  | Ok outcome => adecide max a r = Some outcome
  | Err _ => adecide max a r = None
  end ∧ rel t' (aapply max a r) ∧ (o ≠ Ok ReservationAccepted → t' = t).
Proof.
  intros Hr Hc. unfold reserveReplayState, aapply, adecide.
  assert (nonce_seen t (nonceKey r) = bool_decide ((CellID r, Nonce r) ∈ used a)) as -> by (by apply rel_nonce_seen).
  assert (builds t !! buildKey r = watermark a !! (CellID r, BuildID r)) as -> by (by apply rel_builds).
  cbv zeta. rewrite <- (rel_size_builds t a Hr), <- (rel_size_nonces t a Hr).
  destruct (watermark a !! (CellID r, BuildID r)) as [e|] eqn:Hw.
  - destruct (Generation r <? e_Generation e) eqn:Hlt; [intros; by simplify_eq|].
    destruct (Generation r =? e_Generation e) eqn:Hgen.
    + destruct (String.eqb _ _ && String.eqb _ _) eqn:Heq; intros; simplify_eq; bsimpl.
      * rewrite decide_True; [done|]. destruct e, r; unfold entry_of; simpl in *; congruence.
      * rewrite decide_False; [done|]. intros <-. destruct Heq as [Heq|Heq]; by apply Heq.
    + case_bool_decide; [rewrite decide_True by done|rewrite decide_False by done]; [intros; by simplify_eq|].
      destruct (_ || _); intros; simplify_eq; [done|]. split; [done|]. split; [by apply rel_record|done].
  - case_bool_decide; [rewrite decide_True by done|rewrite decide_False by done]; [intros; by simplify_eq|].
    destruct (_ || _); intros; simplify_eq; [done|]. split; [done|]. split; [by apply rel_record|done].
Qed.

Lemma adecide_accepted_fresh max a r :
  adecide max a r = Some ReservationAccepted → (CellID r, Nonce r) ∉ used a.
Proof. unfold adecide. repeat case_match; naive_solver. Qed.

(** An acceptance is a newer generation than the one on record. *)
Lemma adecide_accepted_newer max a r e :
  adecide max a r = Some ReservationAccepted → watermark a !! (CellID r, BuildID r) = Some e →
  e_Generation e < Generation r.
Proof. unfold adecide. intros Hd Hw. rewrite Hw in Hd. repeat case_match; bsimpl; naive_solver lia. Qed.

Lemma aapply_accepted max a r :
  adecide max a r = Some ReservationAccepted → aapply max a r = arecord a r.
Proof. unfold aapply. by intros ->. Qed.

Lemma aapply_other max a r o :
  adecide max a r = o → o ≠ Some ReservationAccepted → aapply max a r = a.
Proof. unfold aapply. intros -> Ho. repeat case_match; congruence. Qed.

(** ** The in-memory store is a [ReplayStore] *)

Section Memory.
Context `{GoText} (maxEntries : Z).

Program Definition memory_store : ReplayStore tables (Ctx * Time) := {|
  capacity := maxEntries;
  env_now := snd;
  env_ctx := fst;
  reserve := fun env t r => Reserve_memory maxEntries env.1 env.2 t r;
  represents := rel;
|}.
Next Obligation.
  intros [ctx now] t a r t' o Hr. unfold Reserve_memory. simpl.
  destruct ctx as [e|]; [intros; simplify_eq; by left|].
  destruct (validateReservation r) as [[]|e] eqn:Hv; [|intros; simplify_eq; by left].
  destruct (After (ExpiresAt r) now) eqn:Hexp; simpl; [|intros; simplify_eq; by left].
  destruct (validateReservation_Ok r _ Hv) as (Hc%has_prefix_colon_free & _).
  intros Hrun. destruct (reserveReplayState_refines _ _ _ _ _ _ Hr Hc Hrun) as (Hd & Hrel & Hsame).
  destruct o as [outcome|e].
  - split; [done|]. auto.
  - left. by rewrite (Hsame ltac:(done)).
Qed.

End Memory.

(** ** The file store is a [ReplayStore] *)

Section File.
Context `{GoText} `{!Codec replayState} (maxEntries : Z).

Definition represents_file (file : option string) (a : AReplay) : Prop :=
  ∃ contents state, file = Some contents ∧ unmarshal contents = Some state ∧
    validateReplayState state maxEntries = Ok tt ∧ rel (tables_of state) a.

Lemma validateReplayState_Ok state u :
  validateReplayState state maxEntries = Ok u →
  Version state = replayStateVersion ∧
  Builds state = Some (builds (tables_of state)) ∧ Nonces state = Some (nonces (tables_of state)) ∧
  Z.of_nat (size (builds (tables_of state))) ≤ maxEntries ∧
  Z.of_nat (size (nonces (tables_of state))) ≤ maxEntries ∧
  map_forallb (valid_build_entry (nonces (tables_of state))) (builds (tables_of state)) = true ∧
  map_forallb valid_nonce_entry (nonces (tables_of state)) = true.
Proof.
  unfold validateReplayState, tables_of.
  destruct (Builds state) as [bs|], (Nonces state) as [ns|]; simpl; try done.
  intros Hv. run_ok Hv. rewrite !orb_false_iff, !negb_false_iff, Z.eqb_eq, !Z.ltb_ge in *. naive_solver.
Qed.

Lemma validateReplayState_intro state t :
  Version state = replayStateVersion →
  Z.of_nat (size (builds t)) ≤ maxEntries → Z.of_nat (size (nonces t)) ≤ maxEntries →
  map_forallb (valid_build_entry (nonces t)) (builds t) = true →
  map_forallb valid_nonce_entry (nonces t) = true →
  validateReplayState (with_tables state t) maxEntries = Ok tt.
Proof.
  unfold validateReplayState, with_tables. simpl. intros -> Hb Hn -> ->.
  rewrite (proj2 (Z.ltb_ge _ _) Hb), (proj2 (Z.ltb_ge _ _) Hn). done.
Qed.

Lemma valid_build_entry_mono ns key n e :
  valid_build_entry ns key e = true → valid_build_entry (<[n:=true]> ns) key e = true.
Proof.
  unfold valid_build_entry. destruct (Cut key ":") as [[c b]|]; [|done].
  rewrite !andb_true_iff. intros (? & Hn). split; [done|].
  rewrite lookup_insert. by case_decide.
Qed.

(** A state that was valid stays valid, so the write-time check never refuses an
    accepted reservation. *)
Lemma reserve_keeps_valid state r t :
  validateReplayState state maxEntries = Ok tt → validateReservation r = Ok tt →
  reserveReplayState (tables_of state) maxEntries r = (t, Ok ReservationAccepted) →
  validateReplayState (with_tables state t) maxEntries = Ok tt.
Proof.
  intros (Hver & _ & _ & Hsb & Hsn & HB & HN)%validateReplayState_Ok Hv Hrun.
  destruct (validateReservation_Ok r _ Hv) as (Hcell & Hbld & Hgen & Hnon & Hdig).
  pose proof (has_prefix_colon_free _ _ Hcell) as Hc.
  assert (Z.of_nat (size (builds (tables_of state))) < maxEntries ∧
          Z.of_nat (size (nonces (tables_of state))) < maxEntries ∧
          t = {| builds := <[buildKey r := entry_of r]> (builds (tables_of state));
                 nonces := <[nonceKey r := true]> (nonces (tables_of state)) |}) as (Lb & Ln & ->).
  { revert Hrun. unfold reserveReplayState. cbv zeta.
    repeat case_match; intros; simplify_eq; rewrite orb_false_iff, !Z.leb_gt in *; naive_solver. }
  apply validateReplayState_intro; cbn [builds nonces]; [done| | | |].
  - pose proof (size_insert_le (builds (tables_of state)) (buildKey r) (entry_of r)). lia.
  - pose proof (size_insert_le (nonces (tables_of state)) (nonceKey r) true). lia.
  - apply map_forallb_insert.
    + rewrite map_forallb_true in *. intros. apply valid_build_entry_mono. eauto.
    + unfold valid_build_entry, buildKey, key_of. change (":" +:+ ?x) with (String ":" x).
      rewrite Cut_app by done. rewrite !is_ok_validateID, Hcell, Hbld. simpl.
      rewrite Hnon, Hdig, (proj2 (Z.eqb_neq _ _) Hgen). simpl.
      unfold nonceKey. by rewrite lookup_insert_eq.
  - apply map_forallb_insert; [done|]. unfold valid_nonce_entry, nonceKey, key_of.
    change (":" +:+ ?x) with (String ":" x). rewrite Cut_app by done.
    by rewrite is_ok_validateID, Hcell, Hnon.
Qed.

Lemma tables_of_with_tables state t : tables_of (with_tables state t) = t.
Proof. by destruct t. Qed.

Lemma readState_represents io file a state :
  represents_file file a → readState maxEntries io file = Ok state →
  validateReplayState state maxEntries = Ok tt ∧ rel (tables_of state) a.
Proof.
  intros (c & st & -> & Hu & Hval & Hrel). unfold readState. intros Hrd. run_ok Hrd. by simplify_eq.
Qed.

(** A write of a valid state leaves the old file or publishes the new one, and
    reports success only for the new one. *)
Lemma writeState_cases io file state file' o :
  writeState maxEntries io file state = (file', o) →
  (file' = file ∧ is_ok o = false) ∨
  (validateReplayState state maxEntries = Ok tt ∧ ∃ c, marshal state = Some c ∧ file' = Some c).
Proof.
  unfold writeState. destruct (validateReplayState state maxEntries) as [[]|]; [|intros; simplify_eq; by left].
  destruct (marshal state) as [c|]; repeat case_match; intros; simplify_eq; eauto.
Qed.

Program Definition file_store : ReplayStore (option string) (FileFaults * Ctx * Time) := {|
  capacity := maxEntries;
  env_now := snd;
  env_ctx := fun env => env.1.2;
  reserve := fun env file r => Reserve_file maxEntries env.1.1 env.1.2 env.2 file r;
  represents := represents_file;
|}.
Next Obligation.
  intros [[io ctx] now] file a r file' o Hrep. unfold Reserve_file. simpl.
  destruct ctx as [e|]; [intros; simplify_eq; by left|].
  destruct (validateReservation r) as [[]|e] eqn:Hv; [|intros; simplify_eq; by left].
  destruct (After (ExpiresAt r) now) eqn:Hexp; simpl; [|intros; simplify_eq; by left].
  destruct (lock_taken io); simpl; [|intros; simplify_eq; by left].
  destruct (readState maxEntries io file) as [state|e] eqn:Hread; [|intros; simplify_eq; by left].
  destruct (readState_represents _ _ _ _ Hrep Hread) as [Hval Hrel].
  destruct (validateReservation_Ok r _ Hv) as (Hc%has_prefix_colon_free & _).
  destruct (reserveReplayState (tables_of state) maxEntries r) as [t o'] eqn:Hrun.
  destruct (reserveReplayState_refines _ _ _ _ _ _ Hrel Hc Hrun) as (Hd & Hrel' & Hsame).
  destruct o' as [outcome|e]; [|intros; simplify_eq; by left].
  destruct (decide (outcome = ReservationAccepted)) as [->|Hne].
  - rewrite (aapply_accepted _ _ _ Hd) in Hrel'.
    assert (∀ c, marshal (with_tables state t) = Some c → represents_file (Some c) (arecord a r)) as Hnew.
    { intros c Hm. exists c, (with_tables state t). rewrite tables_of_with_tables.
      split; [done|]. split; [by apply unmarshal_marshal|]. split; [by eapply reserve_keeps_valid|done]. }
    destruct (writeState maxEntries io file (with_tables state t)) as [f [u|e]] eqn:Hw; intros; simplify_eq;
      destruct (writeState_cases _ _ _ _ _ Hw) as [[-> Ho]|(_ & c & Hm & ->)]; try done.
    + rewrite (aapply_accepted _ _ _ Hd). split; [done|]. eauto.
    + by left.
    + right. split; [done|]. eauto.
  - intros Heq. assert (file' = file ∧ o = Ok outcome) as [-> ->] by (destruct outcome; by simplify_eq).
    split; [done|]. split; [done|]. by rewrite (aapply_other _ _ _ _ Hd) by congruence.
Qed.

End File.

(** ** The bbolt store is a [ReplayStore] *)

Section BoltStore.
Context `{GoText} {Tx : Type} `{!BoltTx Tx} `{!Codec replayEntry} (maxEntries : Z).

Record represents_bolt (tx : Tx) (a : AReplay) : Prop := {
  bolt_builds : ∀ c b, colon_free c →
    match tx_get tx replayBuildBucket (key_of c b) with
    | None => watermark a !! (c, b) = None
    | Some contents => ∃ e, decodeReplayEntry contents = Ok e ∧ watermark a !! (c, b) = Some e
    end;
  bolt_nonces : ∀ c n, colon_free c →
    is_Some (tx_get tx replayNonceBucket (key_of c n)) ↔ (c, n) ∈ used a;
  bolt_size_builds : tx_keyN tx replayBuildBucket = Z.of_nat (size (watermark a));
  bolt_size_nonces : tx_keyN tx replayNonceBucket = Z.of_nat (size (used a));
}.

Lemma decode_marshalled r contents :
  validateReservation r = Ok tt → marshal (entry_of r) = Some contents →
  decodeReplayEntry contents = Ok (entry_of r).
Proof.
  intros (_ & _ & Hgen & Hnon & Hdig)%validateReservation_Ok Hm. unfold decodeReplayEntry.
  rewrite (unmarshal_marshal _ _ Hm). simpl.
  by rewrite (proj2 (Z.eqb_neq _ _) Hgen), Hnon, Hdig.
Qed.

(** Both puts of an accepted reservation. *)
Lemma represents_bolt_record tx tx1 tx2 a r contents mark :
  represents_bolt tx a → colon_free (CellID r) → (CellID r, Nonce r) ∉ used a →
  decodeReplayEntry contents = Ok (entry_of r) →
  tx_put tx replayBuildBucket (buildKey r) contents = Ok tx1 →
  tx_put tx1 replayNonceBucket (nonceKey r) mark = Ok tx2 →
  represents_bolt tx2 (arecord a r).
Proof.
  intros Hr Hc Hn Hdec H1 H2.
  pose proof (tx_get_put _ _ _ _ _ H1) as G1. pose proof (tx_get_put _ _ _ _ _ H2) as G2.
  pose proof (tx_keyN_put _ _ _ _ _ H1) as K1. pose proof (tx_keyN_put _ _ _ _ _ H2) as K2.
  assert (tx_get tx replayNonceBucket (nonceKey r) = None) as Hnone.
  { apply eq_None_not_Some. unfold nonceKey. by rewrite (bolt_nonces tx a Hr). }
  split.
  - intros c b Hc'. rewrite G2, decide_False by (by intros [? _]). rewrite G1. simpl.
    unfold buildKey. rewrite lookup_insert.
    destruct (decide ((CellID r, BuildID r) = (c, b))) as [Heq|Hne].
    + injection Heq as -> ->. rewrite decide_True by done. eauto.
    + rewrite decide_False by (intros [_ Heq]; apply Hne; symmetry; by apply key_inj).
      apply (bolt_builds tx a Hr c b Hc').
  - intros c n Hc'. rewrite G2. unfold nonceKey. simpl. rewrite elem_of_union, elem_of_singleton.
    destruct (decide ((c, n) = (CellID r, Nonce r))) as [Heq|Hne].
    + injection Heq as -> ->. rewrite decide_True by done. split; eauto.
    + rewrite decide_False by (intros [_ Heq]; apply Hne; by apply key_inj).
      rewrite G1, decide_False by (by intros [? _]). rewrite (bolt_nonces tx a Hr) by done. naive_solver.
  - rewrite K2, decide_False by (by intros [? _]). rewrite K1, (bolt_size_builds tx a Hr). simpl.
    pose proof (bolt_builds tx a Hr (CellID r) (BuildID r) Hc) as Hb. unfold buildKey.
    destruct (tx_get tx replayBuildBucket _) as [x|].
    + destruct Hb as (e & _ & Hw). rewrite map_size_insert_Some by eauto.
      rewrite decide_False by naive_solver. lia.
    + rewrite map_size_insert_None, decide_True by done. lia.
  - rewrite K2, K1, (bolt_size_nonces tx a Hr). cbn [arecord used].
    rewrite size_union, size_singleton by set_solver.
    rewrite (decide_False (P := replayNonceBucket = replayBuildBucket ∧ _)) by (by intros [? _]).
    rewrite decide_True; [lia|]. split; [done|]. by rewrite G1, decide_False by (by intros [? _]).
Qed.

(** The body that records a reservation the watermark lets through. *)
Lemma accept_tx_refines tx a r outcome tx' :
  represents_bolt tx a → validateReservation r = Ok tt →
  match tx_get tx replayNonceBucket (nonceKey r) with
  | Some _ => Ok (ReservationConflict, tx)
  | None =>
      if (maxEntries <=? tx_keyN tx replayBuildBucket) || (maxEntries <=? tx_keyN tx replayNonceBucket)
      then Err (ErrReplay "Bolt replay capacity exhausted")
      else match marshal (entry_of r) with
      | None => Err (Error "marshal" "")
      | Some entry =>
          let* tx := tx_put tx replayBuildBucket (buildKey r) entry in
          let* tx := tx_put tx replayNonceBucket (nonceKey r) (String (char_of 1) "") in
          Ok (ReservationAccepted, tx)
      end
  end = Ok (outcome, tx') →
  (if decide ((CellID r, Nonce r) ∈ used a) then Some ReservationConflict
   else if (maxEntries <=? Z.of_nat (size (watermark a))) || (maxEntries <=? Z.of_nat (size (used a)))
   then None else Some ReservationAccepted) = Some outcome ∧
  represents_bolt tx' (if decide (outcome = ReservationAccepted) then arecord a r else a).
Proof.
  intros Hr Hv. destruct (validateReservation_Ok r _ Hv) as (Hc%has_prefix_colon_free & _).
  pose proof (bolt_nonces tx a Hr (CellID r) (Nonce r) Hc) as Hn. fold (nonceKey r) in Hn.
  rewrite (bolt_size_builds tx a Hr), (bolt_size_nonces tx a Hr).
  destruct (tx_get tx replayNonceBucket (nonceKey r)) as [x|].
  - intros; simplify_eq. rewrite decide_True by (apply Hn; eauto). done.
  - rewrite (decide_False (P := (_, _) ∈ _)) by (rewrite <- Hn; by intros [? ?]).
    intros Hrun. run_ok Hrun. simplify_eq. split; [done|].
    eapply represents_bolt_record; eauto; [|by apply decode_marshalled].
    rewrite <- Hn. by intros [? ?].
Qed.

Lemma reserve_tx_refines tx a r outcome tx' :
  represents_bolt tx a → validateReservation r = Ok tt →
  reserve_tx maxEntries r tx = Ok (outcome, tx') →
  adecide maxEntries a r = Some outcome ∧
  represents_bolt tx' (if decide (outcome = ReservationAccepted) then arecord a r else a).
Proof.
  intros Hr Hv. destruct (validateReservation_Ok r _ Hv) as (Hc%has_prefix_colon_free & _).
  pose proof (bolt_builds tx a Hr (CellID r) (BuildID r) Hc) as Hb.
  unfold reserve_tx, adecide. cbv zeta. fold (buildKey r) in Hb.
  destruct (tx_get tx replayBuildBucket (buildKey r)) as [contents|].
  - destruct Hb as (e & -> & ->). cbn [bind_result].
    destruct (Generation r <? e_Generation e) eqn:Hlt; [intros; by simplify_eq|].
    destruct (Generation r =? e_Generation e) eqn:Hgen; [|by apply accept_tx_refines].
    destruct (String.eqb _ _ && String.eqb _ _) eqn:Heq; intros; simplify_eq; bsimpl.
    + rewrite decide_True; [done|]. destruct e, r; unfold entry_of; simpl in *; congruence.
    + rewrite (decide_False (P := entry_of r = e)); [done|].
      intros <-. destruct Heq as [Heq|Heq]; by apply Heq.
  - rewrite Hb. by apply accept_tx_refines.
Qed.

Program Definition bolt_store : ReplayStore Tx (Ctx * Ctx * commit * Time) := {|
  capacity := maxEntries;
  env_now := snd;
  env_ctx := fun env => env.1.1.1;
  reserve := fun env tx r => Reserve_bolt maxEntries env.1.1.1 env.1.1.2 env.1.2 env.2 tx r;
  represents := represents_bolt;
|}.
Next Obligation.
  intros [[[ctx ctx'] c] now] tx a r tx' o Hrep. unfold Reserve_bolt, Update. simpl.
  destruct ctx as [e|]; [intros; simplify_eq; by left|].
  destruct (validateReservation r) as [[]|e] eqn:Hv; [|intros; simplify_eq; by left].
  destruct (After (ExpiresAt r) now) eqn:Hexp; simpl; [|intros; simplify_eq; by left].
  destruct ctx' as [e|]; [intros; simplify_eq; by left|].
  destruct (reserve_tx maxEntries r tx) as [[outcome tx'']|e] eqn:Hrun; [|intros; simplify_eq; by left].
  destruct (reserve_tx_refines _ _ _ _ _ Hrep Hv Hrun) as [Hd Hrep'].
  destruct c as [|durable]; intros; simplify_eq.
  - split; [done|]. split; [done|]. case_decide; subst.
    + by rewrite aapply_accepted.
    + by rewrite (aapply_other _ _ _ _ Hd) by congruence.
  - destruct durable; [|by left]. case_decide; subst; [|by left]. by right.
Qed.

End BoltStore.

(** ** Sequences of calls against the interface *)

Section Client.
Context `{GoText} {S Env : Type} (RS : ReplayStore S Env).

(** The calls one after another, with what each returned. *)
Fixpoint run_calls (s : S) (calls : list (Env * Reservation))
    : S * list (Reservation * result ReservationOutcome) :=
  match calls with
  | [] => (s, [])
  | (env, r) :: calls' =>
      let '(s1, o) := reserve env s r in
      let '(s2, log) := run_calls s1 calls' in
      (s2, (r, o) :: log)
  end.

(** The table can only grow: used nonces stay used, watermarks only rise. *)
Definition below (a b : AReplay) : Prop :=
  used a ⊆ used b ∧
  ∀ k e, watermark a !! k = Some e → ∃ e', watermark b !! k = Some e' ∧ e_Generation e ≤ e_Generation e'.

#[local] Instance below_refl : Reflexive below.
Proof. intros a. split; [done|]. intros k e He. exists e. split; [done|lia]. Qed.

#[local] Instance below_trans : Transitive below.
Proof.
  intros a b c [U1 W1] [U2 W2]. split; [by etransitivity|]. intros k e He.
  destruct (W1 _ _ He) as (e1 & He1 & ?). destruct (W2 _ _ He1) as (e2 & ? & ?). exists e2. split; [done|lia].
Qed.

Lemma below_record max a r : adecide max a r = Some ReservationAccepted → below a (arecord a r).
Proof.
  intros Hd. split; simpl; [set_solver|]. intros k e He. rewrite lookup_insert.
  case_decide as Hk; [|exists e; split; [done|lia]]. subst k.
  exists (entry_of r). split; [done|]. pose proof (adecide_accepted_newer _ _ _ _ Hd He). simpl. lia.
Qed.

Lemma below_aapply max a r : below a (aapply max a r).
Proof.
  unfold aapply. destruct (adecide max a r) as [[]|] eqn:Hd; try reflexivity. by eapply below_record.
Qed.

Lemma reserve_below env s a r s' o :
  represents s a → reserve env s r = (s', o) → ∃ a', represents s' a' ∧ below a a'.
Proof.
  intros Hrep Hrun. pose proof (reserve_law _ _ _ _ _ _ Hrep Hrun) as Hlaw. destruct o.
  - destruct Hlaw as (_ & _ & ?). eexists; split; [done|]. apply below_aapply.
  - destruct Hlaw as [?|(_ & Hd & ?)]; eexists; (split; [done|]); [reflexivity|by eapply below_record].
Qed.

(** What an accepted reservation leaves behind. *)
Definition on_record (a : AReplay) (r : Reservation) : Prop :=
  (CellID r, Nonce r) ∈ used a ∧
  ∃ e, watermark a !! (CellID r, BuildID r) = Some e ∧ Generation r ≤ e_Generation e.

Lemma on_record_below a b r : on_record a r → below a b → on_record b r.
Proof.
  intros (Hn & e & He & Hle) [U W]. split; [set_solver|].
  destruct (W _ _ He) as (e' & ? & ?). exists e'. split; [done|lia].
Qed.

(** Whatever is on record is never accepted again. *)
Lemma run_calls_after calls s a r0 s' log :
  represents s a → on_record a r0 → run_calls s calls = (s', log) →
  Forall (fun ro => ro.2 = Ok ReservationAccepted →
    (CellID r0, Nonce r0) ≠ (CellID ro.1, Nonce ro.1) ∧
    ((CellID r0, BuildID r0) = (CellID ro.1, BuildID ro.1) → Generation r0 < Generation ro.1)) log.
Proof.
  revert s a s' log. induction calls as [|[env r] calls IH]; intros s a s' log Hrep Hon Hrun; simpl in Hrun.
  { simplify_eq. constructor. }
  destruct (reserve env s r) as [s1 o] eqn:Hres. destruct (run_calls s1 calls) as [s2 log'] eqn:Hcalls.
  simplify_eq. destruct (reserve_below _ _ _ _ _ _ Hrep Hres) as (a1 & Hrep1 & Hb).
  constructor; [|by eapply IH; [|eapply on_record_below|]]. simpl. intros ->.
  pose proof (reserve_law _ _ _ _ _ _ Hrep Hres) as (_ & Hd & _).
  destruct Hon as (Hn & e & He & Hle). split.
  - intros Heq. rewrite Heq in Hn. by apply (adecide_accepted_fresh _ _ _ Hd).
  - intros Heq. rewrite Heq in He. pose proof (adecide_accepted_newer _ _ _ _ Hd He). lia.
Qed.

Lemma reserve_accepted_on_record env s a r s' :
  represents s a → reserve env s r = (s', Ok ReservationAccepted) →
  represents s' (arecord a r) ∧ on_record (arecord a r) r.
Proof.
  intros Hrep Hrun. pose proof (reserve_law _ _ _ _ _ _ Hrep Hrun) as (_ & Hd & Hrep').
  rewrite (aapply_accepted _ _ _ Hd) in Hrep'. split; [done|].
  split; simpl; [set_solver|]. exists (entry_of r). by rewrite lookup_insert_eq.
Qed.

Lemma run_calls_at_most_once calls s a s' log i j ri rj :
  represents s a → run_calls s calls = (s', log) → (i < j)%nat →
  log !! i = Some (ri, Ok ReservationAccepted) → log !! j = Some (rj, Ok ReservationAccepted) →
  (CellID ri, Nonce ri) ≠ (CellID rj, Nonce rj) ∧
  ((CellID ri, BuildID ri) = (CellID rj, BuildID rj) → Generation ri < Generation rj).
Proof.
  revert s a s' log i j. induction calls as [|[env r] calls IH]; intros s a s' log i j Hrep Hrun Hij Hi Hj;
    simpl in Hrun; [by simplify_eq|].
  destruct (reserve env s r) as [s1 o] eqn:Hres. destruct (run_calls s1 calls) as [s2 log'] eqn:Hcalls.
  simplify_eq. destruct j as [|j]; [lia|]. simpl in Hj. destruct i as [|i]; simpl in Hi.
  - simplify_eq. destruct (reserve_accepted_on_record _ _ _ _ _ Hrep Hres) as [Hrep1 Hon].
    pose proof (run_calls_after _ _ _ _ _ _ Hrep1 Hon Hcalls) as Hall.
    rewrite Forall_lookup in Hall. by apply (Hall _ _ Hj).
  - destruct (reserve_below _ _ _ _ _ _ Hrep Hres) as (a1 & Hrep1 & _).
    eapply (IH _ _ _ _ i j Hrep1 Hcalls); [lia|done|done].
Qed.

End Client.

(** ** Properties *)

Definition sample_cell : string := "cell_018bcfe5-687b-7bab-abab-abababababab".
Definition sample_build : string := "bld_018bcfe5-687b-7bab-abab-abababababab".

Definition sample_reservation (generation : Z) (nonce digest : ascii) : Reservation :=
  {| CellID := sample_cell; BuildID := sample_build; Generation := generation;
     Nonce := str_repeat 64 nonce; PayloadDigest := sample_digest digest; ExpiresAt := Hour |}.

(** C4: Over any sequence of calls to any store that meets the interface, with
    any faults in between, an assignment is accepted at most once: two accepted
    reservations of a cell never share a nonce, and two of the same build carry
    strictly increasing generations. *)
Theorem replay_at_most_once `{GoText} {S Env} (RS : ReplayStore S Env) calls s a s' log i j ri rj :
  represents s a → run_calls RS s calls = (s', log) → (i < j)%nat →
  log !! i = Some (ri, Ok ReservationAccepted) → log !! j = Some (rj, Ok ReservationAccepted) →
  (CellID ri, Nonce ri) ≠ (CellID rj, Nonce rj) ∧
  ((CellID ri, BuildID ri) = (CellID rj, BuildID rj) → Generation ri < Generation rj).
Proof. apply run_calls_at_most_once. Qed.

Definition sample_calls : list ((Ctx * Time) * Reservation) :=
  [((None, Minute), sample_reservation 1 "a" "b"); ((None, Minute), sample_reservation 1 "a" "b");
   ((None, Minute), sample_reservation 2 "c" "d")].

Lemma replay_at_most_once_witness :
  let r1 := sample_reservation 1 "a" "b" in let r2 := sample_reservation 2 "c" "d" in
  (CellID r1, Nonce r1) ≠ (CellID r2, Nonce r2) ∧
  ((CellID r1, BuildID r1) = (CellID r2, BuildID r2) → Generation r1 < Generation r2).
Proof.
  apply (@replay_at_most_once plain_text _ _ (@memory_store plain_text 10) sample_calls
    empty_tables empty_replay
    (run_calls (@memory_store plain_text 10) empty_tables sample_calls).1
    [(sample_reservation 1 "a" "b", Ok ReservationAccepted); (sample_reservation 1 "a" "b", Ok ReservationReplay);
     (sample_reservation 2 "c" "d", Ok ReservationAccepted)] 0 2).
  - exact rel_empty.
  - apply answer_of. vm_compute. reflexivity.
  - lia.
  - reflexivity.
  - reflexivity.
Defined.

(** Delivering an assignment again is safe: if a reservation would be
    accepted (or is already on record), then after one call for it, failed or
    not, a second call that gets an answer gets [ReservationReplay]; the only
    other answer is the acceptance itself, when the first call failed. *)
Theorem replay_retry `{GoText} {S Env} (RS : ReplayStore S Env) env1 env2 s a r s1 o1 s2 o2 :
  represents s a →
  adecide capacity a r = Some ReservationAccepted ∨ adecide capacity a r = Some ReservationReplay →
  reserve env1 s r = (s1, o1) → reserve env2 s1 r = (s2, Ok o2) →
  o2 = ReservationReplay ∨ (is_err o1 = true ∧ o2 = ReservationAccepted).
Proof.
  intros Hrep Hd H1 H2.
  assert (∀ b, represents s1 b → adecide capacity b r = Some o2) as Hsecond.
  { intros b Hb. apply (reserve_law _ _ _ _ _ _ Hb H2). }
  assert (∀ b, adecide capacity (arecord b r) r = Some ReservationReplay) as Hrec.
  { intros b. unfold adecide, arecord. simpl. rewrite lookup_insert_eq. simpl.
    rewrite Z.ltb_irrefl, Z.eqb_refl. by rewrite decide_True. }
  pose proof (reserve_law _ _ _ _ _ _ Hrep H1) as Hlaw. destruct o1 as [o1|e].
  - destruct Hlaw as (_ & Hd1 & Hrep1). apply Hsecond in Hrep1. left.
    destruct Hd as [Hd|Hd]; [rewrite (aapply_accepted _ _ _ Hd), Hrec in Hrep1|
                             rewrite (aapply_other _ _ _ _ Hd) in Hrep1 by done]; congruence.
  - destruct Hlaw as [Hrep1|(_ & _ & Hrep1)]; apply Hsecond in Hrep1; [|rewrite Hrec in Hrep1; left; congruence].
    destruct Hd; [right|left]; [split; [done|]|]; congruence.
Qed.

Lemma replay_retry_witness :
  ReservationReplay = ReservationReplay ∨
  (is_err (A := ReservationOutcome) (Ok ReservationAccepted) = true ∧ ReservationReplay = ReservationAccepted).
Proof.
  apply (@replay_retry plain_text _ _ (@memory_store plain_text 10) (None, Minute) (None, Minute)
    empty_tables empty_replay (sample_reservation 1 "a" "b")
    (reserve (ReplayStore := @memory_store plain_text 10) (None, Minute) empty_tables
      (sample_reservation 1 "a" "b")).1 (Ok ReservationAccepted)
    (reserve (ReplayStore := @memory_store plain_text 10) (None, Minute)
      (reserve (ReplayStore := @memory_store plain_text 10) (None, Minute) empty_tables
         (sample_reservation 1 "a" "b")).1 (sample_reservation 1 "a" "b")).1 ReservationReplay).
  - exact rel_empty.
  - left. vm_compute. reflexivity.
  - apply answer_of. vm_compute. reflexivity.
  - apply answer_of. vm_compute. reflexivity.
Defined.

(** Two stores of one capacity that hold the same table, say the in-memory
    and the bbolt one, give the same answer to a reservation and hold the same
    table afterwards: the string keys, the JSON entries and the bucket counts
    lose nothing. *)
Theorem replay_stores_agree `{GoText} {S1 E1 S2 E2} (R1 : ReplayStore S1 E1) (R2 : ReplayStore S2 E2)
    env1 env2 s1 s2 a r s1' s2' o1 o2 :
  capacity (ReplayStore := R1) = capacity (ReplayStore := R2) →
  represents (ReplayStore := R1) s1 a → represents (ReplayStore := R2) s2 a →
  reserve (ReplayStore := R1) env1 s1 r = (s1', Ok o1) →
  reserve (ReplayStore := R2) env2 s2 r = (s2', Ok o2) →
  o1 = o2 ∧ ∃ a', represents (ReplayStore := R1) s1' a' ∧ represents (ReplayStore := R2) s2' a'.
Proof.
  intros Hcap Hr1 Hr2 H1 H2.
  pose proof (reserve_law (ReplayStore := R1) _ _ _ _ _ _ Hr1 H1) as (_ & D1 & P1).
  pose proof (reserve_law (ReplayStore := R2) _ _ _ _ _ _ Hr2 H2) as (_ & D2 & P2).
  rewrite <- Hcap in D2, P2. split; [congruence|eauto].
Qed.

Lemma represents_bolt_empty `{!Codec replayEntry} :
  @represents_bolt _ gmap_bolt _ ∅ empty_replay.
Proof. split; try done. intros c n _. simpl. split; [by intros [? ?]|set_solver]. Qed.

Definition sample_memory : ReplayStore tables (Ctx * Time) := @memory_store plain_text 10.

Definition sample_bolt : ReplayStore (gmap string (gmap string string)) (Ctx * Ctx * commit * Time) :=
  @bolt_store plain_text _ gmap_bolt (single_codec (entry_of (sample_reservation 1 "a" "b"))) 10.

Lemma replay_stores_agree_witness :
  ReservationAccepted = ReservationAccepted ∧
  ∃ a', represents (ReplayStore := sample_memory)
          (reserve (ReplayStore := sample_memory) (None, Minute) empty_tables (sample_reservation 1 "a" "b")).1 a' ∧
        represents (ReplayStore := sample_bolt)
          (reserve (ReplayStore := sample_bolt) (None, None, CommitOk, Minute) ∅ (sample_reservation 1 "a" "b")).1 a'.
Proof.
  apply (@replay_stores_agree plain_text _ _ _ _ sample_memory sample_bolt
    (None, Minute) (None, None, CommitOk, Minute)
    empty_tables ∅ empty_replay (sample_reservation 1 "a" "b") _ _ ReservationAccepted ReservationAccepted).
  - reflexivity.
  - exact rel_empty.
  - apply represents_bolt_empty.
  - apply answer_of. vm_compute. reflexivity.
  - apply answer_of. vm_compute. reflexivity.
Defined.

(** C25: The state file survives a crash at any point of a call: whatever the
    file system does, the file still decodes to a valid state that holds either
    the old table or the old table with the requested reservation accepted; an
    accepted answer means the latter, every other answer the former, and an
    error the latter only if the reservation was acceptable. *)
Theorem file_store_crash_safe `{GoText} `{!Codec replayState} maxEntries io ctx now file a r file' o :
  represents_file maxEntries file a →
  Reserve_file maxEntries io ctx now file r = (file', o) →
  match o with
  | Ok ReservationAccepted => represents_file maxEntries file' (arecord a r)
  | Ok _ => represents_file maxEntries file' a
  | Err _ =>
      represents_file maxEntries file' a ∨
      (adecide maxEntries a r = Some ReservationAccepted ∧
       represents_file maxEntries file' (arecord a r))
  end.
Proof.
  intros Hrep Hrun.
  pose proof (@reserve_law _ _ _ (file_store maxEntries) (io, ctx, now) _ _ _ _ _ Hrep Hrun) as Hlaw.
  destruct o as [o|e]; [|destruct Hlaw as [?|(_ & ? & ?)]; auto].
  destruct Hlaw as (_ & Hd & Hrep'). simpl in *. unfold aapply in Hrep'. rewrite Hd in Hrep'. by destruct o.
Qed.

Lemma file_store_crash_safe_witness :
  let codec := single_codec newReplayState in
  let io := {| lock_taken := true; stat_regular := true; stat_private := true; open_ok := true;
               read_complete := true; temp_written := true; rename_ok := true; dir_synced := true |} in
  @represents_file plain_text codec 10 (Some "json") empty_replay ∨
  (adecide 10 empty_replay (sample_reservation 1 "a" "b") = Some ReservationAccepted ∧
   @represents_file plain_text codec 10 (Some "json") (arecord empty_replay (sample_reservation 1 "a" "b"))).
Proof.
  intros codec io.
  apply (@file_store_crash_safe plain_text codec 10 io None Minute (Some "json") empty_replay
    (sample_reservation 1 "a" "b") (Some "json") (Err (ErrReplay "canonicalize durable replay state"))).
  - exists "json", newReplayState. split; [reflexivity|]. split; [reflexivity|]. split; [vm_compute; reflexivity|].
    exact rel_empty.
  - vm_compute. reflexivity.
Defined.

End Replay.
