(* ===== verification/Assignment.v ===== *)
(** * Signed build assignments (build-plane/internal/buildcell: assignment.go,
    codec.go)

    An assignment is a signed payload: the build's identity, its definition lock,
    its source and its output artifacts.  [Verify] checks signature, audience,
    lifetime, digests and capabilities; [Resolve] reads the artifacts it names and
    checks them against the signed digests.

    BuildKit's definition format is the interface [Buildkit] of LLBAudit.v, whose
    audit [Resolve] and [Validate] run. *)

From S2P Require Import Prelude Text GoStd GoTime Crypto PlatformID Storage BuildIR LLBPolicy LLBAudit Replay.
Import GoStd GoTime Crypto PlatformID Storage LLBPolicy LLBAudit Replay.

Open Scope Z_scope.

Module Assignment.

Definition CurrentAssignmentVersion : Z := 1.
Definition DefaultMaxAssignmentTTL : Duration := Hour.
Definition DefaultMaxFutureSkew : Duration := 30 * Second.
Definition MaxDefinitionBytes : Z := Z.shiftl 16 20.
Definition MaxConfigBytes : Z := Z.shiftl 1 20.
Definition MaxEnvelopeBytes : Z := Z.shiftl 1 20.

(** ** Data *)

Record SourceArtifact := {
  sa_SnapshotDigest : string;
  sa_ArchiveDigest : string;
  sa_ArchiveRef : string;
  sa_SizeBytes : Z;
}.

Record OutputArtifact := {
  oa_Name : string;
  oa_Kind : string;
  oa_LLBDigest : string;
  oa_Head : string;
  oa_LLBRef : string;
  oa_ConfigDigest : string;
  oa_ConfigRef : string;
}.

Record Payload := {
  p_Version : Z;
  p_BuildID : string;
  p_CellID : string;
  p_OrganizationID : string;
  p_ProjectID : string;
  p_OperationID : string;
  p_Generation : Z;
  p_Nonce : string;
  p_IssuedAt : string;
  p_ExpiresAt : string;
  p_DefinitionDigest : string;
  p_Lock : DefinitionLock;
  p_Source : SourceArtifact;
  p_Outputs : list OutputArtifact;
}.

Record Envelope := { e_KeyID : string; e_Payload : Payload; e_Signature : string }.

(** The unexported [verified] flag is set by [Verify] only. *)
Record VerifiedAssignment := {
  va_Payload : Payload;
  va_PayloadDigest : string;
  va_KeyID : string;
  va_verified : bool;
}.

Record ResolvedOutput := { ro_Name : string; ro_Kind : string; ro_Definition : string; ro_Config : string }.

Record ResolvedAssignment := {
  ra_Verified : VerifiedAssignment;
  ra_Outputs : list ResolvedOutput;
  ra_resolved : bool;
}.

Record Verifier := {
  v_cellID : string;
  v_keys : gmap string (list Z);
  v_objectPrefix : string;
  v_maxTTL : Duration;
  v_maxFutureSkew : Duration;
}.

Record VerifierOptions := {
  vo_CellID : string;
  vo_Keys : gmap string (list Z);
  vo_ObjectPrefix : string;
  vo_MaxTTL : Duration;
  vo_MaxFutureSkew : Duration;
}.

#[export] Instance SourceArtifact_eq_dec : EqDecision SourceArtifact.
Proof. solve_decision. Defined.
#[export] Instance OutputArtifact_eq_dec : EqDecision OutputArtifact.
Proof. solve_decision. Defined.
#[export] Instance Payload_eq_dec : EqDecision Payload.
Proof. solve_decision. Defined.
#[export] Instance Envelope_eq_dec : EqDecision Envelope.
Proof. solve_decision. Defined.

(** ** Text *)

Definition bucket_char (c : ascii) : bool := lower_dash c || is_char "." c.
Definition object_char (c : ascii) : bool := lower_name c || is_upper c || is_char "/" c.

(** [^s3://[a-z0-9][a-z0-9.-]{2,62}/[A-Za-z0-9._/-]+$] *)
Definition is_object_reference (s : string) : bool :=
  HasPrefix s "s3://" &&
  match Cut (TrimPrefix s "s3://") "/" with
  | Some (bucket, key) =>
      name_like lower_alnum bucket_char 62 bucket && (3 <=? len bucket) &&
      negb (String.eqb key "") && str_forall object_char key
  | None => false
  end.

(** [^lrail-cache-[0-9a-f]{64}$] *)
Definition is_cache_namespace (s : string) : bool :=
  HasPrefix s "lrail-cache-" && is_nonce (TrimPrefix s "lrail-cache-").

Definition validEgressHostname (value : string) : bool :=
  if negb (is_hostname value) || String.eqb value "localhost" || HasSuffix value ".localhost" then false
  else negb (is_ipv4 value).

Definition validRegistry (value : string) : bool :=
  match Cut value ":" with
  | Some (candidate, portText) =>
      match Atoi portText with
      | Some port => negb ((port <? 1) || (65535 <? port)) && validEgressHostname candidate
      | None => false
      end
  | None => validEgressHostname value
  end.

Definition boundedLockText (value : string) (allowEmpty : bool) : bool := boundedText value allowEmpty.

Definition safeContainerPath (value prefix : string) : bool :=
  (len value <=? BuildIR.MaxStringBytes) && IsAbs value && String.eqb (Clean value) value &&
  negb (String.eqb value "/") && HasPrefix value prefix.

Definition parseWholeSecond (value : string) : result Time :=
  match ParseRFC3339 value with
  | Some parsed =>
      if String.eqb value (FormatRFC3339 parsed) then Ok parsed
      else Err (assignmentError "assignment.timestamp" "not canonical")
  | None => Err (assignmentError "assignment.timestamp" "not canonical")
  end.

Definition lock_check (ok : bool) (message : string) : result unit :=
  if ok then Ok tt else Err (assignmentError "assignment.lock" message).

(** ** The definition lock *)

Section Lock.
Context `{GoText} `{!Codec ResolutionEvidence}.

Definition check_lock_argument (argument : NameValue) : result unit :=
  lock_check (is_argument_name (nv_Name argument) && boundedLockText (nv_Value argument) true) "build argument".

Definition check_lock_material (material : BaseMaterial) : result unit :=
  let* _ := lock_check (boundedLockText (RequestedRef material) false && boundedLockText (ResolvedRef material) false &&
    is_digest (bm_Digest material) && HasSuffix (RequestedRef material) ("@" +:+ bm_Digest material) &&
    HasSuffix (ResolvedRef material) ("@" +:+ bm_Digest material) && validRegistry (Registry material) &&
    slices_Contains ["curated"; "customer"] (Classification material) &&
    negb (length (Platforms material) =? 0)%nat && (length (Platforms material) <=? 32)%nat &&
    boundedLockText (SignatureIdentity material) false && is_digest (bm_ResolutionDigest material) &&
    (String.eqb (SBOMDigest material) "" || is_digest (SBOMDigest material)) &&
    (String.eqb (ProvenanceDigest material) "" || is_digest (ProvenanceDigest material))) "base material" in
  let* _ := each (fun platform => lock_check (boundedLockText platform false) "platform") (Platforms material) in
  match ResolutionDigest material with
  | Ok expected => lock_check (String.eqb expected (bm_ResolutionDigest material)) "resolution evidence"
  | Err _ => lock_check false "resolution evidence"
  end.

Definition check_lock_network (network : NetworkCapability) : result unit :=
  let* _ := lock_check (is_node_id (nc_NodeID network) &&
    slices_Contains ["none"; "packages"; "allowlist"; "private"] (nc_Profile network) &&
    (length (nc_Hosts network) <=? 128)%nat) "network capability" in
  let* _ := each (fun host => lock_check (validEgressHostname host) "network host") (nc_Hosts network) in
  let no_hosts := (length (nc_Hosts network) =? 0)%nat in
  if String.eqb (nc_Profile network) "none" then
    lock_check (no_hosts && String.eqb (nc_GatewayID network) "") "egress authority"
  else if String.eqb (nc_Profile network) "packages" || String.eqb (nc_Profile network) "allowlist" then
    lock_check (negb no_hosts && is_capability_name (nc_GatewayID network)) "gateway or hosts"
  else if String.eqb (nc_Profile network) "private" then
    lock_check (no_hosts && is_capability_name (nc_GatewayID network)) "private network"
  else Ok tt.

Definition check_lock_cache (cache : CacheCapability) : result unit :=
  lock_check (is_node_id (cc_NodeID cache) && is_capability_name (cc_Name cache) && safeContainerPath (cc_Target cache) "/" &&
    slices_Contains ["organization"; "project"] (cc_Scope cache) &&
    slices_Contains ["locked"; "private"; "shared"] (cc_Sharing cache) && is_cache_namespace (cc_Namespace cache)) "cache".

Definition check_lock_secret (secret : SecretCapability) : result unit :=
  lock_check (is_node_id (se_NodeID secret) && is_capability_name (se_Name secret) &&
    String.eqb (se_MountID secret) (se_Name secret) && safeContainerPath (se_Target secret) "/run/secrets/") "secret".

Definition check_lock_output (output : OutputLock) : result unit :=
  lock_check (is_output_name (ol_Name output) && slices_Contains ["oci_image"; "static_bundle"] (ol_Kind output) &&
    is_node_id (ol_StateID output) && is_digest (ol_LLBDigest output) && is_digest (ol_ConfigDigest output)) "output lock".

(** A loop that checks each item and then its key against the keys before it. *)
Fixpoint check_each {A} (body : A → result unit) (key : A → string) (seen : list string) (items : list A)
    : result (list string) :=
  match items with
  | [] => Ok seen
  | item :: rest =>
      let* _ := body item in
      let* _ := lock_check (negb (slices_Contains seen (key item))) "duplicate" in
      check_each body key (key item :: seen) rest
  end.

(** The same with two keys: the caches' nodes and namespaces, and the secrets'
    nodes and mounts. *)
Fixpoint check_each2 {A} (body : A → result unit) (key1 key2 : A → string) (seen1 seen2 : list string) (items : list A)
    : result (list string) :=
  match items with
  | [] => Ok seen1
  | item :: rest =>
      let* _ := body item in
      let* _ := lock_check (negb (slices_Contains seen1 (key1 item))) "duplicate node" in
      let* _ := lock_check (negb (slices_Contains seen2 (key2 item))) "duplicate" in
      check_each2 body key1 key2 (key1 item :: seen1) (key2 item :: seen2) rest
  end.

Definition validateLock (lock : DefinitionLock) : result unit :=
  if negb (dl_Version lock =? CurrentLockVersion) || negb (is_semantic_version (dl_CompilerVersion lock)) ||
     negb (is_digest (dl_IRDigest lock)) || negb (is_digest (dl_PolicyDigest lock)) ||
     negb (is_digest (dl_SourceSnapshot lock)) || negb (slices_Contains ["linux/amd64"; "linux/arm64"] (dl_TargetPlatform lock))
  then Err (assignmentError "assignment.lock" "core identity")
  else if (64 <? length (dl_BuildArguments lock))%nat || (BuildIR.MaxNodes <? length (dl_BaseMaterials lock))%nat ||
          (BuildIR.MaxNodes <? length (dl_Network lock))%nat || (BuildIR.MaxNodes <? length (dl_Caches lock))%nat ||
          (BuildIR.MaxNodes <? length (dl_Secrets lock))%nat || (length (dl_Outputs lock) =? 0)%nat ||
          (BuildIR.MaxOutputs <? length (dl_Outputs lock))%nat
  then Err (assignmentError "assignment.lock" "capability limits")
  else if is_err (ValidateSupplyChainPolicy (dl_SupplyChain lock))
  then Err (assignmentError "assignment.lock" "supply-chain policy")
  else
    let* _ := check_each check_lock_argument nv_Name [] (dl_BuildArguments lock) in
    let* _ := check_each check_lock_material RequestedRef [] (dl_BaseMaterials lock) in
    let* nodeIDs := check_each check_lock_network nc_NodeID [] (dl_Network lock) in
    let* nodeIDs := check_each2 check_lock_cache cc_NodeID cc_Namespace nodeIDs [] (dl_Caches lock) in
    let* _ := check_each2 check_lock_secret se_NodeID se_MountID nodeIDs [] (dl_Secrets lock) in
    let* _ := check_each check_lock_output ol_Name [] (dl_Outputs lock) in
    Ok tt.

End Lock.

(** ** Verification *)

(** A Go map literal evaluated left to right: later entries with an equal key
    replace earlier ones. *)
Definition map_literal (entries : list (string * string)) : gmap string string :=
  fold_left (fun m entry => <[entry.1 := entry.2]> m) entries ∅.

Section Verify.
Context `{GoText} `{!Codec Payload} `{!Codec DefinitionLock} `{!Codec ResolutionEvidence}.

Definition scope_ids (payload : Payload) : gmap string string :=
  map_literal [(p_BuildID payload, "bld"); (p_CellID payload, "cell"); (p_OrganizationID payload, "org");
               (p_ProjectID payload, "prj"); (p_OperationID payload, "op")].

Definition validateReference (objectPrefix reference : string) : result unit :=
  let '(pathPart, found) :=
    match Cut (TrimPrefix reference "s3://") "/" with Some (_, p) => (p, true) | None => ("", false) end in
  let invalidPath := negb found || Contains pathPart "//" ||
    existsb (fun segment => String.eqb segment "." || String.eqb segment "..") (Split pathPart "/") in
  if negb (is_object_reference reference) || negb (HasPrefix reference objectPrefix) || invalidPath
  then Err (assignmentError "assignment.object_ref" "outside the cell content prefix")
  else Ok tt.

Definition output_matches (output : OutputArtifact) (locked : OutputLock) : bool :=
  String.eqb (oa_Name output) (ol_Name locked) && String.eqb (oa_Kind output) (ol_Kind locked) &&
  String.eqb (oa_LLBDigest output) (ol_LLBDigest locked) && String.eqb (oa_ConfigDigest output) (ol_ConfigDigest locked) &&
  is_output_name (oa_Name output) && slices_Contains ["oci_image"; "static_bundle"] (oa_Kind output) &&
  is_digest (oa_LLBDigest output) && is_digest (oa_Head output) && is_digest (oa_ConfigDigest output).

(** The loop over outputs and the lock's outputs at the same index. *)
Fixpoint check_payload_outputs (objectPrefix : string) (seen : list string) (outputs : list OutputArtifact)
    (locked : list OutputLock) : result unit :=
  match outputs, locked with
  | output :: outputs', lock :: locked' =>
      if negb (output_matches output lock) then Err (assignmentError "assignment.outputs" "identity is inconsistent")
      else if slices_Contains seen (oa_Name output) then Err (assignmentError "assignment.outputs" "names must be unique")
      else
        let* _ := validateReference objectPrefix (oa_LLBRef output) in
        let* _ := validateReference objectPrefix (oa_ConfigRef output) in
        check_payload_outputs objectPrefix (oa_Name output :: seen) outputs' locked'
  | _, _ => Ok tt
  end.

Definition validatePayload (verifier : Verifier) (now : Time) (payload : Payload) : result unit :=
  if negb (p_Version payload =? CurrentAssignmentVersion) then Err (assignmentError "assignment.version" "unsupported")
  else if negb (map_forallb (fun value prefix => is_ok (validateID value prefix)) (scope_ids payload))
  then Err (assignmentError "assignment.scope" "invalid resource identity")
  else if negb (String.eqb (p_CellID payload) (v_cellID verifier))
  then Err (assignmentError "assignment.audience" "another build cell")
  else if (p_Generation payload =? 0) || negb (is_nonce (p_Nonce payload))
  then Err (assignmentError "assignment.replay_identity" "generation or nonce")
  else
    let* issuedAt := parseWholeSecond (p_IssuedAt payload) in
    let* expiresAt := parseWholeSecond (p_ExpiresAt payload) in
    if After issuedAt (Add now (v_maxFutureSkew verifier)) || negb (After expiresAt now) ||
       negb (After expiresAt issuedAt) || (v_maxTTL verifier <? Sub expiresAt issuedAt)
    then Err (assignmentError "assignment.expiry" "outside the accepted window")
    else match digestValue (p_Lock payload) with
    | Err _ => Err (assignmentError "assignment.definition_digest" "")
    | Ok lockDigest =>
        let source := p_Source payload in
        if negb (String.eqb (p_DefinitionDigest payload) lockDigest) || negb (is_digest (p_DefinitionDigest payload))
        then Err (assignmentError "assignment.definition_digest" "does not match")
        else if negb (String.eqb (sa_SnapshotDigest source) (dl_SourceSnapshot (p_Lock payload))) ||
                negb (is_digest (sa_ArchiveDigest source)) || (sa_SizeBytes source <=? 0) ||
                (Z.shiftl 1 30 <? sa_SizeBytes source)
        then Err (assignmentError "assignment.source" "inconsistent or outside limits")
        else
          let* _ := validateReference (v_objectPrefix verifier) (sa_ArchiveRef source) in
          if (length (p_Outputs payload) =? 0)%nat || (BuildIR.MaxOutputs <? length (p_Outputs payload))%nat ||
             negb (length (p_Outputs payload) =? length (dl_Outputs (p_Lock payload)))%nat
          then Err (assignmentError "assignment.outputs" "do not match the lock")
          else
            let* _ := check_payload_outputs (v_objectPrefix verifier) [] (p_Outputs payload) (dl_Outputs (p_Lock payload)) in
            validateLock (p_Lock payload)
    end.

Context `{!Ed25519}.

Definition NewVerifier (options : VerifierOptions) : result Verifier :=
  let* _ := validateID (vo_CellID options) "cell" in
  if (size (vo_Keys options) =? 0)%nat || (16 <? size (vo_Keys options))%nat
  then Err (assignmentError "assignment.key_set" "bounded public key set")
  else if negb (map_forallb (fun keyID key => is_capability_name keyID && (length key =? PublicKeySize)%nat) (vo_Keys options))
  then Err (assignmentError "assignment.key_set" "key identity or public key")
  else if negb (HasSuffix (vo_ObjectPrefix options) "/") || negb (is_object_reference (vo_ObjectPrefix options +:+ "probe"))
  then Err (assignmentError "assignment.object_prefix" "")
  else
    let maxTTL := if vo_MaxTTL options =? 0 then DefaultMaxAssignmentTTL else vo_MaxTTL options in
    let maxFutureSkew := if vo_MaxFutureSkew options =? 0 then DefaultMaxFutureSkew else vo_MaxFutureSkew options in
    if (maxTTL <=? 0) || (DefaultMaxAssignmentTTL <? maxTTL) || (maxFutureSkew <? 0) || (Minute <? maxFutureSkew)
    then Err (assignmentError "assignment.time_policy" "outside safety bounds")
    else Ok {| v_cellID := vo_CellID options; v_keys := vo_Keys options; v_objectPrefix := vo_ObjectPrefix options;
               v_maxTTL := maxTTL; v_maxFutureSkew := maxFutureSkew |}.

Definition Sign (payload : Payload) (keyID : string) (privateKey : list Z) : result Envelope :=
  if negb (is_capability_name keyID) || negb (length privateKey =? PrivateKeySize)%nat
  then Err (assignmentError "assignment.signing_key" "")
  else match marshal payload with
  | None => Err (Error "canonicalize assignment" "")
  | Some canonical =>
      Ok {| e_KeyID := keyID; e_Payload := payload; e_Signature := b64_encode (ed_Sign privateKey canonical) |}
  end.

Definition Verify (verifier : Verifier) (now : Time) (envelope : Envelope) : result VerifiedAssignment :=
  match v_keys verifier !! e_KeyID envelope with
  | None => Err (assignmentError "assignment.key_unknown" "")
  | Some key =>
      match marshal (e_Payload envelope) with
      | None => Err (assignmentError "assignment.canonical" "")
      | Some canonical =>
          match b64_decode (e_Signature envelope) with
          | None => Err (assignmentError "assignment.signature" "")
          | Some signature =>
              if negb (length signature =? SignatureSize)%nat || negb (ed_Verify key canonical signature)
              then Err (assignmentError "assignment.signature" "")
              else
                let* _ := validatePayload verifier now (e_Payload envelope) in
                Ok {| va_Payload := e_Payload envelope; va_PayloadDigest := bytesDigest canonical;
                      va_KeyID := e_KeyID envelope; va_verified := true |}
          end
      end
  end.

Definition validateProof (verified : VerifiedAssignment) : result unit :=
  if negb (va_verified verified) || String.eqb (va_KeyID verified) "" || negb (is_digest (va_PayloadDigest verified))
  then Err (assignmentError "assignment.proof" "absent")
  else match marshal (va_Payload verified) with
  | None => Err (assignmentError "assignment.proof" "changed")
  | Some canonical =>
      if String.eqb (bytesDigest canonical) (va_PayloadDigest verified) then Ok tt
      else Err (assignmentError "assignment.proof" "changed")
  end.

(** ** Resolution *)

Context `{!Buildkit} `{!AuthorityCodecs}.

Definition verifyDefinition (contents expectedHead : string) : result unit :=
  match unmarshal_definition contents with
  | None => Err (assignmentError "assignment.llb" "malformed")
  | Some wire =>
      if empty (d_Def wire) then Err (assignmentError "assignment.llb" "malformed")
      else match Head wire with
      | Some head => if String.eqb head expectedHead then Ok tt else Err (assignmentError "assignment.llb_head" "")
      | None => Err (assignmentError "assignment.llb_head" "")
      end
  end.

(** [store reference] is what the artifact store yields: the bytes of the object,
    or nothing when it cannot be opened; [complete] is whether reading up to the
    limit succeeds. *)
Definition readArtifact (store : string → option (string * bool)) (reference : string) (limit : Z) (expectedDigest : string)
    : result string :=
  match store reference with
  | None => Err (assignmentError "assignment.artifact_read" "")
  | Some (object, complete) =>
      let contents := str_take (Z.to_nat (limit + 1)) object in
      if negb complete || (limit <? len contents) || negb (String.eqb (bytesDigest contents) expectedDigest)
      then Err (assignmentError "assignment.artifact_digest" "")
      else Ok contents
  end.

Definition resolve_output (store : string → option (string * bool)) (output : OutputArtifact) : result ResolvedOutput :=
  let* definition := readArtifact store (oa_LLBRef output) MaxDefinitionBytes (oa_LLBDigest output) in
  let* _ := verifyDefinition definition (oa_Head output) in
  let* config := readArtifact store (oa_ConfigRef output) MaxConfigBytes (oa_ConfigDigest output) in
  Ok {| ro_Name := oa_Name output; ro_Kind := oa_Kind output; ro_Definition := definition; ro_Config := config |}.

Definition Resolve (verified : VerifiedAssignment) (store : string → option (string * bool)) : result ResolvedAssignment :=
  let* _ := validateProof verified in
  let* outputs := map_result (resolve_output store) (p_Outputs (va_Payload verified)) in
  if is_ok (AuditDefinitions (ro_Definition <$> outputs) (p_Lock (va_Payload verified)))
  then Ok {| ra_Verified := verified; ra_Outputs := outputs; ra_resolved := true |}
  else Err (assignmentError "assignment.llb_capability" "").

(** The loop of [ResolvedAssignment.Validate] over outputs and signed outputs. *)
Fixpoint check_resolved (outputs : list ResolvedOutput) (expected : list OutputArtifact) : result unit :=
  match outputs, expected with
  | output :: outputs', e :: expected' =>
      if negb (String.eqb (ro_Name output) (oa_Name e)) || negb (String.eqb (ro_Kind output) (oa_Kind e)) ||
         negb (String.eqb (bytesDigest (ro_Definition output)) (oa_LLBDigest e)) ||
         negb (String.eqb (bytesDigest (ro_Config output)) (oa_ConfigDigest e))
      then Err (assignmentError "assignment.resolved_outputs" "identity changed")
      else
        let* _ := verifyDefinition (ro_Definition output) (oa_Head e) in
        check_resolved outputs' expected'
  | _, _ => Ok tt
  end.

Definition Validate (resolved : ResolvedAssignment) : result unit :=
  if negb (ra_resolved resolved) then Err (assignmentError "assignment.proof" "absent")
  else
    let* _ := validateProof (ra_Verified resolved) in
    let payload := va_Payload (ra_Verified resolved) in
    if negb (length (ra_Outputs resolved) =? length (p_Outputs payload))%nat
    then Err (assignmentError "assignment.resolved_outputs" "set changed")
    else
      let* _ := check_resolved (ra_Outputs resolved) (p_Outputs payload) in
      if is_ok (AuditDefinitions (ro_Definition <$> ra_Outputs resolved) (p_Lock payload)) then Ok tt
      else Err (assignmentError "assignment.llb_capability" "").

(** ** codec.go *)

Context `{!Codec Envelope}.

(** [unmarshal] is a strict decode of one JSON value; it may read more texts than
    the canonical one. *)
Definition DecodeEnvelope (contents : string) : result Envelope :=
  if (len contents =? 0) || (MaxEnvelopeBytes <? len contents) then Err (assignmentError "assignment.envelope_size" "")
  else match unmarshal contents with
  | None => Err (assignmentError "assignment.envelope_json" "")
  | Some envelope =>
      match marshal envelope with
      | None => Err (assignmentError "assignment.envelope_canonical" "")
      | Some canonical =>
          if String.eqb contents canonical then Ok envelope
          else Err (assignmentError "assignment.envelope_canonical" "")
      end
  end.

Definition EncodeEnvelope (envelope : Envelope) : result string :=
  match marshal envelope with
  | None => Err (assignmentError "assignment.envelope_canonical" "")
  | Some contents =>
      if MaxEnvelopeBytes <? len contents then Err (assignmentError "assignment.envelope_canonical" "") else Ok contents
  end.

End Verify.

(** ** Lemmas on the lock *)

Lemma lock_check_Ok ok message u : lock_check ok message = Ok u → ok = true.
Proof. unfold lock_check. by destruct ok. Qed.

Lemma check_each_Ok {A} (body : A → result unit) (key : A → string) seen items seen' :
  check_each body key seen items = Ok seen' →
  Forall (fun x => body x = Ok tt) items ∧ NoDup (key <$> items) ∧ (∀ k, k ∈ key <$> items → k ∉ seen) ∧
  seen' = rev (key <$> items) ++ seen.
Proof.
  revert seen. induction items as [|x items IH]; intros seen Hc; simpl in Hc.
  { simplify_eq. split_and!; try constructor. set_solver. }
  destruct (body x) as [[]|] eqn:Hb; [|done]. simpl in Hc.
  destruct (lock_check _ _) eqn:Hd; [|done]. simpl in Hc. apply lock_check_Ok in Hd. bsimpl.
  apply IH in Hc as (Hf & Hnd & Hs & ->). split_and!.
  - by constructor.
  - simpl. constructor; [|done]. intros Hin. specialize (Hs _ Hin). set_solver.
  - intros k. simpl. rewrite elem_of_cons. intros [->|Hk]; [done|]. specialize (Hs _ Hk). set_solver.
  - simpl. by rewrite <- app_assoc.
Qed.

Lemma check_each2_Ok {A} (body : A → result unit) (key1 key2 : A → string) seen1 seen2 items seen' :
  check_each2 body key1 key2 seen1 seen2 items = Ok seen' →
  Forall (fun x => body x = Ok tt) items ∧ NoDup (key1 <$> items) ∧ NoDup (key2 <$> items) ∧
  (∀ k, k ∈ key1 <$> items → k ∉ seen1) ∧ (∀ k, k ∈ key2 <$> items → k ∉ seen2) ∧
  seen' = rev (key1 <$> items) ++ seen1.
Proof.
  revert seen1 seen2. induction items as [|x items IH]; intros seen1 seen2 Hc; simpl in Hc.
  { simplify_eq. split_and!; try constructor; set_solver. }
  destruct (body x) as [[]|] eqn:Hb; [|done]. simpl in Hc.
  destruct (lock_check (negb (slices_Contains seen1 _)) _) eqn:Hd1; [|done]. simpl in Hc.
  destruct (lock_check _ "duplicate") eqn:Hd2; [|done]. simpl in Hc. apply lock_check_Ok in Hd1, Hd2. bsimpl.
  apply IH in Hc as (Hf & Hnd1 & Hnd2 & Hs1 & Hs2 & ->). split_and!.
  - by constructor.
  - simpl. constructor; [|done]. intros Hin. specialize (Hs1 _ Hin). set_solver.
  - simpl. constructor; [|done]. intros Hin. specialize (Hs2 _ Hin). set_solver.
  - intros k. simpl. rewrite elem_of_cons. intros [->|Hk]; [done|]. specialize (Hs1 _ Hk). set_solver.
  - intros k. simpl. rewrite elem_of_cons. intros [->|Hk]; [done|]. specialize (Hs2 _ Hk). set_solver.
  - simpl. by rewrite <- app_assoc.
Qed.

(** A cache or secret target, and a network capability, the lock accepts. *)
Lemma safeContainerPath_contained value prefix :
  safeContainerPath value prefix = true → contained value ∧ HasPrefix value prefix = true.
Proof.
  unfold safeContainerPath, Clean. intros Hs. bsimpl. unfold IsAbs in *.
  match goal with Hp : HasPrefix value "/" = true |- _ => rewrite Hp in * end.
  split; [|done]. by apply Clean_rooted_contained.
Qed.

Definition network_locked (c : NetworkCapability) : Prop :=
  is_node_id (nc_NodeID c) = true ∧ Forall (fun h => validEgressHostname h = true) (nc_Hosts c) ∧
  ((nc_Profile c = "none" ∧ nc_Hosts c = [] ∧ nc_GatewayID c = "") ∨
   ((nc_Profile c = "packages" ∨ nc_Profile c = "allowlist") ∧ nc_Hosts c ≠ [] ∧ is_capability_name (nc_GatewayID c) = true) ∨
   (nc_Profile c = "private" ∧ nc_Hosts c = [] ∧ is_capability_name (nc_GatewayID c) = true)).

Lemma elem_of_rev {A} (x : A) l : x ∈ rev l ↔ x ∈ l.
Proof. rewrite !list_elem_of_In. symmetry. apply in_rev. Qed.

Lemma length_0 {A} (l : list A) : (length l =? 0)%nat = true → l = [].
Proof. by destruct l. Qed.

Lemma check_lock_network_Ok c u : check_lock_network c = Ok u → network_locked c.
Proof.
  unfold check_lock_network. intros Hc. destruct (lock_check _ "network capability") eqn:H1; [|done]. simpl in Hc.
  apply lock_check_Ok in H1. destruct (each _ _) as [v|] eqn:H2; [|done]. simpl in Hc.
  split; [by bsimpl|]. split.
  { apply each_ok_unit in H2. eapply Forall_impl; [exact H2|]. intros h Hh. by apply lock_check_Ok in Hh. }
  bsimpl. destruct (String.eqb_spec (nc_Profile c) "none") as [E|N1].
  { apply lock_check_Ok in Hc. bsimpl. left. split; [done|]. split; [|done]. by apply length_0, Nat.eqb_eq. }
  destruct (_ || _) eqn:E2.
  { apply lock_check_Ok in Hc. bsimpl. right; left. split; [done|]. split; [|done]. intros E. rewrite E in *. done. }
  destruct (String.eqb_spec (nc_Profile c) "private") as [E|N3].
  { apply lock_check_Ok in Hc. bsimpl. right; right. split; [done|]. split; [|done]. by apply length_0, Nat.eqb_eq. }
  bsimpl. set_solver.
Qed.

Lemma validateLock_Ok `{GoText} `{!Codec ResolutionEvidence} lock :
  validateLock lock = Ok tt →
  NoDup ((nc_NodeID <$> dl_Network lock) ++ (cc_NodeID <$> dl_Caches lock) ++ (se_NodeID <$> dl_Secrets lock)) ∧
  NoDup (cc_Namespace <$> dl_Caches lock) ∧ NoDup (se_MountID <$> dl_Secrets lock) ∧
  NoDup (ol_Name <$> dl_Outputs lock) ∧
  Forall network_locked (dl_Network lock) ∧
  Forall (fun c => contained (cc_Target c)) (dl_Caches lock) ∧
  Forall (fun c => contained (se_Target c) ∧ HasPrefix (se_Target c) "/run/secrets/" = true) (dl_Secrets lock).
Proof.
  unfold validateLock. intros Hv. destruct (_ || _); [done|]. destruct (_ || _); [done|]. destruct (is_err _); [done|].
  do 6 (match type of Hv with bind_result ?m _ = _ => let E := fresh "E" in destruct m eqn:E; [|done]; cbn [bind_result] in Hv end).
  apply check_each_Ok in E1 as (Hn & Hnd1 & _ & ->). rewrite app_nil_r in E2.
  apply check_each2_Ok in E2 as (Hc & Hnd2 & Hns & Hs1 & _ & ->).
  apply check_each2_Ok in E3 as (Hse & Hnd3 & Hm & Hs2 & _ & _). apply check_each_Ok in E4 as (_ & Ho & _).
  split_and!; try done.
  - rewrite !NoDup_app. split_and!; [done| |done| |done].
    + intros k Hk [Hk'|Hk']%elem_of_app.
      * apply (Hs1 _ Hk'). by rewrite elem_of_rev.
      * apply (Hs2 _ Hk'). apply elem_of_app. right. by rewrite elem_of_rev.
    + intros k Hk Hk'. apply (Hs2 _ Hk'). apply elem_of_app. left. by rewrite elem_of_rev.
  - eapply Forall_impl; [exact Hn|]. intros c. apply check_lock_network_Ok.
  - eapply Forall_impl; [exact Hc|]. intros c Hk. apply lock_check_Ok in Hk. bsimpl.
    by eapply safeContainerPath_contained.
  - eapply Forall_impl; [exact Hse|]. intros c Hk. apply lock_check_Ok in Hk. bsimpl.
    by eapply safeContainerPath_contained.
Qed.

(** ** Lemmas on references *)

Lemma validateReference_Ok objectPrefix reference u :
  validateReference objectPrefix reference = Ok u →
  is_object_reference reference = true ∧ HasPrefix reference objectPrefix = true ∧
  ∃ bucket pathPart, TrimPrefix reference "s3://" = bucket +:+ String "/" pathPart ∧ ContainsChar bucket "/" = false ∧
    Forall (fun segment => segment ≠ "." ∧ segment ≠ "..") (Split pathPart "/").
Proof.
  unfold validateReference. intros Hv. destruct (Cut _ _) as [[bucket pathPart]|] eqn:Hc.
  2: { rewrite orb_true_r in Hv. done. }
  destruct (_ || _) eqn:E; [done|]. apply Cut_Some in Hc as [Hc Hb]. bsimpl.
  split_and!; [done..|]. exists bucket, pathPart. split_and!; [done..|].
  match goal with Hx : existsb _ _ = false |- _ => rename Hx into Hex end.
  apply Forall_forall. intros segment Hin. rewrite <- not_true_iff_false, existsb_exists in Hex.
  destruct (decide (segment = ".")) as [->|]; [exfalso; apply Hex; exists "."; split; [by apply list_elem_of_In|done]|].
  destruct (decide (segment = "..")) as [->|]; [exfalso; apply Hex; exists ".."; split; [by apply list_elem_of_In|done]|].
  done.
Qed.

(** A text that is empty or ends in a slash does not join its last segment with
    what follows. *)
Lemma Split_dir dir rest :
  dir = "" ∨ HasSuffix dir "/" = true → ∃ segments, Split (dir +:+ rest) "/" = segments ++ Split rest "/".
Proof.
  intros [->|Hs]; [by exists []|]. apply HasSuffix_spec in Hs as [d ->]. rewrite str_app_assoc.
  change ("/" +:+ rest) with (String "/" rest). exists (Split d "/").
  induction d as [|c d IH]; [apply Split_cons_sep|]. simpl. rewrite IH. destruct (Ascii.eqb c "/"); [done|].
  destruct (Split d "/") eqn:Hd; [by apply Split_nonempty in Hd|done].
Qed.

(** An object prefix a verifier accepts names a bucket and a directory in it. *)
Definition good_prefix (objectPrefix : string) : Prop :=
  ∃ bucket dir, objectPrefix = "s3://" +:+ bucket +:+ "/" +:+ dir ∧ ContainsChar bucket "/" = false ∧
    (dir = "" ∨ HasSuffix dir "/" = true).

Lemma HasSuffix_app_inv s p q : HasSuffix (s +:+ p) q = true → p ≠ "" → HasSuffix p q = true ∨ (String.length p < String.length q)%nat.
Proof.
  intros Hs Hp. destruct (Nat.lt_ge_cases (String.length p) (String.length q)) as [?|Hle]; [by right|left].
  apply HasSuffix_spec in Hs as [r Hr]. apply HasSuffix_spec.
  revert r Hr. induction s as [|c s IH]; intros r Hr; [by exists r|]. destruct r as [|d r]; simpl in Hr.
  - exfalso. assert (String.length (String c (s +:+ p)) = String.length q) as E by (simpl in Hr; by rewrite <- Hr).
    simpl in E. rewrite str_length_app in E. lia.
  - injection Hr as _ Hr. eauto.
Qed.

Lemma str_app_split (a b c d : string) :
  a +:+ b = c +:+ d → (∃ e, a = c +:+ e ∧ d = e +:+ b) ∨ (∃ e, c = a +:+ e ∧ b = e +:+ d ∧ e ≠ "").
Proof.
  revert c. induction a as [|x a IH]; intros c Hac.
  - destruct c as [|y c]; [left; by exists ""|right]. exists (String y c). by split_and!.
  - destruct c as [|y c]; simpl in Hac; [left; exists (String x a); by split|].
    injection Hac as -> Hac. destruct (IH _ Hac) as [(e & -> & ->)|(e & -> & -> & Hne)]; [left|right]; exists e; by split_and!.
Qed.

Lemma object_prefix_good objectPrefix :
  HasSuffix objectPrefix "/" = true → is_object_reference (objectPrefix +:+ "probe") = true → good_prefix objectPrefix.
Proof.
  unfold is_object_reference. intros Hs Hr. apply andb_true_iff in Hr as [Hp Hr].
  apply HasPrefix_spec in Hp as [r Hr']. rewrite Hr', TrimPrefix_app in Hr.
  destruct (Cut r "/") as [[bucket key]|] eqn:Hc; [|done]. apply Cut_Some in Hc as [-> Hb]. clear Hr.
  replace ("s3://" +:+ bucket +:+ String "/" key) with (("s3://" +:+ bucket +:+ "/") +:+ key) in Hr'
    by (rewrite !str_app_assoc; done).
  destruct (str_app_split _ _ _ _ Hr') as [(dir & Ho & Hk)|(e & Ho & Hk & Hne)].
  - exists bucket, dir. rewrite Ho in Hs |- *. rewrite !str_app_assoc. split_and!; [done..|].
    destruct dir as [|c dir]; [by left|right]. destruct (HasSuffix_app_inv _ _ _ Hs) as [?|Hl]; [done|done|].
    simpl in Hl. lia.
  - exfalso. assert (ContainsChar e "/" = true) as Hin.
    { rewrite <- str_app_assoc in Ho. destruct (str_app_split _ _ _ _ Ho) as [(f & _ & ->)|(f & _ & Hf & _)].
      - by rewrite ContainsChar_app, orb_true_r.
      - destruct f as [|x f]; [simpl in Hf; by subst|]. injection Hf as -> Hf.
        destruct f; [|done]. simpl in Hf. by subst. }
    assert (ContainsChar "probe" "/" = true) as Hx by (rewrite Hk, ContainsChar_app, Hin; done). done.
Qed.

(** What a reference within a good prefix names: the prefix, then segments none of
    which is a dot segment. *)
Lemma reference_below objectPrefix reference u :
  good_prefix objectPrefix → validateReference objectPrefix reference = Ok u →
  ∃ rest, reference = objectPrefix +:+ rest ∧ Forall (fun segment => segment ≠ "." ∧ segment ≠ "..") (Split rest "/").
Proof.
  intros (bucket & dir & -> & Hb & Hdir) Hv. apply validateReference_Ok in Hv as (_ & Hp & b & path & Hc & Hnb & Hs).
  apply HasPrefix_spec in Hp as [rest ->]. exists rest. split; [done|].
  rewrite !str_app_assoc, TrimPrefix_app in Hc.
  change (bucket +:+ "/" +:+ dir +:+ rest) with (bucket +:+ String "/" (dir +:+ rest)) in Hc.
  assert (Cut (bucket +:+ String "/" (dir +:+ rest)) "/" = Cut (b +:+ String "/" path) "/") as E by (by rewrite Hc).
  rewrite !Cut_app in E by done. simplify_eq.
  destruct (Split_dir dir rest Hdir) as [segments Hsp]. rewrite Hsp in Hs. by apply Forall_app in Hs as [_ Hs].
Qed.

(** ** Lemmas on verification *)

Section VerifyLemmas.
Context `{GoText} `{!Codec Payload} `{!Codec DefinitionLock} `{!Codec ResolutionEvidence}.

Lemma check_payload_outputs_refs objectPrefix seen outputs locked u :
  check_payload_outputs objectPrefix seen outputs locked = Ok u → length outputs = length locked →
  Forall (fun o => is_ok (validateReference objectPrefix (oa_LLBRef o)) = true ∧
                   is_ok (validateReference objectPrefix (oa_ConfigRef o)) = true ∧
                   is_digest (oa_LLBDigest o) = true ∧ is_digest (oa_ConfigDigest o) = true) outputs ∧
  NoDup (oa_Name <$> outputs) ∧ (∀ n, n ∈ oa_Name <$> outputs → n ∉ seen).
Proof.
  revert seen locked. induction outputs as [|o outputs IH]; intros seen [|l locked] Hc Hl; try done; simpl in *.
  { split_and!; try constructor. set_solver. }
  destruct (output_matches o l) eqn:Hm; [|done]. simpl in Hc. destruct (slices_Contains seen _) eqn:Hs; [done|].
  destruct (validateReference _ (oa_LLBRef o)) eqn:H1; [|done]. simpl in Hc.
  destruct (validateReference _ (oa_ConfigRef o)) eqn:H2; [|done]. simpl in Hc.
  apply IH in Hc as (Hf & Hnd & Hnew); [|lia]. unfold output_matches in Hm. bsimpl. split_and!.
  - constructor; [|done]. rewrite H1, H2. done.
  - constructor; [|done]. intros Hin. specialize (Hnew _ Hin). set_solver.
  - intros n. rewrite elem_of_cons. intros [->|Hn]; [done|]. specialize (Hnew _ Hn). set_solver.
Qed.

(** What a payload the verifier accepts at [now] carries. *)
Record payload_accepted (verifier : Verifier) (now : Time) (payload : Payload) : Prop := {
  pa_audience : p_CellID payload = v_cellID verifier;
  pa_ids : map_forallb (fun value prefix => has_prefix value prefix) (scope_ids payload) = true;
  pa_replay : p_Generation payload ≠ 0 ∧ is_nonce (p_Nonce payload) = true;
  pa_window : ∃ issuedAt expiresAt,
    parseWholeSecond (p_IssuedAt payload) = Ok issuedAt ∧ parseWholeSecond (p_ExpiresAt payload) = Ok expiresAt ∧
    issuedAt ≤ now + v_maxFutureSkew verifier ∧ now < expiresAt ∧ issuedAt < expiresAt ∧
    Sub expiresAt issuedAt ≤ v_maxTTL verifier;
  pa_lock_digest : ∃ canonical, marshal (p_Lock payload) = Some canonical ∧ p_DefinitionDigest payload = bytesDigest canonical;
  pa_source : is_ok (validateReference (v_objectPrefix verifier) (sa_ArchiveRef (p_Source payload))) = true;
  pa_outputs : p_Outputs payload ≠ [] ∧ NoDup (oa_Name <$> p_Outputs payload) ∧
    Forall (fun o => is_ok (validateReference (v_objectPrefix verifier) (oa_LLBRef o)) = true ∧
                     is_ok (validateReference (v_objectPrefix verifier) (oa_ConfigRef o)) = true ∧
                     is_digest (oa_LLBDigest o) = true ∧ is_digest (oa_ConfigDigest o) = true) (p_Outputs payload);
  pa_lock : validateLock (p_Lock payload) = Ok tt;
}.

Lemma validatePayload_Ok verifier now payload :
  validatePayload verifier now payload = Ok tt → payload_accepted verifier now payload.
Proof.
  unfold validatePayload. intros Hv. passed Hv Hver. passed Hv Hids. passed Hv Haud. passed Hv Hrep.
  destruct (parseWholeSecond (p_IssuedAt payload)) as [issuedAt|] eqn:Hi; [|done]. cbn [bind_result] in Hv.
  destruct (parseWholeSecond (p_ExpiresAt payload)) as [expiresAt|] eqn:He; [|done]. cbn [bind_result] in Hv.
  passed Hv Hw. unfold digestValue in Hv. destruct (marshal (p_Lock payload)) as [canonical|] eqn:Hm; [|done].
  cbv zeta in Hv. passed Hv Hd. passed Hv Hs.
  destruct (validateReference _ (sa_ArchiveRef _)) eqn:Hsrc; [|done]. cbn [bind_result] in Hv. passed Hv Hlen.
  destruct (check_payload_outputs _ _ _ _) eqn:Hout; [|done]. cbn [bind_result] in Hv.
  unfold After, Add in Hw. bsimpl.
  apply check_payload_outputs_refs in Hout as (Hf & Hnd & _); [|done].
  split; try done.
  - apply map_forallb_true. intros. rewrite <- is_ok_validateID. eauto.
  - exists issuedAt, expiresAt. split_and!; try done; lia.
  - exists canonical. done.
  - by rewrite Hsrc.
  - split; [|done]. intros E. rewrite E in *. done.
Qed.

(** The five IDs have their own prefixes when they are distinct. *)
Lemma scope_ids_distinct payload :
  NoDup [p_BuildID payload; p_CellID payload; p_OrganizationID payload; p_ProjectID payload; p_OperationID payload] →
  map_forallb (fun value prefix => has_prefix value prefix) (scope_ids payload) = true →
  has_prefix (p_BuildID payload) "bld" = true ∧ has_prefix (p_CellID payload) "cell" = true ∧
  has_prefix (p_OrganizationID payload) "org" = true ∧ has_prefix (p_ProjectID payload) "prj" = true ∧
  has_prefix (p_OperationID payload) "op" = true.
Proof.
  intros Hnd Hall. rewrite map_forallb_true in Hall. unfold scope_ids, map_literal in Hall. simpl in Hall.
  rewrite !NoDup_cons, !not_elem_of_cons in Hnd. destruct_and!.
  split_and!; apply Hall; rewrite ?lookup_insert_ne by congruence; by rewrite lookup_insert_eq.
Qed.

Context `{!Ed25519} `{!Buildkit} `{!AuthorityCodecs}.

Lemma Verify_Ok verifier now envelope verified :
  Verify verifier now envelope = Ok verified →
  ∃ key canonical signature, v_keys verifier !! e_KeyID envelope = Some key ∧
    marshal (e_Payload envelope) = Some canonical ∧ b64_decode (e_Signature envelope) = Some signature ∧
    length signature = SignatureSize ∧ ed_Verify key canonical signature = true ∧
    validatePayload verifier now (e_Payload envelope) = Ok tt ∧
    verified = {| va_Payload := e_Payload envelope; va_PayloadDigest := bytesDigest canonical;
                  va_KeyID := e_KeyID envelope; va_verified := true |}.
Proof.
  unfold Verify. intros Hv. run_ok Hv. bsimpl. destruct a. eauto 20.
Qed.

Lemma readArtifact_Ok store reference limit expected contents :
  readArtifact store reference limit expected = Ok contents → bytesDigest contents = expected ∧ len contents ≤ limit.
Proof. unfold readArtifact. intros Hr. run_ok Hr. bsimpl. split; [done|lia]. Qed.

(** One resolved output against the signed one. *)
Definition output_intact (signed : OutputArtifact) (output : ResolvedOutput) : Prop :=
  ro_Name output = oa_Name signed ∧ ro_Kind output = oa_Kind signed ∧
  bytesDigest (ro_Definition output) = oa_LLBDigest signed ∧ bytesDigest (ro_Config output) = oa_ConfigDigest signed ∧
  verifyDefinition (ro_Definition output) (oa_Head signed) = Ok tt.

Lemma resolve_output_intact store signed output : resolve_output store signed = Ok output → output_intact signed output.
Proof.
  unfold resolve_output. intros Hr.
  destruct (readArtifact store (oa_LLBRef signed) _ _) as [definition|] eqn:R1; [|done]. cbn [bind_result] in Hr.
  destruct (verifyDefinition definition (oa_Head signed)) as [[]|] eqn:Hh; [|done]. cbn [bind_result] in Hr.
  destruct (readArtifact store (oa_ConfigRef signed) _ _) as [config|] eqn:R2; [|done]. cbn [bind_result] in Hr.
  apply readArtifact_Ok in R1 as [R1 _], R2 as [R2 _]. injection Hr as <-. done.
Qed.

Lemma check_resolved_intact signed outputs :
  Forall2 output_intact signed outputs → check_resolved outputs signed = Ok tt.
Proof.
  induction 1 as [|s o signed outputs (Hn & Hk & Hd & Hc & Hh) _ IH]; [done|]. cbn [check_resolved].
  rewrite Hn, Hk, Hd, Hc, !String.eqb_refl. cbn [negb orb]. by rewrite Hh.
Qed.

Lemma Resolve_Ok verified store resolved :
  Resolve verified store = Ok resolved →
  validateProof verified = Ok tt ∧ ra_Verified resolved = verified ∧ ra_resolved resolved = true ∧
  Forall2 output_intact (p_Outputs (va_Payload verified)) (ra_Outputs resolved) ∧
  AuditDefinitions (ro_Definition <$> ra_Outputs resolved) (p_Lock (va_Payload verified)) = Ok tt.
Proof.
  unfold Resolve. intros Hr. destruct (validateProof verified) as [[]|] eqn:Hp; [|done]. cbn [bind_result] in Hr.
  destruct (map_result _ _) as [outputs|] eqn:Ho; [|done]. cbn [bind_result] in Hr.
  destruct (AuditDefinitions _ _) as [[]|] eqn:Ha; [|done]. injection Hr as <-. split_and!; try done.
  apply map_result_Forall2 in Ho. eapply Forall2_impl; [exact Ho|]. apply resolve_output_intact.
Qed.

(** Two outputs whose definitions or configurations differ, with one digest. *)
Definition outputs_collide (o1 o2 : ResolvedOutput) : Prop :=
  collide (ro_Definition o1) (ro_Definition o2) ∨ collide (ro_Config o1) (ro_Config o2).

Lemma outputs_intact_same signed os1 os2 :
  Forall2 output_intact signed os1 → Forall2 output_intact signed os2 →
  os1 = os2 ∨ ∃ o1 o2, o1 ∈ os1 ∧ o2 ∈ os2 ∧ outputs_collide o1 o2.
Proof.
  intros H1' H2'. revert os2 H2'. induction H1' as [|s o1 signed os1 (Hn & Hk & Hd & Hc & _) _ IH];
    intros os2 H2'; inversion H2' as [|? o2 ? ? (Hn2 & Hk2 & Hd2 & Hc2 & _) Hf]; subst; [by left|].
  destruct (IH _ Hf) as [->|(o & o' & ? & ? & ?)]; [|right; exists o, o'; split_and!; [by constructor..|done]].
  destruct (bytesDigest_same (ro_Definition o1) (ro_Definition o2)) as [E1|]; [congruence| |right; exists o1, o2; split_and!; [constructor..|by left]].
  destruct (bytesDigest_same (ro_Config o1) (ro_Config o2)) as [E2|]; [congruence| |right; exists o1, o2; split_and!; [constructor..|by right]].
  left. destruct o1, o2. simpl in *. congruence.
Qed.

End VerifyLemmas.

(** ** Samples *)

Definition sample_object (name : string) : string := "s3://artifacts/cells/" +:+ name.

Definition sample_id (prefix : string) : string := prefix +:+ "_018bcfe5-687b-7bab-abab-abababababab".

Definition llb_digest : string := Eval vm_compute in bytesDigest "llb".
Definition config_digest : string := Eval vm_compute in bytesDigest "config".
Definition json_digest : string := Eval vm_compute in bytesDigest "json".
Definition tar_digest : string := Eval vm_compute in bytesDigest "tar".
Definition sample_nonce : string := Eval vm_compute in hex_bytes (Sum256 "nonce").

Definition sample_lock : DefinitionLock :=
  {| dl_Version := CurrentLockVersion; dl_CompilerVersion := "1.2.3"; dl_IRDigest := sample_digest "a";
     dl_PolicyDigest := sample_digest "b"; dl_SourceSnapshot := sample_digest "c";
     dl_TargetPlatform := "linux/amd64"; dl_BuildArguments := []; dl_BaseMaterials := [];
     dl_Network := [sample_network];
     dl_Caches := []; dl_Secrets := []; dl_SupplyChain := SupplyChain (sort_policy sample_policy);
     dl_Outputs := [{| ol_Name := "web"; ol_Kind := "oci_image"; ol_StateID := "n1";
                       ol_LLBDigest := llb_digest; ol_ConfigDigest := config_digest |}] |}.

Definition sample_payload (organization : string) : Payload :=
  {| p_Version := 1; p_BuildID := sample_id "bld"; p_CellID := sample_id "cell"; p_OrganizationID := organization;
     p_ProjectID := sample_id "prj"; p_OperationID := sample_id "op"; p_Generation := 1;
     p_Nonce := sample_nonce; p_IssuedAt := "2026-01-01T00:00:00Z"; p_ExpiresAt := "2026-01-01T00:30:00Z";
     p_DefinitionDigest := json_digest; p_Lock := sample_lock;
     p_Source := {| sa_SnapshotDigest := sample_digest "c"; sa_ArchiveDigest := tar_digest;
                    sa_ArchiveRef := sample_object "source.tar"; sa_SizeBytes := 3 |};
     p_Outputs := [{| oa_Name := "web"; oa_Kind := "oci_image"; oa_LLBDigest := llb_digest; oa_Head := run_digest;
                      oa_LLBRef := sample_object "web.llb"; oa_ConfigDigest := config_digest;
                      oa_ConfigRef := sample_object "web.json" |}] |}.

Definition sample_private_key : list Z := repeat 7 64.

Definition sample_options : VerifierOptions :=
  {| vo_CellID := sample_id "cell"; vo_Keys := {["cell-key" := @ed_public toy_ed25519 sample_private_key]};
     vo_ObjectPrefix := "s3://artifacts/cells/"; vo_MaxTTL := 0; vo_MaxFutureSkew := 0 |}.

Definition sample_now : Time := match ParseRFC3339 "2026-01-01T00:05:00Z" with Some t => t | None => 0 end.

Definition sample_verifier : Verifier :=
  {| v_cellID := sample_id "cell"; v_keys := {["cell-key" := @ed_public toy_ed25519 sample_private_key]};
     v_objectPrefix := "s3://artifacts/cells/"; v_maxTTL := Hour; v_maxFutureSkew := 30 * Second |}.

Definition sample_store (reference : string) : option (string * bool) :=
  if String.eqb reference (sample_object "web.llb") then Some ("llb", true)
  else if String.eqb reference (sample_object "web.json") then Some ("config", true) else None.

Definition lock_codec : Codec DefinitionLock := single_codec sample_lock.
Definition payload_codec : Codec Payload := single_codec (sample_payload (sample_id "org")).
Definition no_evidence : Codec ResolutionEvidence :=
  {| marshal _ := None; unmarshal _ := None; unmarshal_marshal := ltac:(done) |}.

(** ** Theorems *)

Section Theorems.
Context `{GoText} `{!Codec Payload} `{!Codec DefinitionLock} `{!Codec ResolutionEvidence} `{!Ed25519}.

(** C8: What [Verify] returns is authentic and current.  The payload's canonical
    bytes carry a signature that verifies under the configured key the envelope
    names; the payload is addressed to this cell, inside its lifetime, bound to
    its lock by digest, with confined references and a valid lock
    ([payload_accepted]); and the proof digest is the payload's, so the proof holds. *)
Theorem verify_authentic verifier now envelope verified :
  Verify verifier now envelope = Ok verified →
  va_Payload verified = e_Payload envelope ∧ payload_accepted verifier now (va_Payload verified) ∧
  ∃ key canonical signature, v_keys verifier !! e_KeyID envelope = Some key ∧
    marshal (va_Payload verified) = Some canonical ∧ b64_decode (e_Signature envelope) = Some signature ∧
    ed_Verify key canonical signature = true ∧ va_PayloadDigest verified = bytesDigest canonical ∧
    (va_KeyID verified ≠ "" → validateProof verified = Ok tt).
Proof.
  intros Hv. apply Verify_Ok in Hv as (key & canonical & signature & Hk & Hm & Hs & _ & He & Hp & ->). simpl.
  split; [done|]. split; [by apply validatePayload_Ok|]. exists key, canonical, signature. split_and!; try done.
  intros Hne. unfold validateProof. cbn [va_verified va_KeyID va_PayloadDigest va_Payload]. apply String.eqb_neq in Hne.
  by rewrite Hne, bytesDigest_is_digest, Hm, String.eqb_refl.
Qed.

(** Signing and verifying agree.  An envelope [Sign] makes with a key whose
    public half the verifier holds is verified whenever its payload is valid. *)
Theorem sign_verify verifier now payload keyID privateKey envelope :
  v_keys verifier !! keyID = Some (ed_public privateKey) → Sign payload keyID privateKey = Ok envelope →
  validatePayload verifier now payload = Ok tt →
  ∃ canonical, marshal payload = Some canonical ∧
    Verify verifier now envelope = Ok {| va_Payload := payload; va_PayloadDigest := bytesDigest canonical;
                                         va_KeyID := keyID; va_verified := true |}.
Proof.
  intros Hk Hs Hp. unfold Sign in Hs. passed Hs Hlen. destruct (marshal payload) as [canonical|] eqn:Hm; [|done].
  injection Hs as <-. exists canonical. split; [done|]. unfold Verify. simpl. rewrite Hk, Hm. bsimpl.
  destruct (ed_Sign_bytes privateKey canonical) as [Hl Hb]; [done|].
  rewrite b64_decode_encode by done. rewrite Hl, ed_Verify_Sign by done. simpl. by rewrite Hp.
Qed.

(** References stay below the cell's object prefix.  Every object an accepted
    assignment names is the configured prefix followed by a key none of whose
    segments is "." or "..". *)
Theorem references_confined options verifier now envelope verified reference :
  NewVerifier options = Ok verifier → Verify verifier now envelope = Ok verified →
  reference ∈ sa_ArchiveRef (p_Source (va_Payload verified)) ::
    (oa_LLBRef <$> p_Outputs (va_Payload verified)) ++ (oa_ConfigRef <$> p_Outputs (va_Payload verified)) →
  ∃ rest, reference = vo_ObjectPrefix options +:+ rest ∧ Forall (fun segment => segment ≠ "." ∧ segment ≠ "..") (Split rest "/").
Proof.
  intros Hn Hv Hin. apply Verify_Ok in Hv as (key & canonical & signature & _ & _ & _ & _ & _ & Hp & ->). simpl in *.
  apply validatePayload_Ok in Hp as [_ _ _ _ _ Hsrc (_ & _ & Hout)].
  assert (v_objectPrefix verifier = vo_ObjectPrefix options ∧ good_prefix (vo_ObjectPrefix options)) as [Heq Hg].
  { unfold NewVerifier in Hn. destruct (validateID _ _); [|done]. cbn [bind_result] in Hn. passed Hn N1. passed Hn N2.
    passed Hn N3. cbv zeta in Hn. passed Hn N4. injection Hn as <-. simpl. bsimpl. split; [done|]. by apply object_prefix_good. }
  rewrite Heq in *. assert (is_ok (validateReference (vo_ObjectPrefix options) reference) = true) as Hr.
  { rewrite Forall_forall in Hout. rewrite elem_of_cons, elem_of_app, !list_elem_of_fmap in Hin.
    destruct Hin as [->|[(o & -> & Ho)|(o & -> & Ho)]]; [done|by apply Hout..]. }
  destruct (validateReference (vo_ObjectPrefix options) reference) eqn:E; [|done]. by eapply reference_below.
Qed.

(** The lock of an accepted payload grants each node one capability: network,
    cache and secret capabilities belong to pairwise distinct nodes, cache
    namespaces, secret mounts and output names are unique, cache targets are
    contained paths and secret targets lie below /run/secrets, and a network
    capability names hosts and a gateway exactly when its profile uses them. *)
Theorem lock_capabilities_scoped verifier now payload :
  validatePayload verifier now payload = Ok tt →
  let lock := p_Lock payload in
  NoDup ((nc_NodeID <$> dl_Network lock) ++ (cc_NodeID <$> dl_Caches lock) ++ (se_NodeID <$> dl_Secrets lock)) ∧
  NoDup (cc_Namespace <$> dl_Caches lock) ∧ NoDup (se_MountID <$> dl_Secrets lock) ∧ NoDup (ol_Name <$> dl_Outputs lock) ∧
  Forall network_locked (dl_Network lock) ∧ Forall (fun c => contained (cc_Target c)) (dl_Caches lock) ∧
  Forall (fun c => contained (se_Target c) ∧ HasPrefix (se_Target c) "/run/secrets/" = true) (dl_Secrets lock).
Proof. intros Hp. apply validatePayload_Ok in Hp as [_ _ _ _ _ _ _ Hl]. by apply validateLock_Ok. Qed.

(** Resource IDs are checked by kind when they are distinct.  The check walks a
    map from ID to kind, so it holds each ID to its kind only if no two of the
    payload's five IDs are equal. *)
Theorem scope_ids_checked verifier now payload :
  validatePayload verifier now payload = Ok tt →
  NoDup [p_BuildID payload; p_CellID payload; p_OrganizationID payload; p_ProjectID payload; p_OperationID payload] →
  has_prefix (p_BuildID payload) "bld" = true ∧ has_prefix (p_CellID payload) "cell" = true ∧
  has_prefix (p_OrganizationID payload) "org" = true ∧ has_prefix (p_ProjectID payload) "prj" = true ∧
  has_prefix (p_OperationID payload) "op" = true.
Proof. intros Hp Hnd. apply validatePayload_Ok in Hp as [_ Hids]. by apply scope_ids_distinct. Qed.

Context `{!Buildkit} `{!AuthorityCodecs}.

(** C19: The artifact store is not trusted.  What [Resolve] returns passes
    [Validate]: every output has the signed name, kind, definition and
    configuration digests and definition head; and whatever another store serves,
    the resolved assignment is the same, unless SHA-256 collides on the definitions or
    the configurations of two of their outputs. *)
Theorem resolve_integrity verified store resolved :
  Resolve verified store = Ok resolved →
  Validate resolved = Ok tt ∧ Forall2 output_intact (p_Outputs (va_Payload verified)) (ra_Outputs resolved) ∧
  ∀ other resolved', Resolve verified other = Ok resolved' →
    resolved' = resolved ∨ ∃ o' o, o' ∈ ra_Outputs resolved' ∧ o ∈ ra_Outputs resolved ∧ outputs_collide o' o.
Proof.
  intros Hr. apply Resolve_Ok in Hr as (Hp & Hver & Hres & Hf & Ha). split_and!; [|done|].
  - unfold Validate. rewrite Hres, Hver, Hp. cbn [negb bind_result]. rewrite (Forall2_length _ _ _ Hf), Nat.eqb_refl.
    cbn [negb]. rewrite check_resolved_intact by done. cbn [bind_result]. by rewrite Ha.
  - intros other resolved' Hr'. apply Resolve_Ok in Hr' as (_ & Hver' & Hres' & Hf' & _).
    destruct (outputs_intact_same _ _ _ Hf' Hf) as [Heq|]; [left|by right].
    destruct resolved, resolved'. simpl in *. congruence.
Qed.

(** C9: What runs in the cell is confined by what was signed.  In every definition of
    a verified and resolved assignment each execution is bound to a network
    capability of the signed lock: with profile "none" it has no network and no
    proxy, with another profile it has a gateway and reaches the network only
    through the policy proxy; and it mounts nothing but bind and tmpfs mounts,
    signed secrets below /run/secrets and signed caches at contained paths. *)
Theorem executions_confined verifier now envelope verified store resolved output operation md exec :
  Verify verifier now envelope = Ok verified → Resolve verified store = Ok resolved → output ∈ ra_Outputs resolved →
  vertex (ro_Definition output) operation md → op_Op operation = Some (Op_Exec exec) →
  let lock := p_Lock (e_Payload envelope) in
  ∃ x meta network, exec = Some x ∧ ex_Meta x = Some meta ∧ ex_Security x = SecurityMode_SANDBOX ∧ bound_to lock md network ∧
    (nc_Profile network = "none" → ex_Network x = NetMode_NONE ∧ me_ProxyEnv meta = None) ∧
    (nc_Profile network ≠ "none" → is_capability_name (nc_GatewayID network) = true ∧ ex_Network x = NetMode_UNSET ∧
       me_ProxyEnv meta = Some {| px_HttpProxy := BuildEgressProxyURL; px_HttpsProxy := BuildEgressProxyURL;
                                  px_FtpProxy := ""; px_NoProxy := ""; px_AllProxy := "" |}) ∧
    ∀ m, m ∈ ex_Mounts x → ∃ mount, m = Some mount ∧
      (mt_MountType mount = MountType_BIND ∨ mt_MountType mount = MountType_TMPFS ∨
       (∃ secret, secret_mount lock mount secret ∧ contained (mt_Dest mount) ∧ HasPrefix (mt_Dest mount) "/run/secrets/" = true) ∨
       (∃ cache, cache_mount lock mount cache ∧ contained (mt_Dest mount))).
Proof.
  intros Hv Hr Hout Hvertex Hop lock. apply Verify_Ok in Hv as (key & canonical & signature & _ & _ & _ & _ & _ & Hp & ->).
  apply validatePayload_Ok in Hp as [_ _ _ _ _ _ _ Hl]. apply validateLock_Ok in Hl as (_ & _ & _ & _ & Hnet & Hcache & Hsecret).
  apply Resolve_Ok in Hr as (_ & _ & _ & _ & Ha). apply AuditDefinitions_within in Ha. cbn [va_Payload] in Ha. fold lock in Ha, Hnet, Hcache, Hsecret.
  destruct (wl_granted _ _ Ha (ro_Definition output) operation md) as (_ & _ & Hg); [by apply list_elem_of_fmap_2 | done |].
  rewrite Hop in Hg. destruct Hg as (x & -> & Hsec & _ & _ & Hm & meta & network & Hmeta & Hbound & _ & _ & _ & _ & _ & Hnone & Hsome).
  rewrite Forall_forall in Hnet. rewrite Forall_forall in Hcache. rewrite Forall_forall in Hsecret. pose proof (Hnet _ (proj1 Hbound)) as (Hid & _ & Hprofile).
  assert (Hspace : ContainsChar (nc_Profile network) " " = false).
  { by destruct Hprofile as [(-> & _)|[([-> | ->] & _)|(-> & _)]]. }
  rewrite networkProfileFromName_vertex in Hnone by done. rewrite networkProfileFromName_vertex in Hsome by done.
  exists x, meta, network. split_and!; try done.
  - intros Hne. split; [|by apply Hsome]. by destruct Hprofile as [(? & _)|[(_ & _ & ?)|(_ & _ & ?)]].
  - intros m Hin. rewrite Forall_forall in Hm. destruct (Hm m Hin) as (mount & -> & Hkind). exists mount. split; [done|].
    destruct Hkind as [?|[?|[(secret & Hs)|(cache & Hc)]]]; [by left|by right; left|right; right; left|right; right; right].
    + exists secret. pose proof Hs as (Hin' & _ & -> & _). split; [done|]. by apply Hsecret.
    + exists cache. pose proof Hc as (Hin' & _ & -> & _). split; [done|]. by apply Hcache.
Qed.

Context `{!Codec Envelope}.

(** Envelopes have one encoding: [DecodeEnvelope] accepts exactly the nonempty
    bytes [EncodeEnvelope] writes for the envelope it returns. *)
Theorem envelope_canonical contents envelope :
  DecodeEnvelope contents = Ok envelope ↔ contents ≠ "" ∧ EncodeEnvelope envelope = Ok contents.
Proof.
  unfold DecodeEnvelope, EncodeEnvelope. split.
  - intros Hd. passed Hd Hl. destruct (unmarshal contents) as [e|]; [|done]. destruct (marshal e) as [c|] eqn:Hm; [|done].
    destruct (String.eqb_spec contents c) as [<-|]; [|done]. injection Hd as <-. rewrite Hm. bsimpl.
    rewrite (proj2 (Z.ltb_ge _ _)) by lia. split; [|done]. intros ->. done.
  - intros [Hne He]. destruct (marshal envelope) as [c|] eqn:Hm; [|done]. destruct (_ <? _) eqn:Hl; [done|].
    injection He as ->. rewrite (unmarshal_marshal _ _ Hm), Hm, String.eqb_refl, Hl, orb_false_r.
    destruct contents; [done|]. rewrite (proj2 (Z.eqb_neq _ _)); [done|]. unfold len. simpl. lia.
Qed.

End Theorems.

(** ** Witnesses *)

Definition sample_envelope : Envelope :=
  {| e_KeyID := "cell-key"; e_Payload := sample_payload (sample_id "org");
     e_Signature := b64_encode (@ed_Sign toy_ed25519 sample_private_key "json") |}.

Definition sample_verified : VerifiedAssignment :=
  {| va_Payload := sample_payload (sample_id "org"); va_PayloadDigest := json_digest; va_KeyID := "cell-key"; va_verified := true |}.

Definition sample_resolved : ResolvedAssignment :=
  {| ra_Verified := sample_verified; ra_resolved := true;
     ra_Outputs := [{| ro_Name := "web"; ro_Kind := "oci_image"; ro_Definition := "llb"; ro_Config := "config" |}] |}.

Lemma verify_authentic_witness :
  @payload_accepted plain_text lock_codec no_evidence sample_verifier sample_now (sample_payload (sample_id "org")).
Proof.
  apply (@verify_authentic plain_text payload_codec lock_codec no_evidence toy_ed25519
           sample_verifier sample_now sample_envelope sample_verified).
  vm_compute. reflexivity.
Defined.

Lemma sign_verify_witness :
  ∃ canonical, @marshal _ payload_codec (sample_payload (sample_id "org")) = Some canonical ∧
    @Verify plain_text payload_codec lock_codec no_evidence toy_ed25519 sample_verifier sample_now sample_envelope =
    Ok {| va_Payload := sample_payload (sample_id "org"); va_PayloadDigest := bytesDigest canonical;
          va_KeyID := "cell-key"; va_verified := true |}.
Proof.
  apply (@sign_verify plain_text payload_codec lock_codec no_evidence toy_ed25519
           sample_verifier sample_now _ "cell-key" sample_private_key); vm_compute; reflexivity.
Defined.

Lemma references_confined_witness :
  ∃ rest, sample_object "web.llb" = vo_ObjectPrefix sample_options +:+ rest ∧
    Forall (fun segment => segment ≠ "." ∧ segment ≠ "..") (Split rest "/").
Proof.
  apply (@references_confined plain_text payload_codec lock_codec no_evidence toy_ed25519
           sample_options sample_verifier sample_now sample_envelope sample_verified).
  - vm_compute. reflexivity.
  - vm_compute. reflexivity.
  - apply list_elem_of_lookup. exists 1%nat. reflexivity.
Defined.

Lemma lock_capabilities_scoped_witness : Forall network_locked (dl_Network sample_lock).
Proof.
  apply (@lock_capabilities_scoped plain_text lock_codec no_evidence sample_verifier sample_now
           (sample_payload (sample_id "org"))).
  vm_compute. reflexivity.
Defined.

Lemma scope_ids_checked_witness : @has_prefix plain_text (sample_id "org") "org" = true.
Proof.
  apply (@scope_ids_checked plain_text lock_codec no_evidence sample_verifier sample_now (sample_payload (sample_id "org"))).
  - vm_compute. reflexivity.
  - apply (bool_decide_eq_true_1 _). vm_compute. reflexivity.
Defined.

Lemma resolve_integrity_witness : @Validate payload_codec toy_buildkit toy_authorities sample_resolved = Ok tt.
Proof.
  apply (@resolve_integrity payload_codec toy_buildkit toy_authorities sample_verified sample_store sample_resolved).
  vm_compute. reflexivity.
Defined.

Lemma executions_confined_witness :
  ∃ x meta network, sample_exec [] = x ∧ ex_Meta x = Some meta ∧
    bound_to sample_lock (d_Metadata (toy_definition ["source"; "run"; "run-output"] run_digest) !! run_digest) network.
Proof.
  destruct (@executions_confined plain_text payload_codec lock_codec no_evidence toy_ed25519 toy_buildkit toy_authorities
              sample_verifier sample_now sample_envelope sample_verified sample_store sample_resolved
              {| ro_Name := "web"; ro_Kind := "oci_image"; ro_Definition := "llb"; ro_Config := "config" |}
              (on_inputs [source_digest] (Some (Op_Exec (Some (sample_exec [])))))
              (d_Metadata (toy_definition ["source"; "run"; "run-output"] run_digest) !! run_digest) (Some (sample_exec [])))
    as (x & meta & network & E & Hmeta & _ & Hbound & _).
  - vm_compute. reflexivity.
  - vm_compute. reflexivity.
  - left.
  - exists (toy_definition ["source"; "run"; "run-output"] run_digest), "run". split; [reflexivity|].
    split; [apply list_elem_of_lookup; by exists 1%nat|]. split; reflexivity.
  - reflexivity.
  - exists x, meta, network. injection E as E. done.
Defined.

Lemma envelope_canonical_witness : @DecodeEnvelope (single_codec sample_envelope) "json" = Ok sample_envelope.
Proof. apply (@envelope_canonical (single_codec sample_envelope)). split; [done|]. vm_compute. reflexivity. Defined.

(** An organization ID equal to the project ID passes, although it is not an
    organization's: its entry of the map is replaced by the project's. *)
Example organization_may_be_project :
  @validatePayload plain_text lock_codec no_evidence sample_verifier sample_now (sample_payload (sample_id "prj")) = Ok tt ∧
  @has_prefix plain_text (p_OrganizationID (sample_payload (sample_id "prj"))) "org" = false.
Proof. split; vm_compute; reflexivity. Qed.

End Assignment.
