(* ===== verification/BuildWorker.v ===== *)
(** * Worker results and cleanup (build-plane/internal/buildworker)

    The phases, reports and results the build controller stores (types.go,
    cleanup.go), and [ResidueCleaner.Cleanup]. *)

From S2P Require Import Prelude Text.
From stdpp Require Import pretty.

Open Scope Z_scope.

Module BuildWorker.

(** ** Phases: a Go string type and its constants *)

Abbreviation Phase := string (only parsing).

Definition PhaseAccepted : Phase := "accepted".
Definition PhaseResolving : Phase := "resolving".
Definition PhaseAllocating : Phase := "allocating".
Definition PhaseMaterializing : Phase := "materializing".
Definition PhaseSolving : Phase := "solving".
Definition PhaseExporting : Phase := "exporting".
Definition PhaseRetrying : Phase := "retrying".
Definition PhaseCanceling : Phase := "canceling".
Definition PhaseCleaning : Phase := "cleaning".
Definition PhaseComplete : Phase := "complete".
Definition PhaseFailed : Phase := "failed".
Definition PhaseCanceled : Phase := "canceled".
Definition PhaseQuarantined : Phase := "quarantined".

(** ** Cleanup reports *)

Abbreviation CleanupStatus := string (only parsing).

Definition CleanupClean : CleanupStatus := "clean".
Definition CleanupQuarantined : CleanupStatus := "quarantined".

Record Residue := { res_Kind : string; res_Target : string; res_Detail : string }.

Record CleanupReport := {
  cl_BuildID : string;
  cl_Status : CleanupStatus;
  cl_Residue : list Residue;
  cl_RemovedPaths : list string;
  cl_QuarantineReason : string;
}.

(** The zero value a failed call leaves in a report. *)
Definition zero_report : CleanupReport :=
  {| cl_BuildID := ""; cl_Status := ""; cl_Residue := []; cl_RemovedPaths := []; cl_QuarantineReason := "" |}.

(** [strings.Join(parts, "; ")] *)
Fixpoint join_reasons (parts : list string) : string :=
  match parts with
  | [] => ""
  | [p] => p
  | p :: parts' => p +:+ "; " +:+ join_reasons parts'
  end.

Definition cleanupReason (scrubFailed inspectFailed : bool) (residue : list Residue) : string :=
  join_reasons
    ((if scrubFailed then ["scrub failed"] else []) ++
     (if inspectFailed then ["inspection failed"] else []) ++
     (if (0 <? length residue)%nat then ["residue count " +:+ pretty (length residue)] else [])).

(** [removed, scrubErr], [residue, inspectErr] are what the scrubber and the
    inspector return for the build; [quarantine] is whether the quarantiner,
    told the reason, succeeds. *)
Definition Cleanup (removed : list string) (scrubFailed : bool) (residue : list Residue)
    (inspectFailed : bool) (quarantine : string → bool) (buildID : string) : CleanupReport :=
  if negb scrubFailed && negb inspectFailed && (length residue =? 0)%nat then
    {| cl_BuildID := buildID; cl_Status := CleanupClean; cl_Residue := residue;
       cl_RemovedPaths := removed; cl_QuarantineReason := "" |}
  else
    let reason := cleanupReason scrubFailed inspectFailed residue in
    {| cl_BuildID := buildID; cl_Status := CleanupQuarantined; cl_Residue := residue;
       cl_RemovedPaths := removed;
       cl_QuarantineReason := if quarantine reason then reason else reason +:+ "; quarantine failed" |}.

(** ** Results *)

Record EvidenceReference := {
  ev_Kind : string;
  ev_Reference : string;
  ev_ManifestDigest : string;
  ev_PayloadDigest : string;
}.

(** [Evidence] is a Go array of five references. *)
Record SupplyChainResult := {
  sc_PolicyState : string;
  sc_ScanState : string;
  sc_PolicyDigest : string;
  sc_SignerKeyID : string;
  sc_SignerKeyVersion : Z;
  sc_SignerPublicKeyDigest : string;
  sc_Evidence : list EvidenceReference;
}.

Record OutputResult := {
  o_Name : string;
  o_Kind : string;
  o_ArtifactRef : string;
  o_ArtifactPath : string;
  o_ArtifactDigest : string;
  o_ArtifactSize : Z;
  o_ConfigDigest : string;
  o_ManifestDigest : string;
  o_PublicationManifestRef : string;
  o_LayerDigests : list string;
  o_ExporterResponse : gmap string string;
  o_SupplyChain : SupplyChainResult;
}.

Record CacheStats := { Hits : Z; Misses : Z }.

Record WorkerResult := {
  w_BuildID : string;
  w_Attempt : Z;
  w_Phase : Phase;
  w_Outputs : list OutputResult;
  w_StartedAt : Time;
  w_FinishedAt : Time;
  w_ErrorCode : string;
  w_LogsDigest : string;
  w_Cache : CacheStats;
  w_Cleanup : CleanupReport;
}.

Record Event := {
  evt_Sequence : Z;
  evt_Attempt : Z;
  evt_Phase : Phase;
  evt_Kind : string;
  evt_Output : string;
  evt_Vertex : string;
  evt_Name : string;
  evt_Current : Z;
  evt_Total : Z;
  evt_Cached : bool;
  evt_Stream : Z;
  evt_Line : string;
  evt_Code : string;
  evt_Message : string;
  evt_OccurredAt : Time;
}.

#[export] Instance Event_eq_dec : EqDecision Event.
Proof. solve_decision. Defined.
#[export] Instance Residue_eq_dec : EqDecision Residue.
Proof. solve_decision. Defined.
#[export] Instance CleanupReport_eq_dec : EqDecision CleanupReport.
Proof. solve_decision. Defined.
#[export] Instance EvidenceReference_eq_dec : EqDecision EvidenceReference.
Proof. solve_decision. Defined.
#[export] Instance SupplyChainResult_eq_dec : EqDecision SupplyChainResult.
Proof. solve_decision. Defined.
#[export] Instance OutputResult_eq_dec : EqDecision OutputResult.
Proof. solve_decision. Defined.
#[export] Instance CacheStats_eq_dec : EqDecision CacheStats.
Proof. solve_decision. Defined.
#[export] Instance WorkerResult_eq_dec : EqDecision WorkerResult.
Proof. solve_decision. Defined.

Definition zero_worker_result : WorkerResult :=
  {| w_BuildID := ""; w_Attempt := 0; w_Phase := ""; w_Outputs := []; w_StartedAt := 0;
     w_FinishedAt := 0; w_ErrorCode := ""; w_LogsDigest := ""; w_Cache := {| Hits := 0; Misses := 0 |};
     w_Cleanup := zero_report |}.

(** ** Lemmas *)

(** A report is clean exactly when it names no residue and no reason. *)
Definition proven_clean (report : CleanupReport) : Prop :=
  cl_Status report = CleanupClean ∧ cl_Residue report = [] ∧ cl_QuarantineReason report = "".

Lemma join_reasons_nonempty p parts : p ≠ "" → join_reasons (p :: parts) ≠ "".
Proof. destruct parts as [|q parts]; simpl; [done|]. by destruct p. Qed.

Lemma cleanupReason_nonempty s i residue :
  negb s && negb i && (length residue =? 0)%nat = false → cleanupReason s i residue ≠ "".
Proof.
  unfold cleanupReason. intros Hc.
  destruct s; [by apply join_reasons_nonempty|]. destruct i; [by apply join_reasons_nonempty|].
  destruct residue; [done|]. simpl. done.
Qed.

End BuildWorker.
