(* ===== verification/RunStore.v ===== *)
(** * Durable run records (build-plane/internal/buildcontrol: types.go, store_*.go)

    One record per build holds the lease of the controller that runs it and, at
    the end, the terminal result.  store_memory.go keeps the records in a map,
    store_file.go in a locked JSON file, store_bolt.go in a bbolt bucket; the
    three share the decision functions below.

    [RunStore] is the interface the controller relies on: a store answers an
    operation as the in-memory store does, and a call that fails changes nothing
    or exactly what it was asked to change. *)

From S2P Require Import Prelude Text PlatformID Storage BuildWorker.
Import PlatformID Storage BuildWorker.

Open Scope Z_scope.

Module RunStore.

Definition ErrController (message : string) : error := Error "build cell controller failed" message.

Definition DefaultMaxAttempts : Z := 3.

(** ** types.go *)

Record Result := {
  r_BuildID : string;
  r_PayloadDigest : string;
  r_Phase : Phase;
  r_Attempts : Z;
  r_WorkerIdentity : string;
  r_Worker : WorkerResult;
  r_Cleanup : CleanupReport;
  r_ErrorCode : string;
  r_LogsDigest : string;
  r_StartedAt : Time;
  r_FinishedAt : Time;
  r_Replay : bool;
}.

Definition Terminal (result : Result) : bool :=
  String.eqb (r_Phase result) PhaseComplete || String.eqb (r_Phase result) PhaseFailed ||
  String.eqb (r_Phase result) PhaseCanceled || String.eqb (r_Phase result) PhaseQuarantined.

Inductive ClaimOutcome :=
| ClaimAccepted | ClaimResumed | ClaimInProgress | ClaimReplay | ClaimConflict.

#[export] Instance ClaimOutcome_eq_dec : EqDecision ClaimOutcome.
Proof. solve_decision. Defined.

Record ClaimRequest := {
  q_BuildID : string;
  q_Generation : Z;
  q_PayloadDigest : string;
  q_Owner : string;
  q_Now : Time;
  q_LeaseTTL : Duration;
}.

Record RunRecord := {
  rr_Version : Z;
  rr_BuildID : string;
  rr_Generation : Z;
  rr_PayloadDigest : string;
  rr_Owner : string;
  rr_LeaseUntil : Time;
  rr_Phase : Phase;
  rr_Attempt : Z;
  rr_Result : Result;
  rr_UpdatedAt : Time;
  rr_CancelRequested : bool;
}.

#[export] Instance Result_eq_dec : EqDecision Result.
Proof. solve_decision. Defined.
#[export] Instance RunRecord_eq_dec : EqDecision RunRecord.
Proof. solve_decision. Defined.

(** ** controller.go: what a stored output must prove *)

Definition evidence_kinds : list string :=
  ["sbom"; "vulnerability_scan"; "provenance"; "signature"; "policy_decision"].

(** The loop over the evidence array: [expected] are the kinds still missing,
    [seen] the manifest digests so far. *)
Fixpoint check_evidence (repository : string) (expected seen : list string)
    (evidence : list EvidenceReference) : bool :=
  match evidence with
  | [] => (length expected =? 0)%nat
  | reference :: rest =>
      if negb (existsb (String.eqb (ev_Kind reference)) expected) ||
         negb (String.eqb (ev_Reference reference) (repository +:+ "@" +:+ ev_ManifestDigest reference)) ||
         negb (is_digest (ev_ManifestDigest reference)) || negb (is_digest (ev_PayloadDigest reference))
      then false
      else if existsb (String.eqb (ev_ManifestDigest reference)) seen then false
      else check_evidence repository
             (filter (fun kind => kind ≠ ev_Kind reference) expected)
             (ev_ManifestDigest reference :: seen) rest
  end.

Definition validStoredSupplyChainIdentity (output : OutputResult) : bool :=
  let evidence := o_SupplyChain output in
  if negb (String.eqb (sc_PolicyState evidence) "accepted") || negb (String.eqb (sc_ScanState evidence) "passed") ||
     negb (is_digest (sc_PolicyDigest evidence)) || String.eqb (sc_SignerKeyID evidence) "" ||
     (sc_SignerKeyVersion evidence <? 1) || negb (is_digest (sc_SignerPublicKeyDigest evidence))
  then false
  else match Cut (o_ArtifactRef output) "@" with
  | None => false
  | Some (repository, _) =>
      if String.eqb repository "" then false
      else check_evidence repository evidence_kinds [] (sc_Evidence evidence)
  end.

(** Every layer is a digest and none repeats. *)
Fixpoint check_layers (seen layers : list string) : bool :=
  match layers with
  | [] => true
  | layer :: rest =>
      if negb (is_digest layer) then false
      else if existsb (String.eqb layer) seen then false
      else check_layers (layer :: seen) rest
  end.

Definition validOutputContentIdentity (output : OutputResult) : bool :=
  if String.eqb (o_Kind output) "static_bundle" then
    is_digest (o_ManifestDigest output) && HasPrefix (o_PublicationManifestRef output) "s3://" &&
    (length (o_LayerDigests output) =? 0)%nat
  else if negb (String.eqb (o_Kind output) "oci_image") ||
          negb (String.eqb (o_PublicationManifestRef output) "") ||
          negb (is_digest (o_ManifestDigest output)) || (length (o_LayerDigests output) =? 0)%nat
  then false
  else check_layers [] (o_LayerDigests output).

(** ** store_memory.go: the shared decisions *)

Definition CurrentRunRecordVersion : Z := 2.

Definition validRunPhase (phase : Phase) (terminal : bool) : bool :=
  if terminal then
    String.eqb phase PhaseComplete || String.eqb phase PhaseFailed ||
    String.eqb phase PhaseCanceled || String.eqb phase PhaseQuarantined
  else
    existsb (String.eqb phase)
      [PhaseAccepted; PhaseResolving; PhaseAllocating; PhaseMaterializing;
       PhaseSolving; PhaseExporting; PhaseRetrying; PhaseCanceling; PhaseCleaning].

Definition clean_report (report : CleanupReport) : bool :=
  String.eqb (cl_Status report) CleanupClean && (length (cl_Residue report) =? 0)%nat &&
  String.eqb (cl_QuarantineReason report) "".

Definition quarantined_report (report : CleanupReport) : bool :=
  String.eqb (cl_Status report) CleanupQuarantined &&
  ((0 <? length (cl_Residue report))%nat || negb (String.eqb (cl_QuarantineReason report) "")).

(** One output of a completed result; [outputNames] are the names before it. *)
Definition invalid_output (outputNames : list string) (output : OutputResult) : bool :=
  String.eqb (o_Name output) "" ||
  (negb (String.eqb (o_Kind output) "oci_image") && negb (String.eqb (o_Kind output) "static_bundle")) ||
  String.eqb (o_ArtifactRef output) "" || negb (is_digest (o_ArtifactDigest output)) ||
  (o_ArtifactSize output <=? 0) || negb (is_digest (o_ConfigDigest output)) ||
  existsb (String.eqb (o_Name output)) outputNames ||
  negb (validOutputContentIdentity output) || negb (validStoredSupplyChainIdentity output).

Fixpoint check_outputs (outputNames : list string) (outputs : list OutputResult) : result unit :=
  match outputs with
  | [] => Ok tt
  | output :: rest =>
      if invalid_output outputNames output
      then Err (ErrController "successful terminal output identity is invalid")
      else check_outputs (o_Name output :: outputNames) rest
  end.

Definition validateTerminalResult (result : Result) (buildID payloadDigest : string) : Prelude.result unit :=
  if negb (Terminal result) || negb (String.eqb (r_BuildID result) buildID) ||
     negb (String.eqb (r_PayloadDigest result) payloadDigest) ||
     (DefaultMaxAttempts <? r_Attempts result) || r_Replay result ||
     negb (is_digest (r_LogsDigest result)) || IsZero (r_StartedAt result) || IsZero (r_FinishedAt result) ||
     Before (r_FinishedAt result) (r_StartedAt result) ||
     negb (String.eqb (cl_BuildID (r_Cleanup result)) buildID)
  then Err (ErrController "terminal result identity is invalid")
  else
    let clean := clean_report (r_Cleanup result) in
    let quarantined := quarantined_report (r_Cleanup result) in
    let worker := r_Worker result in
    if String.eqb (r_Phase result) PhaseComplete then
      let workerClean := String.eqb (cl_BuildID (w_Cleanup worker)) buildID && clean_report (w_Cleanup worker) in
      if negb clean || negb (String.eqb (r_ErrorCode result) "") || (r_Attempts result =? 0) ||
         String.eqb (r_WorkerIdentity result) "" || negb (String.eqb (w_BuildID worker) buildID) ||
         negb (w_Attempt worker =? r_Attempts result) || negb (String.eqb (w_Phase worker) PhaseComplete) ||
         negb workerClean || negb (is_digest (w_LogsDigest worker)) ||
         (Hits (w_Cache worker) <? 0) || (Misses (w_Cache worker) <? 0) || (length (w_Outputs worker) =? 0)%nat
      then Err (ErrController "successful terminal result lacks immutable output or cleanup proof")
      else check_outputs [] (w_Outputs worker)
    else if String.eqb (r_Phase result) PhaseQuarantined then
      if negb quarantined || String.eqb (r_ErrorCode result) ""
      then Err (ErrController "quarantined terminal result lacks residue proof")
      else Ok tt
    else if String.eqb (r_Phase result) PhaseFailed || String.eqb (r_Phase result) PhaseCanceled then
      if negb clean || String.eqb (r_ErrorCode result) ""
      then Err (ErrController "failed terminal result lacks clean cleanup proof")
      else Ok tt
    else Err (ErrController "terminal result phase is invalid").

Definition terminalAllowedForRecord (record : RunRecord) (result : Result) : bool :=
  negb (rr_CancelRequested record) || String.eqb (r_Phase result) PhaseCanceled ||
  String.eqb (r_Phase result) PhaseQuarantined.

Definition validLeaseUpdate (phase : Phase) (attempt : Z) (now : Time) (leaseTTL : Duration) : bool :=
  validRunPhase phase false && (attempt <=? DefaultMaxAttempts) && negb (IsZero now) &&
  (Second <=? leaseTTL) && (leaseTTL <=? 5 * Minute).

Definition zero_result : Result :=
  {| r_BuildID := ""; r_PayloadDigest := ""; r_Phase := ""; r_Attempts := 0; r_WorkerIdentity := "";
     r_Worker := zero_worker_result; r_Cleanup := zero_report; r_ErrorCode := ""; r_LogsDigest := "";
     r_StartedAt := 0; r_FinishedAt := 0; r_Replay := false |}.

Definition newRunRecord (q : ClaimRequest) : RunRecord :=
  {| rr_Version := CurrentRunRecordVersion; rr_BuildID := q_BuildID q; rr_Generation := q_Generation q;
     rr_PayloadDigest := q_PayloadDigest q; rr_Owner := q_Owner q;
     rr_LeaseUntil := Add (q_Now q) (q_LeaseTTL q);
     rr_Phase := PhaseAccepted; rr_Attempt := 0;
     rr_Result := {| r_BuildID := q_BuildID q; r_PayloadDigest := q_PayloadDigest q;
                     r_Phase := PhaseAccepted; r_Attempts := 0; r_WorkerIdentity := "";
                     r_Worker := zero_worker_result; r_Cleanup := zero_report; r_ErrorCode := "";
                     r_LogsDigest := ""; r_StartedAt := q_Now q; r_FinishedAt := 0; r_Replay := false |};
     rr_UpdatedAt := q_Now q; rr_CancelRequested := false |}.

Definition applyClaim (existing : RunRecord) (q : ClaimRequest) : ClaimOutcome * RunRecord :=
  if negb (rr_Version existing =? CurrentRunRecordVersion) ||
     negb (String.eqb (rr_BuildID existing) (q_BuildID q)) ||
     negb (rr_Generation existing =? q_Generation q) ||
     negb (String.eqb (rr_PayloadDigest existing) (q_PayloadDigest q))
  then (ClaimConflict, existing)
  else if Terminal (rr_Result existing) then (ClaimReplay, existing)
  else if After (rr_LeaseUntil existing) (q_Now q) && negb (String.eqb (rr_Owner existing) (q_Owner q))
  then (ClaimInProgress, existing)
  else (ClaimResumed,
    {| rr_Version := rr_Version existing; rr_BuildID := rr_BuildID existing;
       rr_Generation := rr_Generation existing; rr_PayloadDigest := rr_PayloadDigest existing;
       rr_Owner := q_Owner q; rr_LeaseUntil := Add (q_Now q) (q_LeaseTTL q);
       rr_Phase := rr_Phase existing; rr_Attempt := rr_Attempt existing;
       rr_Result := rr_Result existing; rr_UpdatedAt := q_Now q;
       rr_CancelRequested := rr_CancelRequested existing |}).

(** The record updates of [Heartbeat], [Finish] and [RequestCancel]. *)
Definition beat (record : RunRecord) (phase : Phase) (attempt : Z) (now : Time) (leaseTTL : Duration) : RunRecord :=
  {| rr_Version := rr_Version record; rr_BuildID := rr_BuildID record;
     rr_Generation := rr_Generation record; rr_PayloadDigest := rr_PayloadDigest record;
     rr_Owner := rr_Owner record; rr_LeaseUntil := Add now leaseTTL; rr_Phase := phase; rr_Attempt := attempt;
     rr_Result := rr_Result record; rr_UpdatedAt := now; rr_CancelRequested := rr_CancelRequested record |}.

Definition finished (record : RunRecord) (result : Result) (now : Time) : RunRecord :=
  {| rr_Version := rr_Version record; rr_BuildID := rr_BuildID record;
     rr_Generation := rr_Generation record; rr_PayloadDigest := rr_PayloadDigest record;
     rr_Owner := rr_Owner record; rr_LeaseUntil := 0; rr_Phase := r_Phase result; rr_Attempt := r_Attempts result;
     rr_Result := result; rr_UpdatedAt := now; rr_CancelRequested := rr_CancelRequested record |}.

Definition cancelled (record : RunRecord) (now : Time) : RunRecord :=
  {| rr_Version := rr_Version record; rr_BuildID := rr_BuildID record;
     rr_Generation := rr_Generation record; rr_PayloadDigest := rr_PayloadDigest record;
     rr_Owner := rr_Owner record; rr_LeaseUntil := rr_LeaseUntil record; rr_Phase := rr_Phase record;
     rr_Attempt := rr_Attempt record; rr_Result := rr_Result record; rr_UpdatedAt := now;
     rr_CancelRequested := true |}.

(** The guard of [Finish], false when the result may be stored. *)
Definition finish_refused (record : RunRecord) (buildID owner : string) (result : Result) (now : Time) : bool :=
  negb (String.eqb (rr_Owner record) owner) ||
  is_err (validateTerminalResult result buildID (rr_PayloadDigest record)) ||
  negb (terminalAllowedForRecord record result) || IsZero now.

Section Stores.
Context `{GoText}.

Definition validateClaim (q : ClaimRequest) : Prelude.result unit :=
  if negb (has_prefix (q_BuildID q) "bld") || (q_Generation q =? 0) || negb (is_digest (q_PayloadDigest q)) ||
     negb (is_run_owner (q_Owner q)) || IsZero (q_Now q) ||
     (q_LeaseTTL q <? Second) || (5 * Minute <? q_LeaseTTL q)
  then Err (ErrController "run claim is invalid")
  else Ok tt.

Definition validCancelRequest (buildID : string) (generation : Z) (now : Time) : bool :=
  has_prefix buildID "bld" && (0 <? generation) && negb (IsZero now).

Definition validateRunRecord (record : RunRecord) : Prelude.result unit :=
  let result := rr_Result record in
  if negb (has_prefix (rr_BuildID record) "bld") || negb (rr_Version record =? CurrentRunRecordVersion) ||
     (rr_Generation record =? 0) || negb (is_digest (rr_PayloadDigest record)) ||
     negb (is_run_owner (rr_Owner record)) || negb (validRunPhase (rr_Phase record) (Terminal result)) ||
     (DefaultMaxAttempts <? rr_Attempt record) || IsZero (rr_UpdatedAt record) ||
     negb (String.eqb (r_BuildID result) (rr_BuildID record)) ||
     negb (String.eqb (r_PayloadDigest result) (rr_PayloadDigest record)) || r_Replay result
  then Err (ErrController "durable run record identity is invalid")
  else if Terminal result then
    if negb (IsZero (rr_LeaseUntil record)) || negb (String.eqb (r_Phase result) (rr_Phase record)) ||
       negb (r_Attempts result =? rr_Attempt record) ||
       is_err (validateTerminalResult result (rr_BuildID record) (rr_PayloadDigest record)) ||
       negb (terminalAllowedForRecord record result)
    then Err (ErrController "durable terminal run record is invalid")
    else Ok tt
  else if IsZero (rr_LeaseUntil record) || negb (String.eqb (r_Phase result) PhaseAccepted) ||
          IsZero (r_StartedAt result) || negb (IsZero (r_FinishedAt result))
  then Err (ErrController "durable active run record is invalid")
  else Ok tt.

(** ** store_memory.go: the in-memory store *)

Definition Claim (ctx : Ctx) (records : gmap string RunRecord) (q : ClaimRequest)
    : gmap string RunRecord * Prelude.result (ClaimOutcome * RunRecord) :=
  match ctx with
  | Some e => (records, Err e)
  | None =>
      match validateClaim q with
      | Err e => (records, Err e)
      | Ok _ =>
          match records !! q_BuildID q with
          | None => (<[q_BuildID q := newRunRecord q]> records, Ok (ClaimAccepted, newRunRecord q))
          | Some existing =>
              let '(outcome, record) := applyClaim existing q in
              (if decide (outcome = ClaimResumed) then <[q_BuildID q := record]> records else records,
               Ok (outcome, record))
          end
      end
  end.

Definition Heartbeat (ctx : Ctx) (records : gmap string RunRecord) (buildID owner : string)
    (phase : Phase) (attempt : Z) (now : Time) (leaseTTL : Duration)
    : gmap string RunRecord * Prelude.result unit :=
  match ctx with
  | Some e => (records, Err e)
  | None =>
      match records !! buildID with
      | None => (records, Err (ErrController "run lease ownership or heartbeat is invalid"))
      | Some record =>
          if negb (String.eqb (rr_Owner record) owner) || Terminal (rr_Result record) ||
             negb (validLeaseUpdate phase attempt now leaseTTL)
          then (records, Err (ErrController "run lease ownership or heartbeat is invalid"))
          else (<[buildID := beat record phase attempt now leaseTTL]> records, Ok tt)
      end
  end.

Definition Finish (ctx : Ctx) (records : gmap string RunRecord) (buildID owner : string)
    (result : Result) (now : Time) : gmap string RunRecord * Prelude.result unit :=
  match ctx with
  | Some e => (records, Err e)
  | None =>
      match records !! buildID with
      | None => (records, Err (ErrController "terminal run result is invalid"))
      | Some record =>
          if finish_refused record buildID owner result now
          then (records, Err (ErrController "terminal run result is invalid"))
          else (<[buildID := finished record result now]> records, Ok tt)
      end
  end.

Definition Lookup (ctx : Ctx) (records : gmap string RunRecord) (buildID : string)
    : Prelude.result (option RunRecord) :=
  match ctx with Some e => Err e | None => Ok (records !! buildID) end.

Definition RequestCancel (ctx : Ctx) (records : gmap string RunRecord) (buildID : string)
    (generation : Z) (now : Time) : gmap string RunRecord * Prelude.result bool :=
  match ctx with
  | Some e => (records, Err e)
  | None =>
      if negb (validCancelRequest buildID generation now)
      then (records, Err (ErrController "cancellation request is invalid"))
      else match records !! buildID with
      | None => (records, Ok false)
      | Some record =>
          if negb (rr_Generation record =? generation) || Terminal (rr_Result record)
          then (records, Ok false)
          else (<[buildID := cancelled record now]> records, Ok true)
      end
  end.

(** ** store_file.go: the durable JSON file *)

Definition runStateVersion : Z := 1.

(** A nil map of the decoded JSON is [None]. *)
Record runState := {
  st_Version : Z;
  st_Records : option (gmap string RunRecord);
}.

#[export] Instance runState_eq_dec : EqDecision runState.
Proof. solve_decision. Defined.

Definition validateRunState (state : runState) (maxEntries : Z) : Prelude.result unit :=
  match st_Records state with
  | None => Err (ErrController "durable run state shape is invalid")
  | Some records =>
      if negb (st_Version state =? runStateVersion) || (maxEntries <? Z.of_nat (size records))
      then Err (ErrController "durable run state shape is invalid")
      else if negb (map_forallb
             (fun key record => String.eqb (rr_BuildID record) key && is_ok (validateRunRecord record)) records)
      then Err (ErrController "durable run record is invalid")
      else Ok tt
  end.

Section File.
Context `{!Codec runState}.

Definition withLock {A} (io : FileFaults) (file : option string)
    (operation : option string → option string * Prelude.result A) : option string * Prelude.result A :=
  if negb (lock_taken io) then (file, Err (ErrController "acquire durable run-store lock")) else operation file.

Definition size_limit (maxEntries : Z) : Z := maxEntries * 16 * 1024 + 1024.

(** Returns the state and its map, which is not nil. *)
Definition readState (maxEntries : Z) (io : FileFaults) (file : option string)
    : Prelude.result (runState * gmap string RunRecord) :=
  match file with
  | None => Err (ErrController "durable run state is absent or unsafe")
  | Some contents =>
      if negb (stat_regular io) then Err (ErrController "durable run state is absent or unsafe")
      else if negb (stat_private io) then Err (ErrController "durable run state permissions are too broad")
      else if negb (open_ok io) then Err (ErrController "open durable run state")
      else if negb (read_complete io) || (size_limit maxEntries <? len contents)
      then Err (ErrController "durable run state is unreadable or oversized")
      else match unmarshal contents with
      | None => Err (ErrController "durable run state is malformed")
      | Some state =>
          let* _ := validateRunState state maxEntries in
          Ok (state, default ∅ (st_Records state))
      end
  end.

(** The rename publishes the new contents; a directory sync that fails
    afterwards returns an error with the new state already in place. *)
Definition writeState (maxEntries : Z) (io : FileFaults) (file : option string) (state : runState)
    : option string * Prelude.result unit :=
  match validateRunState state maxEntries with
  | Err e => (file, Err e)
  | Ok _ =>
      match marshal state with
      | None => (file, Err (ErrController "canonicalize durable run state"))
      | Some contents =>
          if negb (temp_written io) then (file, Err (ErrController "write durable run state"))
          else if negb (rename_ok io) then (file, Err (ErrController "publish durable run state"))
          else if negb (dir_synced io) then (Some contents, Err (ErrController "sync durable run directory"))
          else (Some contents, Ok tt)
      end
  end.

(** [state.Records[buildID] = record; return store.writeState(state)], and the
    answer of the method when the write succeeds. *)
Definition save {A} (maxEntries : Z) (io : FileFaults) (file : option string) (state : runState)
    (records : gmap string RunRecord) (answer : A) : option string * Prelude.result A :=
  let '(file', written) :=
    writeState maxEntries io file {| st_Version := st_Version state; st_Records := Some records |} in
  (file', let* _ := written in Ok answer).

Definition NewFileRunStore (maxEntries : Z) (io : FileFaults) (file : option string)
    : option string * Prelude.result unit :=
  if (maxEntries <? 1) || (100000 <? maxEntries)
  then (file, Err (ErrController "durable run-store configuration is invalid"))
  else withLock io file (fun file =>
    match file with
    | None => writeState maxEntries io file {| st_Version := runStateVersion; st_Records := Some ∅ |}
    | Some _ => (file, let* _ := readState maxEntries io file in Ok tt)
    end).

Definition Claim_file (maxEntries : Z) (io : FileFaults) (ctx : Ctx) (file : option string) (q : ClaimRequest)
    : option string * Prelude.result (ClaimOutcome * RunRecord) :=
  match ctx with
  | Some e => (file, Err e)
  | None =>
      match validateClaim q with
      | Err e => (file, Err e)
      | Ok _ => withLock io file (fun file =>
          match readState maxEntries io file with
          | Err e => (file, Err e)
          | Ok (state, records) =>
              match records !! q_BuildID q with
              | None =>
                  if maxEntries <=? Z.of_nat (size records)
                  then (file, Err (ErrController "durable run-store capacity exhausted"))
                  else save maxEntries io file state (<[q_BuildID q := newRunRecord q]> records)
                         (ClaimAccepted, newRunRecord q)
              | Some existing =>
                  let '(outcome, record) := applyClaim existing q in
                  if decide (outcome = ClaimResumed)
                  then save maxEntries io file state (<[q_BuildID q := record]> records) (outcome, record)
                  else (file, Ok (outcome, record))
              end
          end)
      end
  end.

Definition Heartbeat_file (maxEntries : Z) (io : FileFaults) (ctx : Ctx) (file : option string)
    (buildID owner : string) (phase : Phase) (attempt : Z) (now : Time) (leaseTTL : Duration)
    : option string * Prelude.result unit :=
  match ctx with
  | Some e => (file, Err e)
  | None => withLock io file (fun file =>
      match readState maxEntries io file with
      | Err e => (file, Err e)
      | Ok (state, records) =>
          match records !! buildID with
          | None => (file, Err (ErrController "durable run lease ownership or heartbeat is invalid"))
          | Some record =>
              if negb (String.eqb (rr_Owner record) owner) || Terminal (rr_Result record) ||
                 negb (validLeaseUpdate phase attempt now leaseTTL)
              then (file, Err (ErrController "durable run lease ownership or heartbeat is invalid"))
              else save maxEntries io file state
                     (<[buildID := beat record phase attempt now leaseTTL]> records) tt
          end
      end)
  end.

Definition Finish_file (maxEntries : Z) (io : FileFaults) (ctx : Ctx) (file : option string)
    (buildID owner : string) (result : Result) (now : Time) : option string * Prelude.result unit :=
  match ctx with
  | Some e => (file, Err e)
  | None => withLock io file (fun file =>
      match readState maxEntries io file with
      | Err e => (file, Err e)
      | Ok (state, records) =>
          match records !! buildID with
          | None => (file, Err (ErrController "durable terminal run result is invalid"))
          | Some record =>
              if finish_refused record buildID owner result now
              then (file, Err (ErrController "durable terminal run result is invalid"))
              else save maxEntries io file state (<[buildID := finished record result now]> records) tt
          end
      end)
  end.

Definition Lookup_file (maxEntries : Z) (io : FileFaults) (ctx : Ctx) (file : option string) (buildID : string)
    : Prelude.result (option RunRecord) :=
  match ctx with
  | Some e => Err e
  | None => (withLock io file (fun file =>
      (file, let* read := readState maxEntries io file in Ok (read.2 !! buildID)))).2
  end.

Definition RequestCancel_file (maxEntries : Z) (io : FileFaults) (ctx : Ctx) (file : option string)
    (buildID : string) (generation : Z) (now : Time) : option string * Prelude.result bool :=
  match ctx with
  | Some e => (file, Err e)
  | None =>
      if negb (validCancelRequest buildID generation now)
      then (file, Err (ErrController "cancellation request is invalid"))
      else withLock io file (fun file =>
        match readState maxEntries io file with
        | Err e => (file, Err e)
        | Ok (state, records) =>
            match records !! buildID with
            | None => (file, Ok false)
            | Some record =>
                if negb (rr_Generation record =? generation) || Terminal (rr_Result record)
                then (file, Ok false)
                else save maxEntries io file state (<[buildID := cancelled record now]> records) true
            end
        end)
  end.

End File.

(** ** store_bolt.go: the bbolt database *)

Definition runRecordBucket : string := "run-records-v1".

Section Bolt.
Context {Tx : Type} `{!BoltTx Tx} `{!Codec RunRecord}.

Definition putRunRecord (tx : Tx) (record : RunRecord) : Prelude.result Tx :=
  let* _ := validateRunRecord record in
  match marshal record with
  | None => Err (ErrController "canonicalize Bolt run record")
  | Some contents => tx_put tx runRecordBucket (rr_BuildID record) contents
  end.

Definition decodeRunRecord (contents : string) : Prelude.result RunRecord :=
  match unmarshal contents with
  | None => Err (ErrController "Bolt run record is malformed")
  | Some record =>
      let* _ := validateRunState
        {| st_Version := runStateVersion; st_Records := Some {[rr_BuildID record := record]} |} 1 in
      Ok record
  end.

(** [return putRunRecord(bucket, record)] with the answer of the method. *)
Definition put_then {A} (tx : Tx) (record : RunRecord) (answer : A) : Prelude.result (A * Tx) :=
  let* tx := putRunRecord tx record in Ok (answer, tx).

(** [ctx] is asked on entry and again, as [ctx'], inside the transaction. *)
Definition Claim_bolt (maxEntries : Z) (ctx ctx' : Ctx) (c : commit) (tx : Tx) (q : ClaimRequest)
    : Tx * Prelude.result (ClaimOutcome * RunRecord) :=
  match ctx with
  | Some e => (tx, Err e)
  | None =>
      match validateClaim q with
      | Err e => (tx, Err e)
      | Ok _ => Update c tx (fun tx =>
          match ctx' with
          | Some e => Err e
          | None =>
              match tx_get tx runRecordBucket (q_BuildID q) with
              | None =>
                  if maxEntries <=? tx_keyN tx runRecordBucket
                  then Err (ErrController "Bolt run-store capacity exhausted")
                  else put_then tx (newRunRecord q) (ClaimAccepted, newRunRecord q)
              | Some contents =>
                  let* existing := decodeRunRecord contents in
                  let '(outcome, record) := applyClaim existing q in
                  if decide (outcome = ClaimResumed)
                  then put_then tx record (outcome, record)
                  else Ok ((outcome, record), tx)
              end
          end)
      end
  end.

Definition Heartbeat_bolt (ctx ctx' : Ctx) (c : commit) (tx : Tx) (buildID owner : string)
    (phase : Phase) (attempt : Z) (now : Time) (leaseTTL : Duration) : Tx * Prelude.result unit :=
  match ctx with
  | Some e => (tx, Err e)
  | None => Update c tx (fun tx =>
      match ctx' with
      | Some e => Err e
      | None =>
          match tx_get tx runRecordBucket buildID with
          | None => Err (ErrController "Bolt run record is absent")
          | Some contents =>
              let* record := decodeRunRecord contents in
              if negb (String.eqb (rr_Owner record) owner) || Terminal (rr_Result record) ||
                 negb (validLeaseUpdate phase attempt now leaseTTL)
              then Err (ErrController "Bolt run lease ownership or heartbeat is invalid")
              else put_then tx (beat record phase attempt now leaseTTL) tt
          end
      end)
  end.

Definition Finish_bolt (ctx ctx' : Ctx) (c : commit) (tx : Tx) (buildID owner : string)
    (result : Result) (now : Time) : Tx * Prelude.result unit :=
  match ctx with
  | Some e => (tx, Err e)
  | None => Update c tx (fun tx =>
      match ctx' with
      | Some e => Err e
      | None =>
          match tx_get tx runRecordBucket buildID with
          | None => Err (ErrController "Bolt run record is absent")
          | Some contents =>
              let* record := decodeRunRecord contents in
              if finish_refused record buildID owner result now
              then Err (ErrController "Bolt terminal run result is invalid")
              else put_then tx (finished record result now) tt
          end
      end)
  end.

Definition Lookup_bolt (ctx ctx' : Ctx) (tx : Tx) (buildID : string) : Prelude.result (option RunRecord) :=
  match ctx with
  | Some e => Err e
  | None =>
      match ctx' with
      | Some e => Err e
      | None =>
          match tx_get tx runRecordBucket buildID with
          | None => Ok None
          | Some contents => let* record := decodeRunRecord contents in Ok (Some record)
          end
      end
  end.

Definition RequestCancel_bolt (ctx ctx' : Ctx) (c : commit) (tx : Tx) (buildID : string)
    (generation : Z) (now : Time) : Tx * Prelude.result bool :=
  match ctx with
  | Some e => (tx, Err e)
  | None =>
      if negb (validCancelRequest buildID generation now)
      then (tx, Err (ErrController "cancellation request is invalid"))
      else Update c tx (fun tx =>
        match ctx' with
        | Some e => Err e
        | None =>
            match tx_get tx runRecordBucket buildID with
            | None => Ok (false, tx)
            | Some contents =>
                let* record := decodeRunRecord contents in
                if negb (rr_Generation record =? generation) || Terminal (rr_Result record)
                then Ok (false, tx)
                else put_then tx (cancelled record now) true
            end
        end)
  end.

End Bolt.

End Stores.

(** ** One call *)

Inductive run_op :=
| OpClaim (q : ClaimRequest)
| OpHeartbeat (buildID owner : string) (phase : Phase) (attempt : Z) (now : Time) (leaseTTL : Duration)
| OpFinish (buildID owner : string) (r : Result) (now : Time)
| OpCancel (buildID : string) (generation : Z) (now : Time).

Inductive run_answer :=
| Claimed (outcome : ClaimOutcome) (record : RunRecord)
| Done
| CancelAccepted (accepted : bool).

Definition op_now (op : run_op) : Time :=
  match op with
  | OpClaim q => q_Now q
  | OpHeartbeat _ _ _ _ now _ | OpFinish _ _ _ now | OpCancel _ _ now => now
  end.

Definition op_build (op : run_op) : string :=
  match op with
  | OpClaim q => q_BuildID q
  | OpHeartbeat b _ _ _ _ _ | OpFinish b _ _ _ | OpCancel b _ _ => b
  end.

(** The owner a call acts for; a cancellation acts for none. *)
Definition op_owner (op : run_op) : option string :=
  match op with
  | OpClaim q => Some (q_Owner q)
  | OpHeartbeat _ o _ _ _ _ | OpFinish _ o _ _ => Some o
  | OpCancel _ _ _ => None
  end.

Definition answered {S A} (inject : A → run_answer) (p : S * Prelude.result A) : S * Prelude.result run_answer :=
  (p.1, let* a := p.2 in Ok (inject a)).

Definition claimed (p : ClaimOutcome * RunRecord) : run_answer := Claimed p.1 p.2.
Definition done (_ : unit) : run_answer := Done.

Section Exec.
Context `{GoText}.

Definition exec_memory (ctx : Ctx) (m : gmap string RunRecord) (op : run_op)
    : gmap string RunRecord * Prelude.result run_answer :=
  match op with
  | OpClaim q => answered claimed (Claim ctx m q)
  | OpHeartbeat b o phase attempt now ttl => answered done (Heartbeat ctx m b o phase attempt now ttl)
  | OpFinish b o r now => answered done (Finish ctx m b o r now)
  | OpCancel b g now => answered CancelAccepted (RequestCancel ctx m b g now)
  end.

Definition exec_file `{!Codec runState} (maxEntries : Z) (env : FileFaults * Ctx) (file : option string)
    (op : run_op) : option string * Prelude.result run_answer :=
  let '(io, ctx) := env in
  match op with
  | OpClaim q => answered claimed (Claim_file maxEntries io ctx file q)
  | OpHeartbeat b o phase attempt now ttl =>
      answered done (Heartbeat_file maxEntries io ctx file b o phase attempt now ttl)
  | OpFinish b o r now => answered done (Finish_file maxEntries io ctx file b o r now)
  | OpCancel b g now => answered CancelAccepted (RequestCancel_file maxEntries io ctx file b g now)
  end.

Definition exec_bolt {Tx} `{!BoltTx Tx} `{!Codec RunRecord} (maxEntries : Z) (env : Ctx * Ctx * commit) (tx : Tx)
    (op : run_op) : Tx * Prelude.result run_answer :=
  let '(ctx, ctx', c) := env in
  match op with
  | OpClaim q => answered claimed (Claim_bolt maxEntries ctx ctx' c tx q)
  | OpHeartbeat b o phase attempt now ttl =>
      answered done (Heartbeat_bolt ctx ctx' c tx b o phase attempt now ttl)
  | OpFinish b o r now => answered done (Finish_bolt ctx ctx' c tx b o r now)
  | OpCancel b g now => answered CancelAccepted (RequestCancel_bolt ctx ctx' c tx b g now)
  end.

(** Every record is stored under its own build and passes [validateRunRecord]. *)
Definition valid_records (m : gmap string RunRecord) : Prop :=
  ∀ key record, m !! key = Some record → rr_BuildID record = key ∧ validateRunRecord record = Ok tt.

(** ** The interface the controller relies on *)

(** [Env] is what the surroundings of one call decide.  Clock readings are after
    the zero time. *)
Class RunStore (S Env : Type) := {
  exec : Env → S → run_op → S * Prelude.result run_answer;
  lookup_run : Env → S → string → Prelude.result (option RunRecord);
  holds : S → gmap string RunRecord → Prop;
  holds_valid : ∀ s m, holds s m → valid_records m;
  exec_law : ∀ env s m op s' o,
    holds s m → 0 < op_now op → exec env s op = (s', o) →
    match o with
    | Ok a => ∃ m', exec_memory None m op = (m', Ok a) ∧ holds s' m'
    | Err _ => holds s' m ∨ ∃ m' a, exec_memory None m op = (m', Ok a) ∧ holds s' m'
    end;
  lookup_law : ∀ env s m buildID found,
    holds s m → lookup_run env s buildID = Ok found → found = m !! buildID;
}.

End Exec.

End RunStore.
