(* ===== verification/BuildRequest.v ===== *)
(** * Build requests, events and results (build-plane/internal/buildorchestrator:
    types.go)

    The build service takes a request, emits events and ends with a result.  Each is
    a record with a [Validate] that every component of the service calls before it
    acts on or stores one.  Instants are RFC 3339 text, as in the JSON form.  A nil
    slice and an empty one are the same list. *)

From S2P Require Import Prelude Text GoStd GoTime GoURL PlatformID BuildWorker RunStore.
Import GoStd GoTime GoURL PlatformID.

Open Scope Z_scope.

Module BuildRequest.

Definition CurrentRequestVersion : Z := 1.
Definition CurrentEventVersion : Z := 1.
Definition CurrentResultVersion : Z := 1.
Definition MaxEventLineBytes : Z := Z.shiftl 16 10.
Definition MaxEventMessageBytes : Z := Z.shiftl 4 10.

(** ** Data *)

Record Source := {
  s_SnapshotID : string;
  s_SnapshotDigest : string;
  s_ManifestDigest : string;
  s_ArchiveDigest : string;
  s_ArchiveRef : string;
  s_SizeBytes : Z;
  s_SelectedRoot : string;
}.

Record ConfigurationIntent := { c_Mode : string; c_BuildFile : string; c_AcceptDetected : bool }.

Record Request := {
  rq_Version : Z;
  rq_BuildID : string;
  rq_OrganizationID : string;
  rq_ProjectID : string;
  rq_DeploymentID : string;
  rq_OperationID : string;
  rq_Generation : Z;
  rq_Source : Source;
  rq_Configuration : ConfigurationIntent;
  rq_TargetPlatform : string;
  rq_Deadline : string;
}.

Record OutputResult := {
  or_Name : string;
  or_Kind : string;
  or_ArtifactRef : string;
  or_ArtifactDigest : string;
  or_ArtifactSize : Z;
  or_ConfigDigest : string;
  or_ManifestDigest : string;
  or_LayerDigests : list string;
  or_PublicationManifestRef : string;
  or_SupplyChain : BuildWorker.SupplyChainResult;
}.

Record BuildResult := {
  br_Strategy : string;
  br_InstallCommand : list string;
  br_BuildCommand : list string;
  br_OutputPath : string;
  br_CachePaths : list string;
}.

Record ProcessResult := {
  pr_Name : string;
  pr_Kind : string;
  pr_Command : list string;
  pr_Port : option Z;
  pr_Protocol : string;
  pr_HealthPath : string;
}.

Record ServiceResult := {
  sr_Name : string;
  sr_Root : string;
  sr_Kind : string;
  sr_Language : string;
  sr_Framework : string;
  sr_RuntimeVersion : string;
  sr_Build : BuildResult;
  sr_Processes : list ProcessResult;
}.

Record CleanupResult := { cr_Status : string; cr_ResidueCount : Z; cr_QuarantineReason : string }.

Record Result := {
  re_Version : Z;
  re_BuildID : string;
  re_Generation : Z;
  re_State : string;
  re_SourceSnapshotID : string;
  re_SourceDigest : string;
  re_DetectionDigest : string;
  re_ManifestDigest : string;
  re_BuildIRDigest : string;
  re_DefinitionDigest : string;
  re_AssignmentDigest : string;
  re_LogsDigest : string;
  re_Outputs : list OutputResult;
  re_Services : list ServiceResult;
  re_FailureCode : string;
  re_FailureMessage : string;
  re_StartedAt : string;
  re_FinishedAt : string;
  re_WorkerIdentity : string;
  re_Cleanup : CleanupResult;
  re_CacheHits : Z;
  re_CacheMisses : Z;
  re_DetectorResultRef : string;
  re_ManifestRef : string;
  re_GeneratedBuildRef : string;
  re_BuildIRRef : string;
  re_DefinitionLockRef : string;
}.

Record Event := {
  ev_Version : Z;
  ev_BuildID : string;
  ev_Generation : Z;
  ev_Sequence : Z;
  ev_Attempt : Z;
  ev_Stage : string;
  ev_Kind : string;
  ev_Output : string;
  ev_Vertex : string;
  ev_Name : string;
  ev_Current : Z;
  ev_Total : Z;
  ev_Cached : bool;
  ev_Stream : Z;
  ev_Line : string;
  ev_Code : string;
  ev_Message : string;
  ev_OccurredAt : string;
  ev_Terminal : option Result;
}.

#[local] Existing Instance BuildWorker.SupplyChainResult_eq_dec.

#[export] Instance Source_eq_dec : EqDecision Source.
Proof. solve_decision. Defined.
#[export] Instance ConfigurationIntent_eq_dec : EqDecision ConfigurationIntent.
Proof. solve_decision. Defined.
#[export] Instance Request_eq_dec : EqDecision Request.
Proof. solve_decision. Defined.
#[export] Instance OutputResult_eq_dec : EqDecision OutputResult.
Proof. solve_decision. Defined.
#[export] Instance BuildResult_eq_dec : EqDecision BuildResult.
Proof. solve_decision. Defined.
#[export] Instance ProcessResult_eq_dec : EqDecision ProcessResult.
Proof. solve_decision. Defined.
#[export] Instance ServiceResult_eq_dec : EqDecision ServiceResult.
Proof. solve_decision. Defined.
#[export] Instance CleanupResult_eq_dec : EqDecision CleanupResult.
Proof. solve_decision. Defined.
#[export] Instance Result_eq_dec : EqDecision Result.
Proof. solve_decision. Defined.
#[export] Instance Event_eq_dec : EqDecision Event.
Proof. solve_decision. Defined.

(** ** Patterns *)

(** [^[a-z][a-z0-9_]{0,63}$] *)
Definition is_stage : string → bool := name_like is_lower (fun c => lower_alnum c || is_char "_" c) 63.

(** [^[a-z][a-z0-9_.-]{0,63}$] *)
Definition is_event_kind : string → bool := name_like is_lower lower_name 63.

Definition failure_families : list string :=
  ["source_"; "detect_"; "dsl_"; "solve_"; "artifact_"; "security_"; "build_"].

(** [^(source|detect|dsl|solve|artifact|security|build)_[a-z0-9_.-]{1,95}$] *)
Definition is_failure_code (s : string) : bool :=
  existsb (fun family =>
    HasPrefix s family &&
    (let rest := TrimPrefix s family in (1 <=? len rest) && (len rest <=? 95) && str_forall lower_name rest)) failure_families.

Definition nul : ascii := "000".

Definition validRelativePath (value : string) (allowDot : bool) : bool :=
  if String.eqb value "." then allowDot
  else if String.eqb value "" || (1024 <? len value) || negb (ValidString value) ||
          ContainsAny value (fun c => is_char "\" c || is_char nul c || is_char ":" c) ||
          HasPrefix value "/" || HasSuffix value "/" || Contains value "//" || HasPrefix value "./"
  then false
  else negb (slices_Contains (Split value "/") "..") && negb (slices_Contains (Split value "/") ".").

Definition validSupplyChain (output : OutputResult) : bool :=
  let evidence := or_SupplyChain output in
  if negb (String.eqb (BuildWorker.sc_PolicyState evidence) "accepted") || negb (String.eqb (BuildWorker.sc_ScanState evidence) "passed") ||
     negb (is_digest (BuildWorker.sc_PolicyDigest evidence)) || String.eqb (BuildWorker.sc_SignerKeyID evidence) "" ||
     (BuildWorker.sc_SignerKeyVersion evidence <? 1) || negb (is_digest (BuildWorker.sc_SignerPublicKeyDigest evidence))
  then false
  else match Cut (or_ArtifactRef output) "@" with
  | None => false
  | Some (repository, _) =>
      if String.eqb repository "" then false
      else RunStore.check_evidence repository RunStore.evidence_kinds [] (BuildWorker.sc_Evidence evidence)
  end.

(** ** Validation *)

Definition bad {A} (message : string) : result A := Err (Error "" message).

Section Validate.
Context `{GoText} `{!NetURL}.

Definition validArchiveRef (reference : string) : bool :=
  match url_Parse reference with
  | None => false
  | Some u =>
      String.eqb (u_Scheme u) "s3" && negb (String.eqb (u_Host u) "") && negb (String.eqb (u_Path u) "") &&
      match u_User u with None => true | Some _ => false end && String.eqb (u_RawQuery u) "" && String.eqb (u_Fragment u) "" &&
      negb (Contains (u_Path u) "//") && negb (slices_Contains (Split (u_Path u) "/") "..") && (len reference <=? 2048)
  end.

Definition request_identities (request : Request) : list (string * string) :=
  [(rq_BuildID request, "bld"); (rq_OrganizationID request, "org"); (rq_ProjectID request, "prj");
   (rq_DeploymentID request, "dep"); (rq_OperationID request, "op"); (s_SnapshotID (rq_Source request), "snp")].

Definition Request_Validate (request : Request) (now : Time) : result unit :=
  let source := rq_Source request in
  let configuration := rq_Configuration request in
  if negb (rq_Version request =? CurrentRequestVersion) || (rq_Generation request =? 0)
  then bad "build request version or generation is invalid"
  else
  let* _ := each (fun expected => if has_prefix expected.1 expected.2 then Ok tt else bad "build request resource identity is invalid")
              (request_identities request) in
  if negb (is_digest (s_SnapshotDigest source)) || negb (is_digest (s_ManifestDigest source)) ||
     negb (is_digest (s_ArchiveDigest source)) || (s_SizeBytes source <=? 0) || (Z.shiftl 1 30 <? s_SizeBytes source) ||
     negb (validArchiveRef (s_ArchiveRef source)) || negb (validRelativePath (s_SelectedRoot source) true)
  then bad "build request source is invalid"
  else if negb (String.eqb (c_Mode configuration) "auto") && negb (String.eqb (c_Mode configuration) "repository")
  then bad "build request configuration mode is invalid"
  else
  let* _ :=
    if String.eqb (c_Mode configuration) "repository" then
      if negb (validRelativePath (c_BuildFile configuration) false) || negb (HasSuffix (c_BuildFile configuration) ".star")
      then bad "repository build file is invalid" else Ok tt
    else if negb (String.eqb (c_BuildFile configuration) "")
    then bad "automatic configuration cannot select a repository build file" else Ok tt in
  if negb (String.eqb (rq_TargetPlatform request) "linux/amd64") && negb (String.eqb (rq_TargetPlatform request) "linux/arm64")
  then bad "build target platform is unsupported"
  else match ParseRFC3339Nano (rq_Deadline request) with
  | None => bad "build request deadline is invalid"
  | Some deadline =>
      if negb (After deadline now) || (2 * Hour <? Sub deadline now) then bad "build request deadline is invalid" else Ok tt
  end.

Definition result_states : list string := ["complete"; "failed"; "canceled"; "waiting"].

Definition check_output (output : OutputResult) : result unit :=
  if negb (is_output_name (or_Name output)) || negb (slices_Contains ["oci_image"; "static_bundle"] (or_Kind output)) ||
     negb (is_digest (or_ArtifactDigest output)) || negb (is_digest (or_ConfigDigest output)) ||
     negb (is_digest (or_ManifestDigest output)) || String.eqb (or_ArtifactRef output) "" || (or_ArtifactSize output <=? 0)
  then bad "build output result is invalid"
  else if negb (validSupplyChain output) then bad "build output supply-chain result is invalid"
  else Ok tt.

Definition check_service (service : ServiceResult) : result unit :=
  if negb (is_output_name (sr_Name service)) || negb (validRelativePath (sr_Root service) true) ||
     negb (slices_Contains ["web"; "worker"; "private_service"; "static"] (sr_Kind service)) ||
     negb (slices_Contains ["ruby"; "node"; "python"; "go"; "static"; "docker"] (sr_Language service)) ||
     String.eqb (sr_Framework service) "" || (64 <? len (sr_Framework service)) ||
     (length (sr_Processes service) =? 0)%nat || (32 <? length (sr_Processes service))%nat
  then bad "build service result is invalid" else Ok tt.

(** What a complete result has and another one lacks. *)
Definition check_evidence_of (result : Result) : Prelude.result unit :=
  if String.eqb (re_State result) "complete" then
    if (length (re_Outputs result) =? 0)%nat || negb (length (re_Services result) =? length (re_Outputs result))%nat ||
       negb (String.eqb (re_FailureCode result) "") || negb (String.eqb (re_FailureMessage result) "") ||
       negb (is_digest (re_DetectionDigest result)) || negb (is_digest (re_ManifestDigest result)) ||
       negb (is_digest (re_BuildIRDigest result)) || negb (is_digest (re_DefinitionDigest result)) ||
       negb (is_digest (re_AssignmentDigest result)) || negb (is_digest (re_LogsDigest result)) ||
       String.eqb (re_DetectorResultRef result) "" || String.eqb (re_ManifestRef result) "" ||
       String.eqb (re_GeneratedBuildRef result) "" || String.eqb (re_BuildIRRef result) "" ||
       String.eqb (re_DefinitionLockRef result) "" || negb (String.eqb (cr_Status (re_Cleanup result)) "clean")
    then bad "complete build result is missing immutable evidence" else Ok tt
  else if negb (is_failure_code (re_FailureCode result)) || String.eqb (re_FailureMessage result) "" ||
          (MaxEventMessageBytes <? len (re_FailureMessage result))
  then bad "non-complete build result lacks a safe failure" else Ok tt.

Definition Result_Validate (result : Result) : Prelude.result unit :=
  if negb (re_Version result =? CurrentResultVersion) || (re_Generation result =? 0) ||
     negb (slices_Contains result_states (re_State result))
  then bad "build result version, generation, or state is invalid"
  else if negb (has_prefix (re_BuildID result) "bld" && has_prefix (re_SourceSnapshotID result) "snp")
  then bad "build result resource identity is invalid"
  else if negb (is_digest (re_SourceDigest result)) then bad "build result source digest is invalid"
  else match ParseRFC3339Nano (re_StartedAt result), ParseRFC3339Nano (re_FinishedAt result) with
  | Some started, Some finished =>
      if Before finished started then bad "build result timing is invalid"
      else
        let* _ := check_evidence_of result in
        let* _ := each check_output (re_Outputs result) in
        let names := map or_Name (re_Outputs result) in
        if negb (IsSorted names) || negb (length (Compact names) =? length names)%nat
        then bad "build output results must be sorted and unique"
        else
          let* _ := each check_service (re_Services result) in
          if String.eqb (re_State result) "complete" && negb (bool_decide (map sr_Name (re_Services result) = names))
          then bad "build services do not match immutable outputs" else Ok tt
  | _, _ => bad "build result timing is invalid"
  end.

Definition Event_Validate (event : Event) : Prelude.result unit :=
  if negb (ev_Version event =? CurrentEventVersion) || (ev_Generation event =? 0) || (ev_Sequence event =? 0) ||
     (ev_Attempt event =? 0) || negb (is_stage (ev_Stage event)) || negb (is_event_kind (ev_Kind event)) ||
     (MaxEventLineBytes <? len (ev_Line event)) || (MaxEventMessageBytes <? len (ev_Message event)) ||
     negb (ValidString (ev_Line event)) || negb (ValidString (ev_Message event)) ||
     ContainsChar (ev_Line event) nul || ContainsChar (ev_Message event) nul
  then bad "build event is invalid"
  else if negb (has_prefix (ev_BuildID event) "bld") then bad "build event identity is invalid"
  else match ParseRFC3339Nano (ev_OccurredAt event) with
  | None => bad "build event time is invalid"
  | Some _ =>
      match ev_Terminal event with
      | None => Ok tt
      | Some terminal =>
          if negb (String.eqb (ev_Kind event) "terminal") || negb (String.eqb (re_BuildID terminal) (ev_BuildID event)) ||
             negb (re_Generation terminal =? ev_Generation event)
          then bad "terminal build event is inconsistent"
          else Result_Validate terminal
      end
  end.

End Validate.

End BuildRequest.
