(* ===== verification/BrokerStore.v ===== *)
(** * The build service's durable store (build-plane/internal/buildorchestrator:
    broker_store.go)

    A bbolt database with three buckets: the run of each build generation, the event
    log of each run in a nested bucket, and the checkpoint of each run.  Records are
    canonical JSON, validated when written and again when read.  Every operation is
    one transaction; the state of the store is the database. *)

From S2P Require Import Prelude Text GoStd GoTime GoURL Crypto Framing PlatformID Storage BuildIR LLBPolicy Assignment BuildWorker RunStore BuildRequest.
Import GoStd GoTime GoURL Crypto PlatformID Storage BuildRequest.

Open Scope Z_scope.

Module BrokerStore.

Definition BrokerRecordVersion : Z := 1.

Definition brokerRunsBucket : string := "build-service-runs-v1".
Definition brokerEventsBucket : string := "build-service-events-v1".
Definition brokerCheckpointBucket : string := "build-service-checkpoints-v1".

(** ** Records *)

Record RunRecord := {
  br_Version : Z;
  br_Request : Request;
  br_RequestDigest : string;
  br_State : string;
  br_Stage : string;
  br_Attempt : Z;
  br_LastSequence : Z;
  br_Dispatched : bool;
  br_Result : option Result;
  br_CreatedAt : string;
  br_UpdatedAt : string;
}.

Record Checkpoint := {
  cp_Version : Z;
  cp_BuildID : string;
  cp_Generation : Z;
  cp_RequestDigest : string;
  cp_StartedAt : string;
  cp_Partial : Result;
  cp_Envelope : Assignment.Envelope;
  cp_UpdatedAt : string;
}.

#[local] Existing Instance Assignment.Envelope_eq_dec.

#[export] Instance RunRecord_eq_dec : EqDecision RunRecord.
Proof. solve_decision. Defined.
#[export] Instance Checkpoint_eq_dec : EqDecision Checkpoint.
Proof. solve_decision. Defined.

Definition Terminal (record : RunRecord) : bool := slices_Contains result_states (br_State record).

#[global] Arguments Terminal : simpl never.

Definition allowed_transitions (from : string) : list string :=
  if String.eqb from "accepted" then ["running"; "canceling"]
  else if String.eqb from "running" then ["retrying"; "canceling"]
  else if String.eqb from "retrying" then ["running"; "canceling"]
  else [].

Definition validBrokerTransition (from to : string) : bool :=
  slices_Contains (allowed_transitions from) to || String.eqb from to.

(** [fmt.Sprintf("%s/%020d", buildID, generation)]; a uint64 has at most twenty
    digits. *)
Definition brokerRunKey (buildID : string) (generation : Z) : string := buildID +:+ "/" +:+ decpad 20 generation.

Definition sequenceKey (sequence : Z) : string := Framing.PutUint64 sequence.

Definition set_state (record : RunRecord) (state updatedAt : string) : RunRecord :=
  {| br_Version := br_Version record; br_Request := br_Request record; br_RequestDigest := br_RequestDigest record; br_State := state;
     br_Stage := br_Stage record; br_Attempt := br_Attempt record; br_LastSequence := br_LastSequence record;
     br_Dispatched := br_Dispatched record; br_Result := br_Result record; br_CreatedAt := br_CreatedAt record; br_UpdatedAt := updatedAt |}.

Definition with_sequence (event : Event) (sequence : Z) : Event :=
  {| ev_Version := ev_Version event; ev_BuildID := ev_BuildID event; ev_Generation := ev_Generation event; ev_Sequence := sequence;
     ev_Attempt := ev_Attempt event; ev_Stage := ev_Stage event; ev_Kind := ev_Kind event; ev_Output := ev_Output event;
     ev_Vertex := ev_Vertex event; ev_Name := ev_Name event; ev_Current := ev_Current event; ev_Total := ev_Total event;
     ev_Cached := ev_Cached event; ev_Stream := ev_Stream event; ev_Line := ev_Line event; ev_Code := ev_Code event;
     ev_Message := ev_Message event; ev_OccurredAt := ev_OccurredAt event; ev_Terminal := ev_Terminal event |}.

(** What an appended event makes of its run. *)
Definition record_event (record : RunRecord) (persisted : Event) (updatedAt : string) : RunRecord :=
  {| br_Version := br_Version record; br_Request := br_Request record; br_RequestDigest := br_RequestDigest record;
     br_State := match ev_Terminal persisted with
                 | Some terminal => re_State terminal
                 | None => if String.eqb (br_State record) "canceling" then br_State record else "running"
                 end;
     br_Stage := ev_Stage persisted; br_Attempt := Z.max (br_Attempt record) (ev_Attempt persisted);
     br_LastSequence := ev_Sequence persisted; br_Dispatched := br_Dispatched record || String.eqb (ev_Stage persisted) "assigned";
     br_Result := match ev_Terminal persisted with Some terminal => Some terminal | None => br_Result record end;
     br_CreatedAt := br_CreatedAt record; br_UpdatedAt := updatedAt |}.

(** The checks of [NewBoltBrokerStore]; [secure], [opened] and [initialized] say that
    the path has no symbolic link, the database opens and its buckets are there. *)
Definition NewBoltBrokerStore (path : string) (maxRuns maxEventsPerRun : Z) (secure opened initialized : bool) : result unit :=
  if String.eqb path "" || (maxRuns <? 1) || (10000000 <? maxRuns) || (maxEventsPerRun <? 1) || (10000000 <? maxEventsPerRun)
  then bad "build broker store configuration is invalid"
  else if negb secure then bad "build broker database path is invalid"
  else if negb opened then bad "open build broker database"
  else if negb initialized then bad "initialize build broker database"
  else Ok tt.

Section Store.
Context `{GoText} `{!NetURL} `{!Codec Request} `{!Codec RunRecord} `{!Codec Event} `{!Codec Checkpoint}
  `{!Codec Assignment.Payload} `{!Codec Assignment.Envelope} `{!Codec Result}.

(** ** Validation *)

Definition validateBrokerIdentity (buildID : string) (generation : Z) : result unit :=
  if negb (has_prefix buildID "bld") || (generation =? 0) then bad "build broker identity is invalid" else Ok tt.

Definition run_states : list string :=
  ["accepted"; "running"; "retrying"; "canceling"; "complete"; "failed"; "canceled"; "waiting"].

Definition RunRecord_Validate (record : RunRecord) : result unit :=
  let request := br_Request record in
  if negb (br_Version record =? BrokerRecordVersion) || is_err (validateBrokerIdentity (rq_BuildID request) (rq_Generation request)) ||
     negb (is_digest (br_RequestDigest record)) || negb (slices_Contains run_states (br_State record)) || negb (is_stage (br_Stage record))
  then bad "build broker run record identity or state is invalid"
  else match ParseRFC3339Nano (br_CreatedAt record), ParseRFC3339Nano (br_UpdatedAt record) with
  | Some created, Some updated =>
      if Before updated created || is_err (Request_Validate request created)
      then bad "build broker run record timing or request is invalid"
      else match marshal request with
      | None => bad "build broker run request digest is invalid"
      | Some requestBytes =>
          if negb (String.eqb (bytesDigest requestBytes) (br_RequestDigest record))
          then bad "build broker run request digest is invalid"
          else if Terminal record then
            match br_Result record with
            | None => bad "terminal build broker run lacks a valid result"
            | Some terminal =>
                if negb (String.eqb (re_State terminal) (br_State record)) || negb (String.eqb (re_BuildID terminal) (rq_BuildID request)) ||
                   negb (re_Generation terminal =? rq_Generation request) || is_err (Result_Validate terminal)
                then bad "terminal build broker run lacks a valid result" else Ok tt
            end
          else match br_Result record with
          | Some _ => bad "nonterminal build broker run contains a terminal result"
          | None => Ok tt
          end
      end
  | _, _ => bad "build broker run record timing or request is invalid"
  end.

Definition digestCanonicalPayload (payload : Assignment.Payload) : string :=
  match marshal payload with Some contents => bytesDigest contents | None => "" end.

(** The envelope of a checkpoint is present. *)
Definition signed (checkpoint : Checkpoint) : bool :=
  negb (String.eqb (Assignment.p_BuildID (Assignment.e_Payload (cp_Envelope checkpoint))) "").

Definition validateCheckpointRecord (checkpoint : Checkpoint) : result unit :=
  let payload := Assignment.e_Payload (cp_Envelope checkpoint) in
  if negb (cp_Version checkpoint =? 1) || is_err (validateBrokerIdentity (cp_BuildID checkpoint) (cp_Generation checkpoint)) ||
     negb (is_digest (cp_RequestDigest checkpoint))
  then bad "build checkpoint identity is invalid"
  else match ParseRFC3339Nano (cp_StartedAt checkpoint), ParseRFC3339Nano (cp_UpdatedAt checkpoint) with
  | Some started, Some updated =>
      if Before updated started then bad "build checkpoint time is invalid"
      else if signed checkpoint &&
              (negb (String.eqb (Assignment.p_BuildID payload) (cp_BuildID checkpoint)) ||
               negb (Assignment.p_Generation payload =? cp_Generation checkpoint) ||
               negb (String.eqb (re_AssignmentDigest (cp_Partial checkpoint)) (digestCanonicalPayload payload)))
      then bad "signed build checkpoint payload is invalid" else Ok tt
  | _, _ => bad "build checkpoint time is invalid"
  end.

(** [validateDurableValue] by the type of the value. *)
Class Durable (A : Type) := validateDurableValue : A → result unit.
#[export] Instance durable_run : Durable RunRecord := RunRecord_Validate.
#[export] Instance durable_event : Durable Event := Event_Validate.
#[export] Instance durable_checkpoint : Durable Checkpoint := validateCheckpointRecord.

Definition decodeCanonical {A} `{!Codec A} `{!Durable A} (contents : string) : result A :=
  match unmarshal contents with
  | None => bad "build broker record is malformed"
  | Some value =>
      if negb (bool_decide (marshal value = Some contents)) then bad "build broker record is not canonical"
      else let* _ := validateDurableValue value in Ok value
  end.

Definition canonicalOrNil {A} `{!Codec A} (value : A) : string := default "" (marshal value).

(** ** Transactions *)

Context {Tx : Type} `{!BoltTx Tx} `{!BoltCursor Tx}.

Definition putCanonical {A} `{!Codec A} `{!Durable A} (tx : Tx) (bucket key : string) (value : A) : result Tx :=
  let* _ := validateDurableValue value in
  match marshal value with
  | None => bad "canonicalize build broker record"
  | Some contents => tx_put tx bucket key contents
  end.

(** The walk of [latestRun]: from the first key not below the prefix, while keys
    have it. *)
Fixpoint latest_from (tx : Tx) (prefix : string) (keys : list string) (latest : option RunRecord) : result (option RunRecord) :=
  match keys with
  | [] => Ok latest
  | key :: rest =>
      if negb (HasPrefix key prefix) then Ok latest
      else
        let* record := decodeCanonical (default "" (tx_get tx brokerRunsBucket key)) in
        latest_from tx prefix rest
          (match latest with
           | Some l => if rq_Generation (br_Request l) <? rq_Generation (br_Request record) then Some record else Some l
           | None => Some record
           end)
  end.

Definition latestRun (tx : Tx) (buildID : string) : result (option RunRecord) :=
  let prefix := buildID +:+ "/" in latest_from tx prefix (Seek prefix (tx_keys tx brokerRunsBucket)) None.

Context (maxRuns maxEventsRun : Z).

Definition new_record (request : Request) (requestDigest timestamp : string) : RunRecord :=
  {| br_Version := BrokerRecordVersion; br_Request := request; br_RequestDigest := requestDigest; br_State := "accepted"; br_Stage := "accepted";
     br_Attempt := 0; br_LastSequence := 0; br_Dispatched := false; br_Result := None; br_CreatedAt := timestamp; br_UpdatedAt := timestamp |}.

Definition claim_tx (request : Request) (requestDigest : string) (now : Time) (tx : Tx) : result ((RunRecord * bool) * Tx) :=
  let key := brokerRunKey (rq_BuildID request) (rq_Generation request) in
  match tx_get tx brokerRunsBucket key with
  | Some contents =>
      let* existing := decodeCanonical contents in
      if negb (String.eqb (br_RequestDigest existing) requestDigest)
      then bad "build generation already has a different immutable request"
      else Ok ((existing, false), tx)
  | None =>
      if maxRuns <=? tx_keyN tx brokerRunsBucket then bad "build broker run capacity is exhausted"
      else
        let* latest := latestRun tx (rq_BuildID request) in
        if match latest with Some l => rq_Generation request <=? rq_Generation (br_Request l) | None => false end
        then bad "build generation is stale"
        else if match latest with Some l => negb (Terminal l) | None => false end
        then bad "a prior build generation is still active"
        else
          let record := new_record request requestDigest (FormatRFC3339Nano now) in
          let* tx' := putCanonical tx brokerRunsBucket key record in
          Ok ((record, true), tx')
  end.

(** [ctx] is what [ctx.Err()] answers inside the transaction. *)
Definition in_context {A} (ctx : Ctx) (body : Tx → result A) (tx : Tx) : result A :=
  match ctx with Some e => Err e | None => body tx end.

Definition Claim (ctx : Ctx) (c : commit) (request : Request) (now : Time) (tx : Tx) : Tx * result (RunRecord * bool) :=
  match Request_Validate request now with
  | Err e => (tx, Err e)
  | Ok _ =>
      match marshal request with
      | None => (tx, bad "canonicalize broker request")
      | Some requestBytes => Update c tx (in_context ctx (claim_tx request (bytesDigest requestBytes) now))
      end
  end.

Definition Lookup (ctx : Ctx) (buildID : string) (generation : Z) (tx : Tx) : result (option RunRecord) :=
  let* _ := validateBrokerIdentity buildID generation in
  in_context ctx (fun tx =>
    match tx_get tx brokerRunsBucket (brokerRunKey buildID generation) with
    | None => Ok None
    | Some contents => let* record := decodeCanonical contents in Ok (Some record)
    end) tx.

Definition set_state_tx (buildID : string) (generation : Z) (state : string) (now : Time) (tx : Tx) : result (RunRecord * Tx) :=
  let key := brokerRunKey buildID generation in
  match tx_get tx brokerRunsBucket key with
  | None => bad "build broker run is absent"
  | Some contents =>
      let* record := decodeCanonical contents in
      if Terminal record || negb (validBrokerTransition (br_State record) state)
      then bad "build broker state transition is invalid"
      else
        let record := set_state record state (FormatRFC3339Nano now) in
        let* tx' := putCanonical tx brokerRunsBucket key record in
        Ok (record, tx')
  end.

Definition SetState (ctx : Ctx) (c : commit) (buildID : string) (generation : Z) (state : string) (now : Time) (tx : Tx)
    : Tx * result RunRecord :=
  if is_err (validateBrokerIdentity buildID generation) || negb (slices_Contains ["running"; "retrying"; "canceling"] state) || IsZero now
  then (tx, bad "build broker state update is invalid")
  else Update c tx (in_context ctx (set_state_tx buildID generation state now)).

(** The event's time is outside the window of its run. *)
Definition outside_window (event : Event) (record : RunRecord) (now : Time) : bool :=
  match ParseRFC3339Nano (ev_OccurredAt event), ParseRFC3339Nano (br_CreatedAt record) with
  | Some occurredAt, Some createdAt => Before occurredAt (Add createdAt (- Minute)) || After occurredAt (Add now Minute)
  | _, _ => true
  end.

Definition append_tx (event : Event) (now : Time) (tx : Tx) : result ((Event * RunRecord) * Tx) :=
  let key := brokerRunKey (ev_BuildID event) (ev_Generation event) in
  let events := nested_bucket brokerEventsBucket key in
  match tx_get tx brokerRunsBucket key with
  | None => bad "build broker run is absent"
  | Some contents =>
      let* record := decodeCanonical contents in
      if Terminal record then bad "build broker run is already terminal"
      else if outside_window event record now then bad "build broker event time is outside the run window"
      else
        let* tx := tx_create tx events in
        if maxEventsRun <=? tx_keyN tx events then bad "build broker event capacity is exhausted"
        else
          let persisted := with_sequence event (u64 (br_LastSequence record + 1)) in
          let* _ := Event_Validate persisted in
          let* tx := putCanonical tx events (sequenceKey (ev_Sequence persisted)) persisted in
          let record := record_event record persisted (FormatRFC3339Nano now) in
          let* tx := putCanonical tx brokerRunsBucket key record in
          Ok ((persisted, record), tx)
  end.

Definition Append (ctx : Ctx) (c : commit) (event : Event) (now : Time) (tx : Tx) : Tx * result (Event * RunRecord) :=
  if is_err (Event_Validate event) || IsZero now then (tx, bad "build broker event is invalid")
  else Update c tx (in_context ctx (append_tx event now)).

(** The cursor's walk of [EventsAfter]: at most [limit] events. *)
Fixpoint read_events (tx : Tx) (events : string) (limit : nat) (keys : list string) : result (list Event) :=
  match limit, keys with
  | S limit', key :: rest =>
      let* event := decodeCanonical (default "" (tx_get tx events key)) in
      let* others := read_events tx events limit' rest in
      Ok (event :: others)
  | _, _ => Ok []
  end.

Definition EventsAfter (ctx : Ctx) (buildID : string) (generation after limit : Z) (tx : Tx) : result (list Event) :=
  if is_err (validateBrokerIdentity buildID generation) || (limit <? 1) || (1000 <? limit)
  then bad "build broker event query is invalid"
  else in_context ctx (fun tx =>
    let events := nested_bucket brokerEventsBucket (brokerRunKey buildID generation) in
    read_events tx events (Z.to_nat limit) (Seek (sequenceKey (u64 (after + 1))) (tx_keys tx events))) tx.

(** The walk over all runs; [ctx] answers once for each. *)
Fixpoint nonterminal_from (tx : Tx) (limit : Z) (ctx : nat → Ctx) (found : list RunRecord) (keys : list string) : result (list RunRecord) :=
  match keys with
  | [] => Ok found
  | key :: rest =>
      match ctx 0%nat with
      | Some e => Err e
      | None =>
          let* record := decodeCanonical (default "" (tx_get tx brokerRunsBucket key)) in
          if Terminal record then nonterminal_from tx limit (fun n => ctx (S n)) found rest
          else if limit <=? Z.of_nat (length found) then bad "build broker recovery limit exceeded"
          else nonterminal_from tx limit (fun n => ctx (S n)) (found ++ [record]) rest
      end
  end.

Definition Nonterminal (ctx : nat → Ctx) (limit : Z) (tx : Tx) : result (list RunRecord) :=
  if (limit <? 1) || (10000 <? limit) then bad "build broker recovery limit is invalid"
  else nonterminal_from tx limit ctx [] (tx_keys tx brokerRunsBucket).

Definition Load (ctx : Ctx) (buildID : string) (generation : Z) (tx : Tx) : result (option Checkpoint) :=
  let* _ := validateBrokerIdentity buildID generation in
  in_context ctx (fun tx =>
    match tx_get tx brokerCheckpointBucket (brokerRunKey buildID generation) with
    | None => Ok None
    | Some contents => let* checkpoint := decodeCanonical contents in Ok (Some checkpoint)
    end) tx.

(** A checkpoint that is signed keeps its envelope and its partial result. *)
Definition same_identity (existing checkpoint : Checkpoint) : bool :=
  String.eqb (canonicalOrNil (cp_Envelope existing)) (canonicalOrNil (cp_Envelope checkpoint)) &&
  String.eqb (canonicalOrNil (cp_Partial existing)) (canonicalOrNil (cp_Partial checkpoint)).

Definition save_tx (checkpoint : Checkpoint) (tx : Tx) : result (unit * Tx) :=
  let key := brokerRunKey (cp_BuildID checkpoint) (cp_Generation checkpoint) in
  match tx_get tx brokerRunsBucket key with
  | None => bad "build checkpoint has no broker run"
  | Some runContents =>
      match decodeCanonical (A := RunRecord) runContents with
      | Err _ => bad "build checkpoint request digest differs from broker run"
      | Ok run =>
          if negb (String.eqb (br_RequestDigest run) (cp_RequestDigest checkpoint))
          then bad "build checkpoint request digest differs from broker run"
          else
            let* _ :=
              match tx_get tx brokerCheckpointBucket key with
              | None => Ok tt
              | Some existingContents =>
                  let* existing := decodeCanonical existingContents in
                  if signed existing && negb (same_identity existing checkpoint)
                  then bad "signed build checkpoint identity is immutable" else Ok tt
              end in
            let* tx' := putCanonical tx brokerCheckpointBucket key checkpoint in
            Ok (tt, tx')
      end
  end.

Definition Save (ctx : Ctx) (c : commit) (checkpoint : Checkpoint) (tx : Tx) : Tx * result unit :=
  match validateCheckpointRecord checkpoint with
  | Err e => (tx, Err e)
  | Ok _ => Update c tx (in_context ctx (save_tx checkpoint))
  end.

End Store.

End BrokerStore.
