(* ===== verification/BrokerKeys.v ===== *)
(** * Keys of the build service's store

    The store finds a run by text: [brokerRunKey] of build and generation, and the
    big-endian [sequenceKey] of an event.  This file shows what the store relies on:
    a key determines its run, the keys of one build are one block of a cursor's walk,
    and the order of event keys is the order of their numbers. *)

From S2P Require Import Prelude Text GoStd GoTime Framing PlatformID Storage BrokerStore.
Import GoStd PlatformID Storage BrokerStore.

Open Scope Z_scope.

Module BrokerKeys.

(** ** Order of byte strings *)

Lemma compare_prefix p a b : String.compare (p +:+ a) (p +:+ b) = String.compare a b.
Proof. induction p as [|c p IH]; [done|]. cbn. by rewrite ascii_compare_byte, Z.compare_refl. Qed.

(** A key without the prefix that is not below it is above every key with it. *)
Lemma prefix_block p k r : HasPrefix k p = false → String.compare k p ≠ Lt → String.compare (p +:+ r) k = Lt.
Proof.
  revert k. induction p as [|c p IH]; intros k; [by destruct k|]. destruct k as [|d k]; cbn; [done|].
  rewrite !ascii_compare_byte. destruct (Ascii.eqb_spec c d) as [->|Hne]; cbn.
  - rewrite Z.compare_refl. apply IH.
  - intros _ Hk. destruct (Z.compare_spec (byte_of d) (byte_of c)) as [E|?|?]; [|done|].
    + exfalso. apply Hne. by apply byte_of_inj.
    + by rewrite (proj2 (Z.compare_lt_iff _ _)).
Qed.

Lemma prefix_above p r : (Compare (p +:+ r) p <? 0) = false.
Proof.
  apply Z.ltb_ge. unfold Compare. induction p as [|c p IH]; [by destruct r|]. cbn. by rewrite ascii_compare_byte, Z.compare_refl.
Qed.

(** [Seek] keeps the keys that are not below. *)
Lemma Seek_filter key keys : StronglySorted (le_by Compare) keys → Seek key keys = filter (fun k => 0 ≤ Compare k key) keys.
Proof.
  induction 1 as [|k keys Hs IH Hk]; [done|]. cbn [Seek]. rewrite filter_cons. destruct (Z.ltb_spec (Compare k key) 0).
  - rewrite decide_False by lia. done.
  - rewrite decide_True by lia. f_equal. rewrite Forall_forall in Hk. symmetry. clear IH Hs.
    induction keys as [|k' keys IH]; [done|]. rewrite filter_cons, decide_True.
    + f_equal. apply IH. intros x Hx. apply Hk. by right.
    + assert (Compare k k' ≤ 0) by (apply Hk; left). rewrite (Compare_opp k' key).
      destruct (decide (Compare key k' ≤ 0)); [lia|]. exfalso. rewrite (Compare_opp key k') in *.
      assert (Compare k key ≤ 0) by (eapply Compare_trans; [done|lia]).
      assert (Compare k key = 0) as E by lia. apply Compare_0 in E as ->. rewrite (Compare_opp key k') in *. lia.
Qed.

Lemma sorted_filter (P : string → Prop) `{!∀ k, Decision (P k)} keys :
  StronglySorted (le_by Compare) keys → StronglySorted (le_by Compare) (filter P keys).
Proof.
  induction 1 as [|k keys Hs IH Hk]; [constructor|]. rewrite filter_cons. case_decide; [|done]. constructor; [done|].
  rewrite Forall_forall in Hk |- *. intros x Hx. apply Hk. by apply list_elem_of_filter in Hx as [_ Hx].
Qed.

(** ** Big-endian numbers *)

Definition be_string (n : nat) (z : Z) : string := String.string_of_list_ascii (map char_of (be_bytes n z)).

Lemma PutUint64_be z : Framing.PutUint64 z = be_string 8 z.
Proof.
  unfold Framing.PutUint64, be_string. cbn [map be_bytes]. rewrite !Z.shiftr_div_pow2 by lia.
  by change (2 ^ (8 * 7)) with (256 ^ Z.of_nat 7).
Qed.

Lemma be_string_lt n a b : a mod 256 ^ Z.of_nat n < b mod 256 ^ Z.of_nat n → String.compare (be_string n a) (be_string n b) = Lt.
Proof.
  induction n as [|n IH]; [rewrite !Z.mod_1_r; lia|]. rewrite Nat2Z.inj_succ, Z.pow_succ_r by lia.
  rewrite (Z.mul_comm 256), !Z.rem_mul_r by lia. intros Hlt.
  unfold be_string. cbn [be_bytes map String.string_of_list_ascii String.compare].
  assert (∀ z, 0 ≤ (z / 256 ^ Z.of_nat n) mod 256 < 256) as Hb by (intros; apply Z.mod_pos_bound; lia).
  rewrite ascii_compare_byte, !byte_of_char_of by (pose proof (Hb a); pose proof (Hb b); lia).
  assert (∀ z, 0 ≤ z mod 256 ^ Z.of_nat n < 256 ^ Z.of_nat n) as Hm by (intros; apply Z.mod_pos_bound; lia).
  pose proof (Hm a). pose proof (Hm b).
  destruct (Z.compare_spec ((a / 256 ^ Z.of_nat n) mod 256) ((b / 256 ^ Z.of_nat n) mod 256)) as [E|E|E]; [|done|nia].
  apply IH. nia.
Qed.

Lemma sequenceKey_lt a b : 0 ≤ a → a < b → b < 2 ^ 64 → Compare (sequenceKey a) (sequenceKey b) < 0.
Proof.
  intros Ha Hab Hb. unfold Compare, sequenceKey. rewrite !PutUint64_be.
  rewrite be_string_lt; [lia|]. change (256 ^ Z.of_nat 8) with (2 ^ 64). rewrite !Z.mod_small by lia. done.
Qed.

Lemma sequenceKey_le a b : 0 ≤ a < 2 ^ 64 → 0 ≤ b < 2 ^ 64 → 0 ≤ Compare (sequenceKey a) (sequenceKey b) ↔ b ≤ a.
Proof.
  intros Ha Hb. destruct (Z.lt_trichotomy a b) as [Hlt|[->|Hgt]].
  - pose proof (sequenceKey_lt a b). lia.
  - rewrite Compare_refl. lia.
  - pose proof (sequenceKey_lt b a). rewrite Compare_opp. lia.
Qed.

Lemma sequenceKey_inj a b : 0 ≤ a < 2 ^ 64 → 0 ≤ b < 2 ^ 64 → sequenceKey a = sequenceKey b → a = b.
Proof. intros. by apply Framing.PutUint64_inj. Qed.

(** The keys of the events 1 to [n], in the cursor's order. *)
Definition event_keys (n : nat) : list string := map (fun i => sequenceKey (Z.of_nat i)) (seq 1 n).

Lemma elem_of_event_keys n key : key ∈ event_keys n ↔ ∃ i, key = sequenceKey (Z.of_nat i) ∧ (1 ≤ i ≤ n)%nat.
Proof.
  unfold event_keys. rewrite list_elem_of_fmap. split; intros (i & -> & Hi); exists i; rewrite elem_of_seq in *; split; (done || lia).
Qed.

Lemma event_keys_sorted n : Z.of_nat n < 2 ^ 64 → StronglySorted (le_by Compare) (event_keys n) ∧ NoDup (event_keys n).
Proof.
  unfold event_keys. intros Hn. assert (Z.of_nat (1 + n) ≤ 2 ^ 64) as Hs by lia. revert Hs. clear Hn. generalize 1%nat as start.
  induction n as [|n IH]; intros start Hs; cbn [seq map]; [split; constructor|].
  destruct (IH (S start) ltac:(lia)) as [I1 I2].
  assert (∀ key, key ∈ map (fun i => sequenceKey (Z.of_nat i)) (seq (S start) n) → Compare (sequenceKey (Z.of_nat start)) key < 0) as Hlt.
  { intros key (i & -> & Hi)%list_elem_of_fmap. apply elem_of_seq in Hi. apply sequenceKey_lt; lia. }
  split; constructor; [done| |  |done].
  - apply Forall_forall. intros key Hk. apply Hlt in Hk. unfold le_by. lia.
  - intros Hk. apply Hlt in Hk. rewrite Compare_refl in Hk. lia.
Qed.

(** Seeking number [m] leaves the keys from [m] on. *)
Lemma Seek_event_keys n m :
  Z.of_nat n < 2 ^ 64 → 0 ≤ m < 2 ^ 64 → Seek (sequenceKey m) (event_keys n) = drop (Z.to_nat (m - 1)) (event_keys n).
Proof.
  intros Hn Hm. unfold event_keys.
  assert (∀ start len, Z.of_nat (start + len) ≤ 2 ^ 64 → Seek (sequenceKey m) (map (fun i => sequenceKey (Z.of_nat i)) (seq start len)) =
    drop (Z.to_nat (m - Z.of_nat start)) (map (fun i => sequenceKey (Z.of_nat i)) (seq start len))) as Hgen.
  { intros start len. revert start. induction len as [|len IH]; intros start Hs; cbn [seq map Seek]; [by rewrite drop_nil|].
    pose proof (sequenceKey_le (Z.of_nat start) m ltac:(lia) Hm) as Hle. destruct (Z.ltb_spec (Compare (sequenceKey (Z.of_nat start)) (sequenceKey m)) 0).
    - replace (Z.to_nat (m - Z.of_nat start)) with (S (Z.to_nat (m - Z.of_nat (S start)))) by lia. cbn [drop]. apply IH. lia.
    - replace (Z.to_nat (m - Z.of_nat start)) with 0%nat by lia. done. }
  rewrite Hgen by lia. done.
Qed.

(** ** Run keys *)

(** The identity of a run. *)
Definition run_id `{GoText} (buildID : string) (generation : Z) : Prop :=
  has_prefix buildID "bld" = true ∧ generation ≠ 0 ∧ is_u64 generation.

Section RunKeys.
Context `{GoText}.

Lemma run_id_slash buildID generation : run_id buildID generation → ContainsChar buildID "/" = false.
Proof. intros (Hb & _). eapply ContainsChar_forall; [by eapply has_prefix_alphabet|done]. Qed.

Lemma brokerRunKey_cut buildID generation :
  run_id buildID generation → Cut (brokerRunKey buildID generation) "/" = Some (buildID, decpad 20 generation).
Proof. intros Hid. unfold brokerRunKey. apply Cut_app. by eapply run_id_slash. Qed.

Lemma brokerRunKey_inj b g b' g' : run_id b g → run_id b' g' → brokerRunKey b g = brokerRunKey b' g' → b = b' ∧ g = g'.
Proof.
  intros Hb Hb' E. pose proof (brokerRunKey_cut _ _ Hb) as Hc. rewrite E, brokerRunKey_cut in Hc by done.
  apply Some_inj, pair_eq in Hc as [-> Hd]. split; [done|]. apply (f_equal (digits_value 0)) in Hd. rewrite !GoTime.digits_value_decpad in Hd.
  destruct Hb as (_ & _ & Hg), Hb' as (_ & _ & Hg'). unfold is_u64 in *. change (10 ^ Z.of_nat 20) with (10 ^ 20) in Hd.
  rewrite !Z.mod_small in Hd by lia. lia.
Qed.

(** The prefix of a build is on its own keys only. *)
Lemma brokerRunKey_prefix b b' g' :
  ContainsChar b "/" = false → run_id b' g' → HasPrefix (brokerRunKey b' g') (b +:+ "/") = true ↔ b' = b.
Proof.
  intros Hb Hid. rewrite HasPrefix_spec. split.
  - intros [r E]. pose proof (brokerRunKey_cut _ _ Hid) as Hc. rewrite E, str_app_assoc in Hc.
    change ("/" +:+ r) with (String "/" r) in Hc. rewrite Cut_app in Hc by done. by injection Hc.
  - intros ->. exists (decpad 20 g'). unfold brokerRunKey. by rewrite str_app_assoc.
Qed.

End RunKeys.

End BrokerKeys.
