(* ===== verification/BrokerSpec.v ===== *)
(** * What the build service's store promises

    The specification of broker_store.go: runs, event logs and checkpoints as maps
    keyed by build and generation, and one function [spec] that says what each
    operation answers and leaves behind, or that it is refused.  [wf] is the invariant
    of the maps.  BrokerRefinement.v shows that the bbolt store behaves like this;
    BrokerHistory.v draws consequences for sequences of operations. *)

From S2P Require Import Prelude Text GoStd GoTime GoURL Crypto PlatformID Storage Assignment BuildRequest BrokerStore BrokerKeys.
Import GoStd GoTime GoURL Crypto PlatformID Storage BuildRequest BrokerStore BrokerKeys.

Open Scope Z_scope.

Module BrokerSpec.

(** ** State and operations *)

Record broker := {
  runs : gmap (string * Z) RunRecord;
  logs : gmap (string * Z) (list Event);
  checkpoints : gmap (string * Z) Checkpoint;
}.

Definition empty_broker : broker := {| runs := ∅; logs := ∅; checkpoints := ∅ |}.

Definition events_of (st : broker) (id : string * Z) : list Event := default [] (logs st !! id).

Inductive op :=
| OpClaim (request : Request) (now : Time)
| OpLookup (buildID : string) (generation : Z)
| OpSetState (buildID : string) (generation : Z) (state : string) (now : Time)
| OpAppend (event : Event) (now : Time)
| OpEventsAfter (buildID : string) (generation after limit : Z)
| OpNonterminal (limit : Z)
| OpLoad (buildID : string) (generation : Z)
| OpSave (checkpoint : Checkpoint).

Inductive answer :=
| Claimed (record : RunRecord) (created : bool)
| Found (record : option RunRecord)
| Updated (record : RunRecord)
| Appended (event : Event) (record : RunRecord)
| Events (events : list Event)
| Runs (records : list RunRecord)
| Loaded (checkpoint : option Checkpoint)
| Saved.

(** A generation is a uint64. *)
Definition well_typed (o : op) : Prop :=
  match o with
  | OpClaim request _ => is_u64 (rq_Generation request)
  | OpLookup _ g | OpSetState _ g _ _ | OpLoad _ g => is_u64 g
  | OpEventsAfter _ g after _ => is_u64 g ∧ is_u64 after
  | OpAppend event _ => is_u64 (ev_Generation event)
  | OpSave checkpoint => is_u64 (cp_Generation checkpoint)
  | OpNonterminal _ => True
  end.

Definition put_run (st : broker) (id : string * Z) (record : RunRecord) : broker :=
  {| runs := <[id := record]> (runs st); logs := logs st; checkpoints := checkpoints st |}.

Definition put_event (st : broker) (id : string * Z) (event : Event) : broker :=
  {| runs := runs st; logs := <[id := events_of st id ++ [event]]> (logs st); checkpoints := checkpoints st |}.

Definition put_checkpoint (st : broker) (id : string * Z) (checkpoint : Checkpoint) : broker :=
  {| runs := runs st; logs := logs st; checkpoints := <[id := checkpoint]> (checkpoints st) |}.

(** The identities in the order of their keys. *)
Definition compare_ids (i j : (string * Z) * RunRecord) : Z := Compare (brokerRunKey i.1.1 i.1.2) (brokerRunKey j.1.1 j.1.2).

Definition all_runs (st : broker) : list RunRecord := map snd (SortStableFunc compare_ids (map_to_list (runs st))).

Section Spec.
Context `{GoText} `{!NetURL} `{!Codec Request} `{!Codec RunRecord} `{!Codec Event} `{!Codec Checkpoint}
  `{!Codec Assignment.Payload} `{!Codec Assignment.Envelope} `{!Codec Result}.
Context (maxRuns maxEventsRun : Z).

(** A value the store can write. *)
Definition storable {A} `{!Codec A} `{!Durable A} (value : A) : bool :=
  is_ok (validateDurableValue value) && match marshal value with Some _ => true | None => false end.

(** A run of the build that is newer than the request, or still active. *)
Definition blocks (buildID : string) (generation : Z) (entry : (string * Z) * RunRecord) : bool :=
  String.eqb entry.1.1 buildID && ((generation <=? entry.1.2) || negb (Terminal entry.2)).

Definition spec_claim (st : broker) (request : Request) (now : Time) : option (answer * broker) :=
  let id := (rq_BuildID request, rq_Generation request) in
  if is_err (Request_Validate request now) then None
  else match marshal request with
  | None => None
  | Some requestBytes =>
      match runs st !! id with
      | Some existing =>
          if String.eqb (br_RequestDigest existing) (bytesDigest requestBytes) then Some (Claimed existing false, st) else None
      | None =>
          let record := new_record request (bytesDigest requestBytes) (FormatRFC3339Nano now) in
          if (maxRuns <=? Z.of_nat (size (runs st))) || existsb (blocks id.1 id.2) (map_to_list (runs st)) || negb (storable record)
          then None
          else Some (Claimed record true, put_run st id record)
      end
  end.

Definition spec_set_state (st : broker) (id : string * Z) (state : string) (now : Time) : option (answer * broker) :=
  if is_err (validateBrokerIdentity id.1 id.2) || negb (slices_Contains ["running"; "retrying"; "canceling"] state) || IsZero now
  then None
  else match runs st !! id with
  | None => None
  | Some record =>
      let record' := set_state record state (FormatRFC3339Nano now) in
      if Terminal record || negb (validBrokerTransition (br_State record) state) || negb (storable record') then None
      else Some (Updated record', put_run st id record')
  end.

Definition spec_append (st : broker) (event : Event) (now : Time) : option (answer * broker) :=
  let id := (ev_BuildID event, ev_Generation event) in
  if is_err (Event_Validate event) || IsZero now then None
  else match runs st !! id with
  | None => None
  | Some record =>
      let number := Z.of_nat (length (events_of st id)) in
      let persisted := with_sequence event (number + 1) in
      let record' := record_event record persisted (FormatRFC3339Nano now) in
      if Terminal record || outside_window event record now || (maxEventsRun <=? number) || negb (storable persisted) ||
         negb (storable record')
      then None
      else Some (Appended persisted record', put_run (put_event st id persisted) id record')
  end.

(** [after + 1] is computed on 64 bits, so that the largest number starts over. *)
Definition spec_events_after (st : broker) (id : string * Z) (after limit : Z) : option (answer * broker) :=
  if is_err (validateBrokerIdentity id.1 id.2) || (limit <? 1) || (1000 <? limit) then None
  else Some (Events (take (Z.to_nat limit) (drop (Z.to_nat (u64 (after + 1) - 1)) (events_of st id))), st).

Definition spec_nonterminal (st : broker) (limit : Z) : option (answer * broker) :=
  let active := List.filter (fun record => negb (Terminal record)) (all_runs st) in
  if (limit <? 1) || (10000 <? limit) || (limit <? Z.of_nat (length active)) then None else Some (Runs active, st).

Definition spec_save (st : broker) (checkpoint : Checkpoint) : option (answer * broker) :=
  let id := (cp_BuildID checkpoint, cp_Generation checkpoint) in
  if negb (storable checkpoint) then None
  else match runs st !! id with
  | None => None
  | Some run =>
      if negb (String.eqb (br_RequestDigest run) (cp_RequestDigest checkpoint)) ||
         match checkpoints st !! id with
         | Some existing => signed existing && negb (same_identity existing checkpoint)
         | None => false
         end
      then None
      else Some (Saved, put_checkpoint st id checkpoint)
  end.

Definition spec (st : broker) (o : op) : option (answer * broker) :=
  match o with
  | OpClaim request now => spec_claim st request now
  | OpLookup b g => if is_err (validateBrokerIdentity b g) then None else Some (Found (runs st !! (b, g)), st)
  | OpSetState b g state now => spec_set_state st (b, g) state now
  | OpAppend event now => spec_append st event now
  | OpEventsAfter b g after limit => spec_events_after st (b, g) after limit
  | OpNonterminal limit => spec_nonterminal st limit
  | OpLoad b g => if is_err (validateBrokerIdentity b g) then None else Some (Loaded (checkpoints st !! (b, g)), st)
  | OpSave checkpoint => spec_save st checkpoint
  end.

(** ** The invariant *)

(** A run and its log [l]: the record is valid and carries its identity; the log is
    numbered from one and valid; only its last event can be terminal, and then it is
    the run's result; stage, attempt and dispatch are those of the log. *)
Record run_wf (id : string * Z) (record : RunRecord) (l : list Event) : Prop := {
  run_identity : rq_BuildID (br_Request record) = id.1 ∧ rq_Generation (br_Request record) = id.2;
  run_valid : RunRecord_Validate record = Ok tt;
  run_last : br_LastSequence record = Z.of_nat (length l);
  run_numbered : ∀ i e, l !! i = Some e →
    Event_Validate e = Ok tt ∧ ev_BuildID e = id.1 ∧ ev_Generation e = id.2 ∧ ev_Sequence e = Z.of_nat i + 1;
  run_terminal : ∀ i e, l !! i = Some e → is_Some (ev_Terminal e) → S i = length l;
  run_result : br_Result record = last l ≫= ev_Terminal;
  run_stage : br_Stage record = default "accepted" (ev_Stage <$> last l);
  run_attempt : br_Attempt record = fold_left Z.max (map ev_Attempt l) 0;
  run_dispatched : br_Dispatched record = existsb (fun e => String.eqb (ev_Stage e) "assigned") l;
}.

Record wf (st : broker) : Prop := {
  wf_runs : ∀ b g record, runs st !! (b, g) = Some record →
    run_id b g ∧ is_Some (marshal record) ∧ run_wf (b, g) record (events_of st (b, g));
  wf_logs : ∀ b g, events_of st (b, g) ≠ [] → is_Some (runs st !! (b, g));
  wf_bound : ∀ id, Z.of_nat (length (events_of st id)) ≤ Z.max 0 maxEventsRun;
  wf_events : ∀ id e, e ∈ events_of st id → is_Some (marshal e);
  wf_active : ∀ b g g' record, runs st !! (b, g) = Some record → is_Some (runs st !! (b, g')) → g < g' → Terminal record = true;
  wf_checkpoints : ∀ b g checkpoint, checkpoints st !! (b, g) = Some checkpoint →
    is_Some (marshal checkpoint) ∧ validateCheckpointRecord checkpoint = Ok tt ∧ cp_BuildID checkpoint = b ∧ cp_Generation checkpoint = g ∧
    ∃ record, runs st !! (b, g) = Some record ∧ br_RequestDigest record = cp_RequestDigest checkpoint;
}.

Lemma empty_wf : wf empty_broker.
Proof.
  split; unfold events_of; cbn; intros *; rewrite ?lookup_empty; cbn; try done.
  - lia.
  - by intros ?%elem_of_nil.
Qed.

(** ** The operations preserve it *)

Lemma storable_true {A} `{!Codec A} `{!Durable A} (value : A) :
  storable value = true ↔ validateDurableValue value = Ok tt ∧ is_Some (marshal value).
Proof.
  unfold storable. rewrite andb_true_iff. destruct (validateDurableValue value) as [[]|e], (marshal value); split; cbn; naive_solver eauto.
Qed.

Lemma validateBrokerIdentity_ok b g : is_err (validateBrokerIdentity b g) = false → is_u64 g → run_id b g.
Proof. unfold validateBrokerIdentity. destruct (_ || _) eqn:E; [done|]. intros _ Hg. bsimpl. by split_and!. Qed.

Lemma Event_identity event : Event_Validate event = Ok tt → is_u64 (ev_Generation event) → run_id (ev_BuildID event) (ev_Generation event).
Proof.
  unfold Event_Validate. intros Hv Hg. destruct (_ || _) eqn:E; [done|]. destruct (negb (has_prefix _ _)) eqn:Hb; [done|]. clear Hv.
  bsimpl. by split_and!.
Qed.

Lemma Request_identity request now : Request_Validate request now = Ok tt → is_u64 (rq_Generation request) → run_id (rq_BuildID request) (rq_Generation request).
Proof.
  unfold Request_Validate, request_identities. intros Hv Hg. destruct (_ || _) eqn:E; [done|]. cbn [each] in Hv. destruct (has_prefix _ _) eqn:Hb; [|done].
  bsimpl. by split_and!.
Qed.

Lemma checkpoint_identity checkpoint :
  validateCheckpointRecord checkpoint = Ok tt → is_u64 (cp_Generation checkpoint) → run_id (cp_BuildID checkpoint) (cp_Generation checkpoint).
Proof.
  unfold validateCheckpointRecord. intros Hv Hg. destruct (_ || _) eqn:E; [done|]. apply validateBrokerIdentity_ok; [|done].
  apply orb_false_iff in E as [E _]. by apply orb_false_iff in E as [_ E].
Qed.

(** A valid record that is not terminal has no result. *)
Lemma nonterminal_result record : RunRecord_Validate record = Ok tt → Terminal record = false → br_Result record = None.
Proof.
  unfold RunRecord_Validate. intros Hv Ht. rewrite Ht in Hv. repeat (case_match; try done).
Qed.

Lemma run_wf_new id request digest timestamp :
  (rq_BuildID request, rq_Generation request) = id → RunRecord_Validate (new_record request digest timestamp) = Ok tt →
  run_wf id (new_record request digest timestamp) [].
Proof. intros <- Hv. split; cbn; try done. Qed.

Lemma run_wf_set_state id record l state timestamp :
  run_wf id record l → Terminal record = false → RunRecord_Validate (set_state record state timestamp) = Ok tt →
  run_wf id (set_state record state timestamp) l.
Proof. intros [] Ht Hv. by split. Qed.

Lemma run_wf_append id record l event timestamp :
  run_wf id record l → Terminal record = false → (ev_BuildID event, ev_Generation event) = id →
  let persisted := with_sequence event (Z.of_nat (length l) + 1) in
  Event_Validate persisted = Ok tt → RunRecord_Validate (record_event record persisted timestamp) = Ok tt →
  run_wf id (record_event record persisted timestamp) (l ++ [persisted]).
Proof.
  intros [Hid Hval Hlast Hnum Hterm Hres Hstage Hatt Hdis] Ht <- persisted He Hr. pose proof (nonterminal_result _ Hval Ht) as Hnone.
  split; cbn [fst snd]; try done.
  - cbn. rewrite length_app. cbn. lia.
  - intros i e [Hi|[Hi E]]%lookup_app_Some; [by apply Hnum|]. apply list_lookup_singleton_Some in E as [E <-].
    split_and!; try done. cbn. lia.
  - intros i e [Hi|[Hi E]]%lookup_app_Some Hsome; rewrite length_app; cbn.
    + exfalso. pose proof (Hterm _ _ Hi Hsome) as Hlen. rewrite Hres in Hnone. rewrite last_lookup, <- Hlen in Hnone.
      cbn in Hnone. rewrite Hi in Hnone. cbn in Hnone. rewrite Hnone in Hsome. by destruct Hsome.
    + apply list_lookup_singleton_Some in E as [E _]. lia.
  - rewrite last_snoc. cbn. rewrite Hnone. by destruct (ev_Terminal event).
  - rewrite last_snoc. done.
  - rewrite map_app, fold_left_app. cbn. by rewrite <- Hatt.
  - rewrite existsb_app. cbn. by rewrite orb_false_r, <- Hdis.
Qed.

Lemma events_of_put_run st id record : events_of (put_run st id record) = events_of st.
Proof. done. Qed.

Lemma events_of_put_event st id event id' :
  events_of (put_event st id event) id' = if decide (id' = id) then events_of st id ++ [event] else events_of st id'.
Proof. unfold events_of at 1, put_event. cbn. rewrite lookup_insert. case_decide as E; destruct (decide (id' = id)); naive_solver. Qed.

(** Replacing the record of the latest run of a build. *)
Lemma wf_put_run st b g record :
  wf st → run_id b g → is_Some (marshal record) → run_wf (b, g) record (events_of st (b, g)) →
  (∀ g' r, runs st !! (b, g') = Some r → (g < g' → Terminal record = true) ∧ (g' < g → Terminal r = true)) →
  (∀ r, runs st !! (b, g) = Some r → br_RequestDigest r = br_RequestDigest record) →
  wf (put_run st (b, g) record).
Proof.
  intros [Hruns Hlogs Hbound Hev Hact Hcp] Hid Hm Hwf Hothers Hdig. split; rewrite ?events_of_put_run; cbn [runs checkpoints put_run]; try done.
  - intros b' g' r [[[= <- <-] <-]|[Hne Hr]]%lookup_insert_Some; [done|by apply Hruns].
  - intros b' g' Hl. rewrite lookup_insert_is_Some. apply Hlogs in Hl. destruct (decide ((b', g') = (b, g))); naive_solver.
  - intros b' g1 g2 r [[[= <- <-] <-]|[Hne Hr]]%lookup_insert_Some Hr2 Hlt.
    + apply lookup_insert_is_Some in Hr2 as [E|[_ [r2 Hr2]]]; [simplify_eq; lia|]. by apply (Hothers _ _ Hr2).
    + apply lookup_insert_is_Some in Hr2 as [E|[_ Hr2]]; [simplify_eq; by apply (Hothers _ _ Hr)|by eapply Hact].
  - intros b' g' checkpoint Hc. apply Hcp in Hc as (Hmc & Hv & Hb & Hg & r & Hr & Hd). split_and!; try done.
    destruct (decide ((b', g') = (b, g))) as [E|Hne]; [|exists r; by rewrite lookup_insert_ne].
    simplify_eq. exists record. rewrite lookup_insert_eq. split; [done|]. by rewrite <- (Hdig r).
Qed.

Lemma wf_put_event st b g event :
  Z.of_nat (length (events_of st (b, g))) < maxEventsRun → is_Some (marshal event) → is_Some (runs st !! (b, g)) →
  wf st → (∀ id, Z.of_nat (length (events_of (put_event st (b, g) event) id)) ≤ Z.max 0 maxEventsRun) ∧
    (∀ id e, e ∈ events_of (put_event st (b, g) event) id → is_Some (marshal e)) ∧
    (∀ b' g', events_of (put_event st (b, g) event) (b', g') ≠ [] → is_Some (runs st !! (b', g'))).
Proof.
  intros Hlen Hm Hr [_ Hlogs Hbound Hev _ _]. split_and!; intros *; rewrite events_of_put_event; case_decide as E; try done; try apply Hbound; try apply Hev; try apply Hlogs.
  - rewrite length_app. cbn. lia.
  - rewrite elem_of_app, list_elem_of_singleton. intros [Hin| ->]; [by eapply Hev|done].
  - by injection E as -> ->.
Qed.

Lemma unblocked st b g :
  existsb (blocks b g) (map_to_list (runs st)) = false ↔ ∀ g' r, runs st !! (b, g') = Some r → g' < g ∧ Terminal r = true.
Proof.
  rewrite <- not_true_iff_false, existsb_exists. split.
  - intros Hn g' r Hr. destruct (blocks b g ((b, g'), r)) eqn:Hb.
    + exfalso. apply Hn. eexists. split; [|exact Hb]. by apply list_elem_of_In, elem_of_map_to_list.
    + unfold blocks in Hb. cbn [fst snd] in Hb. rewrite String.eqb_refl in Hb. cbn in Hb. by bsimpl.
  - intros Hall ([[b' g'] r] & Hin & Hb). apply list_elem_of_In, elem_of_map_to_list in Hin. unfold blocks in Hb. cbn [fst snd] in Hb.
    apply andb_true_iff in Hb as [->%String.eqb_eq Hb]. destruct (Hall _ _ Hin) as [Hg Ht]. rewrite Ht in Hb. bsimpl.
    destruct Hb; [lia|done].
Qed.

Lemma no_run_no_events st id : wf st → runs st !! id = None → events_of st id = [].
Proof.
  intros Hwf Hr. destruct id as [b g]. destruct (events_of st (b, g)) eqn:El; [done|].
  destruct (wf_logs _ Hwf b g) as [? Hx]; [by rewrite El|congruence].
Qed.

(** A run that is not terminal is the latest of its build. *)
Lemma active_latest st b g record :
  wf st → runs st !! (b, g) = Some record → Terminal record = false →
  ∀ g' r, runs st !! (b, g') = Some r → (g < g' → False) ∧ (g' < g → Terminal r = true).
Proof.
  intros Hwf Hr Ht g' r Hr'. split; intros Hlt.
  - rewrite (wf_active _ Hwf _ _ _ _ Hr (mk_is_Some _ _ Hr') Hlt) in Ht. done.
  - by apply (wf_active _ Hwf _ _ _ _ Hr' (mk_is_Some _ _ Hr)).
Qed.

Lemma spec_claim_wf st request now a st' :
  wf st → is_u64 (rq_Generation request) → spec_claim st request now = Some (a, st') → wf st'.
Proof.
  intros Hwf Ht Hs. unfold spec_claim in Hs. destruct (Request_Validate request now) as [[]|e] eqn:Hv; [|done]. cbn in Hs.
  destruct (marshal request) as [bytes|]; [|done]. destruct (runs st !! _) as [existing|] eqn:Hr.
  { destruct (String.eqb _ _); [|done]. by simplify_eq. }
  destruct (_ || negb (storable _)) eqn:E; [done|]. simplify_eq. apply orb_false_iff in E as [E Hst]. apply orb_false_iff in E as [_ Hbl].
  apply negb_false_iff, storable_true in Hst as [Hval Hm]. pose proof (proj1 (unblocked _ _ _) Hbl) as Hother.
  apply wf_put_run; [done|by apply (Request_identity _ now)|done| | |by rewrite Hr].
  - rewrite no_run_no_events by done. by apply run_wf_new.
  - intros g' r Hr'. destruct (Hother _ _ Hr'). split; [lia|done].
Qed.

Lemma spec_set_state_wf st b g state now a st' :
  wf st → is_u64 g → spec_set_state st (b, g) state now = Some (a, st') → wf st'.
Proof.
  intros Hwf Ht Hs. unfold spec_set_state in Hs. destruct (is_err _ || _ || _) eqn:Hi; [done|]. destruct (runs st !! (b, g)) as [record|] eqn:Hr; [|done].
  destruct (_ || negb (storable _)) eqn:E; [done|]. simplify_eq. apply orb_false_iff in E as [E Hst]. apply orb_false_iff in E as [E _].
  apply negb_false_iff, storable_true in Hst as [Hval Hm]. destruct (wf_runs _ Hwf _ _ _ Hr) as (Hid & _ & Hrun).
  apply wf_put_run; [done..|by apply run_wf_set_state| |by rewrite Hr; intros ? [= <-]].
  intros g' r Hr'. destruct (active_latest _ _ _ _ Hwf Hr E _ _ Hr'). tauto.
Qed.

Lemma spec_append_wf st event now a st' :
  wf st → is_u64 (ev_Generation event) → spec_append st event now = Some (a, st') → wf st'.
Proof.
  intros Hwf Ht Hs. unfold spec_append in Hs. destruct (is_err _ || _) eqn:Hi; [done|]. destruct (runs st !! _) as [record|] eqn:Hr; [|done].
  destruct (_ || negb (storable (record_event _ _ _))) eqn:E; [done|]. simplify_eq. apply orb_false_iff in E as [E Hst'].
  apply orb_false_iff in E as [E Hst]. apply orb_false_iff in E as [E Hlen]. apply orb_false_iff in E as [E _].
  apply negb_false_iff, storable_true in Hst as [Hval Hm], Hst' as [Hval' Hm']. destruct (wf_runs _ Hwf _ _ _ Hr) as (Hid & _ & Hrun).
  set (persisted := with_sequence event _) in *. set (b := ev_BuildID event) in *. set (g := ev_Generation event) in *.
  pose proof (run_wf_append _ _ _ event _ Hrun E eq_refl Hval Hval') as Hrun'. apply Z.leb_gt in Hlen.
  destruct (wf_put_event st b g persisted) as (Hb1 & Hb2 & Hb3); [done..|by eexists|done|].
  pose proof (active_latest _ _ _ _ Hwf Hr E) as Hlatest. split; rewrite ?events_of_put_run; cbn [runs checkpoints put_run put_event]; try done.
  - intros b' g' r [[[= <- <-] <-]|[Hne Hr']]%lookup_insert_Some; rewrite events_of_put_event.
    + by rewrite decide_True.
    + rewrite decide_False by congruence. by apply (wf_runs _ Hwf).
  - intros b' g' Hl. rewrite lookup_insert_is_Some'. right. by apply Hb3.
  - intros b' g1 g2 r [[[= <- <-] <-]|[Hne Hr1]]%lookup_insert_Some Hr2 Hlt; apply lookup_insert_is_Some in Hr2 as [E2|[_ [r2 Hr2]]]; simplify_eq; try lia.
    + destruct (Hlatest _ _ Hr2). tauto.
    + by apply (Hlatest _ _ Hr1).
    + by apply (wf_active _ Hwf _ _ _ _ Hr1 (mk_is_Some _ _ Hr2)).
  - intros b' g' checkpoint Hc. destruct (wf_checkpoints _ Hwf _ _ _ Hc) as (Hmc & Hv & Hb & Hg & r & Hr' & Hd). split_and!; try done.
    destruct (decide ((b', g') = (b, g))) as [Eid|Hne]; [|exists r; by rewrite lookup_insert_ne].
    exists (record_event record persisted (FormatRFC3339Nano now)). rewrite Eid in *. rewrite lookup_insert_eq. split; [done|]. cbn. congruence.
Qed.

Lemma spec_save_wf st checkpoint a st' : wf st → spec_save st checkpoint = Some (a, st') → wf st'.
Proof.
  intros Hwf Hs. unfold spec_save in Hs. destruct (storable checkpoint) eqn:Hst; [|done]. cbn [negb] in Hs. apply storable_true in Hst as [Hval Hm].
  destruct (runs st !! _) as [run|] eqn:Hr; [|done]. destruct (negb (String.eqb _ _) || _) eqn:E; [done|]. simplify_eq.
  apply orb_false_iff in E as [Hd _]. apply negb_false_iff, String.eqb_eq in Hd.
  destruct Hwf as [H1 H2 H3 H4 H5 H6]. split; try done. cbn [checkpoints put_checkpoint runs].
  intros b g c [[[= <- <-] <-]|[Hne Hc]]%lookup_insert_Some; [|by apply H6]. split_and!; try done. by exists run.
Qed.

Theorem spec_wf st o a st' : wf st → well_typed o → spec st o = Some (a, st') → wf st'.
Proof.
  intros Hwf Ht Hs. destruct o; cbn [spec well_typed] in *;
    eauto using spec_claim_wf, spec_set_state_wf, spec_append_wf, spec_save_wf.
  - destruct (is_err _); by simplify_eq.
  - unfold spec_events_after in Hs. destruct (_ || _); by simplify_eq.
  - unfold spec_nonterminal in Hs. destruct (_ || _); by simplify_eq.
  - destruct (is_err _); by simplify_eq.
Qed.

End Spec.

End BrokerSpec.
