(* ===== verification/BrokerRefinement.v ===== *)
(** * The bbolt store implements its specification

    [represents] relates a database to the maps of BrokerSpec.v.  Every operation of
    broker_store.go answers as [spec] does and leaves a database that represents what
    [spec] leaves; a refusal leaves the database alone, except that a commit that
    fails may have reached the disk. *)

From S2P Require Import Prelude Text GoStd GoTime GoURL Crypto PlatformID Storage Assignment BuildRequest BrokerStore BrokerKeys BrokerSpec.
Import GoStd GoTime GoURL Crypto PlatformID Storage BuildRequest BrokerStore BrokerKeys BrokerSpec.

Open Scope Z_scope.

Module BrokerRefinement.

(** ** Operations on the database *)

(** The surroundings of one call: what its context answers, and its commit. *)
Record Env := { env_ctx : nat → Ctx; env_commit : commit }.

Definition healthy (env : Env) : Prop := (∀ n, env_ctx env n = None) ∧ env_commit env = CommitOk.

Definition answer_of {Tx A} (inj : A → answer) (outcome : Tx * result A) : Tx * result answer :=
  (outcome.1, match outcome.2 with Ok a => Ok (inj a) | Err e => Err e end).

Definition events_bucket (id : string * Z) : string := nested_bucket brokerEventsBucket (brokerRunKey id.1 id.2).

Section Refinement.
Context `{GoText} `{!NetURL} `{!Codec Request} `{!Codec RunRecord} `{!Codec Event} `{!Codec Checkpoint}
  `{!Codec Assignment.Payload} `{!Codec Assignment.Envelope} `{!Codec Result}.
Context {Tx : Type} `{!BoltTx Tx} `{BC : !BoltCursor Tx}.
Context (maxRuns maxEventsRun : Z).

Definition exec (env : Env) (tx : Tx) (o : op) : Tx * result answer :=
  let ctx := env_ctx env 0%nat in
  let c := env_commit env in
  match o with
  | OpClaim request now => answer_of (fun a => Claimed a.1 a.2) (Claim maxRuns ctx c request now tx)
  | OpLookup b g => answer_of Found (tx, Lookup ctx b g tx)
  | OpSetState b g state now => answer_of Updated (SetState ctx c b g state now tx)
  | OpAppend event now => answer_of (fun a => Appended a.1 a.2) (Append maxEventsRun ctx c event now tx)
  | OpEventsAfter b g after limit => answer_of Events (tx, EventsAfter ctx b g after limit tx)
  | OpNonterminal limit => answer_of Runs (tx, Nonterminal (env_ctx env) limit tx)
  | OpLoad b g => answer_of Loaded (tx, Load ctx b g tx)
  | OpSave checkpoint => answer_of (fun _ => Saved) (Save ctx c checkpoint tx)
  end.

(** bbolt takes every write. *)
Definition faultless : Prop := (∀ (t : Tx) b k v, is_ok (tx_put t b k v) = true) ∧ (∀ (t : Tx) b, is_ok (tx_create t b) = true).

(** ** A bucket keyed by runs *)

Record holds {A} `{!Codec A} `{!Durable A} (tx : Tx) (bucket : string) (m : gmap (string * Z) A) : Prop := {
  holds_get : ∀ b g, run_id b g → tx_get tx bucket (brokerRunKey b g) = m !! (b, g) ≫= marshal;
  holds_keys : ∀ k, is_Some (tx_get tx bucket k) → ∃ b g, k = brokerRunKey b g ∧ run_id b g;
  holds_dom : ∀ b g a, m !! (b, g) = Some a → run_id b g ∧ is_Some (marshal a) ∧ validateDurableValue a = Ok tt;
}.

Section Bucket.
Context {A : Type} `{!Codec A} `{!Durable A}.
Implicit Types (tx : Tx) (m : gmap (string * Z) A) (a : A).

Lemma decode_marshal a contents : marshal a = Some contents → validateDurableValue a = Ok tt → decodeCanonical contents = Ok a.
Proof. intros Hm Hv. unfold decodeCanonical. rewrite (unmarshal_marshal _ _ Hm). by rewrite bool_decide_true, Hv. Qed.

Lemma holds_Some tx bucket m b g a :
  holds tx bucket m → m !! (b, g) = Some a → ∃ contents, tx_get tx bucket (brokerRunKey b g) = Some contents ∧ decodeCanonical contents = Ok a.
Proof.
  intros Hh Ha. destruct (holds_dom _ _ _ Hh _ _ _ Ha) as (Hid & [c Hc] & Hv). exists c. rewrite (holds_get _ _ _ Hh) by done.
  rewrite Ha. split; [done|]. by apply decode_marshal.
Qed.

Lemma holds_None tx bucket m b g : holds tx bucket m → run_id b g → m !! (b, g) = None → tx_get tx bucket (brokerRunKey b g) = None.
Proof. intros Hh Hid Ha. rewrite (holds_get _ _ _ Hh) by done. by rewrite Ha. Qed.

Lemma putCanonical_Ok tx bucket key a tx' :
  putCanonical tx bucket key a = Ok tx' → ∃ contents, marshal a = Some contents ∧ validateDurableValue a = Ok tt ∧ tx_put tx bucket key contents = Ok tx'.
Proof.
  unfold putCanonical. destruct (validateDurableValue a) as [[]|e]; [|done]. cbn. destruct (marshal a) as [c|]; [|done]. intros Hp. by exists c.
Qed.

Lemma putCanonical_storable tx bucket key a : is_err (putCanonical tx bucket key a) = true → storable a = false ∨ ¬ faultless.
Proof.
  intros He. destruct (storable a) eqn:Hs; [|by left]. right. intros [Hf _]. apply storable_true in Hs as [Hv [c Hc]].
  unfold putCanonical in He. rewrite Hv in He. cbn in He. rewrite Hc in He. unfold is_err in He. by rewrite Hf in He.
Qed.

Lemma holds_put tx bucket m b g a tx' :
  holds tx bucket m → run_id b g → putCanonical tx bucket (brokerRunKey b g) a = Ok tx' → holds tx' bucket (<[(b, g) := a]> m).
Proof.
  intros [Hg Hk Hd] Hid (c & Hc & Hv & Hp)%putCanonical_Ok. split.
  - intros b' g' Hid'. rewrite (tx_get_put _ _ _ _ _ Hp). destruct (decide ((b', g') = (b, g))) as [E|Hne].
    + injection E as -> ->. rewrite lookup_insert_eq. by rewrite decide_True.
    + rewrite lookup_insert_ne by congruence. rewrite decide_False; [by apply Hg|]. intros [_ E].
      apply brokerRunKey_inj in E as [-> ->]; [done..].
  - intros k. rewrite (tx_get_put _ _ _ _ _ Hp). case_decide as E; [|apply Hk]. destruct E as [_ ->]. eauto.
  - intros b' g' a' [[[= <- <-] <-]|[Hne Ha]]%lookup_insert_Some; [|by apply Hd]. by split_and!.
Qed.

Lemma holds_frame tx tx' bucket m : holds tx bucket m → (∀ k, tx_get tx' bucket k = tx_get tx bucket k) → holds tx' bucket m.
Proof. intros [Hg Hk Hd] E. split; [|intros k; rewrite E; apply Hk|done]. intros b g Hid. rewrite E. by apply Hg. Qed.

(** The keys of the bucket, in the cursor's order. *)
Lemma holds_tx_keys tx bucket m :
  holds tx bucket m → tx_keys tx bucket = Sort (map (fun entry => brokerRunKey entry.1.1 entry.1.2) (map_to_list m)).
Proof.
  intros Hh. apply sorted_ext; [apply tx_keys_sorted|apply tx_keys_nodup|apply Sort_sorted| |].
  - rewrite Sort_perm. apply NoDup_fmap_2_strong; [|apply NoDup_map_to_list].
    intros [[b g] a] [[b' g'] a'] Hin Hin' E. apply elem_of_map_to_list in Hin, Hin'. cbn in E.
    apply brokerRunKey_inj in E as [-> ->]; [|by eapply holds_dom..]. congruence.
  - intros k. rewrite tx_keys_get, Sort_perm. split.
    + intros Hk. destruct (holds_keys _ _ _ Hh _ Hk) as (b & g & -> & Hid). rewrite (holds_get _ _ _ Hh) in Hk by done.
      destruct (m !! (b, g)) as [a|] eqn:Ha; [|by destruct Hk]. apply list_elem_of_fmap. exists ((b, g), a). split; [done|]. by apply elem_of_map_to_list.
    + intros ([[b g] a] & -> & Hin)%list_elem_of_fmap. apply elem_of_map_to_list in Hin.
      destruct (holds_Some _ _ _ _ _ _ Hh Hin) as (c & Hc & _). by exists c.
Qed.

Lemma holds_size tx bucket m : holds tx bucket m → tx_keyN tx bucket = Z.of_nat (size m).
Proof using BC. intros Hh. rewrite tx_keyN_keys, (holds_tx_keys _ _ _ Hh), Sort_perm, length_map, length_map_to_list. done. Qed.

Lemma holds_empty tx bucket : (∀ bucket k, tx_get tx bucket k = None) → holds tx bucket ∅.
Proof. intros Hn. split; intros *; rewrite ?Hn, ?lookup_empty; [done|by intros []|done]. Qed.

End Bucket.

(** ** An event log *)

Definition numbered (l : list Event) (n : Z) : option Event := if 1 <=? n then l !! Z.to_nat (n - 1) else None.

Record holds_log (tx : Tx) (bucket : string) (l : list Event) : Prop := {
  log_get : ∀ n, is_u64 n → tx_get tx bucket (sequenceKey n) = numbered l n ≫= marshal;
  log_keys : ∀ k, is_Some (tx_get tx bucket k) → ∃ n, k = sequenceKey n ∧ is_u64 n;
  log_dom : ∀ e, e ∈ l → is_Some (marshal e) ∧ Event_Validate e = Ok tt;
  log_length : Z.of_nat (length l) < 2 ^ 64;
}.

Lemma holds_log_frame tx tx' bucket l : holds_log tx bucket l → (∀ k, tx_get tx' bucket k = tx_get tx bucket k) → holds_log tx' bucket l.
Proof. intros [Hg Hk Hd Hl] E. split; [|intros k; rewrite E; apply Hk|done..]. intros n Hn. rewrite E. by apply Hg. Qed.

Lemma numbered_Some l i e : l !! i = Some e → numbered l (Z.of_nat i + 1) = Some e.
Proof. intros Hi. unfold numbered. rewrite (proj2 (Z.leb_le _ _)) by lia. by replace (Z.to_nat _) with i by lia. Qed.

Lemma log_lookup tx bucket l i e :
  holds_log tx bucket l → l !! i = Some e → ∃ c, tx_get tx bucket (sequenceKey (Z.of_nat (S i))) = Some c ∧ decodeCanonical c = Ok e.
Proof.
  intros [Hg _ Hd Hl] Hi. destruct (Hd e) as [[c Hc] Hv]; [by eapply list_elem_of_lookup_2|]. exists c.
  pose proof (lookup_lt_Some _ _ _ Hi). replace (Z.of_nat (S i)) with (Z.of_nat i + 1) by lia. rewrite Hg by (unfold is_u64; lia).
  rewrite (numbered_Some _ _ _ Hi). split; [done|]. by apply decode_marshal.
Qed.

Lemma log_tx_keys tx bucket l : holds_log tx bucket l → tx_keys tx bucket = event_keys (length l).
Proof.
  intros Hh. destruct (event_keys_sorted (length l) (log_length _ _ _ Hh)) as [Hs Hn].
  apply sorted_ext; [apply tx_keys_sorted|apply tx_keys_nodup|done..|]. intros k. rewrite tx_keys_get, elem_of_event_keys. split.
  - intros Hk. destruct (log_keys _ _ _ Hh _ Hk) as (n & -> & Hu). rewrite (log_get _ _ _ Hh) in Hk by done. unfold numbered in Hk.
    destruct (Z.leb_spec 1 n); [|by destruct Hk]. destruct (l !! _) as [e|] eqn:El; [|by destruct Hk]. apply lookup_lt_Some in El.
    exists (Z.to_nat n). split; [f_equal; lia|lia].
  - intros (i & -> & Hi). destruct (lookup_lt_is_Some_2 l (i - 1)) as [e He]; [lia|].
    destruct (log_lookup _ _ _ _ _ Hh He) as (c & Hc & _). replace (S (i - 1)) with i in Hc by lia. by exists c.
Qed.

Lemma log_put tx bucket l e tx' :
  holds_log tx bucket l → Z.of_nat (length l) + 1 < 2 ^ 64 → putCanonical tx bucket (sequenceKey (Z.of_nat (length l) + 1)) e = Ok tx' →
  holds_log tx' bucket (l ++ [e]).
Proof.
  intros [Hg Hk Hd Hl] Hlen (c & Hc & Hv & Hp)%putCanonical_Ok. split.
  - intros n Hn. rewrite (tx_get_put _ _ _ _ _ Hp). unfold numbered. destruct (decide (n = Z.of_nat (length l) + 1)) as [->|Hne].
    + rewrite decide_True by done. rewrite (proj2 (Z.leb_le _ _)) by lia. replace (Z.to_nat _) with (length l) by lia.
      by rewrite lookup_app_r, Nat.sub_diag by lia.
    + rewrite decide_False; [|intros [_ E]; apply sequenceKey_inj in E; unfold is_u64 in *; lia]. rewrite Hg by done. unfold numbered.
      destruct (Z.leb_spec 1 n); [|done]. destruct (decide (Z.to_nat (n - 1) < length l)%nat); [by rewrite lookup_app_l|].
      rewrite !lookup_ge_None_2; [done|rewrite length_app; cbn; lia|lia].
  - intros k. rewrite (tx_get_put _ _ _ _ _ Hp). case_decide as E; [|apply Hk]. destruct E as [_ ->]. intros _. eexists. split; [done|]. unfold is_u64. lia.
  - intros e'. rewrite elem_of_app, list_elem_of_singleton. intros [Hin| ->]; [by apply Hd|]. split; [by exists c|done].
  - rewrite length_app. cbn. lia.
Qed.

(** Reading a stretch of the log. *)
Lemma read_events_take tx bucket l limit i :
  holds_log tx bucket l → read_events tx bucket limit (drop i (event_keys (length l))) = Ok (take limit (drop i l)).
Proof.
  intros Hh. revert i. induction limit as [|limit IH]; intros i; [by destruct (drop i (event_keys _))|].
  destruct (decide (i < length l)%nat) as [Hi|Hi].
  - destruct (lookup_lt_is_Some_2 l i Hi) as [e He]. rewrite (drop_S l e i He).
    assert (event_keys (length l) !! i = Some (sequenceKey (Z.of_nat (S i)))) as Hk.
    { unfold event_keys. rewrite list_lookup_fmap, lookup_seq_lt by done. done. }
    rewrite (drop_S _ _ _ Hk). cbn [read_events take]. destruct (log_lookup _ _ _ _ _ Hh He) as (c & -> & Hc).
    change (default "" (Some c)) with c. rewrite Hc. cbn. by rewrite IH.
  - rewrite !drop_ge; [done|lia|unfold event_keys; rewrite length_map, length_seq; lia].
Qed.

(** ** The database and the maps *)

Record represents (tx : Tx) (st : broker) : Prop := {
  rep_runs : holds tx brokerRunsBucket (runs st);
  rep_checkpoints : holds tx brokerCheckpointBucket (checkpoints st);
  rep_logs : ∀ b g, run_id b g → holds_log tx (events_bucket (b, g)) (events_of st (b, g));
}.

Lemma events_bucket_runs id : events_bucket id ≠ brokerRunsBucket.
Proof. by unfold events_bucket, nested_bucket. Qed.

Lemma events_bucket_checkpoints id : events_bucket id ≠ brokerCheckpointBucket.
Proof. by unfold events_bucket, nested_bucket. Qed.

Lemma events_bucket_inj b g b' g' : run_id b g → run_id b' g' → events_bucket (b, g) = events_bucket (b', g') → (b, g) = (b', g').
Proof.
  intros Hid Hid' E. unfold events_bucket, nested_bucket in E. cbn [fst snd] in E.
  apply str_app_inj_length in E as [_ E]; [|done]. apply str_app_inj_length in E as [_ E]; [|done].
  apply brokerRunKey_inj in E as [-> ->]; done.
Qed.

Lemma tx_put_other (tx tx' : Tx) bucket bucket' k v : tx_put tx bucket k v = Ok tx' → bucket' ≠ bucket → ∀ k', tx_get tx' bucket' k' = tx_get tx bucket' k'.
Proof. intros Hp Hne k'. rewrite (tx_get_put _ _ _ _ _ Hp). rewrite decide_False; [done|]. by intros [E _]. Qed.

Lemma putCanonical_other {A} `{!Codec A} `{!Durable A} tx bucket bucket' key (a : A) tx' :
  putCanonical tx bucket key a = Ok tx' → bucket' ≠ bucket → ∀ k, tx_get tx' bucket' k = tx_get tx bucket' k.
Proof. intros (c & _ & _ & Hp)%putCanonical_Ok. by eapply tx_put_other. Qed.

Lemma represents_put_run tx st b g record tx' :
  represents tx st → run_id b g → putCanonical tx brokerRunsBucket (brokerRunKey b g) record = Ok tx' → represents tx' (put_run st (b, g) record).
Proof.
  intros [Hr Hc Hl] Hid Hp. split; cbn [runs checkpoints put_run].
  - by eapply holds_put.
  - eapply holds_frame; [done|]. by apply (putCanonical_other _ _ _ _ _ _ Hp).
  - intros b' g' Hid'. eapply holds_log_frame; [by apply Hl|]. apply (putCanonical_other _ _ _ _ _ _ Hp). apply events_bucket_runs.
Qed.

Lemma represents_put_checkpoint tx st b g checkpoint tx' :
  represents tx st → run_id b g → putCanonical tx brokerCheckpointBucket (brokerRunKey b g) checkpoint = Ok tx' →
  represents tx' (put_checkpoint st (b, g) checkpoint).
Proof.
  intros [Hr Hc Hl] Hid Hp. split; cbn [runs checkpoints put_checkpoint].
  - eapply holds_frame; [done|]. by apply (putCanonical_other _ _ _ _ _ _ Hp).
  - by eapply holds_put.
  - intros b' g' Hid'. eapply holds_log_frame; [by apply Hl|]. apply (putCanonical_other _ _ _ _ _ _ Hp). apply events_bucket_checkpoints.
Qed.

Lemma represents_put_event tx st b g event tx' :
  represents tx st → run_id b g → Z.of_nat (length (events_of st (b, g))) + 1 < 2 ^ 64 →
  putCanonical tx (events_bucket (b, g)) (sequenceKey (Z.of_nat (length (events_of st (b, g))) + 1)) event = Ok tx' →
  represents tx' (put_event st (b, g) event).
Proof.
  intros [Hr Hc Hl] Hid Hlen Hp. split; cbn [runs checkpoints put_event].
  - eapply holds_frame; [done|]. apply (putCanonical_other _ _ _ _ _ _ Hp). apply not_eq_sym, events_bucket_runs.
  - eapply holds_frame; [done|]. apply (putCanonical_other _ _ _ _ _ _ Hp). apply not_eq_sym, events_bucket_checkpoints.
  - intros b' g' Hid'. rewrite events_of_put_event. case_decide as E.
    + rewrite E. eapply log_put; [by apply Hl|done|done].
    + eapply holds_log_frame; [by apply Hl|]. apply (putCanonical_other _ _ _ _ _ _ Hp). intros Eb. apply E. by apply events_bucket_inj.
Qed.

Lemma represents_frame tx tx' st : represents tx st → (∀ bucket k, tx_get tx' bucket k = tx_get tx bucket k) → represents tx' st.
Proof.
  intros [Hr Hc Hl] E. split; [by eapply holds_frame..|]. intros b g Hid. eapply holds_log_frame; [by apply Hl|]. done.
Qed.

(** ** The latest run of a build *)

Definition generation (record : RunRecord) : Z := rq_Generation (br_Request record).

Lemma latest_from_spec tx st b ks acc :
  wf maxEventsRun st → represents tx st → ContainsChar b "/" = false → StronglySorted (le_by Compare) ks →
  (∀ k, k ∈ ks → 0 ≤ Compare k (b +:+ "/") ∧ ∃ b' g' r, k = brokerRunKey b' g' ∧ runs st !! (b', g') = Some r) →
  ∃ latest, latest_from tx (b +:+ "/") ks acc = Ok latest ∧
    match latest with
    | None => acc = None ∧ ∀ g, brokerRunKey b g ∉ ks ∨ runs st !! (b, g) = None
    | Some l => (acc = Some l ∨ runs st !! (b, generation l) = Some l) ∧ (∀ a, acc = Some a → generation a ≤ generation l) ∧
        ∀ g r, brokerRunKey b g ∈ ks → runs st !! (b, g) = Some r → g ≤ generation l
    end.
Proof.
  intros Hwf Hrep Hb Hs. revert acc. induction Hs as [|k ks Hs IH Hk]; intros acc Hks.
  { exists acc. split; [done|]. destruct acc as [a|]; [|split; [done|]; intros; left; by intros ?%elem_of_nil].
    split_and!; [by left|by intros ? [= ->]|by intros ? ? ?%elem_of_nil]. }
  destruct (Hks k) as (Hge & b' & g' & r & -> & Hr); [left|]. destruct (wf_runs _ _ Hwf _ _ _ Hr) as (Hid & _ & Hrun).
  cbn [latest_from]. destruct (HasPrefix _ _) eqn:Hp; cbn [negb].
  - apply brokerRunKey_prefix in Hp as ->; [|done..]. destruct (holds_Some _ _ _ _ _ _ (rep_runs _ _ Hrep) Hr) as (c & -> & Hc).
    change (default "" (Some c)) with c. rewrite Hc. cbn [bind_result].
    assert (generation r = g') as Hg by (by destruct (run_identity _ _ _ Hrun)).
    set (acc' := match acc with Some l => _ | None => _ end).
    destruct (IH acc') as (latest & -> & Hl); [by intros; apply Hks; right|]. exists latest. split; [done|].
    assert (∃ l', acc' = Some l' ∧ (acc = Some l' ∨ l' = r) ∧ (∀ a, acc = Some a → generation a ≤ generation l') ∧ g' ≤ generation l') as (l' & Ea & Hl' & Hmax & Hg').
    { unfold acc', generation in *. destruct acc as [a|]; [destruct (Z.ltb_spec (rq_Generation (br_Request a)) (rq_Generation (br_Request r)))|];
        eexists; (split; [done|]); split_and!; try naive_solver lia. }
    rewrite Ea in Hl. destruct latest as [l|]; [|by destruct Hl]. destruct Hl as (H1 & H2 & H3). pose proof (H2 _ eq_refl).
    split_and!.
    + destruct H1 as [[= ->]|H1]; [|by right]. destruct Hl' as [->| ->]; [by left|]. right. by rewrite Hg.
    + intros a Ha. apply Hmax in Ha. lia.
    + intros g0 r0 [E|Hin]%elem_of_cons Hr0; [|by eapply H3].
      apply brokerRunKey_inj in E as [_ ->]; [lia|by eapply (wf_runs _ _ Hwf)|done].
  - exists acc. split; [done|]. rewrite Forall_forall in Hk.
    assert (∀ g r0, brokerRunKey b g ∈ brokerRunKey b' g' :: ks → runs st !! (b, g) = Some r0 → False) as Hnone.
    { intros g r0 Hin Hr0. destruct (wf_runs _ _ Hwf _ _ _ Hr0) as (Hid0 & _).
      assert (String.compare (brokerRunKey b g) (brokerRunKey b' g') = Lt) as Hlt.
      { unfold brokerRunKey at 1. rewrite <- str_app_assoc. apply prefix_block; [done|]. intros E. unfold Compare in Hge. rewrite E in Hge. lia. }
      apply elem_of_cons in Hin as [E|Hin]; [by rewrite E, compare_refl in Hlt|]. apply Hk in Hin. unfold le_by in Hin.
      rewrite Compare_opp in Hin. unfold Compare in Hin. rewrite Hlt in Hin. lia. }
    destruct acc as [a|].
    + split_and!; [by left|by intros ? [= ->]|]. intros g r0 Hin Hr0. exfalso. by eapply Hnone.
    + split; [done|]. intros g. destruct (runs st !! (b, g)) as [r0|] eqn:Hr0; [|by right]. left. intros Hin. by eapply Hnone.
Qed.

Lemma latestRun_spec tx st b :
  wf maxEventsRun st → represents tx st → ContainsChar b "/" = false →
  ∃ latest, latestRun tx b = Ok latest ∧
    match latest with
    | None => ∀ g, runs st !! (b, g) = None
    | Some l => runs st !! (b, generation l) = Some l ∧ ∀ g r, runs st !! (b, g) = Some r → g ≤ generation l
    end.
Proof.
  intros Hwf Hrep Hb. unfold latestRun. rewrite Seek_filter by apply tx_keys_sorted.
  assert (∀ g r, runs st !! (b, g) = Some r → brokerRunKey b g ∈ filter (fun k => 0 ≤ Compare k (b +:+ "/")) (tx_keys tx brokerRunsBucket)) as Hin.
  { intros g r Hr. apply list_elem_of_filter. split.
    - unfold brokerRunKey. rewrite <- str_app_assoc. apply Z.ltb_ge, prefix_above.
    - apply tx_keys_get. destruct (holds_Some _ _ _ _ _ _ (rep_runs _ _ Hrep) Hr) as (c & -> & _). done. }
  destruct (latest_from_spec tx st b (filter (fun k => 0 ≤ Compare k (b +:+ "/")) (tx_keys tx brokerRunsBucket)) None Hwf Hrep Hb) as (latest & -> & Hl).
  - apply sorted_filter, tx_keys_sorted.
  - intros k [Hge Hk]%list_elem_of_filter. split; [done|]. apply tx_keys_get in Hk.
    destruct (holds_keys _ _ _ (rep_runs _ _ Hrep) _ Hk) as (b' & g' & -> & Hid). rewrite (holds_get _ _ _ (rep_runs _ _ Hrep)) in Hk by done.
    destruct (runs st !! (b', g')) as [r|] eqn:Hr; [eauto|by destruct Hk].
  - exists latest. split; [done|]. destruct latest as [l|].
    + destruct Hl as (H1 & _ & H3). split; [by destruct H1|]. intros g r Hr. eapply H3; [|done]. by eapply Hin.
    + destruct Hl as [_ Hl]. intros g. destruct (Hl g) as [Hnin|]; [|done]. destruct (runs st !! (b, g)) eqn:Hr; [|done]. exfalso. by eapply Hnin, Hin.
Qed.

(** ** Simulation *)

(** The body of a transaction and what is specified: an answer is the specified one;
    an error has a reason in the specification or in bbolt. *)
Definition simulates {A} (inj : A → answer) (body : result (A * Tx)) (specified : option (answer * broker)) : Prop :=
  match body with
  | Ok (a, tx1) => ∃ st1, specified = Some (inj a, st1) ∧ represents tx1 st1
  | Err _ => specified = None ∨ ¬ faultless
  end.

(** A write at the end of a transaction. *)
Lemma simulates_put {A B} `{!Codec B} `{!Durable B} (inj : A → answer) tx bucket key (value : B) (a : A) st1 specified :
  (storable value = true → specified = Some (inj a, st1)) → (storable value = false → specified = None) →
  (∀ tx1, putCanonical tx bucket key value = Ok tx1 → represents tx1 st1) →
  simulates inj (let* tx1 := putCanonical tx bucket key value in Ok (a, tx1)) specified.
Proof.
  intros Hs Hn Hrep. destruct (putCanonical tx bucket key value) as [tx1|e] eqn:Hp; cbn.
  - exists st1. split; [|by apply Hrep]. apply Hs, storable_true. apply putCanonical_Ok in Hp as (c & Hc & Hv & _). by rewrite Hc.
  - destruct (putCanonical_storable tx bucket key value) as [Hst|]; [by rewrite Hp|left; by apply Hn|by right].
Qed.

Lemma claim_simulates tx st request now bytes :
  wf maxEventsRun st → represents tx st → is_u64 (rq_Generation request) → Request_Validate request now = Ok tt → marshal request = Some bytes →
  simulates (fun a => Claimed a.1 a.2) (claim_tx maxRuns request (bytesDigest bytes) now tx) (spec_claim maxRuns st request now).
Proof using BC.
  intros Hwf Hrep Hu Hv Hm. pose proof (Request_identity _ _ Hv Hu) as Hid. unfold claim_tx, spec_claim. rewrite Hv, Hm. cbn [is_err is_ok negb].
  destruct (runs st !! _) as [existing|] eqn:Hr.
  { destruct (holds_Some _ _ _ _ _ _ (rep_runs _ _ Hrep) Hr) as (c & -> & ->). cbn [bind_result].
    destruct (String.eqb _ _); cbn; [eauto|by left]. }
  rewrite (holds_None _ _ _ _ _ (rep_runs _ _ Hrep) Hid Hr), (holds_size _ _ _ (rep_runs _ _ Hrep)).
  destruct (_ <=? _); cbn [orb]; [by left|]. cbn [fst snd].
  destruct (latestRun_spec tx st (rq_BuildID request) Hwf Hrep) as (latest & -> & Hl); [by eapply run_id_slash|]. cbn [bind_result].
  destruct latest as [l|].
  - destruct Hl as [Hl Hmax]. destruct (existsb (blocks _ _) _) eqn:Hb.
    + destruct (Z.leb_spec (rq_Generation request) (rq_Generation (br_Request l))); [by left|]. destruct (Terminal l) eqn:Ht; [|by left].
      exfalso. apply not_false_iff_true in Hb. apply Hb, unblocked. intros g r Hr'. pose proof (Hmax _ _ Hr'). unfold generation in *. split; [lia|].
      destruct (decide (g = rq_Generation (br_Request l))) as [->|]; [congruence|].
      apply (wf_active _ _ Hwf _ _ _ _ Hr' (mk_is_Some _ _ Hl)). lia.
    + destruct (proj1 (unblocked _ _ _) Hb _ _ Hl) as [Hg Ht]. rewrite Ht. unfold generation in Hg.
      rewrite (proj2 (Z.leb_gt _ _) Hg). cbn [negb orb].
      apply (simulates_put _ _ _ _ _ _ (put_run st (rq_BuildID request, rq_Generation request) (new_record request (bytesDigest bytes) (FormatRFC3339Nano now))));
        [by intros ->|by intros ->|]. intros tx1 Hp. by eapply represents_put_run.
  - assert (existsb (blocks (rq_BuildID request) (rq_Generation request)) (map_to_list (runs st)) = false) as ->.
    { apply unblocked. intros g r Hr'. by rewrite Hl in Hr'. }
    cbn [negb orb].
    apply (simulates_put _ _ _ _ _ _ (put_run st (rq_BuildID request, rq_Generation request) (new_record request (bytesDigest bytes) (FormatRFC3339Nano now))));
      [by intros ->|by intros ->|]. intros tx1 Hp. by eapply represents_put_run.
Qed.

Lemma set_state_simulates tx st b g state now :
  represents tx st → run_id b g →
  is_err (validateBrokerIdentity b g) || negb (slices_Contains ["running"; "retrying"; "canceling"] state) || IsZero now = false →
  simulates Updated (set_state_tx b g state now tx) (spec_set_state st (b, g) state now).
Proof.
  intros Hrep Hid Hpre. unfold set_state_tx, spec_set_state. cbn [fst snd]. rewrite Hpre. destruct (runs st !! (b, g)) as [record|] eqn:Hr.
  - destruct (holds_Some _ _ _ _ _ _ (rep_runs _ _ Hrep) Hr) as (c & -> & ->). cbn [bind_result].
    destruct (Terminal record || _); cbn [orb]; [by left|].
    apply (simulates_put _ _ _ _ _ _ (put_run st (b, g) (set_state record state (FormatRFC3339Nano now)))); [by intros ->|by intros ->|].
    intros tx1 Hp. by eapply represents_put_run.
  - rewrite (holds_None _ _ _ _ _ (rep_runs _ _ Hrep) Hid Hr). by left.
Qed.

Lemma save_simulates tx st checkpoint :
  represents tx st → run_id (cp_BuildID checkpoint) (cp_Generation checkpoint) →
  simulates (fun _ => Saved) (save_tx checkpoint tx) (spec_save st checkpoint).
Proof.
  intros Hrep Hid. unfold save_tx, spec_save. destruct (runs st !! _) as [run|] eqn:Hr.
  - destruct (holds_Some _ _ _ _ _ _ (rep_runs _ _ Hrep) Hr) as (c & -> & ->).
    destruct (negb (String.eqb _ _)); cbn [orb]; [left; by destruct (storable checkpoint)|].
    destruct (checkpoints st !! _) as [existing|] eqn:Hc.
    + destruct (holds_Some _ _ _ _ _ _ (rep_checkpoints _ _ Hrep) Hc) as (c' & -> & ->). cbn [bind_result].
      destruct (signed existing && _); cbn [bind_result]; [left; by destruct (storable checkpoint)|].
      apply (simulates_put _ _ _ _ _ _ (put_checkpoint st (cp_BuildID checkpoint, cp_Generation checkpoint) checkpoint)); [by intros ->|by intros ->|].
      intros tx1 Hp. by eapply represents_put_checkpoint.
    + rewrite (holds_None _ _ _ _ _ (rep_checkpoints _ _ Hrep) Hid Hc). cbn [bind_result].
      apply (simulates_put _ _ _ _ _ _ (put_checkpoint st (cp_BuildID checkpoint, cp_Generation checkpoint) checkpoint)); [by intros ->|by intros ->|].
      intros tx1 Hp. by eapply represents_put_checkpoint.
  - rewrite (holds_None _ _ _ _ _ (rep_runs _ _ Hrep) Hid Hr). left. by destruct (storable checkpoint).
Qed.

(** The configuration [NewBoltBrokerStore] accepts. *)
Context (Hlimit : maxEventsRun ≤ 10000000).

Lemma append_simulates tx st event now :
  wf maxEventsRun st → represents tx st → run_id (ev_BuildID event) (ev_Generation event) → is_err (Event_Validate event) || IsZero now = false →
  simulates (fun a => Appended a.1 a.2) (append_tx maxEventsRun event now tx) (spec_append maxEventsRun st event now).
Proof using BC Hlimit.
  intros Hwf Hrep Hid Hpre. unfold append_tx, spec_append. rewrite Hpre. set (id := (ev_BuildID event, ev_Generation event)) in *.
  destruct (runs st !! id) as [record|] eqn:Hr; [|rewrite (holds_None _ _ _ _ _ (rep_runs _ _ Hrep) Hid Hr); by left].
  destruct (holds_Some _ _ _ _ _ _ (rep_runs _ _ Hrep) Hr) as (c & -> & ->). cbn [bind_result].
  destruct (Terminal record); cbn [orb]; [by left|]. destruct (outside_window event record now); cbn [orb]; [by left|].
  change (nested_bucket brokerEventsBucket _) with (events_bucket id).
  destruct (tx_create tx (events_bucket id)) as [tx1|e] eqn:Hcreate; [|right; intros [_ Hf]; specialize (Hf tx (events_bucket id)); by rewrite Hcreate in Hf].
  cbn [bind_result]. pose proof (represents_frame _ _ _ Hrep (tx_create_get _ _ _ Hcreate)) as Hrep1.
  pose proof (rep_logs _ _ Hrep1 _ _ Hid) as Hlog. fold id in Hlog. destruct (wf_runs _ _ Hwf _ _ _ Hr) as (_ & _ & Hrun).
  rewrite tx_keyN_keys, (log_tx_keys _ _ _ Hlog). unfold event_keys at 1. rewrite length_map, length_seq. fold id.
  destruct (Z.leb_spec maxEventsRun (Z.of_nat (length (events_of st id)))) as [|Hlen]; cbn [orb]; [by left|].
  rewrite (run_last _ _ _ Hrun). fold id. rewrite u64_small by (unfold is_u64; lia).
  set (persisted := with_sequence event _). set (record' := record_event record persisted _).
  destruct (Event_Validate persisted) as [[]|e] eqn:Hv; cbn [bind_result];
    [|left; unfold storable; cbn; unfold validateDurableValue, durable_event; rewrite Hv; done].
  destruct (putCanonical tx1 _ _ persisted) as [tx2|e] eqn:Hp; cbn [bind_result].
  - assert (storable persisted = true) as ->.
    { apply storable_true. apply putCanonical_Ok in Hp as (c' & Hc' & Hv' & _). by rewrite Hc'. }
    cbn [negb orb]. apply (simulates_put _ _ _ _ _ _ (put_run (put_event st id persisted) id record')); [by intros ->|by intros ->|].
    intros tx3 Hp3. eapply represents_put_run; [|done|done]. eapply represents_put_event; [done|done|fold id; lia|done].
  - destruct (putCanonical_storable tx1 (events_bucket id) (sequenceKey (ev_Sequence persisted)) persisted) as [->|]; [by rewrite Hp|by left|by right].
Qed.

(** ** Queries *)

Lemma all_runs_keys tx st :
  wf maxEventsRun st → represents tx st →
  tx_keys tx brokerRunsBucket = map (fun entry => brokerRunKey entry.1.1 entry.1.2) (SortStableFunc compare_ids (map_to_list (runs st))).
Proof.
  intros Hwf Hrep. rewrite (holds_tx_keys _ _ _ (rep_runs _ _ Hrep)). unfold Sort.
  assert (∀ l : list ((string * Z) * RunRecord), SortStableFunc Compare (map (fun entry => brokerRunKey entry.1.1 entry.1.2) l) =
    map (fun entry => brokerRunKey entry.1.1 entry.1.2) (SortStableFunc compare_ids l)) as Hmap; [|apply Hmap].
  assert (∀ x (l : list ((string * Z) * RunRecord)), insert_by Compare (brokerRunKey x.1.1 x.1.2) (map (fun entry => brokerRunKey entry.1.1 entry.1.2) l) =
    map (fun entry => brokerRunKey entry.1.1 entry.1.2) (insert_by compare_ids x l)) as Hins.
  { intros x l. induction l as [|y l IH]; [done|]. cbn. unfold compare_ids at 1. destruct (_ <=? _); [done|]. cbn. by rewrite IH. }
  intros l. induction l as [|x l IH]; [done|]. cbn. by rewrite IH, Hins.
Qed.

Lemma nonterminal_from_spec tx st limit ctx found entries :
  represents tx st → (∀ entry, entry ∈ entries → runs st !! entry.1 = Some entry.2) → (∀ n, ctx n = None) → Z.of_nat (length found) ≤ limit →
  nonterminal_from tx limit ctx found (map (fun entry => brokerRunKey entry.1.1 entry.1.2) entries) =
  let active := found ++ List.filter (fun record => negb (Terminal record)) (map snd entries) in
  if limit <? Z.of_nat (length active) then bad "build broker recovery limit exceeded" else Ok active.
Proof.
  intros Hrep Hin. revert ctx found. induction entries as [|[[b g] r] entries IH]; intros ctx found Hctx Hlen; cbn [map List.filter nonterminal_from].
  { rewrite app_nil_r. cbv zeta. by rewrite (proj2 (Z.ltb_ge _ _)) by lia. }
  rewrite Hctx. cbn [fst snd]. destruct (holds_Some _ _ _ b g r (rep_runs _ _ Hrep)) as (c & -> & Hc); [apply (Hin ((b, g), r)); left|].
  change (default "" (Some c)) with c. rewrite Hc. cbn [bind_result snd]. assert (∀ entry, entry ∈ entries → runs st !! entry.1 = Some entry.2) as Hin' by (intros; apply Hin; by right).
  destruct (Terminal r); cbn [negb]; [by apply IH|].
  destruct (Z.leb_spec limit (Z.of_nat (length found))).
  - cbv zeta. rewrite (proj2 (Z.ltb_lt _ _)); [done|]. rewrite length_app. cbn. lia.
  - rewrite IH; [|done..|rewrite length_app; cbn; lia]. cbv zeta. by rewrite <- app_assoc.
Qed.

(** With a context that ends, an answer is still that of one that does not. *)
Lemma nonterminal_from_ctx (tx : Tx) limit ctx found keys answer :
  nonterminal_from tx limit ctx found keys = Ok answer → nonterminal_from tx limit (fun _ => None) found keys = Ok answer.
Proof.
  revert ctx found. induction keys as [|key keys IH]; intros ctx found; cbn [nonterminal_from]; [done|].
  destruct (ctx 0%nat); [done|]. destruct (decodeCanonical _) as [record|e]; cbn [bind_result]; [|done].
  destruct (Terminal record); [apply IH|]. destruct (_ <=? _); [done|apply IH].
Qed.

Lemma nonterminal_simulates tx st limit ctx :
  wf maxEventsRun st → represents tx st →
  match Nonterminal ctx limit tx with
  | Ok l => spec_nonterminal st limit = Some (Runs l, st)
  | Err _ => spec_nonterminal st limit = None ∨ ¬ ∀ n, ctx n = None
  end.
Proof.
  intros Hwf Hrep. unfold Nonterminal, spec_nonterminal. cbv zeta. destruct ((limit <? 1) || (10000 <? limit)) eqn:E; cbn [orb]; [by left|].
  rewrite (all_runs_keys _ _ Hwf Hrep).
  assert (∀ ctx', (∀ n, ctx' n = None) → nonterminal_from tx limit ctx' [] (map (fun entry => brokerRunKey entry.1.1 entry.1.2) (SortStableFunc compare_ids (map_to_list (runs st)))) =
    if limit <? Z.of_nat (length (List.filter (fun record => negb (Terminal record)) (all_runs st))) then bad "build broker recovery limit exceeded"
    else Ok (List.filter (fun record => negb (Terminal record)) (all_runs st))) as Hfrom.
  { intros ctx' Hctx. rewrite (nonterminal_from_spec tx st); [done|done| |done|bsimpl; cbn; lia].
    intros [id r] Hin. rewrite SortStableFunc_perm in Hin. by apply elem_of_map_to_list in Hin. }
  clear E. destruct (nonterminal_from tx limit ctx _ _) as [l|e] eqn:Hn.
  - apply nonterminal_from_ctx in Hn. rewrite Hfrom in Hn by done. clear Hfrom. destruct (limit <? _); by simplify_eq.
  - destruct (limit <? _) eqn:Hl in |- *; [by left|]. right. intros Hctx. by rewrite Hfrom, Hl in Hn.
Qed.

Lemma events_after_simulates tx st b g after limit :
  represents tx st → is_u64 g →
  match EventsAfter None b g after limit tx with
  | Ok l => spec_events_after st (b, g) after limit = Some (Events l, st)
  | Err _ => spec_events_after st (b, g) after limit = None
  end.
Proof.
  intros Hrep Hg. unfold EventsAfter, spec_events_after. cbn [fst snd]. destruct (is_err _ || _ || _) eqn:E; [done|]. cbn [in_context].
  assert (run_id b g) as Hid by (apply validateBrokerIdentity_ok; [by bsimpl|done]).
  change (nested_bucket brokerEventsBucket _) with (events_bucket (b, g)). pose proof (rep_logs _ _ Hrep _ _ Hid) as Hlog.
  rewrite (log_tx_keys _ _ _ Hlog), Seek_event_keys; [|apply Hlog|apply u64_range]. by rewrite read_events_take.
Qed.

(** What a call leaves: it answered as specified; or it failed, and left the database
    as it was or, when the commit failed, as specified. *)
Definition refines (env : Env) (st : broker) (o : op) (tx' : Tx) (outcome : result answer) : Prop :=
  match outcome with
  | Ok a => ∃ st', spec maxRuns maxEventsRun st o = Some (a, st') ∧ represents tx' st'
  | Err _ =>
      (represents tx' st ∨ ∃ a st', spec maxRuns maxEventsRun st o = Some (a, st') ∧ represents tx' st') ∧
      (spec maxRuns maxEventsRun st o = None ∨ ¬ (faultless ∧ healthy env))
  end.

Lemma refines_update {A} (inj : A → answer) env st o tx (body : Tx → result (A * Tx)) :
  represents tx st → simulates inj (body tx) (spec maxRuns maxEventsRun st o) →
  let outcome := answer_of inj (Update (env_commit env) tx (in_context (env_ctx env 0%nat) body)) in
  refines env st o outcome.1 outcome.2.
Proof.
  intros Hrep Hsim. unfold Update, in_context. destruct (env_ctx env 0%nat) as [e|] eqn:Hctx; cbn.
  { split; [by left|]. right. intros [_ [Hh _]]. by rewrite Hh in Hctx. }
  destruct (body tx) as [[a tx1]|e]; cbn in *.
  - destruct Hsim as (st1 & Hs & Hrep1). destruct (env_commit env) as [|durable] eqn:Hc; cbn; [by exists st1|].
    split; [|right; intros [_ [_ Hh]]; by rewrite Hh in Hc]. destruct durable; [right; eauto|by left].
  - split; [by left|]. destruct Hsim as [|Hf]; [by left|]. right. by intros [? _].
Qed.

Lemma exec_refines env tx st o :
  wf maxEventsRun st → represents tx st → well_typed o → refines env st o (exec env tx o).1 (exec env tx o).2.
Proof using BC Hlimit.
  intros Hwf Hrep Ht. destruct o as [request now|b g|b g state now|event now|b g after limit|limit|b g|checkpoint]; cbn [exec well_typed] in *.
  - unfold Claim. destruct (Request_Validate request now) as [[]|e] eqn:Hv; [|split; [by left|]; left; cbn; unfold spec_claim; by rewrite Hv].
    destruct (marshal request) as [bytes|] eqn:Hm; [|split; [by left|]; left; cbn; unfold spec_claim; by rewrite Hv, Hm].
    apply (refines_update (fun a => Claimed a.1 a.2)); [done|]. by apply claim_simulates.
  - unfold Lookup, refines. cbn [answer_of fst snd spec]. destruct (is_err (validateBrokerIdentity b g)) eqn:Hi.
    { destruct (validateBrokerIdentity b g); [done|]. cbn. auto. }
    pose proof (validateBrokerIdentity_ok _ _ Hi Ht) as Hid. destruct (validateBrokerIdentity b g) as [u|]; [|done]. cbn [bind_result].
    destruct (env_ctx env 0%nat) as [e|] eqn:Hctx; cbn [in_context].
    { split; [by left|]. right. intros [_ [Hh _]]. by rewrite Hh in Hctx. }
    destruct (runs st !! (b, g)) as [r|] eqn:Hr; [|rewrite (holds_None _ _ _ _ _ (rep_runs _ _ Hrep) Hid Hr); eauto].
    destruct (holds_Some _ _ _ _ _ _ (rep_runs _ _ Hrep) Hr) as (c & -> & ->). cbn. eauto.
  - unfold SetState. destruct (is_err _ || _ || _) eqn:Hi; [split; [by left|]; left; cbn; unfold spec_set_state; cbn [fst snd]; by rewrite Hi|].
    assert (run_id b g) as Hid by (apply validateBrokerIdentity_ok; [by bsimpl|done]).
    apply (refines_update Updated); [done|]. by apply set_state_simulates.
  - unfold Append. destruct (is_err _ || _) eqn:Hi; [split; [by left|]; left; cbn; unfold spec_append; by rewrite Hi|].
    apply (refines_update (fun a => Appended a.1 a.2)); [done|]. apply append_simulates; [done..| |done].
    apply Event_identity; [|done]. apply orb_false_iff in Hi as [Hi _]. by destruct (Event_Validate event) as [[]|].
  - unfold refines. cbn [answer_of fst snd spec]. destruct (env_ctx env 0%nat) as [e|] eqn:Hctx.
    { unfold EventsAfter, spec_events_after. cbn [fst snd]. destruct (is_err _ || _ || _); cbn; (split; [by left|]); [by left|].
      right. intros [_ [Hh _]]. by rewrite Hh in Hctx. }
    destruct Ht as [Hg _]. pose proof (events_after_simulates tx st b g after limit Hrep Hg) as Hs.
    destruct (EventsAfter None b g after limit tx); [eauto|]. split; [by left|by left].
  - unfold refines. cbn [answer_of fst snd spec]. pose proof (nonterminal_simulates tx st limit (env_ctx env) Hwf Hrep) as Hs.
    destruct (Nonterminal (env_ctx env) limit tx); [eauto|]. split; [by left|]. destruct Hs as [|Hs]; [by left|]. right. by intros [_ [Hh _]].
  - unfold Load, refines. cbn [answer_of fst snd spec]. destruct (is_err (validateBrokerIdentity b g)) eqn:Hi.
    { destruct (validateBrokerIdentity b g); [done|]. cbn. auto. }
    pose proof (validateBrokerIdentity_ok _ _ Hi Ht) as Hid. destruct (validateBrokerIdentity b g) as [u|]; [|done]. cbn [bind_result].
    destruct (env_ctx env 0%nat) as [e|] eqn:Hctx; cbn [in_context].
    { split; [by left|]. right. intros [_ [Hh _]]. by rewrite Hh in Hctx. }
    destruct (checkpoints st !! (b, g)) as [r|] eqn:Hr; [|rewrite (holds_None _ _ _ _ _ (rep_checkpoints _ _ Hrep) Hid Hr); eauto].
    destruct (holds_Some _ _ _ _ _ _ (rep_checkpoints _ _ Hrep) Hr) as (c & -> & ->). cbn. eauto.
  - unfold Save. destruct (validateCheckpointRecord checkpoint) as [[]|e] eqn:Hv.
    + apply (refines_update (fun _ => Saved)); [done|]. apply save_simulates; [done|]. by apply checkpoint_identity.
    + split; [by left|]. left. cbn. unfold spec_save, storable, validateDurableValue, durable_checkpoint. by rewrite Hv.
Qed.

(** An empty database represents the empty store. *)
Lemma empty_represents tx : (∀ bucket k, tx_get tx bucket k = None) → represents tx empty_broker.
Proof.
  intros Hn. split; [by apply holds_empty..|].
  intros b g _. change (events_of empty_broker (b, g)) with (@nil Event). split.
  - intros n _. rewrite Hn. unfold numbered. by destruct (1 <=? n).
  - intros k. rewrite Hn. by intros [].
  - by intros e ?%elem_of_nil.
  - cbn. lia.
Qed.

End Refinement.

End BrokerRefinement.
