(* ===== verification/BrokerHistory.v ===== *)
(** * Histories of the build service's store

    Consequences of the refinement for sequences of calls with faults anywhere in
    between: what was appended stays, in order and numbered without a gap; a run that
    is terminal never changes; a signed checkpoint keeps its assignment; a build has
    one active generation. *)

From S2P Require Import Prelude Text GoStd GoTime GoURL Crypto PlatformID Storage Assignment BuildRequest BrokerStore BrokerKeys BrokerSpec BrokerRefinement.
Import GoStd GoTime GoURL Crypto PlatformID Storage BuildRequest BrokerStore BrokerKeys BrokerSpec BrokerRefinement.

Open Scope Z_scope.

Module BrokerHistory.

(** ** What a step keeps *)

(** The run an answer speaks of. *)
Definition reported (a : answer) : option ((string * Z) * RunRecord) :=
  match a with
  | Claimed r _ | Found (Some r) | Updated r | Appended _ r => Some ((rq_BuildID (br_Request r), rq_Generation (br_Request r)), r)
  | _ => None
  end.

Definition reads_only (o : op) : bool :=
  match o with OpEventsAfter _ _ _ _ | OpNonterminal _ | OpLoad _ _ => true | _ => false end.

(** The events of [id] the calls of a log were told to have appended. *)
Definition appended (id : string * Z) (entry : op * result answer) : option Event :=
  match entry.2 with
  | Ok (Appended e _) => if decide ((ev_BuildID e, ev_Generation e) = id) then Some e else None
  | _ => None
  end.

Section History.
Context `{GoText} `{!NetURL} `{!Codec Request} `{!Codec RunRecord} `{!Codec Event} `{!Codec Checkpoint}
  `{!Codec Assignment.Payload} `{!Codec Assignment.Envelope} `{!Codec Result}.

(** The value has a canonical form. *)
Definition encodable {A} `{!Codec A} (a : A) : Prop := canonicalOrNil a ≠ "".

(** The envelope of a signed checkpoint is kept, and its partial result with it. *)
Definition same_assignment (c c' : Checkpoint) : Prop :=
  encodable (cp_Envelope c) → cp_Envelope c' = cp_Envelope c ∧ (encodable (cp_Partial c) → cp_Partial c' = cp_Partial c).

Record run_extends (r r' : RunRecord) : Prop := {
  ext_request : br_Request r' = br_Request r;
  ext_digest : br_RequestDigest r' = br_RequestDigest r;
  ext_created : br_CreatedAt r' = br_CreatedAt r;
  ext_final : Terminal r = true → r' = r;
  ext_canceling : br_State r = "canceling" → br_State r' = "canceling" ∨ Terminal r' = true;
  ext_dispatched : br_Dispatched r = true → br_Dispatched r' = true;
  ext_accepted : br_State r ≠ "accepted" → br_State r' ≠ "accepted";
}.

Record extends (st st' : broker) : Prop := {
  ext_runs : ∀ id r, runs st !! id = Some r → ∃ r', runs st' !! id = Some r' ∧ run_extends r r';
  ext_logs : ∀ id, events_of st id `prefix_of` events_of st' id;
  ext_closed : ∀ id r, runs st !! id = Some r → Terminal r = true → events_of st' id = events_of st id;
  ext_checkpoints : ∀ id c, checkpoints st !! id = Some c →
    ∃ c', checkpoints st' !! id = Some c' ∧ (signed c = true → same_assignment c c');
}.

Lemma run_extends_refl r : run_extends r r.
Proof. split; auto. Qed.

#[export] Instance run_extends_preorder : PreOrder run_extends.
Proof.
  split; [exact run_extends_refl|]. intros r1 r2 r3 [A1 A2 A3 A4 A5 A6 A7] [B1 B2 B3 B4 B5 B6 B7]. split; try congruence.
  - intros Ht. rewrite B4; [by apply A4|]. by rewrite A4.
  - intros Hc. destruct (A5 Hc) as [Hc'|Ht]; [auto|]. right. by rewrite (B4 Ht).
  - auto.
  - auto.
Qed.

#[export] Instance extends_preorder : PreOrder extends.
Proof.
  split.
  - intros st. split; eauto using run_extends_refl. intros id c Hc. exists c. by split.
  - intros s1 s2 s3 [A1 A2 A3 A4] [B1 B2 B3 B4]. split.
    + intros id r Hr. destruct (A1 _ _ Hr) as (r2 & Hr2 & E2). destruct (B1 _ _ Hr2) as (r3 & Hr3 & E3). exists r3. split; [done|]. by etransitivity.
    + intros id. etransitivity; [apply A2|apply B2].
    + intros id r Hr Ht. rewrite <- (A3 _ _ Hr Ht). destruct (A1 _ _ Hr) as (r2 & Hr2 & E2). eapply B3; [done|].
      by rewrite (ext_final _ _ E2 Ht).
    + intros id c Hc. destruct (A4 _ _ Hc) as (c2 & Hc2 & E2). destruct (B4 _ _ Hc2) as (c3 & Hc3 & E3). exists c3. split; [done|].
      intros Hs He. destruct (E2 Hs He) as [E2a E2b]. destruct E3 as [E3a E3b]; [unfold signed; by rewrite E2a|by rewrite E2a|].
      split; [congruence|]. intros Hp. specialize (E2b Hp). rewrite E3b; [done|]. by rewrite E2b.
Qed.

Lemma canonicalOrNil_inj {A} `{!Codec A} (a b : A) : canonicalOrNil a ≠ "" → canonicalOrNil a = canonicalOrNil b → a = b.
Proof.
  unfold canonicalOrNil. destruct (marshal a) as [c|] eqn:Hc, (marshal b) as [d|] eqn:Hd; cbn; try done.
  intros _ ->. apply unmarshal_marshal in Hc, Hd. congruence.
Qed.

Lemma same_identity_true c c' : same_identity c c' = true → same_assignment c c'.
Proof.
  intros Hs He. unfold same_identity in Hs. apply andb_true_iff in Hs as [H1%String.eqb_eq H2%String.eqb_eq].
  apply canonicalOrNil_inj in H1; [|done]. split; [done|]. intros Hp. symmetry. by apply canonicalOrNil_inj.
Qed.

Context (maxRuns maxEventsRun : Z).

Lemma extends_put_run st id r : (∀ r0, runs st !! id = Some r0 → Terminal r0 = false ∧ run_extends r0 r) → extends st (put_run st id r).
Proof.
  intros Hr. split; rewrite ?events_of_put_run; cbn [runs checkpoints put_run].
  - intros id' r' Hr'. destruct (decide (id' = id)) as [->|Hne].
    + exists r. rewrite lookup_insert_eq. split; [done|]. by apply Hr.
    + exists r'. rewrite lookup_insert_ne by done. split; [done|]. apply run_extends_refl.
  - done.
  - done.
  - intros id' c Hc. exists c. by split.
Qed.

Lemma extends_put_event st id e : (∀ r, runs st !! id = Some r → Terminal r = false) → extends st (put_event st id e).
Proof.
  intros Hr. split; cbn [runs checkpoints put_event].
  - eauto using run_extends_refl.
  - intros id'. rewrite events_of_put_event. case_decide as E; [|done]. rewrite E. by apply prefix_app_r.
  - intros id' r Hr' Ht. rewrite events_of_put_event. case_decide as E; [|done]. subst. by rewrite (Hr _ Hr') in Ht.
  - intros id' c Hc. exists c. by split.
Qed.

Lemma run_extends_set_state r state timestamp :
  Terminal r = false → slices_Contains ["running"; "retrying"; "canceling"] state = true → validBrokerTransition (br_State r) state = true →
  run_extends r (set_state r state timestamp).
Proof.
  intros Ht Hin Hv. split; cbn; try done; [congruence| |by intros _ ->]. intros Hc. rewrite Hc in Hv. unfold validBrokerTransition in Hv.
  change (slices_Contains (allowed_transitions "canceling") state) with false in Hv. cbn [orb] in Hv. apply String.eqb_eq in Hv as <-. by left.
Qed.

Lemma run_extends_record_event r e timestamp :
  RunRecord_Validate (record_event r e timestamp) = Ok tt → Terminal r = false → run_extends r (record_event r e timestamp).
Proof.
  intros Hv Ht. split; cbn; try done; [congruence| |by intros ->|].
  2: { intros Hne. destruct (ev_Terminal e) as [t|] eqn:Et; [|by destruct (String.eqb_spec (br_State r) "canceling") as [->|]]. intros E.
       apply nonterminal_result in Hv; [cbn in Hv; by rewrite Et in Hv|]. unfold Terminal. cbn [br_State record_event]. by rewrite Et, E. }
  intros Hc. rewrite Hc. destruct (ev_Terminal e) as [t|] eqn:Et; [|by left].
  right. destruct (Terminal (record_event r e timestamp)) eqn:Hn; [done|]. apply nonterminal_result in Hv; [|done]. cbn in Hv. by rewrite Et in Hv.
Qed.

(** What an accepted operation does. *)
Inductive effect (st : broker) : op → answer → broker → Prop :=
| effect_existing request now r :
    runs st !! (rq_BuildID request, rq_Generation request) = Some r → effect st (OpClaim request now) (Claimed r false) st
| effect_new request now r :
    runs st !! (rq_BuildID request, rq_Generation request) = None → br_Request r = request →
    (∀ g' r', runs st !! (rq_BuildID request, g') = Some r' → g' < rq_Generation request ∧ Terminal r' = true) →
    effect st (OpClaim request now) (Claimed r true) (put_run st (rq_BuildID request, rq_Generation request) r)
| effect_state b g state now r :
    runs st !! (b, g) = Some r → Terminal r = false → run_extends r (set_state r state (FormatRFC3339Nano now)) →
    effect st (OpSetState b g state now) (Updated (set_state r state (FormatRFC3339Nano now)))
      (put_run st (b, g) (set_state r state (FormatRFC3339Nano now)))
| effect_append event now r persisted :
    let id := (ev_BuildID event, ev_Generation event) in
    runs st !! id = Some r → Terminal r = false → persisted = with_sequence event (Z.of_nat (length (events_of st id)) + 1) →
    run_extends r (record_event r persisted (FormatRFC3339Nano now)) →
    effect st (OpAppend event now) (Appended persisted (record_event r persisted (FormatRFC3339Nano now)))
      (put_run (put_event st id persisted) id (record_event r persisted (FormatRFC3339Nano now)))
| effect_save checkpoint :
    let id := (cp_BuildID checkpoint, cp_Generation checkpoint) in
    (∀ c, checkpoints st !! id = Some c → signed c = true → same_assignment c checkpoint) →
    effect st (OpSave checkpoint) Saved (put_checkpoint st id checkpoint)
| effect_lookup b g : effect st (OpLookup b g) (Found (runs st !! (b, g))) st
| effect_query o a : reads_only o = true → reported a = None → (∀ e r, a ≠ Appended e r) → effect st o a st.

Lemma spec_effect st o a st' : spec maxRuns maxEventsRun st o = Some (a, st') → effect st o a st'.
Proof.
  destruct o as [request now|b g|b g state now|event now|b g after limit|limit|b g|checkpoint]; cbn [spec].
  - unfold spec_claim. destruct (is_err _); [done|]. destruct (marshal request); [|done]. destruct (runs st !! _) as [r|] eqn:Hr.
    + destruct (String.eqb _ _); [|done]. intros [= <- <-]. by constructor.
    + destruct (_ || negb (storable _)) eqn:E; [done|]. intros [= <- <-]. constructor; [done..|]. apply orb_false_iff in E as [E _].
      apply orb_false_iff in E as [_ E]. by apply unblocked.
  - destruct (is_err _); [done|]. intros [= <- <-]. constructor.
  - unfold spec_set_state. destruct (is_err _ || _ || _) eqn:Hpre; [done|]. destruct (runs st !! _) as [r|] eqn:Hr; [|done].
    destruct (Terminal r || _ || _) eqn:E; [done|]. intros [= <- <-].
    apply orb_false_iff in Hpre as [Hpre _]. apply orb_false_iff in Hpre as [_ Hin%negb_false_iff].
    apply orb_false_iff in E as [E _]. apply orb_false_iff in E as [Ht Hv%negb_false_iff]. constructor; [done..|]. by apply run_extends_set_state.
  - unfold spec_append. destruct (is_err _ || _); [done|]. destruct (runs st !! _) as [r|] eqn:Hr; [|done].
    destruct (_ || negb (storable (record_event _ _ _))) eqn:E; [done|]. intros [= <- <-]. apply orb_false_iff in E as [E Hst].
    apply negb_false_iff, storable_true in Hst as [Hv _]. do 3 apply orb_false_iff in E as [E _]. constructor; [done..|]. by apply run_extends_record_event.
  - unfold spec_events_after. destruct (_ || _); [done|]. intros [= <- <-]. by apply effect_query.
  - unfold spec_nonterminal. destruct (_ || _); [done|]. intros [= <- <-]. by apply effect_query.
  - destruct (is_err _); [done|]. intros [= <- <-]. by apply effect_query.
  - unfold spec_save. destruct (negb _); [done|]. destruct (runs st !! _) as [r|] eqn:Hr; [|done]. destruct (_ || _) eqn:E; [done|]. intros [= <- <-].
    constructor. intros c Hc Hs. apply orb_false_iff in E as [_ E]. rewrite Hc, Hs in E. cbn in E. apply negb_false_iff in E. by apply same_identity_true.
Qed.

Lemma spec_extends st o a st' : spec maxRuns maxEventsRun st o = Some (a, st') → extends st st'.
Proof.
  intros He%spec_effect. destruct He as [request now r Hr|request now r Hr _ _|b g state now r Hr Ht Hx|event now r persisted id Hr Ht _ Hx|checkpoint id Hc|b g|o a _ _ _]; try done.
  - apply extends_put_run. by rewrite Hr.
  - apply extends_put_run. rewrite Hr. by intros ? [= <-].
  - etransitivity; [apply extends_put_event; rewrite Hr; by intros ? [= <-]|]. apply extends_put_run. cbn [runs put_event]. rewrite Hr. by intros ? [= <-].
  - split; cbn [runs checkpoints put_checkpoint]; [eauto using run_extends_refl|done|done|]. intros id' c Hc'. destruct (decide (id' = id)) as [->|Hne].
    + exists checkpoint. rewrite lookup_insert_eq. split; [done|]. by apply Hc.
    + exists c. rewrite lookup_insert_ne by done. by split.
Qed.

(** ** Logs of calls *)

(** A log of calls that took the store from one state to another; a call that failed
    may have moved it too. *)
Inductive traced : broker → list (op * result answer) → broker → Prop :=
| traced_nil st : traced st [] st
| traced_ok st o a st1 log st' :
    well_typed o → spec maxRuns maxEventsRun st o = Some (a, st1) → traced st1 log st' → traced st ((o, Ok a) :: log) st'
| traced_lost st o e a st1 log st' :
    well_typed o → spec maxRuns maxEventsRun st o = Some (a, st1) → traced st1 log st' → traced st ((o, Err e) :: log) st'
| traced_failed st o e log st' : traced st log st' → traced st ((o, Err e) :: log) st'.

Lemma traced_wf st log st' : traced st log st' → wf maxEventsRun st → wf maxEventsRun st'.
Proof. induction 1; eauto using spec_wf. Qed.

Lemma traced_extends st log st' : traced st log st' → extends st st'.
Proof. induction 1; [done|etransitivity; [by eapply spec_extends|done]..|done]. Qed.

Lemma traced_app st log1 log2 st' : traced st (log1 ++ log2) st' → ∃ s, traced st log1 s ∧ traced s log2 st'.
Proof.
  revert st. induction log1 as [|entry log1 IH]; intros st Ht; [eauto using traced_nil|]. cbn in Ht.
  inversion Ht as [|? ? ? ? ? ? Hty Hs Hrest|? ? ? ? ? ? ? Hty Hs Hrest|? ? ? ? ? Hrest]; subst; apply IH in Hrest as (s & H1 & H2);
    exists s; eauto using traced_ok, traced_lost, traced_failed.
Qed.

(** The run an answer speaks of is in the store. *)
Lemma run_key st b g r : wf maxEventsRun st → runs st !! (b, g) = Some r → (rq_BuildID (br_Request r), rq_Generation (br_Request r)) = (b, g).
Proof. intros Hwf Hr. destruct (wf_runs _ _ Hwf _ _ _ Hr) as (_ & _ & Hrun). by destruct (run_identity _ _ _ Hrun) as [-> ->]. Qed.

Lemma reported_run st o a st' id r :
  wf maxEventsRun st → spec maxRuns maxEventsRun st o = Some (a, st') → reported a = Some (id, r) → runs st' !! id = Some r.
Proof.
  intros Hwf He%spec_effect Hrep. destruct He as [request now r0 Hr|request now r0 Hr <- _|b g state now r0 Hr Ht Hx|event now r0 persisted id0 Hr Ht _ Hx|checkpoint id0 Hc|b g|o' a' _ Hn _].
  - injection Hrep as <- <-. by rewrite (run_key _ _ _ _ Hwf Hr).
  - injection Hrep as <- <-. apply lookup_insert_eq.
  - injection Hrep as <- <-. change (br_Request (set_state _ _ _)) with (br_Request r0). rewrite (run_key _ _ _ _ Hwf Hr). apply lookup_insert_eq.
  - injection Hrep as <- <-. change (br_Request (record_event _ _ _)) with (br_Request r0). rewrite (run_key _ _ _ _ Hwf Hr). apply lookup_insert_eq.
  - done.
  - cbn in Hrep. destruct (runs st !! (b, g)) as [r0|] eqn:Hr; [|done]. injection Hrep as <- <-. by rewrite (run_key _ _ _ _ Hwf Hr).
  - congruence.
Qed.

(** An answer on a run that was terminal before the call. *)
Lemma terminal_answer st o a st' id r r' :
  wf maxEventsRun st → spec maxRuns maxEventsRun st o = Some (a, st') → runs st !! id = Some r → Terminal r = true → reported a = Some (id, r') →
  r' = r ∧ (a = Claimed r false ∨ a = Found (Some r)).
Proof.
  intros Hwf Hs Hr Ht Hrep. pose proof (reported_run _ _ _ _ _ _ Hwf Hs Hrep) as Hr'. destruct (ext_runs _ _ (spec_extends _ _ _ _ Hs) _ _ Hr) as (r1 & Hr1 & E).
  rewrite (ext_final _ _ E Ht) in Hr1. assert (r' = r) as -> by congruence. split; [done|].
  apply spec_effect in Hs. destruct Hs as [request now r0 Hr0|request now r0 Hr0 <- _|b g state now r0 Hr0 Ht0 _|event now r0 persisted id0 Hr0 Ht0 _ _|checkpoint id0 Hc|b g|o' a' _ Hn _].
  - injection Hrep as _ ->. by left.
  - injection Hrep as <- ->. congruence.
  - exfalso. injection Hrep as Hid _. change (br_Request (set_state _ _ _)) with (br_Request r0) in Hid. rewrite (run_key _ _ _ _ Hwf Hr0) in Hid. congruence.
  - exfalso. injection Hrep as Hid _. change (br_Request (record_event _ _ _)) with (br_Request r0) in Hid. unfold id0 in Hr0. rewrite (run_key _ _ _ _ Hwf Hr0) in Hid. congruence.
  - done.
  - cbn in Hrep. destruct (runs st !! (b, g)); [|done]. injection Hrep as _ ->. by right.
  - congruence.
Qed.

(** What the calls were told to have appended is in the log, in their order. *)
Lemma traced_appended st log st' id :
  wf maxEventsRun st → traced st log st' → ∃ l, events_of st' id = events_of st id ++ l ∧ omap (appended id) log `sublist_of` l.
Proof.
  intros Hwf Ht. induction Ht as [st|st o a st1 log st' Hty Hs Ht IH|st o e a st1 log st' Hty Hs Ht IH|st o e log st' Ht IH].
  - exists []. by rewrite app_nil_r.
  - destruct (IH (spec_wf _ _ _ _ _ _ Hwf Hty Hs)) as (l & Hl & Hsub). destruct (ext_logs _ _ (spec_extends _ _ _ _ Hs) id) as [k Hk].
    exists (k ++ l). rewrite Hl, Hk, app_assoc. split; [done|]. cbn [omap list_omap].
    destruct (appended id (o, Ok a)) as [e|] eqn:Ha; [|by apply sublist_inserts_l].
    assert (k = [e]) as ->; [|by constructor]. unfold appended in Ha. cbn in Ha. destruct a as [| | |e' r| | | |]; try done. case_decide as Hid; [|done].
    injection Ha as ->. apply spec_effect in Hs. inversion Hs as [| | |event now r0 persisted id0 Hr Htm Hp Hx| | |? ? _ _ Hna]; subst; [|by destruct (Hna e r)].
    rewrite events_of_put_run, events_of_put_event, decide_True in Hk by done. by apply app_inv_head in Hk.
  - destruct (IH (spec_wf _ _ _ _ _ _ Hwf Hty Hs)) as (l & Hl & Hsub). destruct (ext_logs _ _ (spec_extends _ _ _ _ Hs) id) as [k Hk].
    exists (k ++ l). rewrite Hl, Hk, app_assoc. split; [done|]. by apply sublist_inserts_l.
  - by apply IH.
Qed.

(** ** Calls on the database *)

Context {Tx : Type} `{!BoltTx Tx} `{BC : !BoltCursor Tx} (Hlimit : maxEventsRun ≤ 10000000).

Fixpoint run_calls (tx : Tx) (calls : list (Env * op)) : Tx * list (op * result answer) :=
  match calls with
  | [] => (tx, [])
  | (env, o) :: calls' =>
      let '(tx1, outcome) := exec maxRuns maxEventsRun env tx o in
      let '(tx2, log) := run_calls tx1 calls' in (tx2, (o, outcome) :: log)
  end.

Lemma run_calls_traced tx st calls tx' log :
  wf maxEventsRun st → represents tx st → Forall (fun call => well_typed call.2) calls → run_calls tx calls = (tx', log) →
  ∃ st', traced st log st' ∧ represents tx' st'.
Proof using BC Hlimit.
  intros Hwf Hrep Hty. revert tx st log Hwf Hrep. induction Hty as [|[env o] calls Ho Hty IH]; intros tx st log Hwf Hrep; cbn [run_calls].
  { intros [= <- <-]. eauto using traced_nil. }
  pose proof (exec_refines maxRuns maxEventsRun Hlimit env tx st o Hwf Hrep Ho) as Href.
  destruct (exec maxRuns maxEventsRun env tx o) as [tx1 outcome]. destruct (run_calls tx1 calls) as [tx2 log'] eqn:Hc. intros [= <- <-]. cbn [fst snd] in *.
  destruct outcome as [a|e]; cbn [refines] in Href.
  - destruct Href as (st1 & Hs & Hrep1). destruct (IH tx1 st1 log') as (st' & Ht & Hrep'); [by eapply spec_wf|done|done|].
    exists st'. split; [|done]. by eapply traced_ok.
  - destruct Href as [[Hrep1|(a & st1 & Hs & Hrep1)] _].
    + destruct (IH tx1 st log') as (st' & Ht & Hrep'); [done..|]. exists st'. split; [|done]. by apply traced_failed.
    + destruct (IH tx1 st1 log') as (st' & Ht & Hrep'); [by eapply spec_wf|done|done|]. exists st'. split; [|done]. by eapply traced_lost.
Qed.

Definition empty_database (tx : Tx) : Prop := ∀ bucket k, tx_get tx bucket k = None.

Lemma history_from_empty tx calls tx' log :
  empty_database tx → Forall (fun call => well_typed call.2) calls → run_calls tx calls = (tx', log) →
  ∃ st', traced empty_broker log st' ∧ represents tx' st' ∧ wf maxEventsRun st'.
Proof using BC Hlimit.
  intros Hn Hty Hrun. destruct (run_calls_traced tx empty_broker calls tx' log) as (st' & Ht & Hrep); [apply empty_wf|by apply empty_represents|done..|].
  exists st'. split_and!; [done..|]. eapply traced_wf; [done|]. apply empty_wf.
Qed.

Lemma Lookup_represents tx st b g : represents tx st → run_id b g → Lookup None b g tx = Ok (runs st !! (b, g)).
Proof.
  intros Hrep Hid. unfold Lookup, validateBrokerIdentity. destruct Hid as (Hb & Hg & Hu). rewrite Hb, (proj2 (Z.eqb_neq _ _) Hg). cbn [negb orb bind_result in_context].
  destruct (runs st !! (b, g)) as [r|] eqn:Hr.
  - destruct (holds_Some _ _ _ _ _ _ (rep_runs _ _ Hrep) Hr) as (c & -> & ->). done.
  - by rewrite (holds_None _ _ _ _ _ (rep_runs _ _ Hrep)).
Qed.

Lemma Load_represents tx st b g : represents tx st → run_id b g → Load None b g tx = Ok (checkpoints st !! (b, g)).
Proof.
  intros Hrep Hid. unfold Load, validateBrokerIdentity. destruct Hid as (Hb & Hg & Hu). rewrite Hb, (proj2 (Z.eqb_neq _ _) Hg). cbn [negb orb bind_result in_context].
  destruct (checkpoints st !! (b, g)) as [r|] eqn:Hr.
  - destruct (holds_Some _ _ _ _ _ _ (rep_checkpoints _ _ Hrep) Hr) as (c & -> & ->). done.
  - by rewrite (holds_None _ _ _ _ _ (rep_checkpoints _ _ Hrep)).
Qed.

Lemma EventsAfter_represents tx st b g after limit :
  represents tx st → run_id b g → 0 ≤ after < 2 ^ 64 - 1 → 1 ≤ limit ≤ 1000 →
  EventsAfter None b g after limit tx = Ok (take (Z.to_nat limit) (drop (Z.to_nat after) (events_of st (b, g)))).
Proof using BC.
  intros Hrep Hid Ha Hl. destruct Hid as (Hb & Hg & Hu). pose proof (events_after_simulates tx st b g after limit Hrep Hu) as Hs.
  unfold spec_events_after, validateBrokerIdentity in Hs. cbn [fst snd] in Hs. rewrite Hb, (proj2 (Z.eqb_neq _ _) Hg) in Hs. cbn [negb orb is_err is_ok] in Hs.
  rewrite (proj2 (Z.ltb_ge limit 1)), (proj2 (Z.ltb_ge 1000 limit)) in Hs by lia. cbn [orb] in Hs.
  destruct (EventsAfter None b g after limit tx); [|done]. injection Hs as <-. rewrite u64_small by (unfold is_u64; lia).
  by replace (after + 1 - 1) with after by lia.
Qed.

Lemma exec_moves env tx st o :
  wf maxEventsRun st → represents tx st → well_typed o →
  ∃ st', represents (exec maxRuns maxEventsRun env tx o).1 st' ∧ wf maxEventsRun st' ∧ extends st st'.
Proof using BC Hlimit.
  intros Hwf Hrep Ht. pose proof (exec_refines maxRuns maxEventsRun Hlimit env tx st o Hwf Hrep Ht) as Href.
  destruct (exec maxRuns maxEventsRun env tx o) as [tx' [a|e]]; cbn [fst snd refines] in *.
  - destruct Href as (st' & Hs & Hrep'). exists st'. split_and!; [done|by eapply spec_wf|by eapply spec_extends].
  - destruct Href as [[Hrep'|(a & st' & Hs & Hrep')] _]; [by exists st|]. exists st'. split_and!; [done|by eapply spec_wf|by eapply spec_extends].
Qed.

(** C11: The store answers as specified, and what it leaves extends what was there. *)
Theorem broker_store_refines env tx st o :
  wf maxEventsRun st → represents tx st → well_typed o →
  let '(tx', outcome) := exec maxRuns maxEventsRun env tx o in
  refines maxRuns maxEventsRun env st o tx' outcome ∧ ∃ st', represents tx' st' ∧ wf maxEventsRun st' ∧ extends st st'.
Proof using BC Hlimit.
  intros Hwf Hrep Ht. pose proof (exec_refines maxRuns maxEventsRun Hlimit env tx st o Hwf Hrep Ht) as Href.
  pose proof (exec_moves env tx st o Hwf Hrep Ht) as Hmv. by destruct (exec maxRuns maxEventsRun env tx o) as [tx' outcome].
Qed.

(** C12: The log is durable and exact.  After any calls on an empty database, with any faults,
    the log of a run reads back from every position; it holds the events whose
    [Append] was acknowledged, in their order; its events are valid, belong to the run,
    are numbered from 1 without gaps, and only the last can be terminal. *)
Theorem broker_log_durable tx calls tx' log b g :
  empty_database tx → Forall (fun call => well_typed call.2) calls → run_calls tx calls = (tx', log) → run_id b g →
  ∃ l,
    (∀ after limit, 0 ≤ after < 2 ^ 64 - 1 → 1 ≤ limit ≤ 1000 →
       EventsAfter None b g after limit tx' = Ok (take (Z.to_nat limit) (drop (Z.to_nat after) l))) ∧
    omap (appended (b, g)) log `sublist_of` l ∧
    ∀ i e, l !! i = Some e → Event_Validate e = Ok tt ∧ ev_BuildID e = b ∧ ev_Generation e = g ∧ ev_Sequence e = Z.of_nat i + 1 ∧
      (is_Some (ev_Terminal e) → S i = length l).
Proof using BC Hlimit.
  intros Hn Hty Hrun Hid. destruct (history_from_empty _ _ _ _ Hn Hty Hrun) as (st' & Ht & Hrep & Hwf). exists (events_of st' (b, g)). split_and!.
  - intros after limit Ha Hl. by apply EventsAfter_represents.
  - destruct (traced_appended _ _ _ (b, g) (empty_wf _) Ht) as (l & -> & Hsub). exact Hsub.
  - intros i e Hi. destruct (wf_logs _ _ Hwf b g) as [r Hr]; [by intros E; rewrite E, lookup_nil in Hi|].
    destruct (wf_runs _ _ Hwf _ _ _ Hr) as (_ & _ & Hw). destruct (run_numbered _ _ _ Hw _ _ Hi) as (? & ? & ? & ?).
    split_and!; try done. by apply (run_terminal _ _ _ Hw).
Qed.

(** C13: A terminal record is final.  Once a call reported one, the store holds that record,
    and every later call that reports a record of the run reports this one, as the answer
    of [Claim] to a repeated request or of [Lookup]. *)
Theorem broker_terminal_final tx calls tx' log1 log2 o a b g r :
  empty_database tx → Forall (fun call => well_typed call.2) calls → run_calls tx calls = (tx', log1 ++ (o, Ok a) :: log2) →
  reported a = Some ((b, g), r) → Terminal r = true →
  Lookup None b g tx' = Ok (Some r) ∧
  ∀ o' a' r', (o', Ok a') ∈ log2 → reported a' = Some ((b, g), r') → r' = r ∧ (a' = Claimed r false ∨ a' = Found (Some r)).
Proof using BC Hlimit.
  intros Hn Hty Hrun Ha Hterm. destruct (history_from_empty _ _ _ _ Hn Hty Hrun) as (st' & Ht & Hrep & Hwf).
  apply traced_app in Ht as (s1 & Ht1 & Ht2). pose proof (traced_wf _ _ _ Ht1 (empty_wf _)) as Hwf1.
  inversion Ht2 as [|? ? ? s2 ? ? Hty2 Hs Ht3| |]; subst. pose proof (spec_wf _ _ _ _ _ _ Hwf1 Hty2 Hs) as Hwf2.
  pose proof (reported_run _ _ _ _ _ _ Hwf1 Hs Ha) as Hr. split.
  - destruct (wf_runs _ _ Hwf2 _ _ _ Hr) as (Hid & _). rewrite (Lookup_represents _ _ _ _ Hrep Hid).
    destruct (ext_runs _ _ (traced_extends _ _ _ Ht3) _ _ Hr) as (r' & -> & E). by rewrite (ext_final _ _ E Hterm).
  - intros o' a' r' (log3 & log4 & ->)%list_elem_of_split Ha'. apply traced_app in Ht3 as (s3 & Ht3 & Ht4).
    inversion Ht4 as [|? ? ? s4 ? ? Hty4 Hs4 Ht5| |]; subst. eapply terminal_answer; [exact (traced_wf _ _ _ Ht3 Hwf2)|exact Hs4| |exact Hterm|exact Ha'].
    destruct (ext_runs _ _ (traced_extends _ _ _ Ht3) _ _ Hr) as (r3 & Hr3 & E). by rewrite (ext_final _ _ E Hterm) in Hr3.
Qed.

(** A build has one active generation at most.  Beside a record that [Nonterminal]
    lists, the store has only terminal records of the build, of earlier generations. *)
Theorem broker_one_active tx calls tx' log l :
  empty_database tx → Forall (fun call => well_typed call.2) calls → run_calls tx calls = (tx', log) → Nonterminal (fun _ => None) 10000 tx' = Ok l →
  ∀ r, r ∈ l → ∀ b g' r', rq_BuildID (br_Request r) = b → run_id b g' → Lookup None b g' tx' = Ok (Some r') →
    r' = r ∨ g' < rq_Generation (br_Request r) ∧ Terminal r' = true.
Proof using BC Hlimit.
  intros Hn Hty Hrun Hnt r Hr b g' r' Hb Hid Hl. destruct (history_from_empty _ _ _ _ Hn Hty Hrun) as (st' & Ht & Hrep & Hwf).
  pose proof (nonterminal_simulates maxEventsRun tx' st' 10000 (fun _ => None) Hwf Hrep) as Hs. rewrite Hnt in Hs.
  unfold spec_nonterminal in Hs. cbv zeta in Hs. destruct (_ || _); [done|]. injection Hs as <-.
  apply list_elem_of_In, filter_In in Hr as [Hr Hact%negb_true_iff]. unfold all_runs in Hr. apply list_elem_of_In, list_elem_of_fmap in Hr as ([id r0] & -> & Hin).
  rewrite SortStableFunc_perm in Hin. apply elem_of_map_to_list in Hin. cbn [snd] in *. destruct id as [b0 g0].
  pose proof (run_key _ _ _ _ Hwf Hin) as [= E1 E2]. rewrite (Lookup_represents _ _ _ _ Hrep Hid) in Hl. injection Hl as Hl.
  assert (b0 = b) as -> by congruence. destruct (active_latest _ _ _ _ _ Hwf Hin Hact _ _ Hl) as [Hnlt Hlt].
  destruct (Z.lt_trichotomy g' g0) as [?|[->|?]]; [|left; congruence|by destruct Hnlt]. right. split; [lia|]. by apply Hlt.
Qed.

(** A run that is active with a full log. *)
Definition stuck (id : string * Z) (st : broker) : Prop :=
  ∃ r, runs st !! id = Some r ∧ Terminal r = false ∧ maxEventsRun ≤ Z.of_nat (length (events_of st id)).

Lemma set_state_nonterminal r state timestamp :
  slices_Contains ["running"; "retrying"; "canceling"] state = true → Terminal (set_state r state timestamp) = false.
Proof.
  unfold Terminal, slices_Contains. cbn [br_State set_state existsb]. rewrite !orb_true_iff, !String.eqb_eq. intros Hs.
  destruct Hs as [Hs|[Hs|[Hs|[=]]]]; by subst.
Qed.

Lemma spec_stuck id st o a st' : spec maxRuns maxEventsRun st o = Some (a, st') → stuck id st → stuck id st'.
Proof.
  intros Hs (r & Hr & Ht & Hfull). destruct o as [request now|b g|b g state now|event now|b g after limit|limit|b g|checkpoint]; cbn [spec] in Hs.
  - unfold spec_claim in Hs. destruct (is_err _); [done|]. destruct (marshal request); [|done]. destruct (runs st !! _) as [r0|] eqn:Hr0.
    + destruct (String.eqb _ _); [|done]. injection Hs as _ <-. by exists r.
    + destruct (_ || negb (storable _)); [done|]. injection Hs as _ <-. exists r. cbn [runs put_run]. rewrite lookup_insert_ne; [done|]. intros E. congruence.
  - destruct (is_err _); [done|]. injection Hs as _ <-. by exists r.
  - unfold spec_set_state in Hs. destruct (is_err _ || _ || _) eqn:Hpre; [done|]. apply orb_false_iff in Hpre as [Hpre _].
    apply orb_false_iff in Hpre as [_ Hin%negb_false_iff]. destruct (runs st !! (b, g)) as [r0|] eqn:Hr0; [|done]. destruct (Terminal r0 || _ || _); [done|].
    injection Hs as _ <-. destruct (decide (id = (b, g))) as [->|Hne].
    + eexists. split; [apply lookup_insert_eq|]. by rewrite set_state_nonterminal.
    + exists r. cbn [runs put_run]. by rewrite lookup_insert_ne.
  - unfold spec_append in Hs. destruct (is_err _ || _); [done|]. set (id0 := (ev_BuildID event, ev_Generation event)) in *.
    destruct (runs st !! id0) as [r0|] eqn:Hr0; [|done]. destruct (decide (id = id0)) as [->|Hne].
    + rewrite (proj2 (Z.leb_le _ _) Hfull), orb_true_r in Hs. done.
    + destruct (_ || negb (storable (record_event _ _ _))); [done|]. injection Hs as _ <-. exists r. cbn [runs put_run put_event].
      rewrite lookup_insert_ne, events_of_put_run, events_of_put_event, decide_False by done. done.
  - unfold spec_events_after in Hs. destruct (_ || _); [done|]. injection Hs as _ <-. by exists r.
  - unfold spec_nonterminal in Hs. destruct (_ || _); [done|]. injection Hs as _ <-. by exists r.
  - destruct (is_err _); [done|]. injection Hs as _ <-. by exists r.
  - unfold spec_save in Hs. destruct (negb _); [done|]. destruct (runs st !! _); [|done]. destruct (_ || _); [done|]. injection Hs as _ <-. by exists r.
Qed.

(** C40: Once its log is full, a run that is not terminal never becomes so: the limit of
    [Append] holds for the terminal event too. *)
Theorem full_log_stuck tx calls1 tx1 log1 calls2 tx2 log2 b g r :
  empty_database tx → Forall (fun call => well_typed call.2) calls1 → run_calls tx calls1 = (tx1, log1) → run_id b g →
  Lookup None b g tx1 = Ok (Some r) → Terminal r = false → maxEventsRun ≤ br_LastSequence r →
  Forall (fun call => well_typed call.2) calls2 → run_calls tx1 calls2 = (tx2, log2) →
  ∃ r', Lookup None b g tx2 = Ok (Some r') ∧ Terminal r' = false.
Proof using BC Hlimit.
  intros Hn Hty1 Hrun1 Hid Hl Hterm Hfull Hty2 Hrun2. destruct (history_from_empty _ _ _ _ Hn Hty1 Hrun1) as (s1 & _ & Hrep1 & Hwf1).
  rewrite (Lookup_represents _ _ _ _ Hrep1 Hid) in Hl. injection Hl as Hl. destruct (wf_runs _ _ Hwf1 _ _ _ Hl) as (_ & _ & Hw).
  destruct (run_calls_traced _ _ _ _ _ Hwf1 Hrep1 Hty2 Hrun2) as (s2 & Ht & Hrep2).
  assert (stuck (b, g) s1) as Hs by (exists r; rewrite <- (run_last _ _ _ Hw); done).
  assert (stuck (b, g) s2) as (r' & Hr' & Ht' & _).
  { clear - Ht Hs. induction Ht; eauto using spec_stuck. }
  exists r'. by rewrite (Lookup_represents _ _ _ _ Hrep2 Hid), Hr'.
Qed.

End History.

End BrokerHistory.
