(* ===== verification/Orchestrator.v ===== *)
(** * The build orchestrator (build-plane/internal/buildorchestrator:
    orchestrator.go, dispatcher_grpc.go)

    [Run] takes one build generation from its request to a terminal result: it
    materializes the source, runs the detector, compiles the configuration, stores
    every input by digest, signs one assignment, checkpoints it, and only then hands
    it to the build cell.  A run that finds a signed checkpoint hands the cell that
    assignment again.

    The source archive store, the detector, the compiler, the signing authority and
    the cell are interfaces of the source; here they are answers of [Env].  The
    checkpoint store is the database of BrokerStore.v, which others may change
    between any two calls ([e_other]). *)

From S2P Require Import Prelude StateMonad Text GoStd GoTime GoURL Crypto PlatformID Storage CanonicalJSON BuildIR LLBPolicy Assignment BuildWorker RunStore BuildRequest BrokerStore BrokerSpec BrokerRefinement BrokerHistory.
From stdpp Require Import pretty.
Import StateMonad GoStd GoTime GoURL Crypto PlatformID Storage LLBPolicy BuildRequest BrokerStore BrokerSpec BrokerRefinement BrokerHistory.

Open Scope Z_scope.

Module Orchestrator.

Definition DefaultAssignmentTTL : Duration := Assignment.DefaultMaxAssignmentTTL.
Definition MaxStoredObjectBytes : Z := Z.shiftl 32 20.
Definition SignatureAlgorithm : string := "ed25519".

(** ** Data *)

Record StoredObject := { so_Reference : string; so_Digest : string; so_Size : Z }.

(** buildsigning.Material *)
Record Material := { m_KeyID : string; m_KeyVersion : Z; m_Algorithm : string; m_PublicKeyPEM : string; m_Signature : list Z }.

(** What is read of a detection. *)
Record DetectedProcess := {
  dp_Name : string; dp_Kind : string; dp_Command : list string; dp_Port : option Z; dp_Protocol : string; dp_HealthPath : option string;
}.

Record DetectedService := {
  ds_Name : string; ds_Root : string; ds_Kind : string; ds_Language : string; ds_Framework : string; ds_RuntimeVersion : option string;
  ds_Strategy : string; ds_InstallCommand : list string; ds_BuildCommand : list string; ds_OutputPath : option string; ds_CachePaths : list string;
  ds_Processes : list DetectedProcess;
}.

Record DetectionResult := { dr_Services : list DetectedService; dr_GeneratedManifest : string; dr_Blocked : bool }.

(** llbcompiler.OutputDefinition *)
Record OutputDefinition := {
  od_Name : string; od_Kind : string; od_LLBDigest : string; od_Head : string; od_Definition : string; od_ImageConfig : string;
  od_StaticHeaders : gmap string string;
}.

(** What is read of a compilation. *)
Record Compilation := {
  co_Program : string; co_IRBytes : string; co_DefinitionDigest : string; co_Lock : DefinitionLock; co_LockBytes : string;
  co_Outputs : list OutputDefinition;
}.

(** The errors [compilationFailure] tells apart with errors.As. *)
Inductive compile_error :=
| DSLError (code message : string)
| LLBError (code message : string)
| OtherError (text : string).

(** The messages of the build cell; a missing submessage reads as zero. *)
Record CellOutput := {
  ce_Name : string; ce_Kind : string; ce_ArtifactRef : string; ce_ArtifactDigest : string; ce_ArtifactSize : Z; ce_ConfigDigest : string;
  ce_ManifestDigest : string; ce_LayerDigests : list string; ce_PublicationManifestRef : string; ce_SupplyChain : BuildWorker.SupplyChainResult;
}.

Record CellResult := {
  ce_BuildID : string; ce_PayloadDigest : string; ce_Phase : string; ce_Attempts : Z; ce_WorkerIdentity : string; ce_Outputs : list CellOutput;
  ce_ErrorCode : string; ce_FinishedAt : string; ce_Cleanup : CleanupResult; ce_LogsDigest : string; ce_CacheHits : Z; ce_CacheMisses : Z;
}.

Record CellEvent := {
  cv_Attempt : Z; cv_Phase : string; cv_Kind : string; cv_Output : string; cv_Vertex : string; cv_Name : string; cv_Current : Z; cv_Total : Z;
  cv_Cached : bool; cv_Stream : Z; cv_Line : string; cv_Code : string; cv_Message : string; cv_OccurredAt : string; cv_Result : option CellResult;
}.

(** ** Text *)

(** [^[A-Za-z0-9._/-]+$] *)
Definition object_part (s : string) : bool := negb (String.eqb s "") && str_forall (fun c => lower_name c || is_upper c || is_char "/" c) s.

(** The runes of a text that is replaced rune by rune: how many bytes the first has. *)
Definition rune_width (s : string) : nat :=
  match s with
  | "" => 0
  | String c _ => if is_ascii c then 1 else match CanonicalJSON.rune_tail s with Some n => S n | None => 1 end
  end.

(** [ReplaceAllString] of a class of ASCII characters' complement: a rune outside the
    class becomes an underscore. *)
Fixpoint replace_runes (keep : ascii → bool) (skip : nat) (s : string) : string :=
  match s with
  | "" => ""
  | String c s' =>
      match skip with
      | S n => replace_runes keep n s'
      | O => String (if keep c then c else "_"%char) (replace_runes keep (rune_width s - 1) s')
      end
  end.

Fixpoint trim_left_char (c : ascii) (s : string) : string :=
  match s with String d s' => if Ascii.eqb d c then trim_left_char c s' else s | "" => "" end.

(** [strings.Trim(s, "_")] *)
Definition TrimUnderscore (s : string) : string :=
  let reversed := String.rev (trim_left_char "_" s) in String.rev (trim_left_char "_" reversed).

(** [strings.ToValidUTF8(s, "?")]: a run of invalid bytes becomes one question mark. *)
Fixpoint to_valid (skip : nat) (invalid : bool) (s : string) : string :=
  match s with
  | "" => ""
  | String c s' =>
      match skip with
      | S n => String c (to_valid n false s')
      | O =>
          if is_ascii c then String c (to_valid 0 false s')
          else match CanonicalJSON.rune_tail s with
          | Some n => String c (to_valid n false s')
          | None => if invalid then to_valid 0 true s' else String "?" (to_valid 0 true s')
          end
      end
  end.

Definition ToValidUTF8 (s : string) : string := to_valid 0 false s.

(** The loop that shortens a text until it is valid UTF-8. *)
Fixpoint shorten (fuel : nat) (s : string) : string :=
  match fuel with
  | O => s
  | S n => if ValidString s then s else shorten n (str_take (String.length s - 1) s)
  end.

Definition boundedText (value : string) (limit : Z) : string :=
  let value := str_filter (fun c => negb (is_char nul c)) (ToValidUTF8 value) in
  if len value <=? limit then value
  else let value := str_take (Z.to_nat limit) value in shorten (String.length value) value.

Definition normalizedCellFailure `{GoText} (value state phase : string) : string :=
  let value := replace_runes lower_name 0 (ToLower (TrimSpace value)) in
  let value := if String.eqb value "" then phase else value in
  if String.eqb state "canceled" then "build_canceled"
  else if String.eqb phase "quarantined" then "build_cleanup_quarantined"
  else "build_" +:+ TrimUnderscore value.

Definition compilationFailure (err : compile_error) : option (string * string) :=
  match err with
  | DSLError code message => Some ("dsl_" +:+ TrimPrefix code "dsl.", message)
  | LLBError code message => Some ("dsl_" +:+ TrimPrefix code "llb.", message)
  | OtherError text =>
      if Contains text "detector proposal" || Contains text "detected configuration"
      then Some ("detect_confirmation_required", "Detected configuration cannot be compiled without confirmation")
      else None
  end.

(** [None] is the panic of a name outside the object alphabet. *)
Definition objectName (request : Request) (suffix digest : string) : option string :=
  let name := "builds/" +:+ rq_BuildID request +:+ "/g" +:+ pretty (rq_Generation request) +:+ "/" +:+ TrimPrefix digest "sha256:" +:+ "/" +:+ suffix in
  if (1024 <? len name) || negb (object_part name) || Contains name ".." then None else Some name.

Definition panic {A} : result A := Err (Error "panic" "owned build object name is invalid").

Definition lockedOutput (lock : DefinitionLock) (name : string) : option OutputLock :=
  List.find (fun output => String.eqb (ol_Name output) name) (dl_Outputs lock).

(** ** Services *)

Definition detected_service (service : DetectedService) : ServiceResult :=
  {| sr_Name := ds_Name service; sr_Root := ds_Root service; sr_Kind := ds_Kind service; sr_Language := ds_Language service;
     sr_Framework := ds_Framework service; sr_RuntimeVersion := default "" (ds_RuntimeVersion service);
     sr_Build := {| br_Strategy := ds_Strategy service; br_InstallCommand := ds_InstallCommand service; br_BuildCommand := ds_BuildCommand service;
                    br_OutputPath := default "" (ds_OutputPath service); br_CachePaths := ds_CachePaths service |};
     sr_Processes := map (fun process =>
       {| pr_Name := dp_Name process; pr_Kind := dp_Kind process; pr_Command := dp_Command process; pr_Port := dp_Port process;
          pr_Protocol := dp_Protocol process; pr_HealthPath := default "" (dp_HealthPath process) |}) (ds_Processes service) |}.

Definition custom_service (outputs : list OutputDefinition) (name : string) : ServiceResult :=
  let kind := if existsb (fun output => String.eqb (od_Name output) name && String.eqb (od_Kind output) "static_bundle") outputs then "static" else "web" in
  {| sr_Name := name; sr_Root := "."; sr_Kind := kind; sr_Language := "docker"; sr_Framework := "Custom Starlark"; sr_RuntimeVersion := "";
     sr_Build := {| br_Strategy := "starlark"; br_InstallCommand := []; br_BuildCommand := []; br_OutputPath := ""; br_CachePaths := [] |};
     sr_Processes := [{| pr_Name := "web"; pr_Kind := kind; pr_Command := ["platform-defined"]; pr_Port := None; pr_Protocol := "none"; pr_HealthPath := "" |}] |}.

(** The map of detected services: a name that repeats keeps the last one. *)
Definition detected_by_name (services : list DetectedService) : gmap string DetectedService :=
  fold_left (fun m service => <[ds_Name service := service]> m) services ∅.

Definition serviceResults (detection : DetectionResult) (outputs : list OutputDefinition) : list ServiceResult :=
  let detected := detected_by_name (dr_Services detection) in
  let names := if (length outputs =? 0)%nat then map ds_Name (dr_Services detection) else map od_Name outputs in
  map (fun name => match detected !! name with Some service => detected_service service | None => custom_service outputs name end) (Sort names).

(** ** Results *)

Definition zero_result : Result :=
  {| re_Version := 0; re_BuildID := ""; re_Generation := 0; re_State := ""; re_SourceSnapshotID := ""; re_SourceDigest := ""; re_DetectionDigest := "";
     re_ManifestDigest := ""; re_BuildIRDigest := ""; re_DefinitionDigest := ""; re_AssignmentDigest := ""; re_LogsDigest := ""; re_Outputs := [];
     re_Services := []; re_FailureCode := ""; re_FailureMessage := ""; re_StartedAt := ""; re_FinishedAt := ""; re_WorkerIdentity := "";
     re_Cleanup := {| cr_Status := ""; cr_ResidueCount := 0; cr_QuarantineReason := "" |}; re_CacheHits := 0; re_CacheMisses := 0;
     re_DetectorResultRef := ""; re_ManifestRef := ""; re_GeneratedBuildRef := ""; re_BuildIRRef := ""; re_DefinitionLockRef := "" |}.

(** The partial result after detection, after compilation, and with its assignment. *)
Definition with_detection (partial : Result) (digest reference : string) (services : list ServiceResult) : Result :=
  {| re_Version := re_Version partial; re_BuildID := re_BuildID partial; re_Generation := re_Generation partial; re_State := re_State partial;
     re_SourceSnapshotID := re_SourceSnapshotID partial; re_SourceDigest := re_SourceDigest partial; re_DetectionDigest := digest;
     re_ManifestDigest := re_ManifestDigest partial; re_BuildIRDigest := re_BuildIRDigest partial; re_DefinitionDigest := re_DefinitionDigest partial;
     re_AssignmentDigest := re_AssignmentDigest partial; re_LogsDigest := re_LogsDigest partial; re_Outputs := re_Outputs partial;
     re_Services := services; re_FailureCode := re_FailureCode partial; re_FailureMessage := re_FailureMessage partial;
     re_StartedAt := re_StartedAt partial; re_FinishedAt := re_FinishedAt partial; re_WorkerIdentity := re_WorkerIdentity partial;
     re_Cleanup := re_Cleanup partial; re_CacheHits := re_CacheHits partial; re_CacheMisses := re_CacheMisses partial; re_DetectorResultRef := reference;
     re_ManifestRef := re_ManifestRef partial; re_GeneratedBuildRef := re_GeneratedBuildRef partial; re_BuildIRRef := re_BuildIRRef partial;
     re_DefinitionLockRef := re_DefinitionLockRef partial |}.

Definition with_compilation (partial : Result) (manifest program ir lock : StoredObject) (definitionDigest : string) (services : list ServiceResult) : Result :=
  {| re_Version := re_Version partial; re_BuildID := re_BuildID partial; re_Generation := re_Generation partial; re_State := re_State partial;
     re_SourceSnapshotID := re_SourceSnapshotID partial; re_SourceDigest := re_SourceDigest partial; re_DetectionDigest := re_DetectionDigest partial;
     re_ManifestDigest := so_Digest manifest; re_BuildIRDigest := so_Digest ir; re_DefinitionDigest := definitionDigest;
     re_AssignmentDigest := re_AssignmentDigest partial; re_LogsDigest := re_LogsDigest partial; re_Outputs := re_Outputs partial;
     re_Services := services; re_FailureCode := re_FailureCode partial; re_FailureMessage := re_FailureMessage partial;
     re_StartedAt := re_StartedAt partial; re_FinishedAt := re_FinishedAt partial; re_WorkerIdentity := re_WorkerIdentity partial;
     re_Cleanup := re_Cleanup partial; re_CacheHits := re_CacheHits partial; re_CacheMisses := re_CacheMisses partial;
     re_DetectorResultRef := re_DetectorResultRef partial; re_ManifestRef := so_Reference manifest; re_GeneratedBuildRef := so_Reference program;
     re_BuildIRRef := so_Reference ir; re_DefinitionLockRef := so_Reference lock |}.

Definition with_assignment (partial : Result) (digest : string) : Result :=
  {| re_Version := re_Version partial; re_BuildID := re_BuildID partial; re_Generation := re_Generation partial; re_State := re_State partial;
     re_SourceSnapshotID := re_SourceSnapshotID partial; re_SourceDigest := re_SourceDigest partial; re_DetectionDigest := re_DetectionDigest partial;
     re_ManifestDigest := re_ManifestDigest partial; re_BuildIRDigest := re_BuildIRDigest partial; re_DefinitionDigest := re_DefinitionDigest partial;
     re_AssignmentDigest := digest; re_LogsDigest := re_LogsDigest partial; re_Outputs := re_Outputs partial;
     re_Services := re_Services partial; re_FailureCode := re_FailureCode partial; re_FailureMessage := re_FailureMessage partial;
     re_StartedAt := re_StartedAt partial; re_FinishedAt := re_FinishedAt partial; re_WorkerIdentity := re_WorkerIdentity partial;
     re_Cleanup := re_Cleanup partial; re_CacheHits := re_CacheHits partial; re_CacheMisses := re_CacheMisses partial;
     re_DetectorResultRef := re_DetectorResultRef partial; re_ManifestRef := re_ManifestRef partial; re_GeneratedBuildRef := re_GeneratedBuildRef partial;
     re_BuildIRRef := re_BuildIRRef partial; re_DefinitionLockRef := re_DefinitionLockRef partial |}.

(** The fields a terminal result sets on the partial one. *)
Definition terminal_result (partial : Result) (request : Request) (state : string) (outputs : list OutputResult) (code message startedAt finishedAt : string)
    (worker logs : string) (cleanup : CleanupResult) (hits misses : Z) : Result :=
  {| re_Version := CurrentResultVersion; re_BuildID := rq_BuildID request; re_Generation := rq_Generation request; re_State := state;
     re_SourceSnapshotID := s_SnapshotID (rq_Source request); re_SourceDigest := s_SnapshotDigest (rq_Source request);
     re_DetectionDigest := re_DetectionDigest partial; re_ManifestDigest := re_ManifestDigest partial; re_BuildIRDigest := re_BuildIRDigest partial;
     re_DefinitionDigest := re_DefinitionDigest partial; re_AssignmentDigest := re_AssignmentDigest partial; re_LogsDigest := logs;
     re_Outputs := outputs; re_Services := re_Services partial; re_FailureCode := code; re_FailureMessage := message; re_StartedAt := startedAt;
     re_FinishedAt := finishedAt; re_WorkerIdentity := worker; re_Cleanup := cleanup; re_CacheHits := hits; re_CacheMisses := misses;
     re_DetectorResultRef := re_DetectorResultRef partial; re_ManifestRef := re_ManifestRef partial; re_GeneratedBuildRef := re_GeneratedBuildRef partial;
     re_BuildIRRef := re_BuildIRRef partial; re_DefinitionLockRef := re_DefinitionLockRef partial |}.

Definition failure_result (partial : Result) (request : Request) (started finished : Time) (state code message : string) : Result :=
  terminal_result partial request state [] code message (FormatRFC3339Nano started) (FormatRFC3339Nano finished)
    (re_WorkerIdentity partial) (re_LogsDigest partial) {| cr_Status := "clean"; cr_ResidueCount := 0; cr_QuarantineReason := "" |}
    (re_CacheHits partial) (re_CacheMisses partial).

(** ** The cell's result *)

Definition compare_kinds (left right : BuildWorker.EvidenceReference) : Z := Compare (BuildWorker.ev_Kind left) (BuildWorker.ev_Kind right).
Definition compare_outputs (left right : OutputResult) : Z := Compare (or_Name left) (or_Name right).

Definition map_output (output : CellOutput) : result OutputResult :=
  let chain := ce_SupplyChain output in
  if negb (length (BuildWorker.sc_Evidence chain) =? 5)%nat then bad "BuildCell output lacks complete evidence"
  else Ok {| or_Name := ce_Name output; or_Kind := ce_Kind output; or_ArtifactRef := ce_ArtifactRef output; or_ArtifactDigest := ce_ArtifactDigest output;
             or_ArtifactSize := ce_ArtifactSize output; or_ConfigDigest := ce_ConfigDigest output; or_ManifestDigest := ce_ManifestDigest output;
             or_LayerDigests := ce_LayerDigests output; or_PublicationManifestRef := ce_PublicationManifestRef output;
             or_SupplyChain :=
               {| BuildWorker.sc_PolicyState := BuildWorker.sc_PolicyState chain; BuildWorker.sc_ScanState := BuildWorker.sc_ScanState chain;
                  BuildWorker.sc_PolicyDigest := BuildWorker.sc_PolicyDigest chain; BuildWorker.sc_SignerKeyID := BuildWorker.sc_SignerKeyID chain;
                  BuildWorker.sc_SignerKeyVersion := BuildWorker.sc_SignerKeyVersion chain;
                  BuildWorker.sc_SignerPublicKeyDigest := BuildWorker.sc_SignerPublicKeyDigest chain;
                  BuildWorker.sc_Evidence := SortStableFunc compare_kinds (BuildWorker.sc_Evidence chain) |} |}.

Fixpoint map_outputs (outputs : list CellOutput) : result (list OutputResult) :=
  match outputs with
  | [] => Ok []
  | output :: rest =>
      let* mapped := map_output output in
      let* others := map_outputs rest in Ok (mapped :: others)
  end.

(** The state of a terminal phase of the cell. *)
Definition cell_state (phase : string) : option string :=
  if String.eqb phase "complete" then Some "complete"
  else if String.eqb phase "canceled" then Some "canceled"
  else if String.eqb phase "failed" || String.eqb phase "quarantined" then Some "failed"
  else None.

Definition mapCellResult `{GoText} (request : Request) (started : Time) (partial : Result) (reply : option CellResult) : result Result :=
  match reply with
  | None => bad "BuildCell returned an inconsistent terminal identity"
  | Some cell =>
      if negb (String.eqb (ce_BuildID cell) (rq_BuildID request)) || negb (String.eqb (ce_PayloadDigest cell) (re_AssignmentDigest partial)) ||
         (ce_Attempts cell =? 0)
      then bad "BuildCell returned an inconsistent terminal identity"
      else match cell_state (ce_Phase cell) with
      | None => bad "BuildCell returned a non-terminal result"
      | Some state =>
          let* outputs := map_outputs (ce_Outputs cell) in
          let complete := String.eqb state "complete" in
          let final := terminal_result partial request state (SortStableFunc compare_outputs outputs)
            (if complete then "" else normalizedCellFailure (ce_ErrorCode cell) state (ce_Phase cell))
            (if complete then "" else "BuildCell reported a terminal " +:+ ce_Phase cell +:+ " result")
            (FormatRFC3339Nano started) (ce_FinishedAt cell) (ce_WorkerIdentity cell) (ce_LogsDigest cell) (ce_Cleanup cell)
            (ce_CacheHits cell) (ce_CacheMisses cell) in
          let* _ := Result_Validate final in
          Ok final
      end
  end.

(** ** Assignments *)

Definition zero_lock : DefinitionLock :=
  {| dl_Version := 0; dl_CompilerVersion := ""; dl_IRDigest := ""; dl_PolicyDigest := ""; dl_SourceSnapshot := ""; dl_TargetPlatform := "";
     dl_BuildArguments := []; dl_BaseMaterials := []; dl_Network := []; dl_Caches := []; dl_Secrets := [];
     dl_SupplyChain :=
       {| sp_Version := 0; SyftVersion := ""; TrivyVersion := ""; SignerKeyID := ""; AllowedSignerPublicKeyDigests := [];
          DeniedVulnerabilitySeverities := []; DeniedConfigurationSeverities := []; DeniedLicenseClassifications := [];
          RequireSecretFree := false; RequireImageConfigurationScan := false |};
     dl_Outputs := [] |}.

Definition zero_envelope : Assignment.Envelope :=
  {| Assignment.e_KeyID := "";
     Assignment.e_Payload :=
       {| Assignment.p_Version := 0; Assignment.p_BuildID := ""; Assignment.p_CellID := ""; Assignment.p_OrganizationID := ""; Assignment.p_ProjectID := "";
          Assignment.p_OperationID := ""; Assignment.p_Generation := 0; Assignment.p_Nonce := ""; Assignment.p_IssuedAt := ""; Assignment.p_ExpiresAt := "";
          Assignment.p_DefinitionDigest := ""; Assignment.p_Lock := zero_lock;
          Assignment.p_Source := {| Assignment.sa_SnapshotDigest := ""; Assignment.sa_ArchiveDigest := ""; Assignment.sa_ArchiveRef := ""; Assignment.sa_SizeBytes := 0 |};
          Assignment.p_Outputs := [] |};
     Assignment.e_Signature := "" |}.

(** The options [New] keeps. *)
Record Options := { o_CellID : string; o_AssignmentKeyID : string; o_AssignmentKey : string; o_AssignmentTTL : Duration }.

(** [New]: [complete] says that the dependencies are given, [made] and [straight] that
    the scratch root can be created and is no symbolic link. *)
Definition New `{GoText} (complete : bool) (options : Options) (scratch : string) (made straight : bool) : result Options :=
  if negb complete then bad "build orchestrator dependencies are incomplete"
  else if negb (has_prefix (o_CellID options) "cell") || negb (is_event_kind (o_AssignmentKeyID options)) || negb (is_digest (o_AssignmentKey options))
  then bad "build orchestrator assignment identity is invalid"
  else
    let ttl := if o_AssignmentTTL options =? 0 then DefaultAssignmentTTL else o_AssignmentTTL options in
    if (ttl <? Minute) || (Assignment.DefaultMaxAssignmentTTL <? ttl) then bad "build orchestrator assignment TTL is outside policy"
    else if String.eqb scratch "" then bad "build orchestrator scratch root is absent"
    else if negb made then bad "build orchestrator scratch root is invalid"
    else if negb straight then bad "build orchestrator scratch root traverses a symlink"
    else Ok {| o_CellID := o_CellID options; o_AssignmentKeyID := o_AssignmentKeyID options; o_AssignmentKey := o_AssignmentKey options;
               o_AssignmentTTL := ttl |}.

Definition DefaultRecoveryInterval : Duration := Second.

(** The interval [NewGRPCCellDispatcher] keeps. *)
Definition NewGRPCCellDispatcher (client : bool) (recoveryInterval : Duration) : result Duration :=
  if negb client then bad "BuildCell client is absent"
  else
    let interval := if recoveryInterval =? 0 then DefaultRecoveryInterval else recoveryInterval in
    if (interval <? 10 * Millisecond) || (10 * Second <? interval) then bad "BuildCell recovery interval is outside bounds" else Ok interval.

(** [t.Truncate(time.Second)] *)
Definition TruncateSecond (t : Time) : Time := t - t mod Second.

(** crypto/x509 and encoding/pem: the key and the DER bytes of a PEM public key. *)
Class PublicKeys := parse_pem : string → option (list Z * string).

(** buildsupply.VerifySignature: the digest of the key the signature verifies under. *)
Definition VerifySignature `{!Ed25519} `{!PublicKeys} (publicKeyPEM payload : string) (signature : list Z) : option string :=
  match parse_pem publicKeyPEM with
  | Some (key, der) =>
      if (length key =? PublicKeySize)%nat && (length signature =? SignatureSize)%nat && ed_Verify key payload signature
      then Some (bytesDigest der) else None
  | None => None
  end.

(** ** The surroundings *)

(** What the cell's stream does: it cannot be opened, or yields events (an absent one
    is [None]) until it ends or breaks, which [Execute] treats alike; [d_polls] are the
    answers of [GetAssignment] until the context is done. *)
Inductive poll := PollError | PollLost | PollResult (reply : CellResult) | PollPending.

Record Dispatch := { d_opened : bool; d_events : list (option CellEvent); d_polls : list poll }.

Record Env := {
  e_clock : nat → Time;
  e_ctx : nat → Ctx;
  e_store : nat → BrokerRefinement.Env;
  e_other : nat → list (BrokerRefinement.Env * op);
  e_mkdir : nat → bool;
  e_materialize : nat → Source → result unit;
  e_detect : nat → string → string → result (DetectionResult * string);
  e_compile : nat → Request → DetectionResult → Compilation + compile_error;
  e_put : nat → string → string → string → result StoredObject;
  e_mirror : nat → Source → string → result Assignment.SourceArtifact;
  e_nonce : nat → option string;
  e_sign : nat → string → result Material;
  e_dispatch : nat → Assignment.Envelope → Dispatch;
  e_cancel : nat → option bool;
}.

Inductive action :=
| Stored (name : string) (contents : string)
| Signed (payload : Assignment.Payload)
| Dispatched (envelope : Assignment.Envelope)
| Emitted (event : Event)
| MadeWorkspace
| RemovedWorkspace
| Signaled
| CanceledInCell (buildID : string) (generation : Z).

(** [w_next] is the counter of the event stream. *)
Record World {Tx : Type} := { w_db : Tx; w_step : nat; w_next : Z; w_trace : list action }.
Arguments World : clear implicits.

Section Run.
Context `{GoText} `{!NetURL} `{!Codec Request} `{!Codec RunRecord} `{!Codec Event} `{!Codec Checkpoint}
  `{!Codec Assignment.Payload} `{!Codec Assignment.Envelope} `{!Codec Result} `{!Ed25519} `{!PublicKeys}.
Context `{!Codec (string * string)} `{!Codec (gmap string string)}.
Context {Tx : Type} `{!BoltTx Tx} `{!BoltCursor Tx} (maxRuns maxEventsRun : Z).
Context (env : Env) (options : Options).

Abbreviation M := (program (World Tx)).

(** One call to the surroundings; others may have used the database before it. *)
Definition advance (w : World Tx) : World Tx :=
  {| w_db := (run_calls maxRuns maxEventsRun (w_db w) (e_other env (w_step w))).1; w_step := S (w_step w); w_next := w_next w; w_trace := w_trace w |}.

Definition ask {A} (f : nat → A) : M A := state (fun w => (advance w, f (w_step w))).

Definition on_db {A} (f : BrokerRefinement.Env → Tx → Tx * A) : M A :=
  state (fun w =>
    let w' := advance w in
    let '(db, a) := f (e_store env (w_step w)) (w_db w') in
    ({| w_db := db; w_step := w_step w'; w_next := w_next w'; w_trace := w_trace w' |}, a)).

Definition record (a : action) : M unit :=
  modify (fun w => {| w_db := w_db w; w_step := w_step w; w_next := w_next w; w_trace := w_trace w ++ [a] |}).

Definition clock : M Time := ask (e_clock env).

Definition LoadCheckpoint (buildID : string) (generation : Z) : M (result (option Checkpoint)) :=
  on_db (fun e tx => (tx, Load (env_ctx e 0%nat) buildID generation tx)).

Definition SaveCheckpoint (checkpoint : Checkpoint) : M (result unit) :=
  on_db (fun e tx => Save (env_ctx e 0%nat) (env_commit e) checkpoint tx).

(** ** The event stream *)

(** The callback [emit] of [Run]. *)
Context (emit : Event → M (result unit)).

(** [stream.next++] *)
Definition next_sequence : M Z :=
  state (fun w => let n := u64 (w_next w + 1) in ({| w_db := w_db w; w_step := w_step w; w_next := n; w_trace := w_trace w |}, n)).

Definition validated (event : Event) : M (result unit) :=
  match Event_Validate event with
  | Err e => mret (Err e)
  | Ok _ => _ ← record (Emitted event); emit event
  end.

Definition stream_event (request : Request) (sequence : Z) (stage kind message occurredAt : string) (terminal : option Result) : Event :=
  {| ev_Version := CurrentEventVersion; ev_BuildID := rq_BuildID request; ev_Generation := rq_Generation request; ev_Sequence := sequence; ev_Attempt := 1;
     ev_Stage := stage; ev_Kind := kind; ev_Output := ""; ev_Vertex := ""; ev_Name := ""; ev_Current := 0; ev_Total := 0; ev_Cached := false; ev_Stream := 0;
     ev_Line := ""; ev_Code := ""; ev_Message := message; ev_OccurredAt := occurredAt; ev_Terminal := terminal |}.

Definition send (request : Request) (stage kind message : string) : M (result unit) :=
  sequence ← next_sequence; now ← clock;
  validated (stream_event request sequence stage kind message (FormatRFC3339Nano now) None).

Definition terminal (request : Request) (final : Result) : M (result unit) :=
  sequence ← next_sequence; now ← clock;
  validated (stream_event request sequence (re_State final) "terminal" "Build reached a terminal result" (FormatRFC3339Nano now) (Some final)).

Definition relay_event (request : Request) (sequence : Z) (cell : CellEvent) (occurredAt : string) : Event :=
  let kind := match cv_Result cell with Some _ => "cell_terminal" | None => cv_Kind cell end in
  {| ev_Version := CurrentEventVersion; ev_BuildID := rq_BuildID request; ev_Generation := rq_Generation request; ev_Sequence := sequence;
     ev_Attempt := Z.max (cv_Attempt cell) 1; ev_Stage := if is_stage (cv_Phase cell) then cv_Phase cell else "building";
     ev_Kind := if is_event_kind kind then kind else "progress"; ev_Output := boundedText (cv_Output cell) 512;
     ev_Vertex := boundedText (cv_Vertex cell) 512; ev_Name := boundedText (cv_Name cell) 512; ev_Current := cv_Current cell; ev_Total := cv_Total cell;
     ev_Cached := cv_Cached cell; ev_Stream := cv_Stream cell; ev_Line := boundedText (cv_Line cell) MaxEventLineBytes;
     ev_Code := boundedText (cv_Code cell) 128; ev_Message := boundedText (cv_Message cell) MaxEventMessageBytes; ev_OccurredAt := occurredAt;
     ev_Terminal := None |}.

Definition relay (request : Request) (cell : CellEvent) : M (result unit) :=
  sequence ← next_sequence;
  occurredAt ← match ParseRFC3339Nano (cv_OccurredAt cell) with
               | Some _ => mret (cv_OccurredAt cell)
               | None => now ← clock; mret (FormatRFC3339Nano now)
               end;
  validated (relay_event request sequence cell occurredAt).

(** ** The dispatcher *)

Definition terminalCellPhase (value : string) : bool :=
  String.eqb value "complete" || String.eqb value "failed" || String.eqb value "canceled" || String.eqb value "quarantined".

(** [recover]: the answers are asked for until one settles the assignment or the
    context is done. *)
Fixpoint recover (polls : list poll) : result (option CellResult) :=
  match polls with
  | [] => bad "context done"
  | PollResult reply :: rest => if terminalCellPhase (ce_Phase reply) then Ok (Some reply) else recover rest
  | PollLost :: _ => bad "BuildCell lost the submitted assignment"
  | _ :: rest => recover rest
  end.

Fixpoint receive (request : Request) (dispatch : Dispatch) (events : list (option CellEvent)) (last : option CellResult) : M (result (option CellResult)) :=
  match events with
  | [] =>
      match last with
      | Some reply => mret (Ok (Some reply))
      | None => mret (recover (d_polls dispatch))
      end
  | None :: _ => mret (bad "BuildCell stream emitted an absent event")
  | Some event :: rest =>
      let last := match cv_Result event with Some reply => Some reply | None => last end in
      try (relay request event) (fun _ => receive request dispatch rest last)
  end.

(** [dispatcher.Execute(ctx, envelope, stream.relay)] *)
Definition Execute (request : Request) (envelope : Assignment.Envelope) : M (result (option CellResult)) :=
  match Assignment.EncodeEnvelope envelope with
  | Err e => mret (Err e)
  | Ok _ =>
      dispatch ← ask (fun n => e_dispatch env n envelope);
      _ ← record (Dispatched envelope);
      if d_opened dispatch then receive request dispatch (d_events dispatch) None else mret (recover (d_polls dispatch))
  end.

(** The end of both paths of [Run]: the cell, its result, the terminal event. *)
Definition execute_and_finish (request : Request) (started : Time) (partial : Result) (envelope : Assignment.Envelope) : M (result Result) :=
  try (Execute request envelope) (fun reply =>
  try (mret (mapCellResult request started partial reply)) (fun final =>
  try (terminal request final) (fun _ => mret (Ok final)))).

(** ** Immutable content *)

Definition put (request : Request) (suffix mediaType contents : string) : M (result StoredObject) :=
  if (len contents =? 0) || (MaxStoredObjectBytes <? len contents) then mret (bad "immutable build object is absent or oversized")
  else
    let digest := bytesDigest contents in
    match objectName request suffix digest with
    | None => mret panic
    | Some name =>
        _ ← record (Stored name contents);
        try (ask (fun n => e_put env n name mediaType contents)) (fun object =>
          if negb (String.eqb (so_Digest object) digest) || negb (so_Size object =? len contents) || negb (HasPrefix (so_Reference object) "s3://")
          then mret (bad "immutable content store returned a changed object identity")
          else mret (Ok object))
    end.

Definition sign (payload : Assignment.Payload) : M (result (Assignment.Envelope * string)) :=
  match marshal payload with
  | None => mret (bad "canonicalize build assignment")
  | Some canonical =>
      _ ← record (Signed payload);
      try (ask (fun n => e_sign env n canonical)) (fun material =>
        match VerifySignature (m_PublicKeyPEM material) canonical (m_Signature material) with
        | None => mret (bad "assignment signing authority returned an untrusted identity")
        | Some publicDigest =>
            if negb (String.eqb (m_KeyID material) (o_AssignmentKeyID options)) || (m_KeyVersion material <? 1) ||
               negb (String.eqb (m_Algorithm material) SignatureAlgorithm) || negb (String.eqb publicDigest (o_AssignmentKey options))
            then mret (bad "assignment signing authority returned an untrusted identity")
            else mret (Ok ({| Assignment.e_KeyID := m_KeyID material; Assignment.e_Payload := payload;
                              Assignment.e_Signature := b64_encode (m_Signature material) |}, bytesDigest canonical))
        end)
  end.

Definition finishFailure (request : Request) (started : Time) (state code message : string) (partial : Result) : M (result Result) :=
  finished ← clock;
  let final := failure_result partial request started finished state code message in
  try (mret (Result_Validate final)) (fun _ =>
  try (terminal request final) (fun _ => mret (Ok final))).

(** The struct of [acceptedManifestBytes], as its build file and program digest. *)
Definition acceptedManifestBytes (request : Request) (detection : DetectionResult) (contents : string) : result string :=
  if String.eqb (c_Mode (rq_Configuration request)) "repository" then
    match marshal (c_BuildFile (rq_Configuration request), bytesDigest contents) with
    | Some manifest => Ok manifest
    | None => bad "canonical JSON"
    end
  else match CanonicalJSON.Decode (dr_GeneratedManifest detection) with
  | None => bad "decode generated manifest"
  | Some (manifest, _) => CanonicalJSON.Normalize (CanonicalJSON.emit manifest)
  end.

Definition outputConfig (output : OutputDefinition) : result string :=
  if String.eqb (od_Kind output) "oci_image" then Ok (od_ImageConfig output)
  else if String.eqb (od_Kind output) "static_bundle" then
    match marshal (od_StaticHeaders output) with Some headers => Ok headers | None => bad "canonical JSON" end
  else bad "compiled output kind is unsupported".

(** The loop over the compiled outputs. *)
Fixpoint put_outputs (request : Request) (lock : DefinitionLock) (outputs : list OutputDefinition) : M (result (list Assignment.OutputArtifact)) :=
  match outputs with
  | [] => mret (Ok [])
  | output :: rest =>
      try (put request ("outputs/" +:+ od_Name output +:+ "/llb.pb") "application/vnd.buildkit.llb+protobuf" (od_Definition output)) (fun definitionObject =>
      try (mret (outputConfig output)) (fun configBytes =>
      try (put request ("outputs/" +:+ od_Name output +:+ "/config.json") "application/vnd.oci.image.config.v1+json" configBytes) (fun configObject =>
        match lockedOutput lock (od_Name output) with
        | None => mret (bad "compiled output changed while entering immutable content storage")
        | Some locked =>
            if negb (String.eqb (so_Digest definitionObject) (od_LLBDigest output)) || negb (String.eqb (so_Digest configObject) (ol_ConfigDigest locked))
            then mret (bad "compiled output changed while entering immutable content storage")
            else
              try (put_outputs request lock rest) (fun others =>
                mret (Ok ({| Assignment.oa_Name := od_Name output; Assignment.oa_Kind := od_Kind output; Assignment.oa_LLBDigest := od_LLBDigest output;
                             Assignment.oa_Head := od_Head output; Assignment.oa_LLBRef := so_Reference definitionObject;
                             Assignment.oa_ConfigDigest := so_Digest configObject; Assignment.oa_ConfigRef := so_Reference configObject |} :: others)))
        end)))
  end.

(** The window of an assignment: issued at the start, expiring after the TTL or at the
    deadline. *)
Definition assignment_window (request : Request) (started : Time) : Time * Time :=
  let issuedAt := TruncateSecond started in
  let expiresAt := Prelude.Add issuedAt (o_AssignmentTTL options) in
  let deadline := default 0 (ParseRFC3339Nano (rq_Deadline request)) in
  (issuedAt, if Before deadline expiresAt then TruncateSecond deadline else expiresAt).

Definition assignment_payload (request : Request) (nonce : string) (issuedAt expiresAt : Time) (compilation : Compilation)
    (source : Assignment.SourceArtifact) (outputs : list Assignment.OutputArtifact) : Assignment.Payload :=
  {| Assignment.p_Version := Assignment.CurrentAssignmentVersion; Assignment.p_BuildID := rq_BuildID request; Assignment.p_CellID := o_CellID options;
     Assignment.p_OrganizationID := rq_OrganizationID request; Assignment.p_ProjectID := rq_ProjectID request;
     Assignment.p_OperationID := rq_OperationID request; Assignment.p_Generation := rq_Generation request; Assignment.p_Nonce := nonce;
     Assignment.p_IssuedAt := FormatRFC3339 issuedAt; Assignment.p_ExpiresAt := FormatRFC3339 expiresAt;
     Assignment.p_DefinitionDigest := co_DefinitionDigest compilation; Assignment.p_Lock := co_Lock compilation; Assignment.p_Source := source;
     Assignment.p_Outputs := outputs |}.

Definition signed_checkpoint (checkpoint : Checkpoint) (partial : Result) (envelope : Assignment.Envelope) (updated : Time) : Checkpoint :=
  {| cp_Version := cp_Version checkpoint; cp_BuildID := cp_BuildID checkpoint; cp_Generation := cp_Generation checkpoint;
     cp_RequestDigest := cp_RequestDigest checkpoint; cp_StartedAt := cp_StartedAt checkpoint; cp_Partial := partial; cp_Envelope := envelope;
     cp_UpdatedAt := FormatRFC3339Nano updated |}.

(** ** Run *)

(** From the compiled configuration to the signed and saved assignment, then the
    cell. *)
Definition assign (request : Request) (started : Time) (checkpoint : Checkpoint) (partial : Result) (compilation : Compilation) : M (result Result) :=
  try (send request "assigning" "progress" "Preparing signed isolated BuildCell assignment") (fun _ =>
  match objectName request "source/archive.tar.gz" (s_ArchiveDigest (rq_Source request)) with
  | None => mret panic
  | Some name =>
      try (ask (fun n => e_mirror env n (rq_Source request) name)) (fun cellSource =>
      if negb (String.eqb (Assignment.sa_SnapshotDigest cellSource) (s_SnapshotDigest (rq_Source request))) ||
         negb (String.eqb (Assignment.sa_ArchiveDigest cellSource) (s_ArchiveDigest (rq_Source request))) ||
         negb (Assignment.sa_SizeBytes cellSource =? s_SizeBytes (rq_Source request))
      then mret (bad "mirrored source identity changed")
      else
        try (put_outputs request (co_Lock compilation) (co_Outputs compilation)) (fun outputs =>
        nonce ← ask (e_nonce env);
        match nonce with
        | None => mret (bad "generate build assignment nonce")
        | Some nonce =>
            if negb (is_nonce nonce) then mret (bad "generate build assignment nonce")
            else
              let '(issuedAt, expiresAt) := assignment_window request started in
              if negb (After expiresAt issuedAt) then mret (bad "build assignment deadline is outside the accepted window")
              else
                try (sign (assignment_payload request nonce issuedAt expiresAt compilation cellSource outputs)) (fun signature =>
                let partial := with_assignment partial signature.2 in
                updated ← clock;
                try (SaveCheckpoint (signed_checkpoint checkpoint partial signature.1 updated)) (fun _ =>
                try (send request "assigned" "progress" "Signed BuildCell assignment accepted for dispatch") (fun _ =>
                execute_and_finish request started partial signature.1)))
        end))
  end).

(** Detection and compilation. *)
Definition prepare (request : Request) (started : Time) (checkpoint : Checkpoint) : M (result Result) :=
  try (send request "materializing" "progress" "Materializing immutable source snapshot") (fun _ =>
  materialized ← ask (fun n => e_materialize env n (rq_Source request));
  match materialized with
  | Err _ =>
      ended ← ask (e_ctx env);
      match ended with
      | Some _ => finishFailure request started "canceled" "build_canceled" "Build was canceled during source materialization" zero_result
      | None => finishFailure request started "failed" "source_archive_invalid" "Source snapshot could not be materialized" zero_result
      end
  | Ok _ =>
      try (send request "detecting" "progress" "Detecting service configuration") (fun _ =>
      detected ← ask (fun n => e_detect env n (s_SnapshotID (rq_Source request)) (s_SelectedRoot (rq_Source request)));
      match detected with
      | Err e =>
          ended ← ask (e_ctx env);
          match ended with
          | Some _ => finishFailure request started "canceled" "build_canceled" "Build was canceled during detection" zero_result
          | None => mret (Err e)
          end
      | Ok (detection, detectionBytes) =>
          try (put request "detector/result.json" "application/vnd.lrail.detector.v2+json" detectionBytes) (fun detectionObject =>
          let partial := with_detection zero_result (so_Digest detectionObject) (so_Reference detectionObject) (serviceResults detection []) in
          let configuration := rq_Configuration request in
          if String.eqb (c_Mode configuration) "auto" && (negb (c_AcceptDetected configuration) || dr_Blocked detection)
          then finishFailure request started "waiting" "detect_confirmation_required" "Detected configuration requires explicit confirmation" partial
          else
            try (send request "compiling" "progress" "Compiling accepted configuration into policy-locked BuildKit LLB") (fun _ =>
            compiled ← ask (fun n => e_compile env n request detection);
            match compiled with
            | inr err =>
                ended ← ask (e_ctx env);
                match ended with
                | Some _ => finishFailure request started "canceled" "build_canceled" "Build was canceled during compilation" partial
                | None =>
                    match compilationFailure err with
                    | Some (code, message) => finishFailure request started "failed" code message partial
                    | None => mret (bad "compile")
                    end
                end
            | inl compilation =>
                try (mret (acceptedManifestBytes request detection (co_Program compilation))) (fun manifestBytes =>
                try (put request "configuration/manifest.json" "application/vnd.lrail.manifest.v1+json" manifestBytes) (fun manifestObject =>
                try (put request "configuration/Lrailfile.star" "text/x-starlark" (co_Program compilation)) (fun programObject =>
                try (put request "build/build-ir.json" "application/vnd.lrail.build-ir.v2+json" (co_IRBytes compilation)) (fun irObject =>
                try (put request "build/definition-lock.json" "application/vnd.lrail.definition-lock.v2+json" (co_LockBytes compilation)) (fun lockObject =>
                assign request started checkpoint
                  (with_compilation partial manifestObject programObject irObject lockObject (co_DefinitionDigest compilation)
                     (serviceResults detection (co_Outputs compilation)))
                  compilation)))))
            end))
      end)
  end).

Definition validateCheckpoint (checkpoint : Checkpoint) (request : Request) : result unit :=
  let payload := Assignment.e_Payload (cp_Envelope checkpoint) in
  if negb (cp_Version checkpoint =? 1) || negb (String.eqb (cp_BuildID checkpoint) (rq_BuildID request)) ||
     negb (cp_Generation checkpoint =? rq_Generation request) || negb (String.eqb (Assignment.p_BuildID payload) (rq_BuildID request)) ||
     negb (Assignment.p_Generation payload =? rq_Generation request) ||
     negb (String.eqb (Assignment.p_OrganizationID payload) (rq_OrganizationID request)) ||
     negb (String.eqb (Assignment.p_ProjectID payload) (rq_ProjectID request)) ||
     negb (String.eqb (Assignment.p_OperationID payload) (rq_OperationID request)) ||
     negb (String.eqb (Assignment.sa_SnapshotDigest (Assignment.p_Source payload)) (s_SnapshotDigest (rq_Source request))) ||
     String.eqb (re_AssignmentDigest (cp_Partial checkpoint)) "" ||
     negb (String.eqb (re_AssignmentDigest (cp_Partial checkpoint)) (digestCanonicalPayload payload))
  then bad "build checkpoint is inconsistent with its immutable request" else Ok tt.

Definition new_checkpoint (request : Request) (requestDigest : string) (started : Time) : Checkpoint :=
  {| cp_Version := 1; cp_BuildID := rq_BuildID request; cp_Generation := rq_Generation request; cp_RequestDigest := requestDigest;
     cp_StartedAt := FormatRFC3339Nano started; cp_Partial := zero_result; cp_Envelope := zero_envelope; cp_UpdatedAt := FormatRFC3339Nano started |}.

(** The start of a run: the clock's, or that of the checkpoint of the same request. *)
Definition start_time (requestDigest : string) (found : option Checkpoint) (now : Time) : result Time :=
  match found with
  | None => Ok now
  | Some checkpoint =>
      if negb (String.eqb (cp_RequestDigest checkpoint) requestDigest) then bad "build generation was already bound to another request"
      else match ParseRFC3339Nano (cp_StartedAt checkpoint) with
      | Some started => Ok started
      | None => bad "build checkpoint start time is invalid"
      end
  end.

(** Behind the checkpoint: the assignment it holds, or a new one. *)
Definition resume_or_prepare (request : Request) (started : Time) (checkpoint : Checkpoint) : M (result Result) :=
  if signed checkpoint then
    try (mret (validateCheckpoint checkpoint request)) (fun _ =>
    try (send request "resuming" "progress" "Recovering the exact signed BuildCell assignment") (fun _ =>
    execute_and_finish request started (cp_Partial checkpoint) (cp_Envelope checkpoint)))
  else
    made ← ask (e_mkdir env);
    if negb made then mret (bad "create build orchestration scratch")
    else
      _ ← record MadeWorkspace;
      outcome ← prepare request started checkpoint;
      _ ← record RemovedWorkspace;
      mret outcome.

Definition start_stream : M unit :=
  modify (fun w => {| w_db := w_db w; w_step := w_step w; w_next := 0; w_trace := w_trace w |}).

Definition Run (request : Request) : M (result Result) :=
  match marshal request with
  | None => mret (bad "canonicalize build orchestration request")
  | Some requestBytes =>
      let requestDigest := bytesDigest requestBytes in
      try (LoadCheckpoint (rq_BuildID request) (rq_Generation request)) (fun found =>
      now ← clock;
      try (mret (start_time requestDigest found now)) (fun started =>
      try (mret (Request_Validate request started)) (fun _ =>
      _ ← start_stream;
      try (send request "accepted" "accepted" "Build request accepted") (fun _ =>
      match found with
      | Some checkpoint => resume_or_prepare request started checkpoint
      | None =>
          let checkpoint := new_checkpoint request requestDigest started in
          try (SaveCheckpoint checkpoint) (fun _ => resume_or_prepare request started checkpoint)
      end))))
  end.

(** ** Cancel *)

(** [None] of [e_cancel] is a call that failed. *)
Definition Cancel (buildID : string) (generation : Z) (reason : string) : M (result bool) :=
  if negb (has_prefix buildID "bld") || (generation =? 0) || String.eqb reason "" || (512 <? len reason)
  then mret (bad "build cancellation request is invalid")
  else
    accepted ← ask (e_cancel env);
    match accepted with
    | Some true => _ ← record (CanceledInCell buildID generation); mret (Ok true)
    | Some false => mret (Ok false)
    | None => mret (bad "cancel BuildCell assignment")
    end.

End Run.

End Orchestrator.
