(* ===== verification/OrchestratorLaws.v ===== *)
(** * Laws of the build orchestrator

    A run hands the cell only the assignment that the store holds for its generation,
    and a result it returns is valid and, when complete, that of the assignment it
    dispatched. *)

From S2P Require Import Prelude StateMonad Text GoStd GoTime GoURL Crypto PlatformID Storage CanonicalJSON BuildIR LLBPolicy Assignment BuildWorker RunStore BuildRequest BrokerStore BrokerKeys BrokerSpec BrokerRefinement BrokerHistory Orchestrator.
From stdpp Require Import pretty.
Import StateMonad GoStd GoTime GoURL Crypto PlatformID Storage LLBPolicy BuildRequest BrokerStore BrokerKeys BrokerSpec BrokerRefinement BrokerHistory Orchestrator.

Open Scope Z_scope.

Module OrchestratorLaws.

Section Laws.
Context `{GoText} `{!NetURL} `{!Codec Request} `{!Codec RunRecord} `{!Codec Event} `{!Codec Checkpoint}
  `{!Codec Assignment.Payload} `{!Codec Assignment.Envelope} `{!Codec Result} `{!Ed25519} `{!PublicKeys}.
Context `{!Codec (string * string)} `{!Codec (gmap string string)}.
Context {Tx : Type} `{!BoltTx Tx} `{BC : !BoltCursor Tx} (maxRuns maxEventsRun : Z) (Hlimit : maxEventsRun ≤ 10000000).
Context (env : Orchestrator.Env) (options : Options).

Abbreviation M := (program (World Tx)).

(** ** What happens to the database *)

(** The database represents a store of the specification that satisfies [P]. *)
Definition db (P : broker → Prop) (tx : Tx) : Prop := ∃ st, represents tx st ∧ wf maxEventsRun st ∧ P st.

Definition stable (P : broker → Prop) : Prop := ∀ st st', extends st st' → P st → P st'.

(** The database moves as the store's operations do. *)
Definition later (tx tx' : Tx) : Prop :=
  ∀ st, represents tx st → wf maxEventsRun st → ∃ st', represents tx' st' ∧ wf maxEventsRun st' ∧ extends st st'.

#[export] Instance later_preorder : PreOrder later.
Proof.
  split; [intros tx st Hr Hw; by exists st|]. intros t1 t2 t3 H12 H23 st Hr Hw.
  destruct (H12 st Hr Hw) as (s2 & Hr2 & Hw2 & E2). destruct (H23 s2 Hr2 Hw2) as (s3 & Hr3 & Hw3 & E3). exists s3. split_and!; [done..|by etransitivity].
Qed.

Lemma db_later P tx tx' : stable P → later tx tx' → db P tx → db P tx'.
Proof. intros Hs Hl (st & Hr & Hw & HP). destruct (Hl st Hr Hw) as (st' & Hr' & Hw' & E). exists st'. split_and!; [done..|by eapply Hs]. Qed.

Lemma exec_later e tx o : well_typed o → later tx (exec maxRuns maxEventsRun e tx o).1.
Proof using BC Hlimit.
  intros Ht st Hr Hw. by apply exec_moves.
Qed.

Lemma run_calls_later tx calls : Forall (fun call => well_typed call.2) calls → later tx (run_calls maxRuns maxEventsRun tx calls).1.
Proof using BC Hlimit.
  intros Hc. revert tx. induction Hc as [|[e o] calls Ho Hc IH]; intros tx; [reflexivity|]. cbn [run_calls].
  pose proof (exec_later e tx o Ho) as Hl. destruct (exec maxRuns maxEventsRun e tx o) as [tx1 outcome]. specialize (IH tx1).
  destruct (run_calls maxRuns maxEventsRun tx1 calls) as [tx2 log]. cbn in *. by etransitivity.
Qed.

(** ** Steps that dispatch nothing *)

(** What others do to the database are operations of the store. *)
Context (Hothers : ∀ n, Forall (fun call => well_typed call.2) (e_other env n)).

Definition not_dispatch (a : action) : Prop := ∀ e, a ≠ Dispatched e.

Definition quiet (w w' : World Tx) : Prop :=
  later (w_db w) (w_db w') ∧ ∃ l, w_trace w' = w_trace w ++ l ∧ Forall not_dispatch l.

#[export] Instance quiet_preorder : PreOrder quiet.
Proof.
  split; [intros w; split; [reflexivity|]; exists []; by rewrite app_nil_r|].
  intros w1 w2 w3 (L12 & l & E12 & F12) (L23 & l' & E23 & F23). split; [by etransitivity|]. exists (l ++ l').
  rewrite E23, E12, app_assoc. split; [done|]. by apply Forall_app.
Qed.

(** A step of the program that is quiet. *)
Abbreviation silent := (preserves quiet).

Lemma silent_ret {A} (a : A) : silent (mret a).
Proof. apply preserves_ret, _. Qed.

Lemma silent_bind {A B} (m : M A) (k : A → M B) : silent m → (∀ a, silent (k a)) → silent (m ≫= k).
Proof. apply preserves_bind, _. Qed.

Lemma silent_try {A B} (m : M (result A)) (k : A → M (result B)) : silent m → (∀ a, silent (k a)) → silent (try m k).
Proof. intros Hm Hk. unfold try. apply silent_bind; [done|]. intros [a|e]; [apply Hk|apply silent_ret]. Qed.

Lemma advance_later w : later (w_db w) (w_db (advance maxRuns maxEventsRun env w)).
Proof using BC Hlimit Hothers. apply run_calls_later, Hothers. Qed.

Lemma silent_ask {A} (f : nat → A) : silent (ask maxRuns maxEventsRun env f).
Proof using BC Hlimit Hothers. intros w. split; [apply advance_later|]. exists []. by rewrite app_nil_r. Qed.

Lemma silent_on_db {A} (f : BrokerRefinement.Env → Tx → Tx * A) : (∀ e tx, later tx (f e tx).1) → silent (on_db maxRuns maxEventsRun env f).
Proof using BC Hlimit Hothers.
  intros Hf w. unfold on_db, state. pose proof (advance_later w) as Ha. specialize (Hf (e_store env (w_step w)) (w_db (advance maxRuns maxEventsRun env w))).
  destruct (f _ _) as [tx a]. split; cbn in *; [by etransitivity|]. exists []. by rewrite app_nil_r.
Qed.

Lemma silent_record a : not_dispatch a → silent (record a).
Proof. intros Ha w. split; [reflexivity|]. exists [a]. split; [done|]. by constructor. Qed.

Lemma silent_modify f : (∀ w, w_db (f w) = w_db w ∧ w_trace (f w) = w_trace w) → silent (modify f).
Proof. intros Hf w. destruct (Hf w) as [Hd Ht]. split; cbn; [by rewrite Hd|]. exists []. by rewrite app_nil_r. Qed.

Lemma silent_next : silent next_sequence.
Proof. intros w. split; [reflexivity|]. exists []. by rewrite app_nil_r. Qed.

Lemma silent_load b g : silent (LoadCheckpoint maxRuns maxEventsRun env b g).
Proof using BC Hlimit Hothers. apply silent_on_db. reflexivity. Qed.

Lemma silent_save c : is_u64 (cp_Generation c) → silent (SaveCheckpoint maxRuns maxEventsRun env c).
Proof using BC Hlimit Hothers.
  intros Hg. apply silent_on_db. intros e tx. pose proof (exec_later e tx (OpSave c) Hg) as Hl. cbn [exec] in Hl.
  by destruct (Save (env_ctx e 0%nat) (env_commit e) c tx).
Qed.

(** The run has its result. *)
Definition has_result (t : Result) (st : broker) : Prop := ∃ r, runs st !! (re_BuildID t, re_Generation t) = Some r ∧ Terminal r = true ∧ br_Result r = Some t.

Lemma has_result_stable t : stable (has_result t).
Proof. intros st st' E (r & Hr & Ht & Hres). destruct (ext_runs _ _ E _ _ Hr) as (r' & Hr' & X). rewrite (ext_final _ _ X Ht) in Hr'. by exists r. Qed.

(** The callback stores events; it dispatches nothing. *)
Context (emit : Event → M (result unit)) (Hemit : ∀ event, is_u64 (ev_Generation event) → silent (emit event)).
Context (Hstores : ∀ event t w, is_u64 (ev_Generation event) → ev_Terminal event = Some t → db (fun _ => True) (w_db w) →
  wp (emit event) (fun r w' => is_ok r = true → db (has_result t) (w_db w')) w).
Context (request : Request) (Hgeneration : is_u64 (rq_Generation request)).

(** Case every match of a program, and follow its calls. *)
Ltac silence :=
  repeat match goal with
    | |- preserves _ (mret _) => apply silent_ret
    | |- preserves _ (ask _ _ _ _) => apply silent_ask
    | |- preserves _ next_sequence => apply silent_next
    | |- preserves _ (LoadCheckpoint _ _ _ _ _) => apply silent_load
    | |- preserves _ (emit _) => apply Hemit; done
    | |- preserves _ (record _) => apply silent_record; intros ?; discriminate
    | |- preserves _ (try _ _) => apply silent_try; [|intros ?]
    | |- preserves _ (mbind _ _) => apply silent_bind; [|intros ?]
    | |- preserves _ (match ?x with _ => _ end) => destruct x
    | |- preserves _ (if ?x then _ else _) => destruct x
    end.

Lemma silent_validated event : is_u64 (ev_Generation event) → silent (validated emit event).
Proof using Hemit BC Hlimit Hothers Hgeneration. intros Hu. unfold validated. silence. Qed.

Lemma silent_send stage kind message : silent (send maxRuns maxEventsRun env emit request stage kind message).
Proof using Hemit BC Hlimit Hothers Hgeneration. unfold send, clock. silence. by apply silent_validated. Qed.

Lemma silent_terminal final : silent (terminal maxRuns maxEventsRun env emit request final).
Proof using Hemit BC Hlimit Hothers Hgeneration. unfold terminal, clock. silence. by apply silent_validated. Qed.

Lemma silent_relay cell : silent (relay maxRuns maxEventsRun env emit request cell).
Proof using Hemit BC Hlimit Hothers Hgeneration. unfold relay, clock. silence; by apply silent_validated. Qed.

Lemma silent_receive dispatch events last : silent (receive maxRuns maxEventsRun env emit request dispatch events last).
Proof using Hemit BC Hlimit Hothers Hgeneration.
  revert last. induction events as [|[event|] events IH]; intros last; cbn [receive]; [by silence|apply silent_try; [apply silent_relay|intros; apply IH]|by silence].
Qed.

Lemma silent_put suffix mediaType contents : silent (put maxRuns maxEventsRun env request suffix mediaType contents).
Proof using BC Hlimit Hothers Hemit Hgeneration. unfold put. silence. Qed.

Lemma silent_sign payload : silent (sign maxRuns maxEventsRun env options payload).
Proof using BC Hlimit Hothers Hemit Hgeneration. unfold sign. silence. Qed.

Lemma silent_put_outputs lock outputs : silent (put_outputs maxRuns maxEventsRun env request lock outputs).
Proof using BC Hlimit Hothers Hemit Hgeneration.
  induction outputs as [|output outputs IH]; cbn [put_outputs]; silence; try apply silent_put. apply IH.
Qed.

Lemma silent_finishFailure started st code message partial : silent (finishFailure maxRuns maxEventsRun env emit request started st code message partial).
Proof using BC Hlimit Hothers Hemit Hgeneration. unfold finishFailure, clock. silence. apply silent_terminal. Qed.

(** ** Dispatched assignments *)

(** encoding/json never writes an empty text. *)
Context (Hjson : ∀ (e : Assignment.Envelope) c, marshal e = Some c → c ≠ "").

(** The store holds the assignment for the run. *)
Definition assigned (id : string * Z) (e : Assignment.Envelope) (st : broker) : Prop :=
  encodable e → ∃ c, checkpoints st !! id = Some c ∧ signed c = true ∧ cp_Envelope c = e.

Lemma assigned_stable id e : stable (assigned id e).
Proof.
  intros st st' E Ha He. destruct (Ha He) as (c & Hc & Hs & <-). destruct (ext_checkpoints _ _ E _ _ Hc) as (c' & Hc' & Hx).
  destruct (Hx Hs He) as [Ee _]. exists c'. split_and!; [done|unfold signed; by rewrite Ee|done].
Qed.

(** What the surroundings know of the store. *)
Context (F : broker → Prop) (HF : stable F).

(** What was dispatched since the trace had [n] entries is in the store, and [P]. *)
Definition inv (id : string * Z) (n : nat) (P : broker → Prop) (w : World Tx) : Prop :=
  (n ≤ length (w_trace w))%nat ∧
  db (fun st => F st ∧ (∀ e, Dispatched e ∈ drop n (w_trace w) → encodable e ∧ assigned id e st) ∧ P st) (w_db w).

Lemma inv_moves id n P w w' : stable P → quiet w w' → inv id n P w → inv id n P w'.
Proof using HF.
  intros HP (Hl & l & Et & Hn) (Hlen & st & Hr & Hw & Hf & Hd & HPst). destruct (Hl st Hr Hw) as (st' & Hr' & Hw' & E). split.
  - rewrite Et, length_app. lia.
  - exists st'. split_and!; [done..|by eapply HF| |by eapply HP]. intros e. rewrite Et, drop_app_le by done. intros [Hin|Hin]%elem_of_app.
    + destruct (Hd e Hin) as [He Ha]. split; [done|]. by eapply assigned_stable.
    + rewrite Forall_forall in Hn. by destruct (Hn _ Hin e).
Qed.

Lemma inv_weaken id n (P Q : broker → Prop) w : (∀ st, P st → Q st) → inv id n P w → inv id n Q w.
Proof. intros HPQ (Hlen & st & Hr & Hw & Hf & Hd & HPst). split; [done|]. exists st. eauto 7. Qed.

Lemma wp_moves {A} id n P (m : M A) w : stable P → silent m → inv id n P w → wp m (fun _ w' => inv id n P w') w.
Proof using HF. intros HP Hm Hi. unfold wp. eapply inv_moves; [done|apply Hm|done]. Qed.

Lemma wp_try_moves {A B} id n P (m : M (result A)) (k : A → M (result B)) Q w :
  stable P → silent m → inv id n P w → (∀ w', inv id n P w' → ∀ e, Q (Err e) w') → (∀ a w', inv id n P w' → wp (k a) Q w') → wp (try m k) Q w.
Proof using HF.
  intros HP Hm Hi He Hk. apply wp_try. eapply wp_mono; [by eapply wp_moves|]. intros [a|e] w' Hi'; [by apply Hk|by apply He].
Qed.

Lemma stable_true : stable (fun _ => True).
Proof. done. Qed.

Lemma encoded envelope contents : Assignment.EncodeEnvelope envelope = Ok contents → encodable envelope.
Proof using Hjson.
  unfold Assignment.EncodeEnvelope, encodable, canonicalOrNil. destruct (marshal envelope) as [c|] eqn:Hm; [|done]. intros _. by apply Hjson in Hm.
Qed.

Abbreviation Execute := (Execute maxRuns maxEventsRun env emit).
Abbreviation execute_and_finish := (execute_and_finish maxRuns maxEventsRun env emit).

(** [a] is among the actions since the trace had [n] entries. *)
Definition did (n : nat) (a : action) (w : World Tx) : Prop := (n ≤ length (w_trace w))%nat ∧ a ∈ drop n (w_trace w).

Lemma did_quiet n a w w' : quiet w w' → did n a w → did n a w'.
Proof.
  intros (_ & l & Et & _) [Hlen Hin]. rewrite <- (take_drop n (w_trace w)) in Et. split.
  - rewrite Et, !length_app, length_take. lia.
  - rewrite take_drop in Et. rewrite Et, drop_app_le by done. apply elem_of_app. by left.
Qed.

(** What a run promises of the result it returns. *)
Record sound (n : nat) (final : Result) (w : World Tx) : Prop := {
  sound_valid : Result_Validate final = Ok tt;
  sound_identity : re_BuildID final = rq_BuildID request ∧ re_Generation final = rq_Generation request;
  sound_stored : db (has_result final) (w_db w);
  sound_reported : ∃ event, did n (Emitted event) w ∧ ev_Terminal event = Some final;
  sound_dispatched : re_State final = "complete" →
    ∃ e, did n (Dispatched e) w ∧ digestCanonicalPayload (Assignment.e_Payload e) = re_AssignmentDigest final;
}.

Lemma sound_quiet n final w w' : quiet w w' → sound n final w → sound n final w'.
Proof.
  intros Hq [Hv Hid Hst (event & He & Ht) Hd]. split; [done..| | |].
  - eapply db_later; [apply has_result_stable|apply Hq|done].
  - exists event. split; [by eapply did_quiet|done].
  - intros Hs. destruct (Hd Hs) as (e & Hin & Hg). exists e. split; [by eapply did_quiet|done].
Qed.

Definition outcome (n : nat) (r : result Result) (w : World Tx) : Prop :=
  inv (rq_BuildID request, rq_Generation request) n (fun _ => True) w ∧ match r with Ok final => sound n final w | Err _ => True end.

Lemma wp_Execute id n e w :
  inv id n (assigned id e) w → wp (Execute request e) (fun r w' => inv id n (fun _ => True) w' ∧ (is_ok r = true → did n (Dispatched e) w')) w.
Proof using BC Hlimit Hothers HF Hemit Hgeneration Hjson.
  intros Hi. unfold Orchestrator.Execute. destruct (Assignment.EncodeEnvelope e) as [contents|err] eqn:Henc.
  2: { apply wp_ret. split; [by eapply inv_weaken; [|exact Hi]|done]. }
  apply encoded in Henc. apply wp_bind. eapply wp_mono; [apply (wp_moves id n (assigned id e)); [apply assigned_stable|apply silent_ask|exact Hi]|].
  intros dispatch w1 (Hlen & st & Hr & Hw & Hf & Hd & Ha). apply wp_bind. apply wp_modify.
  set (w2 := {| w_db := w_db w1; w_step := w_step w1; w_next := w_next w1; w_trace := w_trace w1 ++ [Dispatched e] |}).
  assert (inv id n (fun _ => True) w2 ∧ did n (Dispatched e) w2) as Hi2.
  { unfold inv, did, w2. cbn [w_trace w_db]. rewrite length_app, drop_app_le by done. split_and!; [lia| |lia|apply elem_of_app; right; by left].
    exists st. split_and!; [done..| |done]. intros e' [Hin|[= ->]%list_elem_of_singleton]%elem_of_app; [by apply Hd|done]. }
  assert (∀ m : M (result (option CellResult)), silent m → wp m (fun r w' => inv id n (fun _ => True) w' ∧ (is_ok r = true → did n (Dispatched e) w')) w2) as Hm.
  { intros m Hm. unfold wp. split; [by eapply inv_moves; [| |apply Hi2]|]. intros _. by eapply did_quiet; [|apply Hi2]. }
  destruct (d_opened dispatch); apply Hm; [apply silent_receive|apply silent_ret].
Qed.

(** The terminal event, then the result. *)
Lemma wp_report n final w :
  inv (rq_BuildID request, rq_Generation request) n (fun _ => True) w → Result_Validate final = Ok tt →
  re_BuildID final = rq_BuildID request → re_Generation final = rq_Generation request →
  (re_State final = "complete" → ∃ e, did n (Dispatched e) w ∧ digestCanonicalPayload (Assignment.e_Payload e) = re_AssignmentDigest final) →
  wp (try (terminal maxRuns maxEventsRun env emit request final) (fun _ => mret (Ok final))) (outcome n) w.
Proof using BC Hlimit Hothers HF Hemit Hstores Hgeneration.
  intros Hi Hv Hb Hg Hd. apply wp_try. unfold terminal. apply wp_bind. eapply wp_preserves; [apply silent_next|]. intros sequence w1 Q1.
  apply wp_bind. eapply wp_preserves; [apply silent_ask|]. intros now w2 Q2. assert (quiet w w2) as Q by (by etransitivity). clear w1 Q1 Q2.
  pose proof (inv_moves _ _ _ _ _ stable_true Q Hi) as Hi2. unfold validated. destruct (Event_Validate _); [|by apply wp_ret].
  set (event := stream_event _ _ _ _ _ _ _). apply wp_bind, wp_modify. set (w3 := {| w_db := _ |}).
  assert (quiet w2 w3) as Q3 by (apply (silent_record (Emitted event)); intros ?; discriminate).
  assert (db (fun _ => True) (w_db w3)) as Hdb by (destruct Hi2 as (_ & st & Hr & Hw & _); by exists st).
  pose proof (Hemit event Hgeneration w3) as Q4. pose proof (Hstores event final w3 Hgeneration eq_refl Hdb) as Hst. unfold wp in *.
  destruct (emit event w3) as [w4 [u|err]]; cbn [fst snd] in *; (assert (quiet w2 w4) as Q5 by (by etransitivity)).
  2: { split; [by eapply inv_moves; [| |exact Hi2]|done]. }
  split; [by eapply inv_moves; [| |exact Hi2]|]. split; [done|done|by apply Hst| |].
  - exists event. split; [|done]. eapply did_quiet; [exact Q4|]. destruct Hi2 as [Hlen _]. unfold did, w3. cbn [w_trace].
    rewrite length_app, drop_app_le by done. split; [lia|]. apply elem_of_app. right. by left.
  - intros Hs. destruct (Hd Hs) as (e & Hin & He). exists e. split; [|done]. eapply did_quiet; [|exact Hin]. by etransitivity.
Qed.

(** What [mapCellResult] accepts. *)
Lemma mapCellResult_ok started partial reply final :
  mapCellResult request started partial reply = Ok final →
  Result_Validate final = Ok tt ∧ re_BuildID final = rq_BuildID request ∧ re_Generation final = rq_Generation request ∧
  re_AssignmentDigest final = re_AssignmentDigest partial.
Proof.
  unfold mapCellResult. destruct reply as [cell|]; [|done]. destruct (_ || _); [done|]. destruct (cell_state _) as [st|]; [|done].
  destruct (map_outputs _) as [outputs|]; [|done]. cbn [bind_result]. set (f := terminal_result _ _ _ _ _ _ _ _ _ _ _ _ _).
  destruct (Result_Validate f) as [[]|] eqn:Hv; [|done]. intros [= <-]. done.
Qed.

Lemma wp_execute_and_finish n started partial e w :
  let id := (rq_BuildID request, rq_Generation request) in
  inv id n (assigned id e) w → re_AssignmentDigest partial = digestCanonicalPayload (Assignment.e_Payload e) →
  wp (execute_and_finish request started partial e) (outcome n) w.
Proof using BC Hlimit Hothers HF Hemit Hstores Hgeneration Hjson.
  intros id Hi Hp. unfold Orchestrator.execute_and_finish. apply wp_try. eapply wp_mono; [by apply (wp_Execute id)|]. intros [reply|err] w1 [Hi1 Hd]; [|done].
  apply wp_try, wp_ret. destruct (mapCellResult _ _ _ _) as [final|err] eqn:Hm; [|done]. apply mapCellResult_ok in Hm as (Hv & Hb & Hg & Ha).
  apply wp_report; [done..|]. intros _. exists e. split; [by apply Hd|congruence].
Qed.

Lemma wp_finishFailure n started st code message partial w :
  inv (rq_BuildID request, rq_Generation request) n (fun _ => True) w → st ≠ "complete" →
  wp (finishFailure maxRuns maxEventsRun env emit request started st code message partial) (outcome n) w.
Proof using BC Hlimit Hothers HF Hemit Hstores Hgeneration.
  intros Hi Hst. unfold finishFailure. apply wp_bind. eapply wp_mono; [apply wp_moves; [apply stable_true|apply silent_ask|exact Hi]|]. intros finished w1 Hi1.
  apply wp_try, wp_ret. destruct (Result_Validate _) as [[]|] eqn:Hv; [|done]. by apply wp_report.
Qed.

(** ** Checkpoints *)

Lemma wp_save id n c w :
  id = (cp_BuildID c, cp_Generation c) → is_u64 (cp_Generation c) → inv id n (fun _ => True) w →
  wp (SaveCheckpoint maxRuns maxEventsRun env c)
    (fun r w' => inv id n (fun st => is_ok r = true → signed c = true → assigned id (cp_Envelope c) st) w') w.
Proof using BC Hlimit Hothers HF.
  intros -> Hg Hi. pose proof (silent_save c Hg w) as Hq. unfold wp. pose proof (inv_moves _ n _ w _ stable_true Hq Hi) as Hi'.
  destruct (SaveCheckpoint maxRuns maxEventsRun env c w) as [w' [u|err]] eqn:Hsave; cbn [fst snd] in *; [|by eapply inv_weaken; [|exact Hi']].
  unfold SaveCheckpoint, on_db, state in Hsave. set (w1 := advance maxRuns maxEventsRun env w) in *.
  assert (quiet w w1) as Hq1 by (split; [apply advance_later|exists []; by rewrite app_nil_r]).
  destruct (inv_moves _ n _ w _ stable_true Hq1 Hi) as (Hlen & st & Hr & Hw & Hf & Hd & _).
  pose proof (exec_refines maxRuns maxEventsRun Hlimit (e_store env (w_step w)) (w_db w1) st (OpSave c) Hw Hr Hg) as Href.
  cbn [exec] in Href. destruct (Save (env_ctx (e_store env (w_step w)) 0%nat) (env_commit (e_store env (w_step w))) c (w_db w1)) as [tx [[]|e]]; [|by injection Hsave].
  injection Hsave as <-. cbn [answer_of fst snd refines] in Href. destruct Href as (st' & Hspec & Hr'). split; [done|]. exists st'.
  pose proof (spec_extends _ _ _ _ _ _ Hspec) as E. split_and!; [done|exact (spec_wf _ _ st (OpSave c) _ _ Hw Hg Hspec)|by eapply HF|..].
  - intros e Hin. destruct (Hd e Hin) as [He Ha]. split; [done|]. by eapply assigned_stable.
  - intros _ Hs _. exists c. split_and!; [|done..]. apply spec_effect in Hspec. inversion Hspec; subst; [apply lookup_insert_eq|done].
Qed.

(** The checkpoint a run finds is the store's. *)
Lemma wp_load b g n w :
  is_u64 g → inv (b, g) n (fun _ => True) w →
  wp (LoadCheckpoint maxRuns maxEventsRun env b g)
    (fun r w' => (is_ok r = true → run_id b g) ∧
       inv (b, g) n (fun st => ∀ c, r = Ok (Some c) → signed c = true → assigned (b, g) (cp_Envelope c) st) w' ∧
       ∀ c, r = Ok (Some c) → cp_BuildID c = b ∧ cp_Generation c = g) w.
Proof using BC Hlimit Hothers HF.
  intros Hu Hi. apply wp_state. set (w1 := advance maxRuns maxEventsRun env w) in *. cbn [fst snd].
  assert (is_ok (Load (env_ctx (e_store env (w_step w)) 0%nat) b g (w_db w1)) = true → run_id b g) as Hid.
  { unfold Load, validateBrokerIdentity. destruct (has_prefix b "bld") eqn:Hb; [|done]. destruct (Z.eqb_spec g 0); [done|]. done. }
  split; [exact Hid|]. assert (quiet w w1) as Hq1 by (split; [apply advance_later|exists []; by rewrite app_nil_r]).
  destruct (inv_moves _ n _ w _ stable_true Hq1 Hi) as (Hlen & st & Hr & Hw & Hf & Hd & _).
  assert (∀ c, Load (env_ctx (e_store env (w_step w)) 0%nat) b g (w_db w1) = Ok (Some c) → checkpoints st !! (b, g) = Some c) as Hload.
  { intros c Hc. pose proof (Load_represents _ _ _ _ Hr (Hid ltac:(by rewrite Hc))) as Hl.
    unfold Load in *. destruct (validateBrokerIdentity b g); [|done]. cbn [bind_result] in *. destruct (env_ctx _ _); [done|].
    cbn [in_context] in *. rewrite Hl in Hc. by injection Hc. }
  split; [split; [done|]|].
  - exists st. split_and!; [done..|]. intros c Hc Hs He. exists c. split_and!; [by apply Hload|done..].
  - intros c Hc. by destruct (wf_checkpoints _ _ Hw _ _ _ (Hload c Hc)) as (_ & _ & ? & ? & _).
Qed.

(** ** Runs *)

(** Pass one call that dispatches nothing. *)
Ltac pass Hi :=
  match goal with
  | |- wp (try _ _) _ _ => apply wp_try
  | |- wp (mbind _ _) _ _ => apply wp_bind
  end;
  eapply wp_mono; [apply wp_moves; [apply stable_true| |exact Hi]; first [apply silent_send | apply silent_put | apply silent_sign | apply silent_put_outputs | unfold clock; silence]|];
  clear Hi; intros ? ? Hi.

Lemma wp_sign n payload w :
  let id := (rq_BuildID request, rq_Generation request) in
  inv id n (fun _ => True) w →
  wp (sign maxRuns maxEventsRun env options payload)
    (fun r w' => inv id n (fun _ => True) w' ∧ ∀ e digest, r = Ok (e, digest) → Assignment.e_Payload e = payload ∧ digest = digestCanonicalPayload payload) w.
Proof using BC Hlimit Hothers HF Hemit Hstores Hgeneration.
  intros id Hi. unfold sign, digestCanonicalPayload. destruct (marshal payload) as [canonical|]; [|by apply wp_ret]. pass Hi. pass Hi.
  destruct a0 as [material|]; [|done]. destruct (VerifySignature _ _ _) as [digest|]; [|by apply wp_ret]. destruct (_ || _); [by apply wp_ret|].
  apply wp_ret. split; [done|]. by intros e d [= <- <-].
Qed.

Lemma wp_assign n started checkpoint partial compilation w :
  let id := (rq_BuildID request, rq_Generation request) in
  cp_BuildID checkpoint = rq_BuildID request → cp_Generation checkpoint = rq_Generation request → run_id (rq_BuildID request) (rq_Generation request) →
  inv id n (fun _ => True) w →
  wp (assign maxRuns maxEventsRun env options emit request started checkpoint partial compilation) (outcome n) w.
Proof using BC Hlimit Hothers HF Hemit Hstores Hgeneration Hjson.
  intros id Hcb Hcg (Hb & Hg & Hu) Hi. unfold assign. pass Hi. destruct a as [u|]; [|done]. destruct (objectName _ _ _) as [name|]; [|by apply wp_ret].
  pass Hi. destruct a as [source|]; [|done]. destruct (_ || _); [by apply wp_ret|]. pass Hi. destruct a as [outputs|]; [|done]. pass Hi.
  destruct a as [nonce|]; [|by apply wp_ret]. destruct (negb (is_nonce _)); [by apply wp_ret|].
  destruct (assignment_window options request started) as [issuedAt expiresAt]. destruct (negb _); [by apply wp_ret|].
  apply wp_try. eapply wp_mono; [by apply wp_sign|]. clear Hi. intros [[e digest]|err] w4 [Hi He]; [|done].
  destruct (He e digest eq_refl) as [Hp ->]. cbn [fst snd]. pass Hi. apply wp_try.
  set (saved := signed_checkpoint checkpoint _ _ _). eapply wp_mono; [apply (wp_save id n saved); [unfold id; cbn; congruence|cbn; congruence|exact Hi]|].
  intros [u'|err] w6 Hi6; [|by split; [eapply inv_weaken; [|exact Hi6]|]].
  assert (signed saved = true) as Hs.
  { unfold signed. cbn. rewrite Hp. cbn. destruct (String.eqb_spec (rq_BuildID request) "") as [E|]; [|done]. by rewrite E in Hb. }
  apply (inv_weaken _ _ _ (assigned id e)) in Hi6; [|auto]. apply wp_try.
  eapply wp_mono; [apply wp_moves; [apply (assigned_stable id e)|apply silent_send|exact Hi6]|]. intros [u''|err] w7 Hi7; [|by split; [eapply inv_weaken; [|exact Hi7]|]].
  apply wp_execute_and_finish; [done|]. cbn. by rewrite Hp.
Qed.

Lemma wp_prepare n started checkpoint w :
  let id := (rq_BuildID request, rq_Generation request) in
  cp_BuildID checkpoint = rq_BuildID request → cp_Generation checkpoint = rq_Generation request → run_id (rq_BuildID request) (rq_Generation request) →
  inv id n (fun _ => True) w →
  wp (prepare maxRuns maxEventsRun env options emit request started checkpoint) (outcome n) w.
Proof using BC Hlimit Hothers HF Hemit Hstores Hgeneration Hjson.
  intros id Hcb Hcg Hid Hi. unfold prepare. pass Hi. destruct a as [u|]; [|done]. pass Hi. destruct a as [u'|].
  2: { pass Hi. by destruct a; apply wp_finishFailure. }
  pass Hi. destruct a as [u''|]; [|done]. pass Hi. destruct a as [[detection detectionBytes]|err].
  2: { pass Hi. destruct a; [by apply wp_finishFailure|by apply wp_ret]. }
  pass Hi. destruct a as [detectionObject|]; [|done]. cbv zeta. destruct (_ && _); [by apply wp_finishFailure|]. pass Hi. destruct a as [u3|]; [|done].
  pass Hi. destruct a as [compilation|err].
  2: { pass Hi. destruct a; [by apply wp_finishFailure|]. destruct (compilationFailure err) as [[code message]|]; [by apply wp_finishFailure|by apply wp_ret]. }
  pass Hi. destruct a as [manifestBytes|]; [|done]. do 4 (pass Hi; destruct a as [?object|]; [|done]). by apply wp_assign.
Qed.

Lemma validateCheckpoint_digest checkpoint u :
  validateCheckpoint checkpoint request = Ok u → re_AssignmentDigest (cp_Partial checkpoint) = digestCanonicalPayload (Assignment.e_Payload (cp_Envelope checkpoint)).
Proof.
  unfold validateCheckpoint. destruct (_ || negb (String.eqb (re_AssignmentDigest _) _)) eqn:E; [done|]. intros _. bsimpl. tauto.
Qed.

Lemma wp_resume_or_prepare n started checkpoint w :
  let id := (rq_BuildID request, rq_Generation request) in
  cp_BuildID checkpoint = rq_BuildID request → cp_Generation checkpoint = rq_Generation request → run_id (rq_BuildID request) (rq_Generation request) →
  inv id n (fun st => signed checkpoint = true → assigned id (cp_Envelope checkpoint) st) w →
  wp (resume_or_prepare maxRuns maxEventsRun env options emit request started checkpoint) (outcome n) w.
Proof using BC Hlimit Hothers HF Hemit Hstores Hgeneration Hjson.
  intros id Hcb Hcg Hid Hi. pose proof (inv_weaken _ _ _ (fun _ => True) _ ltac:(done) Hi) as Ht. unfold resume_or_prepare. destruct (signed checkpoint).
  - apply wp_try, wp_ret. destruct (validateCheckpoint checkpoint request) as [u|] eqn:Hv; [|done]. apply validateCheckpoint_digest in Hv.
    apply (inv_weaken _ _ _ (assigned id (cp_Envelope checkpoint))) in Hi; [|auto]. apply wp_try.
    eapply wp_mono; [apply wp_moves; [apply (assigned_stable id)|apply silent_send|exact Hi]|]. intros [u'|err] w1 Hi1; [|by split; [eapply inv_weaken; [|exact Hi1]|]].
    by apply wp_execute_and_finish.
  - clear Hi. pass Ht. destruct (negb a); [by apply wp_ret|]. pass Ht. apply wp_bind. eapply wp_mono; [by apply (wp_prepare n)|]. intros r w3 [Hi3 Hs3].
    apply wp_bind, wp_modify, wp_ret. match goal with |- outcome _ _ ?x => set (w4 := x) end.
    assert (quiet w3 w4) as Q by (apply (silent_record RemovedWorkspace); intros ?; discriminate).
    split; [by eapply inv_moves; [| |exact Hi3]|]. destruct r as [final|]; [|done]. by eapply sound_quiet.
Qed.

Lemma wp_run_build n w :
  let id := (rq_BuildID request, rq_Generation request) in
  inv id n (fun _ => True) w →
  wp (Run maxRuns maxEventsRun env options emit request) (outcome n) w.
Proof using BC Hlimit Hothers HF Hemit Hstores Hgeneration Hjson.
  intros id Hi. unfold Run. destruct (marshal request) as [requestBytes|]; [|by apply wp_ret]. cbv zeta. apply wp_try.
  eapply wp_mono; [by apply wp_load|]. intros [found|err] w1 (Hid & Hi1 & Hc); [|by split; [eapply inv_weaken; [|exact Hi1]|]]. specialize (Hid eq_refl).
  set (P := fun st : broker => _) in Hi1. assert (stable P) as HP by (intros st st' E HPst c Hfc Hs; eapply assigned_stable; [exact E|by apply HPst]).
  assert (∀ w', inv id n P w' → inv id n (fun _ => True) w') as Hweak by (intros w' Hw'; by eapply inv_weaken; [|exact Hw']).
  apply wp_bind. eapply wp_mono; [apply wp_moves; [exact HP|apply silent_ask|exact Hi1]|]. clear w1 Hi1 Hi. intros now w1 Hi.
  apply wp_try, wp_ret. destruct (start_time _ _ _) as [started|]; [|by split; [apply Hweak|]].
  apply wp_try, wp_ret. destruct (Request_Validate _ _) as [u|]; [|by split; [apply Hweak|]].
  apply wp_bind, wp_modify, wp_try. eapply wp_mono; [apply wp_moves; [exact HP|apply silent_send|eapply inv_moves; [exact HP| |exact Hi]]|].
  { split; [reflexivity|]. exists []. by rewrite app_nil_r. }
  clear w1 Hi. intros [u'|err] w1 Hi; [|by split; [apply Hweak|]]. destruct found as [checkpoint|].
  - destruct (Hc checkpoint eq_refl). apply wp_resume_or_prepare; [done..|]. eapply inv_weaken; [|exact Hi]. intros st HPst. by apply HPst.
  - apply wp_try. eapply wp_mono; [apply (wp_save id n); [done|done|by apply Hweak]|]. intros [u''|err] w2 Hi2.
    + apply wp_resume_or_prepare; [done..|]. eapply inv_weaken; [|exact Hi2]. intros st HPst. by apply HPst.
    + by split; [eapply inv_weaken; [|exact Hi2]|].
Qed.

End Laws.

End OrchestratorLaws.
