(* ===== verification/Broker.v ===== *)
(** * The build broker (build-plane/internal/buildorchestrator/broker.go)

    The broker keeps runs going: [Submit] claims a run and starts it, [execute] hands
    it to the runner until it is terminal, with retries, [Cancel] stops it, [Resume]
    takes up the runs a previous process left, [Watch] waits for events.

    Each goroutine of the source is one program; a [go] statement adds the goroutine
    to [m_spawned].  The database is the one of BrokerStore.v and may be changed by
    others between any two calls, as may the map of active runs ([b_active]) between
    two holders of the lock.  Contexts, timers and tickers are answers of the
    surroundings. *)

From S2P Require Import Prelude StateMonad Text GoStd GoTime GoURL Crypto PlatformID Storage CanonicalJSON Assignment BuildWorker BuildRequest BrokerStore BrokerSpec BrokerRefinement BrokerHistory Orchestrator.
Import StateMonad GoStd GoTime GoURL Crypto PlatformID Storage BuildRequest BrokerStore BrokerSpec BrokerRefinement BrokerHistory Orchestrator.

Open Scope Z_scope.

Module Broker.

Definition DefaultBrokerAttempts : Z := 5.
Definition DefaultRetryBase : Duration := 250 * Millisecond.
Definition DefaultWatchLimit : Z := 250.
Definition MaxWatchDuration : Duration := 30 * Second.

Record BrokerOptions := { MaxAttempts : Z; RetryBase : Duration }.

(** [NewBroker]; [complete] says that the store and the runner are given. *)
Definition NewBroker (complete : bool) (options : BrokerOptions) : result BrokerOptions :=
  if negb complete then bad "build broker dependencies are incomplete"
  else
    let attempts := if MaxAttempts options =? 0 then DefaultBrokerAttempts else MaxAttempts options in
    let base := if RetryBase options =? 0 then DefaultRetryBase else RetryBase options in
    if (attempts <? 1) || (10 <? attempts) || (base <? 10 * Millisecond) || (10 * Second <? base)
    then bad "build broker retry policy is invalid"
    else Ok {| MaxAttempts := attempts; RetryBase := base |}.

(** [retryBase << min(attempt-1, 5)], a time.Duration of 64 bits. *)
Definition retryDelay (options : BrokerOptions) (attempt : Z) : Duration :=
  Z.min (i64 (RetryBase options * Z.shiftl 1 (Z.min (attempt - 1) 5))) (30 * Second).

(** The goroutines [go] starts. *)
Inductive task :=
| TExecute (record : RunRecord) (deadline : Time)
| TRetryCancellation (record : RunRecord) (reason : string) (prior : bool)
| TReconcile (record : RunRecord) (reason : string).

(** [m_active] maps the key of an active run to whether its context is canceled;
    [m_crashed] says that a panic ended the process. *)
Record memory := { m_active : gmap string bool; m_spawned : list task; m_stopped : bool; m_crashed : bool }.

Record State {Tx : Type} := { s_world : World Tx; s_memory : memory }.
Arguments State : clear implicits.

(** What the goroutine's surroundings answer: [b_root] whether the broker is being
    closed, [b_active] what other goroutines made of the active runs. *)
Record Surroundings := {
  b_root : nat → bool;
  b_active : nat → gmap string bool → gmap string bool;
}.

(** The interface [Runner]. *)
Record Runner {W : Type} := {
  r_Run : Request → (Event → program W (result unit)) → program W (result Result);
  r_Cancel : string → Z → string → program W (result bool);
}.
Arguments Runner : clear implicits.

(** The runtime error of a nil dereference or of an explicit panic. *)
Definition panicked {A} (r : result A) : bool :=
  match r with Err (Error sentinel _) => String.eqb sentinel "panic" | Ok _ => false end.

(** The zero RunRecord of a run that is absent. *)
Definition zero_record : RunRecord :=
  {| br_Version := 0;
     br_Request :=
       {| rq_Version := 0; rq_BuildID := ""; rq_OrganizationID := ""; rq_ProjectID := ""; rq_DeploymentID := ""; rq_OperationID := ""; rq_Generation := 0;
          rq_Source := {| s_SnapshotID := ""; s_SnapshotDigest := ""; s_ManifestDigest := ""; s_ArchiveDigest := ""; s_ArchiveRef := ""; s_SizeBytes := 0;
                          s_SelectedRoot := "" |};
          rq_Configuration := {| c_Mode := ""; c_BuildFile := ""; c_AcceptDetected := false |}; rq_TargetPlatform := ""; rq_Deadline := "" |};
     br_RequestDigest := ""; br_State := ""; br_Stage := ""; br_Attempt := 0; br_LastSequence := 0; br_Dispatched := false; br_Result := None;
     br_CreatedAt := ""; br_UpdatedAt := "" |}.

Section Broker.
Context `{GoText} `{!NetURL} `{!Codec Request} `{!Codec RunRecord} `{!Codec Event} `{!Codec Checkpoint}
  `{!Codec Assignment.Payload} `{!Codec Assignment.Envelope} `{!Codec Result}.
Context {Tx : Type} `{!BoltTx Tx} `{!BoltCursor Tx} (maxRuns maxEventsRun : Z).
Context (env : Env) (around : Surroundings) (runner : Runner (World Tx)) (options : BrokerOptions).

Abbreviation M := (program (State Tx)).

Definition on_world {A} (m : program (World Tx) A) : M A :=
  fun s => let '(w, a) := m (s_world s) in ({| s_world := w; s_memory := s_memory s |}, a).

Definition call {A} (f : nat → A) : M A := on_world (ask maxRuns maxEventsRun env f).

Definition now : M Time := call (e_clock env).

(** A critical section of [broker.mu]. *)
Definition locked {A} (f : memory → memory * A) : M A :=
  _ ← call (fun _ => tt);
  state (fun s =>
    let m := s_memory s in
    let seen := {| m_active := b_active around (w_step (s_world s)) (m_active m); m_spawned := m_spawned m;
                   m_stopped := m_stopped m; m_crashed := m_crashed m |} in
    let '(m', a) := f seen in ({| s_world := s_world s; s_memory := m' |}, a)).

Definition go (t : task) (m : memory) : memory :=
  {| m_active := m_active m; m_spawned := m_spawned m ++ [t]; m_stopped := m_stopped m; m_crashed := m_crashed m |}.

Definition spawn (t : task) : M unit := modify (fun s => {| s_world := s_world s; s_memory := go t (s_memory s) |}).

Definition with_active (active : gmap string bool) (m : memory) : memory :=
  {| m_active := active; m_spawned := m_spawned m; m_stopped := m_stopped m; m_crashed := m_crashed m |}.

(** The channel of the watchers is closed and replaced. *)
Definition signal_world : program (World Tx) unit := record Signaled.

Definition signal : M unit := on_world signal_world.

Definition cancelActive (buildID : string) (generation : Z) : M bool :=
  locked (fun m =>
    let key := brokerRunKey buildID generation in
    match m_active m !! key with
    | None => (m, false)
    | Some _ => (with_active (<[key := true]> (m_active m)) m, true)
    end).

(** ** Calls of the store *)

(** With [context.Background()]. *)
Definition lookup (buildID : string) (generation : Z) : M (result (option RunRecord)) :=
  on_world (on_db maxRuns maxEventsRun env (fun e tx => (tx, Lookup None buildID generation tx))).

Definition set_state (buildID : string) (generation : Z) (state : string) (now : Time) : M (result RunRecord) :=
  on_world (on_db maxRuns maxEventsRun env (fun e tx => SetState None (env_commit e) buildID generation state now tx)).

Definition append_world (event : Event) (now : Time) : program (World Tx) (result (Event * RunRecord)) :=
  on_db maxRuns maxEventsRun env (fun e tx => Append maxEventsRun None (env_commit e) event now tx).

Definition append (event : Event) (now : Time) : M (result (Event * RunRecord)) := on_world (append_world event now).

(** With the caller's context. *)
Definition lookup_ctx (buildID : string) (generation : Z) : M (result (option RunRecord)) :=
  on_world (on_db maxRuns maxEventsRun env (fun e tx => (tx, Lookup (env_ctx e 0%nat) buildID generation tx))).

(** [record, found, _ :=] *)
Definition found {A} (r : result (option A)) : option A := match r with Ok o => o | Err _ => None end.

(** ** Terminal events *)

Definition terminal_event (record : RunRecord) (result : Result) (occurredAt : string) : Event :=
  {| ev_Version := CurrentEventVersion; ev_BuildID := rq_BuildID (br_Request record); ev_Generation := rq_Generation (br_Request record); ev_Sequence := 1;
     ev_Attempt := Z.max (br_Attempt record) 1; ev_Stage := re_State result; ev_Kind := "terminal"; ev_Output := ""; ev_Vertex := ""; ev_Name := "";
     ev_Current := 0; ev_Total := 0; ev_Cached := false; ev_Stream := 0; ev_Line := ""; ev_Code := ""; ev_Message := "Build reached a terminal result";
     ev_OccurredAt := occurredAt; ev_Terminal := Some result |}.

Definition appendTerminal (record : RunRecord) (result : Result) : M (Prelude.result unit) :=
  try (mret (Result_Validate result)) (fun _ =>
  occurred ← now; at_ ← now;
  try (append (terminal_event record result (FormatRFC3339Nano occurred)) at_) (fun _ =>
  _ ← signal; mret (Ok tt))).

Definition synthetic_result (record : RunRecord) (state code message cleanup : string) (finished : Time) : Result :=
  let request := br_Request record in
  {| re_Version := CurrentResultVersion; re_BuildID := rq_BuildID request; re_Generation := rq_Generation request; re_State := state;
     re_SourceSnapshotID := s_SnapshotID (rq_Source request); re_SourceDigest := s_SnapshotDigest (rq_Source request); re_DetectionDigest := "";
     re_ManifestDigest := ""; re_BuildIRDigest := ""; re_DefinitionDigest := ""; re_AssignmentDigest := ""; re_LogsDigest := ""; re_Outputs := [];
     re_Services := []; re_FailureCode := code; re_FailureMessage := message;
     re_StartedAt := FormatRFC3339Nano (default 0 (ParseRFC3339Nano (br_CreatedAt record))); re_FinishedAt := FormatRFC3339Nano finished;
     re_WorkerIdentity := ""; re_Cleanup := {| cr_Status := cleanup; cr_ResidueCount := 0; cr_QuarantineReason := "" |}; re_CacheHits := 0;
     re_CacheMisses := 0; re_DetectorResultRef := ""; re_ManifestRef := ""; re_GeneratedBuildRef := ""; re_BuildIRRef := ""; re_DefinitionLockRef := "" |}.

Definition appendSyntheticTerminal (record : RunRecord) (state code message cleanup : string) : M (Prelude.result unit) :=
  finished ← now; appendTerminal record (synthetic_result record state code message cleanup finished).

(** ** Executing a run *)

(** The callback given to the runner. *)
Definition emit_world (event : Event) : program (World Tx) (result unit) :=
  at_ ← ask maxRuns maxEventsRun env (e_clock env);
  try (append_world event at_) (fun _ => _ ← signal_world; mret (Ok tt)).

Definition retry_event (request : Request) (attempt : Z) (occurredAt : string) : Event :=
  {| ev_Version := CurrentEventVersion; ev_BuildID := rq_BuildID request; ev_Generation := rq_Generation request; ev_Sequence := 1;
     ev_Attempt := u32 (attempt + 1); ev_Stage := "retrying"; ev_Kind := "retry"; ev_Output := ""; ev_Vertex := ""; ev_Name := ""; ev_Current := 0;
     ev_Total := 0; ev_Cached := false; ev_Stream := 0; ev_Line := ""; ev_Code := "";
     ev_Message := "Retrying build orchestration without changing immutable inputs"; ev_OccurredAt := occurredAt; ev_Terminal := None |}.

Definition canceling (record : RunRecord) : bool := String.eqb (br_State record) "canceling".

(** The end of the loop's body, up to the timer: [None] ends the goroutine. *)
Definition retry (request : Request) (attempt : Z) : M (option unit) :=
  occurred ← now; at_ ← now;
  appended ← append (retry_event request attempt (FormatRFC3339Nano occurred)) at_;
  if is_err appended then mret None
  else
    at_ ← now;
    moved ← set_state (rq_BuildID request) (rq_Generation request) "retrying" at_;
    if is_err moved then mret None
    else _ ← signal; _ ← call (fun _ => tt); mret (Some tt).

(** What follows a run that failed: [None] ends the goroutine, otherwise the loop goes
    on. *)
Definition after_failure (request : Request) (attempt : Z) : M (option unit) :=
  looked ← lookup (rq_BuildID request) (rq_Generation request);
  match found looked with
  | None => mret None
  | Some record =>
      if Terminal record then mret None
      else if canceling record && negb (br_Dispatched record) then
        _ ← appendSyntheticTerminal record "canceled" "build_canceled" "Build was canceled before BuildCell dispatch" "clean"; mret None
      else
        ended ← call (e_ctx env);
        if bool_decide (is_Some ended) || (attempt =? MaxAttempts options) then
          stopped ← call (b_root around);
          if stopped : bool then mret None
          else if canceling record && br_Dispatched record then mret None
          else
            _ ← appendSyntheticTerminal record "failed" "build_orchestration_unavailable" "Build orchestration could not recover before its retry limit" "unknown";
            mret None
        else retry request attempt
  end.

(** Before the runner is called: the run is still to be done, and marked running. *)
Definition before_run (request : Request) : M bool :=
  looked ← lookup (rq_BuildID request) (rq_Generation request);
  match looked with
  | Ok (Some record) =>
      if Terminal record then mret false
      else if canceling record then mret true
      else at_ ← now; moved ← set_state (rq_BuildID request) (rq_Generation request) "running" at_; mret (is_ok moved)
  | _ => mret false
  end.

(** The loop from [attempt], of which [n] are left. *)
Fixpoint attempts (request : Request) (n : nat) (attempt : Z) : M unit :=
  match n with
  | O => mret tt
  | S n' =>
      ready ← before_run request;
      if ready : bool then
        outcome ← on_world (r_Run runner request emit_world);
        if panicked outcome then
          modify (fun s => {| s_world := s_world s;
                              s_memory := {| m_active := m_active (s_memory s); m_spawned := m_spawned (s_memory s);
                                             m_stopped := m_stopped (s_memory s); m_crashed := true |} |})
        else match outcome with
        | Ok result =>
            looked ← lookup (rq_BuildID request) (rq_Generation request);
            match found looked with
            | Some record => if Terminal record then mret tt else _ ← appendTerminal record result; mret tt
            | None => mret tt
            end
        | Err _ =>
            next ← after_failure request attempt;
            match next with None => mret tt | Some _ => attempts request n' (attempt + 1) end
        end
      else mret tt
  end.

(** [execute], with its deferred functions. *)
Definition execute (initial : RunRecord) (key : string) : M unit :=
  _ ← attempts (br_Request initial) (Z.to_nat (MaxAttempts options)) 1;
  crashed ← get (fun s => m_crashed (s_memory s));
  if crashed : bool then mret tt else locked (fun m => (with_active (delete key (m_active m)) m, tt)).

Definition start (record : RunRecord) : M unit :=
  let key := brokerRunKey (rq_BuildID (br_Request record)) (rq_Generation (br_Request record)) in
  checked ← now; extended ← now;
  locked (fun m =>
    if bool_decide (is_Some (m_active m !! key)) || Terminal record then (m, tt)
    else match ParseRFC3339Nano (rq_Deadline (br_Request record)) with
    | None => (m, tt)
    | Some deadline =>
        let deadline :=
          if canceling record && br_Dispatched record && negb (After deadline (Add checked (2 * Minute))) then Add extended (2 * Minute) else deadline in
        (go (TExecute record deadline) (with_active (<[key := false]> (m_active m)) m), tt)
    end).

(** ** Cancellation *)

(** The select after an attempt to cancel: the ticker, the deadline, or the end of the
    broker; [ticks] are the rounds before the deadline of two minutes. *)
Fixpoint retry_cancellation (record : RunRecord) (reason : string) (ticks : nat) : M unit :=
  let request := br_Request record in
  looked ← lookup (rq_BuildID request) (rq_Generation request);
  match found looked with
  | None => mret tt
  | Some current =>
      if Terminal current then mret tt
      else
        accepted ← on_world (r_Cancel runner (rq_BuildID request) (rq_Generation request) reason);
        if match accepted with Ok a => a | Err _ => false end then start current
        else
          stopped ← call (b_root around);
          if stopped : bool then mret tt
          else match ticks with
          | O => _ ← appendSyntheticTerminal current "failed" "build_cancel_unconfirmed" "BuildCell cancellation could not be confirmed" "unknown"; mret tt
          | S ticks' => retry_cancellation record reason ticks'
          end
  end.

(** [prior] says that an earlier goroutine is waited for. *)
Definition retryDispatchedCancellation (record : RunRecord) (reason : string) (prior : bool) (ticks : nat) : M unit :=
  stopped ← (if prior then call (b_root around) else mret false);
  if stopped : bool then mret tt else retry_cancellation record reason ticks.

Definition reconcileLocalCancellation (record : RunRecord) (reason : string) (ticks : nat) : M unit :=
  stopped ← call (b_root around);
  if stopped : bool then mret tt
  else
    looked ← lookup (rq_BuildID (br_Request record)) (rq_Generation (br_Request record));
    match found looked with
    | None => mret tt
    | Some current =>
        if Terminal current then mret tt
        else if br_Dispatched current then retryDispatchedCancellation current reason false ticks
        else _ ← appendSyntheticTerminal current "canceled" "build_canceled" "Build was canceled before BuildCell dispatch" "clean"; mret tt
    end.

Definition Cancel (buildID : string) (generation : Z) (reason : string) : M (result RunRecord) :=
  if String.eqb reason "" || (512 <? len reason) || negb (ValidString reason) || ContainsChar reason nul
  then mret (bad "build cancellation reason is invalid")
  else
    looked ← lookup_ctx buildID generation;
    match looked with
    | Ok (Some record) =>
        if Terminal record then mret (Ok record)
        else
          at_ ← now;
          try (on_world (on_db maxRuns maxEventsRun env (fun e tx => SetState (env_ctx e 0%nat) (env_commit e) buildID generation "canceling" at_ tx)))
            (fun record =>
          _ ← signal;
          if negb (br_Dispatched record) then
            done ← cancelActive buildID generation;
            try (if done : bool then _ ← spawn (TReconcile record reason); mret (Ok tt)
                 else appendSyntheticTerminal record "canceled" "build_canceled" "Build was canceled before BuildCell dispatch" "clean") (fun _ =>
            looked ← lookup_ctx buildID generation;
            match looked with
            | Ok (Some updated) => mret (Ok updated)
            | Ok None => mret (Ok zero_record)
            | Err e => mret (Err e)
            end)
          else
            accepted ← on_world (r_Cancel runner buildID generation reason);
            if match accepted with Ok a => a | Err _ => false end then _ ← start record; mret (Ok record)
            else
              done ← cancelActive buildID generation;
              _ ← spawn (TRetryCancellation record reason done);
              mret (Ok record))
    | _ => mret (bad "build broker run is absent")
    end.

(** ** The rest of the interface *)

Definition Submit (request : Request) : M (result RunRecord) :=
  at_ ← now;
  try (on_world (on_db maxRuns maxEventsRun env (fun e tx => Claim maxRuns (env_ctx e 0%nat) (env_commit e) request at_ tx))) (fun claimed =>
  if Terminal claimed.1 then mret (Ok claimed.1) else _ ← start claimed.1; mret (Ok claimed.1)).

Definition Get (buildID : string) (generation : Z) : M (result (option RunRecord)) := lookup_ctx buildID generation.

Fixpoint resume_each (records : list RunRecord) : M (result unit) :=
  match records with
  | [] => mret (Ok tt)
  | record :: rest =>
      if canceling record && negb (br_Dispatched record) then
        try (appendSyntheticTerminal record "canceled" "build_canceled" "Build cancellation recovered before dispatch" "clean") (fun _ => resume_each rest)
      else
        _ ← start record;
        if canceling record && br_Dispatched record then _ ← spawn (TRetryCancellation record "recovered cancellation" false); resume_each rest
        else resume_each rest
  end.

Definition Resume (limit : Z) : M (result unit) :=
  try (on_world (on_db maxRuns maxEventsRun env (fun e tx => (tx, Nonterminal (env_ctx e) limit tx)))) resume_each.

(** [Close] stops the broker and cancels every active run; the wait for them is not
    part of the state. *)
Definition Close : M unit :=
  locked (fun m => ({| m_active := (fun _ => true) <$> m_active m; m_spawned := m_spawned m; m_stopped := true; m_crashed := m_crashed m |}, tt)).

Definition events_after (buildID : string) (generation after limit : Z) : M (result (list Event)) :=
  on_world (on_db maxRuns maxEventsRun env (fun e tx => (tx, EventsAfter (env_ctx e 0%nat) buildID generation after limit tx))).

(** What ends the wait of a watcher after the notifications it got. *)
Inductive wake := ContextDone (e : error) | Deadline.

(** A round of the loop of [Watch], up to the select. *)
Definition watch_round (buildID : string) (generation after limit : Z) (waits : bool) (select : M (result (list Event * RunRecord)))
    : M (result (list Event * RunRecord)) :=
  try (events_after buildID generation after limit) (fun events =>
  try (lookup_ctx buildID generation) (fun found =>
  match found with
  | None => mret (bad "build broker run is absent")
  | Some record =>
      if negb (length events =? 0)%nat || Terminal record || negb waits then mret (Ok (events, record))
      else
        try (events_after buildID generation after limit) (fun events =>
        if negb (length events =? 0)%nat then mret (Ok (events, record)) else select)
  end)).

(** The loop: [notifications] come before [last]. *)
Fixpoint watch (buildID : string) (generation after limit : Z) (waits : bool) (notifications : nat) (last : wake) : M (result (list Event * RunRecord)) :=
  watch_round buildID generation after limit waits
    match notifications with
    | S n => watch buildID generation after limit waits n last
    | O =>
        match last with
        | ContextDone e => mret (Err e)
        | Deadline => try (lookup_ctx buildID generation) (fun found => mret (Ok ([], default zero_record found)))
        end
    end.

Definition Watch (buildID : string) (generation after limit : Z) (wait : Duration) (notifications : nat) (last : wake) : M (result (list Event * RunRecord)) :=
  let limit := if limit =? 0 then DefaultWatchLimit else limit in
  if (wait <? 0) || (MaxWatchDuration <? wait) then mret (bad "build event watch duration is invalid")
  else watch buildID generation after limit (negb (wait =? 0)) notifications last.

End Broker.

End Broker.
