(* ===== verification/BrokerLaws.v ===== *)
(** * Laws of the build broker

    Against the interface a runner serves and the store's specification: a run that is
    executed while the store answers ends terminal, or canceling, or with a full log;
    a cancellation that was accepted stays; a watcher misses no event. *)

From S2P Require Import Prelude StateMonad Text GoStd GoTime GoURL Crypto PlatformID Storage CanonicalJSON Assignment BuildWorker BuildRequest BrokerStore BrokerKeys BrokerSpec BrokerRefinement BrokerHistory Orchestrator OrchestratorLaws Broker.
Import StateMonad GoStd GoTime GoURL Crypto PlatformID Storage BuildRequest BrokerStore BrokerKeys BrokerSpec BrokerRefinement BrokerHistory Orchestrator OrchestratorLaws Broker.

Open Scope Z_scope.

Module BrokerLaws.

Section Records.
Context `{GoText} `{!NetURL} `{!Codec Request} `{!Codec RunRecord} `{!Codec Event} `{!Codec Checkpoint}
  `{!Codec Assignment.Payload} `{!Codec Assignment.Envelope} `{!Codec Result}.

(** ** What the broker writes is valid *)

(** A run's record apart from its state and result. *)
Record framed (record : RunRecord) (created : Time) : Prop := {
  framed_version : br_Version record = BrokerRecordVersion;
  framed_identity : is_err (validateBrokerIdentity (rq_BuildID (br_Request record)) (rq_Generation (br_Request record))) = false;
  framed_digest : is_digest (br_RequestDigest record) = true;
  framed_created : ParseRFC3339Nano (br_CreatedAt record) = Some created;
  framed_request : Request_Validate (br_Request record) created = Ok tt;
  framed_bytes : ∃ bytes, marshal (br_Request record) = Some bytes ∧ bytesDigest bytes = br_RequestDigest record;
}.

Lemma valid_framed record : RunRecord_Validate record = Ok tt → ∃ created, framed record created.
Proof.
  unfold RunRecord_Validate. destruct (_ || _) eqn:E; [done|]. destruct (ParseRFC3339Nano (br_CreatedAt record)) as [created|] eqn:Hc; [|done].
  destruct (ParseRFC3339Nano (br_UpdatedAt record)); [|done]. destruct (Before _ _ || _) eqn:Ht; [done|].
  destruct (marshal (br_Request record)) as [bytes|] eqn:Hm; [|done]. destruct (negb (String.eqb (bytesDigest bytes) _)) eqn:Hd; [done|].
  intros _. exists created. bsimpl. split; try done.
  - by match goal with Hi : ∃ _, validateBrokerIdentity _ _ = _ |- _ => destruct Hi as [u ->] end.
  - by match goal with Hi : ∃ _, Request_Validate _ _ = _ |- _ => destruct Hi as [[] ->] end.
  - by exists bytes.
Qed.

Lemma framed_valid record created updated :
  framed record created → slices_Contains run_states (br_State record) = true → is_stage (br_Stage record) = true →
  ParseRFC3339Nano (br_UpdatedAt record) = Some updated → created ≤ updated →
  (if Terminal record then ∃ t, br_Result record = Some t ∧ re_State t = br_State record ∧ re_BuildID t = rq_BuildID (br_Request record) ∧
     re_Generation t = rq_Generation (br_Request record) ∧ Result_Validate t = Ok tt else br_Result record = None) →
  RunRecord_Validate record = Ok tt.
Proof.
  intros [Hv Hi Hd Hc Hr (bytes & Hm & Hb)] Hs Hg Hu Ht Hres. unfold RunRecord_Validate.
  rewrite Hv, Hi, Hd, Hs, Hg, Hc, Hu, Hr, Hm, Hb, String.eqb_refl. cbn [negb orb is_err is_ok].
  change (BrokerRecordVersion =? BrokerRecordVersion) with true. cbn [negb orb]. unfold Before. rewrite (proj2 (Z.ltb_ge updated created)) by done. cbn [orb].
  destruct (Terminal record).
  - destruct Hres as (t & -> & -> & -> & -> & ->). by rewrite !String.eqb_refl, Z.eqb_refl.
  - by rewrite Hres.
Qed.

(** Both fields of the record that can change leave the frame. *)
Lemma framed_set_state record created state timestamp : framed record created → framed (BrokerStore.set_state record state timestamp) created.
Proof. by intros []. Qed.

Lemma framed_record_event record created persisted timestamp : framed record created → framed (record_event record persisted timestamp) created.
Proof. by intros []. Qed.

Lemma event_terminal event t :
  Event_Validate event = Ok tt → ev_Terminal event = Some t → re_BuildID t = ev_BuildID event ∧ re_Generation t = ev_Generation event ∧ Result_Validate t = Ok tt.
Proof.
  unfold Event_Validate. intros Hv Ht. rewrite Ht in Hv. repeat (case_match; [done|]). case_match; [|done]. case_match eqn:E; [done|]. bsimpl. done.
Qed.

Lemma event_stage event : Event_Validate event = Ok tt → is_stage (ev_Stage event) = true.
Proof. unfold Event_Validate. destruct (_ || _) eqn:E; [done|]. intros _. bsimpl. done. Qed.

Lemma result_state t : Result_Validate t = Ok tt → slices_Contains result_states (re_State t) = true.
Proof. unfold Result_Validate. destruct (_ || _) eqn:E; [done|]. intros _. bsimpl. done. Qed.

Lemma result_run_state s : slices_Contains result_states s = true → slices_Contains run_states s = true.
Proof. unfold slices_Contains, result_states, run_states. cbn [existsb]. rewrite !orb_true_iff. tauto. Qed.

Lemma with_sequence_valid event n : Event_Validate event = Ok tt → 0 < n → Event_Validate (with_sequence event n) = Ok tt.
Proof.
  unfold Event_Validate. intros Hv Hn. cbn [ev_Version ev_Generation ev_Sequence ev_Attempt ev_Stage ev_Kind ev_Line ev_Message ev_BuildID ev_OccurredAt ev_Terminal with_sequence].
  replace (n =? 0) with (ev_Sequence event =? 0); [exact Hv|]. rewrite (proj2 (Z.eqb_neq n 0)) by lia.
  destruct (ev_Sequence event =? 0); [|done]. by rewrite !orb_true_r in Hv.
Qed.

(** An appended event leaves a valid record. *)
Lemma record_event_valid record created persisted now :
  RunRecord_Validate record = Ok tt → framed record created → Terminal record = false → Event_Validate persisted = Ok tt →
  ev_BuildID persisted = rq_BuildID (br_Request record) → ev_Generation persisted = rq_Generation (br_Request record) →
  in_calendar now → created ≤ now → RunRecord_Validate (record_event record persisted (FormatRFC3339Nano now)) = Ok tt.
Proof.
  intros Hv Hf Ht He Hb Hg Hcal Hnow. pose proof (nonterminal_result _ Hv Ht) as Hnone.
  apply (framed_valid _ created now); [by apply framed_record_event| | |by apply parse_format_nano|done|].
  - cbn. destruct (ev_Terminal persisted) as [t|] eqn:Et; [|by destruct (String.eqb_spec (br_State record) "canceling") as [->|]].
    apply result_run_state, result_state. by eapply event_terminal.
  - by apply event_stage.
  - unfold Terminal. cbn [br_State br_Result br_Request record_event]. destruct (ev_Terminal persisted) as [t|] eqn:Et.
    + destruct (event_terminal _ _ He Et) as (H1 & H2 & H3). rewrite (result_state _ H3). exists t. split_and!; congruence.
    + by destruct (String.eqb_spec (br_State record) "canceling") as [->|].
Qed.

Lemma set_state_valid record created state now :
  RunRecord_Validate record = Ok tt → framed record created → Terminal record = false → slices_Contains ["running"; "retrying"; "canceling"] state = true →
  in_calendar now → created ≤ now → RunRecord_Validate (BrokerStore.set_state record state (FormatRFC3339Nano now)) = Ok tt.
Proof.
  intros Hv Hf Ht Hs Hcal Hnow. pose proof (nonterminal_result _ Hv Ht) as Hnone.
  assert (Terminal (BrokerStore.set_state record state (FormatRFC3339Nano now)) = false ∧ slices_Contains run_states state = true) as [Ht' Hr].
  { unfold Terminal. cbn [br_State BrokerStore.set_state]. unfold slices_Contains in Hs. cbn [existsb] in Hs. rewrite !orb_true_iff in Hs.
    destruct Hs as [Hs|[Hs|[Hs|[=]]]]; apply String.eqb_eq in Hs; by subst. }
  apply (framed_valid _ created now); [by apply framed_set_state|done| |by apply parse_format_nano|done|by rewrite Ht'].
  cbn. unfold RunRecord_Validate in Hv. destruct (_ || _) eqn:E; [done|]. bsimpl. done.
Qed.

Lemma request_source request created :
  Request_Validate request created = Ok tt → has_prefix (s_SnapshotID (rq_Source request)) "snp" = true ∧ is_digest (s_SnapshotDigest (rq_Source request)) = true.
Proof.
  unfold Request_Validate, request_identities. destruct (negb (_ =? CurrentRequestVersion) || _); [discriminate|]. cbn [each fst snd bind_result].
  do 6 (destruct (has_prefix _ _); cbn [bind_result]; [|discriminate]).
  destruct (is_digest (s_SnapshotDigest (rq_Source request))); [done|cbn [negb orb]; discriminate].
Qed.

(** The result the broker makes up for a run. *)
Lemma synthetic_valid record created state code message cleanup finished :
  framed record created → in_calendar created → in_calendar finished → created ≤ finished →
  slices_Contains ["failed"; "canceled"] state = true → is_failure_code code = true → message ≠ "" → len message ≤ MaxEventMessageBytes →
  Result_Validate (synthetic_result record state code message cleanup finished) = Ok tt.
Proof.
  intros [Hv Hi Hd Hc Hr _] Hcal Hfin Hle Hs Hcode Hm Hlen. unfold Result_Validate, synthetic_result.
  cbn [re_Version re_Generation re_State re_BuildID re_SourceSnapshotID re_SourceDigest re_StartedAt re_FinishedAt re_Outputs re_Services].
  rewrite Hc. change (default 0 (Some created)) with created. rewrite (parse_format_nano created Hcal), (parse_format_nano finished Hfin).
  assert (has_prefix (rq_BuildID (br_Request record)) "bld" = true ∧ (rq_Generation (br_Request record) =? 0) = false) as [Hb Hg].
  { unfold validateBrokerIdentity in Hi. destruct (_ || _) eqn:E; [done|]. bsimpl. done. }
  destruct (request_source _ _ Hr) as [Hsnp Hsd]. rewrite Hb, Hg, Hsnp, Hsd. change (CurrentResultVersion =? CurrentResultVersion) with true.
  assert (slices_Contains result_states state = true ∧ String.eqb state "complete" = false) as [Hst Hne].
  { unfold slices_Contains in *. cbn [existsb] in Hs. rewrite !orb_true_iff in Hs. destruct Hs as [Hs|[Hs|[=]]]; apply String.eqb_eq in Hs; by subst. }
  rewrite Hst. cbn [negb orb andb]. unfold Before. rewrite (proj2 (Z.ltb_ge finished created)) by done. unfold check_evidence_of.
  cbn [re_State re_FailureCode re_FailureMessage]. rewrite Hne, Hcode. apply String.eqb_neq in Hm. rewrite Hm, (proj2 (Z.ltb_ge _ _) Hlen). done.
Qed.

End Records.

(** ** The interface of a runner *)

Section Runners.
Context `{GoText} `{!NetURL} `{!Codec Request} `{!Codec RunRecord} `{!Codec Event} `{!Codec Checkpoint}
  `{!Codec Assignment.Payload} `{!Codec Assignment.Envelope} `{!Codec Result}.
Context {Tx : Type} `{!BoltTx Tx} `{BC : !BoltCursor Tx} (maxEventsRun : Z).

(** A runner uses the store only through its operations, a result it returns is valid and
    the request's, and a cancellation it reports as accepted was accepted by the cell. *)
Class Serves (runner : Runner (World Tx)) : Prop := {
  serves_run : ∀ P request emit w, stable P → is_u64 (rq_Generation request) →
    (∀ event, is_u64 (ev_Generation event) → preserves (quiet maxEventsRun) (emit event)) →
    (∀ event t w, is_u64 (ev_Generation event) → ev_Terminal event = Some t → db maxEventsRun (fun _ => True) (w_db w) →
       wp (emit event) (fun r w' => is_ok r = true → db maxEventsRun (has_result t) (w_db w')) w) →
    db maxEventsRun P (w_db w) →
    wp (r_Run runner request emit) (fun r w' => db maxEventsRun P (w_db w') ∧
      match r with
      | Ok final => Result_Validate final = Ok tt ∧ re_BuildID final = rq_BuildID request ∧ re_Generation final = rq_Generation request
      | Err _ => True
      end) w;
  serves_cancel : ∀ P buildID generation reason w, stable P → db maxEventsRun P (w_db w) →
    wp (r_Cancel runner buildID generation reason) (fun _ w' => db maxEventsRun P (w_db w')) w;
  serves_accepted : ∀ buildID generation reason w,
    wp (r_Cancel runner buildID generation reason) (fun r w' => ∃ tr, w_trace w' = w_trace w ++ tr ∧ (r = Ok true → CanceledInCell buildID generation ∈ tr)) w;
}.

Context `{!Ed25519} `{!PublicKeys} `{!Codec (string * string)} `{!Codec (gmap string string)}.
Context (maxRuns : Z) (Hlimit : maxEventsRun ≤ 10000000) (env : Env) (options : Options).

(** The orchestrator as a runner. *)
Definition orchestrator : Runner (World Tx) :=
  {| r_Run := fun request emit => Orchestrator.Run maxRuns maxEventsRun env options emit request;
     r_Cancel := Orchestrator.Cancel maxRuns maxEventsRun env |}.

Lemma inv_initial F id (w : World Tx) : db maxEventsRun F (w_db w) → inv maxEventsRun F id (length (w_trace w)) (fun _ => True) w.
Proof.
  intros (st & Hr & Hw & HF). split; [done|]. exists st. split_and!; [done..| |done]. intros e. rewrite drop_all. by intros ?%elem_of_nil.
Qed.

Lemma orchestrator_serves :
  (∀ n, Forall (fun call => well_typed call.2) (e_other env n)) → (∀ (e : Assignment.Envelope) c, marshal e = Some c → c ≠ "") → Serves orchestrator.
Proof using BC Hlimit.
  intros Hothers Hjson. split.
  - intros P request emit w HP Hu Hemit Hstores Hdb. eapply wp_mono.
    { apply (wp_run_build maxRuns maxEventsRun Hlimit env options Hothers emit Hemit Hstores request Hu Hjson P HP (length (w_trace w))). by apply inv_initial. }
    intros r w' [(_ & st & Hr & Hw & HPst & _) Hs]. split; [by exists st|]. destruct r as [final|]; [|done]. by destruct Hs as [Hv [Hb Hg] _ _ _].
  - intros P b g reason w HP Hdb. unfold orchestrator. cbn [r_Cancel]. unfold Orchestrator.Cancel. destruct (_ || _); [by apply wp_ret|].
    apply wp_bind. eapply wp_preserves; [by apply (silent_ask maxRuns maxEventsRun Hlimit env Hothers)|]. intros a w' [Hl _].
    assert (db maxEventsRun P (w_db w')) by (by eapply db_later). by destruct a as [[]|]; [apply wp_bind|..]; apply wp_ret.
  - intros b g reason w. unfold orchestrator. cbn [r_Cancel]. unfold Orchestrator.Cancel. destruct (_ || _); [apply wp_ret; exists []; by rewrite app_nil_r|].
    apply wp_bind. unfold wp at 1, ask, state. cbn [fst snd]. destruct (e_cancel env (w_step w)) as [[]|].
    + eexists. split; [reflexivity|]. by constructor.
    + exists []. by rewrite app_nil_r.
    + exists []. by rewrite app_nil_r.
Qed.

End Runners.

(** ** Goroutines and the store *)

Section Goroutines.
Context `{GoText} `{!NetURL} `{!Codec Request} `{!Codec RunRecord} `{!Codec Event} `{!Codec Checkpoint}
  `{!Codec Assignment.Payload} `{!Codec Assignment.Envelope} `{!Codec Result}.
Context {Tx : Type} `{!BoltTx Tx} `{BC : !BoltCursor Tx} (maxRuns maxEventsRun : Z) (Hlimit : maxEventsRun ≤ 10000000).
Context (env : Env) (around : Surroundings) (runner : Runner (World Tx)) (options : BrokerOptions).
Context (Hothers : ∀ n, Forall (fun call => well_typed call.2) (e_other env n)).

Abbreviation M := (program (State Tx)).

(** The database represents a store that satisfies [P]. *)
Definition knows (P : broker → Prop) (s : State Tx) : Prop := db maxEventsRun P (w_db (s_world s)).

Lemma knows_weaken (P Q : broker → Prop) s : (∀ st, wf maxEventsRun st → P st → Q st) → knows P s → knows Q s.
Proof. intros HPQ (st & Hr & Hw & HP). exists st. eauto. Qed.

Lemma knows_later P s s' : stable P → later maxEventsRun (w_db (s_world s)) (w_db (s_world s')) → knows P s → knows P s'.
Proof. intros HP Hl. by apply db_later. Qed.

(** A program of the world that moves the store as its operations do. *)
Lemma wp_world {A} P (m : program (World Tx) A) s :
  stable P → preserves (quiet maxEventsRun) m → knows P s → wp (on_world m) (fun _ s' => knows P s' ∧ s_memory s' = s_memory s) s.
Proof.
  intros HP Hm Hk. unfold wp, on_world. destruct (Hm (s_world s)) as [Hl _]. destruct (m (s_world s)) as [w a]. cbn in *. split; [|done].
  by eapply (knows_later P s).
Qed.

Lemma wp_ask_call {A} P (f : nat → A) s :
  stable P → knows P s → wp (call maxRuns maxEventsRun env f) (fun a s' => knows P s' ∧ ∃ n, a = f n) s.
Proof using BC Hlimit Hothers.
  intros HP Hk. unfold call. unfold wp, on_world, ask, state. cbn. split; [|by exists (w_step (s_world s))].
  eapply (knows_later P s); [done| |done]. by apply advance_later.
Qed.

(** Two readings of the clock, one after the other. *)
Lemma wp_clocks {A} P (k : Time → Time → M A) Q s :
  stable P → knows P s → (∀ n s', knows P s' → wp (k (e_clock env n) (e_clock env (S n))) Q s') →
  wp (occurred ← now maxRuns maxEventsRun env; at_ ← now maxRuns maxEventsRun env; k occurred at_) Q s.
Proof using BC Hlimit Hothers.
  intros HP Hk Hw. apply wp_bind. unfold now, call. unfold wp at 1, on_world at 1, ask at 1, state. cbn [fst snd].
  apply wp_bind. unfold wp at 1, on_world, ask, state. cbn [fst snd s_world w_step advance]. apply Hw.
  eapply (knows_later P s); [done| |done]. cbn [s_world]. etransitivity; by apply advance_later.
Qed.

Lemma wp_locked {A} P (f : memory → memory * A) s : stable P → knows P s → wp (locked maxRuns maxEventsRun env around f) (fun _ s' => knows P s') s.
Proof using BC Hlimit Hothers.
  intros HP Hk. unfold locked. apply wp_bind. eapply wp_mono; [by apply (wp_ask_call P)|]. intros u s1 [Hk1 _]. apply wp_state.
  by destruct (f _) as [m a].
Qed.

Lemma wp_signal P s : stable P → knows P s → wp (signal (Tx := Tx)) (fun _ s' => knows P s') s.
Proof.
  intros HP Hk. unfold signal. eapply wp_mono; [apply (wp_world P); [done| |done]|by intros ? ? []]. apply silent_record. intros ?; discriminate.
Qed.

(** ** Calls of a store that answers *)

Definition background (e : BrokerRefinement.Env) : BrokerRefinement.Env := {| env_ctx := fun _ => None; env_commit := env_commit e |}.

Definition live : Prop := faultless (Tx := Tx) ∧ ∀ n, env_commit (e_store env n) = CommitOk.

(** Whatever fails: an answer is the specified one. *)
Lemma wp_store_any {A} (inj : A → answer) o (f : BrokerRefinement.Env → Tx → Tx * result A) (seen : BrokerRefinement.Env → BrokerRefinement.Env) P s :
  (∀ e tx, answer_of inj (f e tx) = exec maxRuns maxEventsRun (seen e) tx o) → well_typed o → stable P → knows P s →
  wp (on_world (on_db maxRuns maxEventsRun env f))
    (fun r s' => knows (fun st' => P st' ∧ ∃ st, wf maxEventsRun st ∧ P st ∧ extends st st' ∧
       match r with Ok a => spec maxRuns maxEventsRun st o = Some (inj a, st') | Err _ => True end) s' ∧ s_memory s' = s_memory s) s.
Proof using BC Hlimit Hothers.
  intros Hf Ht HP Hk. unfold wp, on_world, on_db, state.
  set (w1 := advance maxRuns maxEventsRun env (s_world s)). set (e := e_store env (w_step (s_world s))).
  assert (db maxEventsRun P (w_db w1)) as (st & Hr & Hw & HPst) by (eapply (db_later _ P); [done|by apply advance_later|done]).
  pose proof (exec_refines maxRuns maxEventsRun Hlimit (seen e) (w_db w1) st o Hw Hr Ht) as Href. rewrite <- Hf in Href.
  unfold answer_of in Href. destruct (f e (w_db w1)) as [tx [a|err]]; cbn [fst snd refines] in *; (split; [|done]).
  - destruct Href as (st' & Hs & Hr'). pose proof (spec_extends _ _ _ _ _ _ Hs) as E. exists st'. split_and!; [done|by eapply spec_wf|by eapply HP|].
    by exists st.
  - destruct Href as [[Hr'|(a & st' & Hs & Hr')] _].
    + exists st. split_and!; [done..|]. by exists st.
    + pose proof (spec_extends _ _ _ _ _ _ Hs) as E. exists st'. split_and!; [done|by eapply spec_wf|by eapply HP|]. by exists st.
Qed.

Lemma wp_store {A} (inj : A → answer) o (f : BrokerRefinement.Env → Tx → Tx * result A) P s :
  (∀ e tx, answer_of inj (f e tx) = exec maxRuns maxEventsRun (background e) tx o) → well_typed o → live → stable P → knows P s →
  wp (on_world (on_db maxRuns maxEventsRun env f))
    (fun r s' => knows (fun st' => ∃ st, wf maxEventsRun st ∧ P st ∧ extends st st' ∧
       match r with
       | Ok a => spec maxRuns maxEventsRun st o = Some (inj a, st')
       | Err _ => spec maxRuns maxEventsRun st o = None ∧ st' = st
       end) s') s.
Proof using BC Hlimit Hothers.
  intros Hf Ht [Hfl Hcom] HP Hk. unfold wp, on_world, on_db, state.
  set (w1 := advance maxRuns maxEventsRun env (s_world s)). set (e := e_store env (w_step (s_world s))).
  assert (db maxEventsRun P (w_db w1)) as (st & Hr & Hw & HPst) by (eapply (db_later _ P); [done|by apply advance_later|done]).
  pose proof (exec_refines maxRuns maxEventsRun Hlimit (background e) (w_db w1) st o Hw Hr Ht) as Href. rewrite <- Hf in Href.
  unfold answer_of in Href. destruct (f e (w_db w1)) as [tx [a|err]]; cbn [fst snd refines] in *.
  - destruct Href as (st' & Hs & Hr'). exists st'. split_and!; [done|by eapply spec_wf|]. exists st. split_and!; [done..|by eapply spec_extends|done].
  - destruct Href as [Hdb [Hs|Hn]]; [|destruct Hn; split; [done|split; [done|apply Hcom]]]. exists st. destruct Hdb as [Hr'|(a & st' & Hs' & _)]; [|congruence].
    split_and!; [done..|]. by exists st.
Qed.

(** ** What every goroutine keeps *)

(** Whatever the store does, a stable fact about it is kept. *)
Definition keeps {A} (m : M A) : Prop := ∀ P s, stable P → knows P s → wp m (fun _ s' => knows P s') s.

Lemma keeps_ret {A} (a : A) : keeps (mret a).
Proof. intros P s _ Hk. by apply wp_ret. Qed.

Lemma keeps_bind {A B} (m : M A) (k : A → M B) : keeps m → (∀ a, keeps (k a)) → keeps (m ≫= k).
Proof. intros Hm Hf P s HP Hk. apply wp_bind. eapply wp_mono; [by apply Hm|]. intros a s' Hk'. by apply Hf. Qed.

Lemma keeps_try {A B} (m : M (result A)) (k : A → M (result B)) : keeps m → (∀ a, keeps (k a)) → keeps (try m k).
Proof. intros Hm Hf. unfold try. apply keeps_bind; [done|]. intros [a|e]; [apply Hf|apply keeps_ret]. Qed.

Lemma keeps_call {A} (f : nat → A) : keeps (call maxRuns maxEventsRun env f).
Proof using BC Hlimit Hothers. intros P s HP Hk. eapply wp_mono; [by apply wp_ask_call|]. by intros a s' []. Qed.

Lemma keeps_locked {A} (f : memory → memory * A) : keeps (locked maxRuns maxEventsRun env around f).
Proof using BC Hlimit Hothers. intros P s HP Hk. by apply wp_locked. Qed.

Lemma keeps_signal : keeps signal.
Proof. intros P s HP Hk. by apply wp_signal. Qed.

Lemma keeps_spawn t : keeps (spawn t).
Proof. intros P s HP Hk. exact Hk. Qed.

Lemma keeps_world {A} (m : program (World Tx) A) : preserves (quiet maxEventsRun) m → keeps (on_world m).
Proof. intros Hm P s HP Hk. eapply wp_mono; [by apply (wp_world P)|]. by intros a s' []. Qed.

Lemma keeps_lookup_ctx b g : keeps (lookup_ctx maxRuns maxEventsRun env b g).
Proof using BC Hlimit Hothers. apply keeps_world, (silent_on_db maxRuns maxEventsRun Hlimit env Hothers). reflexivity. Qed.

Lemma silent_append event now : is_u64 (ev_Generation event) → preserves (quiet maxEventsRun) (append_world maxRuns maxEventsRun env event now).
Proof using BC Hlimit Hothers.
  intros Hu. apply (silent_on_db maxRuns maxEventsRun Hlimit env Hothers). intros e tx.
  pose proof (exec_later maxRuns maxEventsRun Hlimit (background e) tx (OpAppend event now) Hu) as Hl. cbn in Hl.
  by destruct (Append maxEventsRun None (env_commit e) event now tx).
Qed.

Lemma keeps_appendSyntheticTerminal record state code message cleanup :
  is_u64 (rq_Generation (br_Request record)) → keeps (appendSyntheticTerminal maxRuns maxEventsRun env record state code message cleanup).
Proof using BC Hlimit Hothers.
  intros Hu. unfold appendSyntheticTerminal, appendTerminal, now, append. apply keeps_bind; [apply keeps_call|]. intros finished.
  apply keeps_try; [apply keeps_ret|]. intros _. do 2 (apply keeps_bind; [apply keeps_call|]; intros ?).
  apply keeps_try; [by apply keeps_world, silent_append|]. intros _. apply keeps_bind; [apply keeps_signal|]. intros _. apply keeps_ret.
Qed.

Lemma keeps_start record : keeps (start maxRuns maxEventsRun env around record).
Proof using BC Hlimit Hothers. unfold start, now. do 2 (apply keeps_bind; [apply keeps_call|]; intros ?). apply keeps_locked. Qed.

Lemma stable_and P Q : stable P → stable Q → stable (fun st => P st ∧ Q st).
Proof. intros HP HQ st st' E [H1 H2]. split; [by eapply HP|by eapply HQ]. Qed.

(** ** Cancel *)

Definition canceled (b : string) (g : Z) (st : broker) : Prop := ∃ r, runs st !! (b, g) = Some r ∧ (br_State r = "canceling" ∨ Terminal r = true).

Lemma canceled_stable b g : stable (canceled b g).
Proof.
  intros st st' E (r & Hr & Hs). destruct (ext_runs _ _ E _ _ Hr) as (r' & Hr' & X). exists r'. split; [done|]. destruct Hs as [Hc|Ht].
  - by apply (ext_canceling _ _ X).
  - right. by rewrite (ext_final _ _ X Ht).
Qed.

Lemma always_stable : stable (fun _ => True).
Proof. done. Qed.

Lemma spec_canceling st b g t updated st' :
  wf maxEventsRun st → spec maxRuns maxEventsRun st (OpSetState b g "canceling" t) = Some (Updated updated, st') →
  canceled b g st' ∧ rq_Generation (br_Request updated) = g.
Proof.
  intros Hw Hs. cbn [spec] in Hs. unfold spec_set_state in Hs. cbn [fst snd] in Hs. destruct (is_err _ || _ || _); [done|].
  destruct (runs st !! (b, g)) as [r|] eqn:Hr; [|done]. destruct (Terminal r || _ || _); [done|]. injection Hs as <- <-. split.
  - eexists. split; [apply lookup_insert_eq|]. by left.
  - by destruct (wf_runs _ _ Hw _ _ _ Hr) as (_ & _ & [[_ Hg] _]).
Qed.

(** A cancellation that was accepted is in the store. *)
Lemma wp_Cancel b g reason s :
  Serves maxEventsRun runner → is_u64 g → knows (fun _ => True) s →
  wp (Cancel maxRuns maxEventsRun env around runner b g reason) (fun r s' => is_ok r = true → knows (canceled b g) s') s.
Proof using BC Hlimit Hothers.
  intros Hserves Hu Hk. unfold Cancel. destruct (_ || _); [by apply wp_ret|]. apply wp_bind.
  eapply wp_mono; [apply (wp_store_any Found (OpLookup b g) _ (fun e => e)); [done|done|apply always_stable|done]|]. intros looked s1 [Hk1 _].
  destruct looked as [[record|]|]; [|by apply wp_ret..]. destruct (Terminal record) eqn:Ht.
  { apply wp_ret. intros _. eapply knows_weaken; [|exact Hk1]. intros st' _ (_ & st & _ & _ & _ & Hs). cbn [spec] in Hs. destruct (is_err _); [done|].
    injection Hs as Hr <-. exists record. auto. }
  apply (knows_weaken _ (fun _ => True)) in Hk1; [|done]. apply wp_bind. eapply wp_mono; [by apply (keeps_call _ _ _ always_stable)|]. intros at_ s2 Hk2.
  apply wp_try. eapply wp_mono; [apply (wp_store_any Updated (OpSetState b g "canceling" at_) _ (fun e => e)); [done|done|apply always_stable|done]|].
  intros [updated|e] s3 [Hk3 _]; [|done].
  assert (knows (canceled b g) s3) as Hk4.
  { eapply knows_weaken; [|exact Hk3]. intros st' _ (_ & st & Hw & _ & _ & Hs). by eapply spec_canceling. }
  assert (is_u64 (rq_Generation (br_Request updated))) as Hu4.
  { destruct Hk3 as (st' & _ & _ & _ & st & Hw & _ & _ & Hs). by destruct (spec_canceling _ _ _ _ _ _ Hw Hs) as [_ ->]. }
  assert (∀ m : M (result RunRecord), keeps m → ∀ s', knows (canceled b g) s' → wp m (fun r s' => is_ok r = true → knows (canceled b g) s') s') as Hm.
  { intros m Hm s' Hk'. eapply wp_mono; [by apply (Hm _ _ (canceled_stable b g))|]. by intros. }
  apply wp_bind. eapply wp_mono; [by apply (keeps_signal _ _ (canceled_stable b g))|]. intros u s4 Hk5. apply Hm; [|done].
  destruct (negb (br_Dispatched updated)).
  - apply keeps_bind; [apply keeps_locked|]. intros done. apply keeps_try.
    + destruct done; [|by apply keeps_appendSyntheticTerminal]. apply keeps_bind; [apply keeps_spawn|]. intros _. apply keeps_ret.
    + intros _. apply keeps_bind; [apply keeps_lookup_ctx|]. by intros [[r|]|e]; apply keeps_ret.
  - apply keeps_bind; [intros P s' HP HkP; unfold wp, on_world; pose proof Hserves as [_ Hsc]; pose proof (Hsc P b g reason (s_world s') HP HkP) as Hc;
      unfold wp in Hc; by destruct (r_Cancel runner b g reason (s_world s'))|].
    intros accepted. destruct (match accepted with Ok a => a | Err _ => false end).
    + apply keeps_bind; [apply keeps_start|]. intros _. apply keeps_ret.
    + apply keeps_bind; [apply keeps_locked|]. intros done. apply keeps_bind; [apply keeps_spawn|]. intros _. apply keeps_ret.
Qed.

(** ** Watch *)

(** The events are the first [limit] after [after] in the log, as it was at some moment
    since it held [before]. *)
Definition logged (b : string) (g after limit : Z) (before events : list Event) (st : broker) : Prop :=
  ∃ seen, before `prefix_of` seen ∧ seen `prefix_of` events_of st (b, g) ∧ events = take (Z.to_nat limit) (drop (Z.to_nat after) seen).

Definition since (b : string) (g : Z) (before : list Event) (st : broker) : Prop := before `prefix_of` events_of st (b, g).

(** The record is one the run had. *)
Definition observed (b : string) (g : Z) (record : RunRecord) (st : broker) : Prop := ∃ r, runs st !! (b, g) = Some r ∧ run_extends record r.

Lemma logged_stable b g after limit before events : stable (logged b g after limit before events).
Proof. intros st st' E (seen & Hb & Hs & ->). exists seen. split_and!; [done| |done]. etransitivity; [exact Hs|]. apply (ext_logs _ _ E). Qed.

Lemma since_stable b g before : stable (since b g before).
Proof. unfold since. intros st st' E Hs. etransitivity; [exact Hs|]. apply (ext_logs _ _ E). Qed.

Lemma observed_stable b g record : stable (observed b g record).
Proof.
  intros st st' E (r & Hr & X). destruct (ext_runs _ _ E _ _ Hr) as (r' & Hr' & X'). exists r'. split; [done|]. by etransitivity.
Qed.

Lemma wp_events_after P b g after limit before s :
  stable P → is_u64 g → 0 ≤ after < 2 ^ 64 - 1 → (∀ st, P st → since b g before st) → knows P s →
  wp (events_after maxRuns maxEventsRun env b g after limit)
    (fun r s' => knows (fun st => P st ∧ match r with Ok events => logged b g after limit before events st | Err _ => True end) s') s.
Proof using BC Hlimit Hothers.
  intros HP Hu Ha Hs0 Hk. eapply wp_mono; [apply (wp_store_any Events (OpEventsAfter b g after limit) _ (fun e => e)); [done| |exact HP|exact Hk]|].
  { split; [done|]. unfold is_u64. lia. }
  intros r s' [Hk' _]. eapply knows_weaken; [|exact Hk']. intros st' _ (HPst & st & _ & _ & _ & Hs). split; [done|]. destruct r as [events|]; [|done].
  cbn [spec] in Hs. unfold spec_events_after in Hs. cbn [fst snd] in Hs. destruct (_ || _ || _) eqn:E; [done|]. injection Hs as <- <-.
  rewrite u64_small by (unfold is_u64; lia). replace (after + 1 - 1) with after by lia. eexists. split_and!; [by apply Hs0|done|done].
Qed.

Lemma wp_lookup_ctx P b g s :
  stable P → is_u64 g → knows P s →
  wp (lookup_ctx maxRuns maxEventsRun env b g)
    (fun r s' => knows (fun st => P st ∧ match r with Ok (Some record) => observed b g record st | Ok None => runs st !! (b, g) = None | Err _ => True end) s') s.
Proof using BC Hlimit Hothers.
  intros HP Hu Hk. eapply wp_mono; [apply (wp_store_any Found (OpLookup b g) _ (fun e => e)); [done|exact Hu|exact HP|exact Hk]|].
  intros r s' [Hk' _]. eapply knows_weaken; [|exact Hk']. intros st' _ (HPst & st & _ & _ & _ & Hs). split; [done|]. destruct r as [o|]; [|done].
  cbn [spec] in Hs. destruct (is_err _); [done|]. injection Hs as Hr <-. destruct o as [record|]; [|done]. exists record. by split.
Qed.

(** What a watcher is told of the run. *)
Definition told (b : string) (g after limit : Z) (before : list Event) (r : result (list Event * RunRecord)) (s : State Tx) : Prop :=
  match r with
  | Ok (events, record) => knows (fun st => logged b g after limit before events st ∧ observed b g record st) s
  | Err _ => True
  end.

Definition claimed (b : string) (g : Z) (st : broker) : Prop := is_Some (runs st !! (b, g)).

Lemma claimed_stable b g : stable (claimed b g).
Proof. intros st st' E [r Hr]. destruct (ext_runs _ _ E _ _ Hr) as (r' & Hr' & _). by exists r'. Qed.

(** What is known when a round found nothing new. *)
Definition waiting (b : string) (g after limit : Z) (before : list Event) (st : broker) : Prop :=
  since b g before st ∧ claimed b g st ∧ logged b g after limit before [] st.

Lemma waiting_stable b g after limit before : stable (waiting b g after limit before).
Proof. apply stable_and; [apply since_stable|]. apply stable_and; [apply claimed_stable|apply logged_stable]. Qed.

Lemma wp_watch_round b g after limit before waits select s :
  is_u64 g → 0 ≤ after < 2 ^ 64 - 1 → knows (since b g before) s →
  (∀ s', knows (waiting b g after limit before) s' → wp select (told b g after limit before) s') →
  wp (watch_round maxRuns maxEventsRun env b g after limit waits select) (told b g after limit before) s.
Proof using BC Hlimit Hothers.
  intros Hu Ha Hk Hsel. unfold watch_round. apply wp_try. eapply wp_mono; [by apply (wp_events_after (since b g before)); [apply since_stable|..]|].
  intros [events|e] s1 Hk1; [|done].
  set (R := fun st => since b g before st ∧ logged b g after limit before events st).
  assert (stable R) as HR by (apply stable_and; [apply since_stable|apply logged_stable]).
  apply wp_try. eapply wp_mono; [by apply (wp_lookup_ctx R)|].
  intros [[record|]|e] s2 Hk2; [|by apply wp_ret|done]. destruct (_ || _ || _).
  { apply wp_ret. eapply knows_weaken; [|exact Hk2]. intros st _ [[_ Hl] Ho]. by split. }
  set (R' := fun st => since b g before st ∧ observed b g record st).
  assert (stable R') as HR' by (apply stable_and; [apply since_stable|apply observed_stable]).
  apply wp_try. eapply wp_mono; [apply (wp_events_after R' _ _ _ _ before); [done|done|done|by intros st []|]|].
  { eapply knows_weaken; [|exact Hk2]. intros st _ [[Hs _] Ho]. by split. }
  intros [events'|e] s3 Hk3; [|done]. destruct (Nat.eqb_spec (length events') 0) as [Hn|Hn]; cbn [negb].
  - apply Hsel. apply nil_length_inv in Hn as ->. eapply knows_weaken; [|exact Hk3]. intros st _ ((Hs & r & Hr & _) & Hl). split_and!; [done|by exists r|done].
  - apply wp_ret. eapply knows_weaken; [|exact Hk3]. intros st _ ((_ & Ho) & Hl). by split.
Qed.

Lemma wp_watch b g after limit before waits notifications last s :
  is_u64 g → 0 ≤ after < 2 ^ 64 - 1 → knows (since b g before) s →
  wp (watch maxRuns maxEventsRun env b g after limit waits notifications last) (told b g after limit before) s.
Proof using BC Hlimit Hothers.
  intros Hu Ha. revert s. induction notifications as [|n IH]; intros s Hk; cbn [watch]; apply wp_watch_round; try done; intros s' Hk'.
  - destruct last as [e|]; [by apply wp_ret|]. apply wp_try. eapply wp_mono; [apply (wp_lookup_ctx (waiting b g after limit before)); [apply waiting_stable|done|done]|].
    intros [[record|]|e] s2 Hk2; [| |done].
    + apply wp_ret. eapply knows_weaken; [|exact Hk2]. intros st _ [(_ & _ & Hl) Ho]. by split.
    + exfalso. destruct Hk2 as (st & _ & _ & (_ & [r Hr] & _) & Hn). congruence.
  - apply IH. eapply knows_weaken; [|exact Hk']. by intros st _ [].
Qed.

(** ** One run *)

Context (request : Request) (created : Time).
Context (Hid : run_id (rq_BuildID request) (rq_Generation request)).

Abbreviation id := (rq_BuildID request, rq_Generation request).

(** The run is there, of the request and as old as it was. *)
Definition present (st : broker) : Prop :=
  ∃ r, runs st !! id = Some r ∧ br_Request r = request ∧ ParseRFC3339Nano (br_CreatedAt r) = Some created.

(** The run is over, or its log takes no more events. *)
Definition closed (st : broker) : Prop :=
  ∃ r, runs st !! id = Some r ∧ (Terminal r = true ∨ maxEventsRun ≤ Z.of_nat (length (events_of st id))).

(** The run is closed or is being canceled. *)
Definition settled (st : broker) : Prop := closed st ∨ ∃ r, runs st !! id = Some r ∧ br_State r = "canceling".

(** The run was taken up. *)
Definition started (st : broker) : Prop := ∃ r, runs st !! id = Some r ∧ br_State r ≠ "accepted".

Lemma present_stable : stable present.
Proof.
  intros st st' E (r & Hr & Hq & Hc). destruct (ext_runs _ _ E _ _ Hr) as (r' & Hr' & X). exists r'. split_and!; [done|..].
  - by rewrite (ext_request _ _ X).
  - by rewrite (ext_created _ _ X).
Qed.

Lemma closed_stable : stable closed.
Proof.
  intros st st' E (r & Hr & Hs). destruct (ext_runs _ _ E _ _ Hr) as (r' & Hr' & X). exists r'. split; [done|]. destruct Hs as [Ht|Hf].
  - left. by rewrite (ext_final _ _ X Ht).
  - right. pose proof (prefix_length _ _ (ext_logs _ _ E id)). lia.
Qed.

Lemma settled_stable : stable settled.
Proof.
  intros st st' E [Hc|(r & Hr & Hc)]; [left; by eapply closed_stable|]. destruct (ext_runs _ _ E _ _ Hr) as (r' & Hr' & X).
  destruct (ext_canceling _ _ X Hc) as [|]; [right; eauto|left; exists r'; auto].
Qed.

Lemma settled_terminal st r : runs st !! id = Some r → Terminal r = true → settled st.
Proof. intros Hr Ht. left. exists r. auto. Qed.

Lemma started_stable : stable started.
Proof.
  intros st st' E (r & Hr & Hs). destruct (ext_runs _ _ E _ _ Hr) as (r' & Hr' & X). exists r'. split; [done|]. by apply (ext_accepted _ _ X).
Qed.

Lemma present_framed st r : wf maxEventsRun st → present st → runs st !! id = Some r →
  RunRecord_Validate r = Ok tt ∧ framed r created ∧ br_Request r = request.
Proof.
  intros Hw (r' & Hr' & Hq & Hc) Hr. assert (r' = r) as -> by congruence. destruct (wf_runs _ _ Hw _ _ _ Hr) as (_ & _ & Hrun).
  pose proof (run_valid _ _ _ Hrun) as Hv. destruct (valid_framed _ Hv) as [created' Hf]. split_and!; [done| |done].
  assert (created' = created) as -> by (pose proof (framed_created _ _ Hf); congruence). done.
Qed.

(** The clock, and the encodings of what is stored. *)
Context (Hcreated : in_calendar created).
Context (Hclock : ∀ n, in_calendar (e_clock env n) ∧ created ≤ e_clock env n ∧ 0 < e_clock env n ∧ e_clock env n ≤ e_clock env (S n)).
Context (Hrecords : ∀ r : RunRecord, RunRecord_Validate r = Ok tt → is_Some (marshal r)).
Context (Hevents : ∀ e : Event, Event_Validate e = Ok tt → is_Some (marshal e)).

(** A valid event of the run is refused only when the run is closed. *)
Lemma append_refused st event n :
  wf maxEventsRun st → present st → Event_Validate event = Ok tt → (ev_BuildID event, ev_Generation event) = id →
  ev_OccurredAt event = FormatRFC3339Nano (e_clock env n) → spec maxRuns maxEventsRun st (OpAppend event (e_clock env (S n))) = None → closed st.
Proof using Hid Hclock Hrecords Hevents.
  intros Hw Hp Hv He Ho. pose proof Hp as (r & Hr & _). destruct (present_framed st r Hw Hp Hr) as (Hrv & Hf & Hq). cbn [spec]. unfold spec_append. rewrite He.
  destruct (Hclock n) as (Hc & Hle & _ & Hmono). destruct (Hclock (S n)) as (Hc' & Hle' & Hpos & _).
  rewrite Hv, Hr. cbn [is_err is_ok negb orb]. unfold IsZero. rewrite (proj2 (Z.eqb_neq (e_clock env (S n)) 0)) by lia.
  assert (outside_window event r (e_clock env (S n)) = false) as ->.
  { unfold outside_window. rewrite Ho, parse_format_nano, (framed_created _ _ Hf) by done. unfold Before, After, Add, Minute, Second in *.
    apply orb_false_iff. split; apply Z.ltb_ge; lia. }
  intros Hnone. exists r. split; [done|]. destruct (Terminal r) eqn:Ht; [by left|]. destruct (maxEventsRun <=? _) eqn:Hfull; [right; by apply Z.leb_le|].
  exfalso. cbn [orb] in Hnone. set (persisted := with_sequence event _) in Hnone.
  assert (Event_Validate persisted = Ok tt) as Hpv by (apply with_sequence_valid; [done|lia]). injection He as He1 He2.
  assert (RunRecord_Validate (record_event r persisted (FormatRFC3339Nano (e_clock env (S n)))) = Ok tt) as Hrv'.
  { apply (record_event_valid r created); try done; cbn; by rewrite Hq. }
  rewrite (proj2 (storable_true persisted)) in Hnone by (split; [done|by apply Hevents]).
  rewrite (proj2 (storable_true (record_event r persisted _))) in Hnone by (split; [done|by apply Hrecords]). done.
Qed.

(** A run that was taken up can be marked running or retrying until it is settled. *)
Lemma set_state_refused st state n :
  wf maxEventsRun st → present st → state = "running" ∨ state = "retrying" ∧ started st →
  spec maxRuns maxEventsRun st (OpSetState (rq_BuildID request) (rq_Generation request) state (e_clock env n)) = None → settled st.
Proof using Hid Hclock Hrecords.
  intros Hw Hp Hs. pose proof Hp as (r & Hr & _). destruct (present_framed st r Hw Hp Hr) as (Hrv & Hf & Hq). cbn [spec]. unfold spec_set_state. cbn [fst snd].
  destruct (Hclock n) as (Hc & Hle & Hpos & _). pose proof (framed_identity _ _ Hf) as Hi. rewrite Hq in Hi. rewrite Hi, Hr. cbn [orb].
  assert (slices_Contains ["running"; "retrying"; "canceling"] state = true) as Hin by (by destruct Hs as [->|[-> _]]). rewrite Hin.
  unfold IsZero. rewrite (proj2 (Z.eqb_neq (e_clock env n) 0)) by lia. cbn [negb orb]. intros Hnone.
  destruct (Terminal r) eqn:Ht; [by eapply settled_terminal|]. destruct (decide (br_State r = "canceling")) as [|Hnc]; [right; eauto|]. exfalso.
  rewrite (proj2 (storable_true (BrokerStore.set_state r _ _))) in Hnone by (split; [by apply (set_state_valid r created)|by apply Hrecords, (set_state_valid r created)]).
  destruct (validBrokerTransition (br_State r) state) eqn:Hvt; [done|]. unfold RunRecord_Validate in Hrv. destruct (_ || negb (is_stage _)) eqn:E; [done|].
  apply orb_false_iff in E as [E _]. apply orb_false_iff in E as [_ Hrs%negb_false_iff]. unfold Terminal, slices_Contains in Ht, Hrs. cbn [existsb result_states run_states] in Ht, Hrs.
  assert (br_State r = "accepted" ∨ br_State r = "running" ∨ br_State r = "retrying") as Hst.
  { rewrite !orb_false_iff in Ht. rewrite !orb_true_iff, !String.eqb_eq in Hrs. rewrite !String.eqb_neq in Ht. destruct Ht as (? & ? & ? & ? & _).
    destruct_or? Hrs; [left|right; left|right; right|..]; congruence. }
  destruct Hs as [->|[-> (r' & Hr' & Hna)]]; destruct Hst as [E|[E|E]]; rewrite E in Hvt; try done. congruence.
Qed.

Lemma append_terminal st event now a st' t :
  spec maxRuns maxEventsRun st (OpAppend event now) = Some (a, st') → (ev_BuildID event, ev_Generation event) = id →
  Event_Validate event = Ok tt → ev_Terminal event = Some t → closed st'.
Proof.
  cbn [spec]. unfold spec_append. intros Hs He Hv Ht. rewrite He in Hs. destruct (_ || _); [done|]. destruct (runs st !! id) as [r|]; [|done].
  destruct (_ || negb (storable (record_event _ _ _))); [done|]. injection Hs as _ <-. eexists. split; [apply lookup_insert_eq|]. left.
  unfold Terminal. cbn [br_State record_event ev_Terminal with_sequence]. rewrite Ht. by eapply result_state, event_terminal.
Qed.

Abbreviation lookup := (lookup maxRuns maxEventsRun env).
Abbreviation set_state := (Broker.set_state maxRuns maxEventsRun env).
Abbreviation append := (append maxRuns maxEventsRun env).

Context (Hlive : live).

Lemma wp_lookup P s :
  stable P → knows P s →
  wp (lookup (rq_BuildID request) (rq_Generation request)) (fun r s' => ∃ o, r = Ok o ∧ knows (fun st => P st ∧ runs st !! id = o) s') s.
Proof using BC Hlimit Hothers Hlive Hid.
  intros HP Hk. destruct Hid as (Hb & Hg & Hu). eapply wp_mono; [apply (wp_store Found (OpLookup (rq_BuildID request) (rq_Generation request))); try done|].
  intros r s' Hk'. assert (is_err (validateBrokerIdentity (rq_BuildID request) (rq_Generation request)) = false) as Hv.
  { unfold validateBrokerIdentity. by rewrite Hb, (proj2 (Z.eqb_neq _ _) Hg). }
  destruct r as [o|e].
  - exists o. split; [done|]. eapply knows_weaken; [|exact Hk']. intros st' _ (st & _ & HPst & _ & Hs). cbn [spec] in Hs. rewrite Hv in Hs.
    injection Hs as <- <-. done.
  - exfalso. destruct Hk' as (st' & _ & _ & st & _ & _ & _ & Hs & _). cbn [spec] in Hs. by rewrite Hv in Hs.
Qed.

Lemma wp_append P event n s :
  stable P → (∀ st, P st → present st) → knows P s → Event_Validate event = Ok tt → (ev_BuildID event, ev_Generation event) = id →
  ev_OccurredAt event = FormatRFC3339Nano (e_clock env n) →
  wp (append event (e_clock env (S n))) (fun r s' => knows (fun st => P st ∧ (is_err r = true → closed st) ∧
       (is_ok r = true → started st ∧ (is_Some (ev_Terminal event) → closed st))) s') s.
Proof using BC Hlimit Hothers Hlive Hid Hclock Hrecords Hevents.
  intros HP Hpp Hk Hv He Ho. eapply wp_mono; [apply (wp_store (fun a => Appended a.1 a.2) (OpAppend event (e_clock env (S n))) _ P); try done|].
  { cbn. injection He as _ ->. by destruct Hid as (_ & _ & ?). }
  intros r s' Hk'. eapply knows_weaken; [|exact Hk']. intros st' Hw' (st & Hw & HPst & E & Hs). split_and!.
  - by eapply HP.
  - intros Her. destruct r as [a|e]; [done|]. destruct Hs as [Hs ->]. by eapply append_refused; eauto.
  - intros Hok. destruct r as [a|e]; [|done]. split; [|intros [t Ht]; by eapply append_terminal].
    cbn [spec] in Hs. unfold spec_append in Hs. rewrite He in Hs. destruct (_ || _); [done|]. destruct (runs st !! id) as [r0|]; [|done].
    destruct (_ || negb (storable (record_event _ _ _))) eqn:Est; [done|]. injection Hs as _ _ <-. eexists. split; [apply lookup_insert_eq|].
    apply orb_false_iff in Est as [_ Est%negb_false_iff]. apply storable_true in Est as [Hrv _].
    cbn [br_State record_event ev_Terminal with_sequence]. destruct (ev_Terminal event) as [t|] eqn:Et; [|by destruct (String.eqb_spec (br_State r0) "canceling") as [->|]].
    intros E'. pose proof (result_state t ltac:(by eapply event_terminal)) as Hst. by rewrite E' in Hst.
Qed.

Lemma wp_set_state P state n s :
  stable P → (∀ st, P st → present st ∧ (state = "running" ∨ state = "retrying" ∧ started st)) → knows P s →
  wp (set_state (rq_BuildID request) (rq_Generation request) state (e_clock env n)) (fun r s' => knows (fun st => P st ∧ (is_ok r = false → settled st)) s') s.
Proof using BC Hlimit Hothers Hlive Hid Hclock Hrecords.
  intros HP Hpp Hk. eapply wp_mono; [apply (wp_store Updated (OpSetState (rq_BuildID request) (rq_Generation request) state (e_clock env n)) _ P); try done|].
  { by destruct Hid as (_ & _ & ?). }
  intros r s' Hk'. eapply knows_weaken; [|exact Hk']. intros st' Hw' (st & Hw & HPst & E & Hs). split; [by eapply HP|].
  intros Her. destruct r as [a|e]; [done|]. destruct Hs as [Hs ->]. destruct (Hpp _ HPst) as [Hp Hst]. by eapply set_state_refused.
Qed.

Abbreviation appendTerminal := (appendTerminal maxRuns maxEventsRun env).
Abbreviation appendSyntheticTerminal := (appendSyntheticTerminal maxRuns maxEventsRun env).

Lemma terminal_event_valid record result occurred :
  br_Request record = request → Result_Validate result = Ok tt → re_BuildID result = rq_BuildID request → re_Generation result = rq_Generation request →
  in_calendar occurred → Event_Validate (terminal_event record result (FormatRFC3339Nano occurred)) = Ok tt.
Proof using Hid.
  intros Hq Hv Hb Hg Hc. unfold Event_Validate, terminal_event.
  cbn [ev_Version ev_Generation ev_Sequence ev_Attempt ev_Stage ev_Kind ev_Line ev_Message ev_BuildID ev_OccurredAt ev_Terminal].
  rewrite Hq, Hb, Hg, parse_format_nano, Hv, !String.eqb_refl, !Z.eqb_refl by done. destruct Hid as (Hbld & Hgen & _).
  rewrite Hbld, (proj2 (Z.eqb_neq _ _) Hgen), (proj2 (Z.eqb_neq (Z.max _ 1) 0)) by lia.
  assert (is_stage (re_State result) = true) as ->; [|done].
  apply result_state in Hv. unfold slices_Contains in Hv. cbn [existsb result_states] in Hv. rewrite !orb_true_iff, !String.eqb_eq in Hv.
  destruct Hv as [E|[E|[E|[E|[=]]]]]; by first [rewrite E|rewrite <- E].
Qed.

Definition over (st : broker) : Prop := present st ∧ settled st.
Definition final (st : broker) : Prop := present st ∧ closed st.

Lemma over_stable : stable over.
Proof. apply stable_and; [apply present_stable|apply settled_stable]. Qed.

Lemma final_stable : stable final.
Proof. apply stable_and; [apply present_stable|apply closed_stable]. Qed.

Lemma final_over s : knows final s → knows over s.
Proof. apply knows_weaken. intros st _ [Hp Hc]. split; [done|by left]. Qed.

(** A terminal event closes the run, whether it is taken or refused. *)
Lemma wp_appendTerminal record result s :
  knows present s → br_Request record = request → Result_Validate result = Ok tt → re_BuildID result = rq_BuildID request →
  re_Generation result = rq_Generation request → wp (appendTerminal record result) (fun _ s' => knows final s') s.
Proof using BC Hlimit Hothers Hlive Hid Hclock Hrecords Hevents.
  intros Hk Hq Hv Hb Hg. unfold Broker.appendTerminal. apply wp_try, wp_ret. rewrite Hv. apply (wp_clocks present); [apply present_stable|done|].
  intros n s1 Hk1. apply wp_try. eapply wp_mono.
  { apply (wp_append present); [apply present_stable|done|exact Hk1|apply terminal_event_valid; try done; apply Hclock|cbn; by rewrite Hq|done]. }
  intros [a|e] s2 Hk2.
  - apply wp_bind. eapply wp_mono; [apply (wp_signal final); [apply final_stable|]|by intros].
    eapply knows_weaken; [|exact Hk2]. intros st _ (Hp & _ & Hs). split; [done|]. by apply Hs.
  - eapply knows_weaken; [|exact Hk2]. intros st _ (Hp & Hs & _). split; [done|]. by apply Hs.
Qed.

Lemma wp_appendSyntheticTerminal record state code message cleanup s :
  knows present s → framed record created → br_Request record = request → slices_Contains ["failed"; "canceled"] state = true → is_failure_code code = true →
  message ≠ "" → len message ≤ MaxEventMessageBytes → wp (appendSyntheticTerminal record state code message cleanup) (fun _ s' => knows final s') s.
Proof using BC Hlimit Hothers Hlive Hid Hclock Hrecords Hevents Hcreated.
  intros Hk Hf Hq Hs Hc Hm Hl.
  unfold Broker.appendSyntheticTerminal. apply wp_bind. eapply wp_mono; [apply (wp_ask_call present); [apply present_stable|done]|].
  intros finished s1 [Hk1 [n ->]]. destruct (Hclock n) as (Hcal & Hle & _). apply wp_appendTerminal; [done|done|by apply (synthetic_valid _ created)|cbn; by rewrite Hq..].
Qed.

(** ** The loop *)

Lemma wp_before_run s :
  knows present s → wp (before_run maxRuns maxEventsRun env request) (fun ready s' => knows (fun st => present st ∧ (ready = false → settled st)) s') s.
Proof using BC Hlimit Hothers Hlive Hid Hclock Hrecords.
  intros Hk. unfold before_run. apply wp_bind. eapply wp_mono; [by apply (wp_lookup present); [apply present_stable|]|]. intros looked s1 (o & -> & Hk1).
  pose proof Hk1 as (st & _ & _ & (r & Hr & _) & Ho). destruct o as [record|]; [|congruence]. clear st r Hr Ho.
  destruct (Terminal record) eqn:Ht.
  { apply wp_ret. eapply knows_weaken; [|exact Hk1]. intros st _ [Hp Hr]. split; [done|]. intros _. by eapply settled_terminal. }
  destruct (canceling record); [apply wp_ret; by eapply knows_weaken; [|exact Hk1]; intros st _ [Hp _]|].
  apply wp_bind. eapply wp_mono; [apply (wp_ask_call present); [apply present_stable|by eapply knows_weaken; [|exact Hk1]; intros ? ? []]|].
  intros at_ s2 [Hk2 [n ->]]. apply wp_bind. eapply wp_mono; [apply (wp_set_state present); [apply present_stable|auto|exact Hk2]|].
  intros moved s3 Hk3. apply wp_ret. exact Hk3.
Qed.

Context (Hroot : ∀ n, b_root around n = false).

Lemma retry_event_valid attempt occurred :
  1 ≤ attempt ≤ 10 → in_calendar occurred → Event_Validate (retry_event request attempt (FormatRFC3339Nano occurred)) = Ok tt.
Proof using Hid.
  intros Ha Hc. unfold Event_Validate, retry_event.
  cbn [ev_Version ev_Generation ev_Sequence ev_Attempt ev_Stage ev_Kind ev_Line ev_Message ev_BuildID ev_OccurredAt ev_Terminal].
  destruct Hid as (Hb & Hg & _). rewrite Hb, (proj2 (Z.eqb_neq _ _) Hg), parse_format_nano by done.
  unfold u32. rewrite Z.mod_small by lia. rewrite (proj2 (Z.eqb_neq (attempt + 1) 0)) by lia. done.
Qed.

(** What is known when the loop ends or goes on. *)
Definition followed (attempt : Z) (next : option unit) (s : State Tx) : Prop :=
  knows (fun st => present st ∧ (next = None → settled st)) s ∧ (next = Some tt → attempt ≠ MaxAttempts options).

Lemma over_followed attempt s : knows over s → followed attempt None s.
Proof. intros Hk. split; [|done]. eapply knows_weaken; [|exact Hk]. by intros st _ []. Qed.

Lemma wp_retry attempt s :
  knows present s → 1 ≤ attempt ≤ 10 → attempt ≠ MaxAttempts options → wp (retry maxRuns maxEventsRun env request attempt) (followed attempt) s.
Proof using BC Hlimit Hothers Hlive Hid Hclock Hrecords Hevents.
  intros Hk Ha Hlast. unfold retry. apply (wp_clocks present); [apply present_stable|done|]. intros n s2 Hk2.
  apply wp_bind. eapply wp_mono; [apply (wp_append present); [apply present_stable|done|exact Hk2|apply retry_event_valid; [done|apply Hclock]|done|done]|].
  intros appended s3 Hk3. destruct (is_err appended) eqn:Hae.
  { apply wp_ret, over_followed. eapply knows_weaken; [|exact Hk3]. intros st _ (Hp & Hs & _). split; [done|left; auto]. }
  set (R := fun st => present st ∧ started st). assert (stable R) as HR by (apply stable_and; [apply present_stable|apply started_stable]).
  assert (knows R s3) as HkR. { eapply knows_weaken; [|exact Hk3]. intros st _ (Hp & _ & Hs). split; [done|]. apply Hs. by destruct appended. }
  apply wp_bind. eapply wp_mono; [by apply (wp_ask_call R)|]. intros at_ s4 [Hk4 [m ->]].
  apply wp_bind. eapply wp_mono; [apply (wp_set_state R); [done|unfold R; intros st []; auto|exact Hk4]|]. intros moved s5 Hk5.
  destruct (is_err moved) eqn:Hme.
  { apply wp_ret, over_followed. eapply knows_weaken; [|exact Hk5]. intros st _ [[Hp _] Hs]. split; [done|]. apply Hs. by destruct moved. }
  apply wp_bind. eapply wp_mono; [apply (wp_signal present); [apply present_stable|by eapply knows_weaken; [|exact Hk5]; intros st _ [[Hp _] _]]|].
  intros u s6 Hk6. apply wp_bind. eapply wp_mono; [apply (wp_ask_call present); [apply present_stable|done]|]. intros u' s7 [Hk7 _].
  apply wp_ret. split; [by eapply knows_weaken; [|exact Hk7]|done].
Qed.

Lemma wp_after_failure attempt s :
  knows present s → 1 ≤ attempt ≤ 10 → wp (after_failure maxRuns maxEventsRun env around options request attempt) (followed attempt) s.
Proof using BC Hlimit Hothers Hlive Hid Hclock Hrecords Hevents Hcreated Hroot.
  intros Hk Ha. unfold after_failure. apply wp_bind. eapply wp_mono; [by apply (wp_lookup present); [apply present_stable|]|]. intros looked s1 (o & -> & Hk1).
  pose proof Hk1 as (st & _ & Hw & Hp & Ho). destruct o as [record|]; [|by destruct Hp as (r & Hr & _); congruence].
  destruct (present_framed _ _ Hw Hp Ho) as (_ & Hf & Hq). clear st Hw Hp Ho. cbn [found]. destruct (Terminal record) eqn:Ht.
  { apply wp_ret, over_followed. eapply knows_weaken; [|exact Hk1]. intros st _ [Hp Hr]. split; [done|]. by eapply settled_terminal. }
  set (P := if canceling record then over else present).
  assert (stable P) as HP by (unfold P; destruct (canceling record); [apply over_stable|apply present_stable]).
  assert (∀ s', knows P s' → knows present s') as Hweak.
  { intros s' Hk'. eapply knows_weaken; [|exact Hk']. unfold P. by destruct (canceling record); [intros st _ []|]. }
  assert (knows P s1) as HkP.
  { eapply knows_weaken; [|exact Hk1]. intros st _ [Hp Hr]. unfold P, canceling. destruct (String.eqb_spec (br_State record) "canceling"); [|done].
    split; [done|]. right. eauto. }
  assert (∀ state code message cleanup s', knows P s' → slices_Contains ["failed"; "canceled"] state = true → is_failure_code code = true →
    message ≠ "" → len message ≤ MaxEventMessageBytes →
    wp (_ ← appendSyntheticTerminal record state code message cleanup; mret None) (followed attempt) s') as Hend.
  { intros state code message cleanup s' Hk' Hs Hc Hm Hl. apply wp_bind. eapply wp_mono; [apply wp_appendSyntheticTerminal; auto|].
    intros u s2 Hk2. by apply wp_ret, over_followed, final_over. }
  destruct (canceling record && negb (br_Dispatched record)); [by apply Hend|]. apply wp_bind. eapply wp_mono; [by apply (wp_ask_call P)|]. clear Hk1 HkP s1.
  intros ended s1 [Hk1 _]. destruct (bool_decide _ || (attempt =? MaxAttempts options)) eqn:Hlast.
  - apply wp_bind. eapply wp_mono; [by apply (wp_ask_call P)|]. intros stopped s2 [Hk2 [n ->]]. rewrite Hroot.
    destruct (canceling record && br_Dispatched record) eqn:Hcd; [|by apply Hend]. apply andb_true_iff in Hcd as [Hcan _]. unfold P in Hk2. rewrite Hcan in Hk2.
    by apply wp_ret, over_followed.
  - apply orb_false_iff in Hlast as [_ Hlast%Z.eqb_neq]. apply wp_retry; auto.
Qed.

Lemma silent_append_event event : is_u64 (ev_Generation event) → preserves (quiet maxEventsRun) (emit_world maxRuns maxEventsRun env event).
Proof using BC Hlimit Hothers.
  intros Hu. unfold emit_world. apply silent_bind; [by apply silent_ask|]. intros at_. apply silent_try; [by apply silent_append|].
  intros a. apply silent_bind; [apply silent_record; intros ?; discriminate|]. intros. apply silent_ret.
Qed.

(** A terminal event that was taken is the run's result. *)
Lemma emit_stores event t w :
  is_u64 (ev_Generation event) → ev_Terminal event = Some t → db maxEventsRun (fun _ => True) (w_db w) →
  wp (emit_world maxRuns maxEventsRun env event) (fun r w' => is_ok r = true → db maxEventsRun (has_result t) (w_db w')) w.
Proof using BC Hlimit Hothers.
  intros Hu Ht Hdb. unfold emit_world. apply wp_bind. eapply wp_preserves; [by apply silent_ask|]. intros at_ w1 [Hl _].
  assert (db maxEventsRun (fun _ => True) (w_db w1)) as Hdb1 by (by eapply db_later; [apply always_stable| |exact Hdb]). apply wp_try.
  set (s1 := {| s_world := w1; s_memory := {| m_active := ∅; m_spawned := []; m_stopped := false; m_crashed := false |} |}).
  pose proof (wp_store_any (fun a => Appended a.1 a.2) (OpAppend event at_) (fun e tx => Append maxEventsRun None (env_commit e) event at_ tx) background
    (fun _ => True) s1 ltac:(done) Hu always_stable Hdb1) as Hst. unfold wp, on_world in Hst |- *. unfold append_world. cbn [s_world s1] in Hst.
  destruct (on_db _ _ _ _ w1) as [w2 [a|e]]; cbn [fst snd] in *; [|done]. destruct Hst as [(st' & Hr' & Hw' & _ & st & Hw & _ & _ & Hs) _]. intros _.
  cbn [spec] in Hs. unfold spec_append in Hs. destruct (_ || _) eqn:Hv; [done|]. apply orb_false_iff in Hv as [Hv _].
  assert (Event_Validate event = Ok tt) as Hv' by (by destruct (Event_Validate event) as [[]|]). destruct (event_terminal _ _ Hv' Ht) as (Hb & Hg & Hres).
  destruct (runs st !! _) as [r|]; [|done]. destruct (_ || negb (storable (record_event _ _ _))); [done|]. injection Hs as _ _ <-.
  eexists. split_and!; [exact Hr'|exact Hw'|]. eexists. rewrite Hb, Hg. split; [apply lookup_insert_eq|].
  unfold Terminal. cbn [br_State br_Result record_event ev_Terminal with_sequence]. rewrite Ht. split; [by apply result_state|done].
Qed.

Context (Hserves : Serves maxEventsRun runner).

(** The loop ends with the run settled, unless a panic ended the process. *)
Definition ended (s : State Tx) : Prop := m_crashed (s_memory s) = false → knows settled s.

Lemma over_ended s : knows over s → ended s.
Proof. intros Hk _. eapply knows_weaken; [|exact Hk]. by intros st _ []. Qed.

Lemma wp_attempts n attempt s :
  knows present s → 1 ≤ attempt → attempt + Z.of_nat n = MaxAttempts options + 1 → (0 < n)%nat → MaxAttempts options ≤ 10 →
  wp (attempts maxRuns maxEventsRun env around runner options request n attempt) (fun _ s' => ended s') s.
Proof using BC Hlimit Hothers Hlive Hid Hclock Hrecords Hevents Hcreated Hroot Hserves.
  revert attempt s. induction n as [|n IH]; intros attempt s Hk Ha Hn Hpos Hmax; [lia|]. cbn [attempts]. apply wp_bind. eapply wp_mono; [by apply wp_before_run|].
  intros ready s1 Hk1. destruct ready.
  2: { apply wp_ret, over_ended. eapply knows_weaken; [|exact Hk1]. intros st _ [Hp Hs]. split; auto. }
  apply wp_bind. apply (knows_weaken _ present) in Hk1; [|by intros st _ []]. unfold wp at 1, on_world.
  pose proof Hserves as [Hsr _]. pose proof (Hsr present request (emit_world maxRuns maxEventsRun env) (s_world s1) present_stable ltac:(by destruct Hid as (_ & _ & ?)) silent_append_event emit_stores Hk1) as Hrun.
  unfold wp in Hrun. destruct (r_Run runner request _ (s_world s1)) as [w outcome] eqn:Hrw. cbn [fst snd] in *. destruct Hrun as [Hk2 Hout].
  set (s2 := {| s_world := w; s_memory := s_memory s1 |}). assert (knows present s2) as Hk2' by exact Hk2.
  destruct (panicked outcome) eqn:Hpan; [by intros ?|]. destruct outcome as [result|e].
  - apply wp_bind. eapply wp_mono; [by apply (wp_lookup present); [apply present_stable|]|]. intros looked s3 (o & -> & Hk3). cbn [found].
    pose proof Hk3 as (st & _ & Hw & Hp & Ho). destruct o as [record|]; [|by destruct Hp as (r & Hr & _); congruence].
    destruct (present_framed _ _ Hw Hp Ho) as (_ & Hf & Hq). clear st Hw Hp Ho. destruct (Terminal record) eqn:Ht.
    { apply wp_ret. intros _. eapply knows_weaken; [|exact Hk3]. intros st _ [_ Hr]. by eapply settled_terminal. }
    apply wp_bind. destruct Hout as (Hv & Hb & Hg).
    eapply wp_mono; [apply wp_appendTerminal; try done; by eapply knows_weaken; [|exact Hk3]; intros st _ []|]. intros u s4 Hk4. by apply wp_ret, over_ended, final_over.
  - apply wp_bind. eapply wp_mono; [apply wp_after_failure; [done|lia]|]. intros next s3 [Hk3 Hnext]. destruct next as [[]|].
    + apply IH; [by eapply knows_weaken; [|exact Hk3]; intros st _ []|lia|lia| |done]. specialize (Hnext eq_refl). lia.
    + apply wp_ret, over_ended. eapply knows_weaken; [|exact Hk3]. intros st _ [Hp Hs]. split; auto.
Qed.

Lemma wp_execute initial key s :
  knows present s → br_Request initial = request → 1 ≤ MaxAttempts options ≤ 10 →
  wp (execute maxRuns maxEventsRun env around runner options initial key) (fun _ s' => ended s') s.
Proof using BC Hlimit Hothers Hlive Hid Hclock Hrecords Hevents Hcreated Hroot Hserves.
  intros Hk Hq Hmax. unfold execute. apply wp_bind. rewrite Hq. eapply wp_mono; [apply wp_attempts; [done|lia..]|]. intros u s1 He.
  apply wp_bind, wp_get. destruct (m_crashed (s_memory s1)) eqn:Hc; [apply wp_ret; intros ?; congruence|].
  eapply wp_mono; [apply (wp_locked settled); [apply settled_stable|by apply He]|]. intros u' s2 Hk2 _. done.
Qed.

(** ** Crashes *)

(** The process goes on as it was. *)
Definition uncrashed (s s' : State Tx) : Prop := m_crashed (s_memory s') = m_crashed (s_memory s).

#[local] Instance uncrashed_preorder : PreOrder uncrashed.
Proof. split; [by intros s|]. unfold uncrashed. intros s1 s2 s3. congruence. Qed.

Lemma uncrashed_world {A} (m : program (World Tx) A) : preserves uncrashed (on_world m).
Proof. intros s. unfold on_world. by destruct (m (s_world s)). Qed.

Lemma uncrashed_locked {A} (f : memory → memory * A) :
  (∀ m, m_crashed (f m).1 = m_crashed m) → preserves uncrashed (locked maxRuns maxEventsRun env around f).
Proof.
  intros Hf. unfold locked. apply preserves_bind; [apply uncrashed_preorder|apply uncrashed_world|]. intros _ s. unfold state. set (m := {| m_active := _ |}).
  specialize (Hf m). by destruct (f m) as [m' a].
Qed.

Ltac uncrashed :=
  repeat first
    [ progress intros | apply preserves_bind; [apply uncrashed_preorder|..] | apply uncrashed_world | apply (preserves_ret uncrashed)
    | case_match ].

Lemma uncrashed_appendTerminal record result : preserves uncrashed (appendTerminal record result).
Proof. unfold Broker.appendTerminal, try. uncrashed. Qed.

Lemma uncrashed_after_failure attempt : preserves uncrashed (after_failure maxRuns maxEventsRun env around options request attempt).
Proof.
  unfold after_failure, retry, Broker.appendSyntheticTerminal. uncrashed; apply uncrashed_appendTerminal.
Qed.

Context (Hsafe : ∀ w, panicked (r_Run runner request (emit_world maxRuns maxEventsRun env) w).2 = false).

Lemma uncrashed_run {A} (k : Prelude.result Result → M A) :
  (∀ outcome, panicked outcome = false → preserves uncrashed (k outcome)) →
  preserves uncrashed (outcome ← on_world (r_Run runner request (emit_world maxRuns maxEventsRun env)); k outcome).
Proof using Hsafe.
  intros Hk s. unfold mbind, program_bind, on_world. specialize (Hsafe (s_world s)). destruct (r_Run runner request _ (s_world s)) as [w outcome].
  exact (Hk outcome Hsafe {| s_world := w; s_memory := s_memory s |}).
Qed.

(** The process crashes only when the runner panics. *)
Lemma uncrashed_attempts n attempt : preserves uncrashed (attempts maxRuns maxEventsRun env around runner options request n attempt).
Proof using Hsafe.
  revert attempt. induction n as [|n IH]; intros attempt; cbn [attempts]; [apply (preserves_ret uncrashed)|].
  apply preserves_bind; [apply uncrashed_preorder|unfold before_run; uncrashed|]. intros []; [|apply (preserves_ret uncrashed)].
  apply uncrashed_run. intros outcome ->. destruct outcome as [result|e].
  - apply preserves_bind; [apply uncrashed_preorder|apply uncrashed_world|]. intros looked. destruct (found looked) as [record|]; [|apply (preserves_ret uncrashed)].
    destruct (Terminal record); [apply (preserves_ret uncrashed)|]. apply preserves_bind; [apply uncrashed_preorder|apply uncrashed_appendTerminal|]. intros. apply (preserves_ret uncrashed).
  - apply preserves_bind; [apply uncrashed_preorder|apply uncrashed_after_failure|]. intros [[]|]; [apply IH|apply (preserves_ret uncrashed)].
Qed.

Lemma uncrashed_execute initial key : br_Request initial = request → preserves uncrashed (execute maxRuns maxEventsRun env around runner options initial key).
Proof using Hsafe.
  intros Hq. unfold execute. rewrite Hq. apply preserves_bind; [apply uncrashed_preorder|apply uncrashed_attempts|]. intros _.
  apply preserves_bind; [apply uncrashed_preorder|apply (preserves_get uncrashed)|]. intros []; [apply (preserves_ret uncrashed)|]. by apply uncrashed_locked.
Qed.

(** ** Cancellation *)

Abbreviation key := (brokerRunKey (rq_BuildID request) (rq_Generation request)).

Lemma request_deadline : (∃ st, wf maxEventsRun st ∧ present st) → is_Some (ParseRFC3339Nano (rq_Deadline request)).
Proof.
  intros (st & Hw & Hp). pose proof Hp as (r & Hr & _). destruct (present_framed _ _ Hw Hp Hr) as (_ & Hf & Hq). pose proof (framed_request _ _ Hf) as Hv.
  rewrite Hq in Hv. unfold Request_Validate in Hv. destruct (ParseRFC3339Nano (rq_Deadline request)); [done|]. exfalso. run_ok Hv.
Qed.

(** A run that is started is active. *)
Lemma wp_start record s :
  knows present s → br_Request record = request → Terminal record = false →
  wp (start maxRuns maxEventsRun env around record) (fun _ s' => is_Some (m_active (s_memory s') !! key)) s.
Proof using BC Hlimit Hothers.
  intros Hk Hq Ht. destruct request_deadline as [deadline Hd]; [by destruct Hk as (st & _ & Hw & Hp); eauto|].
  unfold start. rewrite Hq, Hd, Ht. do 3 (apply wp_bind; eapply wp_mono; [apply (wp_ask_call present); [apply present_stable|exact Hk]|]; clear s Hk; intros ? s [Hk _]).
  apply wp_state. cbn [s_memory m_active]. case_bool_decide as Hin; cbn [orb fst snd s_memory]; [exact Hin|].
  cbn [go with_active m_active]. rewrite lookup_insert_eq. by eexists.
Qed.

(** What was done from one state to another. *)
Definition did (s s' : State Tx) (tr : list action) : Prop := w_trace (s_world s') = w_trace (s_world s) ++ tr.

Lemma did_store {A} (f : BrokerRefinement.Env → Tx → Tx * A) s : did s (on_world (on_db maxRuns maxEventsRun env f) s).1 [].
Proof. unfold did, on_world, on_db, state. by destruct (f _ _) as [tx a]; cbn; rewrite app_nil_r. Qed.

Lemma did_call {A} (f : nat → A) s : did s (call maxRuns maxEventsRun env f s).1 [].
Proof. unfold did. by rewrite app_nil_r. Qed.

Lemma did_start record s : did s (start maxRuns maxEventsRun env around record s).1 [].
Proof.
  unfold did, start, locked, mbind, program_bind, now, call, on_world, ask, state. cbn. repeat case_match; simplify_eq; cbn; by rewrite app_nil_r.
Qed.

Lemma did_trans s1 s2 s3 tr tr' : did s1 s2 tr → did s2 s3 tr' → did s1 s3 (tr ++ tr').
Proof. unfold did. intros -> ->. by rewrite app_assoc. Qed.

(** From [s0] on: the run is closed, or the cell accepted its cancellation and it runs on
    to its end. *)
Definition accepted_since (s0 s : State Tx) : Prop := ∃ tr, did s0 s tr ∧ CanceledInCell (rq_BuildID request) (rq_Generation request) ∈ tr.
Definition reconciled (s0 s : State Tx) : Prop := knows closed s ∨ accepted_since s0 s ∧ is_Some (m_active (s_memory s) !! key).

Lemma wp_also {A} (m : M A) (Q R : A → State Tx → Prop) s : wp m Q s → R (m s).2 (m s).1 → wp m (fun a s' => Q a s' ∧ R a s') s.
Proof. unfold wp. auto. Qed.

Lemma final_reconciled s0 s : knows final s → reconciled s0 s.
Proof. intros Hk. left. eapply knows_weaken; [|exact Hk]. by intros st _ []. Qed.

Lemma terminal_reconciled record s0 s : knows (fun st => present st ∧ runs st !! id = Some record) s → Terminal record = true → reconciled s0 s.
Proof. intros Hk Ht. left. eapply knows_weaken; [|exact Hk]. intros st _ [_ Hr]. exists record. auto. Qed.

Lemma wp_retry_cancellation record reason ticks s0 tr0 s :
  knows present s → br_Request record = request → did s0 s tr0 →
  wp (retry_cancellation maxRuns maxEventsRun env around runner record reason ticks) (fun _ s' => reconciled s0 s') s.
Proof using BC Hlimit Hothers Hlive Hid Hclock Hrecords Hevents Hcreated Hroot Hserves.
  intros Hk Hq. revert s tr0 Hk. induction ticks as [|ticks IH]; intros s tr0 Hk Hd; cbn [retry_cancellation]; rewrite Hq.
  all: apply wp_bind; (eapply wp_mono; [eapply (wp_also _ _ (fun _ s1 => did s s1 [])); [by apply (wp_lookup present); [apply present_stable|]|apply did_store]|]).
  all: intros looked s1 [(o & -> & Hk1) Hd1]; cbn [found]; pose proof (did_trans _ _ _ _ _ Hd Hd1) as Hd2.
  all: pose proof Hk1 as (st & _ & Hw & Hp & Ho); (destruct o as [current|]; [|by destruct Hp as (r & Hr & _); congruence]).
  all: destruct (present_framed _ _ Hw Hp Ho) as (_ & Hf & Hqc); clear st Hw Hp Ho.
  all: destruct (Terminal current) eqn:Ht; [by apply wp_ret; eapply terminal_reconciled|].
  all: apply (knows_weaken _ present) in Hk1; [|by intros st _ []]; apply wp_bind; unfold wp at 1, on_world.
  all: pose proof Hserves as [_ Hsc Hacc]; specialize (Hacc (rq_BuildID request) (rq_Generation request) reason (s_world s1)); pose proof (Hsc present (rq_BuildID request) (rq_Generation request) reason (s_world s1) present_stable Hk1) as Hcancel.
  all: unfold wp in Hcancel, Hacc; destruct (r_Cancel runner _ _ _ (s_world s1)) as [w accepted]; cbn [fst snd] in *; destruct Hacc as (tr1 & Hw1 & Hacc).
  all: set (s2 := {| s_world := w; s_memory := s_memory s1 |}); assert (knows present s2) as Hk2 by exact Hcancel.
  all: pose proof (did_trans s0 s1 s2 _ tr1 Hd2 Hw1) as Hd3.
  all: destruct (match accepted with Ok a => a | Err _ => false end) eqn:Ha.
  1, 3: eapply wp_mono; [eapply (wp_also _ _ (fun _ s3 => did s2 s3 [])); [by apply wp_start|apply did_start]|]; intros u s3 [Hs3 Hd4]; right; (split; [|done]).
  1, 2: eexists; split; [exact (did_trans _ _ _ _ _ Hd3 Hd4)|]; destruct accepted as [[]|]; try done; rewrite !elem_of_app; auto.
  all: apply wp_bind; (eapply wp_mono; [eapply (wp_also _ _ (fun _ s3 => did s2 s3 [])); [apply (wp_ask_call present); [apply present_stable|exact Hk2]|apply did_call]|]).
  all: intros stopped s3 [[Hk3 [n ->]] Hd4]; rewrite Hroot.
  - apply wp_bind. eapply wp_mono; [by apply wp_appendSyntheticTerminal|]. intros u s4 Hk4. by apply wp_ret, final_reconciled.
  - eapply IH; [done|]. exact (did_trans _ _ _ _ _ Hd3 Hd4).
Qed.

Lemma wp_reconcile record reason ticks s :
  knows present s → br_Request record = request →
  wp (reconcileLocalCancellation maxRuns maxEventsRun env around runner record reason ticks) (fun _ s' => reconciled s s') s.
Proof using BC Hlimit Hothers Hlive Hid Hclock Hrecords Hevents Hcreated Hroot Hserves.
  intros Hk Hq. unfold reconcileLocalCancellation. apply wp_bind.
  eapply wp_mono; [eapply (wp_also _ _ (fun _ s1 => did s s1 [])); [apply (wp_ask_call present); [apply present_stable|done]|apply did_call]|].
  intros stopped s1 [[Hk1 [n ->]] Hd1]. rewrite Hroot, Hq. apply wp_bind.
  eapply wp_mono; [eapply (wp_also _ _ (fun _ s2 => did s1 s2 [])); [by apply (wp_lookup present); [apply present_stable|]|apply did_store]|].
  intros looked s2 [(o & -> & Hk2) Hd2]. apply (did_trans _ _ _ _ _ Hd1) in Hd2. cbn [found]. pose proof Hk2 as (st & _ & Hw & Hp & Ho). destruct o as [current|]; [|by destruct Hp as (r & Hr & _); congruence].
  destruct (present_framed _ _ Hw Hp Ho) as (_ & Hf & Hqc). clear st Hw Hp Ho. destruct (Terminal current) eqn:Ht; [by apply wp_ret; eapply terminal_reconciled|].
  apply (knows_weaken _ present) in Hk2; [|by intros st _ []]. destruct (br_Dispatched current).
  - unfold retryDispatchedCancellation. apply wp_bind, wp_ret. by eapply wp_retry_cancellation.
  - apply wp_bind. eapply wp_mono; [by apply wp_appendSyntheticTerminal|]. intros u s3 Hk3. by apply wp_ret, final_reconciled.
Qed.

End Goroutines.

End BrokerLaws.
