(* ===== verification/BrokerRuns.v ===== *)
(** * Runs of the build service

    What the broker, the orchestrator and their store guarantee together, said of a
    database that any calls of the store made from an empty one: one assignment for a
    build generation over any number of runs, results that are durable, runs that end,
    cancellations that stay, watchers that miss nothing. *)

From S2P Require Import Prelude StateMonad Text GoStd GoTime GoURL Crypto PlatformID Storage CanonicalJSON Assignment BuildWorker BuildRequest BrokerStore BrokerKeys BrokerSpec BrokerRefinement BrokerHistory Orchestrator OrchestratorLaws Broker BrokerLaws.
Import StateMonad GoStd GoTime GoURL Crypto PlatformID Storage BuildRequest BrokerStore BrokerKeys BrokerSpec BrokerRefinement BrokerHistory Orchestrator OrchestratorLaws Broker BrokerLaws.

Open Scope Z_scope.

Module BrokerRuns.

Section Runs.
Context `{GoText} `{!NetURL} `{!Codec Request} `{!Codec RunRecord} `{!Codec Event} `{!Codec Checkpoint}
  `{!Codec Assignment.Payload} `{!Codec Assignment.Envelope} `{!Codec Result} `{!Ed25519} `{!PublicKeys}.
Context `{!Codec (string * string)} `{!Codec (gmap string string)}.
Context {Tx : Type} `{!BoltTx Tx} `{BC : !BoltCursor Tx} (maxRuns maxEventsRun : Z).

(** ** Databases *)

(** What calls of the store, with faults anywhere, made of an empty database. *)
Definition reached (tx : Tx) : Prop :=
  ∃ tx0 calls, empty_database tx0 ∧ Forall (fun call => well_typed call.2) calls ∧ (run_calls maxRuns maxEventsRun tx0 calls).1 = tx.

(** The surroundings use the store only by its operations. *)
Definition fair (env : Env) : Prop := ∀ n, Forall (fun call => well_typed call.2) (e_other env n).

(** encoding/json never writes an empty text. *)
Definition writes_json : Prop := ∀ (e : Assignment.Envelope) c, marshal e = Some c → c ≠ "".

Section Limited.
Context (Hlimit : maxEventsRun ≤ 10000000).

Lemma reached_db tx : reached tx → db maxEventsRun (fun _ => True) tx.
Proof using BC Hlimit.
  intros (tx0 & calls & He & Hc & <-). destruct (run_calls maxRuns maxEventsRun tx0 calls) as [tx' log] eqn:Hrun.
  destruct (history_from_empty _ _ Hlimit _ _ _ _ He Hc Hrun) as (st & _ & Hr & Hw). by exists st.
Qed.

Abbreviation Run env options := (Orchestrator.Run maxRuns maxEventsRun env options (emit_world maxRuns maxEventsRun env)).

(** The assignments a run dispatched. *)
Definition dispatched_in (w w' : World Tx) (e : Assignment.Envelope) : Prop := Dispatched e ∈ drop (length (w_trace w)) (w_trace w').

Lemma run_outcome env options request F w :
  fair env → writes_json → is_u64 (rq_Generation request) → stable F → db maxEventsRun F (w_db w) →
  wp (Run env options request) (outcome maxEventsRun request F (length (w_trace w))) w.
Proof using BC Hlimit.
  intros Hfair Hjson Hu HF Hdb. apply wp_run_build; try done.
  - intros event He. by apply silent_append_event.
  - intros event t w' He Ht Hw'. by apply emit_stores.
  - by apply inv_initial.
Qed.

(** What was dispatched is in the store. *)
Definition kept (id : string * Z) (w w' : World Tx) (st : broker) : Prop := ∀ e, dispatched_in w w' e → encodable e ∧ assigned id e st.

Lemma kept_stable id w w' : stable (kept id w w').
Proof. intros st st' E Hk e He. destruct (Hk e He) as [Hen Ha]. split; [done|]. by eapply assigned_stable. Qed.

Lemma run_keeps env options request F w :
  fair env → writes_json → is_u64 (rq_Generation request) → stable F → db maxEventsRun F (w_db w) →
  let w' := (Run env options request w).1 in
  db maxEventsRun (fun st => F st ∧ kept (rq_BuildID request, rq_Generation request) w w' st) (w_db w').
Proof using BC Hlimit.
  intros Hfair Hjson Hu HF Hdb w'. destruct (run_outcome env options request F w Hfair Hjson Hu HF Hdb) as [(_ & st & Hr & Hw & HFst & Hd & _) _].
  exists st. by split_and!.
Qed.

Lemma kept_loads id w w' e tx st : represents tx st → wf maxEventsRun st → kept id w w' st → dispatched_in w w' e →
  ∃ c, Load None id.1 id.2 tx = Ok (Some c) ∧ signed c = true ∧ cp_Envelope c = e.
Proof.
  intros Hr Hw Hk He. destruct (Hk e He) as [Hen Ha]. destruct (Ha Hen) as (c & Hc & Hs & Hce). exists c. split_and!; [|done..]. destruct id as [b g].
  destruct (holds_dom _ _ _ (rep_checkpoints _ _ Hr) _ _ _ Hc) as (Hid & _). cbn [fst snd]. by rewrite (Load_represents _ _ _ _ Hr Hid), Hc.
Qed.

(** C3: Over two runs of a build generation, whatever happens between them, the build cell is
    handed only the assignment that the store holds in the end. *)
Theorem one_assignment env1 env2 options1 options2 request1 request2 w1 w2 calls :
  fair env1 → fair env2 → writes_json → reached (w_db w1) → is_u64 (rq_Generation request1) →
  rq_BuildID request2 = rq_BuildID request1 → rq_Generation request2 = rq_Generation request1 →
  let w1' := (Run env1 options1 request1 w1).1 in
  Forall (fun call => well_typed call.2) calls → w_db w2 = (run_calls maxRuns maxEventsRun (w_db w1') calls).1 →
  let w2' := (Run env2 options2 request2 w2).1 in
  ∀ e, dispatched_in w1 w1' e ∨ dispatched_in w2 w2' e →
    ∃ c, Load None (rq_BuildID request1) (rq_Generation request1) (w_db w2') = Ok (Some c) ∧ signed c = true ∧ cp_Envelope c = e.
Proof using BC Hlimit.
  intros Hf1 Hf2 Hjson Hre Hu Eb Eg w1' Hc Hw2 w2' e He. set (id := (rq_BuildID request1, rq_Generation request1)).
  pose proof (run_keeps env1 options1 request1 (fun _ => True) w1 Hf1 Hjson Hu always_stable (reached_db _ Hre)) as Hk1.
  assert (db maxEventsRun (kept id w1 w1') (w_db w2)) as Hk2.
  { rewrite Hw2. eapply (db_later _ (kept id w1 w1')); [apply kept_stable|by apply run_calls_later|]. destruct Hk1 as (st & Hr & Hw & _ & Hk). by exists st. }
  destruct (run_keeps env2 options2 request2 _ w2 Hf2 Hjson ltac:(by rewrite Eg) (kept_stable id w1 w1') Hk2) as (st & Hr & Hw & Hka & Hkb).
  rewrite Eb, Eg in Hkb. by destruct He as [He|He]; [eapply (kept_loads id w1)|eapply (kept_loads id w2)].
Qed.

(** C6: A result a run returned is valid, is the run's result in the store from then on, and
    when it is complete, it is that of the assignment the store holds. *)
Theorem result_durable env options request w calls w' final :
  fair env → writes_json → reached (w_db w) → is_u64 (rq_Generation request) → Run env options request w = (w', Ok final) →
  Forall (fun call => well_typed call.2) calls →
  let tx := (run_calls maxRuns maxEventsRun (w_db w') calls).1 in
  Result_Validate final = Ok tt ∧
  (∃ r, Lookup None (rq_BuildID request) (rq_Generation request) tx = Ok (Some r) ∧ Terminal r = true ∧ br_Result r = Some final) ∧
  (re_State final = "complete" → ∃ c, Load None (rq_BuildID request) (rq_Generation request) tx = Ok (Some c) ∧ signed c = true ∧
     digestCanonicalPayload (Assignment.e_Payload (cp_Envelope c)) = re_AssignmentDigest final).
Proof using BC Hlimit.
  intros Hfair Hjson Hre Hu Hrun Hc tx. pose proof (run_calls_later maxRuns maxEventsRun Hlimit (w_db w') calls Hc) as Hl.
  destruct (run_outcome env options request (fun _ => True) w Hfair Hjson Hu always_stable (reached_db _ Hre)) as [Hi Hs]. rewrite Hrun in Hi, Hs. cbn [fst snd] in Hi, Hs.
  destruct Hs as [Hv [Hb Hg] Hst _ Hd]. split_and!; [done| |].
  - apply (db_later maxEventsRun _ _ _ (has_result_stable final) Hl) in Hst as (st & Hr & Hw & r & Hrun' & Ht & Hres). rewrite Hb, Hg in Hrun'.
    exists r. split_and!; [|done..]. destruct (wf_runs _ _ Hw _ _ _ Hrun') as (Hid & _). unfold tx. by rewrite (Lookup_represents _ _ _ _ Hr Hid), Hrun'.
  - intros Hcomplete. destruct (Hd Hcomplete) as (e & [_ He] & <-). destruct Hi as (_ & st & Hr & Hw & _ & Hk & _).
    assert (db maxEventsRun (kept (rq_BuildID request, rq_Generation request) w w') tx) as (st' & Hr' & Hw' & Hk').
    { eapply (db_later _ (kept _ w w')); [apply kept_stable|exact Hl|]. exists st. by split_and!. }
    destruct (kept_loads _ _ _ e _ _ Hr' Hw' Hk' He) as (c & Hload & Hsg & <-). by exists c.
Qed.

(** ** The broker *)

Context (env : Env) (around : Surroundings) (runner : Runner (World Tx)) (options : BrokerOptions).

(** The clock runs from [created] on, within the years RFC 3339 can write. *)
Definition clock_from (created : Time) : Prop :=
  in_calendar created ∧ ∀ n, in_calendar (e_clock env n) ∧ created ≤ e_clock env n ∧ 0 < e_clock env n ∧ e_clock env n ≤ e_clock env (S n).

(** What is valid has an encoding. *)
Definition encodes : Prop :=
  (∀ r : RunRecord, RunRecord_Validate r = Ok tt → is_Some (marshal r)) ∧ (∀ e : Event, Event_Validate e = Ok tt → is_Some (marshal e)).

(** The store answers, and the broker is not being closed. *)
Definition serving : Prop := live (Tx := Tx) env ∧ ∀ n, b_root around n = false.

Lemma lookup_present tx b g r created :
  reached tx → is_u64 g → Lookup None b g tx = Ok (Some r) → ParseRFC3339Nano (br_CreatedAt r) = Some created →
  run_id b g ∧ db maxEventsRun (present (br_Request r) created) tx.
Proof using BC Hlimit.
  intros Hre Hu Hl Hc. destruct (reached_db _ Hre) as (st & Hr & Hw & _).
  assert (run_id b g) as Hid.
  { unfold Lookup in Hl. destruct (validateBrokerIdentity b g) eqn:Hv; [|done]. apply validateBrokerIdentity_ok; [by rewrite Hv|done]. }
  rewrite (Lookup_represents _ _ _ _ Hr Hid) in Hl. injection Hl as Hl. pose proof (run_key _ _ _ _ _ Hw Hl) as [= Eb Eg].
  split_and!; [done..|]. exists st. split_and!; [done..|]. exists r. rewrite Eb, Eg. by split_and!.
Qed.

(** What the store says of a run that is closed. *)
Lemma closed_lookup request s : run_id (rq_BuildID request) (rq_Generation request) → knows maxEventsRun (closed maxEventsRun request) s →
  ∃ r, Lookup None (rq_BuildID request) (rq_Generation request) (w_db (s_world s)) = Ok (Some r) ∧ (Terminal r = true ∨ maxEventsRun ≤ br_LastSequence r).
Proof.
  intros Hid (st & Hr & Hw & r & Hrun & Hs). exists r. rewrite (Lookup_represents _ _ _ _ Hr Hid), Hrun. split; [done|].
  destruct (wf_runs _ _ Hw _ _ _ Hrun) as (_ & _ & Hwf). by rewrite (run_last _ _ _ Hwf).
Qed.

Lemma settled_lookup request s : run_id (rq_BuildID request) (rq_Generation request) → knows maxEventsRun (settled maxEventsRun request) s →
  ∃ r, Lookup None (rq_BuildID request) (rq_Generation request) (w_db (s_world s)) = Ok (Some r) ∧
    (Terminal r = true ∨ br_State r = "canceling" ∨ maxEventsRun ≤ br_LastSequence r).
Proof.
  intros Hid (st & Hr & Hw & [Hc|(r & Hrun & Hc)]).
  - destruct (closed_lookup request s Hid) as (r & Hl & Hs); [by exists st|]. exists r. split; [done|]. tauto.
  - exists r. rewrite (Lookup_represents _ _ _ _ Hr Hid), Hrun. auto.
Qed.

Lemma broker_attempts given : NewBroker true given = Ok options → 1 ≤ MaxAttempts options ≤ 10.
Proof. unfold NewBroker. cbn [negb]. destruct (_ || _ || _ || _) eqn:E; [done|]. intros [= <-]. cbn. bsimpl. lia. Qed.

(** C14: While the store answers and the broker is not closed, [execute] leaves its run
    terminal, or being canceled, or with a log that takes no more events, unless this
    execution crashed the process; and a runner that does not panic does not crash it. *)
Theorem execute_settles given initial key created s :
  fair env → encodes → serving → Serves maxEventsRun runner → NewBroker true given = Ok options → clock_from created →
  reached (w_db (s_world s)) →
  let b := rq_BuildID (br_Request initial) in
  let g := rq_Generation (br_Request initial) in
  is_u64 g → Lookup None b g (w_db (s_world s)) = Ok (Some initial) → ParseRFC3339Nano (br_CreatedAt initial) = Some created →
  m_crashed (s_memory s) = false →
  let s' := (execute maxRuns maxEventsRun env around runner options initial key s).1 in
  (m_crashed (s_memory s') = false →
   ∃ r, Lookup None b g (w_db (s_world s')) = Ok (Some r) ∧ (Terminal r = true ∨ br_State r = "canceling" ∨ maxEventsRun ≤ br_LastSequence r)) ∧
  ((∀ w, panicked (r_Run runner (br_Request initial) (emit_world maxRuns maxEventsRun env) w).2 = false) → m_crashed (s_memory s') = false).
Proof using BC Hlimit.
  intros Hfair [Hr He] [Hlive Hroot] Hserves Hnew [Hcal Hclock] Hre b g Hu Hl Hc Hcrash s'.
  destruct (lookup_present _ _ _ _ created Hre Hu Hl Hc) as (Hid & Hp). split.
  - intros Hok. apply settled_lookup; [done|].
    by apply (wp_execute maxRuns maxEventsRun Hlimit env around runner options Hfair _ created Hid Hcal Hclock Hr He Hlive Hroot Hserves initial key s
      Hp eq_refl (broker_attempts _ Hnew)).
  - intros Hsafe. rewrite <- Hcrash. by apply (uncrashed_execute maxRuns maxEventsRun env around runner options (br_Request initial) Hsafe initial key).
Qed.

(** C15: Reconciling the cancellation of a run, while the store answers and the broker is
    not closed, leaves the run terminal or with a log that takes no more events; or
    during this call the build cell accepted the cancellation, and the run is then
    executing. *)
Theorem cancellation_settles reason record created ticks s :
  fair env → encodes → serving → Serves maxEventsRun runner → clock_from created → reached (w_db (s_world s)) →
  let b := rq_BuildID (br_Request record) in
  let g := rq_Generation (br_Request record) in
  is_u64 g → Lookup None b g (w_db (s_world s)) = Ok (Some record) → ParseRFC3339Nano (br_CreatedAt record) = Some created →
  let s' := (reconcileLocalCancellation maxRuns maxEventsRun env around runner record reason ticks s).1 in
  (∃ r, Lookup None b g (w_db (s_world s')) = Ok (Some r) ∧ (Terminal r = true ∨ maxEventsRun ≤ br_LastSequence r)) ∨
  (∃ tr, w_trace (s_world s') = w_trace (s_world s) ++ tr ∧ CanceledInCell b g ∈ tr) ∧ is_Some (m_active (s_memory s') !! brokerRunKey b g).
Proof using BC Hlimit.
  intros Hfair [Hr He] [Hlive Hroot] Hserves [Hcal Hclock] Hre b g Hu Hl Hc s'.
  destruct (lookup_present _ _ _ _ created Hre Hu Hl Hc) as (Hid & Hp).
  pose proof (wp_reconcile maxRuns maxEventsRun Hlimit env around runner Hfair _ created Hid Hcal Hclock Hr He Hlive Hroot Hserves record reason ticks s
    Hp eq_refl) as [Hk|Ha]; [left; by apply closed_lookup|by right].
Qed.

(** A cancellation the broker accepted stays: from then on the run is being canceled or
    terminal, whatever fails during the call or happens later. *)
Theorem broker_cancel_durable b g reason s calls :
  fair env → Serves maxEventsRun runner → reached (w_db (s_world s)) → is_u64 g → Forall (fun call => well_typed call.2) calls →
  let '(s', answer) := Cancel maxRuns maxEventsRun env around runner b g reason s in
  is_ok answer = true →
  ∃ r, Lookup None b g (run_calls maxRuns maxEventsRun (w_db (s_world s')) calls).1 = Ok (Some r) ∧ (br_State r = "canceling" ∨ Terminal r = true).
Proof using BC Hlimit.
  intros Hfair Hserves Hre Hu Hc.
  pose proof (wp_Cancel maxRuns maxEventsRun Hlimit env around runner Hfair b g reason s Hserves Hu (reached_db _ Hre)) as Hk. unfold wp in Hk.
  destruct (Cancel maxRuns maxEventsRun env around runner b g reason s) as [s' answer]. cbn [fst snd] in Hk. intros Hok. specialize (Hk Hok).
  apply (db_later maxEventsRun _ _ _ (canceled_stable b g) (run_calls_later maxRuns maxEventsRun Hlimit _ calls Hc)) in Hk as (st & Hr & Hw & r & Hrun & Hs).
  exists r. destruct (wf_runs _ _ Hw _ _ _ Hrun) as (Hid & _). by rewrite (Lookup_represents _ _ _ _ Hr Hid), Hrun.
Qed.

(** The log of a run in a database. *)
Definition log_of (b : string) (g : Z) (tx : Tx) (events : list Event) : Prop := ∃ st, represents tx st ∧ wf maxEventsRun st ∧ events_of st (b, g) = events.

(** C36: A watcher misses nothing.  For a number below the largest one, what [Watch]
    returns without an error are exactly the first [limit] events after that number in
    the log of the run, as it was at some moment of the call; they carry the run's
    identity and the numbers that follow, and the record is one the stored record
    extends. *)
Theorem watch_exact b g after limit wait notifications last s :
  fair env → reached (w_db (s_world s)) → is_u64 g → 0 ≤ after < 2 ^ 64 - 1 → run_id b g →
  let '(s', answer) := Watch maxRuns maxEventsRun env b g after limit wait notifications last s in
  ∀ events record, answer = Ok (events, record) →
    (∃ before seen log, log_of b g (w_db (s_world s)) before ∧ log_of b g (w_db (s_world s')) log ∧ before `prefix_of` seen ∧ seen `prefix_of` log ∧
       events = take (Z.to_nat (if limit =? 0 then DefaultWatchLimit else limit)) (drop (Z.to_nat after) seen)) ∧
    (∃ r, Lookup None b g (w_db (s_world s')) = Ok (Some r) ∧ run_extends record r) ∧
    ∀ i e, events !! i = Some e → ev_BuildID e = b ∧ ev_Generation e = g ∧ ev_Sequence e = after + Z.of_nat i + 1.
Proof using BC Hlimit.
  intros Hfair Hre Hu Ha Hid. unfold Watch. destruct (_ || _); [done|]. set (limit' := if limit =? 0 then _ else _).
  destruct (reached_db _ Hre) as (st0 & Hr0 & Hw0 & _).
  pose proof (wp_watch maxRuns maxEventsRun Hlimit env Hfair b g after limit' (events_of st0 (b, g)) (negb (wait =? 0)) notifications last s Hu Ha
    ltac:(exists st0; split_and!; [exact Hr0|exact Hw0|exact (reflexivity (events_of st0 (b, g)))])) as Hk. unfold wp in Hk.
  destruct (watch _ _ _ _ _ _ _ _ _ _ s) as [s' answer]. cbn [fst snd] in Hk. intros events record ->.
  destruct Hk as (st & Hr & Hw & (seen & Hb & Hs & Hev) & (r & Hrun & Hx)). split_and!.
  - exists (events_of st0 (b, g)), seen, (events_of st (b, g)). split_and!; [by exists st0|by exists st|done..].
  - exists r. by rewrite (Lookup_represents _ _ _ _ Hr Hid), Hrun.
  - intros i e Hi. destruct (wf_runs _ _ Hw _ _ _ Hrun) as (_ & _ & Hwf). rewrite Hev in Hi. apply lookup_take_Some in Hi as [Hi _]. rewrite lookup_drop in Hi.
    pose proof (prefix_lookup_Some _ _ _ _ Hi Hs) as Hlog. destruct (run_numbered _ _ _ Hwf _ _ Hlog) as (_ & ? & ? & ?). split_and!; [done..|]. lia.
Qed.

End Limited.

End Runs.

End BrokerRuns.
