(* ===== verification/BrokerExample.v ===== *)
(** * An example of the build service

    A request, its run and its checkpoint on a concrete database, which the theorems
    about the broker's store, the orchestrator and the broker apply to. *)

From S2P Require Import Prelude StateMonad Text GoStd GoTime GoURL Crypto PlatformID Storage CanonicalJSON Assignment BuildWorker RunStore BuildRequest BrokerStore BrokerKeys BrokerSpec BrokerRefinement BrokerHistory Orchestrator OrchestratorLaws Broker BrokerLaws BrokerRuns.
From stdpp Require Import countable.
Import StateMonad GoStd GoTime GoURL Crypto PlatformID Storage BuildRequest BrokerStore BrokerKeys BrokerSpec BrokerRefinement BrokerHistory Orchestrator OrchestratorLaws Broker BrokerLaws BrokerRuns.

Open Scope Z_scope.

Module BrokerExample.

(** ** Encodings *)

#[local] Existing Instances BuildWorker.EvidenceReference_eq_dec BuildWorker.SupplyChainResult_eq_dec Assignment.Payload_eq_dec Assignment.Envelope_eq_dec.

#[local] Instance EvidenceReference_countable : Countable BuildWorker.EvidenceReference.
Proof.
  refine (inj_countable' (fun r => 
    (BuildWorker.ev_Kind r, (BuildWorker.ev_Reference r, (BuildWorker.ev_ManifestDigest r, BuildWorker.ev_PayloadDigest r))))
    (fun '(a0, (a1, (a2, a3))) =>
      {| BuildWorker.ev_Kind := a0; BuildWorker.ev_Reference := a1; BuildWorker.ev_ManifestDigest := a2; BuildWorker.ev_PayloadDigest := a3 |}) _).
  by intros [].
Defined.

#[local] Instance SupplyChainResult_countable : Countable BuildWorker.SupplyChainResult.
Proof.
  refine (inj_countable' (fun r => 
    (BuildWorker.sc_PolicyState r, (BuildWorker.sc_ScanState r, (BuildWorker.sc_PolicyDigest r, (BuildWorker.sc_SignerKeyID r,
     (BuildWorker.sc_SignerKeyVersion r, (BuildWorker.sc_SignerPublicKeyDigest r, BuildWorker.sc_Evidence r)))))))
    (fun '(a0, (a1, (a2, (a3, (a4, (a5, a6)))))) =>
      {| BuildWorker.sc_PolicyState := a0; BuildWorker.sc_ScanState := a1; BuildWorker.sc_PolicyDigest := a2; BuildWorker.sc_SignerKeyID := a3;
       BuildWorker.sc_SignerKeyVersion := a4; BuildWorker.sc_SignerPublicKeyDigest := a5; BuildWorker.sc_Evidence := a6 |}) _).
  by intros [].
Defined.

#[local] Instance Source_countable : Countable BuildRequest.Source.
Proof.
  refine (inj_countable' (fun r => 
    (s_SnapshotID r, (s_SnapshotDigest r, (s_ManifestDigest r, (s_ArchiveDigest r, (s_ArchiveRef r, (s_SizeBytes r, s_SelectedRoot r)))))))
    (fun '(a0, (a1, (a2, (a3, (a4, (a5, a6)))))) =>
      {| s_SnapshotID := a0; s_SnapshotDigest := a1; s_ManifestDigest := a2; s_ArchiveDigest := a3; s_ArchiveRef := a4; s_SizeBytes := a5;
       s_SelectedRoot := a6 |}) _).
  by intros [].
Defined.

#[local] Instance ConfigurationIntent_countable : Countable BuildRequest.ConfigurationIntent.
Proof.
  refine (inj_countable' (fun r => 
    (c_Mode r, (c_BuildFile r, c_AcceptDetected r)))
    (fun '(a0, (a1, a2)) =>
      {| c_Mode := a0; c_BuildFile := a1; c_AcceptDetected := a2 |}) _).
  by intros [].
Defined.

#[local] Instance Request_countable : Countable BuildRequest.Request.
Proof.
  refine (inj_countable' (fun r => 
    (rq_Version r, (rq_BuildID r, (rq_OrganizationID r, (rq_ProjectID r, (rq_DeploymentID r, (rq_OperationID r, (rq_Generation r, (rq_Source r,
     (rq_Configuration r, (rq_TargetPlatform r, rq_Deadline r)))))))))))
    (fun '(a0, (a1, (a2, (a3, (a4, (a5, (a6, (a7, (a8, (a9, a10)))))))))) =>
      {| rq_Version := a0; rq_BuildID := a1; rq_OrganizationID := a2; rq_ProjectID := a3; rq_DeploymentID := a4; rq_OperationID := a5; rq_Generation
       := a6; rq_Source := a7; rq_Configuration := a8; rq_TargetPlatform := a9; rq_Deadline := a10 |}) _).
  by intros [].
Defined.

#[local] Instance OutputResult_countable : Countable BuildRequest.OutputResult.
Proof.
  refine (inj_countable' (fun r => 
    (or_Name r, (or_Kind r, (or_ArtifactRef r, (or_ArtifactDigest r, (or_ArtifactSize r, (or_ConfigDigest r, (or_ManifestDigest r, (or_LayerDigests r,
     (or_PublicationManifestRef r, or_SupplyChain r))))))))))
    (fun '(a0, (a1, (a2, (a3, (a4, (a5, (a6, (a7, (a8, a9))))))))) =>
      {| or_Name := a0; or_Kind := a1; or_ArtifactRef := a2; or_ArtifactDigest := a3; or_ArtifactSize := a4; or_ConfigDigest := a5; or_ManifestDigest
       := a6; or_LayerDigests := a7; or_PublicationManifestRef := a8; or_SupplyChain := a9 |}) _).
  by intros [].
Defined.

#[local] Instance BuildResult_countable : Countable BuildRequest.BuildResult.
Proof.
  refine (inj_countable' (fun r => 
    (br_Strategy r, (br_InstallCommand r, (br_BuildCommand r, (br_OutputPath r, br_CachePaths r)))))
    (fun '(a0, (a1, (a2, (a3, a4)))) =>
      {| br_Strategy := a0; br_InstallCommand := a1; br_BuildCommand := a2; br_OutputPath := a3; br_CachePaths := a4 |}) _).
  by intros [].
Defined.

#[local] Instance ProcessResult_countable : Countable BuildRequest.ProcessResult.
Proof.
  refine (inj_countable' (fun r => 
    (pr_Name r, (pr_Kind r, (pr_Command r, (pr_Port r, (pr_Protocol r, pr_HealthPath r))))))
    (fun '(a0, (a1, (a2, (a3, (a4, a5))))) =>
      {| pr_Name := a0; pr_Kind := a1; pr_Command := a2; pr_Port := a3; pr_Protocol := a4; pr_HealthPath := a5 |}) _).
  by intros [].
Defined.

#[local] Instance ServiceResult_countable : Countable BuildRequest.ServiceResult.
Proof.
  refine (inj_countable' (fun r => 
    (sr_Name r, (sr_Root r, (sr_Kind r, (sr_Language r, (sr_Framework r, (sr_RuntimeVersion r, (sr_Build r, sr_Processes r))))))))
    (fun '(a0, (a1, (a2, (a3, (a4, (a5, (a6, a7))))))) =>
      {| sr_Name := a0; sr_Root := a1; sr_Kind := a2; sr_Language := a3; sr_Framework := a4; sr_RuntimeVersion := a5; sr_Build := a6; sr_Processes :=
       a7 |}) _).
  by intros [].
Defined.

#[local] Instance CleanupResult_countable : Countable BuildRequest.CleanupResult.
Proof.
  refine (inj_countable' (fun r => 
    (cr_Status r, (cr_ResidueCount r, cr_QuarantineReason r)))
    (fun '(a0, (a1, a2)) =>
      {| cr_Status := a0; cr_ResidueCount := a1; cr_QuarantineReason := a2 |}) _).
  by intros [].
Defined.

#[local] Instance Result_countable : Countable BuildRequest.Result.
Proof.
  refine (inj_countable' (fun r => 
    (re_Version r, (re_BuildID r, (re_Generation r, (re_State r, (re_SourceSnapshotID r, (re_SourceDigest r, (re_DetectionDigest r, (re_ManifestDigest
     r, (re_BuildIRDigest r, (re_DefinitionDigest r, (re_AssignmentDigest r, (re_LogsDigest r, (re_Outputs r, (re_Services r, (re_FailureCode r,
     (re_FailureMessage r, (re_StartedAt r, (re_FinishedAt r, (re_WorkerIdentity r, (re_Cleanup r, (re_CacheHits r, (re_CacheMisses r,
     (re_DetectorResultRef r, (re_ManifestRef r, (re_GeneratedBuildRef r, (re_BuildIRRef r, re_DefinitionLockRef r)))))))))))))))))))))))))))
    (fun '(a0, (a1, (a2, (a3, (a4, (a5, (a6, (a7, (a8, (a9, (a10, (a11, (a12, (a13, (a14, (a15, (a16, (a17, (a18, (a19, (a20, (a21, (a22, (a23, (a24, (a25, a26)))))))))))))))))))))))))) =>
      {| re_Version := a0; re_BuildID := a1; re_Generation := a2; re_State := a3; re_SourceSnapshotID := a4; re_SourceDigest := a5; re_DetectionDigest
       := a6; re_ManifestDigest := a7; re_BuildIRDigest := a8; re_DefinitionDigest := a9; re_AssignmentDigest := a10; re_LogsDigest := a11; re_Outputs
       := a12; re_Services := a13; re_FailureCode := a14; re_FailureMessage := a15; re_StartedAt := a16; re_FinishedAt := a17; re_WorkerIdentity :=
       a18; re_Cleanup := a19; re_CacheHits := a20; re_CacheMisses := a21; re_DetectorResultRef := a22; re_ManifestRef := a23; re_GeneratedBuildRef :=
       a24; re_BuildIRRef := a25; re_DefinitionLockRef := a26 |}) _).
  by intros [].
Defined.

#[local] Instance Event_countable : Countable BuildRequest.Event.
Proof.
  refine (inj_countable' (fun r => 
    (ev_Version r, (ev_BuildID r, (ev_Generation r, (ev_Sequence r, (ev_Attempt r, (ev_Stage r, (ev_Kind r, (ev_Output r, (ev_Vertex r, (ev_Name r,
     (ev_Current r, (ev_Total r, (ev_Cached r, (ev_Stream r, (ev_Line r, (ev_Code r, (ev_Message r, (ev_OccurredAt r, ev_Terminal r)))))))))))))))))))
    (fun '(a0, (a1, (a2, (a3, (a4, (a5, (a6, (a7, (a8, (a9, (a10, (a11, (a12, (a13, (a14, (a15, (a16, (a17, a18)))))))))))))))))) =>
      {| ev_Version := a0; ev_BuildID := a1; ev_Generation := a2; ev_Sequence := a3; ev_Attempt := a4; ev_Stage := a5; ev_Kind := a6; ev_Output := a7;
       ev_Vertex := a8; ev_Name := a9; ev_Current := a10; ev_Total := a11; ev_Cached := a12; ev_Stream := a13; ev_Line := a14; ev_Code := a15;
       ev_Message := a16; ev_OccurredAt := a17; ev_Terminal := a18 |}) _).
  by intros [].
Defined.

#[local] Instance RunRecord_countable : Countable BrokerStore.RunRecord.
Proof.
  refine (inj_countable' (fun r => 
    (br_Version r, (br_Request r, (br_RequestDigest r, (br_State r, (br_Stage r, (br_Attempt r, (br_LastSequence r, (br_Dispatched r, (br_Result r,
     (br_CreatedAt r, br_UpdatedAt r)))))))))))
    (fun '(a0, (a1, (a2, (a3, (a4, (a5, (a6, (a7, (a8, (a9, a10)))))))))) =>
      {| br_Version := a0; br_Request := a1; br_RequestDigest := a2; br_State := a3; br_Stage := a4; br_Attempt := a5; br_LastSequence := a6;
       br_Dispatched := a7; br_Result := a8; br_CreatedAt := a9; br_UpdatedAt := a10 |}) _).
  by intros [].
Defined.

(** ** The request and its assignment *)

Abbreviation sample_id := Assignment.sample_id.

Definition toy_url : NetURL :=
  {| url_Parse := fun _ => Some {| u_Scheme := "s3"; u_Opaque := ""; u_User := None; u_Host := "sources"; u_Path := "/archive.tar.gz"; u_RawPath := "";
                                   u_OmitHost := false; u_ForceQuery := false; u_RawQuery := ""; u_Fragment := ""; u_RawFragment := "" |};
     url_String := fun _ => "" |}.

Definition sample_request : Request :=
  {| rq_Version := CurrentRequestVersion; rq_BuildID := sample_id "bld"; rq_OrganizationID := sample_id "org"; rq_ProjectID := sample_id "prj";
     rq_DeploymentID := sample_id "dep"; rq_OperationID := sample_id "op"; rq_Generation := 1;
     rq_Source := {| s_SnapshotID := sample_id "snp"; s_SnapshotDigest := sample_digest "c"; s_ManifestDigest := sample_digest "d";
                     s_ArchiveDigest := Assignment.tar_digest; s_ArchiveRef := "s3://sources/archive.tar.gz"; s_SizeBytes := 3; s_SelectedRoot := "." |};
     rq_Configuration := {| c_Mode := "auto"; c_BuildFile := ""; c_AcceptDetected := true |}; rq_TargetPlatform := "linux/amd64";
     rq_Deadline := "2026-01-01T01:00:00Z" |}.

Definition sample_now : Time := Eval vm_compute in Assignment.sample_now.

Definition request_codec : Codec Request := list_codec [sample_request].
Definition payload_codec : Codec Assignment.Payload := Assignment.payload_codec.
Definition envelope_codec : Codec Assignment.Envelope := list_codec [Assignment.sample_envelope].

Definition sample_service : ServiceResult :=
  {| sr_Name := "web"; sr_Root := "."; sr_Kind := "web"; sr_Language := "docker"; sr_Framework := "Custom Starlark"; sr_RuntimeVersion := "";
     sr_Build := {| br_Strategy := "starlark"; br_InstallCommand := []; br_BuildCommand := []; br_OutputPath := ""; br_CachePaths := [] |};
     sr_Processes := [{| pr_Name := "web"; pr_Kind := "web"; pr_Command := ["platform-defined"]; pr_Port := None; pr_Protocol := "none"; pr_HealthPath := "" |}] |}.

Definition sample_object : StoredObject := {| so_Reference := "s3://builds/object"; so_Digest := sample_digest "e"; so_Size := 1 |}.

Definition sample_partial : Result :=
  with_assignment
    (with_compilation (with_detection zero_result (sample_digest "e") "s3://builds/object" [sample_service]) sample_object sample_object sample_object
       sample_object Assignment.json_digest [sample_service])
    Assignment.json_digest.

Definition sample_time : string := Eval vm_compute in FormatRFC3339Nano sample_now.
Definition sample_request_digest : string := Eval vm_compute in bytesDigest (default "" (@marshal _ request_codec sample_request)).

Definition sample_checkpoint : Checkpoint :=
  {| cp_Version := 1; cp_BuildID := sample_id "bld"; cp_Generation := 1; cp_RequestDigest := sample_request_digest; cp_StartedAt := sample_time;
     cp_Partial := sample_partial; cp_Envelope := Assignment.sample_envelope; cp_UpdatedAt := sample_time |}.

Definition checkpoint_codec : Codec Checkpoint := list_codec [sample_checkpoint; new_checkpoint sample_request sample_request_digest sample_now].
Definition result_codec : Codec Result := list_codec [sample_partial].

(** ** The cell's answer *)

Definition sample_evidence (kind : string) (seed : ascii) : BuildWorker.EvidenceReference :=
  {| BuildWorker.ev_Kind := kind; BuildWorker.ev_Reference := "registry/web@" +:+ sample_digest seed; BuildWorker.ev_ManifestDigest := sample_digest seed;
     BuildWorker.ev_PayloadDigest := sample_digest seed |}.

Definition sample_output : CellOutput :=
  {| ce_Name := "web"; ce_Kind := "oci_image"; ce_ArtifactRef := "registry/web@" +:+ sample_digest "f"; ce_ArtifactDigest := sample_digest "f"; ce_ArtifactSize := 1;
     ce_ConfigDigest := Assignment.config_digest; ce_ManifestDigest := sample_digest "f"; ce_LayerDigests := []; ce_PublicationManifestRef := "";
     ce_SupplyChain :=
       {| BuildWorker.sc_PolicyState := "accepted"; BuildWorker.sc_ScanState := "passed"; BuildWorker.sc_PolicyDigest := sample_digest "a";
          BuildWorker.sc_SignerKeyID := "key"; BuildWorker.sc_SignerKeyVersion := 1; BuildWorker.sc_SignerPublicKeyDigest := sample_digest "b";
          BuildWorker.sc_Evidence := [sample_evidence "sbom" "1"; sample_evidence "vulnerability_scan" "2"; sample_evidence "provenance" "3";
                                      sample_evidence "signature" "4"; sample_evidence "policy_decision" "5"] |} |}.

Definition sample_reply : CellResult :=
  {| ce_BuildID := sample_id "bld"; ce_PayloadDigest := Assignment.json_digest; ce_Phase := "complete"; ce_Attempts := 1; ce_WorkerIdentity := "worker";
     ce_Outputs := [sample_output]; ce_ErrorCode := ""; ce_FinishedAt := "2026-01-01T00:06:00Z";
     ce_Cleanup := {| cr_Status := "clean"; cr_ResidueCount := 0; cr_QuarantineReason := "" |}; ce_LogsDigest := sample_digest "6"; ce_CacheHits := 0; ce_CacheMisses := 0 |}.

Definition sample_cell_event : CellEvent :=
  {| cv_Attempt := 1; cv_Phase := "complete"; cv_Kind := "result"; cv_Output := ""; cv_Vertex := ""; cv_Name := ""; cv_Current := 0; cv_Total := 0; cv_Cached := false;
     cv_Stream := 0; cv_Line := ""; cv_Code := ""; cv_Message := ""; cv_OccurredAt := sample_time; cv_Result := Some sample_reply |}.

(** ** The surroundings *)

Definition healthy_env : BrokerRefinement.Env := {| env_ctx := fun _ => None; env_commit := CommitOk |}.

(** The source cannot be had; the cell answers. *)
Definition sample_env : Orchestrator.Env :=
  {| e_clock := fun _ => sample_now; e_ctx := fun _ => None; e_store := fun _ => healthy_env; e_other := fun _ => []; e_mkdir := fun _ => true;
     e_materialize := fun _ _ => bad "source"; e_detect := fun _ _ _ => bad "detector"; e_compile := fun _ _ _ => inr (OtherError "compiler");
     e_put := fun _ _ _ _ => bad "store"; e_mirror := fun _ _ _ => bad "mirror"; e_nonce := fun _ => None; e_sign := fun _ _ => bad "signer";
     e_dispatch := fun _ _ => {| d_opened := true; d_events := [Some sample_cell_event]; d_polls := [] |}; e_cancel := fun _ => Some true |}.

Definition sample_around : Surroundings := {| b_root := fun _ => false; b_active := fun _ active => active |}.

Definition sample_options : Options :=
  {| o_CellID := sample_id "cell"; o_AssignmentKeyID := "cell-key"; o_AssignmentKey := sample_digest "7"; o_AssignmentTTL := Hour |}.

Definition no_keys : PublicKeys := fun _ => None.
Definition no_pairs : Codec (string * string) := list_codec [].
Definition no_maps : Codec (gmap string string) := list_codec [].

Abbreviation database := (gmap string (gmap string string)).

#[local] Existing Instances gmap_bolt gmap_cursor plain_text toy_url toy_ed25519 request_codec payload_codec envelope_codec checkpoint_codec result_codec
  no_keys no_pairs no_maps.

(** ** What is stored *)

Definition sample_world (tx : database) : World database := {| w_db := tx; w_step := 0; w_next := 0; w_trace := [] |}.

Definition sample_calls : list (BrokerRefinement.Env * op) :=
  [(healthy_env, OpClaim sample_request sample_now); (healthy_env, OpSave sample_checkpoint)].

Definition first_record : RunRecord := new_record sample_request sample_request_digest sample_time.
Definition running_record : RunRecord := BrokerStore.set_state first_record "running" sample_time.

(** The events of a run, were they not stored, and the records they lead to. *)
Definition emitted (trace : list action) : list Event := omap (fun a => match a with Emitted e => Some e | _ => None end) trace.

Fixpoint recorded (record : RunRecord) (events : list Event) : list RunRecord :=
  match events with
  | [] => [record]
  | event :: rest => record :: recorded (record_event record event sample_time) rest
  end.

Definition rehearsal (calls : list (BrokerRefinement.Env * op)) (records : list RunRecord) : list Event :=
  let codec : Codec RunRecord := list_codec records in
  let none : Codec Event := list_codec [] in
  emitted (w_trace (Orchestrator.Run 10 100 sample_env sample_options (fun _ => mret (Ok tt)) sample_request
    (sample_world (run_calls 10 100 ∅ calls).1)).1).

Definition resumed_events : list Event := Eval vm_compute in rehearsal sample_calls [first_record].
Definition fresh_events : list Event := Eval vm_compute in rehearsal (take 1 sample_calls) [first_record].

(** What a cancellation before the dispatch leads to. *)
Definition canceling_record : RunRecord := BrokerStore.set_state first_record "canceling" sample_time.
Definition cancel_event : Event :=
  terminal_event canceling_record
    (synthetic_result canceling_record "canceled" "build_canceled" "Build was canceled before BuildCell dispatch" "clean" sample_now) sample_time.

Definition record_codec : Codec RunRecord :=
  total_codec (recorded first_record resumed_events ++ recorded running_record fresh_events ++ recorded canceling_record [cancel_event]).
Definition event_codec : Codec Event := total_codec (resumed_events ++ fresh_events ++ [cancel_event]).

#[local] Existing Instances record_codec event_codec.

Definition claimed_db : database := (run_calls 10 100 ∅ (take 1 sample_calls)).1.
Definition assigned_db : database := (run_calls 10 100 ∅ sample_calls).1.

Abbreviation sample_run tx := (Orchestrator.Run 10 100 sample_env sample_options (emit_world 10 100 sample_env) sample_request (sample_world tx)).

(** ** What the theorems ask for *)

Lemma sample_fair : fair sample_env.
Proof. intros n. constructor. Qed.

Lemma sample_json : writes_json.
Proof.
  intros e c Hm. cbn in Hm. unfold list_marshal in Hm. destruct (list_find _ _) as [[i e']|] eqn:Hf; [|done]. injection Hm as <-.
  apply list_find_Some in Hf as (Hi & _). apply lookup_lt_Some in Hi. destruct i as [|i]; [done|]. cbn in Hi. lia.
Qed.

Lemma sample_encodes : encodes.
Proof. split; intros x _; apply total_codec_total. Qed.

Lemma sample_serving : serving (Tx := database) sample_env sample_around.
Proof. split; [|done]. split; [|done]. by split. Qed.

Lemma sample_calls_typed : Forall (fun call => well_typed call.2) sample_calls.
Proof. by repeat constructor. Qed.

Lemma sample_limit : 100 ≤ 10000000.
Proof. lia. Qed.

Lemma reached_by (calls : list (BrokerRefinement.Env * op)) :
  Forall (fun call => well_typed call.2) calls → reached 10 100 (run_calls 10 100 (∅ : database) calls).1.
Proof. intros Hc. exists ∅, calls. by split_and!. Qed.

Lemma claimed_reached : reached 10 100 claimed_db.
Proof. apply (reached_by (take 1 sample_calls)). by repeat constructor. Qed.

Lemma assigned_reached : reached 10 100 assigned_db.
Proof. apply (reached_by sample_calls), sample_calls_typed. Qed.

Lemma sample_serves : Serves 100 (orchestrator (Tx := database) 100 10 sample_env sample_options).
Proof. apply orchestrator_serves; [apply sample_limit|apply sample_fair|apply sample_json]. Qed.

Lemma sample_clock : clock_from sample_env sample_now.
Proof. split; [by vm_compute|]. intros n. by vm_compute. Qed.

(** ** Witnesses *)

Lemma no_calls (tx : database) : w_db (sample_world tx) = (run_calls 10 100 tx []).1.
Proof. done. Qed.

Lemma dispatched_first tx (w : World database) e : Dispatched e ∈ w_trace w → dispatched_in (sample_world tx) w e.
Proof. done. Qed.

Lemma sample_generation : is_u64 (rq_Generation sample_request).
Proof. by vm_compute. Qed.

(** The run resumes the assignment of the checkpoint. *)
Lemma sample_dispatched : Dispatched Assignment.sample_envelope ∈ w_trace (sample_run assigned_db).1.
Proof. apply list_elem_of_lookup. exists 4%nat. vm_compute. reflexivity. Qed.

Lemma one_assignment_witness :
  ∃ c, Load None (rq_BuildID sample_request) (rq_Generation sample_request) (w_db (sample_run (w_db (sample_run assigned_db).1)).1) = Ok (Some c) ∧
    signed c = true ∧ cp_Envelope c = Assignment.sample_envelope.
Proof.
  exact (one_assignment 10 100 sample_limit sample_env sample_env sample_options sample_options sample_request sample_request (sample_world assigned_db)
    (sample_world (w_db (sample_run assigned_db).1)) [] sample_fair sample_fair sample_json assigned_reached sample_generation eq_refl eq_refl
    (Forall_nil_2 _) (no_calls (w_db (sample_run assigned_db).1)) Assignment.sample_envelope
    (or_introl (dispatched_first assigned_db _ _ sample_dispatched))).
Defined.

Lemma outcome_complete {W} (out : W * result Result) :
  (if out.2 is Ok final then String.eqb (re_State final) "complete" else false) = true → ∃ w' final, out = (w', Ok final) ∧ re_State final = "complete".
Proof. destruct out as [w' [final|]]; [|done]. intros Hs%String.eqb_eq. by exists w', final. Qed.

Lemma sample_completes : ∃ w' final, sample_run assigned_db = (w', Ok final) ∧ re_State final = "complete".
Proof. apply outcome_complete. vm_compute. reflexivity. Qed.

Lemma result_durable_witness :
  ∃ w' final, sample_run assigned_db = (w', Ok final) ∧ re_State final = "complete" ∧ Result_Validate final = Ok tt ∧
    ∃ r, Lookup None (rq_BuildID sample_request) (rq_Generation sample_request) (run_calls 10 100 (w_db w') []).1 = Ok (Some r) ∧ Terminal r = true ∧
      br_Result r = Some final.
Proof.
  destruct sample_completes as (w' & final & Hrun & Hs). exists w', final. split; [exact Hrun|]. split; [exact Hs|].
  pose proof (result_durable 10 100 sample_limit sample_env sample_options sample_request (sample_world assigned_db) [] w' final sample_fair sample_json
    assigned_reached sample_generation Hrun (Forall_nil_2 _)) as (Hv & Hl & _).
  split; [exact Hv|exact Hl].
Defined.

Definition sample_broker : BrokerOptions := {| MaxAttempts := 5; RetryBase := DefaultRetryBase |}.

Definition sample_state (tx : database) : State database :=
  {| s_world := sample_world tx; s_memory := {| m_active := ∅; m_spawned := []; m_stopped := false; m_crashed := false |} |}.

Abbreviation sample_runner := (orchestrator (Tx := database) 100 10 sample_env sample_options).

Lemma claimed_found : Lookup None (rq_BuildID (br_Request first_record)) (rq_Generation (br_Request first_record)) claimed_db = Ok (Some first_record).
Proof. vm_compute. reflexivity. Qed.

Lemma first_created : ParseRFC3339Nano (br_CreatedAt first_record) = Some sample_now.
Proof. vm_compute. reflexivity. Qed.

Lemma sample_attempts : NewBroker true {| MaxAttempts := 0; RetryBase := 0 |} = Ok sample_broker.
Proof. vm_compute. reflexivity. Qed.

Definition executed (record : RunRecord) (tx : database) : State database :=
  (execute 10 100 sample_env sample_around sample_runner sample_broker record "key" (sample_state tx)).1.

Lemma executed_uncrashed : m_crashed (s_memory (executed first_record claimed_db)) = false.
Proof. vm_compute. reflexivity. Qed.

Lemma execute_settles_witness :
  ∃ r, Lookup None (rq_BuildID (br_Request first_record)) (rq_Generation (br_Request first_record)) (w_db (s_world (executed first_record claimed_db))) = Ok (Some r) ∧
    (Terminal r = true ∨ br_State r = "canceling" ∨ 100 ≤ br_LastSequence r).
Proof.
  exact (proj1 (execute_settles 10 100 sample_limit sample_env sample_around sample_runner sample_broker {| MaxAttempts := 0; RetryBase := 0 |} first_record "key" sample_now
    (sample_state claimed_db) sample_fair sample_encodes sample_serving sample_serves sample_attempts sample_clock claimed_reached sample_generation
    claimed_found first_created eq_refl) executed_uncrashed).
Defined.

Definition reconciled_state (ticks : nat) (tx : database) : State database :=
  (reconcileLocalCancellation 10 100 sample_env sample_around sample_runner first_record "stop" ticks (sample_state tx)).1.

Lemma cancellation_settles_witness :
  (∃ r, Lookup None (rq_BuildID (br_Request first_record)) (rq_Generation (br_Request first_record)) (w_db (s_world (reconciled_state 3 claimed_db))) = Ok (Some r) ∧
    (Terminal r = true ∨ 100 ≤ br_LastSequence r)) ∨
  (∃ tr, w_trace (s_world (reconciled_state 3 claimed_db)) = w_trace (s_world (sample_state claimed_db)) ++ tr ∧
     CanceledInCell (rq_BuildID (br_Request first_record)) (rq_Generation (br_Request first_record)) ∈ tr) ∧
  is_Some (m_active (s_memory (reconciled_state 3 claimed_db)) !! brokerRunKey (rq_BuildID (br_Request first_record)) (rq_Generation (br_Request first_record))).
Proof.
  exact (cancellation_settles 10 100 sample_limit sample_env sample_around sample_runner "stop" first_record sample_now 3 (sample_state claimed_db) sample_fair
    sample_encodes sample_serving sample_serves sample_clock claimed_reached sample_generation claimed_found first_created).
Defined.

Lemma broker_cancel_durable_witness :
  let '(s', answer) := Cancel 10 100 sample_env sample_around sample_runner (rq_BuildID sample_request) (rq_Generation sample_request) "stop" (sample_state claimed_db) in
  is_ok answer = true →
  ∃ r, Lookup None (rq_BuildID sample_request) (rq_Generation sample_request) (run_calls 10 100 (w_db (s_world s')) []).1 = Ok (Some r) ∧
    (br_State r = "canceling" ∨ Terminal r = true).
Proof.
  exact (broker_cancel_durable 10 100 sample_limit sample_env sample_around sample_runner (rq_BuildID sample_request) (rq_Generation sample_request) "stop"
    (sample_state claimed_db) [] sample_fair sample_serves claimed_reached sample_generation (Forall_nil_2 _)).
Defined.

(** The cancellation of the example is accepted. *)
Example sample_cancel_accepted :
  is_ok (Cancel 10 100 sample_env sample_around sample_runner (rq_BuildID sample_request) (rq_Generation sample_request) "stop" (sample_state claimed_db)).2 = true.
Proof. vm_compute. reflexivity. Qed.

Lemma sample_run_id : run_id (rq_BuildID sample_request) (rq_Generation sample_request).
Proof. split_and!; by vm_compute. Qed.

(** A claimed run with the events of a run that failed. *)
Definition event_calls : list (BrokerRefinement.Env * op) := take 1 sample_calls ++ map (fun event => (healthy_env, OpAppend event sample_now)) fresh_events.

Lemma event_calls_typed : Forall (fun call => well_typed call.2) event_calls.
Proof. by repeat constructor. Qed.

Definition ended_db : database := (run_calls 10 100 ∅ event_calls).1.

Lemma ended_reached : reached 10 100 ended_db.
Proof. apply (reached_by event_calls), event_calls_typed. Qed.

Lemma watch_exact_witness :
  let '(s', answer) := Watch 10 100 sample_env (rq_BuildID sample_request) (rq_Generation sample_request) 1 0 Second 2 Deadline (sample_state ended_db) in
  ∀ events record, answer = Ok (events, record) →
    ∀ i e, events !! i = Some e → ev_BuildID e = rq_BuildID sample_request ∧ ev_Generation e = rq_Generation sample_request ∧ ev_Sequence e = 1 + Z.of_nat i + 1.
Proof.
  pose proof (watch_exact 10 100 sample_limit sample_env (rq_BuildID sample_request) (rq_Generation sample_request) 1 0 Second 2 Deadline (sample_state ended_db)
    sample_fair ended_reached sample_generation ltac:(split; [done|reflexivity]) sample_run_id) as Hw.
  destruct (Watch _ _ _ _ _ _ _ _ _ _ _) as [s' answer]. intros events record Ha. exact (proj2 (proj2 (Hw events record Ha))).
Defined.

(** The watcher of the example is given the two events after the first. *)
Example sample_watch :
  match (Watch 10 100 sample_env (rq_BuildID sample_request) (rq_Generation sample_request) 1 0 Second 2 Deadline (sample_state ended_db)).2 with
  | Ok (events, record) => map ev_Stage events = ["materializing"; "failed"] ∧ Terminal record = true
  | Err _ => False
  end.
Proof. vm_compute. by split. Qed.

(** ** Histories of the store *)

Lemma empty_is_empty : empty_database (∅ : database).
Proof. done. Qed.

Lemma broker_store_refines_witness :
  let '(tx', outcome) := exec 10 100 healthy_env (∅ : database) (OpClaim sample_request sample_now) in
  refines 10 100 healthy_env empty_broker (OpClaim sample_request sample_now) tx' outcome ∧ ∃ st', represents tx' st' ∧ wf 100 st' ∧ extends empty_broker st'.
Proof.
  exact (broker_store_refines 10 100 sample_limit healthy_env ∅ empty_broker (OpClaim sample_request sample_now) (empty_wf _) (empty_represents ∅ empty_is_empty) sample_generation).
Defined.

Lemma broker_log_durable_witness :
  ∃ l, EventsAfter None (rq_BuildID sample_request) (rq_Generation sample_request) 0 1000 ended_db = Ok (take 1000 l) ∧
    omap (appended (rq_BuildID sample_request, rq_Generation sample_request)) (run_calls 10 100 (∅ : database) event_calls).2 `sublist_of` l.
Proof.
  destruct (broker_log_durable 10 100 sample_limit ∅ event_calls _ _ (rq_BuildID sample_request) (rq_Generation sample_request) empty_is_empty event_calls_typed
    (surjective_pairing (run_calls 10 100 (∅ : database) event_calls)) sample_run_id) as (l & Hread & Hsub & _).
  exists l. split; [|exact Hsub]. exact (Hread 0 1000 ltac:(split; [done|reflexivity]) ltac:(lia)).
Defined.

(** The last call of the example makes the run terminal. *)
Definition ended_record : RunRecord := Eval vm_compute in List.last (recorded running_record fresh_events) first_record.
Definition last_event : Event := Eval vm_compute in List.last fresh_events cancel_event.

Lemma snoc_last {A} (l : list A) n x : l !! n = Some x → length l = S n → l = take n l ++ [x].
Proof. intros Hx Hn. rewrite <- (take_drop_middle l n x Hx) at 1. by rewrite drop_ge by lia. Qed.

Lemma ended_log : ∃ log1 o, run_calls 10 100 (∅ : database) event_calls = (ended_db, log1 ++ (o, Ok (Appended last_event ended_record)) :: []).
Proof.
  exists (take 3 (run_calls 10 100 (∅ : database) event_calls).2), (OpAppend last_event sample_now).
  rewrite <- snoc_last; [apply surjective_pairing|vm_compute; reflexivity|vm_compute; reflexivity].
Qed.

Lemma broker_terminal_final_witness : Lookup None (rq_BuildID sample_request) (rq_Generation sample_request) ended_db = Ok (Some ended_record).
Proof.
  destruct ended_log as (log1 & o & Hrun).
  exact (proj1 (broker_terminal_final 10 100 sample_limit ∅ event_calls ended_db log1 [] o (Appended last_event ended_record) (rq_BuildID sample_request)
    (rq_Generation sample_request) ended_record empty_is_empty event_calls_typed Hrun eq_refl eq_refl)).
Defined.

Lemma broker_one_active_witness :
  ∀ r, r ∈ [first_record] → ∀ b g' r', rq_BuildID (br_Request r) = b → run_id b g' → Lookup None b g' claimed_db = Ok (Some r') →
    r' = r ∨ g' < rq_Generation (br_Request r) ∧ Terminal r' = true.
Proof.
  exact (broker_one_active 10 100 sample_limit ∅ (take 1 sample_calls) claimed_db _ [first_record] empty_is_empty (Forall_take _ 1 _ sample_calls_typed)
    (surjective_pairing (run_calls 10 100 (∅ : database) (take 1 sample_calls))) ltac:(vm_compute; reflexivity)).
Defined.

Lemma full_log_stuck_witness : ∃ r', Lookup None (rq_BuildID sample_request) (rq_Generation sample_request) (run_calls 10 0 claimed_db sample_calls).1 = Ok (Some r') ∧ Terminal r' = false.
Proof.
  exact (full_log_stuck 10 0 ltac:(lia) ∅ (take 1 sample_calls) claimed_db _ sample_calls _ _ (rq_BuildID sample_request) (rq_Generation sample_request) first_record
    empty_is_empty (Forall_take _ 1 _ sample_calls_typed) (surjective_pairing (run_calls 10 0 (∅ : database) (take 1 sample_calls))) sample_run_id claimed_found
    eq_refl ltac:(done) sample_calls_typed (surjective_pairing (run_calls 10 0 claimed_db sample_calls))).
Defined.

End BrokerExample.
