(* ===== verification/RunStoreLaws.v ===== *)
(** * The run stores implement one contract

    What a call decides is a function of the record it addresses ([decide_op]);
    the three stores of [RunStore] differ in how they read and write that record.
    From this follow the instances of the interface and the theorems on
    histories of calls: valid records, exclusive leases, durable terminal
    results, durable cancellation. *)

From S2P Require Import Prelude Text PlatformID Storage BuildWorker RunStore.
Import PlatformID Storage BuildWorker RunStore.

Open Scope Z_scope.

Module RunStoreLaws.

(** ** What a call decides *)

(** The answer and, when the call writes, the record it stores. *)
Definition decide_op `{GoText} (op : run_op) (current : option RunRecord)
    : option (run_answer * option RunRecord) :=
  match op with
  | OpClaim q =>
      if is_err (validateClaim q) then None
      else match current with
      | None => Some (Claimed ClaimAccepted (newRunRecord q), Some (newRunRecord q))
      | Some existing =>
          let '(outcome, record) := applyClaim existing q in
          Some (Claimed outcome record, if decide (outcome = ClaimResumed) then Some record else None)
      end
  | OpHeartbeat _ owner phase attempt now leaseTTL =>
      match current with
      | None => None
      | Some record =>
          if negb (String.eqb (rr_Owner record) owner) || Terminal (rr_Result record) ||
             negb (validLeaseUpdate phase attempt now leaseTTL)
          then None else Some (Done, Some (beat record phase attempt now leaseTTL))
      end
  | OpFinish buildID owner result now =>
      match current with
      | None => None
      | Some record =>
          if finish_refused record buildID owner result now
          then None else Some (Done, Some (finished record result now))
      end
  | OpCancel buildID generation now =>
      if negb (validCancelRequest buildID generation now) then None
      else match current with
      | None => Some (CancelAccepted false, None)
      | Some record =>
          if negb (rr_Generation record =? generation) || Terminal (rr_Result record)
          then Some (CancelAccepted false, None)
          else Some (CancelAccepted true, Some (cancelled record now))
      end
  end.

Definition apply_write (op : run_op) (m : gmap string RunRecord) (w : option RunRecord) : gmap string RunRecord :=
  match w with None => m | Some record => <[op_build op := record]> m end.

Section Decide.
Context `{GoText}.

Ltac cases :=
  repeat (first [case_match | case_decide]; simplify_eq/=; try done).

(** The in-memory store is the decision applied to its map. *)
Lemma exec_memory_decide m op m' o :
  exec_memory None m op = (m', o) →
  match decide_op op (m !! op_build op) with
  | None => m' = m ∧ ∃ e, o = Err e
  | Some (a, w) => m' = apply_write op m w ∧ o = Ok a
  end.
Proof.
  destruct op; simpl; unfold answered, Claim, Heartbeat, Finish, RequestCancel, is_err;
    intros Hx; cases; naive_solver.
Qed.

Lemma exec_memory_Some m op a w :
  decide_op op (m !! op_build op) = Some (a, w) → exec_memory None m op = (apply_write op m w, Ok a).
Proof.
  intros Hd. destruct (exec_memory None m op) as [m' o] eqn:Hx.
  apply exec_memory_decide in Hx. rewrite Hd in Hx. naive_solver.
Qed.

Lemma exec_memory_Ok m op m' a :
  exec_memory None m op = (m', Ok a) →
  ∃ w, decide_op op (m !! op_build op) = Some (a, w) ∧ m' = apply_write op m w.
Proof.
  intros Hx. apply exec_memory_decide in Hx. destruct (decide_op op _) as [[a' w]|]; naive_solver.
Qed.

(** ** Validity *)

(** [validateRunRecord] as propositions. *)
Lemma validateRunRecord_Ok record :
  validateRunRecord record = Ok tt ↔
  (has_prefix (rr_BuildID record) "bld" = true ∧ rr_Version record = CurrentRunRecordVersion ∧
   rr_Generation record ≠ 0 ∧ is_digest (rr_PayloadDigest record) = true ∧
   is_run_owner (rr_Owner record) = true ∧
   validRunPhase (rr_Phase record) (Terminal (rr_Result record)) = true ∧
   rr_Attempt record ≤ DefaultMaxAttempts ∧ rr_UpdatedAt record ≠ 0 ∧
   r_BuildID (rr_Result record) = rr_BuildID record ∧
   r_PayloadDigest (rr_Result record) = rr_PayloadDigest record ∧ r_Replay (rr_Result record) = false) ∧
  if Terminal (rr_Result record) then
    rr_LeaseUntil record = 0 ∧ r_Phase (rr_Result record) = rr_Phase record ∧
    r_Attempts (rr_Result record) = rr_Attempt record ∧
    validateTerminalResult (rr_Result record) (rr_BuildID record) (rr_PayloadDigest record) = Ok tt ∧
    terminalAllowedForRecord record (rr_Result record) = true
  else
    rr_LeaseUntil record ≠ 0 ∧ r_Phase (rr_Result record) = PhaseAccepted ∧
    r_StartedAt (rr_Result record) ≠ 0 ∧ r_FinishedAt (rr_Result record) = 0.
Proof.
  unfold validateRunRecord, IsZero. destruct (_ || r_Replay _) eqn:E1.
  { split; [done|]. intros [Hid _]. exfalso. destruct_and?. 
    repeat (apply orb_true_iff in E1 as [E1|E1]); bsimpl; first [lia|congruence]. }
  destruct (Terminal _) eqn:ET.
  - destruct (_ || negb (terminalAllowedForRecord _ _)) eqn:E2.
    + split; [done|]. intros [_ Hid]. exfalso. destruct_and?.
      repeat (apply orb_true_iff in E2 as [E2|E2]); bsimpl; first [lia|congruence|destruct E2; congruence].
    + split; [|done]. intros _. bsimpl.
      match goal with Hv : ∃ _, validateTerminalResult _ _ _ = _ |- _ => destruct Hv as [[] Hv] end.
      naive_solver.
  - destruct (_ || negb (r_FinishedAt _ =? 0)) eqn:E2.
    + split; [done|]. intros [_ Hid]. exfalso. destruct_and?.
      repeat (apply orb_true_iff in E2 as [E2|E2]); bsimpl; first [lia|congruence|destruct E2; congruence].
    + split; [|done]. intros _. bsimpl. naive_solver.
Qed.

(** The record under [key] is well placed and valid. *)
Definition sound (key : string) (record : RunRecord) : Prop :=
  rr_BuildID record = key ∧ validateRunRecord record = Ok tt.

Lemma valid_records_lookup m key record : valid_records m → m !! key = Some record → sound key record.
Proof. intros Hm Hk. by apply Hm. Qed.

Lemma Terminal_validRunPhase r : Terminal r = true → validRunPhase (r_Phase r) true = true.
Proof. done. Qed.

Lemma validateClaim_Ok q u :
  validateClaim q = Ok u →
  has_prefix (q_BuildID q) "bld" = true ∧ q_Generation q ≠ 0 ∧ is_digest (q_PayloadDigest q) = true ∧
  is_run_owner (q_Owner q) = true ∧ Second ≤ q_LeaseTTL q ≤ 5 * Minute.
Proof. unfold validateClaim, IsZero. intros Hv. run_ok Hv. bsimpl. auto 10. Qed.

Lemma newRunRecord_sound q u : validateClaim q = Ok u → 0 < q_Now q → sound (q_BuildID q) (newRunRecord q).
Proof.
  intros (Hb & Hg & Hd & Ho & HT)%validateClaim_Ok Hnow. split; [done|].
  apply validateRunRecord_Ok. unfold Second, Minute, Add, DefaultMaxAttempts in *. simpl.
  repeat split; try done; unfold Add; lia.
Qed.

Lemma resumed_sound existing q u record :
  validateClaim q = Ok u → 0 < q_Now q → sound (q_BuildID q) existing →
  applyClaim existing q = (ClaimResumed, record) → sound (q_BuildID q) record.
Proof.
  intros (_ & _ & _ & Ho & HT)%validateClaim_Ok Hnow [Hb Hv] Ha. unfold applyClaim in Ha.
  repeat case_match; simplify_eq. split; [done|].
  apply validateRunRecord_Ok in Hv as [Hid Hact]. apply validateRunRecord_Ok. simpl.
  match goal with Ht : Terminal _ = false |- _ => rewrite Ht in * end.
  unfold Add, Second, Minute in *. destruct_and!. repeat split; try done; lia.
Qed.

Lemma beat_sound key record phase attempt now leaseTTL :
  sound key record → 0 < now → Terminal (rr_Result record) = false →
  validLeaseUpdate phase attempt now leaseTTL = true →
  sound key (beat record phase attempt now leaseTTL).
Proof.
  intros [Hb Hv] Hnow HT Hl. split; [done|]. unfold validLeaseUpdate in Hl.
  apply validateRunRecord_Ok in Hv as [Hid Hact]. apply validateRunRecord_Ok. simpl.
  rewrite HT in *. unfold Add, Second, Minute in *. bsimpl. repeat split; try done; lia.
Qed.

Lemma validateTerminalResult_identity result buildID payloadDigest u :
  validateTerminalResult result buildID payloadDigest = Ok u →
  Terminal result = true ∧ r_BuildID result = buildID ∧ r_PayloadDigest result = payloadDigest ∧
  r_Attempts result ≤ DefaultMaxAttempts ∧ r_Replay result = false ∧ is_digest (r_LogsDigest result) = true ∧
  r_StartedAt result ≤ r_FinishedAt result ∧ cl_BuildID (r_Cleanup result) = buildID.
Proof.
  unfold validateTerminalResult. destruct (_ || negb (String.eqb (cl_BuildID _) _)) eqn:E; [done|].
  intros _. unfold Before in E. bsimpl. auto 10.
Qed.

Lemma finished_sound key record owner result now :
  sound key record → finish_refused record key owner result now = false →
  sound key (finished record result now).
Proof.
  intros [Hb Hv] Hf. split; [done|]. unfold finish_refused, IsZero in Hf. bsimpl.
  match goal with Hx : ∃ _, validateTerminalResult _ _ _ = _ |- _ => destruct Hx as [[] Hx] end.
  apply validateRunRecord_Ok in Hv as [Hid _]. apply validateRunRecord_Ok. simpl.
  pose proof (validateTerminalResult_identity _ _ _ _ ltac:(eassumption)) as Hr.
  destruct Hr as [HT Hr]. rewrite HT. destruct_and!. repeat split; try done; try congruence.
Qed.

Lemma cancelled_sound key record now :
  sound key record → 0 < now → Terminal (rr_Result record) = false → sound key (cancelled record now).
Proof.
  intros [Hb Hv] Hnow HT. split; [done|].
  apply validateRunRecord_Ok in Hv as [Hid Hact]. apply validateRunRecord_Ok. simpl.
  rewrite HT in *. destruct_and!. repeat split; try done; lia.
Qed.

#[local] Hint Resolve newRunRecord_sound resumed_sound beat_sound finished_sound cancelled_sound : core.

(** What a call stores is sound when what it read was. *)
Lemma decide_op_sound op current a record :
  0 < op_now op → (∀ r, current = Some r → sound (op_build op) r) →
  decide_op op current = Some (a, Some record) → sound (op_build op) record.
Proof.
  intros Hnow Hcur Hd. destruct op as [q|b o phase attempt now ttl|b o r now|b g now]; simpl in *.
  - destruct (validateClaim q) eqn:Hq; [|done]. simpl in Hd.
    destruct current as [existing|]; [|naive_solver].
    destruct (applyClaim existing q) as [outcome r] eqn:Ha. case_decide; naive_solver.
  - destruct current as [r|]; [|done]. case_match eqn:E; simplify_eq. bsimpl. eauto.
  - destruct current as [r0|]; [|done]. case_match eqn:E; simplify_eq. eauto.
  - repeat case_match; simplify_eq. bsimpl. eauto.
Qed.

Lemma apply_write_valid op m a w :
  0 < op_now op → valid_records m → decide_op op (m !! op_build op) = Some (a, w) →
  valid_records (apply_write op m w).
Proof.
  intros Hnow Hm Hd. destruct w as [record|]; simpl; [|done].
  assert (sound (op_build op) record) as Hs by (eapply decide_op_sound; eauto using valid_records_lookup).
  intros key r. rewrite lookup_insert. case_decide; [naive_solver|]. apply Hm.
Qed.

(** [validateRunState] accepts exactly the valid maps within the bound. *)
Lemma validateRunState_Ok v m maxEntries :
  validateRunState {| st_Version := v; st_Records := Some m |} maxEntries = Ok tt ↔
  v = runStateVersion ∧ Z.of_nat (size m) ≤ maxEntries ∧ valid_records m.
Proof.
  unfold validateRunState. simpl. destruct (_ || _) eqn:E1.
  { split; [done|]. intros (-> & Hle & _). bsimpl. destruct E1; [done|lia]. }
  destruct (map_forallb _ m) eqn:E2; simpl.
  - split; [|done]. intros _. rewrite map_forallb_true in E2. bsimpl. split; [done|].
    split; [lia|]. intros k r Hk. specialize (E2 k r Hk). bsimpl. split; [done|].
    destruct (validateRunRecord r) as [[]|]; done.
  - split; [done|]. intros (_ & _ & Hm). exfalso. apply not_true_iff_false in E2. apply E2.
    apply map_forallb_true. intros k r Hk. destruct (Hm k r Hk) as [<- Hr].
    by rewrite Hr, String.eqb_refl.
Qed.

(** ** The in-memory store *)

Lemma memory_law ctx s m op s' o :
  s = m ∧ valid_records m → 0 < op_now op → exec_memory ctx s op = (s', o) →
  match o with
  | Ok a => ∃ m', exec_memory None m op = (m', Ok a) ∧ s' = m' ∧ valid_records m'
  | Err _ => (s' = m ∧ valid_records m) ∨
             ∃ m' a, exec_memory None m op = (m', Ok a) ∧ s' = m' ∧ valid_records m'
  end.
Proof.
  intros [-> Hm] Hnow Hx. destruct ctx as [e|].
  { destruct op; simpl in Hx; unfold answered in Hx; simpl in Hx; simplify_eq; auto. }
  pose proof Hx as Hx'. apply exec_memory_decide in Hx. destruct (decide_op _ _) as [[a w]|] eqn:Hd.
  - destruct Hx as [-> ->]. eauto using apply_write_valid.
  - destruct Hx as [-> [e ->]]. auto.
Qed.

#[export] Program Instance memory_run_store : RunStore (gmap string RunRecord) Ctx := {|
  exec := exec_memory;
  lookup_run := Lookup;
  holds s m := s = m ∧ valid_records m;
|}.
Next Obligation. naive_solver. Qed.
Next Obligation. intros ctx s m op s' o Hm Hnow Hx. exact (memory_law _ _ _ _ _ _ Hm Hnow Hx). Qed.
Next Obligation. intros [e|] s m b found [-> _] Hl; simpl in Hl; naive_solver. Qed.

(** ** The file store *)

Section File.
Context `{!Codec runState} (maxEntries : Z).

Definition holds_file (file : option string) (m : gmap string RunRecord) : Prop :=
  ∃ contents v, file = Some contents ∧
    unmarshal contents = Some {| st_Version := v; st_Records := Some m |} ∧
    validateRunState {| st_Version := v; st_Records := Some m |} maxEntries = Ok tt.

Lemma readState_holds io file m state records :
  holds_file file m → readState maxEntries io file = Ok (state, records) →
  records = m ∧ state = {| st_Version := runStateVersion; st_Records := Some m |}.
Proof.
  intros (contents & v & -> & Hu & Hv) Hr. apply validateRunState_Ok in Hv as [-> _].
  unfold readState in Hr. rewrite Hu in Hr. run_ok Hr. done.
Qed.

Lemma answered_save {A} (inject : A → run_answer) io file state records a :
  answered inject (save maxEntries io file state records a) = save maxEntries io file state records (inject a).
Proof. unfold answered, save. destruct (writeState _ _ _ _) as [f [[]|e]]; done. Qed.

(** A claim of a new build is refused when the store is full. *)
Definition full (n : Z) (op : run_op) (current : option RunRecord) : bool :=
  match op, current with
  | OpClaim _, None => maxEntries <=? n
  | _, _ => false
  end.

Definition write_file io file state (records : gmap string RunRecord) (op : run_op) (w : option RunRecord)
    (a : run_answer) : option string * Prelude.result run_answer :=
  match w with
  | None => (file, Ok a)
  | Some r => save maxEntries io file state (<[op_build op := r]> records) a
  end.

(** Once the state is read, a call answers by [decide_op]. *)
Lemma exec_file_read io file op state records :
  lock_taken io = true → readState maxEntries io file = Ok (state, records) →
  match decide_op op (records !! op_build op) with
  | Some (a, w) =>
      if full (Z.of_nat (size records)) op (records !! op_build op)
      then ∃ e, exec_file maxEntries (io, None) file op = (file, Err e)
      else exec_file maxEntries (io, None) file op = write_file io file state records op w a
  | None => ∃ e, exec_file maxEntries (io, None) file op = (file, Err e)
  end.
Proof.
  intros Hl Hr. destruct op; simpl;
    unfold Claim_file, Heartbeat_file, Finish_file, RequestCancel_file, withLock;
    rewrite Hl, Hr; simpl.
  - destruct (validateClaim q); simpl; [|eauto]. destruct (records !! q_BuildID q); simpl.
    + destruct (applyClaim _ q). case_decide; [by rewrite answered_save|done].
    + destruct (maxEntries <=? _); [eauto|]. by rewrite answered_save.
  - destruct (records !! buildID); [|eauto]. destruct (_ || _); [eauto|]. by rewrite answered_save.
  - destruct (records !! buildID); [|eauto]. destruct (finish_refused _ _ _ _ _); [eauto|].
    by rewrite answered_save.
  - destruct (negb (validCancelRequest _ _ _)); [eauto|]. destruct (records !! buildID); [|eauto].
    destruct (_ || _); [eauto|]. by rewrite answered_save.
Qed.

Lemma exec_file_unread io ctx file op :
  ctx ≠ None ∨ lock_taken io = false ∨ is_err (readState maxEntries io file) = true →
  ∃ e, exec_file maxEntries (io, ctx) file op = (file, Err e).
Proof.
  intros Hf. destruct op; simpl; unfold Claim_file, Heartbeat_file, Finish_file, RequestCancel_file, withLock;
    (destruct ctx; [by eauto|]); (destruct (lock_taken io); simpl);
    try (destruct (readState maxEntries io file) as [[]|]; [naive_solver|]);
    repeat (case_match || case_decide); simplify_eq/=; eauto.
Qed.

(** A call fails without touching the file, or answers by [decide_op] on what it
    read. *)
Lemma exec_file_shape io ctx file op file' o :
  exec_file maxEntries (io, ctx) file op = (file', o) →
  (file' = file ∧ ∃ e, o = Err e) ∨
  ∃ state records a w,
    readState maxEntries io file = Ok (state, records) ∧
    decide_op op (records !! op_build op) = Some (a, w) ∧
    (file', o) = write_file io file state records op w a.
Proof.
  intros Hx.
  assert (ctx ≠ None ∨ lock_taken io = false ∨ is_err (readState maxEntries io file) = true ∨
          ctx = None ∧ lock_taken io = true ∧ ∃ p, readState maxEntries io file = Ok p) as Hc.
  { destruct ctx; [by left|]. destruct (lock_taken io); [|auto]. destruct (readState _ _ _); naive_solver. }
  destruct Hc as [Hc|[Hc|[Hc|(-> & Hl & [state records] & Hr)]]];
    [left; edestruct exec_file_unread as [e He]; [eauto|rewrite He in Hx; simplify_eq; eauto]..|].
  pose proof (exec_file_read io file op state records Hl Hr) as Hd.
  destruct (decide_op op _) as [[a w]|] eqn:Hdec; [destruct (full _ _ _)|];
    [left; destruct Hd as [e He]; rewrite He in Hx; by simplify_eq; eauto|
    |left; destruct Hd as [e He]; rewrite He in Hx; by simplify_eq; eauto].
  right. exists state, records, a, w. rewrite <- Hd. auto.
Qed.

Lemma save_holds {A} io file m records (a : A) file' o :
  holds_file file m →
  save maxEntries io file {| st_Version := runStateVersion; st_Records := Some m |} records a = (file', o) →
  match o with
  | Ok a' => a' = a ∧ holds_file file' records
  | Err _ => holds_file file' m ∨ holds_file file' records
  end.
Proof.
  intros Hm Hs. unfold save, writeState in Hs. simpl in Hs.
  destruct (validateRunState _ maxEntries) as [[]|] eqn:Hv; simplify_eq/=; [|by left].
  destruct (marshal _) as [contents|] eqn:Hc; simplify_eq/=; [|by left].
  assert (holds_file (Some contents) records).
  { eexists _, _. split; [done|]. split; [by eapply unmarshal_marshal|done]. }
  repeat case_match; simplify_eq/=; auto.
Qed.

Lemma file_law env s m op s' o :
  holds_file s m → 0 < op_now op → exec_file maxEntries env s op = (s', o) →
  match o with
  | Ok a => ∃ m', exec_memory None m op = (m', Ok a) ∧ holds_file s' m'
  | Err _ => holds_file s' m ∨ ∃ m' a, exec_memory None m op = (m', Ok a) ∧ holds_file s' m'
  end.
Proof.
  destruct env as [io ctx]. intros Hm Hnow Hx.
  apply exec_file_shape in Hx as [[-> [e ->]]|(state & records & a & w & Hr & Hd & Hx)]; [by left|].
  destruct (readState_holds _ _ _ _ _ Hm Hr); subst. pose proof (exec_memory_Some _ _ _ _ Hd) as Hmem.
  destruct w as [r|]; simpl in Hx; [|naive_solver].
  symmetry in Hx. apply save_holds in Hx; [|done]. simpl in Hmem.
  destruct o; naive_solver.
Qed.

#[export] Program Instance file_run_store : RunStore (option string) (FileFaults * Ctx) := {|
  exec := exec_file maxEntries;
  lookup_run := fun env => Lookup_file maxEntries env.1 env.2;
  holds := holds_file;
|}.
Next Obligation.
  intros file m (contents & v & _ & _ & Hv). apply validateRunState_Ok in Hv. naive_solver.
Qed.
Next Obligation. intros env s m op s' o Hm Hnow Hx. exact (file_law _ _ _ _ _ _ Hm Hnow Hx). Qed.
Next Obligation.
  intros [io ctx] file m b found Hm Hl. simpl in Hl. unfold Lookup_file, withLock in Hl.
  destruct ctx; [done|]. destruct (lock_taken io); [|done]. simpl in Hl.
  destruct (readState maxEntries io file) as [[state records]|] eqn:Hr; [|done].
  destruct (readState_holds _ _ _ _ _ Hm Hr); naive_solver.
Qed.

End File.

(** ** The bbolt store *)

Section Bolt.
Context {Tx : Type} `{!BoltTx Tx} `{!Codec RunRecord} (maxEntries : Z).

Record holds_bolt (tx : Tx) (m : gmap string RunRecord) : Prop := {
  hb_valid : valid_records m;
  hb_keyN : tx_keyN tx runRecordBucket = Z.of_nat (size m);
  hb_get : ∀ key, tx_get tx runRecordBucket key ≫= unmarshal = m !! key;
  hb_none : ∀ key, tx_get tx runRecordBucket key = None ↔ m !! key = None;
}.

Lemma decodeRunRecord_holds tx m key contents :
  holds_bolt tx m → tx_get tx runRecordBucket key = Some contents →
  ∃ record, m !! key = Some record ∧ decodeRunRecord contents = Ok record.
Proof.
  intros [Hv _ Hg Hn] Hk. pose proof (Hg key) as Hgk. rewrite Hk in Hgk. simpl in Hgk.
  destruct (m !! key) as [record|] eqn:Hm; [|naive_solver]. exists record. split; [done|].
  unfold decodeRunRecord. rewrite Hgk.
  assert (validateRunState {| st_Version := runStateVersion; st_Records := Some {[rr_BuildID record := record]} |} 1
          = Ok tt) as ->; [|done].
  apply validateRunState_Ok. split; [done|]. split; [by rewrite map_size_singleton|].
  intros k r Hr. apply lookup_singleton_Some in Hr as [<- <-]. split; [done|]. by apply (Hv key).
Qed.

Lemma putRunRecord_holds tx m record tx' key :
  holds_bolt tx m → rr_BuildID record = key → putRunRecord tx record = Ok tx' →
  holds_bolt tx' (<[key := record]> m).
Proof.
  intros [Hv Hn Hg Hnone] <- Hp. unfold putRunRecord in Hp.
  destruct (validateRunRecord record) as [[]|] eqn:Hr; [|done]. simpl in Hp.
  destruct (marshal record) as [contents|] eqn:Hc; [|done].
  pose proof (tx_get_put _ _ _ _ _ Hp runRecordBucket) as Hget.
  split.
  - intros k r. rewrite lookup_insert. destruct (decide (rr_BuildID record = k)); [naive_solver|apply Hv].
  - rewrite (tx_keyN_put _ _ _ _ _ Hp runRecordBucket), Hn, map_size_insert. destruct (m !! rr_BuildID record) eqn:Hm; simpl.
    + rewrite decide_False; [lia|]. rewrite Hnone. naive_solver.
    + rewrite decide_True; [lia|]. by rewrite Hnone.
  - intros k. rewrite Hget, lookup_insert. destruct (decide (rr_BuildID record = k)) as [<-|Hne].
    + rewrite decide_True by done. simpl. by apply unmarshal_marshal.
    + rewrite decide_False by naive_solver. apply Hg.
  - intros k. rewrite Hget, lookup_insert. destruct (decide (rr_BuildID record = k)) as [<-|Hne].
    + by rewrite decide_True by done.
    + rewrite decide_False by naive_solver. apply Hnone.
Qed.

Lemma answered_Update {A} (inject : A → run_answer) c (tx : Tx) fn :
  answered inject (Update c tx fn) =
  Update c tx (fun tx => let* p := fn tx in Ok (inject p.1, p.2)).
Proof. unfold answered, Update. destruct (fn tx) as [[a tx']|e]; [|done]. destruct c; done. Qed.

Definition write_tx (w : option RunRecord) (a : run_answer) (tx : Tx) : Prelude.result (run_answer * Tx) :=
  match w with None => Ok (a, tx) | Some r => put_then tx r a end.

Lemma put_then_inject {A} (inject : A → run_answer) (tx : Tx) r a :
  (let* p := put_then tx r a in Ok (inject p.1, p.2)) = put_then tx r (inject a).
Proof. unfold put_then. by destruct (putRunRecord tx r). Qed.

(** On a healthy context a call is one transaction, and [decide_op] says which. *)
Lemma exec_bolt_read c tx op m :
  holds_bolt tx m →
  match decide_op op (m !! op_build op) with
  | Some (a, w) =>
      if full maxEntries (Z.of_nat (size m)) op (m !! op_build op)
      then ∃ e, exec_bolt maxEntries (None, None, c) tx op = (tx, Err e)
      else exec_bolt maxEntries (None, None, c) tx op = Update c tx (write_tx w a)
  | None => ∃ e, exec_bolt maxEntries (None, None, c) tx op = (tx, Err e)
  end.
Proof.
  intros Hm. assert (∀ key, (tx_get tx runRecordBucket key = None ∧ m !! key = None) ∨
    ∃ contents record, tx_get tx runRecordBucket key = Some contents ∧ m !! key = Some record ∧
      decodeRunRecord contents = Ok record) as Hread.
  { intros key. destruct (tx_get tx runRecordBucket key) eqn:Hk.
    - edestruct decodeRunRecord_holds as (r & ? & ?); eauto 10.
    - left. split; [done|]. by apply (hb_none _ _ Hm). }
  destruct op; simpl; unfold Claim_bolt, Heartbeat_bolt, Finish_bolt, RequestCancel_bolt.
  - destruct (validateClaim q); simpl; [|eauto]. rewrite answered_Update. unfold Update.
    destruct (Hread (q_BuildID q)) as [[Hk Hm']|(contents & record & Hk & Hm' & Hd)]; rewrite Hk, Hm'; simpl.
    + rewrite (hb_keyN _ _ Hm). destruct (maxEntries <=? _); [eauto|]. by rewrite put_then_inject.
    + rewrite Hd. simpl. destruct (applyClaim record q). case_decide; [by rewrite put_then_inject|done].
  - rewrite answered_Update. unfold Update.
    destruct (Hread buildID) as [[Hk Hm']|(contents & record & Hk & Hm' & Hd)]; rewrite Hk, Hm'; simpl; [eauto|].
    rewrite Hd. simpl. destruct (_ || _); [eauto|]. by rewrite put_then_inject.
  - rewrite answered_Update. unfold Update.
    destruct (Hread buildID) as [[Hk Hm']|(contents & record & Hk & Hm' & Hd)]; rewrite Hk, Hm'; simpl; [eauto|].
    rewrite Hd. simpl. destruct (finish_refused _ _ _ _ _); [eauto|]. by rewrite put_then_inject.
  - destruct (negb (validCancelRequest _ _ _)); [eauto|]. rewrite answered_Update. unfold Update.
    destruct (Hread buildID) as [[Hk Hm']|(contents & record & Hk & Hm' & Hd)]; rewrite Hk, Hm'; simpl; [done|].
    rewrite Hd. simpl. destruct (_ || _); [done|]. by rewrite put_then_inject.
Qed.

Lemma exec_bolt_cancelled ctx ctx' c tx op :
  ctx ≠ None ∨ ctx' ≠ None → ∃ e, exec_bolt maxEntries (ctx, ctx', c) tx op = (tx, Err e).
Proof.
  intros Hf. destruct op; simpl; unfold Claim_bolt, Heartbeat_bolt, Finish_bolt, RequestCancel_bolt, Update;
    (destruct ctx; [by eauto|]); (destruct ctx'; [|naive_solver]); repeat case_match; simplify_eq/=; eauto.
Qed.

Lemma exec_bolt_shape ctx ctx' c tx m op tx' o :
  holds_bolt tx m → exec_bolt maxEntries (ctx, ctx', c) tx op = (tx', o) →
  (tx' = tx ∧ ∃ e, o = Err e) ∨
  ∃ a w, decide_op op (m !! op_build op) = Some (a, w) ∧ (tx', o) = Update c tx (write_tx w a).
Proof.
  intros Hm Hx.
  assert (ctx ≠ None ∨ ctx' ≠ None ∨ ctx = None ∧ ctx' = None) as Hc by (destruct ctx, ctx'; naive_solver).
  destruct Hc as [Hc|[Hc|(-> & ->)]];
    [left; destruct (exec_bolt_cancelled ctx ctx' c tx op) as [e He]; [auto|rewrite He in Hx; simplify_eq; eauto]..|].
  pose proof (exec_bolt_read c tx op m Hm) as Hd.
  destruct (decide_op op _) as [[a w]|] eqn:Hdec; [destruct (full _ _ _ _)|];
    [left; destruct Hd as [e He]; rewrite He in Hx; by simplify_eq; eauto|
    |left; destruct Hd as [e He]; rewrite He in Hx; by simplify_eq; eauto].
  right. exists a, w. rewrite <- Hd. auto.
Qed.

Lemma write_tx_holds tx m op a w a' tx' :
  0 < op_now op → holds_bolt tx m → decide_op op (m !! op_build op) = Some (a, w) →
  write_tx w a tx = Ok (a', tx') → a' = a ∧ holds_bolt tx' (apply_write op m w).
Proof.
  intros Hnow Hm Hd Hw. destruct w as [r|]; simpl in *; [|naive_solver].
  unfold put_then in Hw. destruct (putRunRecord tx r) as [t|] eqn:Hp; simplify_eq/=. split; [done|].
  eapply putRunRecord_holds; eauto.
  eapply decide_op_sound; eauto using valid_records_lookup, hb_valid.
Qed.

Lemma bolt_law env s m op s' o :
  holds_bolt s m → 0 < op_now op → exec_bolt maxEntries env s op = (s', o) →
  match o with
  | Ok a => ∃ m', exec_memory None m op = (m', Ok a) ∧ holds_bolt s' m'
  | Err _ => holds_bolt s' m ∨ ∃ m' a, exec_memory None m op = (m', Ok a) ∧ holds_bolt s' m'
  end.
Proof.
  destruct env as [[ctx ctx'] c]. intros Hm Hnow Hx.
  eapply exec_bolt_shape in Hx as [[-> [e ->]]|(a & w & Hd & Hx)]; [by left| |done].
  pose proof (exec_memory_Some _ _ _ _ Hd) as Hmem. unfold Update in Hx.
  destruct (write_tx w a s) as [[a' tx']|e] eqn:Hw; [|naive_solver].
  destruct (write_tx_holds _ _ _ _ _ _ _ Hnow Hm Hd Hw) as [-> Hm'].
  destruct c as [|[]]; simplify_eq; eauto.
Qed.

#[export] Program Instance bolt_run_store : RunStore Tx (Ctx * Ctx * commit) := {|
  exec := exec_bolt maxEntries;
  lookup_run := fun env => Lookup_bolt env.1.1 env.1.2;
  holds := holds_bolt;
|}.
Next Obligation. intros tx m Hm. apply Hm. Qed.
Next Obligation. intros env s m op s' o Hm Hnow Hx. exact (bolt_law _ _ _ _ _ _ Hm Hnow Hx). Qed.
Next Obligation.
  intros [[ctx ctx'] c] tx m b found Hm Hl. simpl in Hl. unfold Lookup_bolt in Hl.
  destruct ctx, ctx'; try done. destruct (tx_get tx runRecordBucket b) as [contents|] eqn:Hk.
  - edestruct decodeRunRecord_holds as (r & -> & Hd); eauto. rewrite Hd in Hl. naive_solver.
  - apply (hb_none _ _ Hm) in Hk. rewrite Hk. naive_solver.
Qed.

End Bolt.

(** ** Healthy storage *)

Lemma full_room maxEntries op m a w :
  decide_op op (m !! op_build op) = Some (a, w) → Z.of_nat (size (apply_write op m w)) ≤ maxEntries →
  full maxEntries (Z.of_nat (size m)) op (m !! op_build op) = false.
Proof.
  intros Hd Hs. destruct op as [q| | |]; try done. simpl in *.
  destruct (m !! q_BuildID q) eqn:Hq; [done|]. destruct (is_err _); simplify_eq/=.
  rewrite map_size_insert, Hq in Hs. simpl in Hs. apply Z.leb_gt. lia.
Qed.

(** Nothing fails, and the state file is within the reader's limit. *)
Definition healthy (io : FileFaults) : Prop :=
  lock_taken io = true ∧ stat_regular io = true ∧ stat_private io = true ∧ open_ok io = true ∧
  read_complete io = true ∧ temp_written io = true ∧ rename_ok io = true ∧ dir_synced io = true.

Definition readable (maxEntries : Z) (file : option string) : Prop :=
  ∀ contents, file = Some contents → len contents ≤ size_limit maxEntries.

Lemma readState_healthy `{!Codec runState} maxEntries io file m :
  healthy io → readable maxEntries file → holds_file maxEntries file m →
  readState maxEntries io file = Ok ({| st_Version := runStateVersion; st_Records := Some m |}, m).
Proof.
  intros (_ & H2 & H3 & H4 & H5 & _) Hlim (contents & v & -> & Hu & Hv).
  unfold readState. rewrite H2, H3, H4, H5. simpl.
  assert ((size_limit maxEntries <? len contents) = false) as -> by (apply Z.ltb_ge; by apply Hlim).
  rewrite Hu. rewrite Hv. apply validateRunState_Ok in Hv as [-> _]. done.
Qed.

Lemma save_healthy `{!Codec runState} {A} maxEntries io file records (a : A) state contents :
  healthy io → validateRunState {| st_Version := st_Version state; st_Records := Some records |} maxEntries = Ok tt →
  marshal {| st_Version := st_Version state; st_Records := Some records |} = Some contents →
  save maxEntries io file state records a = (Some contents, Ok a).
Proof.
  intros (_ & _ & _ & _ & _ & H6 & H7 & H8) Hv Hc. unfold save, writeState. rewrite Hv, Hc, H6, H7, H8. done.
Qed.

(** ** What a stored success proves *)

(** One evidence reference of an image in [repository]. *)
Definition evidence_ok (repository : string) (reference : EvidenceReference) : Prop :=
  ev_Reference reference = repository +:+ "@" +:+ ev_ManifestDigest reference ∧
  is_digest (ev_ManifestDigest reference) = true ∧ is_digest (ev_PayloadDigest reference) = true.

(** The evidence of [output]: every expected kind exactly once, each under its own
    manifest of the output's repository; the policy accepted it, the scan passed,
    a named signer key signed it. *)
Definition output_proven (output : OutputResult) : Prop :=
  let chain := o_SupplyChain output in
  ∃ repository rest,
    o_ArtifactRef output = repository +:+ "@" +:+ rest ∧ repository ≠ "" ∧
    (ev_Kind <$> sc_Evidence chain) ≡ₚ evidence_kinds ∧
    NoDup (ev_ManifestDigest <$> sc_Evidence chain) ∧ Forall (evidence_ok repository) (sc_Evidence chain) ∧
    sc_PolicyState chain = "accepted" ∧ sc_ScanState chain = "passed" ∧
    is_digest (sc_SignerPublicKeyDigest chain) = true ∧ 1 ≤ sc_SignerKeyVersion chain ∧
    is_digest (o_ArtifactDigest output) = true ∧ 0 < o_ArtifactSize output.

Lemma existsb_eqb_elem x xs : existsb (String.eqb x) xs = true ↔ (x ∈ xs).
Proof.
  rewrite existsb_exists. split.
  - intros (y & Hy & E). apply String.eqb_eq in E as <-. by apply list_elem_of_In.
  - intros Hx. exists x. rewrite String.eqb_refl. split; [by apply list_elem_of_In|done].
Qed.

Lemma existsb_eqb_not_elem x xs : existsb (String.eqb x) xs = false ↔ (x ∉ xs).
Proof. rewrite <- not_true_iff_false. by rewrite existsb_eqb_elem. Qed.

Lemma filter_out_perm (k : string) expected :
  NoDup expected → k ∈ expected → expected ≡ₚ k :: filter (fun kind => kind ≠ k) expected.
Proof.
  intros Hnd Hk. apply NoDup_Permutation; [done| |].
  - constructor; [rewrite list_elem_of_filter; naive_solver|by apply NoDup_filter].
  - intros x. rewrite elem_of_cons, list_elem_of_filter. destruct (decide (x = k)); naive_solver.
Qed.

Lemma check_evidence_spec repository expected seen evidence :
  NoDup expected → check_evidence repository expected seen evidence = true →
  (ev_Kind <$> evidence) ≡ₚ expected ∧ NoDup (ev_ManifestDigest <$> evidence) ∧
  (∀ d, d ∈ (ev_ManifestDigest <$> evidence) → d ∉ seen) ∧ Forall (evidence_ok repository) evidence.
Proof.
  revert expected seen. induction evidence as [|reference rest IH]; simpl; intros expected seen Hnd Hc.
  { bsimpl. apply nil_length_inv in Hc as ->. split_and!; try constructor. set_solver. }
  destruct (_ || negb (is_digest (ev_PayloadDigest reference))) eqn:E1; [done|].
  destruct (existsb _ seen) eqn:E2; [done|]. bsimpl.
  apply existsb_eqb_not_elem in E2.
  match goal with Hk : existsb _ expected = true |- _ => apply existsb_eqb_elem in Hk end.
  apply IH in Hc as (Hp & Hd & Hs & Hf); [|by apply NoDup_filter]. split_and!.
  - rewrite Hp. symmetry. by apply filter_out_perm.
  - constructor; [|done]. intros Hin. apply (Hs _ Hin). left.
  - set_solver.
  - constructor; [by repeat split|done].
Qed.

Lemma evidence_kinds_NoDup : NoDup evidence_kinds.
Proof. apply (bool_decide_unpack _). vm_compute. reflexivity. Qed.

Lemma invalid_output_false names output :
  invalid_output names output = false → (o_Name output ∉ names) ∧ output_proven output.
Proof.
  unfold invalid_output. intros Hi. bsimpl.
  match goal with Hn : existsb _ names = false |- _ => apply existsb_eqb_not_elem in Hn end.
  split; [done|].
  match goal with Hs : validStoredSupplyChainIdentity _ = true |- _ =>
    unfold validStoredSupplyChainIdentity in Hs; cbv zeta in Hs;
    destruct (_ || negb (is_digest (sc_SignerPublicKeyDigest _))) eqn:E1; [done|];
    destruct (Cut _ _) as [[repository rest]|] eqn:Hcut; [|done];
    destruct (String.eqb_spec repository ""); [done|];
    apply check_evidence_spec in Hs as (Hp & Hd & _ & Hf); [|apply evidence_kinds_NoDup]
  end.
  apply Cut_Some in Hcut. bsimpl. exists repository, rest. destruct_and?. split_and!; try done; lia.
Qed.

Lemma check_outputs_spec names outputs u :
  check_outputs names outputs = Ok u →
  NoDup (o_Name <$> outputs) ∧ (∀ n, n ∈ (o_Name <$> outputs) → n ∉ names) ∧ Forall output_proven outputs.
Proof.
  revert names. induction outputs as [|output rest IH]; simpl; intros names Hc.
  { split_and!; try constructor. set_solver. }
  destruct (invalid_output names output) eqn:Hi; [done|]. apply invalid_output_false in Hi as [Hn Ho].
  apply IH in Hc as (Hnd & Hs & Hf). split_and!.
  - constructor; [|done]. intros Hin. apply (Hs _ Hin). left.
  - set_solver.
  - by constructor.
Qed.

Lemma clean_report_true report : clean_report report = true ↔ proven_clean report.
Proof.
  unfold clean_report, proven_clean. rewrite !andb_true_iff, !String.eqb_eq, Nat.eqb_eq, length_zero_iff_nil.
  naive_solver.
Qed.

Lemma validateTerminalResult_complete result buildID payloadDigest u :
  validateTerminalResult result buildID payloadDigest = Ok u → r_Phase result = PhaseComplete →
  proven_clean (r_Cleanup result) ∧ r_ErrorCode result = "" ∧ r_Attempts result ≠ 0 ∧
  w_Attempt (r_Worker result) = r_Attempts result ∧ w_BuildID (r_Worker result) = buildID ∧
  proven_clean (w_Cleanup (r_Worker result)) ∧ w_Outputs (r_Worker result) ≠ [] ∧
  NoDup (o_Name <$> w_Outputs (r_Worker result)) ∧ Forall output_proven (w_Outputs (r_Worker result)).
Proof.
  unfold validateTerminalResult. intros Hv Hp. rewrite Hp in Hv.
  destruct (_ || negb (String.eqb (cl_BuildID _) _)); [done|]. cbv zeta in Hv.
  rewrite String.eqb_refl in Hv. destruct (_ || Nat.eqb _ 0) eqn:E; [done|].
  apply check_outputs_spec in Hv as (Hnd & _ & Hf). bsimpl.
  repeat match goal with Hc : clean_report _ = true |- _ => apply clean_report_true in Hc end.
  split_and!; try done. intros Hnil. rewrite Hnil in *. done.
Qed.

End Decide.
End RunStoreLaws.
