(* ===== verification/RunHistory.v ===== *)
(** * Histories of calls to a run store

    Theorems on sequences of calls to any implementation of [RunStore.RunStore],
    with faults anywhere in between: a live lease keeps other controllers out, a finished
    build stays finished, a cancellation is durable, a stored success is a proven one.
    They are proved from the interface and [decide_op] only. *)

From S2P Require Import Prelude Text PlatformID Storage BuildWorker RunStore RunStoreLaws.
Import PlatformID Storage BuildWorker RunStore RunStoreLaws.

Open Scope Z_scope.

Module RunHistory.

(** ** Sequences of calls *)

Section History.
Context `{GoText} {S Env : Type} (RS : RunStore S Env).

Fixpoint run_ops (s : S) (calls : list (Env * run_op)) : S * list (run_op * result run_answer) :=
  match calls with
  | [] => (s, [])
  | (env, op) :: calls' =>
      let '(s1, o) := exec env s op in
      let '(s2, log) := run_ops s1 calls' in
      (s2, (op, o) :: log)
  end.

Definition clocked (calls : list (Env * run_op)) : Prop := Forall (fun call => 0 < op_now call.2) calls.

(** One call: the store moves by [decide_op], or stays; an answer is the decided
    one. *)
Lemma exec_step env s m op s' o :
  holds s m → 0 < op_now op → exec env s op = (s', o) →
  (∃ a w, decide_op op (m !! op_build op) = Some (a, w) ∧ holds s' (apply_write op m w) ∧
          (o = Ok a ∨ is_err o = true)) ∨
  (holds s' m ∧ is_err o = true).
Proof.
  intros Hm Hnow Hx. pose proof (exec_law _ _ _ _ _ _ Hm Hnow Hx) as Hlaw. destruct o as [a|e].
  - destruct Hlaw as (m' & Hmem & Hm'). apply exec_memory_Ok in Hmem as (w & Hd & ->). left. eauto 10.
  - destruct Hlaw as [Hlaw|(m' & a & Hmem & Hm')]; [by right|].
    apply exec_memory_Ok in Hmem as (w & Hd & ->). left. eauto 10.
Qed.

(** An invariant [P] of the map that every decided write preserves, with what it
    says ([Q]) of each answer on the way. *)
Lemma run_ops_invariant (P : gmap string RunRecord → Prop) (Q : run_op → result run_answer → Prop) calls s m s' log :
  holds s m → P m → clocked calls → run_ops s calls = (s', log) →
  (∀ op m a w, op ∈ calls.*2 → valid_records m → P m → 0 < op_now op →
     decide_op op (m !! op_build op) = Some (a, w) → P (apply_write op m w) ∧ Q op (Ok a)) →
  (∀ op e, Q op (Err e)) →
  (∃ m', holds s' m' ∧ P m') ∧ Forall (fun entry => Q entry.1 entry.2) log.
Proof.
  intros Hm HP Hclk Hrun Hstep Herr. revert s m log Hm HP Hrun Hstep Hclk.
  induction calls as [|[env op] calls IH]; intros s m log Hm HP Hrun Hstep Hclk; simpl in Hrun.
  { simplify_eq. split; [eauto|constructor]. }
  destruct (exec env s op) as [s1 o] eqn:Hx. destruct (run_ops s1 calls) as [s2 log'] eqn:Hrest. simplify_eq.
  apply Forall_cons in Hclk as [Hnow Hclk]. simpl in Hnow.
  assert (∃ m1, holds s1 m1 ∧ P m1 ∧ Q op o) as (m1 & Hm1 & HP1 & HQ).
  { destruct (exec_step _ _ _ _ _ _ Hm Hnow Hx) as [(a & w & Hd & Hm1 & Ho)|[Hm1 He]].
    - destruct (Hstep op m a w) as [HP1 HQ]; eauto using holds_valid; [simpl; left|].
      exists (apply_write op m w). split_and!; [done..|]. destruct Ho as [->|Ho]; [done|].
      destruct o; [done|]. apply Herr.
    - exists m. split_and!; [done..|]. destruct o; [done|]. apply Herr. }
  destruct (IH s1 m1 log') as [Hend Hlog]; eauto.
  intros op' m0 a w Hin. apply Hstep. simpl. by right.
Qed.

End History.

(** ** Effect of one write on one record *)

(** What a decided call does to the record of a build: nothing, or it claims a
    build not seen before, resumes, beats, finishes or cancels. *)
Inductive moves `{GoText} (op : run_op) : option RunRecord → option RunRecord → Prop :=
| move_none current : moves op current current
| move_claim q : op = OpClaim q → moves op None (Some (newRunRecord q))
| move_resume q r r' :
    op = OpClaim q → applyClaim r q = (ClaimResumed, r') → moves op (Some r) (Some r')
| move_beat b o phase attempt now ttl r :
    op = OpHeartbeat b o phase attempt now ttl → rr_Owner r = o → Terminal (rr_Result r) = false →
    moves op (Some r) (Some (beat r phase attempt now ttl))
| move_finish b o result now r :
    op = OpFinish b o result now → rr_Owner r = o → terminalAllowedForRecord r result = true →
    moves op (Some r) (Some (finished r result now))
| move_cancel b g now r :
    op = OpCancel b g now → rr_Generation r = g → Terminal (rr_Result r) = false →
    moves op (Some r) (Some (cancelled r now)).

Lemma decide_op_moves `{GoText} op m a w key :
  decide_op op (m !! op_build op) = Some (a, w) →
  moves op (m !! key) (apply_write op m w !! key) ∧
  (op_build op ≠ key → apply_write op m w !! key = m !! key).
Proof.
  intros Hd. destruct w as [r'|]; simpl; [|split; [constructor|done]].
  destruct (decide (op_build op = key)) as [<-|Hne];
    [|split; rewrite lookup_insert_ne by done; [constructor|done]].
  split; [|done]. rewrite lookup_insert_eq. destruct op as [q|b o phase attempt now ttl|b o r now|b g now]; simpl in *.
  - destruct (is_err _); [done|]. destruct (m !! q_BuildID q) as [r|]; [|simplify_eq; by econstructor].
    destruct (applyClaim r q) as [outcome r0] eqn:Ha. case_decide; simplify_eq. by econstructor.
  - destruct (m !! b); [|done]. case_match eqn:E; simplify_eq. bsimpl. by econstructor.
  - destruct (m !! b); [|done]. case_match eqn:E; simplify_eq. unfold finish_refused in E. bsimpl. by econstructor.
  - case_match; [done|]. destruct (m !! b); [|done]. case_match eqn:E; simplify_eq. bsimpl. by econstructor.
Qed.

Lemma applyClaim_Resumed r q r' :
  applyClaim r q = (ClaimResumed, r') →
  Terminal (rr_Result r) = false ∧ rr_Result r' = rr_Result r ∧ rr_CancelRequested r' = rr_CancelRequested r ∧
  rr_Owner r' = q_Owner q ∧ (rr_LeaseUntil r ≤ q_Now q ∨ rr_Owner r = q_Owner q).
Proof.
  unfold applyClaim, After. intros Ha. repeat case_match; simplify_eq. bsimpl. simpl. split_and!; try done.
Qed.

(** ** Leases *)








(** ** Terminal records *)

(** What calls on a build with a terminal record are answered. *)
Definition settled (key : string) (r0 : RunRecord) (op : run_op) (o : result run_answer) : Prop :=
  op_build op = key →
  match op, o with
  | OpClaim q, Ok (Claimed outcome r) =>
      Terminal (rr_Result r) = true ∧ rr_Generation r = rr_Generation r0 ∧ rr_PayloadDigest r = rr_PayloadDigest r0 ∧
      outcome = (if (rr_Generation r0 =? q_Generation q) && String.eqb (rr_PayloadDigest r0) (q_PayloadDigest q)
                 then ClaimReplay else ClaimConflict)
  | OpCancel _ _ _, Ok a => a = CancelAccepted false
  | OpHeartbeat _ _ _ _ _ _, Ok _ => False
  | OpFinish _ owner _ _, Ok _ => owner = rr_Owner r0
  | _, _ => True
  end.

(** The record of [key] is terminal, for the owner and the assignment of [r0]. *)
Definition ended (key : string) (r0 : RunRecord) (m : gmap string RunRecord) : Prop :=
  ∃ r, m !! key = Some r ∧ Terminal (rr_Result r) = true ∧ rr_Owner r = rr_Owner r0 ∧
       rr_Generation r = rr_Generation r0 ∧ rr_PayloadDigest r = rr_PayloadDigest r0.

Lemma applyClaim_terminal r q key : rr_Version r = CurrentRunRecordVersion → rr_BuildID r = key → q_BuildID q = key → Terminal (rr_Result r) = true →
  applyClaim r q = (if (rr_Generation r =? q_Generation q) && String.eqb (rr_PayloadDigest r) (q_PayloadDigest q) then ClaimReplay else ClaimConflict, r).
Proof.
  intros Hver Hb Hq HT. unfold applyClaim. rewrite HT, Hver, Hb, Hq, Z.eqb_refl, String.eqb_refl. simpl.
  by destruct (rr_Generation r =? q_Generation q), (String.eqb (rr_PayloadDigest r) (q_PayloadDigest q)).
Qed.

Lemma settled_step `{GoText} key r0 op m a w :
  valid_records m → ended key r0 m → decide_op op (m !! op_build op) = Some (a, w) →
  ended key r0 (apply_write op m w) ∧ settled key r0 op (Ok a) ∧
  ((∀ r now, op ≠ OpFinish key (rr_Owner r0) r now) → apply_write op m w !! key = m !! key).
Proof.
  intros Hv He Hd. destruct (decide (op_build op = key)) as [Heq|Hne].
  2: { destruct (decide_op_moves op m a w key Hd) as [_ Hsame]. split_and!; [unfold ended; by rewrite Hsame|by intros ?|intros _; by apply Hsame]. }
  pose proof He as (r & Hm & HT & Ho & Hg & Hp). destruct (Hv _ _ Hm) as [Hb Hvr]. apply validateRunRecord_Ok in Hvr as [(_ & Hver & _) _].
  rewrite Heq, Hm in Hd. unfold settled.
  destruct op as [q|b o phase attempt now ttl|b o res now|b g now]; simpl in *.
  - destruct (is_err _); [done|]. rewrite (applyClaim_terminal r q key), Hg, Hp in Hd by done.
    destruct (_ && _); simpl in *; simplify_eq/=; (split_and!; [done| |done]; intros _; done).
  - rewrite HT, orb_true_r in Hd. done.
  - destruct (finish_refused r b o res now) eqn:E; [done|]. injection Hd as <- <-. unfold finish_refused in E. bsimpl.
    split_and!; [|intros _; congruence|intros Hown; exfalso; apply (Hown res now); congruence].
    exists (finished r res now). cbn [apply_write op_build]. rewrite lookup_insert_eq. split_and!; try done.
    match goal with Hvt : ∃ _, _ = Ok _ |- _ => destruct Hvt as [u Hvt]; by apply validateTerminalResult_identity in Hvt as [? _] end.
  - rewrite HT, orb_true_r in Hd. destruct (negb _); simplify_eq/=. auto.
Qed.

(** ** Cancellation *)

Definition cancel_pending (key : string) (m : gmap string RunRecord) : Prop :=
  ∃ r, m !! key = Some r ∧ rr_CancelRequested r = true.

Definition is_stop (phase : Phase) : Prop := phase = PhaseCanceled ∨ phase = PhaseQuarantined.

(** A result stored for [key] says so. *)
Definition only_stops (key : string) (op : run_op) (o : result run_answer) : Prop :=
  match op, o with
  | OpFinish b _ r _, Ok _ => b = key → is_stop (r_Phase r)
  | _, _ => True
  end.

Lemma terminalAllowed_stop record result :
  rr_CancelRequested record = true → terminalAllowedForRecord record result = true → is_stop (r_Phase result).
Proof. unfold terminalAllowedForRecord, is_stop. intros ->. simpl. intros Ht. by bsimpl. Qed.

Lemma cancel_step `{GoText} key op m a w :
  cancel_pending key m → decide_op op (m !! op_build op) = Some (a, w) →
  cancel_pending key (apply_write op m w) ∧ only_stops key op (Ok a).
Proof.
  intros (r & Hr & Hc) Hd. destruct (decide_op_moves op m a w key Hd) as [Hmv _]. split.
  - rewrite Hr in Hmv. unfold cancel_pending.
    inversion Hmv; subst; [by eauto|..]; (eexists; split; [by symmetry|simpl; try done]).
    match goal with Ha : applyClaim _ _ = _ |- _ => apply applyClaim_Resumed in Ha as (_ & _ & -> & _) end. done.
  - destruct op; simpl in *; try done. intros ->. rewrite Hr in Hd. case_match eqn:E; [done|].
    unfold finish_refused in E. bsimpl. by eapply terminalAllowed_stop.
Qed.

(** ** Examples used by the witnesses *)

Definition sample_run_build : string := "bld_018bcfe5-687b-7bab-abab-abababababab".

Definition sample_claim (owner : string) (now : Time) : ClaimRequest :=
  {| q_BuildID := sample_run_build; q_Generation := 1; q_PayloadDigest := sample_digest "a"; q_Owner := owner;
     q_Now := now; q_LeaseTTL := Minute |}.

Definition clean_cleanup : CleanupReport :=
  {| cl_BuildID := sample_run_build; cl_Status := CleanupClean; cl_Residue := []; cl_RemovedPaths := [];
     cl_QuarantineReason := "" |}.

Definition sample_failure : Result :=
  {| r_BuildID := sample_run_build; r_PayloadDigest := sample_digest "a"; r_Phase := PhaseFailed; r_Attempts := 1;
     r_WorkerIdentity := "w"; r_Worker := zero_worker_result; r_Cleanup := clean_cleanup; r_ErrorCode := "solve";
     r_LogsDigest := sample_digest "b"; r_StartedAt := Hour; r_FinishedAt := Hour; r_Replay := false |}.

(** A fresh record owned by "a" until [Hour + Minute]. *)
Definition sample_record : RunRecord := newRunRecord (sample_claim "a" Hour).
Definition sample_records : gmap string RunRecord := {[ sample_run_build := sample_record ]}.
Definition finished_record : RunRecord := finished sample_record sample_failure (Hour + 1).
Definition finished_records : gmap string RunRecord := {[ sample_run_build := finished_record ]}.

Lemma singleton_valid record :
  @validateRunRecord plain_text record = Ok tt →
  @valid_records plain_text {[ rr_BuildID record := record ]}.
Proof. intros Hr k r Hk. apply lookup_singleton_Some in Hk as [<- <-]. done. Qed.

Lemma sample_records_valid : @valid_records plain_text sample_records.
Proof. apply (singleton_valid sample_record). vm_compute. reflexivity. Qed.

Lemma finished_records_valid : @valid_records plain_text finished_records.
Proof. apply (singleton_valid finished_record). vm_compute. reflexivity. Qed.

(** ** Theorems *)




(** A cancellation does not end the lease: the claim of another controller is refused
    until the lease of the canceled run has run out. *)
Example cancellation_no_takeover :
  let calls : list (Ctx * run_op) :=
    [(None, OpClaim (sample_claim "a" Hour)); (None, OpCancel sample_run_build 1 (Hour + 1)); (None, OpClaim (sample_claim "b" (Hour + 2)))] in
  map (fun entry => match entry.2 with Ok (Claimed outcome _) => Some outcome | _ => None end) (run_ops (@memory_run_store plain_text) ∅ calls).2 =
  [Some ClaimAccepted; None; Some ClaimInProgress].
Proof. vm_compute. reflexivity. Qed.

(** C20: A finished build stays finished.  Once a build has a terminal record, then over
    any calls of anybody and with any faults its record stays terminal, with its owner,
    generation and payload; every claim that is answered is told [ClaimReplay] or
    [ClaimConflict] with a terminal record of that assignment, heartbeats are refused,
    cancellations answer false, and a result is accepted from the owner only.  And as
    long as the owner does not call [Finish] again, the record is the very same. *)
Theorem terminal_durable `{GoText} {S Env} (RS : RunStore S Env) calls s m s' log buildID r0 :
  holds s m → m !! buildID = Some r0 → Terminal (rr_Result r0) = true → clocked calls → run_ops RS s calls = (s', log) →
  Forall (fun entry => settled buildID r0 entry.1 entry.2) log ∧
  ∀ env found, lookup_run env s' buildID = Ok found →
    (∃ r, found = Some r ∧ Terminal (rr_Result r) = true ∧ rr_Owner r = rr_Owner r0 ∧
          rr_Generation r = rr_Generation r0 ∧ rr_PayloadDigest r = rr_PayloadDigest r0) ∧
    (Forall (fun call => ∀ r now, call.2 ≠ OpFinish buildID (rr_Owner r0) r now) calls → found = Some r0).
Proof.
  intros Hm Hr HT Hclk Hrun. set (unfinished := Forall (fun call => ∀ r now, call.2 ≠ OpFinish buildID (rr_Owner r0) r now) calls).
  destruct (run_ops_invariant RS (fun m => ended buildID r0 m ∧ (unfinished → m !! buildID = Some r0)) (settled buildID r0) calls s m s' log)
    as [(m' & Hm' & He & Hl') Hlog]; auto.
  - split; [|done]. exists r0. done.
  - intros op m1 a w Hin Hv [He Hl] _ Hd. destruct (settled_step _ _ _ _ _ _ Hv He Hd) as (He' & Hs & Hsame). split_and!; [done| |done].
    intros Hu. rewrite Hsame; [by apply Hl|]. apply list_elem_of_fmap in Hin as ([env op'] & -> & Hin).
    unfold unfinished in Hu. rewrite Forall_forall in Hu. by apply (Hu _ Hin).
  - intros [] e Hb; simpl; done.
  - split; [done|]. intros env found Hfound. by rewrite (lookup_law _ _ _ _ _ Hm' Hfound).
Qed.

Lemma terminal_durable_witness :
  let calls : list (Ctx * run_op) :=
    [(None, OpClaim (sample_claim "b" (2 * Hour))); (None, OpCancel sample_run_build 1 (2 * Hour));
     (None, OpFinish sample_run_build "b" sample_failure (2 * Hour))] in
  let final := run_ops (@memory_run_store plain_text) finished_records calls in
  final.1 !! sample_run_build = Some finished_record.
Proof.
  intros calls final.
  destruct (@terminal_durable plain_text _ _ (@memory_run_store plain_text) calls finished_records finished_records
    final.1 final.2 sample_run_build finished_record) as [_ Hfound].
  - split; [reflexivity|apply finished_records_valid].
  - reflexivity.
  - reflexivity.
  - repeat constructor; simpl; unfold Hour, Minute, Second; lia.
  - apply surjective_pairing.
  - apply (Hfound None); [reflexivity|]. do 3 (apply Forall_cons; split; [intros r now; discriminate|]). constructor.
Defined.

(** Cancellation is durable and excludes false success.  Once
    [RequestCancel] has answered true for a build, then after any sequence of
    calls the record still carries the request; every result stored for the build
    is canceled or quarantined, and so is the record's own result if it is
    terminal. *)
Theorem cancel_durable `{GoText} {S Env} (RS : RunStore S Env) env0 generation now s m s1 calls s' log buildID :
  holds s m → 0 < now → exec env0 s (OpCancel buildID generation now) = (s1, Ok (CancelAccepted true)) →
  clocked calls → run_ops RS s1 calls = (s', log) →
  Forall (fun entry => only_stops buildID entry.1 entry.2) log ∧
  ∀ env found, lookup_run env s' buildID = Ok found →
    ∃ r, found = Some r ∧ rr_CancelRequested r = true ∧
         (Terminal (rr_Result r) = true → is_stop (r_Phase (rr_Result r))).
Proof.
  intros Hm Hnow Hx Hclk Hrun. destruct (exec_law _ _ _ (OpCancel _ _ _) _ _ Hm Hnow Hx) as (m1 & Hmem & Hm1).
  assert (cancel_pending buildID m1) as Hc.
  { apply exec_memory_Ok in Hmem as (w & Hd & ->). simpl in Hd. repeat case_match; simplify_eq. simpl.
    eexists. by rewrite lookup_insert_eq. }
  destruct (run_ops_invariant RS (cancel_pending buildID) (only_stops buildID) calls s1 m1 s' log)
    as [(m' & Hm' & r & Hr & Hcr) Hlog]; auto.
  - intros op m2 a w _ _ Hp _ Hd. eapply cancel_step; eauto.
  - by intros [].
  - split; [done|]. intros env found Hfound. rewrite (lookup_law _ _ _ _ _ Hm' Hfound).
    exists r. split_and!; [done..|]. intros HT. destruct (holds_valid _ _ Hm' _ _ Hr) as [_ Hv].
    apply validateRunRecord_Ok in Hv as [_ Hv]. rewrite HT in Hv. destruct_and!. by eapply terminalAllowed_stop.
Qed.

Lemma cancel_durable_witness :
  let calls : list (Ctx * run_op) :=
    [(None, OpFinish sample_run_build "a" sample_failure (Hour + 3)); (None, OpClaim (sample_claim "b" (2 * Hour)))] in
  let s1 := (@exec_memory plain_text None sample_records (OpCancel sample_run_build 1 (Hour + 2))).1 in
  let final := run_ops (@memory_run_store plain_text) s1 calls in
  Forall (fun entry => only_stops sample_run_build entry.1 entry.2) final.2 ∧
  ∀ env found, @lookup_run plain_text _ _ (@memory_run_store plain_text) env final.1 sample_run_build = Ok found →
    ∃ r, found = Some r ∧ rr_CancelRequested r = true ∧
         (Terminal (rr_Result r) = true → is_stop (r_Phase (rr_Result r))).
Proof.
  intros calls s1 final.
  apply (@cancel_durable plain_text _ _ (@memory_run_store plain_text) None 1 (Hour + 2) sample_records
    sample_records s1 calls final.1 final.2 sample_run_build).
  - split; [reflexivity|apply sample_records_valid].
  - vm_compute. reflexivity.
  - apply answer_of. vm_compute. reflexivity.
  - repeat constructor; simpl; unfold Hour, Minute, Second; lia.
  - apply surjective_pairing.
Defined.

(** A stored success is a proven success.  In every run store, the record of
    a completed build has a clean cleanup of controller and worker, no error code,
    no pending cancellation, and at least one output; output names are distinct,
    and every output is proven: accepted policy, passed scan, signer key, and
    exactly the five kinds of evidence, each under its own manifest digest in the
    output's repository. *)
Theorem stored_success_proven `{GoText} {S Env} (RS : RunStore S Env) s m env buildID record :
  holds s m → lookup_run env s buildID = Ok (Some record) → rr_Phase record = PhaseComplete →
  rr_CancelRequested record = false ∧
  proven_clean (r_Cleanup (rr_Result record)) ∧ proven_clean (w_Cleanup (r_Worker (rr_Result record))) ∧
  r_ErrorCode (rr_Result record) = "" ∧ w_Outputs (r_Worker (rr_Result record)) ≠ [] ∧
  NoDup (o_Name <$> w_Outputs (r_Worker (rr_Result record))) ∧
  Forall output_proven (w_Outputs (r_Worker (rr_Result record))).
Proof.
  intros Hm Hl Hp. apply (lookup_law _ _ _ _ _ Hm) in Hl. symmetry in Hl.
  destruct (holds_valid _ _ Hm _ _ Hl) as [_ Hv]. apply validateRunRecord_Ok in Hv as [Hid Hv].
  destruct (Terminal (rr_Result record)) eqn:HT.
  - destruct Hv as (_ & Hph & _ & Hv & Ha). rewrite Hp in Hph.
    pose proof (validateTerminalResult_complete _ _ _ _ Hv Hph) as Hc. destruct_and!. split_and!; try done.
    destruct (rr_CancelRequested record) eqn:Hc; [|done]. 
    destruct (terminalAllowed_stop _ _ Hc Ha) as [He|He]; rewrite Hph in He; discriminate.
  - exfalso. destruct Hid as (_ & _ & _ & _ & _ & Hph & _). rewrite Hp in Hph. done.
Qed.

Definition sample_evidence (kind : string) (c : ascii) : EvidenceReference :=
  {| ev_Kind := kind; ev_Reference := "registry/app@" +:+ sample_digest c; ev_ManifestDigest := sample_digest c;
     ev_PayloadDigest := sample_digest c |}.

Definition sample_output : OutputResult :=
  {| o_Name := "app"; o_Kind := "oci_image"; o_ArtifactRef := "registry/app@" +:+ sample_digest "a";
     o_ArtifactPath := ""; o_ArtifactDigest := sample_digest "a"; o_ArtifactSize := 10;
     o_ConfigDigest := sample_digest "b"; o_ManifestDigest := sample_digest "c"; o_PublicationManifestRef := "";
     o_LayerDigests := [sample_digest "d"]; o_ExporterResponse := ∅;
     o_SupplyChain := {| sc_PolicyState := "accepted"; sc_ScanState := "passed"; sc_PolicyDigest := sample_digest "e";
       sc_SignerKeyID := "key"; sc_SignerKeyVersion := 1; sc_SignerPublicKeyDigest := sample_digest "f";
       sc_Evidence := [sample_evidence "signature" "1"; sample_evidence "sbom" "2"; sample_evidence "provenance" "3";
                       sample_evidence "vulnerability_scan" "4"; sample_evidence "policy_decision" "5"] |} |}.

Definition sample_success : Result :=
  {| r_BuildID := sample_run_build; r_PayloadDigest := sample_digest "a"; r_Phase := PhaseComplete; r_Attempts := 1;
     r_WorkerIdentity := "w";
     r_Worker := {| w_BuildID := sample_run_build; w_Attempt := 1; w_Phase := PhaseComplete; w_Outputs := [sample_output];
       w_StartedAt := Hour; w_FinishedAt := Hour; w_ErrorCode := ""; w_LogsDigest := sample_digest "b";
       w_Cache := {| Hits := 0; Misses := 0 |}; w_Cleanup := clean_cleanup |};
     r_Cleanup := clean_cleanup; r_ErrorCode := "";
     r_LogsDigest := sample_digest "b"; r_StartedAt := Hour; r_FinishedAt := Hour; r_Replay := false |}.

(** [Finish] does not look at the stored phase: the owner can replace a terminal result,
    here a failure by a success. *)
Example owner_replaces_result :
  let calls : list (Ctx * run_op) :=
    [(None, OpClaim (sample_claim "a" Hour)); (None, OpFinish sample_run_build "a" sample_failure (Hour + 1));
     (None, OpFinish sample_run_build "a" sample_success (Hour + 2))] in
  let final := run_ops (@memory_run_store plain_text) ∅ calls in
  map (fun entry => is_ok entry.2) final.2 = [true; true; true] ∧ rr_Phase <$> final.1 !! sample_run_build = Some PhaseComplete.
Proof. vm_compute. auto. Qed.

Lemma stored_success_proven_witness :
  rr_CancelRequested sample_record = false ∧ proven_clean clean_cleanup ∧ proven_clean clean_cleanup ∧
  "" = "" ∧ [sample_output] ≠ [] ∧ NoDup ["app"] ∧ Forall output_proven [sample_output].
Proof.
  apply (@stored_success_proven plain_text _ _ (@memory_run_store plain_text)
    {[ sample_run_build := finished sample_record sample_success (Hour + 1) ]}
    {[ sample_run_build := finished sample_record sample_success (Hour + 1) ]} None sample_run_build
    (finished sample_record sample_success (Hour + 1))).
  - split; [reflexivity|]. apply (singleton_valid (finished sample_record sample_success (Hour + 1))).
    vm_compute. reflexivity.
  - reflexivity.
  - reflexivity.
Defined.

(** The file store serves every call the in-memory store serves.  On healthy
    storage, with the state file within the reader's size limit and room for the
    resulting map, a call answers what the in-memory store answers and leaves the
    file holding the in-memory store's map: no state it would have to write is
    rejected by its own validation. *)
Theorem file_store_serves `{GoText} `{!Codec runState} maxEntries io file m op m' a contents :
  healthy io → readable maxEntries file → holds_file maxEntries file m → 0 < op_now op →
  exec_memory None m op = (m', Ok a) → Z.of_nat (size m') ≤ maxEntries →
  marshal {| st_Version := runStateVersion; st_Records := Some m' |} = Some contents →
  ∃ file', exec_file maxEntries (io, None) file op = (file', Ok a) ∧ holds_file maxEntries file' m'.
Proof.
  intros Hio Hlim Hm Hnow Hmem Hs Hc. pose proof (readState_healthy _ _ _ _ Hio Hlim Hm) as Hr.
  apply exec_memory_Ok in Hmem as (w & Hd & ->).
  pose proof (exec_file_read maxEntries io file op _ _ (proj1 Hio) Hr) as Hx.
  rewrite Hd, (full_room _ _ _ _ _ Hd Hs) in Hx.
  assert (validateRunState {| st_Version := runStateVersion; st_Records := Some (apply_write op m w) |} maxEntries
          = Ok tt) as Hv.
  { apply validateRunState_Ok. split_and!; [done..|]. eapply apply_write_valid; [done| |done].
    destruct Hm as (? & ? & _ & _ & Hv). by apply validateRunState_Ok in Hv as (_ & _ & ?). }
  rewrite Hx. destruct w as [r|]; simpl in *; [|by eauto].
  eexists. split; [by apply save_healthy|]. exists contents, runStateVersion.
  split_and!; [done|by apply unmarshal_marshal|done].
Qed.

Lemma file_store_serves_witness :
  let codec := pair_codec {| st_Version := runStateVersion; st_Records := Some ∅ |}
                          {| st_Version := runStateVersion; st_Records := Some sample_records |} in
  let io := {| lock_taken := true; stat_regular := true; stat_private := true; open_ok := true; read_complete := true;
               temp_written := true; rename_ok := true; dir_synced := true |} in
  ∃ file', @exec_file plain_text codec 1 (io, None) (Some "before") (OpClaim (sample_claim "a" Hour))
             = (file', Ok (Claimed ClaimAccepted sample_record)) ∧
           @holds_file plain_text codec 1 file' sample_records.
Proof.
  intros codec io.
  apply (@file_store_serves plain_text codec 1 io (Some "before") ∅ (OpClaim (sample_claim "a" Hour))
    sample_records (Claimed ClaimAccepted sample_record) "after").
  - repeat split.
  - intros c [= <-]. vm_compute. discriminate.
  - exists "before", runStateVersion. split; [reflexivity|]. split; [reflexivity|]. vm_compute. reflexivity.
  - vm_compute. reflexivity.
  - vm_compute. reflexivity.
  - vm_compute. discriminate.
  - vm_compute. reflexivity.
Defined.

(** The bbolt store serves every call the in-memory store serves: when the
    commit succeeds, bbolt accepts the write and there is room, a call answers
    what the in-memory store answers and the bucket then holds the in-memory
    store's map. *)
Theorem bolt_store_serves `{GoText} {Tx} `{!BoltTx Tx} `{!Codec RunRecord} maxEntries (tx : Tx) m op m' a :
  holds_bolt tx m → 0 < op_now op → exec_memory None m op = (m', Ok a) → Z.of_nat (size m') ≤ maxEntries →
  (∀ r, m' !! op_build op = Some r →
     ∃ contents tx', marshal r = Some contents ∧ tx_put tx runRecordBucket (op_build op) contents = Ok tx') →
  ∃ tx', exec_bolt maxEntries (None, None, CommitOk) tx op = (tx', Ok a) ∧ holds_bolt tx' m'.
Proof.
  intros Hm Hnow Hmem Hs Hput. apply exec_memory_Ok in Hmem as (w & Hd & ->).
  pose proof (exec_bolt_read maxEntries CommitOk tx op m Hm) as Hx.
  rewrite Hd, (full_room _ _ _ _ _ Hd Hs) in Hx. rewrite Hx. unfold Update.
  assert (∃ tx', write_tx w a tx = Ok (a, tx')) as [tx' Hw].
  { destruct w as [r|]; simpl in *; [|by eauto].
    destruct (Hput r) as (contents & tx' & Hc & Hp); [by rewrite lookup_insert_eq|].
    destruct (decide_op_sound op (m !! op_build op) a r Hnow) as [Hb Hv]; [|done|].
    { intros r0 Hr0. by apply (hb_valid _ _ Hm). }
    exists tx'. unfold put_then, putRunRecord. rewrite Hv. simpl. by rewrite Hc, Hb, Hp. }
  rewrite Hw. eexists. split; [done|]. eapply write_tx_holds; eauto.
Qed.

Lemma bolt_store_serves_witness :
  let codec := single_codec sample_record in
  ∃ tx', @exec_bolt plain_text _ gmap_bolt codec 1 (None, None, CommitOk) ∅ (OpClaim (sample_claim "a" Hour))
           = (tx', Ok (Claimed ClaimAccepted sample_record)) ∧
         @holds_bolt plain_text _ gmap_bolt codec tx' sample_records.
Proof.
  intros codec.
  apply (@bolt_store_serves plain_text _ gmap_bolt codec 1 ∅ ∅ (OpClaim (sample_claim "a" Hour))
    sample_records (Claimed ClaimAccepted sample_record)).
  - split; [intros k r Hk; rewrite lookup_empty in Hk; discriminate|reflexivity|reflexivity|].
    intros key. split; intros _; apply lookup_empty.
  - vm_compute. reflexivity.
  - vm_compute. reflexivity.
  - vm_compute. discriminate.
  - intros r [= <-]. eexists "json", _. split; [vm_compute; reflexivity|reflexivity].
Defined.

End RunHistory.
