(* ===== verification/Controller.v ===== *)
(** * The build controller (build-plane/internal/buildcontrol/controller.go)

    [Run] takes a signed assignment to a terminal result: it verifies and reserves
    the assignment, claims the durable run, resolves the artifacts, and then for
    each attempt acquires a capability lease, allocates a worker, waits for it
    under a heartbeat, releases the worker, revokes the lease, and decides the
    outcome from the cleanup reports and the worker's result.

    The program is a state monad over a [World]: the two stores, the event
    emitter, the lease's secrets, and a trace of the calls to the broker, the
    allocator and the worker.  Everything outside answers through an [Env], a
    record of oracles indexed by the number of calls made so far: clocks, contexts
    and channels, store faults, other controllers' calls to the store, the
    broker, the allocator and the worker. *)

From S2P Require Import Prelude StateMonad Text GoStd GoTime Crypto Framing PlatformID Storage BuildIR LLBPolicy LLBAudit Replay Assignment BuildWorker RunStore RunHistory.
Import StateMonad GoStd GoTime Crypto Framing PlatformID Storage LLBPolicy BuildWorker RunStore.

Open Scope Z_scope.

Module Controller.

(** ** types.go *)

Record CapabilityLease := {
  lease_ID : string;
  lease_ExpiresAt : Time;
  lease_Secrets : gmap string string;
  lease_Network : list NetworkCapability;
  lease_Caches : list CacheCapability;
}.

Record AllocationRequest := {
  al_Assignment : Assignment.ResolvedAssignment;
  al_Attempt : Z;
  al_LeaseID : string;
  al_Network : list NetworkCapability;
  al_Caches : list CacheCapability;
}.

(** An error chain, as far as [errors.As] looks for a [WorkerAllocationError]. *)
Inductive chain :=
| Plain (message : string)
| Wrapped (message : string) (err : chain)
| WorkerAllocationError (code : string) (err : chain).

Definition allocation_codes : list string :=
  ["worker_certificate_issue"; "worker_resource_prepare"; "worker_stale_cleanup"; "worker_resource_create";
   "worker_readiness"; "worker_connect"; "worker_connect_dial"; "worker_connect_tls"; "worker_connect_verify"].

Definition validWorkerAllocationCode (code : string) : bool := slices_Contains allocation_codes code.

Definition WrapWorkerAllocationError (code : string) (err : option chain) : chain :=
  match err with
  | Some e => if validWorkerAllocationCode code then WorkerAllocationError code e
              else Plain "worker allocation failure classification is invalid"
  | None => Plain "worker allocation failure classification is invalid"
  end.

Fixpoint As_allocation (err : chain) : option string :=
  match err with
  | Plain _ => None
  | Wrapped _ e => As_allocation e
  | WorkerAllocationError code _ => Some code
  end.

Definition WorkerAllocationErrorCode (err : chain) : string :=
  match As_allocation err with
  | Some code => if validWorkerAllocationCode code then code else "worker_allocate"
  | None => "worker_allocate"
  end.

(** ** Reports and results *)

Definition cleanupProvenClean (report : CleanupReport) : bool :=
  String.eqb (cl_Status report) CleanupClean && (length (cl_Residue report) =? 0)%nat &&
  String.eqb (cl_QuarantineReason report) "".

Definition appendReason (existing reason : string) : string :=
  if String.eqb reason "" then existing
  else if String.eqb existing "" then reason
  else existing +:+ "; " +:+ reason.

Definition noResourceCleanup (buildID : string) : CleanupReport :=
  {| cl_BuildID := buildID; cl_Status := CleanupClean; cl_Residue := []; cl_RemovedPaths := []; cl_QuarantineReason := "" |}.

(** Marks a report as quarantined with one more residue and reason. *)
Definition quarantine_with (report : CleanupReport) (kind detail reason : string) : CleanupReport :=
  {| cl_BuildID := cl_BuildID report; cl_Status := CleanupQuarantined;
     cl_Residue := cl_Residue report ++ [{| res_Kind := kind; res_Target := ""; res_Detail := detail |}];
     cl_RemovedPaths := cl_RemovedPaths report; cl_QuarantineReason := appendReason (cl_QuarantineReason report) reason |}.

(** One turn of the loop of [combineCleanupReports]. *)
Definition combine_report (buildID : string) (combined report : CleanupReport) : CleanupReport :=
  let combined :=
    if negb (String.eqb (cl_BuildID report) "") && negb (String.eqb (cl_BuildID report) buildID)
    then quarantine_with combined "cleanup_identity" "cleanup report belongs to another build" "cleanup identity mismatch"
    else combined in
  let proven := cleanupProvenClean report in
  {| cl_BuildID := cl_BuildID combined;
     cl_Status := if proven then cl_Status combined else CleanupQuarantined;
     cl_Residue := cl_Residue combined ++ cl_Residue report;
     cl_RemovedPaths := cl_RemovedPaths combined ++ cl_RemovedPaths report;
     cl_QuarantineReason := if proven then cl_QuarantineReason combined
                            else appendReason (cl_QuarantineReason combined) (cl_QuarantineReason report) |}.

Definition combineCleanupReports (buildID : string) (reports : list CleanupReport) : CleanupReport :=
  let combined := fold_left (combine_report buildID) reports (noResourceCleanup buildID) in
  if (0 <? length (cl_Residue combined))%nat then
    {| cl_BuildID := cl_BuildID combined; cl_Status := CleanupQuarantined; cl_Residue := cl_Residue combined;
       cl_RemovedPaths := cl_RemovedPaths combined;
       cl_QuarantineReason := appendReason (cl_QuarantineReason combined) "residue remains" |}
  else combined.

Definition failedResult (assignment : Assignment.VerifiedAssignment) (startedAt finishedAt : Time) (attempts : Z) (code : string) : Result :=
  let buildID := Assignment.p_BuildID (Assignment.va_Payload assignment) in
  {| r_BuildID := buildID; r_PayloadDigest := Assignment.va_PayloadDigest assignment; r_Phase := PhaseFailed;
     r_Attempts := attempts; r_WorkerIdentity := ""; r_Worker := zero_worker_result; r_Cleanup := noResourceCleanup buildID;
     r_ErrorCode := code; r_LogsDigest := ""; r_StartedAt := startedAt; r_FinishedAt := finishedAt; r_Replay := false |}.

Definition with_outcome (result : Result) (phase : Phase) (code : string) : Result :=
  {| r_BuildID := r_BuildID result; r_PayloadDigest := r_PayloadDigest result; r_Phase := phase;
     r_Attempts := r_Attempts result; r_WorkerIdentity := r_WorkerIdentity result; r_Worker := r_Worker result;
     r_Cleanup := r_Cleanup result; r_ErrorCode := code; r_LogsDigest := r_LogsDigest result;
     r_StartedAt := r_StartedAt result; r_FinishedAt := r_FinishedAt result; r_Replay := r_Replay result |}.

Definition with_cleanup (result : Result) (cleanup : CleanupReport) : Result :=
  {| r_BuildID := r_BuildID result; r_PayloadDigest := r_PayloadDigest result; r_Phase := r_Phase result;
     r_Attempts := r_Attempts result; r_WorkerIdentity := r_WorkerIdentity result; r_Worker := r_Worker result;
     r_Cleanup := cleanup; r_ErrorCode := r_ErrorCode result; r_LogsDigest := r_LogsDigest result;
     r_StartedAt := r_StartedAt result; r_FinishedAt := r_FinishedAt result; r_Replay := r_Replay result |}.

Definition with_logs (result : Result) (digest : string) : Result :=
  {| r_BuildID := r_BuildID result; r_PayloadDigest := r_PayloadDigest result; r_Phase := r_Phase result;
     r_Attempts := r_Attempts result; r_WorkerIdentity := r_WorkerIdentity result; r_Worker := r_Worker result;
     r_Cleanup := r_Cleanup result; r_ErrorCode := r_ErrorCode result; r_LogsDigest := digest;
     r_StartedAt := r_StartedAt result; r_FinishedAt := r_FinishedAt result; r_Replay := r_Replay result |}.

Definition as_replay (result : Result) : Result :=
  {| r_BuildID := r_BuildID result; r_PayloadDigest := r_PayloadDigest result; r_Phase := r_Phase result;
     r_Attempts := r_Attempts result; r_WorkerIdentity := r_WorkerIdentity result; r_Worker := r_Worker result;
     r_Cleanup := r_Cleanup result; r_ErrorCode := r_ErrorCode result; r_LogsDigest := r_LogsDigest result;
     r_StartedAt := r_StartedAt result; r_FinishedAt := r_FinishedAt result; r_Replay := true |}.

Definition capabilityRevokeResult (assignment : Assignment.VerifiedAssignment) (startedAt finishedAt : Time) (attempts : Z) : Result :=
  let result := with_outcome (failedResult assignment startedAt finishedAt attempts "capability_revoke")
                  PhaseQuarantined "capability_revoke" in
  with_cleanup result
    {| cl_BuildID := Assignment.p_BuildID (Assignment.va_Payload assignment); cl_Status := CleanupQuarantined;
       cl_Residue := [{| res_Kind := "temporary_credential"; res_Target := ""; res_Detail := "capability revocation failed" |}];
       cl_RemovedPaths := []; cl_QuarantineReason := "capability revocation failed" |}.

Definition canceledResult (assignment : Assignment.VerifiedAssignment) (startedAt finishedAt : Time) (attempts : Z)
    (worker : WorkerResult) : Result :=
  {| r_BuildID := Assignment.p_BuildID (Assignment.va_Payload assignment); r_PayloadDigest := Assignment.va_PayloadDigest assignment;
     r_Phase := PhaseCanceled; r_Attempts := attempts; r_WorkerIdentity := ""; r_Worker := worker; r_Cleanup := w_Cleanup worker;
     r_ErrorCode := "canceled"; r_LogsDigest := ""; r_StartedAt := startedAt; r_FinishedAt := finishedAt; r_Replay := false |}.

Definition canceledWithoutWorkerResult (assignment : Assignment.VerifiedAssignment) (startedAt finishedAt : Time) (attempts : Z) : Result :=
  let buildID := Assignment.p_BuildID (Assignment.va_Payload assignment) in
  {| r_BuildID := buildID; r_PayloadDigest := Assignment.va_PayloadDigest assignment; r_Phase := PhaseCanceled;
     r_Attempts := attempts; r_WorkerIdentity := ""; r_Worker := zero_worker_result; r_Cleanup := noResourceCleanup buildID;
     r_ErrorCode := "canceled"; r_LogsDigest := ""; r_StartedAt := startedAt; r_FinishedAt := finishedAt; r_Replay := false |}.

(** ** Validation of leases and results *)

Definition equalNetworkCapability (left right : NetworkCapability) : bool :=
  String.eqb (nc_NodeID left) (nc_NodeID right) && String.eqb (nc_Profile left) (nc_Profile right) &&
  String.eqb (nc_GatewayID left) (nc_GatewayID right) && bool_decide (nc_Hosts left = nc_Hosts right).

(** [slices.EqualFunc] *)
Fixpoint EqualFunc {A} (eq : A → A → bool) (left right : list A) : bool :=
  match left, right with
  | [], [] => true
  | l :: left', r :: right' => eq l r && EqualFunc eq left' right'
  | _, _ => false
  end.

Definition equalNetworkCapabilities : list NetworkCapability → list NetworkCapability → bool := EqualFunc equalNetworkCapability.

(** The map from mount ID to whether it is required. *)
Definition allowed_secrets (secrets : list SecretCapability) : gmap string bool :=
  fold_left (fun allowed capability => <[se_MountID capability := se_Required capability]> allowed) secrets ∅.

Definition validateCapabilityLease (lease : CapabilityLease) (assignment : Assignment.VerifiedAssignment)
    (now assignmentExpiry : Time) : Prelude.result unit :=
  let lock := Assignment.p_Lock (Assignment.va_Payload assignment) in
  if String.eqb (lease_ID lease) "" || IsZero (lease_ExpiresAt lease) || negb (After (lease_ExpiresAt lease) now) ||
     After (lease_ExpiresAt lease) assignmentExpiry ||
     negb (equalNetworkCapabilities (lease_Network lease) (dl_Network lock)) ||
     negb (bool_decide (lease_Caches lease = dl_Caches lock))
  then Err (ErrController "capability lease identity or scope is invalid")
  else
    let allowed := allowed_secrets (dl_Secrets lock) in
    if negb (map_forallb (fun key value => bool_decide (is_Some (allowed !! key)) && negb (len value =? 0)) (lease_Secrets lease))
    then Err (ErrController "capability lease contains unknown or empty secret")
    else if negb (map_forallb (fun key required => negb (required && negb (bool_decide (is_Some (lease_Secrets lease !! key))))) allowed)
    then Err (ErrController "capability lease lacks required secret")
    else Ok tt.

Definition validSupplyChainIdentity (output : OutputResult) (policyDigest : string) (policy : SupplyChainPolicy) : bool :=
  let evidence := o_SupplyChain output in
  validStoredSupplyChainIdentity output && String.eqb (sc_PolicyDigest evidence) policyDigest &&
  String.eqb (sc_SignerKeyID evidence) (SignerKeyID policy) && (1 <=? sc_SignerKeyVersion evidence) &&
  slices_Contains (AllowedSignerPublicKeyDigests policy) (sc_SignerPublicKeyDigest evidence).

(** The loop of [validateSuccessfulResult]; [expected] and [signed] are indexed
    with the outputs, and an output without them is not accepted. *)
Fixpoint check_successful (lock : DefinitionLock) (outputs : list OutputResult) (expected : list Assignment.ResolvedOutput)
    (signed : list Assignment.OutputArtifact) : bool :=
  match outputs, expected, signed with
  | output :: outputs', e :: expected', s :: signed' =>
      String.eqb (o_Name output) (Assignment.ro_Name e) && String.eqb (o_Kind output) (Assignment.ro_Kind e) &&
      negb (String.eqb (o_ArtifactRef output) "") && is_digest (o_ArtifactDigest output) && (0 <? o_ArtifactSize output) &&
      String.eqb (o_ConfigDigest output) (Assignment.oa_ConfigDigest s) && validOutputContentIdentity output &&
      validSupplyChainIdentity output (dl_PolicyDigest lock) (dl_SupplyChain lock) &&
      check_successful lock outputs' expected' signed'
  | [], _, _ => true
  | _, _, _ => false
  end.

Definition validateSuccessfulResult (assignment : Assignment.ResolvedAssignment) (result : WorkerResult) : bool :=
  let payload := Assignment.va_Payload (Assignment.ra_Verified assignment) in
  String.eqb (w_BuildID result) (Assignment.p_BuildID payload) && negb (w_Attempt result =? 0) &&
  String.eqb (cl_Status (w_Cleanup result)) CleanupClean && String.eqb (cl_BuildID (w_Cleanup result)) (w_BuildID result) &&
  is_digest (w_LogsDigest result) && (length (w_Outputs result) =? length (Assignment.ra_Outputs assignment))%nat &&
  check_successful (Assignment.p_Lock payload) (w_Outputs result) (Assignment.ra_Outputs assignment) (Assignment.p_Outputs payload).

(** ** The event emitter *)

(** [transcript] is what has been written to the hash, [sink] what the sink has
    received. *)
Record eventEmitter := {
  em_sequence : Z;
  em_transcript : string;
  em_digestErr : bool;
  em_sink : list Event;
}.

Definition newEventEmitter : eventEmitter :=
  {| em_sequence := 0; em_transcript := ""; em_digestErr := false; em_sink := [] |}.

Definition stamped (event : Event) (sequence : Z) (occurredAt : Time) : Event :=
  {| evt_Sequence := sequence; evt_Attempt := evt_Attempt event; evt_Phase := evt_Phase event; evt_Kind := evt_Kind event;
     evt_Output := evt_Output event; evt_Vertex := evt_Vertex event; evt_Name := evt_Name event;
     evt_Current := evt_Current event; evt_Total := evt_Total event; evt_Cached := evt_Cached event;
     evt_Stream := evt_Stream event; evt_Line := evt_Line event; evt_Code := evt_Code event;
     evt_Message := evt_Message event; evt_OccurredAt := occurredAt |}.

Definition phase_event (phase : Phase) (attempt : Z) (message : string) (occurredAt : Time) : Event :=
  {| evt_Sequence := 0; evt_Attempt := attempt; evt_Phase := phase; evt_Kind := "phase"; evt_Output := ""; evt_Vertex := "";
     evt_Name := ""; evt_Current := 0; evt_Total := 0; evt_Cached := false; evt_Stream := 0; evt_Line := "";
     evt_Code := ""; evt_Message := message; evt_OccurredAt := occurredAt |}.

(** [eventEmitter.worker]; [now] is the clock, read when the event has no time. *)
Definition emit_event `{!Codec Event} (now : Time) (event : Event) (emitter : eventEmitter) : eventEmitter :=
  let sequence := (em_sequence emitter + 1) mod 2 ^ 64 in
  let event := stamped event sequence (if IsZero (evt_OccurredAt event) then now else evt_OccurredAt event) in
  match marshal event with
  | None =>
      {| em_sequence := sequence; em_transcript := em_transcript emitter; em_digestErr := true; em_sink := em_sink emitter ++ [event] |}
  | Some encoded =>
      {| em_sequence := sequence; em_transcript := em_transcript emitter +:+ PutUint64 (len encoded) +:+ encoded;
         em_digestErr := em_digestErr emitter; em_sink := em_sink emitter ++ [event] |}
  end.

Definition digest (emitter : eventEmitter) : Prelude.result string :=
  if em_digestErr emitter then Err (ErrController "digest structured build events")
  else Ok (bytesDigest (em_transcript emitter)).

(** ** Options *)

(** A dependency is present or nil; the clock and the owner function are part of
    the environment below. *)
Record Options := {
  opt_Verifier : option Assignment.Verifier;
  opt_dependencies : bool;
  opt_MaxAttempts : Z;
  opt_LeaseTTL : Duration;
  opt_CancelGrace : Duration;
  opt_ForceTimeout : Duration;
  opt_ReleaseTimeout : Duration;
  opt_RevokeTimeout : Duration;
  opt_RetryDelay : option (Z → Duration);
}.

Record controller := {
  c_verifier : Assignment.Verifier;
  c_maxAttempts : Z;
  c_leaseTTL : Duration;
  c_cancelGrace : Duration;
  c_forceTimeout : Duration;
  c_releaseTimeout : Duration;
  c_revokeTimeout : Duration;
  c_retryDelay : Z → Duration;
}.

Definition DefaultLeaseTTL : Duration := 30 * Second.
Definition DefaultCancelGrace : Duration := 15 * Second.
Definition DefaultForceTimeout : Duration := 15 * Second.
Definition DefaultReleaseTimeout : Duration := 30 * Second.
Definition DefaultRevokeTimeout : Duration := 15 * Second.

Definition or_default (value default : Z) : Z := if value =? 0 then default else value.

Definition New (options : Options) : Prelude.result controller :=
  match opt_Verifier options with
  | None => Err (ErrController "controller dependencies are incomplete")
  | Some verifier =>
      if negb (opt_dependencies options) then Err (ErrController "controller dependencies are incomplete")
      else
        let maxAttempts := or_default (opt_MaxAttempts options) DefaultMaxAttempts in
        let leaseTTL := or_default (opt_LeaseTTL options) DefaultLeaseTTL in
        let cancelGrace := or_default (opt_CancelGrace options) DefaultCancelGrace in
        let forceTimeout := or_default (opt_ForceTimeout options) DefaultForceTimeout in
        let releaseTimeout := or_default (opt_ReleaseTimeout options) DefaultReleaseTimeout in
        let revokeTimeout := or_default (opt_RevokeTimeout options) DefaultRevokeTimeout in
        let retryDelay := default (fun attempt => Z.shiftl 1 (Z.min attempt 5) * Second) (opt_RetryDelay options) in
        if (maxAttempts <? 1) || (5 <? maxAttempts) || (leaseTTL <? Second) || (5 * Minute <? leaseTTL) ||
           (cancelGrace <? Millisecond) || (Minute <? cancelGrace) || (forceTimeout <? Millisecond) || (Minute <? forceTimeout) ||
           (releaseTimeout <? Millisecond) || (Minute <? releaseTimeout) || (revokeTimeout <? Millisecond) || (Minute <? revokeTimeout)
        then Err (ErrController "controller safety bounds are invalid")
        else Ok {| c_verifier := verifier; c_maxAttempts := maxAttempts; c_leaseTTL := leaseTTL; c_cancelGrace := cancelGrace;
                   c_forceTimeout := forceTimeout; c_releaseTimeout := releaseTimeout; c_revokeTimeout := revokeTimeout;
                   c_retryDelay := retryDelay |}
  end.

(** ** The world and its environment *)

(** Calls to the broker, the allocator and the worker, in order. *)
Inductive action :=
| Acquired (attempt : Z) (lease : CapabilityLease) (ok : bool)
| Revoked (lease : CapabilityLease) (ok : bool)
| Allocated (attempt : Z) (leaseID : string) (worker : option string)
| Executing (worker : string) (attempt : Z)
| Forced (worker : string) (ok : bool)
| Released (worker : string) (ok : bool)
| Scrubbed (buildID : string) (proven : bool)
| Waited (attempt : Z) (delay : Duration).

(** The arm [select] takes once heartbeats stop. *)
Inductive arm := ArmDone | ArmCancellation | ArmContext.

Record Env (REnv SEnv : Type) := {
  e_clock : nat → Time;                              (* controller.clock() and the verifier's *)
  e_ctx : nat → Ctx;                                 (* ctx.Err() *)
  e_runContext : nat → Ctx;                          (* runContext.Err() *)
  e_cancellation : nat → bool;                       (* the cancellation channel is closed *)
  e_owner : nat → Prelude.result string;
  e_replay : nat → REnv;                             (* faults of the replay store *)
  e_runs : nat → SEnv;                               (* faults of the run store *)
  e_others : nat → list (SEnv * run_op);             (* calls of other controllers to the run store *)
  e_events : nat → list Event;                       (* events the worker emits meanwhile *)
  e_artifacts : nat → string → option (string * bool);
  e_acquire : nat → Assignment.VerifiedAssignment → Z → CapabilityLease * bool;
  e_revoke : nat → CapabilityLease → bool;
  e_allocate : nat → AllocationRequest → string + chain;
  e_cleanupBuild : nat → string → CleanupReport * bool;
  e_heartbeats : nat → nat;                          (* ticks before another arm is taken *)
  e_arm : nat → arm;
  e_execute : nat → WorkerResult * bool;             (* what is received on [done] *)
  e_done_first : nat → bool;                         (* [done] is ready before the timer *)
  e_force : nat → CleanupReport * bool;
  e_release : nat → CleanupReport * bool;
  e_timer_first : nat → bool;                        (* the retry timer fires first *)
}.

Record World (R S : Type) := {
  wd_replay : R;
  wd_runs : S;
  wd_step : nat;
  wd_emitter : eventEmitter;
  wd_secrets : gmap string string;
  wd_trace : list action;
}.

Arguments e_clock {_ _}. Arguments e_ctx {_ _}. Arguments e_runContext {_ _}. Arguments e_cancellation {_ _}.
Arguments e_owner {_ _}. Arguments e_replay {_ _}. Arguments e_runs {_ _}. Arguments e_others {_ _}.
Arguments e_events {_ _}. Arguments e_artifacts {_ _}. Arguments e_acquire {_ _}. Arguments e_revoke {_ _}.
Arguments e_allocate {_ _}. Arguments e_cleanupBuild {_ _}. Arguments e_heartbeats {_ _}. Arguments e_arm {_ _}.
Arguments e_execute {_ _}. Arguments e_done_first {_ _}. Arguments e_force {_ _}. Arguments e_release {_ _}.
Arguments e_timer_first {_ _}.
Arguments wd_replay {_ _}. Arguments wd_runs {_ _}. Arguments wd_step {_ _}. Arguments wd_emitter {_ _}.
Arguments wd_secrets {_ _}. Arguments wd_trace {_ _}.

Section Run.
Context `{GoText} `{!Codec Assignment.Payload} `{!Codec DefinitionLock} `{!Codec ResolutionEvidence} `{!Ed25519} `{!LLBAudit.Buildkit} `{!LLBAudit.AuthorityCodecs}.
Context `{!Codec Event}.
Context {R REnv : Type} (RP : Replay.ReplayStore R REnv) {S SEnv : Type} (RS : RunStore S SEnv).
Context (env : Env REnv SEnv) (c : controller).

#[local] Abbreviation M := (program (World R S)).

Definition set_emitter (emitter : eventEmitter) (w : World R S) : World R S :=
  {| wd_replay := wd_replay w; wd_runs := wd_runs w; wd_step := wd_step w; wd_emitter := emitter;
     wd_secrets := wd_secrets w; wd_trace := wd_trace w |}.
Definition set_runs (runs : S) (w : World R S) : World R S :=
  {| wd_replay := wd_replay w; wd_runs := runs; wd_step := wd_step w; wd_emitter := wd_emitter w;
     wd_secrets := wd_secrets w; wd_trace := wd_trace w |}.
Definition set_replay (replay : R) (w : World R S) : World R S :=
  {| wd_replay := replay; wd_runs := wd_runs w; wd_step := wd_step w; wd_emitter := wd_emitter w;
     wd_secrets := wd_secrets w; wd_trace := wd_trace w |}.
Definition set_secrets (secrets : gmap string string) (w : World R S) : World R S :=
  {| wd_replay := wd_replay w; wd_runs := wd_runs w; wd_step := wd_step w; wd_emitter := wd_emitter w;
     wd_secrets := secrets; wd_trace := wd_trace w |}.

Definition record (a : action) : M unit := fun w =>
  ({| wd_replay := wd_replay w; wd_runs := wd_runs w; wd_step := wd_step w; wd_emitter := wd_emitter w;
      wd_secrets := wd_secrets w; wd_trace := wd_trace w ++ [a] |}, tt).

(** Every call outside first lets the others go: other controllers call the run
    store, the worker emits events.  It returns the number of calls so far. *)
Definition tick : M nat := fun w =>
  let n := wd_step w in
  ({| wd_replay := wd_replay w;
      wd_runs := (RunHistory.run_ops RS (wd_runs w) (e_others env n)).1;
      wd_step := Datatypes.S n;
      wd_emitter := fold_left (fun emitter event => emit_event (e_clock env n) event emitter) (e_events env n) (wd_emitter w);
      wd_secrets := wd_secrets w; wd_trace := wd_trace w |}, n).

Definition clock : M Time := n ← tick; mret (e_clock env n).

(** [ctx.Err() != nil || cancellationRequested(cancellation)] on the run context *)
Definition stop_requested : M bool :=
  n ← tick; mret (bool_decide (is_Some (e_runContext env n)) || e_cancellation env n).

Definition emit_phase (phase : Phase) (attempt : Z) (message : string) : M unit :=
  occurredAt ← clock;
  now ← (if IsZero occurredAt then clock else mret occurredAt);
  state (fun w => (set_emitter (emit_event now (phase_event phase attempt message occurredAt) (wd_emitter w)) w, tt)).

Definition call_runs (op : run_op) : M (Prelude.result run_answer) :=
  n ← tick; state (fun w => let '(s, o) := exec (e_runs env n) (wd_runs w) op in (set_runs s w, o)).

Definition update (buildID owner : string) (phase : Phase) (attempt : Z) : M (Prelude.result unit) :=
  now ← clock;
  r ← call_runs (OpHeartbeat buildID owner phase attempt now (c_leaseTTL c));
  mret (match r with Ok _ => Ok tt | Err e => Err e end).

Definition finish (owner : string) (result : Result) : M (Prelude.result unit) :=
  now ← clock;
  r ← call_runs (OpFinish (r_BuildID result) owner result now);
  mret (match r with Ok _ => Ok tt | Err e => Err e end).

Definition finishResult (owner : string) (result : Result) : M (Prelude.result Result) :=
  logs_digest ← state (fun w => (w, digest (wd_emitter w)));
  match logs_digest with
  | Err e => mret (Err e)
  | Ok logs =>
      let result := with_logs result logs in
      try (finish owner result) (fun _ => mret (Ok result))
  end.

(** Whether revocation failed. *)
Definition revokeLease (lease : CapabilityLease) : M bool :=
  n ← tick;
  _ ← record (Revoked lease (e_revoke env n lease));
  mret (negb (e_revoke env n lease)).

(** [awaitOrForce]: the execution, the forced report, and whether it was forced. *)
Definition awaitOrForce (worker : string) : M (WorkerResult * bool * CleanupReport * bool) :=
  n ← tick;
  if e_done_first env n then
    let '(result, ok) := e_execute env n in
    mret (result, ok, noResourceCleanup (w_BuildID result), false)
  else
    f ← tick;
    let '(report, ok) := e_force env f in
    _ ← record (Forced worker ok);
    let report := if ok then report else
      {| cl_BuildID := cl_BuildID report; cl_Status := CleanupQuarantined; cl_Residue := cl_Residue report;
         cl_RemovedPaths := cl_RemovedPaths report; cl_QuarantineReason := "forced worker termination failed" |} in
    d ← tick;
    if e_done_first env d then
      let '(result, ok) := e_execute env d in mret (result, ok, report, true)
    else
      mret ({| w_BuildID := ""; w_Attempt := 0; w_Phase := PhaseCanceled; w_Outputs := []; w_StartedAt := 0; w_FinishedAt := 0;
               w_ErrorCode := "forced_cancel"; w_LogsDigest := ""; w_Cache := {| Hits := 0; Misses := 0 |}; w_Cleanup := report |},
            false, report, true).

(** What the execution loop leaves. *)
Record execution := {
  x_result : WorkerResult;
  x_ok : bool;
  x_report : CleanupReport;
  x_forced : bool;
  x_canceled : bool;
  x_controlLost : bool;
}.

Definition stop_worker (worker : string) (canceled controlLost : bool) : M execution :=
  a ← awaitOrForce worker;
  mret {| x_result := a.1.1.1; x_ok := a.1.1.2; x_report := a.1.2; x_forced := a.2; x_canceled := canceled; x_controlLost := controlLost |}.

(** The loop labelled executionLoop: [beats] heartbeats, then another arm. *)
Fixpoint executionLoop (buildID owner worker : string) (attempt : Z) (beats : nat) : M execution :=
  match beats with
  | Datatypes.S beats' =>
      r ← update buildID owner PhaseSolving attempt;
      match r with
      | Err _ => stop_worker worker false true
      | Ok _ => executionLoop buildID owner worker attempt beats'
      end
  | O =>
      n ← tick;
      match e_arm env n with
      | ArmDone =>
          let '(result, ok) := e_execute env n in
          mret {| x_result := result; x_ok := ok; x_report := zero_report; x_forced := false; x_canceled := false; x_controlLost := false |}
      | ArmCancellation =>
          r ← update buildID owner PhaseCanceling attempt;
          _ ← emit_phase PhaseCanceling attempt "Cancellation requested; waiting for cooperative worker shutdown.";
          stop_worker worker true (is_err r)
      | ArmContext =>
          _ ← emit_phase PhaseCanceling attempt "Controller context canceled; stopping the worker.";
          stop_worker worker true false
      end
  end.

(** The report of an attempt, from the worker's, the release's and the forced one. *)
Definition attempt_cleanup (buildID : string) (x : execution) (releaseReport : CleanupReport) (released revokeFailed : bool) : CleanupReport :=
  let cleanup := combineCleanupReports buildID [w_Cleanup (x_result x); releaseReport] in
  let cleanup := if released then cleanup else quarantine_with cleanup "worker_resource" "worker release failed" "worker release failed" in
  let cleanup := if revokeFailed then quarantine_with cleanup "temporary_credential" "capability revocation failed" "capability revocation failed" else cleanup in
  if x_forced x then combineCleanupReports buildID [cleanup; x_report x] else cleanup.

(** What follows the cleanup: the outcome, and whether to retry. *)
Definition conclude (assignment : Assignment.ResolvedAssignment) (attempt : Z) (x : execution) (canceled : bool) (result : Result)
    : M (Prelude.result (Result * bool)) :=
  if negb (cleanupProvenClean (r_Cleanup result)) then
    _ ← emit_phase PhaseQuarantined attempt "Worker cleanup could not be proven; the worker is quarantined.";
    mret (Ok (with_outcome result PhaseQuarantined "cleanup_quarantined", false))
  else if x_controlLost x then mret (Err (ErrController "durable run lease was lost"))
  else if canceled then
    _ ← emit_phase PhaseCanceled attempt "Build canceled and cleanup verified.";
    mret (Ok (with_outcome result PhaseCanceled "canceled", false))
  else if String.eqb (w_ErrorCode (x_result x)) "worker_lost" && (attempt <? c_maxAttempts c) then
    mret (Ok (with_outcome result PhaseRetrying "worker_lost", true))
  else if negb (x_ok x) || negb (String.eqb (w_Phase (x_result x)) PhaseComplete) then
    _ ← emit_phase PhaseFailed attempt "Build worker failed and cleanup verified.";
    mret (Ok (with_outcome result PhaseFailed
                (if String.eqb (w_ErrorCode (x_result x)) "" then "worker_failed" else w_ErrorCode (x_result x)), false))
  else if negb (validateSuccessfulResult assignment (x_result x)) then
    _ ← emit_phase PhaseFailed attempt "Build result did not prove all required immutable outputs.";
    mret (Ok (with_outcome result PhaseFailed "result_invalid", false))
  else
    _ ← emit_phase PhaseComplete attempt "Required immutable outputs are committed and worker cleanup is verified.";
    mret (Ok (with_outcome result PhaseComplete "", false)).

(** The worker's part of an attempt: execute, release, revoke, decide. *)
Definition run_worker (assignment : Assignment.ResolvedAssignment) (owner : string) (attempt : Z) (startedAt : Time)
    (lease : CapabilityLease) (worker : string) : M (Prelude.result (Result * bool)) :=
  let verified := Assignment.ra_Verified assignment in
  let buildID := Assignment.p_BuildID (Assignment.va_Payload verified) in
  _ ← record (Executing worker attempt);
  n ← tick;
  x ← executionLoop buildID owner worker attempt (e_heartbeats env n);
  stop ← stop_requested;
  let canceled := x_canceled x || stop in
  n ← tick;
  let '(releaseReport, released) := e_release env n in
  _ ← record (Released worker released);
  revokeFailed ← revokeLease lease;
  finishedAt ← clock;
  conclude assignment attempt x canceled
    {| r_BuildID := buildID; r_PayloadDigest := Assignment.va_PayloadDigest verified; r_Phase := ""; r_Attempts := attempt;
       r_WorkerIdentity := worker; r_Worker := x_result x;
       r_Cleanup := attempt_cleanup buildID x releaseReport released revokeFailed; r_ErrorCode := "";
       r_LogsDigest := ""; r_StartedAt := startedAt; r_FinishedAt := finishedAt; r_Replay := false |}.

(** Revokes the lease of an attempt that ends here: the result is [result], or a
    quarantine when revocation fails. *)
Definition revoke_then (verified : Assignment.VerifiedAssignment) (attempt : Z) (startedAt : Time) (lease : CapabilityLease)
    (k : M (Prelude.result (Result * bool))) : M (Prelude.result (Result * bool)) :=
  failed ← revokeLease lease;
  if (failed : bool) then now ← clock; mret (Ok (capabilityRevokeResult verified startedAt now attempt, false)) else k.

Definition failed_now (verified : Assignment.VerifiedAssignment) (startedAt : Time) (attempt : Z) (code : string)
    : M (Prelude.result (Result * bool)) :=
  now ← clock; mret (Ok (failedResult verified startedAt now attempt code, false)).

Definition canceled_now (verified : Assignment.VerifiedAssignment) (startedAt : Time) (attempt : Z)
    : M (Prelude.result (Result * bool)) :=
  now ← clock; mret (Ok (canceledWithoutWorkerResult verified startedAt now attempt, false)).

(** The part of [runAttempt] after [Acquire], whose deferred call wipes the
    lease's secrets when it returns. *)
Definition with_lease (assignment : Assignment.ResolvedAssignment) (owner : string) (attempt : Z) (startedAt expiresAt : Time)
    (lease : CapabilityLease) (acquired : bool) : M (Prelude.result (Result * bool)) :=
  let verified := Assignment.ra_Verified assignment in
  if negb acquired then
    let after := stop ← stop_requested;
                 if (stop : bool) then canceled_now verified startedAt attempt
                 else failed_now verified startedAt attempt "capability_acquire" in
    if String.eqb (lease_ID lease) "" then after else revoke_then verified attempt startedAt lease after
  else
    now ← clock;
    if is_err (validateCapabilityLease lease verified now expiresAt) then
      revoke_then verified attempt startedAt lease (failed_now verified startedAt attempt "capability_invalid")
    else
      now ← clock;
      if Sub expiresAt now <=? 0 then
        revoke_then verified attempt startedAt lease (failed_now verified startedAt attempt "assignment_expired")
      else
        n ← tick;
        match e_allocate env n {| al_Assignment := assignment; al_Attempt := attempt; al_LeaseID := lease_ID lease;
                                  al_Network := lease_Network lease; al_Caches := lease_Caches lease |} with
        | inr err =>
            _ ← record (Allocated attempt (lease_ID lease) None);
            revoke_then verified attempt startedAt lease
              (stop ← stop_requested;
               if (stop : bool) then canceled_now verified startedAt attempt
               else failed_now verified startedAt attempt (WorkerAllocationErrorCode err))
        | inl worker =>
            _ ← record (Allocated attempt (lease_ID lease) (Some worker));
            run_worker assignment owner attempt startedAt lease worker
        end.

Definition wipeLeaseSecrets : M unit := state (fun w => (set_secrets ∅ w, tt)).

Definition runAttempt (assignment : Assignment.ResolvedAssignment) (owner : string) (attempt : Z) (startedAt expiresAt : Time)
    : M (Prelude.result (Result * bool)) :=
  let verified := Assignment.ra_Verified assignment in
  let buildID := Assignment.p_BuildID (Assignment.va_Payload verified) in
  stop ← stop_requested;
  if (stop : bool) then canceled_now verified startedAt ((attempt - 1) mod 2 ^ 32)
  else
    try (update buildID owner PhaseAllocating attempt) (fun _ =>
      _ ← emit_phase PhaseAllocating attempt "Acquiring short-lived capabilities and a disposable worker.";
      n ← tick;
      let '(lease, acquired) := e_acquire env n verified attempt in
      _ ← record (Acquired attempt lease acquired);
      _ ← state (fun w => (set_secrets (lease_Secrets lease) w, tt));
      r ← with_lease assignment owner attempt startedAt expiresAt lease acquired;
      _ ← wipeLeaseSecrets;
      mret r).

(** Whether the retry delay passed before a stop. *)
Definition waitForRetry (attempt : Z) (delay : Duration) : M bool :=
  n ← tick; _ ← record (Waited attempt delay); mret (e_timer_first env n).

(** The loop over the attempts, and the failure after the last one. *)
Fixpoint attempts_loop (resolved : Assignment.ResolvedAssignment) (owner : string) (startedAt expiresAt : Time) (attempts : list Z)
    : M (Prelude.result Result) :=
  let verified := Assignment.ra_Verified resolved in
  let buildID := Assignment.p_BuildID (Assignment.va_Payload verified) in
  match attempts with
  | [] =>
      now ← clock;
      finishResult owner (failedResult verified startedAt now (c_maxAttempts c) "worker_lost")
  | attempt :: attempts' =>
      try (runAttempt resolved owner attempt startedAt expiresAt) (fun outcome =>
        let '(result, retry) := outcome in
        if negb retry then finishResult owner result
        else
          let delay := c_retryDelay c attempt in
          if (delay <? 0) || (Minute <? delay) then mret (Err (ErrController "retry delay is outside bounds"))
          else
            _ ← emit_phase PhaseRetrying attempt "Disposable worker was lost; retrying from the immutable assignment.";
            try (update buildID owner PhaseRetrying attempt) (fun _ =>
              passed ← waitForRetry attempt delay;
              if (passed : bool) then attempts_loop resolved owner startedAt expiresAt attempts'
              else
                _ ← emit_phase PhaseCanceled attempt "Cancellation stopped the worker retry delay.";
                now ← clock;
                finishResult owner (canceledResult verified startedAt now attempt (r_Worker result))))
  end.

(** [for attempt := firstAttempt; attempt <= maxAttempts; attempt++] *)
Definition attempts_from (recorded : Z) : list Z :=
  let first := (recorded + 1) mod 2 ^ 32 in
  let first := if first =? 0 then 1 else first in
  seqZ first (c_maxAttempts c - first + 1).

(** Scrubs what an earlier run of the build left; the report, when it does not
    prove the resources gone. *)
Definition scrub_stale (buildID : string) (attempt : Z) : M (option CleanupReport) :=
  _ ← emit_phase PhaseCleaning attempt "Scrubbing stale worker resources before resuming the durable run.";
  n ← tick;
  let '(report, ok) := e_cleanupBuild env n buildID in
  let cleanup := combineCleanupReports buildID [report] in
  _ ← record (Scrubbed buildID (ok && cleanupProvenClean cleanup));
  mret (if ok && cleanupProvenClean cleanup then None else Some cleanup).

(** Resolves the artifacts and runs the attempts. *)
Definition resolve_and_run (verified : Assignment.VerifiedAssignment) (owner : string) (startedAt expiresAt : Time) (attempt : Z)
    : M (Prelude.result Result) :=
  try (update (Assignment.p_BuildID (Assignment.va_Payload verified)) owner PhaseResolving attempt) (fun _ =>
    _ ← emit_phase PhaseResolving attempt "Resolving signed immutable build artifacts.";
    n ← tick;
    match Assignment.Resolve verified (e_artifacts env n) with
    | Err _ =>
        n ← tick;
        if bool_decide (is_Some (e_runContext env n)) then
          _ ← emit_phase PhaseCanceled attempt "Cancellation stopped assignment artifact resolution.";
          finishedAt ← clock;
          finishResult owner (canceledWithoutWorkerResult verified startedAt finishedAt attempt)
        else
          finishedAt ← clock;
          _ ← emit_phase PhaseFailed attempt "Assignment artifact resolution failed.";
          finishResult owner (failedResult verified startedAt finishedAt attempt "assignment_resolution")
    | Ok resolved => attempts_loop resolved owner startedAt expiresAt (attempts_from attempt)
    end).

(** The run after the scrub: quarantine, a persisted cancellation, or the build. *)
Definition run_scrubbed (verified : Assignment.VerifiedAssignment) (owner : string) (startedAt expiresAt : Time) (rec : RunRecord)
    (scrub : option CleanupReport) : M (Prelude.result Result) :=
  let attempt := rr_Attempt rec in
  match scrub with
  | Some cleanup =>
      finishedAt ← clock;
      _ ← emit_phase PhaseQuarantined attempt "Stale worker cleanup could not be proven; the build remains quarantined.";
      finishResult owner
        (with_cleanup (with_outcome (failedResult verified startedAt finishedAt attempt "cleanup_quarantined") PhaseQuarantined "cleanup_quarantined") cleanup)
  | None =>
      if rr_CancelRequested rec then
        _ ← emit_phase PhaseCanceled attempt "Persisted cancellation prevented build execution.";
        finishedAt ← clock;
        finishResult owner (canceledWithoutWorkerResult verified startedAt finishedAt attempt)
      else resolve_and_run verified owner startedAt expiresAt attempt
  end.

(** [Run] once the claim is accepted or resumed. *)
Definition run_claimed (verified : Assignment.VerifiedAssignment) (owner : string) (now expiresAt : Time) (rec : RunRecord) (resumed : bool)
    : M (Prelude.result Result) :=
  let buildID := Assignment.p_BuildID (Assignment.va_Payload verified) in
  let startedAt := if IsZero (r_StartedAt (rr_Result rec)) then now else r_StartedAt (rr_Result rec) in
  _ ← emit_phase PhaseAccepted (rr_Attempt rec) "Assignment signature, audience, generation, expiry, and replay identity verified.";
  scrub ← (if resumed then scrub_stale buildID (rr_Attempt rec) else mret None);
  run_scrubbed verified owner startedAt expiresAt rec scrub.

Definition reservation (verified : Assignment.VerifiedAssignment) (expiresAt : Time) : Replay.Reservation :=
  let payload := Assignment.va_Payload verified in
  {| Replay.CellID := Assignment.p_CellID payload; Replay.BuildID := Assignment.p_BuildID payload;
     Replay.Generation := Assignment.p_Generation payload; Replay.Nonce := Assignment.p_Nonce payload;
     Replay.PayloadDigest := Assignment.va_PayloadDigest verified; Replay.ExpiresAt := expiresAt |}.

Definition call_replay (r : Replay.Reservation) : M (Prelude.result Replay.ReservationOutcome) :=
  n ← tick; state (fun w => let '(replay, o) := Replay.reserve (e_replay env n) (wd_replay w) r in (set_replay replay w, o)).

(** Claims the run, and replays, refuses or runs it. *)
Definition claim_and_run (verified : Assignment.VerifiedAssignment) (owner : string) (expiresAt : Time) : M (Prelude.result Result) :=
  let payload := Assignment.va_Payload verified in
  now ← clock;
  try (call_runs (OpClaim
    {| q_BuildID := Assignment.p_BuildID payload; q_Generation := Assignment.p_Generation payload;
       q_PayloadDigest := Assignment.va_PayloadDigest verified; q_Owner := owner; q_Now := now; q_LeaseTTL := c_leaseTTL c |})) (fun claim =>
  match claim with
  | Claimed ClaimReplay rec =>
      if negb (Terminal (rr_Result rec)) then mret (Err (ErrController "replay record is not terminal"))
      else mret (Ok (as_replay (rr_Result rec)))
  | Claimed ClaimInProgress _ => mret (Err (Error "build assignment is already in progress" ""))
  | Claimed ClaimConflict _ => mret (Err (ErrController "run claim conflicts with immutable assignment"))
  | Claimed ClaimAccepted rec => run_claimed verified owner now expiresAt rec false
  | Claimed ClaimResumed rec => run_claimed verified owner now expiresAt rec true
  | _ => mret (Err (ErrController "unknown run claim outcome"))
  end).

Definition Run (envelope : Assignment.Envelope) : M (Prelude.result Result) :=
  n ← tick;
  match e_ctx env n with
  | Some e => mret (Err e)
  | None =>
      now ← clock;
      match Assignment.Verify (c_verifier c) now envelope with
      | Err e => mret (Err e)
      | Ok verified =>
          match ParseRFC3339 (Assignment.p_ExpiresAt (Assignment.va_Payload verified)) with
          | None => mret (Err (ErrController "verified assignment expiry is invalid"))
          | Some expiresAt =>
              try (call_replay (reservation verified expiresAt)) (fun outcome =>
                match outcome with
                | Replay.ReservationStale | Replay.ReservationConflict => mret (Err (ErrController "assignment replay outcome"))
                | Replay.ReservationAccepted | Replay.ReservationReplay =>
                    n ← tick;
                    match e_owner env n with
                    | Err _ => mret (Err (ErrController "create run owner"))
                    | Ok owner =>
                        if String.eqb owner "" then mret (Err (ErrController "create run owner"))
                        else claim_and_run verified owner expiresAt
                    end
                end)
          end
      end
  end.

End Run.

End Controller.
