(* ===== verification/Executor.v ===== *)
(** * The build worker (build-plane/internal/buildworker/executor.go, quota.go)

    [Execute] runs one resolved assignment against BuildKit: it validates the
    assignment again, materializes the source under a scratch quota, and for every
    output solves the definition, checks what was exported and commits it.  Whatever
    happens, its deferred calls complete the cache leases, wipe the secrets, stop the
    quota monitor and clean the worker up.

    The program is a state monad over a [State]: the event log, the redactor, the
    secrets handed to BuildKit, the deferred calls, and a trace of the calls to its
    collaborators, which answer through an [Env].  The scratch monitor runs
    concurrently: its violations are emitted between any two events of [Execute]. *)

From S2P Require Import Prelude StateMonad Text GoStd GoURL Crypto Framing ArtifactIdentity PlatformID Storage Redactor OCIArtifact LLBPolicy LLBAudit Assignment BuildWorker RunStore Controller.
From stdpp Require Import pretty.
Import StateMonad GoStd GoURL Crypto Framing ArtifactIdentity Storage LLBPolicy BuildWorker.

Open Scope Z_scope.

Module Executor.

Definition DefaultSolveTimeout : Duration := Hour.
Definition ErrExecute (message : string) : error := Error "build worker execution failed" message.

(** ** quota.go *)

Definition DefaultScratchBytes : Z := Z.shiftl 20 30.
Definition DefaultScratchInodes : Z := 1000000.
Definition DefaultQuotaInterval : Duration := Second.

Record ScratchQuota := { MaxBytes : Z; MaxInodes : Z; PollInterval : Duration }.
Record ScratchUsage := { Bytes : Z; Inodes : Z }.

Definition normalizeScratchQuota (quota : ScratchQuota) : Prelude.result ScratchQuota :=
  let quota := {| MaxBytes := Controller.or_default (MaxBytes quota) DefaultScratchBytes;
                  MaxInodes := Controller.or_default (MaxInodes quota) DefaultScratchInodes;
                  PollInterval := Controller.or_default (PollInterval quota) DefaultQuotaInterval |} in
  if (MaxBytes quota <? 1) || (DefaultScratchBytes <? MaxBytes quota) || (MaxInodes quota <? 1) || (DefaultScratchInodes <? MaxInodes quota) ||
     (PollInterval quota <? Millisecond) || (Minute <? PollInterval quota)
  then Err (Error "" "scratch quota is outside safety bounds")
  else Ok quota.

(** ** NewBuildKitExecutor *)

Record BuildKitExecutor := { x_scratchRoot : string; x_solveTimeout : Duration; x_quota : ScratchQuota }.

Definition NewBuildKitExecutor (dependencies : bool) (scratchRoot : string) (solveTimeout : Duration) : Prelude.result BuildKitExecutor :=
  if negb dependencies || String.eqb scratchRoot "" then Err (ErrExecute "worker dependencies are incomplete")
  else
    let solveTimeout := Controller.or_default solveTimeout DefaultSolveTimeout in
    if (solveTimeout <=? 0) || (DefaultSolveTimeout <? solveTimeout) then Err (ErrExecute "solve timeout is outside safety bounds")
    else match normalizeScratchQuota {| MaxBytes := 0; MaxInodes := 0; PollInterval := 0 |} with
    | Err _ => Err (ErrExecute "scratch quota")
    | Ok quota => Ok {| x_scratchRoot := scratchRoot; x_solveTimeout := solveTimeout; x_quota := quota |}
    end.

(** ** types.go *)

(** [Events] is present or nil. *)
Record Request := {
  q_Assignment : Assignment.ResolvedAssignment;
  q_Attempt : Z;
  q_Secrets : gmap string string;
  q_Events : bool;
}.

Record ProvenanceContext := {
  pc_AssignmentDigest : string;
  pc_DefinitionDigest : string;
  pc_IRDigest : string;
  pc_PolicyDigest : string;
  pc_SourceSnapshot : string;
  pc_SourceArchive : string;
  pc_TargetPlatform : string;
  pc_BuilderIdentity : string;
  pc_CompilerVersion : string;
  pc_AssignmentIssuedAt : string;
  pc_AssignmentExpiresAt : string;
  pc_BuildArguments : list NameValue;
  pc_BaseMaterials : list BaseMaterial;
  pc_Network : list NetworkCapability;
  pc_SecretNames : list string;
  pc_SupplyChain : SupplyChainPolicy;
}.

Record ExportedArtifact := {
  xa_OrganizationID : string;
  xa_ProjectID : string;
  xa_BuildID : string;
  xa_Attempt : Z;
  xa_OutputName : string;
  xa_Kind : string;
  xa_Path : string;
  xa_Digest : string;
  xa_Size : Z;
  xa_Provenance : ProvenanceContext;
}.

Record CommittedArtifact := {
  ca_Reference : string;
  ca_Path : string;
  ca_Digest : string;
  ca_Size : Z;
  ca_ManifestDigest : string;
  ca_PublicationManifestRef : string;
  ca_SupplyChain : SupplyChainResult;
}.

(** ** Pure helpers *)

Definition validCommittedSupplyChain (committed : CommittedArtifact) (policyDigest : string) (policy : SupplyChainPolicy) : bool :=
  let evidence := ca_SupplyChain committed in
  if negb (String.eqb (sc_PolicyState evidence) "accepted") || negb (String.eqb (sc_ScanState evidence) "passed") ||
     negb (String.eqb (sc_PolicyDigest evidence) policyDigest) || negb (String.eqb (sc_SignerKeyID evidence) (SignerKeyID policy)) ||
     (sc_SignerKeyVersion evidence <? 1) || negb (is_digest (sc_SignerPublicKeyDigest evidence)) ||
     negb (slices_Contains (AllowedSignerPublicKeyDigests policy) (sc_SignerPublicKeyDigest evidence))
  then false
  else match Cut (ca_Reference committed) "@" with
  | None => false
  | Some (repository, _) => if String.eqb repository "" then false else RunStore.check_evidence repository RunStore.evidence_kinds [] (sc_Evidence evidence)
  end.

Definition provenanceContext (request : Request) : ProvenanceContext :=
  let verified := Assignment.ra_Verified (q_Assignment request) in
  let payload := Assignment.va_Payload verified in
  let lock := Assignment.p_Lock payload in
  {| pc_AssignmentDigest := Assignment.va_PayloadDigest verified; pc_DefinitionDigest := Assignment.p_DefinitionDigest payload;
     pc_IRDigest := dl_IRDigest lock; pc_PolicyDigest := dl_PolicyDigest lock; pc_SourceSnapshot := Assignment.sa_SnapshotDigest (Assignment.p_Source payload);
     pc_SourceArchive := Assignment.sa_ArchiveDigest (Assignment.p_Source payload); pc_TargetPlatform := dl_TargetPlatform lock;
     pc_BuilderIdentity := "spiffe://lrail.internal/build-cell/" +:+ Assignment.p_CellID payload; pc_CompilerVersion := dl_CompilerVersion lock;
     pc_AssignmentIssuedAt := Assignment.p_IssuedAt payload; pc_AssignmentExpiresAt := Assignment.p_ExpiresAt payload;
     pc_BuildArguments := dl_BuildArguments lock; pc_BaseMaterials := dl_BaseMaterials lock; pc_Network := dl_Network lock;
     pc_SecretNames := Sort (se_Name <$> dl_Secrets lock); pc_SupplyChain := dl_SupplyChain lock |}.

(** [maxSecretSize] is BuildKit's limit, [secretsprovider.MaxSecretSize]. *)
Definition validateSecrets (maxSecretSize : Z) (capabilities : list SecretCapability) (values : gmap string string) : bool :=
  let allowed := Controller.allowed_secrets capabilities in
  map_forallb (fun key value => bool_decide (is_Some (allowed !! key)) && negb (len value =? 0) && negb (maxSecretSize <? len value)) values &&
  map_forallb (fun key required => negb (required && negb (bool_decide (is_Some (values !! key))))) allowed.

(** Where BuildKit writes, and the type of the exporter. *)
Definition buildExportEntry (output : Assignment.ResolvedOutput) (exportDirectory : string) : Prelude.result (string * string) :=
  if String.eqb (Assignment.ro_Kind output) "static_bundle" then Ok ("local", exportDirectory)
  else if negb (String.eqb (Assignment.ro_Kind output) "oci_image") || (len (Assignment.ro_Config output) =? 0)
  then Err (Error "" "unsupported output kind or empty OCI config")
  else Ok ("oci", OCIArtifact.join_path exportDirectory "artifact.oci.tar").

(** ** Progress text *)

Fixpoint take_while (p : ascii → bool) (s : string) : string :=
  match s with "" => "" | String c s' => if p c then String c (take_while p s') else "" end.

(** Neither white space nor a quotation mark nor an angle bracket. *)
Definition url_char (c : ascii) : bool :=
  let b := byte_of c in
  negb ((b =? 9) || (b =? 10) || (b =? 12) || (b =? 13) || (b =? 32) || (b =? 34) || (b =? 39) || (b =? 60) || (b =? 62)).

(** The match of [progressURLPattern] at the start of the text. *)
Definition url_match (s : string) : option string :=
  let matched (scheme : string) :=
    if HasPrefix s scheme then
      let rest := take_while url_char (str_drop (String.length scheme) s) in
      if String.eqb rest "" then None else Some (scheme +:+ rest)
    else None in
  match matched "http://" with Some m => Some m | None => matched "https://" end.

Section Sanitize.
Context `{!NetURL}.

Definition sanitize_url (candidate : string) : string :=
  match url_Parse candidate with
  | None => "[redacted-url]"
  | Some u =>
      if String.eqb (u_Host u) "" then "[redacted-url]"
      else url_String {| u_Scheme := u_Scheme u; u_Opaque := u_Opaque u; u_User := None; u_Host := u_Host u; u_Path := u_Path u; u_RawPath := u_RawPath u;
                         u_OmitHost := u_OmitHost u; u_ForceQuery := false; u_RawQuery := ""; u_Fragment := ""; u_RawFragment := u_RawFragment u |}
  end.

(** The leftmost matches, one after the other; [skip] is what remains of a match. *)
Fixpoint sanitize_from (skip : nat) (s : string) : string :=
  match s with
  | "" => ""
  | String c s' =>
      match skip with
      | S skip' => sanitize_from skip' s'
      | O => match url_match s with
             | Some candidate => sanitize_url candidate +:+ sanitize_from (String.length candidate - 1) s'
             | None => String c (sanitize_from 0 s')
             end
      end
  end.

Definition sanitizeProgressText (value : string) : string := sanitize_from 0 value.

End Sanitize.

(** ** Progress of a solve *)

Record Vertex := { vx_Digest : string; vx_Name : string; vx_Started : option Time; vx_Completed : option Time; vx_Cached : bool; vx_Error : string }.
Record VertexStatus := { vs_Vertex : string; vs_Name : string; vs_Current : Z; vs_Total : Z; vs_Timestamp : Time }.
Record VertexLog := { vl_Vertex : string; vl_Stream : Z; vl_Data : string; vl_Timestamp : Time }.
Record VertexWarning := { vw_Vertex : string; vw_Short : string }.
Record SolveStatus := { ss_Vertexes : list Vertex; ss_Statuses : list VertexStatus; ss_Logs : list VertexLog; ss_Warnings : list VertexWarning }.

(** ** Contexts and errors of collaborators *)

(** How the execution context ended: its parent was canceled or passed its deadline,
    or the scratch monitor canceled it. *)
Inductive ctx_end := CtxCanceled | CtxDeadline | CtxQuota.

(** What [errors.Is] and [status.Code] find in a solve's error. *)
Record SolveError := { se_canceled : bool; se_deadline : bool; se_lost : bool }.

Definition phaseForContext (ctx : option ctx_end) : Phase := match ctx with Some _ => PhaseCanceled | None => PhaseFailed end.

Definition is_quota (ctx : option ctx_end) : bool := match ctx with Some CtxQuota => true | _ => false end.

(** The quota monitor cancels with [context.Canceled]. *)
Definition is_canceled (ctx : option ctx_end) : bool := match ctx with Some CtxCanceled | Some CtxQuota => true | _ => false end.

(** [cause] and [ctxErr] are two readings of the context. *)
Definition classifySolveError (e : SolveError) (cause ctxErr : option ctx_end) : string :=
  if is_quota cause then "scratch_quota"
  else if se_canceled e || is_canceled ctxErr then "canceled"
  else if se_deadline e then "solve_timeout"
  else if se_lost e then "worker_lost"
  else "solve_failed".

(** ** The environment *)

(** What a solve is given. *)
Record SolveRequest := {
  sr_Definition : string;
  sr_Source : string;
  sr_Secrets : gmap string string;
  sr_Exporter : string * string;
  sr_Ref : string;
}.

(** The calls to the collaborators, in order. *)
Inductive action :=
| Prepared (directory : string)
| MonitorStarted (root : string)
| Materialized (source : Assignment.SourceArtifact) (directory : string)
| SecretsCopied
| CacheAcquired (output : string)
| Solved (request : SolveRequest)
| Committed (artifact : ExportedArtifact)
| CacheCompleted (output : string) (success : bool)
| SecretsWiped
| MonitorStopped
| CleanedUp (buildID : string)
| RedactorClosed.

(** The answers for one output; [oe_artifact] is what is at the export path after the
    solve and [oe_archive] that file as a tar archive; a commit error may carry a code. *)
Record OutputEnv := {
  oe_mkdir : bool;
  oe_acquire : bool;
  oe_statuses : list (option SolveStatus);
  oe_solve : SolveError + option (gmap string string);
  oe_artifact : option node;
  oe_archive : option OCIArtifact.tar_file;
  oe_commit : ExportedArtifact → CommittedArtifact * option string;
  oe_complete : bool → bool;
}.

Record Env := {
  e_clock : nat → Time;
  e_ctx : nat → option ctx_end;
  e_violations : nat → list ScratchUsage;
  e_fresh : bool;
  e_materialized : bool;
  e_localFS : bool;
  e_output : nat → OutputEnv;
  e_cleanup : string → CleanupReport;
}.

(** ** State *)

Inductive deferred :=
| CompleteCache (index : nat) (output : string) (succeeded : bool)
| WipeSecrets
| StopMonitor.

(** [lg_events] is what the sink received. *)
Record Log := { lg_sequence : Z; lg_transcript : string; lg_err : bool; lg_events : list Event }.

Record State := {
  st_reads : nat;
  st_log : Log;
  st_monitored : bool;
  st_redactor : Redactor.Redactor;
  st_secrets : gmap string string;
  st_deferred : list deferred;
  st_trace : list action;
}.

Abbreviation M := (program State).

Definition set_log (log : Log) (s : State) : State :=
  {| st_reads := st_reads s; st_log := log; st_monitored := st_monitored s; st_redactor := st_redactor s;
     st_secrets := st_secrets s; st_deferred := st_deferred s; st_trace := st_trace s |}.
Definition set_redactor (redactor : Redactor.Redactor) (s : State) : State :=
  {| st_reads := st_reads s; st_log := st_log s; st_monitored := st_monitored s; st_redactor := redactor;
     st_secrets := st_secrets s; st_deferred := st_deferred s; st_trace := st_trace s |}.
Definition set_monitored (monitored : bool) (s : State) : State :=
  {| st_reads := st_reads s; st_log := st_log s; st_monitored := monitored; st_redactor := st_redactor s;
     st_secrets := st_secrets s; st_deferred := st_deferred s; st_trace := st_trace s |}.
Definition set_secrets (secrets : gmap string string) (s : State) : State :=
  {| st_reads := st_reads s; st_log := st_log s; st_monitored := st_monitored s; st_redactor := st_redactor s;
     st_secrets := secrets; st_deferred := st_deferred s; st_trace := st_trace s |}.
Definition set_deferred (calls : list deferred) (s : State) : State :=
  {| st_reads := st_reads s; st_log := st_log s; st_monitored := st_monitored s; st_redactor := st_redactor s;
     st_secrets := st_secrets s; st_deferred := calls; st_trace := st_trace s |}.

Definition record (a : action) : M unit := fun s =>
  ({| st_reads := st_reads s; st_log := st_log s; st_monitored := st_monitored s; st_redactor := st_redactor s;
      st_secrets := st_secrets s; st_deferred := st_deferred s; st_trace := st_trace s ++ [a] |}, tt).

(** [defer]: the last call is run first. *)
Definition defer (call : deferred) : M unit := modify (fun s => set_deferred (call :: st_deferred s) s).

(** The index of the next reading of the clock, a context or the monitor. *)
Definition read : M nat := fun s =>
  ({| st_reads := S (st_reads s); st_log := st_log s; st_monitored := st_monitored s; st_redactor := st_redactor s;
      st_secrets := st_secrets s; st_deferred := st_deferred s; st_trace := st_trace s |}, st_reads s).

(** A return from [Execute]: the result and its error. *)
Abbreviation outcome := (WorkerResult * option error)%type.

Section Execute.
Context `{!Codec Assignment.Payload} `{!LLBAudit.Buildkit} `{!LLBAudit.AuthorityCodecs} `{!Codec Event} `{!OCIArtifact.OCIJSON} `{!NetURL}.
Context (unicode_Quote : string → string) (arrange : list string → list string) (maxSecretSize : Z).
Context (env : Env) (executor : BuildKitExecutor).

Definition clock : M Time := n ← read; mret (e_clock env n).
Definition context : M (option ctx_end) := n ← read; mret (e_ctx env n).

(** ** Events *)

(** [Event{Phase, Kind, Output, Code, Message}] *)
Definition new_event (phase : Phase) (kind output code message : string) : Event :=
  {| evt_Sequence := 0; evt_Attempt := 0; evt_Phase := phase; evt_Kind := kind; evt_Output := output; evt_Vertex := ""; evt_Name := "";
     evt_Current := 0; evt_Total := 0; evt_Cached := false; evt_Stream := 0; evt_Line := ""; evt_Code := code; evt_Message := message; evt_OccurredAt := 0 |}.

(** The event as [emit] numbers, redacts and sanitizes it. *)
Definition stamp (attempt : Z) (redactor : Redactor.Redactor) (sequence : Z) (now : Time) (event : Event) : Event :=
  let clean text := sanitizeProgressText (Redactor.RedactString redactor text) in
  {| evt_Sequence := sequence; evt_Attempt := attempt; evt_Phase := evt_Phase event; evt_Kind := evt_Kind event; evt_Output := evt_Output event;
     evt_Vertex := evt_Vertex event; evt_Name := clean (evt_Name event); evt_Current := evt_Current event; evt_Total := evt_Total event;
     evt_Cached := evt_Cached event; evt_Stream := evt_Stream event; evt_Line := clean (evt_Line event); evt_Code := evt_Code event;
     evt_Message := clean (evt_Message event); evt_OccurredAt := now |}.

Definition append_event (event : Event) (log : Log) : Log :=
  match marshal event with
  | None => {| lg_sequence := evt_Sequence event; lg_transcript := lg_transcript log; lg_err := true; lg_events := lg_events log ++ [event] |}
  | Some encoded =>
      {| lg_sequence := evt_Sequence event; lg_transcript := lg_transcript log +:+ frame encoded; lg_err := lg_err log; lg_events := lg_events log ++ [event] |}
  end.

(** The closure [emit], under its mutex. *)
Definition emit_locked (attempt : Z) (event : Event) : M unit :=
  now ← (if IsZero (evt_OccurredAt event) then clock else mret (evt_OccurredAt event));
  modify (fun s => set_log (append_event (stamp attempt (st_redactor s) (u64 (lg_sequence (st_log s) + 1)) now event) (st_log s)) s).

Definition violation_event (usage : ScratchUsage) : Event :=
  new_event PhaseFailed "error" "" "scratch_quota"
    ("Scratch quota exceeded (" +:+ pretty (Bytes usage) +:+ " bytes, " +:+ pretty (Inodes usage) +:+ " inodes).").

Fixpoint emit_violations (attempt : Z) (usages : list ScratchUsage) : M unit :=
  match usages with
  | [] => mret tt
  | usage :: rest => _ ← emit_locked attempt (violation_event usage); emit_violations attempt rest
  end.

(** While the monitor runs, its violations may be emitted first. *)
Definition monitor (attempt : Z) : M unit :=
  n ← read; monitored ← get st_monitored;
  if (monitored : bool) then emit_violations attempt (e_violations env n) else mret tt.

Definition emit (attempt : Z) (event : Event) : M unit := _ ← monitor attempt; emit_locked attempt event.

Fixpoint emit_all (attempt : Z) (events : list Event) : M unit :=
  match events with
  | [] => mret tt
  | event :: rest => _ ← emit attempt event; emit_all attempt rest
  end.

(** ** streamStatuses *)

Definition vertex_event (output : string) (vertex : Vertex) (now : Time) : Event :=
  let '(occurredAt, kind) := match vx_Started vertex with Some started => (started, "vertex_started") | None => (now, "vertex") end in
  let '(occurredAt, kind) := match vx_Completed vertex with Some completed => (completed, "vertex_completed") | None => (occurredAt, kind) end in
  {| evt_Sequence := 0; evt_Attempt := 0; evt_Phase := PhaseSolving; evt_Kind := kind; evt_Output := output; evt_Vertex := vx_Digest vertex;
     evt_Name := vx_Name vertex; evt_Current := 0; evt_Total := 0; evt_Cached := vx_Cached vertex; evt_Stream := 0; evt_Line := ""; evt_Code := "";
     evt_Message := vx_Error vertex; evt_OccurredAt := occurredAt |}.

Definition status_event (output : string) (progress : VertexStatus) : Event :=
  {| evt_Sequence := 0; evt_Attempt := 0; evt_Phase := PhaseSolving; evt_Kind := "status"; evt_Output := output; evt_Vertex := vs_Vertex progress;
     evt_Name := vs_Name progress; evt_Current := vs_Current progress; evt_Total := vs_Total progress; evt_Cached := false; evt_Stream := 0; evt_Line := "";
     evt_Code := ""; evt_Message := ""; evt_OccurredAt := vs_Timestamp progress |}.

Definition log_event (output vertex : string) (stream : Z) (occurredAt : Time) (line : string) : Event :=
  {| evt_Sequence := 0; evt_Attempt := 0; evt_Phase := PhaseSolving; evt_Kind := "log"; evt_Output := output; evt_Vertex := vertex;
     evt_Name := ""; evt_Current := 0; evt_Total := 0; evt_Cached := false; evt_Stream := stream; evt_Line := line; evt_Code := "";
     evt_Message := ""; evt_OccurredAt := occurredAt |}.

Definition warning_event (output : string) (warning : VertexWarning) : Event :=
  {| evt_Sequence := 0; evt_Attempt := 0; evt_Phase := PhaseSolving; evt_Kind := "warning"; evt_Output := output; evt_Vertex := vw_Vertex warning;
     evt_Name := ""; evt_Current := 0; evt_Total := 0; evt_Cached := false; evt_Stream := 0; evt_Line := ""; evt_Code := "";
     evt_Message := vw_Short warning; evt_OccurredAt := 0 |}.

Definition streamKey (vertex : string) (stream : Z) : string := vertex +:+ ":" +:+ pretty stream.

Fixpoint stream_vertexes (attempt : Z) (output : string) (vertexes : list Vertex) (completed : gmap string bool) : M (gmap string bool) :=
  match vertexes with
  | [] => mret completed
  | vertex :: rest =>
      now ← clock;
      let completed := match vx_Completed vertex with Some _ => <[vx_Digest vertex := vx_Cached vertex]> completed | None => completed end in
      _ ← emit attempt (vertex_event output vertex now);
      stream_vertexes attempt output rest completed
  end.

Fixpoint stream_logs (attempt : Z) (output : string) (logs : list VertexLog) : M unit :=
  match logs with
  | [] => mret tt
  | log :: rest =>
      lines ← state (fun s => let '(redactor, lines) := Redactor.Push (st_redactor s) (streamKey (vl_Vertex log) (vl_Stream log)) (vl_Data log) in
                        (set_redactor redactor s, lines));
      _ ← emit_all attempt (log_event output (vl_Vertex log) (vl_Stream log) (vl_Timestamp log) <$> lines);
      stream_logs attempt output rest
  end.

Fixpoint stream_statuses (attempt : Z) (output : string) (statuses : list (option SolveStatus)) (completed : gmap string bool) : M (gmap string bool) :=
  match statuses with
  | [] => mret completed
  | None :: rest => stream_statuses attempt output rest completed
  | Some status :: rest =>
      completed ← stream_vertexes attempt output (ss_Vertexes status) completed;
      _ ← emit_all attempt (status_event output <$> ss_Statuses status);
      _ ← stream_logs attempt output (ss_Logs status);
      _ ← emit_all attempt (warning_event output <$> ss_Warnings status);
      stream_statuses attempt output rest completed
  end.

Definition flushed_lines (flushed : gmap string (list string)) : list string :=
  Sort ((map_to_list flushed).*1) ≫= (fun key => default [] (flushed !! key)).

Definition streamStatuses (attempt : Z) (output : string) (statuses : list (option SolveStatus)) : M CacheStats :=
  completed ← stream_statuses attempt output statuses ∅;
  flushed ← state (fun s => let '(redactor, flushed) := Redactor.Flush (st_redactor s) in (set_redactor redactor s, flushed));
  _ ← emit_all attempt (log_event output "" 0 0 <$> flushed_lines flushed);
  mret {| Hits := Z.of_nat (length (filter (fun kv => kv.2 = true) (map_to_list completed)));
          Misses := Z.of_nat (length (filter (fun kv => kv.2 = false) (map_to_list completed))) |}.

(** ** Execute *)

Definition with_phase (result : WorkerResult) (phase : Phase) (code : string) : WorkerResult :=
  {| w_BuildID := w_BuildID result; w_Attempt := w_Attempt result; w_Phase := phase; w_Outputs := w_Outputs result; w_StartedAt := w_StartedAt result;
     w_FinishedAt := w_FinishedAt result; w_ErrorCode := code; w_LogsDigest := w_LogsDigest result; w_Cache := w_Cache result; w_Cleanup := w_Cleanup result |}.

Definition with_cache (result : WorkerResult) (stats : CacheStats) : WorkerResult :=
  {| w_BuildID := w_BuildID result; w_Attempt := w_Attempt result; w_Phase := w_Phase result; w_Outputs := w_Outputs result; w_StartedAt := w_StartedAt result;
     w_FinishedAt := w_FinishedAt result; w_ErrorCode := w_ErrorCode result; w_LogsDigest := w_LogsDigest result;
     w_Cache := {| Hits := i64 (Hits (w_Cache result) + Hits stats); Misses := i64 (Misses (w_Cache result) + Misses stats) |}; w_Cleanup := w_Cleanup result |}.

Definition with_output (result : WorkerResult) (output : OutputResult) : WorkerResult :=
  {| w_BuildID := w_BuildID result; w_Attempt := w_Attempt result; w_Phase := w_Phase result; w_Outputs := w_Outputs result ++ [output];
     w_StartedAt := w_StartedAt result; w_FinishedAt := w_FinishedAt result; w_ErrorCode := w_ErrorCode result; w_LogsDigest := w_LogsDigest result;
     w_Cache := w_Cache result; w_Cleanup := w_Cleanup result |}.

Definition stop (result : WorkerResult) (phase : Phase) (code message : string) : outcome :=
  (with_phase result phase code, Some (ErrExecute message)).

(** After an [output_complete] the deferred completion of its cache succeeds. *)
Definition cache_succeeded : M unit := modify (fun s =>
  match st_deferred s with
  | CompleteCache index output _ :: rest => set_deferred (CompleteCache index output true :: rest) s
  | _ => s
  end).

(** The solve of an output; [None] is the answer to carry on with. *)
Definition solve (request : Request) (index : nat) (output : Assignment.ResolvedOutput) (attemptDirectory : string) (exporter : string * string)
    (result : WorkerResult) : M (outcome + (WorkerResult * gmap string string)) :=
  let o := e_output env index in
  let name := Assignment.ro_Name output in
  _ ← emit (q_Attempt request) (new_event PhaseSolving "output_started" name "" "");
  secrets ← get st_secrets;
  _ ← record (Solved {| sr_Definition := Assignment.ro_Definition output; sr_Source := OCIArtifact.join_path attemptDirectory "source"; sr_Secrets := secrets;
                        sr_Exporter := exporter; sr_Ref := w_BuildID result +:+ "-" +:+ pretty (w_Attempt result) +:+ "-" +:+ name |});
  stats ← streamStatuses (q_Attempt request) name (oe_statuses o);
  let result := with_cache result stats in
  match oe_solve o with
  | inl solveErr =>
      ctx ← context; cause ← context; ctxErr ← context;
      let code := classifySolveError solveErr cause ctxErr in
      let phase := if String.eqb code "scratch_quota" then PhaseFailed else phaseForContext ctx in
      _ ← emit (q_Attempt request) (new_event phase "error" name code "Build solve failed.");
      mret (inl (stop result phase code code))
  | inr None => mret (inl (stop result PhaseFailed "solve_response" "BuildKit returned no solve response"))
  | inr (Some response) => mret (inr (result, response))
  end.

(** Committing what was exported. *)
Definition commit_output (request : Request) (index : nat) (output : Assignment.ResolvedOutput) (artifactPath artifactDigest : string) (artifactSize : Z)
    (identity : OCIArtifact.OCIArtifactIdentity) (response : gmap string string) (result : WorkerResult) : M (outcome + WorkerResult) :=
  let o := e_output env index in
  let name := Assignment.ro_Name output in
  let payload := Assignment.va_Payload (Assignment.ra_Verified (q_Assignment request)) in
  let lock := Assignment.p_Lock payload in
  let result := with_phase result PhaseExporting (w_ErrorCode result) in
  _ ← emit (q_Attempt request) (new_event PhaseExporting "artifact_commit_started" name "" "");
  let artifact := {| xa_OrganizationID := Assignment.p_OrganizationID payload; xa_ProjectID := Assignment.p_ProjectID payload; xa_BuildID := w_BuildID result;
                     xa_Attempt := w_Attempt result; xa_OutputName := name; xa_Kind := Assignment.ro_Kind output; xa_Path := artifactPath;
                     xa_Digest := artifactDigest; xa_Size := artifactSize; xa_Provenance := provenanceContext request |} in
  _ ← record (Committed artifact);
  let '(committed, commitErr) := oe_commit o artifact in
  if bool_decide (is_Some commitErr) || String.eqb (ca_Reference committed) "" || negb (String.eqb (ca_Digest committed) artifactDigest) ||
     negb (ca_Size committed =? artifactSize) ||
     (String.eqb (Assignment.ro_Kind output) "oci_image" && negb (String.eqb (ca_ManifestDigest committed) "") &&
      negb (String.eqb (ca_ManifestDigest committed) (OCIArtifact.id_ManifestDigest identity))) ||
     negb (validCommittedSupplyChain committed (dl_PolicyDigest lock) (dl_SupplyChain lock))
  then
    ctx ← context;
    let phase := phaseForContext ctx in
    let code := match commitErr with Some code => if String.eqb code "" then "artifact_commit" else code | None => "artifact_commit" end in
    _ ← emit (q_Attempt request) (new_event phase "error" name code "Exported artifact could not be committed.");
    _ ← context;
    mret (inl (stop result phase code "artifact commit"))
  else
    _ ← emit (q_Attempt request) (new_event PhaseExporting "output_complete" name "" "");
    let manifestDigest := if negb (String.eqb (ca_ManifestDigest committed) "") then ca_ManifestDigest committed else OCIArtifact.id_ManifestDigest identity in
    let result := with_output result
      {| o_Name := name; o_Kind := Assignment.ro_Kind output; o_ArtifactRef := ca_Reference committed; o_ArtifactPath := ca_Path committed;
         o_ArtifactDigest := ca_Digest committed; o_ArtifactSize := ca_Size committed; o_ConfigDigest := digestContents (Assignment.ro_Config output);
         o_ManifestDigest := manifestDigest; o_PublicationManifestRef := ca_PublicationManifestRef committed;
         o_LayerDigests := OCIArtifact.id_LayerDigests identity; o_ExporterResponse := response; o_SupplyChain := ca_SupplyChain committed |} in
    _ ← cache_succeeded;
    mret (inr result).

Definition no_identity : OCIArtifact.OCIArtifactIdentity :=
  {| OCIArtifact.id_ManifestDigest := ""; OCIArtifact.id_ManifestMediaType := ""; OCIArtifact.id_Manifest := "";
     OCIArtifact.id_Config := {| OCIArtifact.d_MediaType := ""; OCIArtifact.d_Digest := ""; OCIArtifact.d_Size := 0 |};
     OCIArtifact.id_Layers := []; OCIArtifact.id_LayerDigests := [] |}.

(** The identity of what was exported. *)
Definition identify (index : nat) (output : Assignment.ResolvedOutput) : Prelude.result OCIArtifact.OCIArtifactIdentity :=
  if String.eqb (Assignment.ro_Kind output) "oci_image" then OCIArtifact.InspectOCIArtifact (oe_archive (e_output env index)) else Ok no_identity.

Definition run_output (request : Request) (attemptDirectory : string) (index : nat) (output : Assignment.ResolvedOutput) (result : WorkerResult) : M (outcome + WorkerResult) :=
  let o := e_output env index in
  let name := Assignment.ro_Name output in
  ctx ← context;
  match ctx with
  | Some _ =>
      cause ← context; _ ← context;
      mret (inl (if is_quota cause then stop result PhaseFailed "scratch_quota" "canceled" else stop result PhaseCanceled "canceled" "canceled"))
  | None =>
      if negb (bool_decide (is_Some (LLBAudit.unmarshal_definition (Assignment.ro_Definition output))))
      then mret (inl (stop result PhaseFailed "definition_decode" "definition decode"))
      else
        let exportDirectory := OCIArtifact.join_path attemptDirectory ("exports/" +:+ name) in
        if negb (oe_mkdir o) then mret (inl (stop result PhaseFailed "export_directory" "export directory"))
        else match buildExportEntry output exportDirectory with
        | Err _ => mret (inl (stop result PhaseFailed "export_configuration" "export configuration"))
        | Ok exporter =>
            if negb (oe_acquire o) then mret (inl (stop result PhaseFailed "cache_acquire" "cache capability"))
            else
              _ ← record (CacheAcquired name);
              _ ← defer (CompleteCache index name false);
              solved ← solve request index output attemptDirectory exporter result;
              match solved with
              | inl out => mret (inl out)
              | inr (result, response) =>
                  match exportedArtifactDigest (oe_artifact o) (Assignment.ro_Kind output) with
                  | Err _ =>
                      _ ← emit (q_Attempt request) (new_event PhaseFailed "error" name "export_missing" "Exported artifact is absent or invalid.");
                      mret (inl (stop result PhaseFailed "export_missing" "exported artifact"))
                  | Ok (artifactDigest, artifactSize) =>
                      match identify index output with
                      | Err _ =>
                          _ ← emit (q_Attempt request) (new_event PhaseFailed "error" name "export_invalid" "OCI export failed structural and descriptor validation.");
                          mret (inl (stop result PhaseFailed "export_invalid" "invalid OCI export"))
                      | Ok ociIdentity => commit_output request index output exporter.2 artifactDigest artifactSize ociIdentity response result
                      end
                  end
              end
        end
  end.

Fixpoint run_outputs (request : Request) (attemptDirectory : string) (index : nat) (outputs : list Assignment.ResolvedOutput) (result : WorkerResult) : M outcome :=
  match outputs with
  | [] =>
      cause ← context;
      if is_quota cause then _ ← context; mret (stop result PhaseFailed "scratch_quota" "scratch quota exceeded")
      else mret (result, None)
  | output :: rest =>
      r ← run_output request attemptDirectory index output result;
      match r with
      | inl out => mret out
      | inr result => run_outputs request attemptDirectory (S index) rest result
      end
  end.

(** From the fresh scratch directory to the last output. *)
Definition execute_body (request : Request) (result : WorkerResult) : M outcome :=
  let payload := Assignment.va_Payload (Assignment.ra_Verified (q_Assignment request)) in
  let attempt := q_Attempt request in
  let root := OCIArtifact.join_path (x_scratchRoot executor) (Assignment.p_BuildID payload) in
  let attemptDirectory := OCIArtifact.join_path root ("attempt-" +:+ pretty attempt) in
  _ ← record (Prepared attemptDirectory);
  if negb (e_fresh env) then mret (stop result PhaseFailed "scratch_prepare" "prepare scratch")
  else
    _ ← record (MonitorStarted root);
    _ ← modify (set_monitored true);
    _ ← defer StopMonitor;
    let sourceDirectory := OCIArtifact.join_path attemptDirectory "source" in
    _ ← record (Materialized (Assignment.p_Source payload) sourceDirectory);
    if negb (e_materialized env) then
      ctx ← context; cause ← context;
      let phase := if is_quota cause then PhaseFailed else phaseForContext ctx in
      let code := if is_quota cause then "scratch_quota" else if String.eqb (phaseForContext ctx) PhaseCanceled then "canceled" else "source_materialization" in
      _ ← emit attempt (new_event phase "error" "" code "Source materialization failed.");
      _ ← context; _ ← context;
      mret (stop result phase code "source materialization")
    else if negb (e_localFS env) then mret (stop result PhaseFailed "source_filesystem" "source filesystem")
    else
      _ ← modify (set_secrets (q_Secrets request));
      _ ← record SecretsCopied;
      _ ← defer WipeSecrets;
      _ ← emit attempt (new_event PhaseSolving "phase" "" "" "");
      run_outputs request attemptDirectory 0 (Assignment.ra_Outputs (q_Assignment request)) (with_phase result PhaseSolving (w_ErrorCode result)).

(** The deferred calls after the body, the last one deferred first. *)
Fixpoint run_deferred (attempt : Z) (calls : list deferred) (out : outcome) : M outcome :=
  match calls with
  | [] => mret out
  | CompleteCache index output succeeded :: rest =>
      _ ← record (CacheCompleted output succeeded);
      let out := if oe_complete (e_output env index) succeeded then out else stop out.1 PhaseFailed "cache_commit" "cache commit" in
      run_deferred attempt rest out
  | WipeSecrets :: rest =>
      _ ← modify (set_secrets ∅); _ ← record SecretsWiped; run_deferred attempt rest out
  | StopMonitor :: rest =>
      _ ← record MonitorStopped; _ ← monitor attempt; _ ← modify (set_monitored false); run_deferred attempt rest out
  end.

Definition finished (result : WorkerResult) (phase : Phase) (code logs : string) (cleanup : CleanupReport) (finishedAt : Time) : WorkerResult :=
  {| w_BuildID := w_BuildID result; w_Attempt := w_Attempt result; w_Phase := phase; w_Outputs := w_Outputs result; w_StartedAt := w_StartedAt result;
     w_FinishedAt := finishedAt; w_ErrorCode := code; w_LogsDigest := logs; w_Cache := w_Cache result; w_Cleanup := cleanup |}.

(** The first deferred function, which runs last but for the redactor's. *)
Definition clean_up (request : Request) (out : outcome) : M outcome :=
  let buildID := Assignment.p_BuildID (Assignment.va_Payload (Assignment.ra_Verified (q_Assignment request))) in
  let attempt := q_Attempt request in
  let '(result, resultErr) := out in
  _ ← emit attempt (new_event PhaseCleaning "phase" "" "" "");
  _ ← record (CleanedUp buildID);
  let cleanup := e_cleanup env buildID in
  finishedAt ← clock;
  if negb (String.eqb (cl_Status cleanup) CleanupClean) then
    _ ← emit attempt (new_event PhaseFailed "error" "" "cleanup_failed" "Worker residue cleanup failed; the worker is quarantined.");
    mret (finished result PhaseFailed (if String.eqb (w_ErrorCode result) "" then "cleanup_failed" else w_ErrorCode result) (w_LogsDigest result) cleanup finishedAt,
          match resultErr with None => Some (ErrExecute "cleanup did not prove a clean worker") | Some e => Some e end)
  else
    _ ← emit attempt (new_event PhaseCleaning "cleanup" "" CleanupClean "Worker residue cleanup verified.");
    _ ← (match resultErr with None => emit attempt (new_event PhaseComplete "phase" "" "" "") | Some _ => mret tt end : M unit);
    log ← get st_log;
    let logs := bytesDigest (lg_transcript log) in
    match resultErr with
    | Some e => mret (finished result (w_Phase result) (w_ErrorCode result) logs cleanup finishedAt, Some e)
    | None =>
        if lg_err log then mret (finished result PhaseFailed "event_digest" logs cleanup finishedAt, Some (ErrExecute "structured event digest"))
        else mret (finished result PhaseComplete (w_ErrorCode result) logs cleanup finishedAt, None)
    end.

Definition close_redactor : M unit :=
  _ ← record RedactorClosed; modify (fun s => set_redactor (Redactor.Close (st_redactor s)).1 s).

(** Everything after the checks, with its deferred calls. *)
Definition execute_checked (request : Request) (result : WorkerResult) : M outcome :=
  _ ← modify (set_redactor (Redactor.NewRedactor unicode_Quote arrange (q_Secrets request)));
  _ ← emit (q_Attempt request) (new_event PhaseMaterializing "phase" "" "" "");
  out ← execute_body request result;
  calls ← state (fun s => (set_deferred [] s, st_deferred s));
  out ← run_deferred (q_Attempt request) calls out;
  out ← clean_up request out;
  _ ← close_redactor;
  mret out.

Definition Execute (request : Request) : M outcome :=
  startedAt ← clock;
  if is_err (Assignment.Validate (q_Assignment request)) then
    mret ({| w_BuildID := ""; w_Attempt := 0; w_Phase := PhaseFailed; w_Outputs := []; w_StartedAt := startedAt; w_FinishedAt := startedAt;
             w_ErrorCode := "assignment_invalid"; w_LogsDigest := ""; w_Cache := {| Hits := 0; Misses := 0 |}; w_Cleanup := zero_report |},
          Some (ErrExecute "assignment proof"))
  else
    let payload := Assignment.va_Payload (Assignment.ra_Verified (q_Assignment request)) in
    let result := {| w_BuildID := Assignment.p_BuildID payload; w_Attempt := q_Attempt request; w_Phase := PhaseMaterializing; w_Outputs := [];
                     w_StartedAt := startedAt; w_FinishedAt := 0; w_ErrorCode := ""; w_LogsDigest := ""; w_Cache := {| Hits := 0; Misses := 0 |}; w_Cleanup := zero_report |} in
    if (q_Attempt request =? 0) || negb (q_Events request) then mret (result, Some (ErrExecute "attempt and event sink are required"))
    else if negb (validateSecrets maxSecretSize (dl_Secrets (Assignment.p_Lock payload)) (q_Secrets request))
    then mret (stop result PhaseFailed "secret_capability" "secret capability mismatch")
    else execute_checked request result.

Definition start : State :=
  {| st_reads := 0; st_log := {| lg_sequence := 0; lg_transcript := ""; lg_err := false; lg_events := [] |}; st_monitored := false;
     st_redactor := {| Redactor.rd_patterns := []; Redactor.rd_buffers := ∅ |}; st_secrets := ∅; st_deferred := []; st_trace := [] |}.

End Execute.

End Executor.
