(* ===== verification/ExecutorLaws.v ===== *)
(** * What an execution of the build worker guarantees

    The protocol of [Executor.Execute] as a state machine, and the theorems: whatever
    the collaborators answer, what was taken is given back in order; what BuildKit
    solves was signed and audited; the phase, the error and the events agree; and a
    success is what the controller accepts. *)

From S2P Require Import Prelude StateMonad Text GoStd GoURL Crypto Framing ArtifactIdentity PlatformID Storage Redactor OCIArtifact LLBPolicy LLBAudit Assignment BuildWorker RunStore Controller Executor.
From stdpp Require Import pretty.
Import StateMonad GoStd GoURL Crypto Framing ArtifactIdentity Storage LLBPolicy BuildWorker Executor.

Open Scope Z_scope.

Module ExecutorLaws.

Create HintDb silent.

(** ** The protocol *)

(** What is to be given back, the last first. *)
Inductive pending := PMonitor | PSecrets | PCache (output : string).

Inductive session :=
| Fresh
| Running (owed : list pending)
| Cleaned
| Closed.

Definition keep (ok : bool) (st : session) : option session := if ok then Some st else None.

Definition top_cache (owed : list pending) (output : string) : bool :=
  match owed with PCache o :: _ => String.eqb o output | _ => false end.

(** One call in a session; [None] is a call out of order. *)
Definition advance (st : session) (a : action) : option session :=
  match st, a with
  | Fresh, Prepared _ => Some (Running [])
  | Running [], MonitorStarted _ => Some (Running [PMonitor])
  | Running [PMonitor], Materialized _ _ => Some st
  | Running [PMonitor], SecretsCopied => Some (Running [PSecrets; PMonitor])
  | Running (PSecrets :: owed), CacheAcquired output => Some (Running (PCache output :: PSecrets :: owed))
  | Running (PCache o :: owed), CacheAcquired output => Some (Running (PCache output :: PCache o :: owed))
  | Running (PCache o :: _), Solved _ => Some st
  | Running (PCache o :: _), Committed artifact => keep (String.eqb o (xa_OutputName artifact)) st
  | Running (PCache o :: owed), CacheCompleted output _ => keep (String.eqb o output) (Running owed)
  | Running (PSecrets :: owed), SecretsWiped => Some (Running owed)
  | Running (PMonitor :: owed), MonitorStopped => Some (Running owed)
  | Running [], CleanedUp _ => Some Cleaned
  | Cleaned, RedactorClosed => Some Closed
  | _, _ => None
  end.

Abbreviation session_run := (StateMonad.session_run advance).

Lemma wp_call a (Q : unit → State → Prop) s : Q tt (record a s).1 → wp (record a) Q s.
Proof. done. Qed.

(** ** Logs *)

Lemma check_layers_true seen layers : RunStore.check_layers seen layers = true ↔
  Forall (fun layer => is_digest layer = true) layers ∧ NoDup layers ∧ (∀ layer, layer ∈ layers → (layer ∉ seen)).
Proof.
  revert seen. induction layers as [|layer rest IH]; intros seen; cbn [RunStore.check_layers]; [split; [|done]; intros _; split_and!; [constructor|constructor|]; intros ? ?%not_elem_of_nil; done|].
  rewrite Forall_cons, NoDup_cons. destruct (is_digest layer) eqn:Hd; cbn [negb]; [|naive_solver].
  destruct (existsb (String.eqb layer) seen) eqn:Hx.
  - split; [done|]. intros (_ & _ & Hn). destruct (Hn layer); [left|]. apply existsb_exists in Hx as (x & Hx & ->%String.eqb_eq). by apply list_elem_of_In.
  - assert (layer ∉ seen) as Hns. { intros Hin. apply not_true_iff_false in Hx. apply Hx, existsb_exists. exists layer. split; [by apply list_elem_of_In|apply String.eqb_refl]. }
    rewrite IH. setoid_rewrite elem_of_cons. clear IH Hx. naive_solver.
Qed.

Lemma allowed_secrets_from secrets key required : Controller.allowed_secrets secrets !! key = Some required → ∃ c, c ∈ secrets ∧ se_MountID c = key.
Proof.
  unfold Controller.allowed_secrets. induction secrets as [|c secrets IH] using rev_ind; [done|]. rewrite fold_left_app. simpl.
  intros [[? _]|[_ Hin]]%lookup_insert_Some; [exists c; split; [apply elem_of_app; right; left|done]|].
  destruct (IH Hin) as (c' & ? & ?). exists c'. split; [apply elem_of_app; by left|done].
Qed.

Section Laws.
Context `{!Codec Assignment.Payload} `{!LLBAudit.Buildkit} `{!LLBAudit.AuthorityCodecs} `{!Codec Event} `{!OCIArtifact.OCIJSON} `{!NetURL}.
Context (env : Env).

(** Events are numbered from 1, carry the attempt, and the transcript frames their
    encodings unless one failed. *)
Record log_ok (attempt : Z) (l : Log) : Prop := {
  lo_sequence : lg_sequence l = u64 (Z.of_nat (length (lg_events l)));
  lo_numbered : ∀ i e, lg_events l !! i = Some e → evt_Sequence e = u64 (Z.of_nat i + 1) ∧ evt_Attempt e = attempt;
  lo_transcript : lg_err l = false → ∃ encs, Forall2 (fun event enc => marshal event = Some enc) (lg_events l) encs ∧ lg_transcript l = frames encs;
}.

Lemma append_event_ok attempt l e :
  log_ok attempt l → evt_Sequence e = u64 (lg_sequence l + 1) → evt_Attempt e = attempt → log_ok attempt (append_event e l).
Proof.
  intros [Hs Hn Ht] He Ha. assert (evt_Sequence e = u64 (Z.of_nat (length (lg_events l)) + 1)) as Hseq.
  { rewrite He, Hs. unfold u64. by rewrite Z.add_mod_idemp_l by lia. }
  assert (∀ i e', (lg_events l ++ [e]) !! i = Some e' → evt_Sequence e' = u64 (Z.of_nat i + 1) ∧ evt_Attempt e' = attempt) as Hall.
  { intros i e' Hi. apply lookup_app_Some in Hi as [Hi|[Hle Hi]]; [eauto|]. apply list_lookup_singleton_Some in Hi as [E <-].
    split; [|done]. rewrite Hseq. do 2 f_equal. lia. }
  unfold append_event. destruct (marshal e) as [encoded|] eqn:Hm; constructor; cbn [lg_sequence lg_events lg_err lg_transcript]; try done.
  - rewrite length_app, Nat2Z.inj_add. exact Hseq.
  - intros Herr. destruct (Ht Herr) as (encs & Hf & ->). exists (encs ++ [encoded]). split; [by apply Forall2_app; [|constructor]|].
    rewrite frames_app. simpl. by rewrite str_app_nil_r.
  - rewrite length_app, Nat2Z.inj_add. exact Hseq.
Qed.

Lemma append_event_prefix e l : lg_events l `prefix_of` lg_events (append_event e l).
Proof. unfold append_event. destruct (marshal e); by eexists. Qed.

(** Nothing but the log, the readings and the redactor's buffers changed. *)
Record quiet (attempt : Z) (s s' : State) : Prop := {
  qt_trace : st_trace s' = st_trace s;
  qt_deferred : st_deferred s' = st_deferred s;
  qt_secrets : st_secrets s' = st_secrets s;
  qt_patterns : Redactor.rd_patterns (st_redactor s') = Redactor.rd_patterns (st_redactor s);
  qt_log : log_ok attempt (st_log s) → log_ok attempt (st_log s');
}.

#[export] Instance quiet_preorder attempt : PreOrder (quiet attempt).
Proof.
  split.
  - intros s. by constructor.
  - intros s1 s2 s3 [] []. constructor; try congruence. auto.
Qed.

Abbreviation silent attempt := (preserves (quiet attempt)).

Lemma silent_read attempt : silent attempt read.
Proof. intros s. by constructor. Qed.

Hint Resolve quiet_preorder preserves_ret preserves_get silent_read : silent.

#[local] Ltac silence := repeat (first [solve [auto with silent] | apply preserves_bind; [apply quiet_preorder| |intros]]).

Lemma silent_clock attempt : silent attempt (clock env).
Proof. unfold clock. silence. Qed.

Lemma silent_context attempt : silent attempt (context env).
Proof. unfold context. silence. Qed.

Hint Resolve silent_clock silent_context : silent.

Lemma silent_emit_locked attempt e : silent attempt (emit_locked env attempt e).
Proof.
  unfold emit_locked. apply preserves_bind; [apply quiet_preorder|destruct (IsZero _); auto with silent|]. intros now s. constructor; try done.
  intros Hl. apply append_event_ok; done.
Qed.

Lemma silent_emit_violations attempt usages : silent attempt (emit_violations env attempt usages).
Proof. induction usages; simpl; [auto with silent|]. apply preserves_bind; [apply quiet_preorder|apply silent_emit_locked|done]. Qed.

Lemma silent_monitor attempt : silent attempt (monitor env attempt).
Proof. unfold monitor. silence. destruct (_ : bool); [apply silent_emit_violations|auto with silent]. Qed.

Lemma silent_emit attempt e : silent attempt (emit env attempt e).
Proof. unfold emit. apply preserves_bind; [apply quiet_preorder|apply silent_monitor|]. intros _. apply silent_emit_locked. Qed.

Hint Resolve silent_emit silent_monitor : silent.

Lemma silent_emit_all attempt events : silent attempt (emit_all env attempt events).
Proof. induction events; simpl; silence. Qed.

Hint Resolve silent_emit_all : silent.

Lemma silent_push attempt key data : silent attempt (state (fun s => let '(redactor, lines) := Redactor.Push (st_redactor s) key data in (set_redactor redactor s, lines))).
Proof. intros s. unfold state, Redactor.Push. destruct (Redactor.push_segments _ _ _). by constructor. Qed.

Hint Resolve silent_push : silent.

Lemma silent_stream_vertexes attempt output vertexes completed : silent attempt (stream_vertexes env attempt output vertexes completed).
Proof. revert completed. induction vertexes; intros; simpl; silence. Qed.

Lemma silent_stream_logs attempt output logs : silent attempt (stream_logs env attempt output logs).
Proof. induction logs; simpl; silence. Qed.

Hint Resolve silent_stream_vertexes silent_stream_logs : silent.

Lemma silent_stream_statuses attempt output statuses completed : silent attempt (stream_statuses env attempt output statuses completed).
Proof. revert completed. induction statuses as [|[status|] statuses IH]; intros; simpl; [auto with silent| |apply IH]. silence. Qed.

Lemma silent_streamStatuses attempt output statuses : silent attempt (streamStatuses env attempt output statuses).
Proof. unfold streamStatuses. apply preserves_bind; [apply quiet_preorder|apply silent_stream_statuses|]. intros. apply preserves_bind; [apply quiet_preorder|intros s; by constructor|]. intros. silence. Qed.

Hint Resolve silent_streamStatuses : silent.

(** Step over a silent call, or use what a call establishes. *)
Lemma wp_silent attempt {A} (m : M A) Q s : silent attempt m → (∀ s' a, quiet attempt s s' → Q a s') → wp m Q s.
Proof. intros Hm HQ. eapply wp_preserves; eauto. Qed.

Lemma wp_then {A} (m : M A) (P Q : A → State → Prop) s : (∀ s' a, P a s' → Q a s') → wp m P s → wp m Q s.
Proof. intros HQ Hm. eapply wp_mono; eauto. Qed.

(** ** Invariants of an execution *)

Section Request.
Context (request : Request).

#[local] Abbreviation payload := (Assignment.va_Payload (Assignment.ra_Verified (q_Assignment request))).
#[local] Abbreviation outputs := (Assignment.ra_Outputs (q_Assignment request)).

Definition owes (call : deferred) : pending :=
  match call with CompleteCache _ output _ => PCache output | WipeSecrets => PSecrets | StopMonitor => PMonitor end.

(** A solve is of a resolved output, with the secrets that were checked. *)
Definition solved_ok (a : action) : Prop :=
  match a with
  | Solved r => ∃ output, output ∈ outputs ∧ sr_Definition r = Assignment.ro_Definition output ∧ sr_Secrets r = q_Secrets request
  | _ => True
  end.

(** The output [o] of a result is what was exported, inspected and committed for
    the resolved output [output]. *)
Record delivered (index : nat) (output : Assignment.ResolvedOutput) (o : OutputResult) : Prop := {
  dv_name : o_Name o = Assignment.ro_Name output;
  dv_kind : o_Kind o = Assignment.ro_Kind output;
  dv_reference : o_ArtifactRef o ≠ "";
  dv_artifact : exportedArtifactDigest (oe_artifact (e_output env index)) (Assignment.ro_Kind output) = Ok (o_ArtifactDigest o, o_ArtifactSize o);
  dv_config : o_ConfigDigest o = bytesDigest (Assignment.ro_Config output);
  dv_known : Assignment.ro_Kind output = "static_bundle" ∨ Assignment.ro_Kind output = "oci_image";
  dv_image : Assignment.ro_Kind output = "oci_image" → ∃ identity, OCIArtifact.InspectOCIArtifact (oe_archive (e_output env index)) = Ok identity ∧
    o_ManifestDigest o = OCIArtifact.id_ManifestDigest identity ∧ o_LayerDigests o = OCIArtifact.id_LayerDigests identity;
  dv_bundle : Assignment.ro_Kind output = "static_bundle" → o_LayerDigests o = [];
  dv_chain : ∃ committed, ca_Reference committed = o_ArtifactRef o ∧ ca_SupplyChain committed = o_SupplyChain o ∧
    validCommittedSupplyChain committed (dl_PolicyDigest (Assignment.p_Lock payload)) (dl_SupplyChain (Assignment.p_Lock payload)) = true;
}.

(** What holds of the state and of the result all along. *)
Record inv (s : State) (result : WorkerResult) : Prop := {
  iv_session : session_run Fresh (st_trace s) = Some (Running (owes <$> st_deferred s));
  iv_succeeded : ∀ i name, CompleteCache i name true ∈ st_deferred s → name ∈ o_Name <$> w_Outputs result;
  iv_completed : ∀ name, CacheCompleted name true ∈ st_trace s → name ∈ o_Name <$> w_Outputs result;
  iv_secrets : st_secrets s = ∅ ∨ WipeSecrets ∈ st_deferred s;
  iv_solved : Forall solved_ok (st_trace s);
  iv_log : log_ok (q_Attempt request) (st_log s);
  iv_build : w_BuildID result = Assignment.p_BuildID payload;
  iv_attempt : w_Attempt result = q_Attempt request;
  iv_outputs : ∀ i o, w_Outputs result !! i = Some o → ∃ output, outputs !! i = Some output ∧ delivered i output o;
}.

Definition failed (phase : Phase) : Prop := phase = PhaseFailed ∨ phase = PhaseCanceled.

(** A return from the body. *)
Definition ended (s : State) (out : outcome) : Prop :=
  inv s out.1 ∧
  match out.2 with
  | None => w_ErrorCode out.1 = "" ∧ length (w_Outputs out.1) = length outputs
  | Some _ => failed (w_Phase out.1) ∧ w_ErrorCode out.1 ≠ ""
  end.

Lemma inv_quiet s s' result : inv s result → quiet (q_Attempt request) s s' → inv s' result.
Proof.
  intros [] [Ht Hd Hs _ Hl]. constructor; rewrite ?Ht, ?Hd, ?Hs; auto.
Qed.

Lemma inv_phase s result phase code : inv s result → inv s (with_phase result phase code).
Proof. by intros []. Qed.

Lemma inv_cache s result stats : inv s result → inv s (with_cache result stats).
Proof. by intros []. Qed.

(** One call of the protocol. *)
Lemma inv_step s s' result a :
  inv s result → st_trace s' = st_trace s ++ [a] → st_log s' = st_log s → solved_ok a → (∀ name, a ≠ CacheCompleted name true) →
  advance (Running (owes <$> st_deferred s)) a = Some (Running (owes <$> st_deferred s')) →
  (∀ i name, CompleteCache i name true ∈ st_deferred s' → CompleteCache i name true ∈ st_deferred s) →
  (st_secrets s' = ∅ ∨ WipeSecrets ∈ st_deferred s') → inv s' result.
Proof.
  intros [] Ht Hl Ha Hne Hadv Hd Hs. constructor; rewrite ?Ht, ?Hl; eauto.
  - by eapply session_run_snoc.
  - intros name Hin. apply elem_of_app in Hin as [?|Hin]; [auto|]. apply list_elem_of_singleton in Hin. by destruct (Hne name).
  - apply Forall_app. auto.
Qed.

Lemma inv_record s result a : inv s result → solved_ok a → (∀ name, a ≠ CacheCompleted name true) →
  advance (Running (owes <$> st_deferred s)) a = Some (Running (owes <$> st_deferred s)) → inv (record a s).1 result.
Proof. intros Hi Ha Hne Hadv. eapply inv_step; eauto. apply Hi. Qed.

Lemma ended_stop s result phase code message : inv s result → failed phase → code ≠ "" → ended s (stop result phase code message).
Proof. intros Hi Hp Hc. split; [by apply inv_phase|done]. Qed.

Lemma failed_failed : failed PhaseFailed.
Proof. by left. Qed.

Lemma failed_context ctx : failed (phaseForContext ctx).
Proof. destruct ctx; [right|left]; done. Qed.

Lemma classify_nonempty e cause ctxErr : classifySolveError e cause ctxErr ≠ "".
Proof. unfold classifySolveError. repeat case_match; done. Qed.

(** The deferred calls and the secrets are kept. *)
Definition kept (s s' : State) : Prop := st_deferred s' = st_deferred s ∧ st_secrets s' = st_secrets s.

Lemma kept_quiet s s1 s2 : kept s s1 → quiet (q_Attempt request) s1 s2 → kept s s2.
Proof. intros [] []. split; congruence. Qed.

Lemma kept_refl s : kept s s.
Proof. done. Qed.

(** Step over a call that only logs and reads, keeping [Hi : inv s _] and
    [Hk : kept _ s]. *)
#[local] Ltac quietly Hi Hk :=
  let s' := fresh "s" in let Hq := fresh "Hq" in
  apply wp_bind; eapply (wp_silent (q_Attempt request)); [solve [auto with silent]|]; intros s' ? Hq;
  apply (inv_quiet _ _ _ Hi) in Hq as ?Hi'; clear Hi; rename Hi' into Hi; apply (kept_quiet _ _ _ Hk) in Hq; clear Hk; rename Hq into Hk.

Lemma solve_spec index output attemptDirectory exporter result s i ok rest :
  inv s result → st_deferred s = CompleteCache i (Assignment.ro_Name output) ok :: rest → st_secrets s = q_Secrets request → output ∈ outputs →
  wp (solve env request index output attemptDirectory exporter result)
    (fun r s' => kept s s' ∧
       match r with
       | inl out => ended s' out
       | inr (result', _) => inv s' result' ∧ w_ErrorCode result' = w_ErrorCode result ∧ w_Outputs result' = w_Outputs result
       end) s.
Proof.
  intros Hi Hd Hsec Hout. unfold solve. pose proof (kept_refl s) as Hk.
  quietly Hi Hk. apply wp_bind, wp_get. apply wp_bind, wp_call. set (r := {| sr_Definition := _ |}).
  assert (inv (record (Solved r) s0).1 result) as Hi2.
  { eapply inv_record; [done| |done|by rewrite (proj1 Hk), Hd]. exists output. split_and!; [done..|]. cbn. by rewrite (proj2 Hk). }
  clear Hi. rename Hi2 into Hi. assert (kept s (record (Solved r) s0).1) as Hk' by exact Hk. clear Hk. rename Hk' into Hk. clearbody r.
  quietly Hi Hk. apply (inv_cache _ _ a0) in Hi.
  destruct (oe_solve _) as [e|[response|]].
  - quietly Hi Hk. quietly Hi Hk. quietly Hi Hk. quietly Hi Hk. apply wp_ret. split; [done|].
    apply ended_stop; [done| |apply classify_nonempty]. destruct (String.eqb _ _); [apply failed_failed|apply failed_context].
  - apply wp_ret. done.
  - apply wp_ret. split; [done|]. apply ended_stop; [done|apply failed_failed|done].
Qed.

(** The output that was solved last is committed: its cache will be completed. *)
Lemma inv_output s result index output o i ok rest :
  inv s result → st_deferred s = CompleteCache i (Assignment.ro_Name output) ok :: rest → outputs !! index = Some output →
  length (w_Outputs result) = index → delivered index output o →
  inv (set_deferred (CompleteCache i (Assignment.ro_Name output) true :: rest) s) (with_output result o).
Proof.
  intros [Hs Hsu Hco Hse Hso Hl Hb Ha Ho] Hd Hout Hlen Hdel. constructor; cbn; try done.
  - by rewrite Hs, Hd.
  - intros k name Hin. rewrite fmap_app, elem_of_app. apply elem_of_cons in Hin as [E|Hin].
    + right. simplify_eq. rewrite <- (dv_name _ _ _ Hdel). left.
    + left. apply (Hsu k). rewrite Hd. by right.
  - intros name Hin. rewrite fmap_app, elem_of_app. auto.
  - destruct Hse as [?|Hw]; [by left|right]. rewrite Hd in Hw. apply elem_of_cons in Hw as [?|Hw]; [done|by right].
  - intros k o' Hk. apply lookup_app_Some in Hk as [Hk|[Hle Hk]]; [eauto|]. apply list_lookup_singleton_Some in Hk as [E <-].
    exists output. assert (k = index) as -> by lia. done.
Qed.

Lemma commit_spec index output path digest size oci response result s i ok rest :
  inv s result → st_deferred s = CompleteCache i (Assignment.ro_Name output) ok :: rest → outputs !! index = Some output →
  length (w_Outputs result) = index → exportedArtifactDigest (oe_artifact (e_output env index)) (Assignment.ro_Kind output) = Ok (digest, size) →
  identify env index output = Ok oci → Assignment.ro_Kind output = "static_bundle" ∨ Assignment.ro_Kind output = "oci_image" →
  wp (commit_output env request index output path digest size oci response result)
    (fun r s' => st_secrets s' = st_secrets s ∧
       match r with
       | inl out => ended s' out
       | inr result' => inv s' result' ∧ w_ErrorCode result' = w_ErrorCode result ∧ length (w_Outputs result') = S index ∧
                        st_deferred s' = CompleteCache i (Assignment.ro_Name output) true :: rest
       end) s.
Proof.
  intros Hi Hd Hout Hlen Hdig Hid Hkind. unfold commit_output. pose proof (kept_refl s) as Hk. apply (inv_phase _ _ PhaseExporting (w_ErrorCode result)) in Hi.
  quietly Hi Hk. apply wp_bind, wp_call. set (artifact := {| xa_OrganizationID := _ |}).
  assert (inv (record (Committed artifact) s0).1 (with_phase result PhaseExporting (w_ErrorCode result))) as Hi2.
  { eapply inv_record; [done|done|done|]. rewrite (proj1 Hk), Hd. cbn. by rewrite String.eqb_refl. }
  clear Hi. rename Hi2 into Hi. assert (kept s (record (Committed artifact) s0).1) as Hk' by exact Hk. clear Hk. rename Hk' into Hk. generalize dependent (record (Committed artifact) s0).1.
  intros s1 Hi Hk. clearbody artifact. destruct (oe_commit _ _) as [committed commitErr] eqn:Hc. destruct (_ || _) eqn:Hbad.
  - quietly Hi Hk. quietly Hi Hk. quietly Hi Hk. apply wp_ret. split; [apply Hk|]. apply ended_stop; [done|apply failed_context|].
    destruct commitErr as [code|]; [|done]. by destruct (String.eqb_spec code "").
  - quietly Hi Hk. apply wp_bind, wp_modify, wp_ret. rewrite (proj1 Hk), Hd. split; [apply Hk|]. split_and!; [|done| |done].
    + eapply (inv_output _ _ index); [done|by rewrite (proj1 Hk)|done|done|].
      apply orb_false_iff in Hbad as [Hbad Hchain]. repeat (apply orb_false_iff in Hbad as [Hbad ?]). bsimpl.
      constructor; cbn; try done.
      * intros Hoci. unfold identify in Hid. rewrite Hoci in *. exists oci. split_and!; try done. destruct (String.eqb_spec (ca_ManifestDigest committed) ""); [done|]. cbn.
        naive_solver.
      * intros Hst. unfold identify in Hid. rewrite Hst in Hid. cbn in Hid. by simplify_eq.
      * exists committed. done.
    + cbn. rewrite length_app. simpl. lia.
Qed.

(** The secrets are copied: caches may be acquired. *)
Definition armed (s : State) : Prop :=
  st_secrets s = q_Secrets request ∧ match st_deferred s with WipeSecrets :: _ | CompleteCache _ _ _ :: _ => True | _ => False end.

Lemma inv_acquire s result index name : inv s result → armed s → inv (defer (CompleteCache index name false) (record (CacheAcquired name) s).1).1 result.
Proof.
  intros Hi [_ Harm]. eapply (inv_step s); cbn; try done.
  - destruct (st_deferred s) as [|[| |] ?]; done.
  - intros k n Hin. by apply elem_of_cons in Hin as [?|Hin].
  - destruct (iv_secrets _ _ Hi); [by left|right]. by right.
Qed.

Definition continued (s' : State) (index : nat) (r : outcome + WorkerResult) : Prop :=
  match r with
  | inl out => ended s' out
  | inr result' => inv s' result' ∧ armed s' ∧ w_ErrorCode result' = "" ∧ length (w_Outputs result') = S index
  end.

Lemma run_output_spec directory index output result s :
  inv s result → armed s → outputs !! index = Some output → length (w_Outputs result) = index → w_ErrorCode result = "" →
  wp (run_output env request directory index output result) (fun r s' => continued s' index r) s.
Proof.
  intros Hi Harm Hout Hlen Hcode. unfold run_output. pose proof (kept_refl s) as Hk. quietly Hi Hk.
  assert (armed s0) as Harm0 by (unfold armed; by rewrite (proj1 Hk), (proj2 Hk)). clear Harm Hk. pose proof (kept_refl s0) as Hk.
  destruct a as [e|].
  { quietly Hi Hk. quietly Hi Hk. apply wp_ret. destruct (is_quota a); apply ended_stop; try done; [by left|by right]. }
  destruct (negb (bool_decide _)); [apply wp_ret; apply ended_stop; [done|by left|done]|].
  destruct (negb (oe_mkdir _)); [apply wp_ret; apply ended_stop; [done|by left|done]|].
  destruct (buildExportEntry _ _) as [exporter|] eqn:Hexp; [|apply wp_ret; apply ended_stop; [done|by left|done]].
  destruct (negb (oe_acquire _)); [apply wp_ret; apply ended_stop; [done|by left|done]|].
  apply wp_bind, wp_call. apply wp_bind. unfold defer at 1. apply wp_modify.
  pose proof (inv_acquire s0 result index (Assignment.ro_Name output) Hi Harm0) as Hi1. set (s1 := (defer _ _).1) in Hi1.
  change (set_deferred _ _) with s1. assert (st_deferred s1 = CompleteCache index (Assignment.ro_Name output) false :: st_deferred s0) as Hd by done.
  assert (st_secrets s1 = q_Secrets request) as Hsec by apply Harm0. clearbody s1. clear Hi Hk. rename Hi1 into Hi.
  apply wp_bind. eapply wp_then; [|eapply solve_spec; [done|done|done|by eapply list_elem_of_lookup_2]].
  intros s2 [out|[result2 response]] [Hk Hpost]; [by apply wp_ret|]. destruct Hpost as (Hi2 & Hc2 & Ho2). clear Hi.
  destruct (exportedArtifactDigest _ _) as [[digest size]|] eqn:Hdig.
  2:{ quietly Hi2 Hk. apply wp_ret, ended_stop; [done|by left|done]. }
  destruct (identify env index output) as [oci|] eqn:Hid.
  2:{ quietly Hi2 Hk. apply wp_ret, ended_stop; [done|by left|done]. }
  eapply wp_then; [|eapply commit_spec; [done|by rewrite (proj1 Hk), Hd|done|by rewrite Ho2|done|done|]].
  - intros s3 [out|result3] [Hs3 Hpost]; [done|]. destruct Hpost as (Hi3 & Hc3 & Hl3 & Hd3). split; [done|]. split.
    + split; [by rewrite Hs3, (proj2 Hk)|by rewrite Hd3].
    + split; [by rewrite Hc3, Hc2|done].
  - unfold buildExportEntry in Hexp. destruct (String.eqb_spec (Assignment.ro_Kind output) "static_bundle"); [by left|].
    destruct (String.eqb_spec (Assignment.ro_Kind output) "oci_image"); [by right|done].
Qed.

Lemma run_outputs_spec directory done_ rest result s :
  outputs = done_ ++ rest → inv s result → armed s → length (w_Outputs result) = length done_ → w_ErrorCode result = "" →
  wp (run_outputs env request directory (length done_) rest result) (fun out s' => ended s' out) s.
Proof.
  revert done_ result s. induction rest as [|output rest IH]; intros seen result s Hsplit Hi Harm Hlen Hcode; cbn [run_outputs].
  - pose proof (kept_refl s) as Hk. quietly Hi Hk. destruct (is_quota a).
    + quietly Hi Hk. apply wp_ret, ended_stop; [done|by left|done].
    + apply wp_ret. split; [done|]. split; [done|]. cbn [fst]. by rewrite Hsplit, app_nil_r.
  - apply wp_bind. eapply wp_then; [|eapply run_output_spec; [done|done| |done|done]].
    2:{ rewrite Hsplit. by rewrite list_lookup_middle. }
    intros s1 [out|result1] Hpost; [by apply wp_ret|]. destruct Hpost as (Hi1 & Harm1 & Hc1 & Hl1).
    replace (S (length seen)) with (length (seen ++ [output])) by (rewrite length_app; simpl; lia).
    apply IH; try done; [by rewrite <- app_assoc|]. rewrite length_app. simpl. lia.
Qed.

(** The result [Execute] starts from. *)
Definition begun (result : WorkerResult) : Prop :=
  w_BuildID result = Assignment.p_BuildID payload ∧ w_Attempt result = q_Attempt request ∧ w_Outputs result = [] ∧ w_ErrorCode result = "".

Lemma inv_begin directory s result : begun result → st_trace s = [] → st_deferred s = [] → st_secrets s = ∅ → log_ok (q_Attempt request) (st_log s) →
  inv (record (Prepared directory) s).1 result.
Proof.
  intros (Hb & Ha & Ho & _) Ht Hd Hs Hl. constructor; cbn; rewrite ?Ht, ?Hd, ?Hs, ?Ho; try done; try set_solver.
  apply Forall_singleton. exact I.
Qed.

Lemma execute_body_spec executor result s :
  begun result → st_trace s = [] → st_deferred s = [] → st_secrets s = ∅ → log_ok (q_Attempt request) (st_log s) →
  wp (execute_body env executor request result) (fun out s' => ended s' out) s.
Proof.
  intros Hb Ht Hd Hs Hl. unfold execute_body. apply wp_bind, wp_call. set (directory := OCIArtifact.join_path _ _).
  pose proof (inv_begin directory s result Hb Ht Hd Hs Hl) as Hi. set (s1 := (record (Prepared directory) s).1) in *.
  assert (st_deferred s1 = [] ∧ st_secrets s1 = ∅) as [Hd1 Hs1] by done. clearbody s1. clear Ht Hd Hs Hl.
  destruct (negb (e_fresh env)); [apply wp_ret, ended_stop; [done|by left|done]|].
  apply wp_bind, wp_call. apply wp_bind, wp_modify. apply wp_bind. unfold defer. apply wp_modify. set (s2 := set_deferred _ _).
  assert (inv s2 result) as Hi2.
  { eapply (inv_step s1 _ _ (MonitorStarted _)); cbn; rewrite ?Hd1; try done; [|by left]. intros i name Hin. by apply list_elem_of_singleton in Hin. }
  assert (st_deferred s2 = [StopMonitor] ∧ st_secrets s2 = ∅) as [Hd2 Hs2] by (subst s2; cbn; by rewrite Hd1).
  clearbody s2. clear Hi Hd1 Hs1. apply wp_bind, wp_call. set (s3 := (record _ s2).1).
  assert (inv s3 result) as Hi by (by eapply inv_record; rewrite ?Hd2). assert (st_deferred s3 = [StopMonitor] ∧ st_secrets s3 = ∅) as [Hd3 Hs3] by done.
  clearbody s3. clear Hi2 Hd2 Hs2. pose proof (kept_refl s3) as Hk. destruct (negb (e_materialized env)).
  { quietly Hi Hk. quietly Hi Hk. quietly Hi Hk. quietly Hi Hk. quietly Hi Hk. apply wp_ret, ended_stop; [done|..].
    - destruct (is_quota _); [by left|apply failed_context].
    - destruct (is_quota _); [done|]. by destruct (String.eqb _ _). }
  destruct (negb (e_localFS env)); [apply wp_ret, ended_stop; [done|by left|done]|]. clear Hk.
  apply wp_bind, wp_modify. apply wp_bind, wp_call. apply wp_bind, wp_modify. set (s4 := set_deferred _ _).
  assert (inv s4 result) as Hi4.
  { eapply (inv_step s3 _ _ SecretsCopied); cbn; rewrite ?Hd3; try done; [|right; left]. intros i name Hin. by apply elem_of_cons in Hin as [?|Hin]. }
  assert (armed s4) as Harm by done. clearbody s4. clear Hi Hd3 Hs3. pose proof (kept_refl s4) as Hk. rename Hi4 into Hi. quietly Hi Hk.
  destruct Hb as (_ & _ & Ho & Hc). apply (run_outputs_spec _ []); try done; [by apply inv_phase|unfold armed; by rewrite (proj1 Hk), (proj2 Hk)|cbn; by rewrite Ho].
Qed.

(** One deferred call, which is off the stack when it runs. *)
Lemma inv_pop call rest s s' result a :
  inv (set_deferred (call :: rest) s) result → st_trace s' = st_trace s ++ [a] → st_log s' = st_log s → solved_ok a →
  (∀ name, a = CacheCompleted name true → ∃ i, call = CompleteCache i name true) →
  advance (Running (owes call :: (owes <$> rest))) a = Some (Running (owes <$> rest)) →
  (st_secrets s' = ∅ ∨ st_secrets s' = st_secrets s ∧ call ≠ WipeSecrets) → inv (set_deferred rest s') result.
Proof.
  intros [Hs Hsu Hco Hse Hso Hl Hb Ha Ho] Ht Hlog Hok Hcall Hadv Hsec. constructor; cbn in *; rewrite ?Ht, ?Hlog; try done.
  - by eapply session_run_snoc.
  - intros i name Hin. eapply Hsu. by right.
  - intros name Hin. apply elem_of_app in Hin as [?|Hin]; [auto|]. apply list_elem_of_singleton in Hin. symmetry in Hin.
    destruct (Hcall name Hin) as [i ->]. eapply Hsu. left.
  - destruct Hsec as [?|[-> Hne]]; [by left|]. destruct Hse as [?|Hin]; [by left|]. apply elem_of_cons in Hin as [?|?]; [done|by right].
  - apply Forall_app. auto.
Qed.

Lemma ended_error s out : ended s out → out.2 ≠ None → ∃ e, out.2 = Some e ∧ failed (w_Phase out.1) ∧ w_ErrorCode out.1 ≠ "".
Proof. intros [_ He] Hne. destruct out as [r [e|]]; [by exists e|done]. Qed.

Lemma run_deferred_spec calls out s :
  ended (set_deferred calls s) out →
  wp (run_deferred env (q_Attempt request) calls out) (fun out' s' => ended (set_deferred [] s') out') s.
Proof.
  revert out s. induction calls as [|call rest IH]; intros out s He; [by apply wp_ret|]. destruct He as [Hi He].
  destruct call as [index name succeeded| |]; cbn [run_deferred]; apply wp_bind.
  - apply wp_call, IH.
    assert (inv (set_deferred rest (record (CacheCompleted name succeeded) s).1) out.1) as Hi'.
    { eapply inv_pop; [exact Hi|done|done|done| |cbn; by rewrite String.eqb_refl|by right]. intros n [= -> ->]. by eexists. }
    destruct (oe_complete _ _); [split; done|]. apply ended_stop; [done|by left|done].
  - apply wp_modify, wp_bind, wp_call, IH. split; [|done].
    eapply inv_pop; [exact Hi|done|done|done|done|done|by left].
  - apply wp_call. apply wp_bind. eapply (wp_silent (q_Attempt request)); [auto with silent|]. intros s1 _ Hq. apply wp_bind, wp_modify, IH. split; [|done].
    assert (inv (set_deferred rest (record MonitorStopped s).1) out.1) as Hi' by (eapply inv_pop; [exact Hi|done|done|done|done|by destruct rest|by right]).
    destruct Hi' as [H1' H2' H3' H4' H5' H6' H7' H8' H9'], Hq as [Ht Hd Hs _ Hl]. constructor; cbn in *; rewrite ?Ht, ?Hd, ?Hs; auto.
Qed.

(** What holds when [Execute] returns after its checks. *)
Record concluded (s : State) (out : outcome) : Prop := {
  cn_session : session_run Fresh (st_trace s) = Some Closed;
  cn_secrets : st_secrets s = ∅;
  cn_patterns : Redactor.rd_patterns (st_redactor s) = [];
  cn_completed : ∀ name, CacheCompleted name true ∈ st_trace s → name ∈ o_Name <$> w_Outputs out.1;
  cn_solved : Forall solved_ok (st_trace s);
  cn_log : log_ok (q_Attempt request) (st_log s);
  cn_build : w_BuildID out.1 = Assignment.p_BuildID payload;
  cn_attempt : w_Attempt out.1 = q_Attempt request;
  cn_outputs : ∀ i o, w_Outputs out.1 !! i = Some o → ∃ output, outputs !! i = Some output ∧ delivered i output o;
  cn_cleanup : w_Cleanup out.1 = e_cleanup env (Assignment.p_BuildID payload);
  cn_outcome :
    match out.2 with
    | None => w_Phase out.1 = PhaseComplete ∧ w_ErrorCode out.1 = "" ∧ length (w_Outputs out.1) = length outputs ∧
        cl_Status (w_Cleanup out.1) = CleanupClean ∧ lg_err (st_log s) = false ∧ w_LogsDigest out.1 = bytesDigest (lg_transcript (st_log s))
    | Some _ => failed (w_Phase out.1) ∧ w_ErrorCode out.1 ≠ ""
    end;
}.

Lemma quiet_deferred calls s s' : quiet (q_Attempt request) s s' → quiet (q_Attempt request) (set_deferred calls s) (set_deferred calls s').
Proof. by intros []. Qed.

(** Step over a call that only logs and reads, keeping [Hi : inv (set_deferred [] s) _]. *)
#[local] Ltac quietly_done Hi :=
  let s' := fresh "s" in let Hq := fresh "Hq" in
  apply wp_bind; eapply (wp_silent (q_Attempt request)); [solve [auto with silent]|]; intros s' ? Hq;
  apply (quiet_deferred []), (inv_quiet _ _ _ Hi) in Hq as ?Hi'; clear Hi; rename Hi' into Hi; clear Hq.

(** The cleanup and the redactor's close, once the state is [s] and the result [out]. *)
Lemma conclude s0 s out :
  session_run Fresh (st_trace s0) = Some (Running []) → Forall solved_ok (st_trace s0) → (∀ name, CacheCompleted name true ∈ st_trace s0 → name ∈ o_Name <$> w_Outputs out.1) →
  st_trace s = st_trace s0 ++ [CleanedUp (Assignment.p_BuildID payload)] → st_secrets s = ∅ → log_ok (q_Attempt request) (st_log s) →
  w_BuildID out.1 = Assignment.p_BuildID payload → w_Attempt out.1 = q_Attempt request →
  (∀ i o, w_Outputs out.1 !! i = Some o → ∃ output, outputs !! i = Some output ∧ delivered i output o) →
  w_Cleanup out.1 = e_cleanup env (Assignment.p_BuildID payload) →
  match out.2 with
  | None => w_Phase out.1 = PhaseComplete ∧ w_ErrorCode out.1 = "" ∧ length (w_Outputs out.1) = length outputs ∧
      cl_Status (w_Cleanup out.1) = CleanupClean ∧ lg_err (st_log s) = false ∧ w_LogsDigest out.1 = bytesDigest (lg_transcript (st_log s))
  | Some _ => failed (w_Phase out.1) ∧ w_ErrorCode out.1 ≠ ""
  end →
  wp (close_redactor ≫= fun _ => mret out) (fun out s' => concluded s' out) s.
Proof.
  intros Hs Hso Hco Ht Hse Hl Hb Ha Ho Hcl Hout. unfold close_redactor. apply wp_bind, wp_bind, wp_call, wp_modify, wp_ret.
  constructor; cbn; rewrite ?Ht; try done.
  - eapply session_run_snoc; [by eapply session_run_snoc|done].
  - intros name Hin. rewrite <- app_assoc in Hin. apply elem_of_app in Hin as [?|Hin]; [auto|]. set_solver.
  - rewrite <- app_assoc. apply Forall_app. split; [done|]. by repeat constructor.
Qed.

Lemma clean_up_spec out s :
  ended (set_deferred [] s) out →
  wp (clean_up env request out ≫= fun out => close_redactor ≫= fun _ => mret out) (fun out s' => concluded s' out) s.
Proof.
  destruct out as [result resultErr]. intros [Hi He]. apply wp_bind. unfold clean_up. cbn [fst snd] in Hi, He.
  quietly_done Hi. destruct Hi as [Hs Hsu Hco Hse Hso Hl Hb Ha Ho]. cbn [set_deferred st_trace st_deferred st_secrets st_log fmap list_fmap] in Hs, Hco, Hse, Hso, Hl.
  assert (st_secrets s0 = ∅) as Hse' by (by destruct Hse as [?|?%not_elem_of_nil]). clear Hse Hsu.
  apply wp_bind, wp_call. set (s1 := (record (CleanedUp _) s0).1). set (cleanup := e_cleanup _ _).
  assert (∀ s2 out, quiet (q_Attempt request) s1 s2 → w_BuildID out.1 = w_BuildID result → w_Attempt out.1 = w_Attempt result → w_Outputs out.1 = w_Outputs result →
    w_Cleanup out.1 = cleanup → match out.2 with
    | None => w_Phase out.1 = PhaseComplete ∧ w_ErrorCode out.1 = "" ∧ length (w_Outputs out.1) = length outputs ∧
        cl_Status (w_Cleanup out.1) = CleanupClean ∧ lg_err (st_log s2) = false ∧ w_LogsDigest out.1 = bytesDigest (lg_transcript (st_log s2))
    | Some _ => failed (w_Phase out.1) ∧ w_ErrorCode out.1 ≠ "" end →
    wp (close_redactor ≫= fun _ => mret out) (fun out s' => concluded s' out) s2) as Hend.
  { intros s2 out [Ht _ Hsec _ Hlog] E1 E2 E3 E4 Hout. apply (conclude s0); rewrite ?E1, ?E2, ?E3, ?E4; try done; [by rewrite Hsec|auto|]. by rewrite ?E3, ?E4 in Hout. }
  clearbody s1. apply wp_bind. eapply (wp_silent (q_Attempt request)); [auto with silent|]. intros s2 finishedAt Q2. destruct (String.eqb_spec (cl_Status cleanup) CleanupClean) as [Hclean|Hdirty]; cbn [negb].
  - apply wp_bind. eapply (wp_silent (q_Attempt request)); [auto with silent|]. intros s3 _ Q3.
    apply wp_bind. eapply (wp_silent (q_Attempt request)); [destruct resultErr; auto with silent|]. intros s4 _ Q4.
    assert (quiet (q_Attempt request) s1 s4) as Q by (etransitivity; [exact Q2|]; by etransitivity).
    apply wp_bind, wp_get. destruct resultErr as [e|].
    + apply wp_ret, Hend; try done.
    + destruct (lg_err (st_log s4)) eqn:Herr; apply wp_ret, Hend; try done; [split; [by left|done]|]. cbn. destruct He as [-> ->]. done.
  - apply wp_bind. eapply (wp_silent (q_Attempt request)); [auto with silent|]. intros s3 _ Q3. apply wp_ret, Hend; try done; [by etransitivity|].
    cbn. assert (failed PhaseFailed ∧ (if String.eqb (w_ErrorCode result) "" then "cleanup_failed" else w_ErrorCode result) ≠ "") as Hf.
    { split; [by left|]. by destruct (String.eqb_spec (w_ErrorCode result) ""). }
    by destruct resultErr.
Qed.

Context (unicode_Quote : string → string) (arrange : list string → list string) (maxSecretSize : Z) (executor : BuildKitExecutor).

#[local] Abbreviation run := (Execute unicode_Quote arrange maxSecretSize env executor request start).

Lemma start_log : log_ok (q_Attempt request) (st_log start).
Proof. constructor; [done|done|]. intros _. by exists []. Qed.

(** [Execute] refuses the request without touching anything, or concludes. *)
(** A request without an attempt or a sink for its events. *)
Definition unaddressed : bool := (q_Attempt request =? 0) || negb (q_Events request).

(** An execution that ended before it called anybody: the phase is left unset only for
    an unaddressed request with a valid assignment. *)
Definition refused (s : State) (out : outcome) : Prop :=
  st_trace s = [] ∧ log_ok (q_Attempt request) (st_log s) ∧ (∃ e, out.2 = Some e) ∧
  if negb (is_err (Assignment.Validate (q_Assignment request))) && unaddressed
  then w_Phase out.1 = PhaseMaterializing ∧ w_ErrorCode out.1 = ""
  else w_Phase out.1 = PhaseFailed ∧ w_ErrorCode out.1 ≠ "".

Lemma Execute_cases :
  refused run.1 run.2 ∨
  (Assignment.Validate (q_Assignment request) = Ok tt ∧ unaddressed = false ∧
   validateSecrets maxSecretSize (dl_Secrets (Assignment.p_Lock payload)) (q_Secrets request) = true ∧ concluded run.1 run.2).
Proof.
  change (wp (Execute unicode_Quote arrange maxSecretSize env executor request) (fun out s =>
    refused s out ∨
    (Assignment.Validate (q_Assignment request) = Ok tt ∧ unaddressed = false ∧
     validateSecrets maxSecretSize (dl_Secrets (Assignment.p_Lock payload)) (q_Secrets request) = true ∧ concluded s out)) start).
  unfold Execute. apply wp_bind. eapply (wp_silent (q_Attempt request)); [auto with silent|]. intros s startedAt Q. assert (st_trace s = []) as Ht by apply Q.
  assert (log_ok (q_Attempt request) (st_log s)) as Hl by apply Q, start_log. unfold refused. fold unaddressed.
  destruct (is_err _) eqn:Hv; cbn [negb andb]; [apply wp_ret; left; split_and!; eauto; done|]. apply is_err_false in Hv as [[] Hv].
  destruct unaddressed eqn:Ha; [apply wp_ret; left; split_and!; eauto; done|].
  destruct (validateSecrets _ _ _) eqn:Hsec; cbn [negb andb]; [|apply wp_ret; left; split_and!; eauto; done].
  unfold execute_checked. apply wp_bind, wp_modify. set (s1 := set_redactor _ _).
  apply wp_bind. eapply (wp_silent (q_Attempt request)); [auto with silent|]. intros s2 _ Q2.
  assert (st_trace s2 = [] ∧ st_deferred s2 = [] ∧ st_secrets s2 = ∅) as (Ht2 & Hd2 & Hs2).
  { destruct Q as [_ ? ? _ _], Q2 as [? ? ? _ _]. cbn in *. split_and!; congruence. }
  assert (log_ok (q_Attempt request) (st_log s2)) as Hl2 by (apply Q2, Q, start_log).
  apply wp_bind. eapply wp_then; [|apply execute_body_spec; try done]. intros s3 out He. apply wp_bind. unfold state, wp at 1. cbn [fst snd].
  apply wp_bind. eapply wp_then; [|apply run_deferred_spec; destruct s3; exact He]. intros s4 out' He'. eapply wp_then; [|by apply clean_up_spec].
  intros s5 out'' Hc. right. done.
Qed.

(** ** Counting caches *)

Definition acquires (name : string) (a : action) : bool := match a with CacheAcquired output => String.eqb output name | _ => false end.
Definition completes (name : string) (a : action) : bool := match a with CacheCompleted output _ => String.eqb output name | _ => false end.
Definition owes_cache (name : string) (p : pending) : bool := match p with PCache output => String.eqb output name | _ => false end.
Definition owed_caches (name : string) (st : session) : nat := match st with Running owed => length (List.filter (owes_cache name) owed) | _ => 0 end.

Lemma session_caches name st trace st' : session_run st trace = Some st' →
  (owed_caches name st + count (acquires name) trace = owed_caches name st' + count (completes name) trace)%nat.
Proof.
  revert st. induction trace as [|a trace IH]; intros st; simpl; [intros [= ->]; unfold count; simpl; lia|]. destruct (advance st a) as [st1|] eqn:Hadv; [|done]. intros Hr. specialize (IH st1 Hr).
  assert (owed_caches name st + (if acquires name a then 1 else 0) = owed_caches name st1 + (if completes name a then 1 else 0))%nat as Hone.
  { clear -Hadv. destruct st as [|[|[] [|? ?]]| |], a; simpl in *; unfold keep in *; repeat case_match; simplify_eq; bsimpl; simpl in *; repeat case_match; simpl in *; bsimpl; simplify_eq; lia. }
  rewrite !count_cons. lia.
Qed.

(** ** Theorems *)

(** C16: An execution gives back what it takes.  Whatever the clock, the contexts, the
    scratch monitor, BuildKit, the caches, the committer and the cleaner do, [Execute]
    refuses the request and calls nobody, or its calls follow the protocol to its
    end: the scratch monitor, the copied secrets and the cache leases are released in
    the reverse order of their acquisition, every cache lease once, and successfully
    only for a delivered output; then the worker is cleaned, once, and the redactor is
    closed; no secret and no pattern is left. *)
Theorem execution_settled :
  let '(s, (result, err)) := run in
  (st_trace s = [] ∧ err ≠ None) ∨
  (session_run Fresh (st_trace s) = Some Closed ∧ (∀ name, count (acquires name) (st_trace s) = count (completes name) (st_trace s)) ∧
   (∀ name, CacheCompleted name true ∈ st_trace s → name ∈ o_Name <$> w_Outputs result) ∧
   st_secrets s = ∅ ∧ Redactor.rd_patterns (st_redactor s) = []).
Proof.
  destruct run as [s [result err]] eqn:E. pose proof Execute_cases as Hcases. rewrite E in Hcases. destruct Hcases as [(Ht & _ & [e He] & _)|(_ & _ & _ & Hc)].
  - left. split; [done|]. by simplify_eq/=.
  - right. destruct Hc as [Hs Hsec Hpat Hco]. split_and!; try done. intros name. by apply (session_caches name) in Hs.
Qed.

Lemma validateSecrets_scoped values key value : validateSecrets maxSecretSize (dl_Secrets (Assignment.p_Lock payload)) values = true → values !! key = Some value →
  value ≠ "" ∧ len value ≤ maxSecretSize ∧ ∃ c, c ∈ dl_Secrets (Assignment.p_Lock payload) ∧ se_MountID c = key.
Proof.
  unfold validateSecrets. rewrite andb_true_iff. intros [Hv _] Hk. rewrite map_forallb_true in Hv. specialize (Hv key value Hk). cbv beta in Hv.
  rewrite !andb_true_iff, bool_decide_eq_true in Hv. destruct Hv as [[[required Hv] Hlen] Hmax]. bsimpl. split; [by intros ->|]. split; [lia|].
  by eapply allowed_secrets_from.
Qed.

Lemma resolved_intact resolved : Assignment.Validate resolved = Ok tt →
  Forall2 Assignment.output_intact (Assignment.p_Outputs (Assignment.va_Payload (Assignment.ra_Verified resolved))) (Assignment.ra_Outputs resolved) ∧
  LLBAudit.AuditDefinitions (Assignment.ro_Definition <$> Assignment.ra_Outputs resolved) (Assignment.p_Lock (Assignment.va_Payload (Assignment.ra_Verified resolved))) = Ok tt.
Proof.
  unfold Assignment.Validate. intros Hv. passed Hv E1. apply bind_result_Ok in Hv as ([] & _ & Hv). passed Hv E2. apply bind_result_Ok in Hv as ([] & Hc & Hv).
  split; [|by destruct (LLBAudit.AuditDefinitions _ _) as [[]|]]. apply negb_false_iff, Nat.eqb_eq in E2. revert E2 Hc. clear. generalize (Assignment.ra_Outputs resolved).
  generalize (Assignment.p_Outputs (Assignment.va_Payload (Assignment.ra_Verified resolved))). clear resolved.
  induction l as [|e expected IH]; intros [|o outs] Hlen Hc; try done. cbn [Assignment.check_resolved] in Hc. passed Hc E.
  apply bind_result_Ok in Hc as ([] & Hv & Hc). injection Hlen as Hlen. constructor; [|by apply IH]. bsimpl. done.
Qed.

(** C17: What BuildKit solves was signed, audited and given only its secrets.  Every
    definition sent to BuildKit has a digest the assignment signs, and each of its
    operations is granted by the signed lock; every secret sent along is nonempty,
    within BuildKit's limit, and of a secret capability of the lock. *)
Theorem solves_signed_definitions solved :
  Solved solved ∈ st_trace run.1 →
  let lock := Assignment.p_Lock payload in
  (∃ signed, signed ∈ Assignment.p_Outputs payload ∧ bytesDigest (sr_Definition solved) = Assignment.oa_LLBDigest signed) ∧
  (∀ operation md, LLBAudit.vertex (sr_Definition solved) operation md → LLBAudit.granted lock operation md) ∧
  (∀ key value, sr_Secrets solved !! key = Some value → value ≠ "" ∧ len value ≤ maxSecretSize ∧ ∃ c, c ∈ dl_Secrets lock ∧ se_MountID c = key).
Proof.
  intros Hin. destruct Execute_cases as [[Ht _]|(Hv & _ & Hsec & Hc)]; [rewrite Ht in Hin; by apply not_elem_of_nil in Hin|].
  pose proof (cn_solved _ _ Hc) as Hall. rewrite Forall_forall in Hall. destruct (Hall _ Hin) as (output & Hout & Hdef & Hs).
  apply resolved_intact in Hv as [Hintact Haudit]. split_and!.
  - apply list_elem_of_lookup in Hout as [i Hi]. destruct (Forall2_lookup_r _ _ _ _ _ Hintact Hi) as (signed & Hsig & (_ & _ & Hd & _)).
    exists signed. split; [by eapply list_elem_of_lookup_2|]. by rewrite Hdef.
  - intros operation md Hvx. apply LLBAudit.AuditDefinitions_within in Haudit. eapply (LLBAudit.wl_granted _ _ Haudit); [|exact Hvx]. rewrite Hdef. by apply list_elem_of_fmap_2.
  - intros key value. rewrite Hs. by apply validateSecrets_scoped.
Qed.

(** C18: The error, the phase and the events agree.  [Execute] returns no error exactly
    when its phase is complete; then every output was delivered, the cleaner reported
    a clean worker, there is no error code and the logs digest covers every event.
    With an error the phase is failed or canceled and there is an error code, except
    for a request with a valid assignment and no attempt or no sink: its result is
    still materializing, without a code, and nobody was called.  The events carry the
    attempt and are numbered from 1. *)
Theorem execution_outcome :
  let '(s, (result, err)) := run in
  (err = None ↔ w_Phase result = PhaseComplete) ∧
  (err = None → w_ErrorCode result = "" ∧ cl_Status (w_Cleanup result) = CleanupClean ∧ length (w_Outputs result) = length outputs ∧
     (∀ i o, w_Outputs result !! i = Some o → ∃ output, outputs !! i = Some output ∧ delivered i output o) ∧
     ∃ encs, Forall2 (fun event enc => marshal event = Some enc) (lg_events (st_log s)) encs ∧ w_LogsDigest result = bytesDigest (frames encs)) ∧
  (if negb (is_err (Assignment.Validate (q_Assignment request))) && ((q_Attempt request =? 0) || negb (q_Events request))
   then err ≠ None ∧ w_Phase result = PhaseMaterializing ∧ w_ErrorCode result = "" ∧ st_trace s = []
   else err ≠ None → (w_Phase result = PhaseFailed ∨ w_Phase result = PhaseCanceled) ∧ w_ErrorCode result ≠ "") ∧
  (∀ i e, lg_events (st_log s) !! i = Some e → evt_Sequence e = u64 (Z.of_nat i + 1) ∧ evt_Attempt e = q_Attempt request).
Proof.
  destruct run as [s [result err]] eqn:E. pose proof Execute_cases as Hcases. rewrite E in Hcases. fold unaddressed.
  destruct Hcases as [(Ht & Hl & [e He] & Hp)|(-> & -> & _ & Hc)]; cbn [fst snd] in *.
  - rewrite He. destruct (_ && _); destruct Hp as [Hp Hcode]; rewrite Hp; (split_and!; try apply Hl; done || auto).
  - pose proof (cn_outcome _ _ Hc) as Hout. pose proof (cn_log _ _ Hc) as Hlog. pose proof (cn_outputs _ _ Hc) as Ho. cbn [fst snd is_err negb andb] in *. destruct err as [e|].
    + destruct Hout as [Hf Hcode]. split_and!; [split; [done|]|done|done|apply Hlog]. intros Hp. rewrite Hp in Hf. by destruct Hf.
    + destruct Hout as (Hp & Hcode & Hlen & Hclean & Herr & Hlogs). split_and!; [done| |done|apply Hlog].
      intros _. split_and!; try done. destruct (lo_transcript _ _ Hlog Herr) as (encs & Hf & Htr). exists encs. by rewrite Hlogs, Htr.
Qed.

(** What the committer must add for an output to be published: a bundle has a
    manifest in the object store, an image none. *)
Definition published (o : OutputResult) : bool :=
  (0 <? o_ArtifactSize o) &&
  (if String.eqb (o_Kind o) "static_bundle" then is_digest (o_ManifestDigest o) && HasPrefix (o_PublicationManifestRef o) "s3://"
   else String.eqb (o_PublicationManifestRef o) "").

Lemma committed_chain o committed policyDigest policy :
  ca_Reference committed = o_ArtifactRef o → ca_SupplyChain committed = o_SupplyChain o → validCommittedSupplyChain committed policyDigest policy = true →
  is_digest policyDigest = true → SignerKeyID policy ≠ "" → Controller.validSupplyChainIdentity o policyDigest policy = true.
Proof.
  intros Href Hsc Hv Hpd Hsig. unfold validCommittedSupplyChain in Hv. rewrite Href, Hsc in Hv. destruct (_ || _) eqn:Hbad; [done|]. bsimpl.
  unfold Controller.validSupplyChainIdentity, RunStore.validStoredSupplyChainIdentity.
  repeat match goal with E : _ = _ |- _ => rewrite E in * end. rewrite !String.eqb_refl.
  assert ((SignerKeyID policy =? "")%string = false) as -> by (by apply String.eqb_neq).
  assert ((sc_SignerKeyVersion (o_SupplyChain o) <? 1) = false) as -> by lia. assert ((1 <=? sc_SignerKeyVersion (o_SupplyChain o)) = true) as -> by lia.
  cbn. by apply slices_Contains_true.
Qed.

Lemma exported_digest path kind digest size : exportedArtifactDigest path kind = Ok (digest, size) → is_digest digest = true.
Proof.
  unfold exportedArtifactDigest. destruct (String.eqb _ _).
  - unfold fileDigest. intros He. repeat (case_match; simplify_eq/=); apply bytesDigest_is_digest.
  - intros (walk & hashed & _ & _ & -> & _)%directoryDigest_Ok. apply bytesDigest_is_digest.
Qed.

(** One output as the controller checks it. *)
Lemma delivered_checked index output signed o :
  delivered index output o → Assignment.output_intact signed output → is_digest (dl_PolicyDigest (Assignment.p_Lock payload)) = true →
  SignerKeyID (dl_SupplyChain (Assignment.p_Lock payload)) ≠ "" →
  String.eqb (o_Name o) (Assignment.ro_Name output) && String.eqb (o_Kind o) (Assignment.ro_Kind output) &&
  negb (String.eqb (o_ArtifactRef o) "") && is_digest (o_ArtifactDigest o) && (0 <? o_ArtifactSize o) &&
  String.eqb (o_ConfigDigest o) (Assignment.oa_ConfigDigest signed) && RunStore.validOutputContentIdentity o &&
  Controller.validSupplyChainIdentity o (dl_PolicyDigest (Assignment.p_Lock payload)) (dl_SupplyChain (Assignment.p_Lock payload)) = published o.
Proof.
  intros [Hn Hk Href Hart Hcfg Hknown Himg Hbun (committed & E1 & E2 & Hchain)] (_ & _ & _ & Hc & _) Hpd Hsig.
  rewrite (committed_chain o committed) by done. rewrite Hn, Hk, Hcfg, Hc, !String.eqb_refl. apply exported_digest in Hart as ->.
  assert (String.eqb (o_ArtifactRef o) "" = false) as -> by (by apply String.eqb_neq). cbn [negb andb]. rewrite !andb_true_r. unfold published. rewrite Hk. f_equal.
  unfold RunStore.validOutputContentIdentity. rewrite Hk. destruct Hknown as [E|E]; rewrite E in *; cbn [String.eqb Ascii.eqb Bool.eqb negb orb andb].
  - rewrite (Hbun eq_refl). cbn. by rewrite andb_true_r.
  - destruct (Himg eq_refl) as (oci & Hoci & -> & ->). destruct (OCIArtifact.identity_digests _ _ Hoci) as (-> & Hne & Hnd & Hall). cbn.
    assert ((length (OCIArtifact.id_LayerDigests oci) =? 0)%nat = false) as -> by (by destruct (OCIArtifact.id_LayerDigests oci)).
    assert (RunStore.check_layers [] (OCIArtifact.id_LayerDigests oci) = true) as ->. { apply check_layers_true. split_and!; try done. intros ? _ ?%not_elem_of_nil. done. }
    by destruct (String.eqb _ _).
Qed.

(** C35: The controller accepts exactly the published successes.  If [Execute] returns no
    error, for an assignment whose lock was validated and a cleaner that reports on
    the build it is asked about, then the controller's [validateSuccessfulResult]
    accepts the result exactly when each of its artifacts is nonempty and published
    the way its kind is: everything else it checks is established by the worker. *)
Theorem worker_success_accepted :
  is_digest (dl_PolicyDigest (Assignment.p_Lock payload)) = true → SignerKeyID (dl_SupplyChain (Assignment.p_Lock payload)) ≠ "" →
  (∀ buildID, cl_BuildID (e_cleanup env buildID) = buildID) → run.2.2 = None →
  Controller.validateSuccessfulResult (q_Assignment request) run.2.1 = forallb published (w_Outputs run.2.1).
Proof.
  intros Hpd Hsig Hcl Herr. destruct Execute_cases as [(_ & _ & [e He] & _)|(Hv & Ha & _ & Hc)]; [congruence|].
  destruct run as [s [result err]]. cbn [fst snd] in *. subst err. destruct Hc as [_ _ _ _ _ _ Hb Hat Ho Hclean Hout]. cbn [fst snd] in *.
  destruct Hout as (_ & _ & Hlen & Hst & _ & Hlogs). apply resolved_intact in Hv as [Hintact _].
  unfold Controller.validateSuccessfulResult. rewrite Hb, Hat, Hst, Hlogs, Hlen, Hclean, Hcl, !String.eqb_refl, Nat.eqb_refl, bytesDigest_is_digest.
  assert ((q_Attempt request =? 0) = false) as -> by (by apply orb_false_iff in Ha as [Ha _]). cbn [negb andb].
  assert (∀ outs expected signed k, Forall2 Assignment.output_intact signed expected → length outs = length expected →
    (∀ i o, outs !! i = Some o → ∃ output, expected !! i = Some output ∧ delivered (k + i) output o) →
    Controller.check_successful (Assignment.p_Lock payload) outs expected signed = forallb published outs) as Hloop.
  { clear Hintact Ho Hlen. induction outs as [|o outs IH]; intros [|output expected] [|e signed] k Hf Hl Hdel; try done; [by inversion Hf|].
    apply Forall2_cons in Hf as [Hin Hf]. destruct (Hdel 0%nat o eq_refl) as (output' & [= <-] & Hd). rewrite Nat.add_0_r in Hd. cbn [Controller.check_successful forallb].
    rewrite (delivered_checked _ _ _ _ Hd Hin Hpd Hsig). f_equal. apply (IH expected signed (S k)); [done|by injection Hl|]. intros i o' Hi. destruct (Hdel (S i) o' Hi) as (output' & Ho' & Hd').
    exists output'. rewrite Nat.add_succ_r in Hd'. done. }
  apply (Hloop _ _ _ 0%nat); done.
Qed.

End Request.

End Laws.

(** The logs digest identifies the events.  Two executions that succeed with one logs
    digest delivered the same events to their sinks, in the same order, unless SHA-256
    collides on their transcripts; their environments, requests and executors may differ. *)
Theorem executions_identified `{!Codec Assignment.Payload} `{!LLBAudit.Buildkit} `{!LLBAudit.AuthorityCodecs} `{!Codec Event} `{!OCIArtifact.OCIJSON} `{!NetURL}
    quote arrange maxSecretSize env1 env2 executor1 executor2 request1 request2 :
  let run1 := Execute quote arrange maxSecretSize env1 executor1 request1 start in
  let run2 := Execute quote arrange maxSecretSize env2 executor2 request2 start in
  run1.2.2 = None → run2.2.2 = None → w_LogsDigest run1.2.1 = w_LogsDigest run2.2.1 →
  (∀ event enc, event ∈ lg_events (st_log run1.1) ++ lg_events (st_log run2.1) → marshal event = Some enc → len enc < 2 ^ 63) →
  lg_events (st_log run1.1) = lg_events (st_log run2.1) ∨ collide (lg_transcript (st_log run1.1)) (lg_transcript (st_log run2.1)).
Proof.
  intros run1 run2 E1 E2 Hlogs Hlen.
  destruct (Execute_cases env1 request1 quote arrange maxSecretSize executor1) as [(_ & _ & [e He] & _)|(_ & _ & _ & C1)]; [subst run1; congruence|].
  destruct (Execute_cases env2 request2 quote arrange maxSecretSize executor2) as [(_ & _ & [e He] & _)|(_ & _ & _ & C2)]; [subst run2; congruence|].
  fold run1 in C1. fold run2 in C2. pose proof (cn_outcome _ _ _ _ C1) as O1. pose proof (cn_outcome _ _ _ _ C2) as O2. rewrite E1 in O1. rewrite E2 in O2.
  destruct O1 as (_ & _ & _ & _ & R1 & L1), O2 as (_ & _ & _ & _ & R2 & L2). rewrite L1, L2 in Hlogs. apply bytesDigest_same in Hlogs as [Ht|]; [left|by right].
  destruct (lo_transcript _ _ (cn_log _ _ _ _ C1) R1) as (encs1 & F1 & T1), (lo_transcript _ _ (cn_log _ _ _ _ C2) R2) as (encs2 & F2 & T2).
  rewrite T1, T2 in Ht. eapply framed_values; eauto; intros event enc Hin; apply Hlen, elem_of_app; auto.
Qed.

(** ** Witnesses *)

Definition sample_evidence (kind : string) (c : ascii) : EvidenceReference :=
  {| ev_Kind := kind; ev_Reference := "registry.test/web@" +:+ sample_digest c; ev_ManifestDigest := sample_digest c; ev_PayloadDigest := sample_digest "0" |}.

Definition sample_chain : SupplyChainResult :=
  {| sc_PolicyState := "accepted"; sc_ScanState := "passed"; sc_PolicyDigest := sample_digest "b"; sc_SignerKeyID := "lrail-build-evidence";
     sc_SignerKeyVersion := 1; sc_SignerPublicKeyDigest := sample_digest "c";
     sc_Evidence := [sample_evidence "signature" "1"; sample_evidence "sbom" "2"; sample_evidence "provenance" "3";
                     sample_evidence "vulnerability_scan" "4"; sample_evidence "policy_decision" "5"] |}.

Definition sample_status : SolveStatus :=
  {| ss_Vertexes := [{| vx_Digest := "v1"; vx_Name := "run"; vx_Started := Some 5; vx_Completed := Some 6; vx_Cached := true; vx_Error := "" |}];
     ss_Statuses := []; ss_Logs := [{| vl_Vertex := "v1"; vl_Stream := 1; vl_Data := "compiling"; vl_Timestamp := 6 |}]; ss_Warnings := [] |}.

Definition sample_answers : OutputEnv :=
  {| oe_mkdir := true; oe_acquire := true; oe_statuses := [Some sample_status; None]; oe_solve := inr (Some ∅); oe_artifact := Some (File (Some "archive"));
     oe_archive := Some OCIArtifact.sample_file;
     oe_commit := fun artifact => ({| ca_Reference := "registry.test/web@" +:+ xa_Digest artifact; ca_Path := ""; ca_Digest := xa_Digest artifact; ca_Size := xa_Size artifact;
                                     ca_ManifestDigest := ""; ca_PublicationManifestRef := ""; ca_SupplyChain := sample_chain |}, None);
     oe_complete := fun _ => true |}.

Definition sample_env : Env :=
  {| e_clock := fun n => Z.of_nat n + 1; e_ctx := fun _ => None; e_violations := fun _ => []; e_fresh := true; e_materialized := true; e_localFS := true;
     e_output := fun _ => sample_answers; e_cleanup := BuildWorker.Cleanup ["/scratch"] false [] false (fun _ => true) |}.

Definition sample_executor : BuildKitExecutor :=
  match NewBuildKitExecutor true "/scratch" 0 with Ok x => x | Err _ => {| x_scratchRoot := ""; x_solveTimeout := 0; x_quota := {| MaxBytes := 0; MaxInodes := 0; PollInterval := 0 |} |} end.

Definition sample_request : Request := {| q_Assignment := Assignment.sample_resolved; q_Attempt := 1; q_Secrets := ∅; q_Events := true |}.

Definition toy_url : NetURL := {| url_Parse := fun _ => None; url_String := fun _ => "" |}.

Definition sample_run (codec : Codec Event) : State * outcome :=
  @Execute Assignment.payload_codec LLBAudit.toy_buildkit LLBAudit.toy_authorities codec OCIArtifact.toy_oci_json toy_url (fun s => s) (fun l => l) 1024 sample_env sample_executor sample_request start.

(** The events do not depend on how they are encoded. *)
Definition sample_events : list Event := Eval vm_compute in lg_events (st_log (sample_run (list_codec [])).1).

Example sample_run_succeeds : (sample_run (list_codec sample_events)).2.2 = None.
Proof. vm_compute. reflexivity. Qed.

Lemma solves_signed_definitions_witness : ∃ solved, Solved solved ∈ st_trace (sample_run (list_codec sample_events)).1 ∧
  ∃ signed, signed ∈ Assignment.p_Outputs (Assignment.va_Payload (Assignment.ra_Verified (q_Assignment sample_request))) ∧ bytesDigest (sr_Definition solved) = Assignment.oa_LLBDigest signed.
Proof.
  exists {| sr_Definition := "llb"; sr_Source := "/scratch/" +:+ Assignment.sample_id "bld" +:+ "/attempt-1/source"; sr_Secrets := ∅;
            sr_Exporter := ("oci", "/scratch/" +:+ Assignment.sample_id "bld" +:+ "/attempt-1/exports/web/artifact.oci.tar"); sr_Ref := Assignment.sample_id "bld" +:+ "-1-web" |}.
  match goal with |- Solved ?r ∈ ?t ∧ _ => assert (Solved r ∈ t) as Hin by (apply list_elem_of_lookup; exists 5%nat; vm_compute; reflexivity) end.
  split; [exact Hin|]. unfold sample_run in Hin.
  exact (proj1 (@solves_signed_definitions Assignment.payload_codec LLBAudit.toy_buildkit LLBAudit.toy_authorities (list_codec sample_events) OCIArtifact.toy_oci_json toy_url
                  sample_env sample_request (fun s => s) (fun l => l) 1024 sample_executor _ Hin)).
Defined.

Lemma worker_success_accepted_witness :
  Controller.validateSuccessfulResult Assignment.sample_resolved (sample_run (list_codec sample_events)).2.1 = true.
Proof.
  refine (eq_trans (@worker_success_accepted Assignment.payload_codec LLBAudit.toy_buildkit LLBAudit.toy_authorities (list_codec sample_events) OCIArtifact.toy_oci_json toy_url
            sample_env sample_request (fun s => s) (fun l => l) 1024 sample_executor _ _ _ _) _).
  - vm_compute. reflexivity.
  - vm_compute. discriminate.
  - intros buildID. reflexivity.
  - vm_compute. reflexivity.
  - vm_compute. reflexivity.
Defined.

Lemma executions_identified_witness :
  let log := st_log (sample_run (list_codec sample_events)).1 in lg_events log = lg_events log ∨ collide (lg_transcript log) (lg_transcript log).
Proof.
  unfold sample_run. apply (@executions_identified Assignment.payload_codec LLBAudit.toy_buildkit LLBAudit.toy_authorities (list_codec sample_events) OCIArtifact.toy_oci_json toy_url
           (fun s => s) (fun l => l) 1024 sample_env sample_env sample_executor sample_executor sample_request sample_request).
  - vm_compute. reflexivity.
  - vm_compute. reflexivity.
  - reflexivity.
  - intros event enc _ Hm. cbn in Hm. unfold list_marshal in Hm. destruct (list_find _ _) as [[i e]|] eqn:Hf; [|discriminate]. injection Hm as <-.
    apply list_find_Some in Hf as (Hi & _). apply lookup_lt_Some in Hi. 
    do 32 (destruct i as [|i]; [vm_compute; reflexivity|]). vm_compute in Hi. lia.
Defined.

End ExecutorLaws.
