(* ===== verification/ControllerLaws.v ===== *)
(** * Reasoning about the build controller

    A weakest-precondition calculus for the controller's monad, the protocol its
    calls follow as a state machine, and what each part of [Controller.Run] does:
    to the trace, to the lease's secrets, to the run store, and what it returns. *)

From S2P Require Import Prelude StateMonad Text GoStd Crypto PlatformID Storage BuildIR LLBPolicy LLBAudit Replay Assignment BuildWorker RunStore RunStoreLaws RunHistory Controller.
Import StateMonad GoStd Crypto PlatformID Storage LLBPolicy BuildWorker RunStore RunStoreLaws RunHistory Controller.

Open Scope Z_scope.

Module ControllerLaws.

#[export] Instance CapabilityLease_eq_dec : EqDecision CapabilityLease.
Proof. solve_decision. Defined.

(** ** The protocol *)

(** What the controller holds: nothing (with the last attempt that acquired a
    lease), a lease, a lease and an idle worker, a lease and a running worker, a
    lease whose worker is released; or a build that must not be run again. *)
Inductive session :=
| Idle (last : Z)
| Leased (attempt : Z) (lease : CapabilityLease)
| Ready (attempt : Z) (lease : CapabilityLease) (worker : string)
| Working (attempt : Z) (lease : CapabilityLease) (worker : string)
| Returned (attempt : Z) (lease : CapabilityLease)
| Stopped.

Definition keep (ok : bool) (st : session) : option session := if ok then Some st else None.

(** One call in a session; [None] is a call out of order. *)
Definition advance (st : session) (a : action) : option session :=
  match st, a with
  | Idle last, Scrubbed _ proven => keep (last =? 0) (if proven then Idle last else Stopped)
  | Idle last, Waited attempt delay => keep (last =? attempt) (Idle last)
  | Idle last, Acquired attempt lease ok =>
      keep (last <? attempt) (if negb ok && String.eqb (lease_ID lease) "" then Idle attempt else Leased attempt lease)
  | Leased n lease, Allocated attempt leaseID worker =>
      keep ((n =? attempt) && String.eqb (lease_ID lease) leaseID)
        (match worker with Some worker => Ready n lease worker | None => Leased n lease end)
  | Ready n lease worker, Executing worker' attempt =>
      keep ((n =? attempt) && String.eqb worker worker') (Working n lease worker)
  | Working n lease worker, Forced worker' _ => keep (String.eqb worker worker') (Working n lease worker)
  | Working n lease worker, Released worker' _ => keep (String.eqb worker worker') (Returned n lease)
  | Returned n lease, Revoked lease' _ | Leased n lease, Revoked lease' _ => keep (bool_decide (lease = lease')) (Idle n)
  | _, _ => None
  end.

Abbreviation session_run := (StateMonad.session_run advance).

(** The trace grew from [tr] to [tr'] by calls that take the session from [st] to
    [st']. *)
Definition moved (tr : list action) (st : session) (tr' : list action) (st' : session) : Prop :=
  ∃ new, tr' = tr ++ new ∧ session_run st new = Some st'.

Lemma moved_refl tr st : moved tr st tr st.
Proof. exists []. by rewrite app_nil_r. Qed.

Lemma moved_step tr st tr' st' a st'' :
  moved tr st tr' st' → advance st' a = Some st'' → moved tr st (tr' ++ [a]) st''.
Proof.
  intros (new & -> & Hr) Ha. exists (new ++ [a]). rewrite app_assoc, session_run_app, Hr. simpl. by rewrite Ha.
Qed.

Lemma moved_trans tr1 st1 tr2 st2 tr3 st3 : moved tr1 st1 tr2 st2 → moved tr2 st2 tr3 st3 → moved tr1 st1 tr3 st3.
Proof.
  intros (n1 & -> & H1) (n2 & -> & H2). exists (n1 ++ n2). rewrite app_assoc, session_run_app, H1. done.
Qed.

(** ** Cleanup reports *)

(** A report that proves the build's resources gone. *)
Definition report_ok (buildID : string) (report : CleanupReport) : Prop :=
  cleanupProvenClean report = true ∧ (cl_BuildID report = "" ∨ cl_BuildID report = buildID).

Lemma cleanupProvenClean_true report :
  cleanupProvenClean report = true ↔
  cl_Status report = CleanupClean ∧ cl_Residue report = [] ∧ cl_QuarantineReason report = "".
Proof.
  unfold cleanupProvenClean. destruct (cl_Residue report); simpl; split; intros; bsimpl; done.
Qed.

Lemma quarantine_with_dirty report kind detail reason : cleanupProvenClean (quarantine_with report kind detail reason) = false.
Proof. unfold cleanupProvenClean. simpl. done. Qed.

Lemma combine_report_clean buildID combined report :
  cleanupProvenClean (combine_report buildID combined report) = true ↔
  cleanupProvenClean combined = true ∧ report_ok buildID report.
Proof.
  unfold report_ok, combine_report. destruct (cleanupProvenClean report) eqn:Hr.
  - apply cleanupProvenClean_true in Hr as (_ & Hres & _). rewrite Hres. rewrite !cleanupProvenClean_true.
    destruct (String.eqb_spec (cl_BuildID report) "") as [E|E]; simpl; [rewrite app_nil_r; naive_solver|].
    destruct (String.eqb_spec (cl_BuildID report) buildID) as [E'|E']; simpl; [rewrite app_nil_r; naive_solver|].
    split; [|naive_solver]. intros (? & _). done.
  - rewrite cleanupProvenClean_true. simpl. split; naive_solver.
Qed.

Lemma combine_fold_clean buildID reports combined :
  cleanupProvenClean (fold_left (combine_report buildID) reports combined) = true ↔
  cleanupProvenClean combined = true ∧ Forall (report_ok buildID) reports.
Proof.
  revert combined. induction reports as [|r reports IH]; intros combined; simpl; [rewrite Forall_nil; naive_solver|].
  rewrite IH, combine_report_clean, Forall_cons. tauto.
Qed.

(** Combined reports are clean exactly when each proves the build's resources
    gone. *)
Lemma combineCleanupReports_clean buildID reports :
  cleanupProvenClean (combineCleanupReports buildID reports) = true ↔ Forall (report_ok buildID) reports.
Proof.
  unfold combineCleanupReports. destruct (0 <? _)%nat eqn:Hres.
  - apply Nat.ltb_lt in Hres. rewrite cleanupProvenClean_true. simpl. split; [naive_solver|]. intros Hf.
    assert (cleanupProvenClean (fold_left (combine_report buildID) reports (noResourceCleanup buildID)) = true) as Hc
      by by apply combine_fold_clean.
    apply cleanupProvenClean_true in Hc as (_ & Hc & _). rewrite Hc in Hres. simpl in Hres. lia.
  - rewrite combine_fold_clean. naive_solver.
Qed.

Lemma combineCleanupReports_id buildID reports : cl_BuildID (combineCleanupReports buildID reports) = buildID.
Proof.
  unfold combineCleanupReports. assert (∀ combined, cl_BuildID (fold_left (combine_report buildID) reports combined) = cl_BuildID combined) as Hid.
  { induction reports as [|r reports IH]; intros combined; [done|]. simpl. rewrite IH. simpl. by destruct (_ && _). }
  destruct (0 <? _)%nat; simpl; by rewrite Hid.
Qed.

(** A clean attempt: every report proves it, the worker was released and the lease
    revoked. *)
Lemma attempt_cleanup_clean buildID x releaseReport released revokeFailed :
  cleanupProvenClean (attempt_cleanup buildID x releaseReport released revokeFailed) = true ↔
  report_ok buildID (w_Cleanup (x_result x)) ∧ report_ok buildID releaseReport ∧ released = true ∧ revokeFailed = false ∧
  (x_forced x = true → report_ok buildID (x_report x)).
Proof.
  unfold attempt_cleanup. destruct (x_forced x) eqn:Hf.
  - rewrite combineCleanupReports_clean, !Forall_cons, Forall_nil. unfold report_ok at 1.
    destruct revokeFailed; [rewrite quarantine_with_dirty; naive_solver|].
    destruct released; [|rewrite quarantine_with_dirty; naive_solver].
    rewrite combineCleanupReports_clean, combineCleanupReports_id, !Forall_cons, Forall_nil. naive_solver.
  - destruct revokeFailed; [rewrite quarantine_with_dirty; naive_solver|].
    destruct released; [|rewrite quarantine_with_dirty; naive_solver].
    rewrite combineCleanupReports_clean, !Forall_cons, Forall_nil. naive_solver.
Qed.

Lemma attempt_cleanup_id buildID x releaseReport released revokeFailed :
  cl_BuildID (attempt_cleanup buildID x releaseReport released revokeFailed) = buildID.
Proof.
  unfold attempt_cleanup. destruct (x_forced x), revokeFailed, released; simpl; by rewrite combineCleanupReports_id.
Qed.

Section Laws.
Context `{GoText} `{!Codec Assignment.Payload} `{!Codec DefinitionLock} `{!Codec ResolutionEvidence} `{!Ed25519} `{!LLBAudit.Buildkit} `{!LLBAudit.AuthorityCodecs}.
Context `{!Codec Event}.
Context {R REnv : Type} (RP : Replay.ReplayStore R REnv) {S SEnv : Type} (RS : RunStore S SEnv).
Context (env : Env REnv SEnv) (c : controller).

Abbreviation W := (World R S).

(** ** What the environment and the store keep *)

(** Clocks are past the zero time, also in other controllers' calls. *)
Definition env_sane : Prop := (∀ n, 0 < e_clock env n) ∧ ∀ n, clocked (e_others env n).

Definition stored (w : W) : Prop := ∃ m, holds (wd_runs w) m.

(** [w] has the trace [tr] and the secrets [sec]; if the store was in order at
    [w0] it still is. *)
Record good (tr : list action) (sec : gmap string string) (w0 w : W) : Prop := {
  good_trace : wd_trace w = tr;
  good_secrets : wd_secrets w = sec;
  good_stored : env_sane → stored w0 → stored w;
}.

(** The terminal result is what the store holds for its build. *)
Definition durable (w : W) (result : Result) : Prop :=
  ∃ m rec, holds (wd_runs w) m ∧ m !! r_BuildID result = Some rec ∧ rr_Result rec = result ∧ Terminal result = true.

Lemma run_ops_stored s m calls : holds s m → clocked calls → ∃ m', holds (run_ops RS s calls).1 m'.
Proof.
  intros Hm Hc. destruct (run_ops RS s calls) as [s' log] eqn:E.
  destruct (run_ops_invariant RS (fun _ => True) (fun _ _ => True) calls s m s' log) as [(m' & ? & _) _]; eauto.
Qed.

Lemma wp_tick tr sec w0 w Q :
  good tr sec w0 w → (∀ n w', good tr sec w0 w' → (env_sane → 0 < e_clock env n) → Q n w') → wp (tick RS env) Q w.
Proof.
  intros [Hs Hsec Hst] HQ. apply HQ; [|by intros [? _]]. split; [done|done|]. intros Hsane Hw0.
  destruct (Hst Hsane Hw0) as [m Hm]. eapply run_ops_stored; [done|]. apply Hsane.
Qed.

Lemma wp_clock tr sec w0 w Q :
  good tr sec w0 w → (∀ t w', good tr sec w0 w' → (env_sane → 0 < t) → Q t w') → wp (clock RS env) Q w.
Proof. intros Hg HQ. apply wp_bind. eapply wp_tick; [done|]. intros n w' Hg' Hn. apply wp_ret. auto. Qed.

Lemma wp_stop tr sec w0 w Q :
  good tr sec w0 w → (∀ b w', good tr sec w0 w' → Q b w') → wp (stop_requested RS env) Q w.
Proof. intros Hg HQ. apply wp_bind. eapply wp_tick; [done|]. intros n w' Hg' _. apply wp_ret. auto. Qed.

Lemma wp_emit tr sec w0 w phase attempt message Q :
  good tr sec w0 w → (∀ w', good tr sec w0 w' → Q tt w') → wp (emit_phase RS env phase attempt message) Q w.
Proof.
  intros Hg HQ. apply wp_bind. eapply wp_clock; [done|]. intros t w1 Hg1 _. apply wp_bind.
  assert (∀ now w2, good tr sec w0 w2 → wp (state (fun w => (set_emitter (emit_event now
    (phase_event phase attempt message t) (wd_emitter w)) w, tt))) Q w2) as Hset.
  { intros now w2 [? ? ?]. apply HQ. by split. }
  destruct (IsZero t).
  - eapply wp_clock; [done|]. eauto.
  - apply wp_ret. eauto.
Qed.

(** A call to the run store: an answer is the decided one. *)
Lemma wp_call_runs tr sec w0 w op Q :
  (env_sane → 0 < op_now op) → good tr sec w0 w →
  (∀ r w', good tr sec w0 w' →
     (∀ a, r = Ok a → env_sane → stored w0 → ∃ m wr, valid_records m ∧ decide_op op (m !! op_build op) = Some (a, wr) ∧
        holds (wd_runs w') (apply_write op m wr)) → Q r w') →
  wp (call_runs RS env op) Q w.
Proof.
  intros Hnow Hg HQ. apply wp_bind. eapply wp_tick; [done|]. intros n w1 [Hs Hsec Hst] _. unfold wp, state.
  destruct (exec (e_runs env n) (wd_runs w1) op) as [s o] eqn:Hx. simpl. apply HQ.
  - split; [done|done|]. intros Hsane Hw0. destruct (Hst Hsane Hw0) as [m Hm]. unfold stored. simpl.
    destruct (exec_step RS _ _ _ _ _ _ Hm (Hnow Hsane) Hx) as [(a & wr & _ & Hh & _)|[Hh _]]; eauto.
  - intros a -> Hsane Hw0. destruct (Hst Hsane Hw0) as [m Hm]. simpl.
    destruct (exec_step RS _ _ _ _ _ _ Hm (Hnow Hsane) Hx) as [(a' & wr & Hd & Hh & Ho)|[_ ?]]; [|done].
    destruct Ho as [[= ->]|?]; [|done]. exists m, wr. split; [by eapply holds_valid|done].
Qed.

Lemma wp_update tr sec w0 w buildID owner phase attempt Q :
  good tr sec w0 w → (∀ r w', good tr sec w0 w' → Q r w') → wp (update RS env c buildID owner phase attempt) Q w.
Proof.
  intros Hg HQ. apply wp_bind. eapply wp_clock; [done|]. intros t w1 Hg1 Ht. apply wp_bind.
  eapply wp_call_runs; [exact Ht|done|]. intros r w2 Hg2 _. apply wp_ret. auto.
Qed.

Lemma wp_finish tr sec w0 w owner result Q :
  good tr sec w0 w →
  (∀ r w', good tr sec w0 w' → (r = Ok tt → env_sane → stored w0 → durable w' result) → Q r w') →
  wp (finish RS env owner result) Q w.
Proof.
  intros Hg HQ. apply wp_bind. eapply wp_clock; [done|]. intros t w1 Hg1 Ht. apply wp_bind.
  eapply wp_call_runs; [exact Ht|done|]. intros r w2 Hg2 Hr. apply wp_ret. apply HQ; [done|].
  intros Hok Hsane Hw0. destruct r as [a|e]; [|done]. destruct (Hr a eq_refl Hsane Hw0) as (m & wr & Hv & Hd & Hh).
  simpl in Hd. destruct (m !! r_BuildID result) as [rec|] eqn:Hm; [|done].
  destruct (finish_refused rec _ _ _ _) eqn:Hf; [done|]. simplify_eq/=.
  exists (<[r_BuildID result := finished rec result t]> m), (finished rec result t). split_and!; [done| |done|].
  - by rewrite lookup_insert_eq.
  - unfold finish_refused in Hf. bsimpl.
    match goal with Hx : ∃ _, validateTerminalResult _ _ _ = _ |- _ =>
      destruct Hx as [? (? & _)%validateTerminalResult_identity] end. done.

Qed.

Lemma wp_finishResult tr sec w0 w owner result Q :
  good tr sec w0 w →
  (∀ r w', good tr sec w0 w' →
     (∀ result', r = Ok result' → ∃ logs, result' = with_logs result logs ∧ (env_sane → stored w0 → durable w' result')) →
     Q r w') →
  wp (finishResult RS env owner result) Q w.
Proof.
  intros Hg HQ. apply wp_bind. unfold wp at 1, state. simpl. destruct (digest (wd_emitter w)) as [logs|e].
  - apply wp_try. eapply wp_finish; [done|]. intros r w1 Hg1 Hr. destruct r as [[]|e].
    + apply wp_ret. apply HQ; [done|]. intros result' [= <-]. eauto.
    + by apply HQ.
  - apply wp_ret. by apply HQ.
Qed.

Lemma wp_record tr sec w0 w a Q :
  good tr sec w0 w → (∀ w', good (tr ++ [a]) sec w0 w' → Q tt w') → wp (record a) Q w.
Proof. intros [<- ? ?] HQ. apply HQ. by split. Qed.

Lemma wp_revokeLease tr sec w0 w lease Q :
  good tr sec w0 w → (∀ b w', good (tr ++ [Revoked lease (negb b)]) sec w0 w' → Q b w') → wp (revokeLease RS env lease) Q w.
Proof.
  intros Hg HQ. apply wp_bind. eapply wp_tick; [done|]. intros n w1 Hg1 _. apply wp_bind.
  eapply wp_record; [done|]. intros w2 Hg2. apply wp_ret. apply HQ. by rewrite negb_involutive.
Qed.

(** ** The worker *)

Lemma wp_awaitOrForce tr sec w0 w n lease worker Q :
  good tr sec w0 w →
  (∀ a tr' w', good tr' sec w0 w' → moved tr (Working n lease worker) tr' (Working n lease worker) → Q a w') →
  wp (awaitOrForce RS env worker) Q w.
Proof.
  intros Hg HQ. apply wp_bind. eapply wp_tick; [done|]. intros k w1 Hg1 _. destruct (e_done_first env k).
  { destruct (e_execute env k). apply wp_ret. eapply HQ; [done|apply moved_refl]. }
  apply wp_bind. eapply wp_tick; [done|]. intros f w2 Hg2 _. destruct (e_force env f) as [report ok].
  apply wp_bind. eapply wp_record; [done|]. intros w3 Hg3. apply wp_bind. eapply wp_tick; [done|]. intros d w4 Hg4 _.
  assert (moved tr (Working n lease worker) (tr ++ [Forced worker ok]) (Working n lease worker)) as Hm.
  { eapply moved_step; [apply moved_refl|]. simpl. by rewrite String.eqb_refl. }
  destruct (e_done_first env d); [destruct (e_execute env d)|]; apply wp_ret; eauto.
Qed.

Lemma wp_stop_worker tr sec w0 w n lease worker canceled lost Q :
  good tr sec w0 w →
  (∀ x tr' w', good tr' sec w0 w' → moved tr (Working n lease worker) tr' (Working n lease worker) →
     x_canceled x = canceled → x_controlLost x = lost → Q x w') →
  wp (stop_worker RS env worker canceled lost) Q w.
Proof.
  intros Hg HQ. apply wp_bind. eapply wp_awaitOrForce; [done|]. intros a tr' w' Hg' Hm. apply wp_ret. eapply HQ; eauto.
Qed.

Lemma wp_executionLoop tr sec w0 w buildID owner n lease worker attempt beats Q :
  good tr sec w0 w →
  (∀ x tr' w', good tr' sec w0 w' → moved tr (Working n lease worker) tr' (Working n lease worker) → Q x w') →
  wp (executionLoop RS env c buildID owner worker attempt beats) Q w.
Proof.
  intros Hg HQ. revert w Hg. induction beats as [|beats IH]; intros w Hg; cbn [executionLoop].
  - apply wp_bind. eapply wp_tick; [done|]. intros k w1 Hg1 _. destruct (e_arm env k).
    + destruct (e_execute env k). apply wp_ret. eapply HQ; [done|apply moved_refl].
    + apply wp_bind. eapply wp_update; [done|]. intros r w2 Hg2. apply wp_bind. eapply wp_emit; [done|]. intros w3 Hg3.
      eapply wp_stop_worker; eauto.
    + apply wp_bind. eapply wp_emit; [done|]. intros w3 Hg3. eapply wp_stop_worker; eauto.
  - apply wp_bind. eapply wp_update; [done|]. intros r w1 Hg1. destruct r; [by apply IH|].
    eapply wp_stop_worker; eauto.
Qed.

(** ** Attempts *)

(** What an attempt returns: the assignment's identity; an error code unless it
    succeeds or retries; a cleanup proven for every outcome but quarantine; and
    for a success the validated result of a worker that was released under a
    lease that was revoked. *)
Record attempt_result (assignment : Assignment.ResolvedAssignment) (attempt : Z) (startedAt : Time) (tr : list action)
    (result : Result) (retry : bool) : Prop := {
  at_identity : r_BuildID result = Assignment.p_BuildID (Assignment.va_Payload (Assignment.ra_Verified assignment)) ∧
    r_PayloadDigest result = Assignment.va_PayloadDigest (Assignment.ra_Verified assignment) ∧
    r_StartedAt result = startedAt ∧ r_Replay result = false ∧ cl_BuildID (r_Cleanup result) = r_BuildID result;
  at_attempts : r_Attempts result = attempt ∨ (r_Phase result = PhaseCanceled ∧ r_Attempts result = (attempt - 1) mod 2 ^ 32);
  at_retry : retry = true → r_Phase result = PhaseRetrying ∧ attempt < c_maxAttempts c ∧
    report_ok (r_BuildID result) (w_Cleanup (r_Worker result));
  at_terminal : retry = false → Terminal result = true;
  at_clean : cleanupProvenClean (r_Cleanup result) = negb (String.eqb (r_Phase result) PhaseQuarantined);
  at_code : r_ErrorCode result ≠ "" ∨ r_Phase result = PhaseComplete;
  at_complete : r_Phase result = PhaseComplete →
    validateSuccessfulResult assignment (r_Worker result) = true ∧ w_Phase (r_Worker result) = PhaseComplete ∧
    r_Attempts result = attempt ∧ r_ErrorCode result = "" ∧
    ∃ tr0 lease, tr = tr0 ++ [Released (r_WorkerIdentity result) true; Revoked lease true];
}.

Lemma wp_conclude tr sec w0 w assignment attempt x canceled startedAt finishedAt worker buildID releaseReport released revokeFailed
    lease tr0 Q :
  buildID = Assignment.p_BuildID (Assignment.va_Payload (Assignment.ra_Verified assignment)) →
  tr = tr0 ++ [Released worker released; Revoked lease (negb revokeFailed)] →
  good tr sec w0 w →
  (∀ r w', good tr sec w0 w' →
     (∀ result retry, r = Ok (result, retry) → attempt_result assignment attempt startedAt tr result retry) → Q r w') →
  wp (conclude RS env c assignment attempt x canceled
    {| r_BuildID := buildID; r_PayloadDigest := Assignment.va_PayloadDigest (Assignment.ra_Verified assignment);
       r_Phase := ""; r_Attempts := attempt; r_WorkerIdentity := worker; r_Worker := x_result x;
       r_Cleanup := attempt_cleanup buildID x releaseReport released revokeFailed; r_ErrorCode := "";
       r_LogsDigest := ""; r_StartedAt := startedAt; r_FinishedAt := finishedAt; r_Replay := false |}) Q w.
Proof.
  intros -> -> Hg HQ. unfold conclude. cbn [r_Cleanup].
  pose proof (attempt_cleanup_id (Assignment.p_BuildID (Assignment.va_Payload (Assignment.ra_Verified assignment))) x releaseReport released revokeFailed) as Hid.
  set (cleanup := attempt_cleanup _ _ _ _ _) in *.
  destruct (cleanupProvenClean cleanup) eqn:Hclean; cbn [negb].
  2:{ apply wp_bind. eapply wp_emit; [done|]. intros w1 Hg1. apply wp_ret. apply HQ; [done|].
      intros result retry [= <- <-]. split; simpl; try done; auto. }
  pose proof Hclean as Hproof. apply attempt_cleanup_clean in Hproof as (Hw & _ & -> & -> & _).
  destruct (x_controlLost x); [apply wp_ret; by apply HQ|].
  destruct canceled.
  { apply wp_bind. eapply wp_emit; [done|]. intros w1 Hg1. apply wp_ret. apply HQ; [done|].
    intros result retry [= <- <-]. split; simpl; try done; auto. }
  destruct (String.eqb (w_ErrorCode (x_result x)) "worker_lost" && (attempt <? c_maxAttempts c)) eqn:Hlost.
  { apply wp_ret. apply HQ; [done|]. bsimpl. intros result retry [= <- <-]. split; simpl; try done; auto. }
  destruct (negb (x_ok x) || negb (String.eqb (w_Phase (x_result x)) PhaseComplete)) eqn:Hfail.
  { apply wp_bind. eapply wp_emit; [done|]. intros w1 Hg1. apply wp_ret. apply HQ; [done|].
    intros result retry [= <- <-]. split; simpl; try done; auto. left. by destruct (String.eqb_spec (w_ErrorCode (x_result x)) ""). }
  bsimpl. destruct (validateSuccessfulResult assignment (x_result x)) eqn:Hval; cbn [negb].
  - apply wp_bind. eapply wp_emit; [done|]. intros w1 Hg1. apply wp_ret. apply HQ; [done|].
    intros result retry [= <- <-]. split; simpl; try done; auto. intros _. eauto 10.
  - apply wp_bind. eapply wp_emit; [done|]. intros w1 Hg1. apply wp_ret. apply HQ; [done|].
    intros result retry [= <- <-]. split; simpl; try done; auto.
Qed.

Lemma wp_run_worker tr sec w0 w assignment owner attempt startedAt lease worker st tr0 Q :
  good tr sec w0 w → moved tr0 st tr (Ready attempt lease worker) →
  (∀ r tr' w', good tr' sec w0 w' → moved tr0 st tr' (Idle attempt) →
     (∀ result retry, r = Ok (result, retry) → attempt_result assignment attempt startedAt tr' result retry) → Q r w') →
  wp (run_worker RS env c assignment owner attempt startedAt lease worker) Q w.
Proof.
  intros Hg Hm HQ. unfold run_worker. apply wp_bind. eapply wp_record; [done|]. intros w1 Hg1.
  apply (moved_step _ _ _ _ (Executing worker attempt) (Working attempt lease worker)) in Hm;
    [|simpl; by rewrite Z.eqb_refl, String.eqb_refl].
  apply wp_bind. eapply wp_tick; [done|]. intros n w2 Hg2 _. apply wp_bind.
  eapply wp_executionLoop; [done|]. intros x tr1 w3 Hg3 Hm1. eapply moved_trans in Hm1; [|exact Hm].
  apply wp_bind. eapply wp_stop; [done|]. intros stop w4 Hg4. apply wp_bind. eapply wp_tick; [done|].
  intros k w5 Hg5 _. destruct (e_release env k) as [report released]. apply wp_bind. eapply wp_record; [done|].
  intros w6 Hg6. apply (moved_step _ _ _ _ (Released worker released) (Returned attempt lease)) in Hm1;
    [|simpl; by rewrite String.eqb_refl].
  apply wp_bind. eapply wp_revokeLease; [done|]. intros failed w7 Hg7.
  apply (moved_step _ _ _ _ (Revoked lease (negb failed)) (Idle attempt)) in Hm1;
    [|simpl; by rewrite bool_decide_eq_true_2].
  apply wp_bind. eapply wp_clock; [done|]. intros t w8 Hg8 _.
  eapply (wp_conclude _ _ _ _ _ _ _ _ _ _ _ _ _ _ _ lease tr1); [done| |done|].
  { by rewrite <- app_assoc. }
  intros r w9 Hg9 Hr. eapply HQ; eauto.
Qed.

(** What every branch of an attempt establishes when it returns. *)
Definition attempt_post assignment attempt startedAt (sec : gmap string string) w0 tr0 st n
    (r : Prelude.result (Result * bool)) (w' : W) : Prop :=
  ∃ tr', good tr' sec w0 w' ∧ moved tr0 st tr' (Idle n) ∧
    ∀ result retry, r = Ok (result, retry) → attempt_result assignment attempt startedAt tr' result retry.

Lemma wp_failed_now tr sec w0 w assignment attempt startedAt code tr0 st n :
  code ≠ "" → good tr sec w0 w → moved tr0 st tr (Idle n) →
  wp (failed_now RS env (Assignment.ra_Verified assignment) startedAt attempt code)
     (attempt_post assignment attempt startedAt sec w0 tr0 st n) w.
Proof.
  intros Hc Hg Hm. apply wp_bind. eapply wp_clock; [done|]. intros t w1 Hg1 _. apply wp_ret.
  exists tr. split_and!; [done..|]. intros result retry [= <- <-]. split; simpl; try done; auto.
Qed.

Lemma wp_canceled_now tr sec w0 w assignment attempt startedAt tr0 st n :
  good tr sec w0 w → moved tr0 st tr (Idle n) →
  wp (canceled_now RS env (Assignment.ra_Verified assignment) startedAt attempt)
     (attempt_post assignment attempt startedAt sec w0 tr0 st n) w.
Proof.
  intros Hg Hm. apply wp_bind. eapply wp_clock; [done|]. intros t w1 Hg1 _. apply wp_ret.
  exists tr. split_and!; [done..|]. intros result retry [= <- <-]. split; simpl; try done; auto.
Qed.

Lemma wp_stop_or tr sec w0 w assignment attempt startedAt code tr0 st n :
  code ≠ "" → good tr sec w0 w → moved tr0 st tr (Idle n) →
  wp (stop ← stop_requested RS env;
      if (stop : bool) then canceled_now RS env (Assignment.ra_Verified assignment) startedAt attempt
      else failed_now RS env (Assignment.ra_Verified assignment) startedAt attempt code)
     (attempt_post assignment attempt startedAt sec w0 tr0 st n) w.
Proof.
  intros Hc Hg Hm. apply wp_bind. eapply wp_stop; [done|]. intros [] w1 Hg1.
  - eapply wp_canceled_now; eauto.
  - eapply wp_failed_now; eauto.
Qed.

Lemma wp_revoke_then tr sec w0 w assignment attempt startedAt lease k tr0 st :
  good tr sec w0 w → moved tr0 st tr (Leased attempt lease) →
  (∀ tr' w', good tr' sec w0 w' → moved tr0 st tr' (Idle attempt) →
     wp k (attempt_post assignment attempt startedAt sec w0 tr0 st attempt) w') →
  wp (revoke_then RS env (Assignment.ra_Verified assignment) attempt startedAt lease k)
     (attempt_post assignment attempt startedAt sec w0 tr0 st attempt) w.
Proof.
  intros Hg Hm Hk. apply wp_bind. eapply wp_revokeLease; [done|]. intros failed w1 Hg1.
  apply (moved_step _ _ _ _ (Revoked lease (negb failed)) (Idle attempt)) in Hm; [|simpl; by rewrite bool_decide_eq_true_2].
  destruct failed; [|by eapply Hk]. apply wp_bind. eapply wp_clock; [done|]. intros t w2 Hg2 _. apply wp_ret.
  eexists. split_and!; [done..|]. intros result retry [= <- <-]. split; simpl; try done; auto.
Qed.

Definition after_acquire (attempt : Z) (lease : CapabilityLease) (acquired : bool) : session :=
  if negb acquired && String.eqb (lease_ID lease) "" then Idle attempt else Leased attempt lease.

Lemma WorkerAllocationErrorCode_nonempty err : WorkerAllocationErrorCode err ≠ "".
Proof.
  unfold WorkerAllocationErrorCode. destruct (As_allocation err) as [code|]; [|done].
  destruct (validWorkerAllocationCode code) eqn:Hv; [|done]. intros ->. done.
Qed.

Lemma wp_with_lease tr sec w0 w assignment owner attempt startedAt expiresAt lease acquired tr0 st :
  good tr sec w0 w → moved tr0 st tr (after_acquire attempt lease acquired) →
  wp (with_lease RS env c assignment owner attempt startedAt expiresAt lease acquired)
     (attempt_post assignment attempt startedAt sec w0 tr0 st attempt) w.
Proof.
  intros Hg Hm. unfold with_lease, after_acquire in *. destruct acquired; cbn [negb andb] in *.
  - apply wp_bind. eapply wp_clock; [done|]. intros t1 w1 Hg1 _. destruct (is_err _).
    { eapply wp_revoke_then; [done..|]. intros. by eapply wp_failed_now. }
    apply wp_bind. eapply wp_clock; [done|]. intros t2 w2 Hg2 _. destruct (Sub expiresAt t2 <=? 0).
    { eapply wp_revoke_then; [done..|]. intros. by eapply wp_failed_now. }
    apply wp_bind. eapply wp_tick; [done|]. intros n w3 Hg3 _. destruct (e_allocate env n _) as [worker|err].
    + apply wp_bind. eapply wp_record; [done|]. intros w4 Hg4.
      apply (moved_step _ _ _ _ (Allocated attempt (lease_ID lease) (Some worker)) (Ready attempt lease worker)) in Hm;
        [|simpl; by rewrite Z.eqb_refl, String.eqb_refl].
      eapply wp_run_worker; [done..|]. intros r tr' w' Hg' Hm' Hr. by exists tr'.
    + apply wp_bind. eapply wp_record; [done|]. intros w4 Hg4.
      apply (moved_step _ _ _ _ (Allocated attempt (lease_ID lease) None) (Leased attempt lease)) in Hm;
        [|simpl; by rewrite Z.eqb_refl, String.eqb_refl].
      eapply wp_revoke_then; [done..|]. intros. eapply wp_stop_or; [apply WorkerAllocationErrorCode_nonempty|done..].
  - destruct (String.eqb (lease_ID lease) "").
    + by eapply wp_stop_or.
    + eapply wp_revoke_then; [done..|]. intros. by eapply wp_stop_or.
Qed.

(** An attempt acquires nothing, or a lease for itself, and leaves no secrets. *)
Lemma wp_runAttempt tr w0 w assignment owner attempt startedAt expiresAt tr0 st last Q :
  good tr ∅ w0 w → moved tr0 st tr (Idle last) → last < attempt →
  (∀ r tr' w' n, good tr' ∅ w0 w' → moved tr0 st tr' (Idle n) → n = last ∨ n = attempt →
     (∀ result retry, r = Ok (result, retry) → attempt_result assignment attempt startedAt tr' result retry ∧
        (retry = true → n = attempt)) → Q r w') →
  wp (runAttempt RS env c assignment owner attempt startedAt expiresAt) Q w.
Proof.
  intros Hg Hm Hlt HQ. unfold runAttempt. apply wp_bind. eapply wp_stop; [done|]. intros stop w1 Hg1. destruct stop.
  { unfold canceled_now. apply wp_bind. eapply wp_clock; [done|]. intros t w2 Hg2 _. apply wp_ret.
    eapply HQ; [done..|auto|]. intros result retry [= <- <-]. split; [|done]. split; simpl; try done; auto. }
  apply wp_try. eapply wp_update; [done|]. intros r w2 Hg2. destruct r as [u|e]; [|by eapply HQ; eauto].
  apply wp_bind. eapply wp_emit; [done|]. intros w3 Hg3. apply wp_bind. eapply wp_tick; [done|]. intros n w4 Hg4 _.
  destruct (e_acquire env n _ _) as [lease acquired]. apply wp_bind. eapply wp_record; [done|]. intros w5 Hg5.
  apply (moved_step _ _ _ _ (Acquired attempt lease acquired) (after_acquire attempt lease acquired)) in Hm.
  2:{ simpl. by rewrite (proj2 (Z.ltb_lt _ _) Hlt). }
  apply wp_bind. unfold wp at 1, state. cbn [fst snd].
  assert (good (tr ++ [Acquired attempt lease acquired]) (lease_Secrets lease) w0 (set_secrets (lease_Secrets lease) w5)) as Hg6.
  { destruct Hg5. by split. }
  apply wp_bind. eapply wp_mono; [eapply wp_with_lease; done|]. intros r w7 (tr' & Hg7 & Hm7 & Hr).
  apply wp_bind. unfold wp at 1, wipeLeaseSecrets, state. cbn [fst snd]. apply wp_ret.
  eapply (HQ r tr' _ attempt); [|done|auto|].
  - destruct Hg7. by split.
  - intros result retry E. split; [by apply Hr|done].
Qed.

(** ** Runs *)

(** What a run returns of its own: the assignment's identity, a cleanup proven for
    every outcome but quarantine, and for a success the validated result for the
    resolved assignment, its worker released and its lease revoked. *)
Record run_result (verified : Assignment.VerifiedAssignment) (tr : list action) (result : Result) : Prop := {
  rn_identity : r_BuildID result = Assignment.p_BuildID (Assignment.va_Payload verified) ∧
    r_PayloadDigest result = Assignment.va_PayloadDigest verified ∧ r_Replay result = false;
  rn_clean : r_Phase result ≠ PhaseQuarantined → cleanupProvenClean (r_Cleanup result) = true;
  rn_code : r_ErrorCode result ≠ "" ∨ r_Phase result = PhaseComplete;
  rn_complete : r_Phase result = PhaseComplete →
    r_Attempts result ≤ c_maxAttempts c ∧ r_ErrorCode result = "" ∧ w_Phase (r_Worker result) = PhaseComplete ∧
    (∃ tr0 lease, tr = tr0 ++ [Released (r_WorkerIdentity result) true; Revoked lease true]) ∧
    ∃ store resolved, Assignment.Resolve verified store = Ok resolved ∧ validateSuccessfulResult resolved (r_Worker result) = true;
}.

(** What a run leaves: a finished session, no secrets, and a result that the store
    holds. *)
Definition run_post verified w0 tr0 st (r : Prelude.result Result) (w' : W) : Prop :=
  ∃ tr' st', good tr' ∅ w0 w' ∧ moved tr0 st tr' st' ∧ (st' = Stopped ∨ ∃ n, st' = Idle n ∧ n ≤ c_maxAttempts c) ∧
    ∀ result, r = Ok result → run_result verified tr' result ∧ (env_sane → stored w0 → durable w' result).

Lemma run_result_logs verified tr result logs : run_result verified tr result → run_result verified tr (with_logs result logs).
Proof. intros [? ? ? ?]. by split. Qed.

Lemma wp_finish_run verified tr w0 w owner result tr0 st st' :
  good tr ∅ w0 w → moved tr0 st tr st' → st' = Stopped ∨ (∃ n, st' = Idle n ∧ n ≤ c_maxAttempts c) →
  run_result verified tr result →
  wp (finishResult RS env owner result) (run_post verified w0 tr0 st) w.
Proof.
  intros Hg Hm Hst Hr. eapply wp_finishResult; [done|]. intros r w' Hg' Hres. exists tr, st'. split_and!; [done..|].
  intros result' ->. destruct (Hres _ eq_refl) as (logs & -> & Hd). split; [by apply run_result_logs|done].
Qed.

Fixpoint increasing (last : Z) (attempts : list Z) : Prop :=
  match attempts with
  | [] => True
  | attempt :: attempts' => last < attempt ≤ c_maxAttempts c ∧ increasing attempt attempts'
  end.

Lemma seqZ_increasing last first n :
  last < first → first + n ≤ c_maxAttempts c + 1 → increasing last (seqZ first n).
Proof.
  intros Hl Hn. destruct (decide (0 ≤ n)); [|by rewrite seqZ_nil by lia].
  revert last first Hl Hn. pattern n. apply natlike_ind; [..|done].
  - intros. by rewrite seqZ_nil.
  - intros m Hm IH last first Hl Hn. rewrite seqZ_cons by lia. simpl. split; [lia|]. rewrite Z.pred_succ. apply IH; lia.
Qed.

Lemma attempts_from_increasing recorded : 0 < c_maxAttempts c → increasing 0 (attempts_from c recorded).
Proof.
  intros Hmax. unfold attempts_from. apply seqZ_increasing; [|lia].
  pose proof (Z.mod_pos_bound (recorded + 1) (2 ^ 32) ltac:(lia)).
  destruct (Z.eqb_spec ((recorded + 1) mod 2 ^ 32) 0); lia.
Qed.

Lemma attempt_run_result resolved store attempt startedAt tr result retry verified :
  Assignment.ra_Verified resolved = verified → Assignment.Resolve verified store = Ok resolved → attempt ≤ c_maxAttempts c →
  attempt_result resolved attempt startedAt tr result retry → run_result verified tr result.
Proof.
  intros <- Hres Hle [Hid Hatt Hretry Hterm Hclean Hcode Hcomp]. split.
  - naive_solver.
  - intros Hp. rewrite Hclean. by destruct (String.eqb_spec (r_Phase result) PhaseQuarantined).
  - done.
  - intros Hp. destruct (Hcomp Hp) as (Hval & Hw & Ha & He & Htr). split_and!; [lia|done..|]. eauto.
Qed.

Lemma wp_attempts_loop verified resolved store tr w0 w owner startedAt expiresAt attempts tr0 st last :
  Assignment.ra_Verified resolved = verified → Assignment.Resolve verified store = Ok resolved →
  good tr ∅ w0 w → moved tr0 st tr (Idle last) → last ≤ c_maxAttempts c → increasing last attempts →
  wp (attempts_loop RS env c resolved owner startedAt expiresAt attempts) (run_post verified w0 tr0 st) w.
Proof.
  intros Hver Hres. revert tr w last. induction attempts as [|attempt attempts IH]; intros tr w last Hg Hm Hle Hinc; cbn [attempts_loop].
  { apply wp_bind. eapply wp_clock; [done|]. intros t w1 Hg1 _. rewrite Hver. eapply wp_finish_run; [done..|eauto|].
    split; simpl; try done; auto. }
  destruct Hinc as [Hlt Hinc]. apply wp_try. eapply wp_runAttempt; [done|done|lia|].
  intros r tr1 w1 n Hg1 Hm1 Hn Hr. assert (n ≤ c_maxAttempts c) as Hnle by (destruct Hn; lia).
  destruct r as [[result retry]|e].
  2:{ exists tr1, (Idle n). split_and!; [done..|eauto|done]. }
  destruct (Hr _ _ eq_refl) as [Har Hnr]. destruct retry; cbn [negb].
  2:{ eapply wp_finish_run; [done..|eauto|]. eapply attempt_run_result; [done..| |exact Har]. lia. }
  rewrite (Hnr eq_refl) in *. destruct ((_ <? 0) || _); [apply wp_ret; exists tr1, (Idle attempt); split_and!; [done..|eauto|done]|].
  apply wp_bind. eapply wp_emit; [done|]. intros w2 Hg2. apply wp_try. eapply wp_update; [done|]. intros r w3 Hg3.
  destruct r as [[]|e]; [|exists tr1, (Idle attempt); split_and!; [done..|eauto|done]].
  apply wp_bind. unfold waitForRetry. apply wp_bind. eapply wp_tick; [done|]. intros k w4 Hg4 _. apply wp_bind. eapply wp_record; [done|].
  intros w5 Hg5. apply (moved_step _ _ _ _ (Waited attempt (c_retryDelay c attempt)) (Idle attempt)) in Hm1;
    [|simpl; by rewrite Z.eqb_refl].
  apply wp_ret. destruct (e_timer_first env k); [by eapply IH|].
  apply wp_bind. eapply wp_emit; [done|]. intros w6 Hg6. apply wp_bind. eapply wp_clock; [done|]. intros t w7 Hg7 _.
  rewrite Hver. eapply wp_finish_run; [done..|eauto|]. destruct Har as [_ _ Hretry _ _ _ _].
  destruct (Hretry eq_refl) as (_ & _ & Hok). split; simpl; try done; auto. intros _. apply Hok.
Qed.

Definition acquires (a : action) : Prop := match a with Acquired _ _ _ => True | _ => False end.

(** What a claimed run does to the trace: a resumed one scrubs first, and stops
    there unless that is proven; a canceled one acquires nothing. *)
Record claimed_trace (rec : RunRecord) (resumed : bool) (buildID : string) (new : list action) (r : Prelude.result Result) : Prop := {
  ct_scrub : resumed = true → ∃ proven rest, new = Scrubbed buildID proven :: rest ∧
    (proven = false → rest = [] ∧ ∀ result, r = Ok result → r_Phase result = PhaseQuarantined);
  ct_cancel : rr_CancelRequested rec = true → Forall (fun a => ¬ acquires a) new ∧
    ∀ result, r = Ok result → r_Phase result = PhaseCanceled ∨ r_Phase result = PhaseQuarantined;
}.

Definition claimed_post verified rec resumed w0 tr (r : Prelude.result Result) (w' : W) : Prop :=
  ∃ new st', good (tr ++ new) ∅ w0 w' ∧ session_run (Idle 0) new = Some st' ∧
    (st' = Stopped ∨ ∃ n, st' = Idle n ∧ n ≤ c_maxAttempts c) ∧
    (∀ result, r = Ok result → run_result verified (tr ++ new) result ∧ (env_sane → stored w0 → durable w' result)) ∧
    claimed_trace rec resumed (Assignment.p_BuildID (Assignment.va_Payload verified)) new r.

Lemma wp_finish_claimed verified rec resumed tr w0 w owner result new st' :
  good (tr ++ new) ∅ w0 w → session_run (Idle 0) new = Some st' → st' = Stopped ∨ (∃ n, st' = Idle n ∧ n ≤ c_maxAttempts c) →
  run_result verified (tr ++ new) result →
  (∀ logs, claimed_trace rec resumed (Assignment.p_BuildID (Assignment.va_Payload verified)) new (Ok (with_logs result logs))) →
  wp (finishResult RS env owner result) (claimed_post verified rec resumed w0 tr) w.
Proof.
  intros Hg Hs Hst Hr Hct. eapply wp_finishResult; [done|]. intros r w' Hg' Hres. exists new, st'. split_and!; [done..| |].
  - intros result' ->. destruct (Hres _ eq_refl) as (logs & -> & Hd). split; [by apply run_result_logs|done].
  - destruct r as [result'|e]; [destruct (Hres _ eq_refl) as (logs & -> & _); apply Hct|].
    destruct (Hct "") as [Hsc Hca]. split.
    + intros E. destruct (Hsc E) as (proven & rest & -> & Hp). exists proven, rest. split; [done|]. intros ->. split; [by apply Hp|done].
    + intros E. split; [by apply Hca|done].
Qed.

(** The start of a claimed run: nothing, or a scrub that proved the resources
    gone. *)
Definition scrubbed_trace (resumed : bool) (buildID : string) : list action :=
  if resumed then [Scrubbed buildID true] else [].

Lemma scrubbed_session resumed buildID : session_run (Idle 0) (scrubbed_trace resumed buildID) = Some (Idle 0).
Proof. by destruct resumed. Qed.

Lemma scrubbed_claimed rec resumed buildID new r :
  (rr_CancelRequested rec = true → Forall (fun a => ¬ acquires a) new ∧
     ∀ result, r = Ok result → r_Phase result = PhaseCanceled ∨ r_Phase result = PhaseQuarantined) →
  claimed_trace rec resumed buildID (scrubbed_trace resumed buildID ++ new) r.
Proof.
  intros Hc. split.
  - intros ->. exists true, new. done.
  - intros E. destruct (Hc E) as [Hf Hr]. split; [|done]. apply Forall_app. split; [|done].
    destruct resumed; repeat constructor. simpl. tauto.
Qed.

Lemma wp_resolve_and_run verified tr w0 w owner startedAt expiresAt attempt tr0 st :
  0 < c_maxAttempts c → good tr ∅ w0 w → moved tr0 st tr (Idle 0) →
  wp (resolve_and_run RS env c verified owner startedAt expiresAt attempt) (run_post verified w0 tr0 st) w.
Proof.
  intros Hmax Hg Hm. assert (Idle 0 = Stopped ∨ ∃ n, Idle 0 = Idle n ∧ n ≤ c_maxAttempts c) as Hst.
  { right. exists 0. split; [done|lia]. }
  apply wp_try. eapply wp_update; [done|]. intros r w1 Hg1.
  destruct r as [[]|e]; [|exists tr, (Idle 0); split_and!; done].
  apply wp_bind. eapply wp_emit; [done|]. intros w2 Hg2. apply wp_bind. eapply wp_tick; [done|]. intros n w3 Hg3 _.
  destruct (Assignment.Resolve verified (e_artifacts env n)) as [resolved|e] eqn:Hres.
  - eapply wp_attempts_loop; [|done..|lia|by apply attempts_from_increasing].
    by apply Assignment.Resolve_Ok in Hres as (_ & ? & _).
  - apply wp_bind. eapply wp_tick; [done|]. intros k w4 Hg4 _. destruct (bool_decide _).
    + apply wp_bind. eapply wp_emit; [done|]. intros w5 Hg5. apply wp_bind. eapply wp_clock; [done|]. intros t w6 Hg6 _.
      eapply wp_finish_run; [done..|]. split; simpl; try done; auto.
    + apply wp_bind. eapply wp_clock; [done|]. intros t w5 Hg5 _. apply wp_bind. eapply wp_emit; [done|]. intros w6 Hg6.
      eapply wp_finish_run; [done..|]. split; simpl; try done; auto.
Qed.

Lemma wp_scrub_stale tr sec w0 w buildID attempt Q :
  good tr sec w0 w →
  (∀ w', good (tr ++ [Scrubbed buildID true]) sec w0 w' → Q None w') →
  (∀ cleanup w', good (tr ++ [Scrubbed buildID false]) sec w0 w' → Q (Some cleanup) w') →
  wp (scrub_stale RS env buildID attempt) Q w.
Proof.
  intros Hg HT HF. apply wp_bind. eapply wp_emit; [done|]. intros w1 Hg1. apply wp_bind. eapply wp_tick; [done|].
  intros n w2 Hg2 _. destruct (e_cleanupBuild env n buildID) as [report ok]. apply wp_bind. eapply wp_record; [done|].
  intros w3 Hg3. apply wp_ret. destruct (ok && _); auto.
Qed.

Lemma wp_run_claimed verified tr w0 w owner now expiresAt rec resumed :
  0 < c_maxAttempts c → good tr ∅ w0 w →
  wp (run_claimed RS env c verified owner now expiresAt rec resumed) (claimed_post verified rec resumed w0 tr) w.
Proof.
  intros Hmax Hg. unfold run_claimed. apply wp_bind. eapply wp_emit; [done|]. intros w1 Hg1. apply wp_bind.
  set (buildID := Assignment.p_BuildID (Assignment.va_Payload verified)).
  set (startedAt := if IsZero _ then _ else _).
  assert (∀ w', good (tr ++ scrubbed_trace resumed buildID) ∅ w0 w' →
    wp (run_scrubbed RS env c verified owner startedAt expiresAt rec None) (claimed_post verified rec resumed w0 tr) w') as Hrest.
  { intros w' Hg'. unfold run_scrubbed. destruct (rr_CancelRequested rec) eqn:Hcan.
    - apply wp_bind. eapply wp_emit; [done|]. intros w2 Hg2. apply wp_bind. eapply wp_clock; [done|]. intros t w3 Hg3 _.
      eapply wp_finish_claimed; [done|apply scrubbed_session|right; exists 0; split; [done|lia]| |].
      + split; simpl; try done; auto.
      + intros logs. rewrite <- (app_nil_r (scrubbed_trace _ _)). apply scrubbed_claimed. intros _. split; [constructor|].
        intros result [= <-]. by left.
    - eapply wp_mono; [eapply (wp_resolve_and_run _ _ _ _ _ _ _ _ (tr ++ scrubbed_trace resumed buildID) (Idle 0)); [done..|apply moved_refl]|].
      intros r w2 (tr' & st' & Hg2 & (new & -> & Hs) & Hst & Hr).
      exists (scrubbed_trace resumed buildID ++ new), st'. rewrite <- app_assoc in *.
      split_and!; [done| |done|done|apply scrubbed_claimed; congruence].
      by rewrite session_run_app, scrubbed_session. }
  destruct resumed; [|apply wp_ret; apply Hrest; simpl; by rewrite app_nil_r].
  eapply wp_scrub_stale; [done|intros; by apply Hrest|]. intros cleanup w2 Hg2. unfold run_scrubbed.
  apply wp_bind. eapply wp_clock; [done|]. intros t w3 Hg3 _. apply wp_bind. eapply wp_emit; [done|]. intros w4 Hg4.
  eapply wp_finish_claimed; [done|done|by left| |].
  - split; simpl; try done; auto.
  - intros logs. split.
    + intros _. exists false, []. split; [done|]. intros _. split; [done|]. by intros result [= <-].
    + intros _. split; [repeat constructor; simpl; tauto|]. intros result [= <-]. by right.
Qed.

End Laws.

End ControllerLaws.
