(* ===== verification/ControllerRun.v ===== *)
(** * What a run of the build controller guarantees

    Theorems on [Controller.Run], for any replay store, run store and environment:
    leases and workers are given back whatever happens, results are durable,
    success is proven, resumption scrubs first, cancellation is honoured, and the
    logs digest identifies the events. *)

From S2P Require Import Prelude StateMonad Text GoStd GoTime Crypto Framing PlatformID Storage BuildIR LLBPolicy LLBAudit Replay Assignment BuildWorker RunStore RunStoreLaws RunHistory Controller ControllerLaws.
Import StateMonad GoStd GoTime Crypto Framing PlatformID Storage LLBPolicy BuildWorker RunStore RunStoreLaws RunHistory Controller ControllerLaws.

Open Scope Z_scope.

Module ControllerRun.

(** ** Counting calls *)

(** A lease to give back: [Acquire] succeeded or returned one with its error. *)
Definition takes_lease (a : action) : bool :=
  match a with Acquired _ lease ok => ok || negb (String.eqb (lease_ID lease) "") | _ => false end.
Definition gives_lease (a : action) : bool := match a with Revoked _ _ => true | _ => false end.
Definition takes_worker (a : action) : bool := match a with Allocated _ _ (Some _) => true | _ => false end.
Definition gives_worker (a : action) : bool := match a with Released _ _ => true | _ => false end.
Definition acquire (a : action) : bool := match a with Acquired _ _ _ => true | _ => false end.

Definition leases_held (st : session) : nat := match st with Idle _ | Stopped => 0 | _ => 1 end.
Definition workers_held (st : session) : nat := match st with Ready _ _ _ | Working _ _ _ => 1 | _ => 0 end.
Definition attempt_of (st : session) : Z :=
  match st with Idle n | Leased n _ | Ready n _ _ | Working n _ _ | Returned n _ => n | Stopped => 0 end.

Lemma advance_counts st a st' :
  advance st a = Some st' →
  ((if takes_lease a then 1 else 0) + leases_held st = (if gives_lease a then 1 else 0) + leases_held st')%nat ∧
  ((if takes_worker a then 1 else 0) + workers_held st = (if gives_worker a then 1 else 0) + workers_held st')%nat ∧
  (if acquire a then 1 else 0) + attempt_of st ≤ attempt_of st'.
Proof.
  intros Ha. unfold advance, keep in Ha.
  destruct st, a; try done; try (destruct (_ && _) eqn:Hk; [|done]); try (destruct (_ =? _) eqn:Hk; [|done]);
    try (destruct (_ <? _) eqn:Hk; [|done]); try (destruct (String.eqb _ _) eqn:Hk; [|done]);
    try (destruct (bool_decide _) eqn:Hk; [|done]); bsimpl;
    repeat (match goal with b : bool |- _ => destruct b | o : option string |- _ => destruct o end);
    simpl in *; try (destruct (String.eqb _ _)); simplify_eq/=; lia.
Qed.

(** A session balances what it takes and gives back, and its attempts increase. *)
Lemma session_counts st trace st' :
  session_run st trace = Some st' →
  (count takes_lease trace + leases_held st = count gives_lease trace + leases_held st')%nat ∧
  (count takes_worker trace + workers_held st = count gives_worker trace + workers_held st')%nat ∧
  Z.of_nat (count acquire trace) + attempt_of st ≤ attempt_of st'.
Proof.
  revert st. induction trace as [|a trace IH]; intros st Hr; simpl in Hr; [simplify_eq; unfold count; simpl; lia|].
  destruct (advance st a) as [st1|] eqn:Ha; [|done]. apply advance_counts in Ha as (? & ? & ?).
  destruct (IH _ Hr) as (? & ? & ?). rewrite !count_cons. destruct (acquire a); split_and!; lia.
Qed.

Lemma New_bounds options c : New options = Ok c → 1 ≤ c_maxAttempts c ≤ 5.
Proof.
  unfold New. destruct (opt_Verifier options); [|done]. destruct (negb _); [done|]. cbv zeta.
  destruct (_ || _) eqn:E; [done|]. intros [= <-]. simpl. bsimpl. lia.
Qed.

Lemma applyClaim_Replay r q r' : applyClaim r q = (ClaimReplay, r') → r' = r ∧ q_BuildID q = rr_BuildID r.
Proof. unfold applyClaim. intros Ha. repeat case_match; simplify_eq. bsimpl. done. Qed.

Section Run.
Context `{GoText} `{!Codec Assignment.Payload} `{!Codec DefinitionLock} `{!Codec ResolutionEvidence} `{!Ed25519} `{!LLBAudit.Buildkit} `{!LLBAudit.AuthorityCodecs}.
Context `{!Codec Event}.
Context {R REnv : Type} (RP : Replay.ReplayStore R REnv) {S SEnv : Type} (RS : RunStore S SEnv).
Context (env : Env REnv SEnv) (c : controller).

Abbreviation W := (World R S).

(** ** The whole run *)

(** What a run leaves and returns: its own result after the claim, a stored one
    marked as a replay, or an error. *)
Inductive run_ends (envelope : Assignment.Envelope) (w0 : W) (tr : list action) : Prelude.result Result → W → Prop :=
| ends_claimed verified rec resumed now r w' :
    Assignment.Verify (c_verifier c) now envelope = Ok verified →
    claimed_post RS env c verified rec resumed w0 tr r w' →
    run_ends envelope w0 tr r w'
| ends_replay rec w' :
    good RS env tr ∅ w0 w' → Terminal (rr_Result rec) = true →
    (env_sane env → stored RS w0 → ∃ m, holds (wd_runs w') m ∧ m !! rr_BuildID rec = Some rec) →
    run_ends envelope w0 tr (Ok (as_replay (rr_Result rec))) w'
| ends_error e w' : good RS env tr ∅ w0 w' → run_ends envelope w0 tr (Err e) w'.

Lemma wp_claim_and_run envelope verified now owner expiresAt tr w0 w :
  0 < c_maxAttempts c → Assignment.Verify (c_verifier c) now envelope = Ok verified → good RS env tr ∅ w0 w →
  wp (claim_and_run RS env c verified owner expiresAt) (run_ends envelope w0 tr) w.
Proof.
  intros Hmax Hv Hg. apply wp_bind. eapply wp_clock; [done|]. intros t w1 Hg1 Ht. apply wp_try.
  eapply wp_call_runs; [exact Ht|done|]. intros r w2 Hg2 Hr. destruct r as [a|e]; [|by apply ends_error].
  destruct a as [outcome rec| |accepted]; [|by apply wp_ret, ends_error..].
  destruct outcome; try (by apply wp_ret, ends_error).
  - eapply wp_mono; [by eapply wp_run_claimed|]. intros r w3 Hp. by eapply ends_claimed.
  - eapply wp_mono; [by eapply wp_run_claimed|]. intros r w3 Hp. by eapply ends_claimed.
  - destruct (Terminal (rr_Result rec)) eqn:HT; cbn [negb]; [|by apply wp_ret, ends_error].
    apply wp_ret. apply ends_replay; [done..|]. intros Hsane Hw0.
    destruct (Hr _ eq_refl Hsane Hw0) as (m & wr & Hval & Hd & Hh). simpl in Hd. destruct (is_err _); [done|].
    destruct (m !! _) as [existing|] eqn:Hm; [|done]. destruct (applyClaim _ _) as [outcome r'] eqn:Ha.
    assert (outcome = ClaimReplay ∧ r' = rec) as [-> ->] by (by injection Hd).
    apply applyClaim_Replay in Ha as [-> Hid]. simplify_eq/=. exists m. by rewrite <- Hid.
Qed.

(** A run ends with an error before the claim, or reaches it. *)
Lemma wp_Run_claim envelope tr w0 w Q :
  good RS env tr ∅ w0 w → (∀ e w', good RS env tr ∅ w0 w' → Q (Err e) w') →
  (∀ verified now owner expiresAt w', Assignment.Verify (c_verifier c) now envelope = Ok verified → good RS env tr ∅ w0 w' →
     wp (claim_and_run RS env c verified owner expiresAt) Q w') →
  wp (Run RP RS env c envelope) Q w.
Proof.
  intros Hg Herr Hclaim. unfold Run. apply wp_bind. eapply wp_tick; [done|]. intros n w1 Hg1 _.
  destruct (e_ctx env n); [by apply wp_ret, Herr|].
  apply wp_bind. eapply wp_clock; [done|]. intros t1 w2 Hg2 _.
  destruct (Assignment.Verify (c_verifier c) t1 envelope) as [verified|e] eqn:Hv; [|by apply wp_ret, Herr].
  destruct (ParseRFC3339 _) as [expiresAt|]; [|by apply wp_ret, Herr].
  apply wp_try. apply wp_bind. eapply wp_tick; [done|]. intros k w3 Hg3 _. unfold wp at 1, state.
  destruct (Replay.reserve _ _ _) as [replay o]. cbn [fst snd].
  assert (good RS env tr ∅ w0 (set_replay replay w3)) as Hg4 by (destruct Hg3; by split). clear Hg3.
  destruct o as [[]|e]; try (by apply Herr); try (by apply wp_ret, Herr);
    (apply wp_bind; eapply wp_tick; [done|]; intros j w4 Hg5 _; destruct (e_owner env j) as [owner|]; [|by apply wp_ret, Herr];
     destruct (String.eqb owner ""); [by apply wp_ret, Herr|by eapply Hclaim]).
Qed.

Lemma wp_Run envelope tr w0 w :
  0 < c_maxAttempts c → good RS env tr ∅ w0 w → wp (Run RP RS env c envelope) (run_ends envelope w0 tr) w.
Proof. intros Hmax Hg. eapply wp_Run_claim; [done|by constructor|]. intros. by eapply wp_claim_and_run. Qed.

(** ** A canceled run *)

(** Nothing was acquired since [tr], and the result is not a success of this run. *)
Definition held_back (w0 : W) (tr : list action) (r : Prelude.result Result) (w' : W) : Prop :=
  ∃ new, good RS env (tr ++ new) ∅ w0 w' ∧ Forall (fun a => ¬ acquires a) new ∧
    ∀ result, r = Ok result → r_Replay result = false → r_Phase result ≠ PhaseComplete.

Lemma held_back_here w0 tr r w' :
  good RS env tr ∅ w0 w' → (∀ result, r = Ok result → r_Replay result = false → r_Phase result ≠ PhaseComplete) → held_back w0 tr r w'.
Proof. intros Hg Hr. exists []. rewrite app_nil_r. split_and!; [done|constructor|done]. Qed.

Lemma wp_finish_held w0 tr w owner result :
  good RS env tr ∅ w0 w → r_Phase result ≠ PhaseComplete → wp (finishResult RS env owner result) (held_back w0 tr) w.
Proof.
  intros Hg Hp. eapply wp_finishResult; [done|]. intros r w' Hg' Hr. apply held_back_here; [done|].
  intros result' -> _. destruct (Hr _ eq_refl) as (logs & -> & _). done.
Qed.

Lemma wp_resolve_canceled w0 tr w verified owner startedAt expiresAt attempt :
  (∀ n, e_cancellation env n = true) → good RS env tr ∅ w0 w →
  wp (resolve_and_run RS env c verified owner startedAt expiresAt attempt) (held_back w0 tr) w.
Proof.
  intros Hcan Hg. apply wp_try. eapply wp_update; [done|]. intros r w1 Hg1. destruct r as [[]|e]; [|by apply held_back_here].
  apply wp_bind. eapply wp_emit; [done|]. intros w2 Hg2. apply wp_bind. eapply wp_tick; [done|]. intros n w3 Hg3 _.
  destruct (Assignment.Resolve _ _) as [resolved|e].
  - destruct (attempts_from c attempt) as [|a attempts]; cbn [attempts_loop].
    + apply wp_bind. eapply wp_clock; [done|]. intros t w4 Hg4 _. by apply wp_finish_held.
    + apply wp_try. unfold runAttempt, stop_requested. apply wp_bind. apply wp_bind. eapply wp_tick; [done|]. intros k w4 Hg4 _.
      apply wp_ret. rewrite Hcan, orb_true_r. unfold canceled_now. apply wp_bind. eapply wp_clock; [done|].
      intros t w5 Hg5 _. apply wp_ret. by apply wp_finish_held.
  - apply wp_bind. eapply wp_tick; [done|]. intros k w4 Hg4 _. destruct (bool_decide _).
    + apply wp_bind. eapply wp_emit; [done|]. intros w5 Hg5. apply wp_bind. eapply wp_clock; [done|]. intros t w6 Hg6 _.
      by apply wp_finish_held.
    + apply wp_bind. eapply wp_clock; [done|]. intros t w5 Hg5 _. apply wp_bind. eapply wp_emit; [done|]. intros w6 Hg6.
      by apply wp_finish_held.
Qed.

Lemma wp_claimed_canceled w0 tr w verified owner now expiresAt rec resumed :
  (∀ n, e_cancellation env n = true) → good RS env tr ∅ w0 w →
  wp (run_claimed RS env c verified owner now expiresAt rec resumed) (held_back w0 tr) w.
Proof.
  intros Hcan Hg. unfold run_claimed. apply wp_bind. eapply wp_emit; [done|]. intros w1 Hg1. apply wp_bind.
  assert (∀ new w' r, Forall (fun a => ¬ acquires a) new → held_back w0 (tr ++ new) r w' → held_back w0 tr r w') as Hadd.
  { intros new w' r Hf (new' & Hg' & Hf' & Hr). exists (new ++ new'). rewrite app_assoc. split_and!; [done| |done]. by apply Forall_app. }
  assert (∀ new w' startedAt, good RS env (tr ++ new) ∅ w0 w' → Forall (fun a => ¬ acquires a) new →
    wp (run_scrubbed RS env c verified owner startedAt expiresAt rec None) (held_back w0 tr) w') as Hrest.
  { intros new w' startedAt Hg' Hf. eapply wp_mono; [|intros r w2; by apply Hadd]. unfold run_scrubbed.
    destruct (rr_CancelRequested rec); [|by apply wp_resolve_canceled]. apply wp_bind. eapply wp_emit; [done|]. intros w2 Hg2.
    apply wp_bind. eapply wp_clock; [done|]. intros t w3 Hg3 _. by apply wp_finish_held. }
  destruct resumed; [|apply wp_ret; apply (Hrest []); [by rewrite app_nil_r|constructor]].
  eapply wp_scrub_stale; [done|intros w2 Hg2; eapply Hrest; [done|repeat constructor; by intros []]|].
  intros cleanup w2 Hg2. eapply wp_mono; [|intros r w'; apply (Hadd [Scrubbed (Assignment.p_BuildID (Assignment.va_Payload verified)) false]); repeat constructor; by intros []].
  unfold run_scrubbed. apply wp_bind. eapply wp_clock; [done|]. intros t w3 Hg3 _. apply wp_bind. eapply wp_emit; [done|].
  intros w4 Hg4. by apply wp_finish_held.
Qed.

Lemma wp_Run_canceled envelope w0 tr w :
  (∀ n, e_cancellation env n = true) → good RS env tr ∅ w0 w → wp (Run RP RS env c envelope) (held_back w0 tr) w.
Proof.
  intros Hcan Hg. eapply wp_Run_claim; [done|intros; by apply held_back_here|]. intros verified now owner expiresAt w1 _ Hg1.
  apply wp_bind. eapply wp_clock; [done|]. intros t w2 Hg2 Ht. apply wp_try. eapply wp_call_runs; [exact Ht|done|].
  intros r w3 Hg3 _. destruct r as [[[] rec| |]|]; try (by apply held_back_here); try (by apply wp_ret, held_back_here);
    try (by apply wp_claimed_canceled).
  destruct (Terminal _); apply wp_ret; apply held_back_here; try done. by intros result [= <-].
Qed.

(** ** Theorems *)

Lemma run_ends_Run envelope w w' r :
  0 < c_maxAttempts c → wd_secrets w = ∅ → Run RP RS env c envelope w = (w', r) → run_ends envelope w (wd_trace w) r w'.
Proof.
  intros Hmax Hsec Hrun. assert (good RS env (wd_trace w) ∅ w w) as Hg by by split.
  pose proof (wp_Run envelope (wd_trace w) w w Hmax Hg) as Hwp. unfold wp in Hwp. by rewrite Hrun in Hwp.
Qed.

(** C2: The controller gives back what it takes.  However a run ends, for any
    stores, faults and answers of the broker, allocator and worker: every lease
    acquired is revoked, every worker allocated is released, at most [maxAttempts]
    leases are asked for, the lease's secrets are wiped, and the calls follow the
    protocol: one lease at a time, one worker under it, released before the lease
    is revoked, with increasing attempts. *)
Theorem run_gives_back options envelope w w' r :
  New options = Ok c → wd_trace w = [] → wd_secrets w = ∅ → Run RP RS env c envelope w = (w', r) →
  count takes_lease (wd_trace w') = count gives_lease (wd_trace w') ∧
  count takes_worker (wd_trace w') = count gives_worker (wd_trace w') ∧
  Z.of_nat (count acquire (wd_trace w')) ≤ c_maxAttempts c ∧ wd_secrets w' = ∅ ∧
  ∃ st, session_run (Idle 0) (wd_trace w') = Some st ∧ (st = Stopped ∨ ∃ n, st = Idle n ∧ n ≤ c_maxAttempts c).
Proof.
  intros Hnew Htr Hsec Hrun. pose proof (New_bounds _ _ Hnew) as Hmax. apply run_ends_Run in Hrun; [|lia|done].
  assert (∃ st, session_run (Idle 0) (wd_trace w') = Some st ∧ (st = Stopped ∨ ∃ n, st = Idle n ∧ n ≤ c_maxAttempts c) ∧
    wd_secrets w' = ∅) as (st & Hst & Hfin & Hs).
  { rewrite Htr in Hrun. destruct Hrun as [verified rec resumed now r w' _ (new & st & [Ht Hs _] & Hst & Hfin & _)
      |rec w' [Ht Hs _]|e w' [Ht Hs _]].
    - exists st. by rewrite Ht.
    - exists (Idle 0). rewrite Ht. split_and!; [done| |done]. right. exists 0. split; [done|lia].
    - exists (Idle 0). rewrite Ht. split_and!; [done| |done]. right. exists 0. split; [done|lia]. }
  destruct (session_counts _ _ _ Hst) as (Hl & Hw & Ha). simpl in *.
  assert (attempt_of st ≤ c_maxAttempts c ∧ leases_held st = 0%nat ∧ workers_held st = 0%nat) as (? & ? & ?).
  { destruct Hfin as [->|(n & -> & Hn)]; simpl; split_and!; lia. }
  split_and!; try lia; [done|eauto].
Qed.

(** C5: Results are durable before they are returned.  A result [Run] returns is,
    at that moment, the terminal result the run store holds for the build, or that
    result marked as a replay. *)
Theorem run_result_durable options envelope w w' result :
  New options = Ok c → env_sane env → stored RS w → wd_secrets w = ∅ → Run RP RS env c envelope w = (w', Ok result) →
  ∃ m rec, holds (wd_runs w') m ∧ m !! r_BuildID result = Some rec ∧ Terminal (rr_Result rec) = true ∧
    (result = rr_Result rec ∨ result = as_replay (rr_Result rec)).
Proof.
  intros Hnew Hsane Hst Hsec Hrun. pose proof (New_bounds _ _ Hnew) as Hmax. apply run_ends_Run in Hrun; [|lia|done].
  inversion Hrun as [verified rec resumed now r ? _ (new & st & _ & _ & _ & Hr & _) Er|rec ? Hg HT Hm Er|]; subst.
  - destruct (Hr _ eq_refl) as [_ Hd]. destruct (Hd Hsane Hst) as (m & rec' & Hh & Hl & Hres & HT).
    exists m, rec'. rewrite Hres. auto.
  - destruct (Hm Hsane Hst) as (m & Hh & Hl). exists m, rec. split_and!; [done| |done|by right]. simpl.
    pose proof (holds_valid _ _ Hh _ _ Hl) as [_ Hv]. apply validateRunRecord_Ok in Hv as [Hid _].
    assert (r_BuildID (rr_Result rec) = rr_BuildID rec) as -> by naive_solver. done.
Qed.

(** What a proven output says of the signed one. *)
Definition output_proven (lock : DefinitionLock) (output : OutputResult) (signed : Assignment.OutputArtifact) : Prop :=
  o_Name output = Assignment.oa_Name signed ∧ o_Kind output = Assignment.oa_Kind signed ∧
  o_ConfigDigest output = Assignment.oa_ConfigDigest signed ∧ is_digest (o_ArtifactDigest output) = true ∧
  sc_PolicyDigest (o_SupplyChain output) = dl_PolicyDigest lock ∧
  sc_SignerKeyID (o_SupplyChain output) = SignerKeyID (dl_SupplyChain lock) ∧
  sc_SignerPublicKeyDigest (o_SupplyChain output) ∈ AllowedSignerPublicKeyDigests (dl_SupplyChain lock).

Lemma check_successful_proven lock outputs expected signed :
  Forall2 Assignment.output_intact signed expected → length outputs = length expected →
  check_successful lock outputs expected signed = true → Forall2 (output_proven lock) outputs signed.
Proof.
  intros Hf. revert outputs. induction Hf as [|s e signed expected (Hn & Hk & _) _ IH]; intros [|o outputs] Hl Hc; try done.
  simpl in Hc. unfold validSupplyChainIdentity in Hc. bsimpl. constructor; [|by apply IH; [simpl in Hl; lia|]].
  unfold output_proven. rewrite <- Hn, <- Hk. split_and!; congruence || done.
Qed.

(** C1: Success is proven.  A run that returns Complete (not as a replay) has
    verified the assignment, resolved its artifacts, released its worker and
    revoked its lease; every cleanup report proves the resources gone; and the
    worker's outputs are, one by one, the signed ones, with evidence under the
    signed policy by an allowed signer. *)
Theorem run_success_proven options envelope w w' result :
  New options = Ok c → wd_secrets w = ∅ → Run RP RS env c envelope w = (w', Ok result) →
  r_Replay result = false → r_Phase result = PhaseComplete →
  ∃ now verified, Assignment.Verify (c_verifier c) now envelope = Ok verified ∧
    let payload := Assignment.va_Payload verified in
    r_BuildID result = Assignment.p_BuildID payload ∧ r_PayloadDigest result = Assignment.va_PayloadDigest verified ∧
    cleanupProvenClean (r_Cleanup result) = true ∧ r_Attempts result ≤ c_maxAttempts c ∧
    Forall2 (output_proven (Assignment.p_Lock payload)) (w_Outputs (r_Worker result)) (Assignment.p_Outputs payload) ∧
    ∃ before lease, wd_trace w' = before ++ [Released (r_WorkerIdentity result) true; Revoked lease true].
Proof.
  intros Hnew Hsec Hrun Hrep Hph. pose proof (New_bounds _ _ Hnew) as Hmax. apply run_ends_Run in Hrun; [|lia|done].
  inversion Hrun as [verified rec resumed now r ? Hv (new & st & [Htr _ _] & _ & _ & Hr & _) Er|rec ? Hg HT Hm Er|]; subst; [|done].
  destruct (Hr _ eq_refl) as [[(Hb & Hd & _) Hclean _ Hcomp] _]. destruct (Hcomp Hph) as (Ha & _ & _ & (tr0 & lease & Ht) & store & resolved & Hres & Hval).
  exists now, verified. split; [done|]. split_and!; [done..| |done| |].
  - apply Hclean. by rewrite Hph.
  - apply Assignment.Resolve_Ok in Hres as (_ & Hver & _ & Hf & _). unfold validateSuccessfulResult in Hval. rewrite Hver in Hval. bsimpl.
    by eapply check_successful_proven.
  - exists tr0, lease. by rewrite Htr.
Qed.

(** C32: A resumed run scrubs first, and a canceled one does not build.  When the
    claim resumed a run, the first call scrubs what it left, and unless that is
    proven nothing else is called and the result is a quarantine; when the record
    carries a cancellation no lease is acquired and the result is canceled or
    quarantined. *)
Theorem resumed_and_canceled_runs options verified owner now expiresAt rec resumed (w w' : W) r :
  New options = Ok c → wd_secrets w = ∅ → run_claimed RS env c verified owner now expiresAt rec resumed w = (w', r) →
  ∃ new, wd_trace w' = wd_trace w ++ new ∧
    claimed_trace rec resumed (Assignment.p_BuildID (Assignment.va_Payload verified)) new r.
Proof.
  intros Hnew Hsec Hrun. pose proof (New_bounds _ _ Hnew) as Hmax. assert (good RS env (wd_trace w) ∅ w w) as Hg by by split.
  pose proof (wp_run_claimed RS env c verified (wd_trace w) w w owner now expiresAt rec resumed ltac:(lia) Hg) as Hwp.
  unfold wp in Hwp. rewrite Hrun in Hwp. destruct Hwp as (new & st & [Ht _ _] & _ & _ & _ & Hct). eauto.
Qed.

(** A canceled run acquires nothing.  When cancellation is requested before the
    run starts, no lease and no worker is ever asked for, and the run does not
    return a success of its own. *)
Theorem canceled_run_held_back envelope w w' r :
  (∀ n, e_cancellation env n = true) → wd_trace w = [] → wd_secrets w = ∅ → Run RP RS env c envelope w = (w', r) →
  count acquire (wd_trace w') = 0%nat ∧ (∀ result, r = Ok result → r_Replay result = false → r_Phase result ≠ PhaseComplete).
Proof.
  intros Hcan Htr Hsec Hrun. assert (good RS env [] ∅ w w) as Hg by by split.
  pose proof (wp_Run_canceled envelope w [] w Hcan Hg) as Hwp. unfold wp in Hwp. rewrite Hrun in Hwp.
  destruct Hwp as (new & [Ht _ _] & Hf & Hr). split; [|done]. simpl in Ht. rewrite Ht. clear -Hf.
  induction Hf as [|a new Ha _ IH]; [done|]. rewrite count_cons, IH. by destruct a.
Qed.

End Run.

(** ** The logs digest *)

Section Logs.
Context `{!Codec Event}.

(** The emitter after events, each with the clock when it is emitted. *)
Definition emitted (calls : list (Time * Event)) : eventEmitter :=
  fold_left (fun emitter call => emit_event call.1 call.2 emitter) calls newEventEmitter.

Lemma emitted_snoc calls call : emitted (calls ++ [call]) = emit_event call.1 call.2 (emitted calls).
Proof. unfold emitted. by rewrite fold_left_app. Qed.

(** The transcript frames what the sink received, numbered from 1. *)
Lemma emitted_spec calls :
  let em := emitted calls in
  em_sequence em = Z.of_nat (length calls) mod 2 ^ 64 ∧ length (em_sink em) = length calls ∧
  (∀ i event, em_sink em !! i = Some event → evt_Sequence event = (Z.of_nat i + 1) mod 2 ^ 64) ∧
  (em_digestErr em = false → ∃ encs, Forall2 (fun event enc => marshal event = Some enc) (em_sink em) encs ∧ em_transcript em = frames encs).
Proof.
  simpl. induction calls as [|call calls (IHn & IHl & IHs & IHt)] using rev_ind.
  { split_and!; try done. intros _. by exists []. }
  rewrite emitted_snoc, length_app. simpl. unfold emit_event.
  set (em := emitted calls) in *. set (event := stamped _ _ _).
  assert ((em_sequence em + 1) mod 2 ^ 64 = (Z.of_nat (length calls) + 1) mod 2 ^ 64) as Hseq
    by (rewrite IHn, Z.add_mod_idemp_l by lia; done).
  assert (∀ i e, (em_sink em ++ [event]) !! i = Some e → evt_Sequence e = (Z.of_nat i + 1) mod 2 ^ 64) as Hs.
  { intros i e Hi. apply lookup_app_Some in Hi as [Hi|[Hle Hi]]; [eauto|]. apply list_lookup_singleton_Some in Hi as [E <-].
    simpl. rewrite Hseq. do 2 f_equal. lia. }
  rewrite Nat2Z.inj_add. simpl.
  destruct (marshal event) as [encoded|] eqn:Hm; simpl; rewrite length_app; simpl; split_and!; try done; try lia.
  intros Herr. destruct (IHt Herr) as (encs & Hf & Ht). exists (encs ++ [encoded]). split; [by apply Forall2_app; [|constructor]|].
  rewrite frames_app, Ht. simpl. by rewrite str_app_nil_r.
Qed.

(** The logs digest identifies the events.  The sink receives the events
    numbered without gaps from 1; and two runs with the same logs digest delivered
    the same events, unless SHA-256 collides on their transcripts. *)
Theorem logs_identify_events calls1 calls2 logs :
  digest (emitted calls1) = Ok logs → digest (emitted calls2) = Ok logs →
  (∀ event enc, event ∈ em_sink (emitted calls1) ++ em_sink (emitted calls2) → marshal event = Some enc → len enc < 2 ^ 63) →
  (∀ i event, em_sink (emitted calls1) !! i = Some event → evt_Sequence event = (Z.of_nat i + 1) mod 2 ^ 64) ∧
  (em_sink (emitted calls1) = em_sink (emitted calls2) ∨ collide (em_transcript (emitted calls2)) (em_transcript (emitted calls1))).
Proof.
  intros D1 D2 Hlen. destruct (emitted_spec calls1) as (_ & _ & Hs & T1), (emitted_spec calls2) as (_ & _ & _ & T2).
  unfold digest in *. destruct (em_digestErr (emitted calls1)); [done|]. destruct (em_digestErr (emitted calls2)); [done|].
  destruct (T1 eq_refl) as (e1 & F1 & E1), (T2 eq_refl) as (e2 & F2 & E2). split; [done|].
  rewrite <- D1 in D2. assert (bytesDigest (em_transcript (emitted calls2)) = bytesDigest (em_transcript (emitted calls1))) as D by congruence.
  apply bytesDigest_same in D as [Heq|]; [left|by right].
  rewrite E1, E2 in Heq. symmetry in Heq. eapply framed_values; eauto; intros event enc Hin; apply Hlen, elem_of_app; auto.
Qed.

End Logs.

(** ** Samples *)

Definition sample_options : Options :=
  {| opt_Verifier := Some Assignment.sample_verifier; opt_dependencies := true; opt_MaxAttempts := 0; opt_LeaseTTL := 0;
     opt_CancelGrace := 0; opt_ForceTimeout := 0; opt_ReleaseTimeout := 0; opt_RevokeTimeout := 0; opt_RetryDelay := None |}.

Definition sample_controller : controller :=
  {| c_verifier := Assignment.sample_verifier; c_maxAttempts := 3; c_leaseTTL := DefaultLeaseTTL;
     c_cancelGrace := DefaultCancelGrace; c_forceTimeout := DefaultForceTimeout; c_releaseTimeout := DefaultReleaseTimeout;
     c_revokeTimeout := DefaultRevokeTimeout; c_retryDelay := fun attempt => Z.shiftl 1 (Z.min attempt 5) * Second |}.

Definition sample_build : string := Assignment.sample_id "bld".

Definition sample_lease : CapabilityLease :=
  {| lease_ID := "lease-1"; lease_ExpiresAt := Assignment.sample_now + Minute; lease_Secrets := ∅;
     lease_Network := dl_Network Assignment.sample_lock; lease_Caches := [] |}.

Definition sample_evidence (kind : string) (c : ascii) : EvidenceReference :=
  {| ev_Kind := kind; ev_Reference := "registry/web@" +:+ sample_digest c; ev_ManifestDigest := sample_digest c;
     ev_PayloadDigest := sample_digest c |}.

Definition sample_web : OutputResult :=
  {| o_Name := "web"; o_Kind := "oci_image"; o_ArtifactRef := "registry/web@" +:+ sample_digest "a";
     o_ArtifactPath := ""; o_ArtifactDigest := sample_digest "a"; o_ArtifactSize := 10;
     o_ConfigDigest := Assignment.config_digest; o_ManifestDigest := sample_digest "c"; o_PublicationManifestRef := "";
     o_LayerDigests := [sample_digest "d"]; o_ExporterResponse := ∅;
     o_SupplyChain := {| sc_PolicyState := "accepted"; sc_ScanState := "passed"; sc_PolicyDigest := sample_digest "b";
       sc_SignerKeyID := "lrail-build-evidence"; sc_SignerKeyVersion := 1; sc_SignerPublicKeyDigest := sample_digest "c";
       sc_Evidence := [sample_evidence "signature" "1"; sample_evidence "sbom" "2"; sample_evidence "provenance" "3";
                       sample_evidence "vulnerability_scan" "4"; sample_evidence "policy_decision" "5"] |} |}.

Definition sample_worker_result : WorkerResult :=
  {| w_BuildID := sample_build; w_Attempt := 1; w_Phase := PhaseComplete; w_Outputs := [sample_web];
     w_StartedAt := Assignment.sample_now; w_FinishedAt := Assignment.sample_now; w_ErrorCode := ""; w_LogsDigest := sample_digest "b";
     w_Cache := {| Hits := 0; Misses := 0 |}; w_Cleanup := noResourceCleanup sample_build |}.

(** An environment where everything answers; the worker takes two heartbeats. *)
Definition sample_env (canceled : bool) : Env (Ctx * Time) Ctx :=
  {| e_clock := fun _ => Assignment.sample_now; e_ctx := fun _ => None; e_runContext := fun _ => None;
     e_cancellation := fun _ => canceled; e_owner := fun _ => Ok "owner-1"; e_replay := fun _ => (None, Assignment.sample_now);
     e_runs := fun _ => None; e_others := fun _ => []; e_events := fun _ => [];
     e_artifacts := fun _ => Assignment.sample_store; e_acquire := fun _ _ _ => (sample_lease, true);
     e_revoke := fun _ _ => true; e_allocate := fun _ _ => inl "pod-1";
     e_cleanupBuild := fun _ _ => (noResourceCleanup sample_build, true); e_heartbeats := fun _ => 2%nat;
     e_arm := fun _ => ArmDone; e_execute := fun _ => (sample_worker_result, true); e_done_first := fun _ => true;
     e_force := fun _ => (noResourceCleanup sample_build, true); e_release := fun _ => (noResourceCleanup sample_build, true);
     e_timer_first := fun _ => true |}.

Definition sample_world : World Replay.tables (gmap string RunRecord) :=
  {| wd_replay := Replay.empty_tables; wd_runs := ∅; wd_step := 0; wd_emitter := newEventEmitter;
     wd_secrets := ∅; wd_trace := [] |}.

(** The sample run with a codec for events. *)
Definition sample_run_with (codec : Codec Event) (canceled : bool) : World Replay.tables (gmap string RunRecord) * Prelude.result Result :=
  @Run plain_text Assignment.payload_codec Assignment.lock_codec Assignment.no_evidence toy_ed25519 LLBAudit.toy_buildkit LLBAudit.toy_authorities codec
    _ _ (@Replay.memory_store plain_text 100) _ _ (@memory_run_store plain_text) (sample_env canceled) sample_controller
    Assignment.sample_envelope sample_world.

(** The events of the run, whatever the codec, and the codec that knows them. *)
Definition sample_events (canceled : bool) : list Event :=
  em_sink (wd_emitter (sample_run_with (list_codec []) canceled).1).
Definition built_events : list Event := Eval vm_compute in sample_events false.
Definition canceled_events : list Event := Eval vm_compute in sample_events true.
Definition sample_codec (canceled : bool) : Codec Event := list_codec (if canceled then canceled_events else built_events).

Definition sample_final (canceled : bool) : World Replay.tables (gmap string RunRecord) := (sample_run_with (sample_codec canceled) canceled).1.

Definition sample_result : Result :=
  match (sample_run_with (sample_codec false) false).2 with
  | Ok result => result
  | Err _ => failedResult Assignment.sample_verified 0 0 0 ""
  end.

Lemma sample_sane canceled : env_sane (sample_env canceled).
Proof. split; [|intros; constructor]. intros n. apply Z.ltb_lt. vm_compute. reflexivity. Qed.

Lemma sample_returned : (sample_run_with (sample_codec false) false).2 = Ok sample_result.
Proof. vm_compute. reflexivity. Qed.

Lemma sample_answer : sample_run_with (sample_codec false) false = (sample_final false, Ok sample_result).
Proof. unfold sample_final. rewrite <- sample_returned. apply surjective_pairing. Qed.

Lemma run_gives_back_witness :
  count takes_worker (wd_trace (sample_final false)) = count gives_worker (wd_trace (sample_final false)) ∧
  count takes_worker (wd_trace (sample_final false)) = 1%nat ∧ wd_secrets (sample_final false) = ∅.
Proof.
  destruct (@run_gives_back plain_text Assignment.payload_codec Assignment.lock_codec Assignment.no_evidence toy_ed25519 LLBAudit.toy_buildkit LLBAudit.toy_authorities
    (sample_codec false) _ _ (@Replay.memory_store plain_text 100) _ _ (@memory_run_store plain_text) (sample_env false) sample_controller
    sample_options Assignment.sample_envelope sample_world (sample_final false) (Ok sample_result)) as (_ & Hw & _ & Hs & _);
    [reflexivity..|exact sample_answer|].
  split; [exact Hw|]. split; [vm_compute; reflexivity|exact Hs].
Defined.

Lemma run_result_durable_witness :
  ∃ m rec, holds (RunStore := @memory_run_store plain_text) (wd_runs (sample_final false)) m ∧ m !! r_BuildID sample_result = Some rec ∧
    Terminal (rr_Result rec) = true ∧ (sample_result = rr_Result rec ∨ sample_result = as_replay (rr_Result rec)).
Proof.
  apply (@run_result_durable plain_text Assignment.payload_codec Assignment.lock_codec Assignment.no_evidence toy_ed25519 LLBAudit.toy_buildkit LLBAudit.toy_authorities
    (sample_codec false) _ _ (@Replay.memory_store plain_text 100) _ _ (@memory_run_store plain_text) (sample_env false) sample_controller
    sample_options Assignment.sample_envelope sample_world).
  - reflexivity.
  - apply sample_sane.
  - exists ∅. split; [reflexivity|]. intros k r Hk. by rewrite lookup_empty in Hk.
  - reflexivity.
  - exact sample_answer.
Defined.

Lemma run_success_proven_witness :
  cleanupProvenClean (r_Cleanup sample_result) = true ∧
  ∃ before lease, wd_trace (sample_final false) = before ++ [Released (r_WorkerIdentity sample_result) true; Revoked lease true].
Proof.
  destruct (@run_success_proven plain_text Assignment.payload_codec Assignment.lock_codec Assignment.no_evidence toy_ed25519 LLBAudit.toy_buildkit LLBAudit.toy_authorities
    (sample_codec false) _ _ (@Replay.memory_store plain_text 100) _ _ (@memory_run_store plain_text) (sample_env false) sample_controller
    sample_options Assignment.sample_envelope sample_world (sample_final false) sample_result)
    as (now & verified & _ & _ & _ & Hc & _ & _ & Ht); [reflexivity|reflexivity|exact sample_answer|vm_compute; reflexivity..|].
  split; [exact Hc|exact Ht].
Defined.

(** The run the resumed claim continues, with a cancellation in its record. *)
Definition canceled_record : RunRecord := cancelled (RunHistory.sample_record) Assignment.sample_now.

Definition sample_resumed : World Replay.tables (gmap string RunRecord) * Prelude.result Result :=
  @run_claimed plain_text Assignment.payload_codec LLBAudit.toy_buildkit LLBAudit.toy_authorities (sample_codec false) Replay.tables _ _ _ (@memory_run_store plain_text)
    (sample_env false) sample_controller Assignment.sample_verified "owner-1" Assignment.sample_now (Assignment.sample_now + Hour)
    canceled_record true sample_world.

Lemma resumed_and_canceled_runs_witness :
  ∃ new, wd_trace sample_resumed.1 = wd_trace sample_world ++ new ∧
    claimed_trace canceled_record true sample_build new sample_resumed.2.
Proof.
  apply (@resumed_and_canceled_runs plain_text Assignment.payload_codec LLBAudit.toy_buildkit LLBAudit.toy_authorities (sample_codec false) Replay.tables _ _ _ (@memory_run_store plain_text)
    (sample_env false) sample_controller sample_options Assignment.sample_verified "owner-1" Assignment.sample_now (Assignment.sample_now + Hour)
    canceled_record true sample_world sample_resumed.1 sample_resumed.2).
  - reflexivity.
  - reflexivity.
  - etransitivity; [|exact (surjective_pairing sample_resumed)]. unfold sample_resumed. reflexivity.
Defined.

Lemma canceled_run_held_back_witness :
  count acquire (wd_trace (sample_final true)) = 0%nat.
Proof.
  apply (@canceled_run_held_back plain_text Assignment.payload_codec Assignment.lock_codec Assignment.no_evidence toy_ed25519 LLBAudit.toy_buildkit LLBAudit.toy_authorities
    (sample_codec true) _ _ (@Replay.memory_store plain_text 100) _ _ (@memory_run_store plain_text) (sample_env true) sample_controller
    Assignment.sample_envelope sample_world (sample_final true) (sample_run_with (sample_codec true) true).2); [intros; reflexivity|reflexivity|reflexivity|].
  etransitivity; [|exact (surjective_pairing (sample_run_with (sample_codec true) true))].
  unfold sample_run_with at 1. reflexivity.
Defined.

Definition sample_call : Time * Event := (Assignment.sample_now, phase_event PhaseAccepted 0 "accepted" Assignment.sample_now).

Lemma logs_identify_events_witness :
  let codec := single_codec (stamped sample_call.2 1 Assignment.sample_now) in
  em_sink (@emitted codec [sample_call]) !! 0%nat = Some (stamped sample_call.2 1 Assignment.sample_now) ∧
  evt_Sequence (stamped sample_call.2 1 Assignment.sample_now) = (Z.of_nat 0 + 1) mod 2 ^ 64.
Proof.
  intros codec. split; [vm_compute; reflexivity|].
  eapply (@logs_identify_events codec [sample_call] [sample_call] (bytesDigest (frame "json"))).
  4: vm_compute; reflexivity.
  - vm_compute. reflexivity.
  - vm_compute. reflexivity.
  - intros event enc _ Hm. unfold codec in Hm. simpl in Hm. destruct (decide _); [|done]. injection Hm as <-. vm_compute. reflexivity.
Defined.

End ControllerRun.
