(* ===== verification/Meter.v ===== *)
(** * Usage metering (services/telemetry/internal/meter/meter.go)

    Sources report usage as signed facts, numbered per source and epoch.  [Ingest]
    verifies a batch and hands it to the journal, which keeps each number once: a fact
    that is delivered again counts as a duplicate, a number that is used for another
    fact refuses the whole batch.  After every batch the journal knows, for each
    source, up to which number it is complete and which numbers are missing. *)

From S2P Require Import Prelude Text GoStd Crypto Base64 PlatformID Storage.
Import GoStd Crypto Base64 PlatformID Storage.

Open Scope Z_scope.

Module Meter.

Definition MaxBatchFacts : Z := 1000.
Definition MaxFactWindow : Duration := 24 * Hour.
Definition FutureSkew : Duration := 5 * Minute.

Definition invalidf {A} (detail : string) : result A := Err (Error "invalid usage fact" detail).

(** ** Facts *)

Record Fact := {
  f_FactID : string; f_OrganizationID : string; f_ResourceID : string; f_SourceID : string; f_SourceEpoch : string;
  f_Sequence : Z; f_MeterType : string; f_Quantity : Z; f_Unit : string; f_StartTime : Time; f_EndTime : Time;
  f_CorrelationID : string; f_CorrectionOf : string; f_Attributes : gmap string string; f_KeyID : string; f_Signature : string;
}.

#[export] Instance Fact_eq_dec : EqDecision Fact.
Proof. solve_decision. Defined.

Record VerifiedFact := { vf_Fact : Fact; vf_Digest : string }.

Record BatchResult := {
  b_Accepted : Z; b_Duplicates : Z; b_MissingSequences : gmap string (list Z); b_Watermarks : gmap string Z;
}.

Definition signed_as (fact : Fact) (keyID signature : string) : Fact :=
  {| f_FactID := f_FactID fact; f_OrganizationID := f_OrganizationID fact; f_ResourceID := f_ResourceID fact;
     f_SourceID := f_SourceID fact; f_SourceEpoch := f_SourceEpoch fact; f_Sequence := f_Sequence fact;
     f_MeterType := f_MeterType fact; f_Quantity := f_Quantity fact; f_Unit := f_Unit fact;
     f_StartTime := f_StartTime fact; f_EndTime := f_EndTime fact; f_CorrelationID := f_CorrelationID fact;
     f_CorrectionOf := f_CorrectionOf fact; f_Attributes := f_Attributes fact; f_KeyID := keyID; f_Signature := signature |}.

Definition allowedUnits : gmap string string :=
  {["compute_cpu_seconds" := "cpu_second"; "compute_memory_bytes_seconds" := "byte_second";
    "storage_bytes_seconds" := "byte_second"; "network_egress_bytes" := "byte"; "build_seconds" := "second";
    "cdn_requests" := "request"; "cdn_bytes" := "byte"]}.

(** The trusted keys of every source. *)
Abbreviation SourceKeys := (gmap string (gmap string (list Z))) (only parsing).

Section Facts.
Context `{GoText} `{!Codec Fact} `{!Ed25519}.

Definition signingBytes (fact : Fact) : result string :=
  match marshal (signed_as fact (f_KeyID fact) "") with
  | Some payload => Ok payload
  | None => invalidf "signing payload canonicalization failed"
  end.

(** [Sign] changes the fact it is given, also when it fails halfway. *)
Definition Sign (fact : option Fact) (keyID : string) (privateKey : list Z) : option Fact * result unit :=
  match fact with
  | None => (fact, invalidf "signing input is incomplete")
  | Some f =>
      if String.eqb keyID "" || negb (length privateKey =? PrivateKeySize)%nat then (fact, invalidf "signing input is incomplete")
      else
        let cleared := signed_as f keyID "" in
        match signingBytes cleared with
        | Err e => (Some cleared, Err e)
        | Ok payload => (Some (signed_as f keyID (EncodeToString (ed_Sign privateKey payload))), Ok tt)
        end
  end.

Definition verify (keys : SourceKeys) (now : Time) (fact : Fact) : result string :=
  if negb (has_prefix (f_FactID fact) "use") then invalidf "fact ID is invalid"
  else if negb (has_prefix (f_OrganizationID fact) "org") then invalidf "organization ID is invalid"
  else if is_err (Parse (f_ResourceID fact)) then invalidf "resource ID is invalid"
  else if String.eqb (f_SourceID fact) "" || String.eqb (f_SourceEpoch fact) "" || (f_Sequence fact =? 0) || String.eqb (f_CorrelationID fact) ""
  then invalidf "source, sequence, and correlation are required"
  else if match allowedUnits !! f_MeterType fact with Some unit => negb (String.eqb (f_Unit fact) unit) | None => true end
  then invalidf "meter type or unit is invalid"
  else if (f_Quantity fact =? 0) || ((f_Quantity fact <? 0) && String.eqb (f_CorrectionOf fact) "")
  then invalidf "quantity requires a positive measurement or named correction"
  else if negb (After (f_EndTime fact) (f_StartTime fact)) || (MaxFactWindow <? Sub (f_EndTime fact) (f_StartTime fact)) ||
          After (f_EndTime fact) (Add now FutureSkew)
  then invalidf "fact time window is outside policy"
  else match keys !! f_SourceID fact with
  | None => invalidf "source is not trusted"
  | Some trusted =>
      match trusted !! f_KeyID fact with
      | None => invalidf "source key is not trusted"
      | Some key =>
          if negb (length key =? PublicKeySize)%nat then invalidf "source key is not trusted"
          else match DecodeString (f_Signature fact) with
          | None => invalidf "signature encoding is invalid"
          | Some signature =>
              if negb (length signature =? SignatureSize)%nat then invalidf "signature encoding is invalid"
              else
                let* payload := signingBytes fact in
                if negb (ed_Verify key payload signature) then invalidf "signature verification failed"
                else match marshal fact with
                | None => invalidf "fact canonicalization failed"
                | Some full => Ok (bytesDigest full)
                end
          end
      end
  end.

End Facts.

(** ** The journal *)

Record sourceState := { ss_watermark : Z; ss_records : gmap Z string }.

Abbreviation MemoryJournal := (gmap string sourceState) (only parsing).

Definition NewMemoryJournal : MemoryJournal := ∅.

Definition new_source : sourceState := {| ss_watermark := 0; ss_records := ∅ |}.

Definition sourceKey (fact : Fact) : string := f_SourceID fact +:+ "/" +:+ f_SourceEpoch fact.

(** The digest a number has in a batch or in the journal. *)
Definition recorded (records : option (gmap Z string)) (sequence : Z) : option string := records ≫= lookup sequence.

Definition differs (existing : option string) (digest : string) : bool :=
  match existing with Some d => negb (String.eqb d digest) | None => false end.

(** The first loop: nothing is stored before the whole batch is consistent. *)
Definition check_fact (journal : MemoryJournal) (batch : gmap string (gmap Z string)) (fact : VerifiedFact) : result (gmap string (gmap Z string)) :=
  let key := sourceKey (vf_Fact fact) in
  let sequence := f_Sequence (vf_Fact fact) in
  if differs (recorded (batch !! key) sequence) (vf_Digest fact) then invalidf "sequence is inconsistent within the batch"
  else if differs (recorded (ss_records <$> journal !! key) sequence) (vf_Digest fact) then invalidf "sequence was reused with different content"
  else Ok (<[key := <[sequence := vf_Digest fact]> (default ∅ (batch !! key))]> batch).

(** The second loop. *)
Definition record_fact (acc : MemoryJournal * Z * Z) (fact : VerifiedFact) : MemoryJournal * Z * Z :=
  let '(journal, accepted, duplicates) := acc in
  let key := sourceKey (vf_Fact fact) in
  let sequence := f_Sequence (vf_Fact fact) in
  let state := default new_source (journal !! key) in
  match ss_records state !! sequence with
  | Some _ => (<[key := state]> journal, accepted, duplicates + 1)
  | None =>
      (<[key := {| ss_watermark := ss_watermark state; ss_records := <[sequence := vf_Digest fact]> (ss_records state) |}]> journal,
       accepted + 1, duplicates)
  end.

(** The third loop.  The watermark meets each record once at most, so one more step
    than there are records is enough. *)
Fixpoint advance (fuel : nat) (records : gmap Z string) (watermark : Z) : Z :=
  match fuel with
  | O => watermark
  | S fuel' => match records !! u64 (watermark + 1) with None => watermark | Some _ => advance fuel' records (u64 (watermark + 1)) end
  end.

Definition advanced (state : sourceState) : sourceState :=
  {| ss_watermark := advance (S (size (ss_records state))) (ss_records state) (ss_watermark state); ss_records := ss_records state |}.

(** [slices.Sort] of the recorded numbers, and its last one. *)
Definition maximum (records : gmap Z string) : option Z :=
  map_fold (fun sequence _ m => Some (match m with Some n => Z.max sequence n | None => sequence end)) None records.

(** Each step meets a record or a missing number, and it stops at 1000 of those. *)
Fixpoint missing_from (fuel : nat) (records : gmap Z string) (maximum missing : Z) (found : list Z) : list Z :=
  match fuel with
  | O => found
  | S fuel' =>
      if (missing <? maximum) && (Z.of_nat (length found) <? 1000) then
        missing_from fuel' records maximum (u64 (missing + 1))
          (match records !! missing with None => found ++ [missing] | Some _ => found end)
      else found
  end.

Definition missing_of (state : sourceState) : option (list Z) :=
  match maximum (ss_records state) with
  | None => None
  | Some m =>
      match missing_from (size (ss_records state) + 1001) (ss_records state) m (u64 (ss_watermark state + 1)) [] with
      | [] => None
      | l => Some l
      end
  end.

Definition AppendBatch (journal : MemoryJournal) (ctx : Ctx) (facts : list VerifiedFact) : MemoryJournal * result BatchResult :=
  match ctx with
  | Some e => (journal, Err e)
  | None =>
      match fold_result (check_fact journal) ∅ facts with
      | Err e => (journal, Err e)
      | Ok _ =>
          let '(stored, accepted, duplicates) := fold_left record_fact facts (journal, 0, 0) in
          let sources := advanced <$> stored in
          (sources, Ok {| b_Accepted := accepted; b_Duplicates := duplicates;
                          b_MissingSequences := omap missing_of sources; b_Watermarks := ss_watermark <$> sources |})
      end
  end.

(** ** Lemmas on the journal *)

Definition record_of (journal : MemoryJournal) (key : string) (sequence : Z) : option string :=
  recorded (ss_records <$> journal !! key) sequence.

Definition uses (fact : VerifiedFact) : string * Z := (sourceKey (vf_Fact fact), f_Sequence (vf_Fact fact)).

Definition agrees (records : string → Z → option string) (fact : VerifiedFact) : Prop :=
  ∀ d, records (uses fact).1 (uses fact).2 = Some d → d = vf_Digest fact.

Lemma differs_false existing digest : differs existing digest = false ↔ ∀ d, existing = Some d → d = digest.
Proof. destruct existing; cbn; [rewrite negb_false_iff, String.eqb_eq|]; naive_solver. Qed.

Lemma recorded_insert (batch : gmap string (gmap Z string)) key sequence d key' sequence' :
  recorded (<[key := <[sequence := d]> (default ∅ (batch !! key))]> batch !! key') sequence' =
  if decide (key' = key ∧ sequence' = sequence) then Some d else recorded (batch !! key') sequence'.
Proof.
  unfold recorded. destruct (decide (key' = key)) as [->|Hk].
  - rewrite lookup_insert_eq. cbn. destruct (decide (sequence' = sequence)) as [->|Hs].
    + by rewrite lookup_insert_eq, decide_True.
    + rewrite lookup_insert_ne, decide_False by naive_solver. by destruct (batch !! key).
  - rewrite lookup_insert_ne, decide_False by naive_solver. done.
Qed.

(** The first loop passes exactly the batches whose numbers agree with each other and
    with the journal. *)
Lemma check_facts_ok journal facts : ∀ batch,
  is_ok (fold_result (check_fact journal) batch facts) = true ↔
  (∀ f, f ∈ facts → agrees (record_of journal) f ∧ agrees (fun key sequence => recorded (batch !! key) sequence) f) ∧
  (∀ f g, f ∈ facts → g ∈ facts → uses f = uses g → vf_Digest f = vf_Digest g).
Proof.
  induction facts as [|x facts IH]; intros batch; cbn [fold_result]; [split; [split; intros * ?%not_elem_of_nil; done|done]|].
  unfold check_fact at 1. fold (record_of journal (sourceKey (vf_Fact x)) (f_Sequence (vf_Fact x))).
  destruct (differs (recorded (batch !! _) _) _) eqn:E1; [|destruct (differs (record_of _ _ _) _) eqn:E2]; cbn [bind_result].
  - split; [done|]. intros [Ha _]. destruct (Ha x) as [_ Hx]; [left|]. apply (proj2 (differs_false _ _)) in Hx. cbn [uses fst snd] in Hx. congruence.
  - split; [done|]. intros [Ha _]. destruct (Ha x) as [Hx _]; [left|]. apply (proj2 (differs_false _ _)) in Hx. cbn [uses fst snd] in Hx. congruence.
  - rewrite IH. clear IH. rewrite differs_false in E1, E2. unfold agrees, uses. cbn [fst snd]. split.
    + intros [Ha Hp]. assert (∀ g, g ∈ facts → uses x = uses g → vf_Digest x = vf_Digest g) as Hx.
      { intros g Hg [= E3 E4]. destruct (Ha g Hg) as [_ Hb]. apply Hb. by rewrite recorded_insert, decide_True. }
      split.
      * intros f [->|Hf]%elem_of_cons; [done|]. destruct (Ha f Hf) as [Hj Hb]. split; [done|]. intros d Hd. apply Hb. rewrite recorded_insert.
        case_decide as Hk; [|done]. destruct Hk as [E3 E4]. f_equal. rewrite E3, E4 in Hd. rewrite (E1 _ Hd). done.
      * intros f g [->|Hf]%elem_of_cons [->|Hg]%elem_of_cons E; auto. symmetry. by apply Hx.
    + intros [Ha Hp]. split.
      * intros f Hf. destruct (Ha f) as [Hj Hb]; [by right|]. split; [done|]. intros d. rewrite recorded_insert. case_decide as Hk; [|auto].
        intros [= <-]. apply Hp; [left|by right|]. unfold uses. by destruct Hk as [-> ->].
      * intros f g Hf Hg. apply Hp; by right.
Qed.

(** The number of facts a journal holds. *)
Definition total (journal : MemoryJournal) : nat := map_fold (fun _ state n => size (ss_records state) + n)%nat 0%nat journal.

Definition size_at (journal : MemoryJournal) (key : string) : nat := size (default ∅ (ss_records <$> journal !! key)).

Lemma total_insert journal key state :
  (total (<[key := state]> journal) + size_at journal key = total journal + size (ss_records state))%nat.
Proof.
  assert (∀ (m : MemoryJournal) s, m !! key = None → total (<[key := s]> m) = (size (ss_records s) + total m)%nat) as Hnew.
  { intros m s Hm. unfold total. rewrite map_fold_insert_L; [done|intros; lia|done]. }
  unfold size_at. destruct (journal !! key) as [s|] eqn:Hk; cbn.
  - pose proof (Hnew (delete key journal) state (lookup_delete_eq _ _)) as H1. pose proof (Hnew (delete key journal) s (lookup_delete_eq _ _)) as H2.
    rewrite insert_delete_eq in H1. rewrite insert_delete_id in H2 by done. lia.
  - rewrite Hnew by done. rewrite map_size_empty. lia.
Qed.

(** One step of the second loop. *)
Lemma record_fact_step journal accepted duplicates fact journal' accepted' duplicates' :
  record_fact (journal, accepted, duplicates) fact = (journal', accepted', duplicates') →
  let '(key, sequence) := uses fact in
  (∀ k n, record_of journal' k n = match record_of journal k n with
     | Some d => Some d
     | None => if decide (k = key ∧ n = sequence) then Some (vf_Digest fact) else None end) ∧
  (∀ k, ss_watermark <$> journal' !! k = if decide (k = key) then Some (default 0 (ss_watermark <$> journal !! k)) else ss_watermark <$> journal !! k) ∧
  accepted' + duplicates' = accepted + duplicates + 1 ∧ Z.of_nat (total journal') = Z.of_nat (total journal) + (accepted' - accepted) ∧
  duplicates' - duplicates = (if record_of journal key sequence is Some _ then 1 else 0).
Proof.
  unfold record_fact, uses. set (key := sourceKey _). set (sequence := f_Sequence _). set (state := default new_source (journal !! key)).
  assert (∀ n, ss_records state !! n = record_of journal key n) as Hrec.
  { intros n. unfold state, record_of, recorded. by destruct (journal !! key). }
  assert (size_at journal key = size (ss_records state)) as Hsize by (unfold state, size_at; by destruct (journal !! key)).
  assert (default 0 (ss_watermark <$> journal !! key) = ss_watermark state) as Hw by (unfold state; by destruct (journal !! key)).
  destruct (ss_records state !! sequence) as [d|] eqn:E; intros [= <- <- <-]; rewrite <- Hrec, E.
  - pose proof (total_insert journal key state). split_and!; [|intros k|lia..].
    + intros k n. unfold record_of at 1. destruct (decide (k = key)) as [->|Hk].
      * rewrite lookup_insert_eq. destruct (decide (n = sequence)) as [->|Hn]; [by cbn; rewrite <- Hrec, E|].
        rewrite decide_False by naive_solver. cbn. rewrite Hrec. by destruct (record_of journal key n).
      * rewrite lookup_insert_ne, decide_False by naive_solver. fold (record_of journal k n). by destruct (record_of journal k n).
    + destruct (decide (k = key)) as [->|Hk]; [rewrite lookup_insert_eq; cbn; by rewrite Hw|by rewrite lookup_insert_ne].
  - set (state' := Build_sourceState _ _). pose proof (total_insert journal key state').
    assert (size (ss_records state') = S (size (ss_records state))) as Hs by (unfold state'; cbn; by rewrite map_size_insert_None). split_and!; [|intros k|lia..].
    + intros k n. unfold record_of at 1. destruct (decide (k = key)) as [->|Hk].
      * rewrite lookup_insert_eq. cbn. destruct (decide (n = sequence)) as [->|Hn]; [by rewrite lookup_insert_eq, <- Hrec, E, decide_True|].
        rewrite lookup_insert_ne, decide_False by naive_solver. cbn. rewrite Hrec. by destruct (record_of journal key n).
      * rewrite lookup_insert_ne, decide_False by naive_solver. fold (record_of journal k n). by destruct (record_of journal k n).
    + destruct (decide (k = key)) as [->|Hk]; [rewrite lookup_insert_eq; cbn; by rewrite Hw|by rewrite lookup_insert_ne].
Qed.

Record stored_by (journal journal' : MemoryJournal) (facts : list VerifiedFact) : Prop := {
  st_kept : ∀ k n d, record_of journal k n = Some d → record_of journal' k n = Some d;
  st_new : ∀ k n d, record_of journal' k n = Some d → record_of journal k n = Some d ∨ ∃ f, f ∈ facts ∧ uses f = (k, n) ∧ vf_Digest f = d;
  st_all : ∀ f, f ∈ facts → is_Some (record_of journal' (uses f).1 (uses f).2);
  st_sources : ∀ k, is_Some (journal !! k) → ss_watermark <$> journal' !! k = ss_watermark <$> journal !! k;
  st_created : ∀ k w, journal !! k = None → ss_watermark <$> journal' !! k = Some w → w = 0 ∧ ∃ f, f ∈ facts ∧ (uses f).1 = k;
}.

Lemma record_facts facts : ∀ journal accepted duplicates journal' accepted' duplicates',
  fold_left record_fact facts (journal, accepted, duplicates) = (journal', accepted', duplicates') →
  stored_by journal journal' facts ∧ accepted' + duplicates' = accepted + duplicates + Z.of_nat (length facts) ∧
  Z.of_nat (total journal') = Z.of_nat (total journal) + (accepted' - accepted) ∧
  ((∀ f, f ∈ facts → is_Some (record_of journal (uses f).1 (uses f).2)) → accepted' = accepted).
Proof.
  induction facts as [|x facts IH]; intros journal accepted duplicates journal' accepted' duplicates' Hf; cbn [fold_left] in Hf.
  { injection Hf as <- <- <-. split_and!; cbn; try lia; try done. split; [auto|auto|by intros f ?%not_elem_of_nil|done|]. intros k w E. by rewrite E. }
  destruct (record_fact _ x) as [[journal1 accepted1] duplicates1] eqn:Hx. apply record_fact_step in Hx. destruct (uses x) as [key sequence] eqn:Hu.
  destruct Hx as (Hr & Hw & Hc & Ht & Hd). destruct (IH _ _ _ _ _ _ Hf) as ([Hk Hn Ha Hs Hcr] & Hc' & Ht' & Hd'). clear IH Hf.
  assert (∀ k n d, record_of journal k n = Some d → record_of journal1 k n = Some d) as Hmono by (intros k n d E; by rewrite Hr, E).
  split_and!; [split|cbn [length]; lia|lia|].
  - intros k n d E. by apply Hk, Hmono.
  - intros k n d [E|(f & ? & ?)]%Hn; [|right; exists f; split; [by right|done]]. rewrite Hr in E. destruct (record_of journal k n); [by left|].
    case_decide as Hkn; [|done]. right. exists x. injection E as <-. destruct Hkn as [-> ->]. split; [left|done].
  - intros f [->|Hf]%elem_of_cons; [|by apply Ha]. rewrite Hu. cbn [fst snd]. destruct (record_of journal1 key sequence) as [d|] eqn:E; [eauto|].
    rewrite Hr in E. destruct (record_of journal key sequence); [done|]. by rewrite decide_True in E.
  - intros k [s E]. rewrite Hs, Hw; [case_decide; [|done]; subst; by rewrite E|].
    apply (fmap_is_Some ss_watermark). rewrite Hw. case_decide; [done|]. by rewrite E.
  - intros k w E Ew. destruct (journal1 !! k) as [s1|] eqn:E1.
    + rewrite Hs, Hw, E in Ew by (by rewrite E1). case_decide as Hk1; [|done]. injection Ew as <-. split; [done|]. exists x. rewrite Hu. by split; [left|].
    + destruct (Hcr k w E1 Ew) as (-> & f & Hf & Ef). split; [done|]. exists f. by split; [right|].
  - intros Hall. destruct (Hall x ltac:(left)) as [d E]. rewrite Hu in E. cbn [fst snd] in E. rewrite E in Hd. rewrite Hd'; [lia|].
    intros f Hf. destruct (Hall f ltac:(by right)) as [d' E']. eauto.
Qed.

(** The records a loop that has come to [n] may still meet. *)
Definition ahead (records : gmap Z string) (n : Z) : nat := size (filter (fun r => n < r.1) records).

Lemma ahead_step records n : is_Some (records !! (n + 1)) → (ahead records (n + 1) < ahead records n)%nat.
Proof.
  intros [d Hd]. unfold ahead.
  assert (filter (fun r => n < r.1) records = <[n + 1 := d]> (filter (fun r => n + 1 < r.1) records)) as ->.
  { apply map_eq. intros i. destruct (decide (i = n + 1)) as [->|Hi].
    - rewrite lookup_insert_eq. apply map_lookup_filter_Some. split; [done|]. cbn. lia.
    - rewrite lookup_insert_ne by done. apply option_eq. intros v. rewrite !map_lookup_filter_Some. cbn. intuition lia. }
  rewrite map_size_insert_None; [lia|]. apply map_lookup_filter_None. right. intros v _. cbn. lia.
Qed.

Definition numbered (records : gmap Z string) : Prop := ∀ n, is_Some (records !! n) → 1 ≤ n < 2 ^ 64.

Lemma advance_spec records fuel w : numbered records → 0 ≤ w < 2 ^ 64 → (ahead records w < fuel)%nat →
  (∀ n, 1 ≤ n ≤ w → is_Some (records !! n)) →
  let w' := advance fuel records w in
  w ≤ w' < 2 ^ 64 ∧ (∀ n, 1 ≤ n ≤ w' → is_Some (records !! n)) ∧ records !! (w' + 1) = None.
Proof.
  intros Hnum. revert w. induction fuel as [|fuel IH]; intros w Hw Hf Hall; [lia|]. cbn [advance].
  destruct (decide (w + 1 = 2 ^ 64)) as [E|E].
  - assert (u64 (w + 1) = 0) as -> by (rewrite E; reflexivity).
    destruct (records !! 0) eqn:E0; [exfalso; pose proof (Hnum 0 ltac:(by rewrite E0)); lia|]. split_and!; [lia..|done|].
    destruct (records !! (w + 1)) eqn:E1; [|done]. pose proof (Hnum (w + 1) ltac:(by rewrite E1)). lia.
  - rewrite u64_small by (unfold is_u64; lia). destruct (records !! (w + 1)) as [d|] eqn:E1; [|by split_and!; [lia..| |]].
    pose proof (ahead_step records w ltac:(by rewrite E1)). destruct (IH (w + 1)) as (? & ? & ?); [lia..| |split_and!; [lia..|done|done]].
    intros n Hn. destruct (decide (n = w + 1)) as [->|]; [by rewrite E1|apply Hall; lia].
Qed.

Lemma ahead_size records n : (ahead records n ≤ size records)%nat.
Proof. unfold ahead. apply map_subseteq_size, map_filter_subseteq. Qed.

(** The unrecorded numbers from [n] up to [m]. *)
Definition gaps (records : gmap Z string) (n m : Z) : list Z := filter (fun i => records !! i = None) (seqZ n (m - n)).

Lemma missing_from_spec records m fuel : ∀ n found, 0 ≤ n → m < 2 ^ 64 → (length found ≤ 1000)%nat →
  (ahead records (n - 1) + (1000 - length found) < fuel)%nat →
  missing_from fuel records m n found = take 1000 (found ++ gaps records n m).
Proof.
  induction fuel as [|fuel IH]; intros n found Hn Hm Hl Hf; [lia|]. cbn [missing_from].
  destruct (n <? m) eqn:E1; [destruct (Z.of_nat (length found) <? 1000) eqn:E2|]; bsimpl; cbn [andb].
  - rewrite u64_small by (unfold is_u64; lia). unfold gaps. rewrite (seqZ_cons n) by lia. rewrite filter_cons.
    replace (Z.succ n) with (n + 1) by lia. replace (Z.pred (m - n)) with (m - (n + 1)) by lia.
    destruct (records !! n) as [d|] eqn:Hd.
    + pose proof (ahead_step records (n - 1) ltac:(by replace (n - 1 + 1) with n by lia; rewrite Hd)).
      replace (n - 1 + 1) with n in * by lia. rewrite IH; [by rewrite decide_False by congruence|lia..| |]; [lia|].
      replace (n + 1 - 1) with n by lia. lia.
    + rewrite decide_True by done. rewrite IH; [by rewrite <- app_assoc|lia..| |]; rewrite length_app; cbn; [lia|].
      replace (n + 1 - 1) with n by lia. assert (ahead records n ≤ ahead records (n - 1))%nat; [|lia].
      unfold ahead. apply map_subseteq_size. apply map_filter_subseteq_ext. intros i x _. cbn. lia.
  - rewrite take_app_le, take_ge by lia. done.
  - unfold gaps. rewrite seqZ_nil by lia. rewrite app_nil_r, take_ge by lia. done.
Qed.

Lemma maximum_spec records :
  match maximum records with
  | Some m => is_Some (records !! m) ∧ ∀ n, is_Some (records !! n) → n ≤ m
  | None => records = ∅
  end.
Proof.
  unfold maximum. apply (map_fold_weak_ind (fun r (m : gmap Z string) => match r with
    | Some k => is_Some (m !! k) ∧ ∀ n, is_Some (m !! n) → n ≤ k | None => m = ∅ end)); [done|].
  intros i x m r Hi IH. destruct r as [k|]; [destruct IH as [Hk Hmax]|subst m]; split.
  - destruct (Z.max_spec i k) as [[_ ->]|[_ ->]]; [by apply lookup_insert_is_Some'; right|by rewrite lookup_insert_eq].
  - intros n [->|Hn]%lookup_insert_is_Some'; [lia|]. apply Hmax in Hn. lia.
  - by rewrite lookup_insert_eq.
  - intros n [->|[? Hn]]%lookup_insert_is_Some'; [lia|]. by rewrite lookup_empty in Hn.
Qed.

(** The invariant of the journal: every source has a record, the numbers are those of
    [verify], and the watermark is exact. *)
Record tidy (state : sourceState) : Prop := {
  ti_numbered : numbered (ss_records state);
  ti_range : 0 ≤ ss_watermark state < 2 ^ 64;
  ti_below : ∀ n, 1 ≤ n ≤ ss_watermark state → is_Some (ss_records state !! n);
  ti_next : ss_records state !! (ss_watermark state + 1) = None;
  ti_used : ss_records state ≠ ∅;
}.

Lemma tidy_unique s1 s2 : tidy s1 → tidy s2 → ss_records s1 = ss_records s2 → s1 = s2.
Proof.
  intros [_ R1 B1 N1 _] [_ R2 B2 N2 _] E. destruct s1 as [w1 r1], s2 as [w2 r2]. cbn in *. subst r2. f_equal.
  destruct (Z.lt_trichotomy w1 w2) as [Hl|[?|Hl]]; [|done|].
  - destruct (B2 (w1 + 1)) as [? ?]; [lia|]. congruence.
  - destruct (B1 (w2 + 1)) as [? ?]; [lia|]. congruence.
Qed.

Lemma advanced_tidy state : numbered (ss_records state) → 0 ≤ ss_watermark state < 2 ^ 64 → ss_records state ≠ ∅ →
  (∀ n, 1 ≤ n ≤ ss_watermark state → is_Some (ss_records state !! n)) → tidy (advanced state).
Proof.
  intros Hn Hr Hu Hb. pose proof (ahead_size (ss_records state) (ss_watermark state)).
  destruct (advance_spec (ss_records state) (S (size (ss_records state))) (ss_watermark state) Hn Hr ltac:(lia) Hb) as (? & ? & ?).
  split; cbn [advanced ss_records ss_watermark]; auto. lia.
Qed.

(** The missing numbers of a source: the first 1000 unrecorded ones between its
    watermark and its largest number. *)
Lemma missing_of_spec state : tidy state → ss_watermark state + 1 < 2 ^ 64 →
  ∃ m, is_Some (ss_records state !! m) ∧ (∀ n, is_Some (ss_records state !! n) → n ≤ m) ∧
    default [] (missing_of state) = take 1000 (gaps (ss_records state) (ss_watermark state + 1) m).
Proof.
  intros [Hn Hr Hb _ Hu] Hw. unfold missing_of. pose proof (maximum_spec (ss_records state)) as Hm. destruct (maximum _) as [m|]; [|done].
  destruct Hm as [Hm Hmax]. exists m. split_and!; [done..|]. rewrite u64_small by (unfold is_u64; lia).
  pose proof (ahead_size (ss_records state) (ss_watermark state + 1 - 1)). pose proof (Hn m Hm).
  rewrite missing_from_spec; cbn [length app]; [by destruct (take _ _)|lia..].
Qed.

Lemma record_of_advanced (journal : MemoryJournal) k n : record_of (advanced <$> journal) k n = record_of journal k n.
Proof. unfold record_of. rewrite lookup_fmap. by destruct (journal !! k). Qed.

Lemma total_advanced (journal : MemoryJournal) : total (advanced <$> journal) = total journal.
Proof. unfold total. by rewrite map_fold_fmap. Qed.

Lemma record_of_is_Some (journal : MemoryJournal) k n : is_Some (record_of journal k n) → ∃ s, journal !! k = Some s ∧ is_Some (ss_records s !! n).
Proof. unfold record_of, recorded. destruct (journal !! k) as [s|]; cbn; [eauto|by intros []]. Qed.

Lemma record_of_Some (journal : MemoryJournal) k s n : journal !! k = Some s → record_of journal k n = ss_records s !! n.
Proof. intros E. unfold record_of. by rewrite E. Qed.

Definition all_tidy (journal : MemoryJournal) : Prop := ∀ k s, journal !! k = Some s → tidy s.

Record appended (journal journal' : MemoryJournal) (facts : list VerifiedFact) (r : BatchResult) : Prop := {
  ap_tidy : all_tidy journal';
  ap_records : ∀ k n d, record_of journal' k n = Some d ↔ record_of journal k n = Some d ∨ ∃ f, f ∈ facts ∧ uses f = (k, n) ∧ vf_Digest f = d;
  ap_agree : ∀ f g, f ∈ facts → g ∈ facts → uses f = uses g → vf_Digest f = vf_Digest g;
  ap_counts : b_Accepted r + b_Duplicates r = Z.of_nat (length facts);
  ap_total : Z.of_nat (total journal') = Z.of_nat (total journal) + b_Accepted r;
  ap_watermarks : b_Watermarks r = ss_watermark <$> journal';
  ap_missing : b_MissingSequences r = omap missing_of journal';
}.

Lemma stored_tidy journal stored facts k s : all_tidy journal → Forall (fun f => 1 ≤ f_Sequence (vf_Fact f) < 2 ^ 64) facts →
  stored_by journal stored facts → stored !! k = Some s → tidy (advanced s).
Proof.
  intros Ht Hseq [Hk Hn Ha Hs Hc] E. rewrite Forall_forall in Hseq. pose proof (record_of_Some stored k s) as Hrec.
  assert (numbered (ss_records s)) as Hnum.
  { intros n [d Hd]. rewrite <- Hrec in Hd by done. apply Hn in Hd as [Hd|(f & Hf & [= _ <-] & _)]; [|by apply Hseq].
    destruct (record_of_is_Some journal k n) as (s0 & E0 & H0); [by rewrite Hd|]. by apply (ti_numbered _ (Ht _ _ E0)). }
  assert (∀ n, is_Some (record_of journal k n) → is_Some (ss_records s !! n)) as Hkeep.
  { intros n [d Hd]. rewrite <- Hrec by done. apply Hk in Hd. eauto. }
  destruct (journal !! k) as [s0|] eqn:E0.
  - destruct (Ht _ _ E0) as [T1 T2 T3 _ T5]. pose proof (Hs k ltac:(by rewrite E0)) as Hw. rewrite E, E0 in Hw. injection Hw as Hw. apply advanced_tidy; rewrite ?Hw; auto.
    + intros Hempty. destruct (map_choose _ T5) as (n & d & Hd). destruct (Hkeep n) as [? Hbad]; [rewrite (record_of_Some _ _ s0), Hd by done; eauto|]. by rewrite Hempty, lookup_empty in Hbad.
    + intros n Hin. apply Hkeep. rewrite (record_of_Some _ _ s0) by done. auto.
  - destruct (Hc k (ss_watermark s) E0) as (Hw & f & Hf & <-); [by rewrite E|]. apply advanced_tidy; rewrite ?Hw; auto; [lia| |intros; lia].
    intros Hempty. destruct (Ha f Hf) as [d Hd]. by rewrite Hrec, Hempty, lookup_empty in Hd.
Qed.

Lemma AppendBatch_Ok journal ctx facts journal' r : all_tidy journal → Forall (fun f => 1 ≤ f_Sequence (vf_Fact f) < 2 ^ 64) facts →
  AppendBatch journal ctx facts = (journal', Ok r) → appended journal journal' facts r.
Proof.
  intros Ht Hseq. unfold AppendBatch. destruct ctx; [done|]. destruct (fold_result _ _ _) as [b|e] eqn:Hcheck; [|done].
  destruct (proj1 (check_facts_ok journal facts ∅)) as [Hj Hp]; [by rewrite Hcheck|].
  destruct (fold_left _ _ _) as [[stored accepted] duplicates] eqn:Hf. apply record_facts in Hf as (Hst & Hcount & Htot & _). intros [= <- <-].
  split; cbn; rewrite ?total_advanced; try done; try lia.
  - intros k s. rewrite lookup_fmap. destruct (stored !! k) as [s0|] eqn:E; [|done]. intros [= <-]. by eapply stored_tidy.
  - intros k n d. rewrite record_of_advanced. split; [apply (st_new _ _ _ Hst)|]. intros [E|(f & Hin & Hu & <-)]; [by apply (st_kept _ _ _ Hst)|].
    destruct (st_all _ _ _ Hst f Hin) as [d Hd]. rewrite Hu in Hd. cbn [fst snd] in Hd. rewrite Hd. f_equal.
    apply (st_new _ _ _ Hst) in Hd as [Hd|(g & Hg & Hug & <-)]; [|apply Hp; congruence]. apply (proj1 (Hj f Hin)). by rewrite Hu.
Qed.

Lemma AppendBatch_Err journal ctx facts journal' e : AppendBatch journal ctx facts = (journal', Err e) → journal' = journal.
Proof.
  unfold AppendBatch. destruct ctx; [congruence|]. destruct (fold_result _ _ _); [|congruence]. destruct (fold_left _ _ _) as [[? ?] ?]. done.
Qed.

(** ** Ingestion *)

Section Ingest.
Context `{GoText} `{!Codec Fact} `{!Ed25519} (keys : SourceKeys).

(** The clock is read for every fact.  [complete] says that the context, the journal and
    the clock are given. *)
Fixpoint verify_all (clock : nat → Time) (facts : list Fact) : result (list VerifiedFact) :=
  match facts with
  | [] => Ok []
  | fact :: rest =>
      let* digest := verify keys (clock 0%nat) fact in
      let* verified := verify_all (fun n => clock (S n)) rest in
      Ok ({| vf_Fact := fact; vf_Digest := digest |} :: verified)
  end.

Definition Ingest (complete : bool) (clock : nat → Time) (ctx : Ctx) (facts : list Fact) (journal : MemoryJournal) : MemoryJournal * result BatchResult :=
  if negb complete then (journal, invalidf "ingestor dependencies are incomplete")
  else if (Z.of_nat (length facts) =? 0) || (MaxBatchFacts <? Z.of_nat (length facts)) then (journal, invalidf "batch size is outside policy")
  else match verify_all clock facts with
  | Err e => (journal, Err e)
  | Ok verified => AppendBatch journal ctx verified
  end.

(** A sequence of batches. *)
Fixpoint deliver (journal : MemoryJournal) (calls : list ((nat → Time) * Ctx * list Fact)) : MemoryJournal * list (list Fact * result BatchResult) :=
  match calls with
  | [] => (journal, [])
  | (clock, ctx, facts) :: rest =>
      let '(journal', answer) := Ingest true clock ctx facts journal in
      let '(journal'', log) := deliver journal' rest in
      (journal'', (facts, answer) :: log)
  end.

(** ** Lemmas on ingestion *)

(** What a fact that passes [verify] is signed with. *)
Definition authentic (fact : Fact) : Prop :=
  ∃ trusted key signature payload, keys !! f_SourceID fact = Some trusted ∧ trusted !! f_KeyID fact = Some key ∧
    DecodeString (f_Signature fact) = Some signature ∧ signingBytes fact = Ok payload ∧ ed_Verify key payload signature = true.

Lemma verify_Ok now fact digest : verify keys now fact = Ok digest →
  f_Sequence fact ≠ 0 ∧ authentic fact ∧ ∃ c, marshal fact = Some c ∧ digest = bytesDigest c.
Proof.
  unfold verify. intros Hv. do 7 (match type of Hv with (if ?b then _ else _) = _ => destruct b eqn:?; [done|] end).
  destruct (keys !! f_SourceID fact) as [trusted|] eqn:E1; [|done]. destruct (trusted !! f_KeyID fact) as [key|] eqn:E2; [|done].
  destruct (negb (length key =? PublicKeySize)%nat); [done|]. destruct (DecodeString (f_Signature fact)) as [signature|] eqn:E3; [|done].
  destruct (negb (length signature =? SignatureSize)%nat); [done|]. apply bind_result_Ok in Hv as (payload & E4 & Hv).
  destruct (ed_Verify key payload signature) eqn:E5; [|done]. cbn [negb] in Hv. destruct (marshal fact) as [c|]; [|done]. injection Hv as <-.
  split_and!; [bsimpl; lia| |eauto]. unfold authentic. eauto 10.
Qed.

Lemma verify_all_Ok facts : ∀ clock verified, verify_all clock facts = Ok verified →
  vf_Fact <$> verified = facts ∧
  Forall (fun v => f_Sequence (vf_Fact v) ≠ 0 ∧ authentic (vf_Fact v) ∧ ∃ c, marshal (vf_Fact v) = Some c ∧ vf_Digest v = bytesDigest c) verified.
Proof.
  induction facts as [|fact facts IH]; intros clock verified Hv; cbn [verify_all] in Hv; [injection Hv as <-; by split|].
  apply bind_result_Ok in Hv as (digest & Hd & Hv). apply bind_result_Ok in Hv as (rest & Hr & [= <-]). destruct (IH _ _ Hr) as [<- Hall].
  split; [done|]. constructor; [by apply (verify_Ok (clock 0%nat))|done].
Qed.

Definition well_typed (facts : list Fact) : Prop := Forall (fun f => is_u64 (f_Sequence f)) facts.

(** The journal holds exactly the facts [fs]. *)
Record holds (journal : MemoryJournal) (fs : list Fact) : Prop := {
  ho_tidy : all_tidy journal;
  ho_records : ∀ k n d, record_of journal k n = Some d ↔ ∃ f c, f ∈ fs ∧ sourceKey f = k ∧ f_Sequence f = n ∧ marshal f = Some c ∧ bytesDigest c = d;
  ho_authentic : ∀ f, f ∈ fs → authentic f ∧ is_Some (marshal f);
}.

Lemma Ingest_Ok complete clock ctx facts journal journal' r fs : well_typed facts → holds journal fs →
  Ingest complete clock ctx facts journal = (journal', Ok r) →
  holds journal' (fs ++ facts) ∧ b_Accepted r + b_Duplicates r = Z.of_nat (length facts) ∧
  Z.of_nat (total journal') = Z.of_nat (total journal) + b_Accepted r ∧
  b_Watermarks r = ss_watermark <$> journal' ∧ b_MissingSequences r = omap missing_of journal'.
Proof.
  intros Hty [Ht Hr Ha]. unfold Ingest. destruct (negb complete); [done|]. destruct (_ || _); [done|].
  destruct (verify_all clock facts) as [verified|] eqn:Hv; [|done]. apply verify_all_Ok in Hv as [Hf Hv]. intros Hap.
  assert (Forall (fun v => 1 ≤ f_Sequence (vf_Fact v) < 2 ^ 64) verified) as Hseq.
  { unfold well_typed in Hty. rewrite <- Hf, Forall_fmap in Hty. rewrite Forall_forall in Hty, Hv |- *. intros v Hin.
    destruct (Hv v Hin) as [Hne _]. specialize (Hty v Hin). unfold is_u64, compose in Hty. lia. }
  destruct (AppendBatch_Ok _ _ _ _ _ Ht Hseq Hap) as [P1 P2 _ P4 P5 P6 P7]. rewrite Forall_forall in Hv. split_and!; try done.
  - split; [done| |].
    + intros k n d. rewrite P2, Hr. split.
      * intros [(f & c & Hin & ?)|(v & Hin & [= <- <-] & <-)]; [exists f, c; split; [by apply elem_of_app; left|done]|].
        destruct (Hv v Hin) as (_ & _ & c & Hc & ->). exists (vf_Fact v), c. split; [|done]. apply elem_of_app. right. rewrite <- Hf. by apply list_elem_of_fmap_2.
      * intros (f & c & [Hin|Hin]%elem_of_app & <- & <- & Hc & <-); [left; eauto 10|right]. rewrite <- Hf in Hin. apply list_elem_of_fmap in Hin as (v & -> & Hin).
        exists v. split_and!; [done..|]. destruct (Hv v Hin) as (_ & _ & c' & Hc' & ->). congruence.
    + intros f [Hin|Hin]%elem_of_app; [by apply Ha|]. rewrite <- Hf in Hin. apply list_elem_of_fmap in Hin as (v & -> & Hin).
      destruct (Hv v Hin) as (_ & Hau & c & Hc & _). eauto.
  - rewrite P4, <- Hf. by rewrite length_fmap.
Qed.

Lemma Ingest_Err complete clock ctx facts journal journal' e : Ingest complete clock ctx facts journal = (journal', Err e) → journal' = journal.
Proof.
  unfold Ingest. destruct (negb complete); [congruence|]. destruct (_ || _); [congruence|]. destruct (verify_all clock facts); [|congruence]. apply AppendBatch_Err.
Qed.

(** The facts of the batches that were accepted, and how many of them were new. *)
Definition taken (log : list (list Fact * result BatchResult)) : list Fact :=
  flat_map (fun entry => if is_ok entry.2 then entry.1 else []) log.

Definition counted (log : list (list Fact * result BatchResult)) : Z :=
  fold_right (fun entry n => match entry.2 with Ok r => b_Accepted r + n | Err _ => n end) 0 log.

Lemma total_new : total NewMemoryJournal = 0%nat.
Proof. apply map_fold_empty. Qed.

Lemma holds_nothing : holds NewMemoryJournal [].
Proof.
  split; [done| |by intros f ?%not_elem_of_nil]. intros k n d. split; [done|]. by intros (f & c & ?%not_elem_of_nil & _).
Qed.

Lemma deliver_holds calls : ∀ journal fs journal' log, Forall (fun call => well_typed call.2) calls → holds journal fs →
  deliver journal calls = (journal', log) →
  holds journal' (fs ++ taken log) ∧ Z.of_nat (total journal') = Z.of_nat (total journal) + counted log ∧
  Forall (fun entry => ∀ r, entry.2 = Ok r → b_Accepted r + b_Duplicates r = Z.of_nat (length entry.1)) log.
Proof.
  induction calls as [|[[clock ctx] facts] calls IH]; intros journal fs journal' log Hty Hh Hd; cbn [deliver] in Hd.
  { injection Hd as <- <-. cbn. rewrite app_nil_r. split_and!; [done|lia|constructor]. }
  apply Forall_cons in Hty as [Hf Hty]. destruct (Ingest true clock ctx facts journal) as [journal1 answer] eqn:Hi.
  destruct (deliver journal1 calls) as [journal2 log'] eqn:Hd'. injection Hd as <- <-. destruct answer as [r|e].
  - destruct (Ingest_Ok _ _ _ _ _ _ _ _ Hf Hh Hi) as (Hh1 & Hc1 & Ht1 & _). destruct (IH _ _ _ _ Hty Hh1 Hd') as (Hh2 & Ht2 & Hall).
    cbn [taken flat_map snd fst is_ok counted fold_right]. rewrite app_assoc. split_and!; [done|fold (counted log'); lia|]. constructor; [|done]. by intros r' [= <-].
  - apply Ingest_Err in Hi as ->. destruct (IH _ _ _ _ Hty Hh Hd') as (Hh2 & Ht2 & Hall). split_and!; [done|done|]. by constructor.
Qed.

(** Two journals that hold the same facts are equal. *)
Lemma holds_unique j1 j2 fs1 fs2 : holds j1 fs1 → holds j2 fs2 → (∀ f, f ∈ fs1 ↔ f ∈ fs2) → j1 = j2.
Proof.
  intros [T1 R1 _] [T2 R2 _] Hfs.
  assert (∀ k n, record_of j1 k n = record_of j2 k n) as Hrec.
  { intros k n. apply option_eq. intros d. rewrite R1, R2. by setoid_rewrite Hfs. }
  assert (∀ j j' k s, (∀ k n, record_of j k n = record_of j' k n) → all_tidy j → j !! k = Some s → ∃ s', j' !! k = Some s') as Hex.
  { intros j j' k s Hr Ht E. destruct (map_choose _ (ti_used _ (Ht _ _ E))) as (n & d & Hd).
    destruct (record_of_is_Some j' k n) as (s' & E' & _); [|eauto]. rewrite <- Hr, (record_of_Some _ _ s), Hd by done. eauto. }
  apply map_eq. intros k. destruct (j1 !! k) as [s1|] eqn:E1.
  - destruct (Hex _ _ _ _ Hrec T1 E1) as [s2 E2]. rewrite E2. f_equal. apply tidy_unique; [by eapply T1|by eapply T2|].
    apply map_eq. intros n. by rewrite <- (record_of_Some j1 k), <- (record_of_Some j2 k).
  - destruct (j2 !! k) as [s2|] eqn:E2; [|done]. destruct (Hex j2 j1 k s2) as [? ?]; [done..|congruence].
Qed.

(** ** Theorems *)

(** C27: Usage is metered once.  Over any deliveries to a new journal, the journal holds
    exactly the facts of the accepted batches; each is signed by a trusted key of its
    source; two facts with one source and number are one fact, unless SHA-256 collides
    on their encodings;
    and the answers count each held fact as accepted once, every other delivery as a
    duplicate. *)
Theorem metered_once calls journal log :
  Forall (fun call => well_typed call.2) calls → deliver NewMemoryJournal calls = (journal, log) →
  (∀ key n d, record_of journal key n = Some d ↔
     ∃ f c, f ∈ taken log ∧ sourceKey f = key ∧ f_Sequence f = n ∧ marshal f = Some c ∧ bytesDigest c = d) ∧
  (∀ f, f ∈ taken log → authentic f) ∧
  (∀ f g, f ∈ taken log → g ∈ taken log → sourceKey f = sourceKey g → f_Sequence f = f_Sequence g →
     f = g ∨ ∃ c c', marshal f = Some c ∧ marshal g = Some c' ∧ collide c c') ∧
  counted log = Z.of_nat (total journal) ∧
  Forall (fun entry => ∀ r, entry.2 = Ok r → b_Accepted r + b_Duplicates r = Z.of_nat (length entry.1)) log.
Proof.
  intros Hty Hd. destruct (deliver_holds _ _ _ _ _ Hty holds_nothing Hd) as ([Ht Hr Ha] & Htot & Hall). cbn [app] in *. split_and!; [done| | | |done].
  - intros f Hf. by apply Ha.
  - intros f g Hf Hg Ek En. destruct (Ha f Hf) as [_ [c Hc]], (Ha g Hg) as [_ [c' Hc']].
    assert (record_of journal (sourceKey f) (f_Sequence f) = Some (bytesDigest c)) as E1 by (apply Hr; eauto 10).
    assert (record_of journal (sourceKey f) (f_Sequence f) = Some (bytesDigest c')) as E2 by (apply Hr; eauto 10).
    rewrite E1 in E2. apply (inj Some) in E2. apply bytesDigest_same in E2 as [->|]; [left|right; by exists c, c'].
    apply unmarshal_marshal in Hc, Hc'. congruence.
  - rewrite total_new in Htot. lia.
Qed.

(** The order of delivery does not matter.  Two sequences of batches whose accepted
    batches have the same facts, in any order, split in any way and repeated any number
    of times, leave the same journal. *)
Theorem delivery_order_irrelevant calls1 calls2 j1 j2 log1 log2 :
  Forall (fun call => well_typed call.2) calls1 → Forall (fun call => well_typed call.2) calls2 →
  deliver NewMemoryJournal calls1 = (j1, log1) → deliver NewMemoryJournal calls2 = (j2, log2) →
  (∀ f, f ∈ taken log1 ↔ f ∈ taken log2) → j1 = j2.
Proof.
  intros T1 T2 D1 D2 Hf. destruct (deliver_holds _ _ _ _ _ T1 holds_nothing D1) as (H1 & _), (deliver_holds _ _ _ _ _ T2 holds_nothing D2) as (H2 & _).
  exact (holds_unique _ _ _ _ H1 H2 Hf).
Qed.

(** Watermarks and missing numbers are exact.  When a batch is accepted, the watermark of
    a source is the largest number up to which every number is held, and the missing
    numbers reported are the first 1000 that are not held between it and the largest
    number held. *)
Theorem watermarks_exact calls journal log clock ctx facts journal' r :
  Forall (fun call => well_typed call.2) calls → deliver NewMemoryJournal calls = (journal, log) → well_typed facts →
  Ingest true clock ctx facts journal = (journal', Ok r) →
  (∀ key, is_Some (b_Watermarks r !! key) ↔ is_Some (journal' !! key)) ∧
  ∀ key w, b_Watermarks r !! key = Some w →
    (∀ n, 1 ≤ n ≤ w → is_Some (record_of journal' key n)) ∧ record_of journal' key (w + 1) = None ∧
    (w + 1 < 2 ^ 64 → ∃ m, is_Some (record_of journal' key m) ∧ (∀ n, is_Some (record_of journal' key n) → n ≤ m) ∧
       default [] (b_MissingSequences r !! key) = take 1000 (filter (fun n => record_of journal' key n = None) (seqZ (w + 1) (m - (w + 1))))).
Proof.
  intros Hty Hd Hf Hi. destruct (deliver_holds _ _ _ _ _ Hty holds_nothing Hd) as (Hh & _).
  destruct (Ingest_Ok _ _ _ _ _ _ _ _ Hf Hh Hi) as ([Ht _ _] & _ & _ & -> & ->). split.
  - intros key. rewrite lookup_fmap, fmap_is_Some. done.
  - intros key w. rewrite lookup_fmap, lookup_omap. destruct (journal' !! key) as [s|] eqn:E; [|done]. intros [= <-].
    assert (∀ n, record_of journal' key n = ss_records s !! n) as Hrec by (intros n; by apply record_of_Some).
    destruct (Ht _ _ E) as [? ? Hb Hn ?]. rewrite Hrec. split_and!; [by intros; rewrite Hrec; apply Hb|done|].
    intros Hw. destruct (missing_of_spec s (Ht _ _ E) Hw) as (m & Hm & Hmax & Hmiss). exists m. rewrite Hrec. split_and!; [done|intros n; rewrite Hrec; apply Hmax|].
    cbn. rewrite Hmiss. unfold gaps. f_equal. apply list_filter_iff. intros n. by rewrite Hrec.
Qed.

(** Delivering accepted facts again is accepted and counts nothing. *)
Theorem redelivery_counts_nothing calls journal log clock facts verified :
  Forall (fun call => well_typed call.2) calls → deliver NewMemoryJournal calls = (journal, log) →
  (∀ f, f ∈ facts → f ∈ taken log) → 1 ≤ Z.of_nat (length facts) ≤ MaxBatchFacts → verify_all clock facts = Ok verified →
  ∃ r, Ingest true clock None facts journal = (journal, Ok r) ∧ b_Accepted r = 0 ∧ b_Duplicates r = Z.of_nat (length facts).
Proof.
  intros Hty Hd Hsub Hlen Hv. destruct (deliver_holds _ _ _ _ _ Hty holds_nothing Hd) as (Hh & _). cbn [app] in Hh. pose proof Hh as [Ht Hr Ha].
  assert (well_typed facts) as Hwt.
  { apply Forall_forall. intros f Hf. destruct (Ha f (Hsub f Hf)) as [_ [c Hc]].
    destruct (record_of_is_Some journal (sourceKey f) (f_Sequence f)) as (s & E & Hs); [rewrite (proj2 (Hr _ _ (bytesDigest c))); eauto 10|].
    pose proof (ti_numbered _ (Ht _ _ E) _ Hs). unfold is_u64. lia. }
  pose proof (verify_all_Ok _ _ _ Hv) as [Hf Hall]. rewrite Forall_forall in Hall.
  assert (∀ v, v ∈ verified → record_of journal (uses v).1 (uses v).2 = Some (vf_Digest v)) as Hheld.
  { intros v Hin. destruct (Hall v Hin) as (_ & _ & c & Hc & ->). apply Hr. exists (vf_Fact v), c. split_and!; [|done..]. apply Hsub. rewrite <- Hf. by apply list_elem_of_fmap_2. }
  destruct (Ingest true clock None facts journal) as [journal' answer] eqn:Hi.
  assert (∃ r, answer = Ok r ∧ b_Accepted r = 0) as (r & -> & Hacc).
  { unfold Ingest in Hi. destruct (_ || _) eqn:E in Hi; [bsimpl; lia|]. cbn [negb] in Hi. rewrite Hv in Hi. unfold AppendBatch in Hi.
    assert (is_ok (fold_result (check_fact journal) ∅ verified) = true) as Hok.
    { apply check_facts_ok. split; [intros v Hin; split; [|done]; intros d; rewrite Hheld by done; congruence|].
      intros v v' Hin Hin' Hu. apply Hheld in Hin, Hin'. rewrite Hu in Hin. congruence. }
    destruct (fold_result (check_fact journal) ∅ verified); [|done]. destruct (fold_left record_fact verified _) as [[stored accepted] duplicates] eqn:Hl.
    apply record_facts in Hl as (_ & _ & _ & Hacc). injection Hi as <- <-. eexists. split; [done|]. apply Hacc. intros v Hin. rewrite Hheld by done. eauto. }
  destruct (Ingest_Ok _ _ _ _ _ _ _ _ Hwt Hh Hi) as (Hh' & Hc & _). exists r. split_and!; [|done|lia]. do 2 f_equal.
  eapply holds_unique; [exact Hh'|exact Hh|]. intros f. rewrite elem_of_app. naive_solver.
Qed.

End Ingest.

(** ** An example *)

Definition sample_id (prefix : string) : string := prefix +:+ "_019b01da-7e31-7000-8000-000000000001".
Definition sample_now : Time := 62135596800 * Second + 1700000000 * Second.
Definition sample_key : list Z := replicate 64 7.

Definition unsigned_fact (source epoch : string) (sequence : Z) : Fact :=
  {| f_FactID := sample_id "use"; f_OrganizationID := sample_id "org"; f_ResourceID := sample_id "svc"; f_SourceID := source; f_SourceEpoch := epoch;
     f_Sequence := sequence; f_MeterType := "build_seconds"; f_Quantity := 30; f_Unit := "second"; f_StartTime := sample_now - Hour; f_EndTime := sample_now;
     f_CorrelationID := "build"; f_CorrectionOf := ""; f_Attributes := ∅; f_KeyID := "k1"; f_Signature := "" |}.

Definition sample_facts : list (string * string * Z) :=
  [("edge", "e1", 1); ("edge", "e1", 2); ("edge", "e1", 4); ("a", "b/c", 1); ("a/b", "c", 1)].

Definition unsigned_facts : list Fact := map (fun '(source, epoch, sequence) => unsigned_fact source epoch sequence) sample_facts.

Definition signed_fact (codec : Codec Fact) (fact : Fact) : Fact := default fact (@Sign codec toy_ed25519 (Some fact) "k1" sample_key).1.

(** The payload of a fact is known first; then the signed facts are. *)
Definition signed_facts : list Fact := Eval vm_compute in map (signed_fact (list_codec unsigned_facts)) unsigned_facts.

Definition fact_codec : Codec Fact := list_codec (unsigned_facts ++ signed_facts).

Definition sample_keys : gmap string (gmap string (list Z)) :=
  let trusted := {["k1" := @ed_public toy_ed25519 sample_key]} in {["edge" := trusted; "a" := trusted; "a/b" := trusted]}.

Definition batch (positions : list nat) : (nat → Time) * Ctx * list Fact := (fun _ => sample_now, None, omap (fun i => signed_facts !! i) positions).

Definition sample_deliver := @deliver plain_text fact_codec toy_ed25519 sample_keys.

(** Facts 1 and 4 of a source, then 1 and 2. *)
Definition sample_calls := [batch [0; 2]%nat; batch [0; 1]%nat].

Definition sample_answers (log : list (list Fact * result BatchResult)) : list (option (Z * Z)) :=
  map (fun entry => match entry.2 with Ok r => Some (b_Accepted r, b_Duplicates r) | Err _ => None end) log.

Example sample_metered :
  let '(journal, log) := sample_deliver NewMemoryJournal sample_calls in
  sample_answers log = [Some (2, 0); Some (1, 1)] ∧ total journal = 3%nat ∧
  map_to_list (ss_watermark <$> journal) = [("edge/e1", 2)] ∧ map_to_list (omap missing_of journal) = [("edge/e1", [3])].
Proof. vm_compute. auto. Qed.

(** Source a in epoch b/c and source a/b in epoch c share a key: a fact of one refuses
    the batch of the other. *)
Example sources_share_key : sample_answers (sample_deliver NewMemoryJournal [batch [3]%nat; batch [4]%nat]).2 = [Some (1, 0); None].
Proof. vm_compute. reflexivity. Qed.

Lemma sample_typed positions : well_typed (batch positions).2.
Proof.
  unfold well_typed. apply Forall_forall. intros f Hf. apply list_elem_of_omap in Hf as (i & _ & Hi). apply list_elem_of_lookup_2 in Hi.
  revert f Hi. apply Forall_forall. repeat constructor; by vm_compute.
Qed.

Lemma sample_batches_typed : Forall (fun call => well_typed call.2) sample_calls.
Proof. do 2 (constructor; [apply sample_typed|]). constructor. Qed.

Definition within (l1 l2 : list Fact) : bool := forallb (fun x => bool_decide (x ∈ l2)) l1.

Lemma within_true l1 l2 : within l1 l2 = true → ∀ f, f ∈ l1 → f ∈ l2.
Proof.
  unfold within. rewrite forallb_forall. intros Hw f Hf. apply list_elem_of_In in Hf. apply Hw in Hf. by apply bool_decide_eq_true in Hf.
Qed.

Lemma metered_once_witness : counted (sample_deliver NewMemoryJournal sample_calls).2 = 3.
Proof.
  destruct (@metered_once plain_text fact_codec toy_ed25519 sample_keys sample_calls (sample_deliver NewMemoryJournal sample_calls).1
    (sample_deliver NewMemoryJournal sample_calls).2 sample_batches_typed (surjective_pairing _)) as (_ & _ & _ & Hcount & _).
  rewrite Hcount. vm_compute. reflexivity.
Defined.

Lemma delivery_order_irrelevant_witness :
  (sample_deliver NewMemoryJournal sample_calls).1 = (sample_deliver NewMemoryJournal (rev sample_calls)).1.
Proof.
  eapply (@delivery_order_irrelevant plain_text fact_codec toy_ed25519 sample_keys sample_calls (rev sample_calls));
    [exact sample_batches_typed|apply Forall_rev, sample_batches_typed|apply surjective_pairing|apply surjective_pairing|].
  intros f. split; apply within_true; vm_compute; reflexivity.
Defined.

Definition sample_ingest := @Ingest plain_text fact_codec toy_ed25519 sample_keys true (fun _ => sample_now) None (batch [2]%nat).2 (sample_deliver NewMemoryJournal sample_calls).1.

Definition ok_value (answer : result BatchResult) : BatchResult :=
  match answer with Ok r => r | Err _ => {| b_Accepted := 0; b_Duplicates := 0; b_MissingSequences := ∅; b_Watermarks := ∅ |} end.

Lemma ok_pair (p : MemoryJournal * result BatchResult) : is_ok p.2 = true → p = (p.1, Ok (ok_value p.2)).
Proof. by destruct p as [j [r|e]]. Qed.

Lemma watermarks_exact_witness : record_of sample_ingest.1 "edge/e1" (2 + 1) = None.
Proof.
  destruct (@watermarks_exact plain_text fact_codec toy_ed25519 sample_keys sample_calls (sample_deliver NewMemoryJournal sample_calls).1
    (sample_deliver NewMemoryJournal sample_calls).2 (fun _ => sample_now) None (batch [2]%nat).2 sample_ingest.1 (ok_value sample_ingest.2)
    sample_batches_typed (surjective_pairing _) (sample_typed _) (ok_pair sample_ingest ltac:(vm_compute; reflexivity))) as [_ Hw].
  refine (proj1 (proj2 (Hw "edge/e1" 2 _))). vm_compute. reflexivity.
Defined.

Lemma redelivery_counts_nothing_witness : ∃ r, @Ingest plain_text fact_codec toy_ed25519 sample_keys true (fun _ => sample_now) None (batch [2; 0]%nat).2
  (sample_deliver NewMemoryJournal sample_calls).1 = ((sample_deliver NewMemoryJournal sample_calls).1, Ok r) ∧ b_Accepted r = 0 ∧ b_Duplicates r = 2.
Proof.
  apply (@redelivery_counts_nothing plain_text fact_codec toy_ed25519 sample_keys sample_calls _ (sample_deliver NewMemoryJournal sample_calls).2 (fun _ => sample_now)
    (batch [2; 0]%nat).2 (match @verify_all plain_text fact_codec toy_ed25519 sample_keys (fun _ => sample_now) (batch [2; 0]%nat).2 with Ok v => v | Err _ => [] end)
    sample_batches_typed (surjective_pairing _)).
  - apply within_true. vm_compute. reflexivity.
  - vm_compute. split; discriminate.
  - vm_compute. reflexivity.
Defined.

End Meter.
