(* ===== verification/TargetBundle.v ===== *)
(** * Desired-state bundles (services/regional-control/internal/targetbundle/bundle.go)

    A cell changes its resources only on signed bundles.  [Accept] decodes a bundle,
    checks its audience, lifetime, contents and signature, and then moves the generation
    of the environment forward in a store: the first generation is 1, every later one
    names the one it replaces, and the current one may be delivered again.

    encoding/json is the interface [Codec]; the store of the source is its
    [MemoryStore]. *)

From S2P Require Import Prelude Text GoStd Crypto Base64 PlatformID Storage.
Import GoStd Crypto Base64 PlatformID Storage.

Open Scope Z_scope.

Module TargetBundle.

Definition APIVersion : string := "regional.lrail.dev/v1".
Definition MaxBundleBytes : Z := 2 * 1024 * 1024.
Definition MaxValidity : Duration := 24 * Hour.
Definition ClockSkew : Duration := 5 * Minute.

Definition rejectedf {A} (detail : string) : result A := Err (Error "TargetBundle rejected" detail).
Definition conflict {A} (detail : string) : result A := Err (Error "TargetBundle generation conflict" detail).

(** ** Bundles *)

Record Resources := { rs_CPUMillis : Z; rs_MemoryBytes : Z; rs_EphemeralStorageBytes : Z }.
Record Replicas := { rp_Minimum : Z; rp_Maximum : Z }.

Record Process := {
  pr_Name : string; pr_Kind : string; pr_Command : list string; pr_Port : option Z; pr_RuntimeClass : string;
  pr_Resources : Resources; pr_Replicas : Replicas;
}.

Record Service := { sv_ID : string; sv_RevisionDigest : string; sv_ConfigDigest : string; sv_Processes : list Process }.
Record Route := { ro_ID : string; ro_ServiceID : string; ro_Hostname : string; ro_PathPrefix : string; ro_Protocol : string }.
Record VersionedRef := { vr_ID : string; vr_Version : Z }.
Record GenerationRef := { gr_ID : string; gr_Generation : Z }.

Record Artifact := {
  ar_Digest : string; ar_Platform : string; ar_SignatureRef : string; ar_ProvenanceRef : string; ar_SBOMRef : string; ar_PolicyRef : string;
}.

Record Signature := { sg_KeyID : string; sg_Algorithm : string; sg_Value : string }.

Record Bundle := {
  bd_APIVersion : string; bd_BundleID : string; bd_CellID : string; bd_OrganizationID : string; bd_ProjectID : string;
  bd_EnvironmentID : string; bd_Generation : Z; bd_PreviousGeneration : option Z; bd_IssuedAt : Time; bd_ExpiresAt : Time;
  bd_PolicyDigest : string; bd_Services : list Service; bd_Routes : list Route; bd_SecretRefs : list VersionedRef;
  bd_Volumes : list GenerationRef; bd_AddonBindings : list GenerationRef; bd_Schedules : list GenerationRef;
  bd_Artifacts : list Artifact; bd_Signature : Signature;
}.

#[local] Instance Resources_eq_dec : EqDecision Resources.
Proof. solve_decision. Defined.

#[local] Instance Replicas_eq_dec : EqDecision Replicas.
Proof. solve_decision. Defined.

#[local] Instance Process_eq_dec : EqDecision Process.
Proof. solve_decision. Defined.

#[local] Instance Service_eq_dec : EqDecision Service.
Proof. solve_decision. Defined.

#[local] Instance Route_eq_dec : EqDecision Route.
Proof. solve_decision. Defined.

#[local] Instance VersionedRef_eq_dec : EqDecision VersionedRef.
Proof. solve_decision. Defined.

#[local] Instance GenerationRef_eq_dec : EqDecision GenerationRef.
Proof. solve_decision. Defined.

#[local] Instance Artifact_eq_dec : EqDecision Artifact.
Proof. solve_decision. Defined.

#[local] Instance Signature_eq_dec : EqDecision Signature.
Proof. solve_decision. Defined.

#[export] Instance Bundle_eq_dec : EqDecision Bundle.
Proof. solve_decision. Defined.

Definition with_signature (b : Bundle) (signature : Signature) : Bundle :=
  {| bd_APIVersion := bd_APIVersion b; bd_BundleID := bd_BundleID b; bd_CellID := bd_CellID b; bd_OrganizationID := bd_OrganizationID b;
     bd_ProjectID := bd_ProjectID b; bd_EnvironmentID := bd_EnvironmentID b; bd_Generation := bd_Generation b;
     bd_PreviousGeneration := bd_PreviousGeneration b; bd_IssuedAt := bd_IssuedAt b; bd_ExpiresAt := bd_ExpiresAt b;
     bd_PolicyDigest := bd_PolicyDigest b; bd_Services := bd_Services b; bd_Routes := bd_Routes b; bd_SecretRefs := bd_SecretRefs b;
     bd_Volumes := bd_Volumes b; bd_AddonBindings := bd_AddonBindings b; bd_Schedules := bd_Schedules b; bd_Artifacts := bd_Artifacts b;
     bd_Signature := signature |}.

Record Validator := { vl_CellID : string; vl_Keys : gmap string (list Z) }.

Record Accepted := { ac_Bundle : Bundle; ac_Digest : string; ac_Replay : bool }.

(** ** The contents of a bundle *)

Section Contents.
Context `{GoText}.

(** The range over a map literal: an identifier that occurs twice is checked once, for
    the kind that is written last. *)
Definition resource_ids (b : Bundle) : gmap string string :=
  <[bd_EnvironmentID b := "env"]> (<[bd_ProjectID b := "prj"]> (<[bd_OrganizationID b := "org"]> (<[bd_CellID b := "cell"]> {[bd_BundleID b := "tgt"]}))).

Definition check_artifact (artifact : Artifact) : result unit :=
  if negb (is_digest (ar_Digest artifact)) || String.eqb (ar_SignatureRef artifact) "" || String.eqb (ar_ProvenanceRef artifact) "" ||
     String.eqb (ar_SBOMRef artifact) "" || String.eqb (ar_PolicyRef artifact) ""
  then rejectedf "artifact evidence is incomplete" else Ok tt.

Definition check_process (process : Process) : result unit :=
  if String.eqb (pr_Name process) "" || (rs_CPUMillis (pr_Resources process) =? 0) || (rs_MemoryBytes (pr_Resources process) <? 32 * 1024 * 1024) ||
     (rp_Maximum (pr_Replicas process) <? rp_Minimum (pr_Replicas process)) || (rp_Maximum (pr_Replicas process) =? 0)
  then rejectedf "service has an invalid process envelope"
  else if (String.eqb (pr_Kind process) "web" || String.eqb (pr_Kind process) "private_service") && negb (bool_decide (is_Some (pr_Port process)))
  then rejectedf "network process requires a port" else Ok tt.

Definition check_service (artifacts : list string) (service : Service) : result unit :=
  if negb (has_prefix (sv_ID service) "svc") || negb (is_digest (sv_ConfigDigest service))
  then rejectedf "service identity or configuration digest is invalid"
  else if negb (slices_Contains artifacts (sv_RevisionDigest service)) then rejectedf "service revision does not have a supplied artifact"
  else if (length (sv_Processes service) =? 0)%nat then rejectedf "service has no process groups"
  else each check_process (sv_Processes service).

Definition check_route (services : list string) (route : Route) : result unit :=
  if negb (has_prefix (ro_ID route) "rte") || String.eqb (ro_Hostname route) "" || String.eqb (ro_PathPrefix route) ""
  then rejectedf "route identity or match is invalid"
  else if negb (slices_Contains services (ro_ServiceID route)) then rejectedf "route references an unknown service" else Ok tt.

Definition check_secret (secret : VersionedRef) : result unit :=
  if negb (has_prefix (vr_ID secret) "sec") || (vr_Version secret =? 0) then rejectedf "secret reference is invalid" else Ok tt.

Definition validateGenerationRefs (references : list GenerationRef) (prefix : string) : result unit :=
  each (fun reference => if negb (has_prefix (gr_ID reference) prefix) || (gr_Generation reference =? 0)
                         then rejectedf "generation reference is invalid" else Ok tt) references.

(** [validate] up to the signature. *)
Definition validate_contents (validator : Validator) (now : Time) (b : Bundle) : result unit :=
  if negb (String.eqb (bd_APIVersion b) APIVersion) then rejectedf "unsupported api_version"
  else if negb (String.eqb (bd_CellID b) (vl_CellID validator)) then rejectedf "bundle audience does not match this cell"
  else if negb (map_forallb has_prefix (resource_ids b)) then rejectedf "resource identifier does not have its prefix"
  else if After (bd_IssuedAt b) (Add now ClockSkew) || negb (After (bd_ExpiresAt b) now) then rejectedf "bundle is not currently valid"
  else if negb (After (bd_ExpiresAt b) (bd_IssuedAt b)) || (MaxValidity <? Sub (bd_ExpiresAt b) (bd_IssuedAt b))
  then rejectedf "bundle validity window is outside policy"
  else if negb (is_digest (bd_PolicyDigest b)) then rejectedf "policy digest is invalid"
  else if (length (bd_Services b) =? 0)%nat || (length (bd_Artifacts b) =? 0)%nat then rejectedf "bundle must contain services and artifacts"
  else
    let* _ := each check_artifact (bd_Artifacts b) in
    let* _ := each (check_service (map ar_Digest (bd_Artifacts b))) (bd_Services b) in
    let* _ := each (check_route (map sv_ID (bd_Services b))) (bd_Routes b) in
    let* _ := each check_secret (bd_SecretRefs b) in
    let* _ := validateGenerationRefs (bd_Volumes b) "vol" in
    let* _ := validateGenerationRefs (bd_AddonBindings b) "add" in
    validateGenerationRefs (bd_Schedules b) "sch".

End Contents.

(** ** Signatures *)

Section Signing.
Context `{GoText} `{!Codec Bundle} `{!Ed25519}.

Definition signingBytes (b : Bundle) : result string :=
  match marshal (with_signature b {| sg_KeyID := sg_KeyID (bd_Signature b); sg_Algorithm := sg_Algorithm (bd_Signature b); sg_Value := "" |}) with
  | Some payload => Ok payload
  | None => rejectedf "signing payload canonicalization failed"
  end.

(** [Sign] changes the bundle it is given, also when it fails halfway. *)
Definition Sign (bundle : option Bundle) (keyID : string) (privateKey : list Z) : option Bundle * result unit :=
  match bundle with
  | None => (bundle, rejectedf "signing input is invalid")
  | Some b =>
      if negb (length privateKey =? PrivateKeySize)%nat || String.eqb keyID "" then (bundle, rejectedf "signing input is invalid")
      else
        let named := with_signature b {| sg_KeyID := keyID; sg_Algorithm := "ed25519"; sg_Value := "" |} in
        match signingBytes named with
        | Err e => (Some named, Err e)
        | Ok payload =>
            (Some (with_signature b {| sg_KeyID := keyID; sg_Algorithm := "ed25519"; sg_Value := EncodeToString (ed_Sign privateKey payload) |}), Ok tt)
        end
  end.

Definition validate (validator : Validator) (now : Time) (b : Bundle) : result unit :=
  let* _ := validate_contents validator now b in
  match vl_Keys validator !! sg_KeyID (bd_Signature b) with
  | None => rejectedf "signature identity is not trusted"
  | Some key =>
      if negb (String.eqb (sg_Algorithm (bd_Signature b)) "ed25519") || negb (length key =? PublicKeySize)%nat
      then rejectedf "signature identity is not trusted"
      else match DecodeString (sg_Value (bd_Signature b)) with
      | None => rejectedf "signature encoding is invalid"
      | Some signature =>
          if negb (length signature =? SignatureSize)%nat then rejectedf "signature encoding is invalid"
          else
            let* payload := signingBytes b in
            if negb (ed_Verify key payload signature) then rejectedf "signature verification failed" else Ok tt
      end
  end.

(** ** The store *)

Record generationRecord := { gn_generation : Z; gn_digest : string }.

Abbreviation MemoryStore := (gmap string generationRecord) (only parsing).

Definition NewMemoryStore : MemoryStore := ∅.

Definition store_key (cellID environmentID : string) : string := cellID +:+ "/" +:+ environmentID.

Definition CompareAndPut (ctx : Ctx) (cellID environmentID : string) (previousGeneration : option Z) (generation : Z) (digest : string)
    (store : MemoryStore) : MemoryStore * result bool :=
  match ctx with
  | Some e => (store, Err e)
  | None =>
      let key := store_key cellID environmentID in
      let put := (<[key := {| gn_generation := generation; gn_digest := digest |}]> store, Ok false) in
      match store !! key with
      | Some record =>
          if (gn_generation record =? generation) && String.eqb (gn_digest record) digest then (store, Ok true)
          else match previousGeneration with
          | None => (store, conflict "predecessor does not match")
          | Some previous =>
              if negb (previous =? gn_generation record) then (store, conflict "predecessor does not match")
              else if generation <=? gn_generation record then (store, conflict "generation is not newer")
              else put
          end
      | None =>
          if negb (generation =? 1) || bool_decide (is_Some previousGeneration)
          then (store, conflict "first generation must be 1 without predecessor") else put
      end
  end.

(** [complete] says that the context, the store, the clock and the cell are given. *)
Definition Accept (complete : bool) (validator : Validator) (now : Time) (ctx : Ctx) (raw : string) (store : MemoryStore) : MemoryStore * result Accepted :=
  if negb complete || String.eqb (vl_CellID validator) "" then (store, rejectedf "validator dependencies are incomplete")
  else if (len raw =? 0) || (MaxBundleBytes <? len raw) then (store, rejectedf "bundle size is outside policy")
  else match unmarshal raw with
  | None => (store, rejectedf "bundle JSON is invalid")
  | Some b =>
      match validate validator now b with
      | Err e => (store, Err e)
      | Ok _ =>
          match marshal b with
          | None => (store, rejectedf "bundle canonicalization failed")
          | Some fullCanonical =>
              let digest := bytesDigest fullCanonical in
              match CompareAndPut ctx (bd_CellID b) (bd_EnvironmentID b) (bd_PreviousGeneration b) (bd_Generation b) digest store with
              | (store', Err _) => (store', rejectedf "persist generation")
              | (store', Ok replay) => (store', Ok {| ac_Bundle := b; ac_Digest := digest; ac_Replay := replay |})
              end
          end
      end
  end.

(** A sequence of deliveries, at any times. *)
Fixpoint deliver (validator : Validator) (store : MemoryStore) (calls : list (Time * Ctx * string)) : MemoryStore * list Accepted :=
  match calls with
  | [] => (store, [])
  | (now, ctx, raw) :: rest =>
      let '(store', answer) := Accept true validator now ctx raw store in
      let '(store'', log) := deliver validator store' rest in
      (store'', match answer with Ok accepted => accepted :: log | Err _ => log end)
  end.

(** ** Lemmas *)

Definition evidenced (artifact : Artifact) : Prop :=
  is_digest (ar_Digest artifact) = true ∧ ar_SignatureRef artifact ≠ "" ∧ ar_ProvenanceRef artifact ≠ "" ∧ ar_SBOMRef artifact ≠ "" ∧ ar_PolicyRef artifact ≠ "".

(** What the contents of a valid bundle guarantee. *)
Record sound (validator : Validator) (now : Time) (b : Bundle) : Prop := {
  so_cell : bd_CellID b = vl_CellID validator;
  so_environment : has_prefix (bd_EnvironmentID b) "env" = true;
  so_window : bd_IssuedAt b ≤ now + ClockSkew ∧ now < bd_ExpiresAt b ≤ bd_IssuedAt b + MaxValidity;
  so_services : ∀ service, service ∈ bd_Services b → ∃ artifact, artifact ∈ bd_Artifacts b ∧ ar_Digest artifact = sv_RevisionDigest service ∧ evidenced artifact;
  so_routes : ∀ route, route ∈ bd_Routes b → ∃ service, service ∈ bd_Services b ∧ sv_ID service = ro_ServiceID route;
  so_secrets : ∀ secret, secret ∈ bd_SecretRefs b → has_prefix (vr_ID secret) "sec" = true ∧ vr_Version secret ≠ 0;
}.

Lemma check_artifact_Ok artifact : check_artifact artifact = Ok tt → evidenced artifact.
Proof. unfold check_artifact, evidenced. destruct (_ || _) eqn:E; [done|]. intros _. bsimpl. done. Qed.

Lemma validate_contents_sound validator now b : validate_contents validator now b = Ok tt → sound validator now b.
Proof.
  unfold validate_contents. intros Hv. passed Hv E1. passed Hv E2. passed Hv E3. passed Hv E4. passed Hv E5. passed Hv E6. passed Hv E7.
  apply bind_result_Ok in Hv as ([] & Ha%each_Ok & Hv). apply bind_result_Ok in Hv as ([] & Hs%each_Ok & Hv).
  apply bind_result_Ok in Hv as ([] & Hr%each_Ok & Hv). apply bind_result_Ok in Hv as ([] & Hx%each_Ok & _).
  rewrite Forall_forall in Ha. rewrite Forall_forall in Hs. rewrite Forall_forall in Hr. rewrite Forall_forall in Hx. split.
  - by bsimpl.
  - apply negb_false_iff in E3. rewrite map_forallb_true in E3. apply E3. apply lookup_insert_eq.
  - unfold After, Add, MaxValidity, ClockSkew in *. bsimpl. rewrite Sub_le in * by (unfold Hour, Minute, Second; lia). lia.
  - intros service Hin. specialize (Hs service Hin). unfold check_service in Hs. passed Hs F. passed Hs E. apply negb_false_iff, slices_Contains_true, list_elem_of_fmap in E as (artifact & -> & Hin').
    exists artifact. split; [done|]. split; [done|]. by apply check_artifact_Ok, Ha.
  - intros route Hin. specialize (Hr route Hin). unfold check_route in Hr. passed Hr F. passed Hr E. apply negb_false_iff, slices_Contains_true, list_elem_of_fmap in E as (service & -> & Hin'). eauto.
  - intros secret Hin. specialize (Hx secret Hin). unfold check_secret in Hx. passed Hx E. by bsimpl.
Qed.

(** A signature by a trusted key over the bundle without it. *)
Definition authentic (validator : Validator) (b : Bundle) : Prop :=
  ∃ key signature payload, vl_Keys validator !! sg_KeyID (bd_Signature b) = Some key ∧ DecodeString (sg_Value (bd_Signature b)) = Some signature ∧
    signingBytes b = Ok payload ∧ ed_Verify key payload signature = true.

Lemma validate_Ok validator now b : validate validator now b = Ok tt → sound validator now b ∧ authentic validator b.
Proof.
  unfold validate. intros ([] & Hc%validate_contents_sound & Hv)%bind_result_Ok. split; [done|].
  destruct (vl_Keys validator !! _) as [key|] eqn:E1; [|done]. destruct (_ || _); [done|]. destruct (DecodeString _) as [signature|] eqn:E2; [|done].
  destruct (negb _); [done|]. apply bind_result_Ok in Hv as (payload & E3 & Hv). destruct (ed_Verify key payload signature) eqn:E4; [|done]. unfold authentic. eauto 10.
Qed.

Lemma Accept_Ok complete validator now ctx raw store store' a : Accept complete validator now ctx raw store = (store', Ok a) →
  let b := ac_Bundle a in
  unmarshal raw = Some b ∧ sound validator now b ∧ authentic validator b ∧ (∃ c, marshal b = Some c ∧ ac_Digest a = bytesDigest c) ∧
  CompareAndPut ctx (bd_CellID b) (bd_EnvironmentID b) (bd_PreviousGeneration b) (bd_Generation b) (ac_Digest a) store = (store', Ok (ac_Replay a)).
Proof.
  unfold Accept. destruct (_ || _); [done|]. destruct (_ || _); [done|]. destruct (unmarshal raw) as [b|]; [|done].
  destruct (validate validator now b) as [[]|] eqn:Hv; [|done]. apply validate_Ok in Hv as [? ?]. destruct (marshal b) as [c|] eqn:Hc; [|done]. cbv zeta.
  destruct (CompareAndPut _ _ _ _ _ _ _) as [store1 [replay|]] eqn:Hp; [|done]. intros [= <- <-]. cbn. eauto 10.
Qed.

Lemma CompareAndPut_Err ctx cell environment previous generation digest store store' e :
  CompareAndPut ctx cell environment previous generation digest store = (store', Err e) → store' = store.
Proof. unfold CompareAndPut, conflict. cbv zeta. intros Hc. repeat case_match; by simplify_eq. Qed.

Lemma Accept_Err complete validator now ctx raw store store' e : Accept complete validator now ctx raw store = (store', Err e) → store' = store.
Proof.
  unfold Accept, rejectedf. cbv zeta. intros Ha. repeat case_match; simplify_eq; try done. by eapply CompareAndPut_Err.
Qed.

(** The bundles of an environment that moved its generation. *)
Definition moved (environment : string) (log : list Accepted) : list Accepted :=
  filter (fun a => bd_EnvironmentID (ac_Bundle a) = environment ∧ ac_Replay a = false) log.

Definition record_for (a : Accepted) : generationRecord := {| gn_generation := bd_Generation (ac_Bundle a); gn_digest := ac_Digest a |}.

(** Each bundle names the one before it and is newer. *)
Fixpoint chained (previous : option Z) (l : list Accepted) : Prop :=
  match l with
  | [] => True
  | a :: rest =>
      bd_PreviousGeneration (ac_Bundle a) = previous ∧
      match previous with None => bd_Generation (ac_Bundle a) = 1 | Some p => p < bd_Generation (ac_Bundle a) end ∧
      chained (Some (bd_Generation (ac_Bundle a))) rest
  end.

Lemma chained_app previous l a : chained previous (l ++ [a]) ↔
  chained previous l ∧ chained (match last l with Some x => Some (bd_Generation (ac_Bundle x)) | None => previous end) [a].
Proof.
  revert previous. induction l as [|x l IH]; intros previous; [cbn; tauto|]. rewrite <- app_comm_cons. cbn [chained]. rewrite IH.
  destruct l as [|y l]; [cbn; tauto|]. rewrite (last_cons x (y :: l)). destruct (last (y :: l)) as [z|] eqn:E; [cbn [default chained]; tauto|by apply last_None in E].
Qed.

Lemma moved_app environment l a : moved environment (l ++ [a]) =
  moved environment l ++ (if decide (bd_EnvironmentID (ac_Bundle a) = environment ∧ ac_Replay a = false) then [a] else []).
Proof. unfold moved. rewrite filter_app. f_equal. Qed.

Lemma store_key_inj cell e1 e2 : store_key cell e1 = store_key cell e2 → e1 = e2.
Proof. unfold store_key. by intros [= ?]%(inj (String.append cell)). Qed.

(** What a store holds after the deliveries [log] to one cell. *)
Definition tracks (cell : string) (store : MemoryStore) (log : list Accepted) : Prop :=
  ∀ environment, store !! store_key cell environment = record_for <$> last (moved environment log) ∧ chained None (moved environment log).

(** A replay is of the bundle that is current. *)
Definition replays (log : list Accepted) : Prop :=
  ∀ l1 a l2, log = l1 ++ a :: l2 → ac_Replay a = true →
    ∃ c, last (moved (bd_EnvironmentID (ac_Bundle a)) l1) = Some c ∧ bd_Generation (ac_Bundle c) = bd_Generation (ac_Bundle a) ∧ ac_Digest c = ac_Digest a.

Lemma snoc_split {A} (l l1 l2 : list A) a x : l ++ [a] = l1 ++ x :: l2 → (l2 = [] ∧ l1 = l ∧ x = a) ∨ ∃ l2', l2 = l2' ++ [a] ∧ l = l1 ++ x :: l2'.
Proof.
  destruct l2 as [|y l2 _] using rev_ind; [intros [-> ->]%app_inj_tail; auto|]. rewrite app_comm_cons, app_assoc. intros [-> ->]%app_inj_tail. eauto.
Qed.

Lemma replays_snoc log a : replays log →
  (ac_Replay a = true → ∃ c, last (moved (bd_EnvironmentID (ac_Bundle a)) log) = Some c ∧
     bd_Generation (ac_Bundle c) = bd_Generation (ac_Bundle a) ∧ ac_Digest c = ac_Digest a) → replays (log ++ [a]).
Proof. intros Hr Ha l1 x l2 [(_ & -> & ->)|(l2' & -> & ->)]%snoc_split; [done|]. by apply (Hr l1 x l2'). Qed.

Lemma tracks_put cell store log a : tracks cell store log → ac_Replay a = false →
  chained (bd_Generation ∘ ac_Bundle <$> last (moved (bd_EnvironmentID (ac_Bundle a)) log)) [a] →
  tracks cell (<[store_key cell (bd_EnvironmentID (ac_Bundle a)) := record_for a]> store) (log ++ [a]).
Proof.
  intros Ht Hr Hc environment. destruct (Ht environment) as [Hl Hch]. rewrite moved_app. case_decide as Hd.
  - destruct Hd as [<- _]. rewrite lookup_insert_eq, last_snoc. split; [done|]. rewrite chained_app. split; [done|]. by destruct (last (moved _ log)).
  - rewrite app_nil_r, lookup_insert_ne; [done|]. intros E%store_key_inj. naive_solver.
Qed.

Lemma Accept_tracks complete validator now ctx raw store log store' a :
  tracks (vl_CellID validator) store log → replays log → Accept complete validator now ctx raw store = (store', Ok a) →
  tracks (vl_CellID validator) store' (log ++ [a]) ∧ replays (log ++ [a]).
Proof.
  intros Ht Hr (_ & Hs & _ & _ & Hp)%Accept_Ok. rewrite (so_cell _ _ _ Hs) in Hp. unfold CompareAndPut in Hp. destruct ctx; [done|]. cbv zeta in Hp.
  destruct (Ht (bd_EnvironmentID (ac_Bundle a))) as [Hl _]. rewrite Hl in Hp. destruct (last (moved _ log)) as [c|] eqn:Hc; cbn in Hp.
  - destruct (_ && _) eqn:E in Hp; [|destruct (bd_PreviousGeneration (ac_Bundle a)) as [previous|] eqn:Hprev; [|done]; destruct (negb _) eqn:E1 in Hp; [done|];
      destruct (_ <=? _) eqn:E2 in Hp; [done|]]; injection Hp as <- Hrep.
    + bsimpl. split; [|apply replays_snoc; eauto]. intros environment. rewrite moved_app, decide_False by (by intros []; congruence). rewrite app_nil_r. apply Ht.
    + clear E. bsimpl. split; [apply (tracks_put _ _ _ _ Ht); [done|]; rewrite Hc; cbn; split_and!; [congruence|lia|done]|apply replays_snoc; [done|congruence]].
  - destruct (_ || _) eqn:E in Hp; [done|]. apply orb_false_iff in E as [E1 E2]. apply bool_decide_eq_false in E2. injection Hp as <- Hrep. apply negb_false_iff, Z.eqb_eq in E1.
    split; [apply (tracks_put _ _ _ _ Ht); [done|]; rewrite Hc; cbn|apply replays_snoc; [done|congruence]]. split_and!; [|done..]. destruct (bd_PreviousGeneration _); [by destruct E2|done].
Qed.

Definition identified (a : Accepted) : Prop := ∃ c, marshal (ac_Bundle a) = Some c ∧ ac_Digest a = bytesDigest c.

Lemma deliver_tracks validator calls : ∀ store log0 store' log, tracks (vl_CellID validator) store log0 → replays log0 →
  deliver validator store calls = (store', log) →
  tracks (vl_CellID validator) store' (log0 ++ log) ∧ replays (log0 ++ log) ∧ Forall (fun a => authentic validator (ac_Bundle a) ∧ identified a) log.
Proof.
  induction calls as [|[[now ctx] raw] calls IH]; intros store log0 store' log Ht Hr Hd; cbn [deliver] in Hd.
  { injection Hd as <- <-. by rewrite app_nil_r. }
  destruct (Accept true validator now ctx raw store) as [store1 [a|e]] eqn:Ha; destruct (deliver validator store1 calls) as [store2 log2] eqn:Hd2; injection Hd as <- <-.
  - destruct (Accept_tracks _ _ _ _ _ _ _ _ _ Ht Hr Ha) as [Ht1 Hr1]. destruct (IH _ _ _ _ Ht1 Hr1 Hd2) as (Ht2 & Hr2 & Hall).
    rewrite cons_middle, app_assoc. split_and!; [done..|]. constructor; [|done]. apply Accept_Ok in Ha as (_ & _ & ? & ? & _). by split.
  - apply Accept_Err in Ha as ->. by apply (IH store).
Qed.

Lemma tracks_new cell : tracks cell NewMemoryStore [].
Proof. by intros environment. Qed.

Lemma replays_new : replays [].
Proof. intros l1 a l2 E. by destruct l1. Qed.

Lemma chained_above p l m : chained (Some p) l → m ∈ l → p < bd_Generation (ac_Bundle m).
Proof.
  revert p. induction l as [|x l IH]; intros p; [by intros _ ?%not_elem_of_nil|]. cbn [chained]. intros (_ & Hx & Hl) [->|Hm]%elem_of_cons; [done|].
  specialize (IH _ Hl Hm). lia.
Qed.

Lemma chained_unique previous l a b : chained previous l → a ∈ l → b ∈ l → bd_Generation (ac_Bundle a) = bd_Generation (ac_Bundle b) → a = b.
Proof.
  revert previous. induction l as [|x l IH]; intros previous; [by intros _ ?%not_elem_of_nil|]. cbn [chained]. intros (_ & _ & Hl).
  intros [->|Ha]%elem_of_cons [->|Hb]%elem_of_cons E; [done| | |by eapply IH].
  - pose proof (chained_above _ _ _ Hl Hb). lia.
  - pose proof (chained_above _ _ _ Hl Ha). lia.
Qed.

(** Every accepted bundle, replayed or not, is one that moved its environment. *)
Lemma accepted_moved log a : replays log → a ∈ log →
  ∃ m, m ∈ moved (bd_EnvironmentID (ac_Bundle a)) log ∧ bd_Generation (ac_Bundle m) = bd_Generation (ac_Bundle a) ∧ ac_Digest m = ac_Digest a.
Proof.
  intros Hr (l1 & l2 & ->)%list_elem_of_split. destruct (ac_Replay a) eqn:E.
  - destruct (Hr l1 a l2 eq_refl E) as (c & Hc & Hg & Hd). exists c. split; [|done]. unfold moved. rewrite filter_app. apply elem_of_app. left.
    apply last_Some in Hc as [l' Hc]. unfold moved in Hc. rewrite Hc. set_solver.
  - exists a. split; [|done]. unfold moved. apply list_elem_of_filter. split; [done|set_solver].
Qed.

(** ** Theorems *)

(** An accepted bundle is signed and whole.  It is what the delivered text decodes to, a
    trusted key signed it, it is addressed to this cell and valid now, every service
    revision has an artifact with its evidence, and every route has its service. *)
Theorem bundle_authentic complete validator now ctx raw store store' a :
  Accept complete validator now ctx raw store = (store', Ok a) →
  unmarshal raw = Some (ac_Bundle a) ∧ authentic validator (ac_Bundle a) ∧ sound validator now (ac_Bundle a).
Proof. by intros (? & ? & ? & _)%Accept_Ok. Qed.

(** C26: The generations of an environment form a chain.  Over any deliveries to a new store,
    the bundles that moved an environment start with generation 1, each names the one
    before it and is newer, and the store holds the last; a replay is of the bundle that
    is current at that moment; two bundles accepted for one generation are the same
    bundle, unless SHA-256 collides on their encodings. *)
Theorem generations_chain validator calls store log : deliver validator NewMemoryStore calls = (store, log) →
  (∀ environment, chained None (moved environment log) ∧
     store !! store_key (vl_CellID validator) environment = record_for <$> last (moved environment log)) ∧
  replays log ∧
  (∀ a b, a ∈ log → b ∈ log → bd_EnvironmentID (ac_Bundle a) = bd_EnvironmentID (ac_Bundle b) →
     bd_Generation (ac_Bundle a) = bd_Generation (ac_Bundle b) →
     ac_Bundle a = ac_Bundle b ∨ ∃ c c', marshal (ac_Bundle a) = Some c ∧ marshal (ac_Bundle b) = Some c' ∧ collide c c').
Proof.
  intros (Ht & Hr & Hall)%(deliver_tracks validator calls _ _ _ _ (tracks_new _) replays_new). cbn [app] in *. split_and!; [|done|].
  - intros environment. destruct (Ht environment). by split.
  - intros a b Ha Hb Ee Eg. destruct (accepted_moved _ _ Hr Ha) as (m & Hm & Gm & Dm), (accepted_moved _ _ Hr Hb) as (n & Hn & Gn & Dn).
    rewrite <- Ee in Hn. destruct (Ht (bd_EnvironmentID (ac_Bundle a))) as [_ Hch].
    assert (m = n) as <- by (eapply chained_unique; [exact Hch|done|done|congruence]).
    rewrite Forall_forall in Hall. destruct (Hall a Ha) as [_ (c & Hc & Dc)], (Hall b Hb) as [_ (c' & Hc' & Dc')].
    rewrite Dm in Dn. rewrite Dc, Dc' in Dn. apply bytesDigest_same in Dn as [->|]; [left|right; by exists c, c']. apply unmarshal_marshal in Hc, Hc'. congruence.
Qed.

(** What [Sign] signs, [validate] accepts, when the key is trusted and the contents are
    valid. *)
Theorem signed_bundle_valid validator now b b' keyID privateKey :
  Sign (Some b) keyID privateKey = (Some b', Ok tt) → vl_Keys validator !! keyID = Some (ed_public privateKey) →
  validate_contents validator now b = Ok tt → validate validator now b' = Ok tt.
Proof.
  unfold Sign. destruct (_ || _) eqn:E; [done|]. apply orb_false_iff in E as [E _]. apply negb_false_iff, Nat.eqb_eq in E.
  destruct (signingBytes _) as [payload|] eqn:Hp; [|done]. intros [= <-] Hk Hc. destruct (ed_Sign_bytes privateKey payload E) as [Hl Hb].
  unfold validate. change (validate_contents validator now (with_signature b _)) with (validate_contents validator now b). rewrite Hc.
  cbn [bind_result bd_Signature with_signature sg_KeyID sg_Algorithm sg_Value]. rewrite Hk, ed_public_length, Decode_Encode, Hl by done.
  cbn [negb orb Nat.eqb PublicKeySize SignatureSize String.eqb Ascii.eqb Bool.eqb]. change (signingBytes (with_signature b _)) with (signingBytes (with_signature b {| sg_KeyID := keyID; sg_Algorithm := "ed25519"; sg_Value := "" |})).
  rewrite Hp. cbn [bind_result]. by rewrite ed_Verify_Sign.
Qed.

End Signing.

(** ** An example *)

Definition sample_id (prefix : string) : string := prefix +:+ "_019b01da-7e31-7000-8000-000000000001".
Definition sample_now : Time := 62135596800 * Second + 1700000000 * Second.
Definition sample_key : list Z := replicate 64 7.

Definition sample_service : Service :=
  {| sv_ID := sample_id "svc"; sv_RevisionDigest := sample_digest "a"; sv_ConfigDigest := sample_digest "b";
     sv_Processes := [{| pr_Name := "web"; pr_Kind := "web"; pr_Command := []; pr_Port := Some 8080; pr_RuntimeClass := "gvisor";
       pr_Resources := {| rs_CPUMillis := 100; rs_MemoryBytes := 67108864; rs_EphemeralStorageBytes := 0 |}; pr_Replicas := {| rp_Minimum := 1; rp_Maximum := 2 |} |}] |}.

Definition unsigned_bundle (project : string) (generation : Z) (previous : option Z) : Bundle :=
  {| bd_APIVersion := APIVersion; bd_BundleID := sample_id "tgt"; bd_CellID := sample_id "cell"; bd_OrganizationID := sample_id "org"; bd_ProjectID := project;
     bd_EnvironmentID := sample_id "env"; bd_Generation := generation; bd_PreviousGeneration := previous; bd_IssuedAt := sample_now; bd_ExpiresAt := sample_now + Hour;
     bd_PolicyDigest := sample_digest "c"; bd_Services := [sample_service];
     bd_Routes := [{| ro_ID := sample_id "rte"; ro_ServiceID := sample_id "svc"; ro_Hostname := "www.example.com"; ro_PathPrefix := "/"; ro_Protocol := "http" |}];
     bd_SecretRefs := []; bd_Volumes := []; bd_AddonBindings := []; bd_Schedules := [];
     bd_Artifacts := [{| ar_Digest := sample_digest "a"; ar_Platform := "linux/amd64"; ar_SignatureRef := "s"; ar_ProvenanceRef := "p"; ar_SBOMRef := "b"; ar_PolicyRef := "y" |}];
     bd_Signature := {| sg_KeyID := "k1"; sg_Algorithm := "ed25519"; sg_Value := "" |} |}.

Definition unsigned_bundles : list Bundle := [unsigned_bundle (sample_id "prj") 1 None; unsigned_bundle (sample_id "prj") 2 (Some 1)].

Definition signed_bundles : list Bundle :=
  Eval vm_compute in map (fun b => default b (@Sign (list_codec unsigned_bundles) toy_ed25519 (Some b) "k1" sample_key).1) unsigned_bundles.

(** The signed bundles are written as 2 and 3. *)
Definition bundle_codec : Codec Bundle := list_codec (unsigned_bundles ++ signed_bundles).

Definition sample_validator : Validator := {| vl_CellID := sample_id "cell"; vl_Keys := {["k1" := @ed_public toy_ed25519 sample_key]} |}.

(** The second generation too early, the first twice, the second, the first again. *)
Definition sample_calls : list (Time * Ctx * string) := map (fun raw => (sample_now, None, raw)) ["3"; "2"; "2"; "3"; "2"].

Definition sample_deliver := @deliver plain_text bundle_codec toy_ed25519 sample_validator NewMemoryStore sample_calls.

Example sample_accepted : map (fun a => (bd_Generation (ac_Bundle a), ac_Replay a)) sample_deliver.2 = [(1, false); (1, true); (2, false)].
Proof. vm_compute. reflexivity. Qed.

(** The map of identifiers checks one kind only for an identifier that occurs twice. *)
Example project_may_be_environment :
  @validate_contents plain_text sample_validator sample_now (unsigned_bundle (sample_id "env") 1 None) = Ok tt ∧ @has_prefix plain_text (sample_id "env") "prj" = false.
Proof. split; vm_compute; reflexivity. Qed.

Lemma generations_chain_witness : sample_deliver.1 !! store_key (sample_id "cell") (sample_id "env") = record_for <$> last (moved (sample_id "env") sample_deliver.2).
Proof.
  destruct (@generations_chain plain_text bundle_codec toy_ed25519 sample_validator sample_calls sample_deliver.1 sample_deliver.2 (surjective_pairing _)) as [Hc _].
  apply (Hc (sample_id "env")).
Defined.

Definition sample_accept := @Accept plain_text bundle_codec toy_ed25519 true sample_validator sample_now None "2" NewMemoryStore.

Lemma accept_pair (p : gmap string generationRecord * result Accepted) a : p.2 = Ok a → p = (p.1, Ok a).
Proof. destruct p; cbn; congruence. Qed.

Definition sample_bundle : Bundle := default (unsigned_bundle (sample_id "prj") 1 None) (signed_bundles !! 0%nat).

Lemma bundle_authentic_witness : @authentic bundle_codec toy_ed25519 sample_validator sample_bundle.
Proof.
  destruct (@bundle_authentic plain_text bundle_codec toy_ed25519 true sample_validator sample_now None "2" NewMemoryStore sample_accept.1
    {| ac_Bundle := sample_bundle; ac_Digest := bytesDigest "2"; ac_Replay := false |}) as (_ & Ha & _).
  - apply accept_pair. vm_compute. reflexivity.
  - exact Ha.
Defined.

Lemma signed_bundle_valid_witness : @validate plain_text bundle_codec toy_ed25519 sample_validator sample_now sample_bundle = Ok tt.
Proof.
  apply (@signed_bundle_valid plain_text bundle_codec toy_ed25519 sample_validator sample_now (unsigned_bundle (sample_id "prj") 1 None) sample_bundle "k1" sample_key);
    vm_compute; reflexivity.
Defined.

End TargetBundle.
