(* ===== verification/EdgeCompiler.v ===== *)
(** * The edge route compiler (services/edge-control/internal/compiler/compiler.go)

    [Compile] turns the route intents of all organizations into one generation for the
    edge: every route is validated, no organization may take a hostname another one
    uses, and the routes are put in order of precedence and digested.  The theorems say
    that hostnames have one owner, that routes are in order, and that the generation
    does not depend on the order of the intents. *)

From S2P Require Import Prelude Text GoStd Crypto PlatformID Storage GoURL NetAddr GoNet Ordering.
From stdpp Require Import pretty.
Import GoStd Crypto PlatformID Storage GoURL NetAddr GoNet Ordering.

Open Scope Z_scope.

Module EdgeCompiler.

Definition invalidf {A} (detail : string) : result A := Err (Error "invalid edge generation" detail).

(** ** Intents and generations *)

Definition MatchExact : string := "exact".
Definition MatchPrefix : string := "prefix".
Definition MatchRegex : string := "regex".

Record Target := { tg_ReleaseID : string; tg_ClusterID : string; tg_Weight : Z }.

Record RouteIntent := {
  ri_ID : string; ri_OrganizationID : string; ri_Hostname : string; ri_Match : string; ri_Path : string; ri_Priority : Z; ri_Targets : list Target;
}.

Record Intent := {
  in_GenerationID : string; in_CompilerVersion : string; in_SchemaVersion : string; in_PolicyDigest : string; in_PreviousGeneration : string;
  in_CreatedAt : Time; in_Routes : list RouteIntent;
}.

Record CompiledRoute := {
  cr_ID : string; cr_OrganizationID : string; cr_Hostname : string; cr_Wildcard : bool; cr_Match : string; cr_Path : string; cr_Priority : Z;
  cr_Targets : list Target;
}.

Record Generation := {
  ge_GenerationID : string; ge_CompilerVersion : string; ge_SchemaVersion : string; ge_PolicyDigest : string; ge_PreviousGeneration : string;
  ge_CreatedAt : Time; ge_Routes : list CompiledRoute; ge_CanonicalDigest : string;
}.

#[export] Instance Target_eq_dec : EqDecision Target.
Proof. solve_decision. Defined.

#[export] Instance CompiledRoute_eq_dec : EqDecision CompiledRoute.
Proof. solve_decision. Defined.

#[export] Instance Generation_eq_dec : EqDecision Generation.
Proof. solve_decision. Defined.

(** ** One route *)

Section Route.
Context `{GoText} `{!NetNames}.

Definition normalizeHostname (value : string) : result (string * bool) :=
  if String.eqb value "" || negb (String.eqb value (TrimSpace value)) then invalidf "hostname is empty or padded"
  else
    let value := TrimSuffix (ToLower value) "." in
    let wildcard := HasPrefix value "*." in
    let* value :=
      if wildcard then
        if negb (CountChar value "*" =? 1)%nat then invalidf "wildcard hostname is invalid" else Ok (TrimPrefix value "*.")
      else if ContainsChar value "*" then invalidf "wildcard must be the complete leftmost label" else Ok value in
    match ToASCII value with
    | None => invalidf "hostname is invalid"
    | Some ascii =>
        if String.eqb ascii "" || (253 <? len ascii) then invalidf "hostname is invalid"
        else if bool_decide (is_Some (ParseAddr ascii)) || negb (ContainsChar ascii ".") then invalidf "hostname must be a DNS name"
        else Ok (if wildcard then "*." +:+ ascii else ascii, wildcard)
    end.

Definition line_break_or_nul (c : ascii) : bool := (byte_of c =? 13) || (byte_of c =? 10) || (byte_of c =? 0).

Definition validatePath (kind value : string) : result unit :=
  if String.eqb value "" || ContainsChar value "\" || ContainsAny value line_break_or_nul then invalidf "path is malformed"
  else
    let lower := ToLower value in
    if Contains lower "%2f" || Contains lower "%5c" || Contains lower "%2e" then invalidf "encoded slash, backslash, or dot is not allowed"
    else if String.eqb kind MatchRegex then
      if 1024 <? len value then invalidf "regex path exceeds limit"
      else if negb (regexp_Compile value) then invalidf "regex path is invalid" else Ok tt
    else if negb (HasPrefix value "/") then invalidf "literal path must start with a slash"
    else match ParseRequestURI value with
    | None => invalidf "path is not canonical"
    | Some parsed =>
        if negb (String.eqb (u_RawQuery parsed) "") || negb (String.eqb (u_Fragment parsed) "") || Contains value "/../" || HasSuffix value "/.."
        then invalidf "path is not canonical" else Ok tt
    end.

(** The loop over the targets: the releases seen and the weight, in uint32. *)
Definition check_target (acc : list string * Z) (target : Target) : result (list string * Z) :=
  let '(seen, weight) := acc in
  if negb (has_prefix (tg_ReleaseID target) "rel") then invalidf "identifier must use rel prefix"
  else if String.eqb (tg_ClusterID target) "" || (tg_Weight target =? 0) then invalidf "route has an incomplete target"
  else if slices_Contains seen (tg_ReleaseID target) then invalidf "route repeats release"
  else Ok (tg_ReleaseID target :: seen, u32 (weight + tg_Weight target)).

Definition compare_targets (first second : Target) : Z := Compare (tg_ReleaseID first) (tg_ReleaseID second).

Definition compileRoute (route : RouteIntent) : result CompiledRoute :=
  if negb (has_prefix (ri_ID route) "rte") then invalidf "identifier must use rte prefix"
  else if negb (has_prefix (ri_OrganizationID route) "org") then invalidf "identifier must use org prefix"
  else
    let* (hostname, wildcard) := normalizeHostname (ri_Hostname route) in
    if negb (slices_Contains [MatchExact; MatchPrefix; MatchRegex] (ri_Match route)) then invalidf "route has unknown match kind"
    else
      let* _ := validatePath (ri_Match route) (ri_Path route) in
      if String.eqb (ri_Match route) MatchRegex && (ri_Priority route =? 0) then invalidf "regex route requires explicit priority"
      else if negb (String.eqb (ri_Match route) MatchRegex) && negb (ri_Priority route =? 0) then invalidf "priority is reserved for regex routes"
      else if (length (ri_Targets route) =? 0)%nat || (32 <? length (ri_Targets route))%nat then invalidf "route target count is outside policy"
      else
        let* (_, weight) := fold_result check_target ([], 0) (ri_Targets route) in
        if negb (weight =? 100) then invalidf "route target weights do not sum to 100"
        else Ok {| cr_ID := ri_ID route; cr_OrganizationID := ri_OrganizationID route; cr_Hostname := hostname; cr_Wildcard := wildcard;
                   cr_Match := ri_Match route; cr_Path := ri_Path route; cr_Priority := ri_Priority route;
                   cr_Targets := SortStableFunc compare_targets (ri_Targets route) |}.

End Route.

(** ** Precedence *)

Definition host_rank (route : CompiledRoute) : Z := if cr_Wildcard route then 1 else 0.

Definition rank (kind : string) : Z := if String.eqb kind MatchExact then 0 else if String.eqb kind MatchPrefix then 1 else 2.

(** Differences are taken in Go's int; lengths are far from its bounds, priorities need
    not be. *)
Definition compareRoutes (first second : CompiledRoute) : Z :=
  if negb (host_rank first =? host_rank second) then host_rank first - host_rank second
  else if negb (len (cr_Hostname first) =? len (cr_Hostname second)) then len (cr_Hostname second) - len (cr_Hostname first)
  else if negb (Compare (cr_Hostname first) (cr_Hostname second) =? 0) then Compare (cr_Hostname first) (cr_Hostname second)
  else if negb (rank (cr_Match first) =? rank (cr_Match second)) then rank (cr_Match first) - rank (cr_Match second)
  else if String.eqb (cr_Match first) MatchRegex && negb (cr_Priority first =? cr_Priority second) then i64 (cr_Priority second - cr_Priority first)
  else if negb (len (cr_Path first) =? len (cr_Path second)) then len (cr_Path second) - len (cr_Path first)
  else Compare (cr_ID first) (cr_ID second).

(** ** Ownership of hostnames *)

Record claims := { cl_exact : gmap string string; cl_wildcard : gmap string string; cl_children : gmap string (gset string) }.

Definition no_claims : claims := {| cl_exact := ∅; cl_wildcard := ∅; cl_children := ∅ |}.

Definition other_owner (owner : option string) (organization : string) : bool :=
  match owner with Some o => negb (String.eqb o organization) | None => false end.

Definition suffix_of (route : CompiledRoute) : string := TrimPrefix (cr_Hostname route) "*.".

Definition parent_of (route : CompiledRoute) : option string := snd <$> Cut (cr_Hostname route) ".".

Definition claimHostname (route : CompiledRoute) (c : claims) : result claims :=
  let organization := cr_OrganizationID route in
  if cr_Wildcard route then
    let suffix := suffix_of route in
    if other_owner (cl_wildcard c !! suffix) organization then invalidf "hostname crosses organization ownership"
    else if existsb (fun owner => negb (String.eqb owner organization)) (elements (default ∅ (cl_children c !! suffix)))
    then invalidf "wildcard overlaps another organization"
    else Ok {| cl_exact := cl_exact c; cl_wildcard := <[suffix := organization]> (cl_wildcard c); cl_children := cl_children c |}
  else if other_owner (cl_exact c !! cr_Hostname route) organization then invalidf "hostname crosses organization ownership"
  else
    let* children :=
      match parent_of route with
      | Some suffix =>
          if other_owner (cl_wildcard c !! suffix) organization then invalidf "hostname overlaps another organization's wildcard"
          else Ok (<[suffix := {[organization]} ∪ default ∅ (cl_children c !! suffix)]> (cl_children c))
      | None => Ok (cl_children c)
      end in
    Ok {| cl_exact := <[cr_Hostname route := organization]> (cl_exact c); cl_wildcard := cl_wildcard c; cl_children := children |}.

(** ** Lemmas on precedence *)

(** The routes whose priorities can be subtracted. *)
Definition comparable (route : CompiledRoute) : Prop :=
  cr_Match route ∈ [MatchExact; MatchPrefix; MatchRegex] ∧ - 2 ^ 62 ≤ cr_Priority route < 2 ^ 62.

Definition regex_priority (route : CompiledRoute) : Z := if String.eqb (cr_Match route) MatchRegex then - cr_Priority route else 0.

Definition precedence : CompiledRoute → CompiledRoute → Z :=
  then_by (fun x y => host_rank x - host_rank y)
 (then_by (fun x y => - len (cr_Hostname x) - - len (cr_Hostname y))
 (then_by (fun x y => Compare (cr_Hostname x) (cr_Hostname y))
 (then_by (fun x y => rank (cr_Match x) - rank (cr_Match y))
 (then_by (fun x y => regex_priority x - regex_priority y)
 (then_by (fun x y => - len (cr_Path x) - - len (cr_Path y)) (fun x y => Compare (cr_ID x) (cr_ID y))))))).

Lemma then_by_key {A} (x y : A) (f : A → Z) second :
  then_by (fun x y => f x - f y) second x y = if negb (f x =? f y) then f x - f y else second x y.
Proof. unfold then_by. destruct (Z.eqb_spec (f x) (f y)), (Z.eqb_spec (f x - f y) 0); cbn; try lia; done. Qed.

Lemma then_by_longer {A} (x y : A) (f : A → Z) second :
  then_by (fun x y => - f x - - f y) second x y = if negb (f x =? f y) then f y - f x else second x y.
Proof. unfold then_by. destruct (Z.eqb_spec (f x) (f y)), (Z.eqb_spec (- f x - - f y) 0); cbn; try lia; done. Qed.

Lemma compareRoutes_precedence x y : comparable x → comparable y → compareRoutes x y = precedence x y.
Proof.
  intros [Mx Px] [My Py]. unfold compareRoutes, precedence.
  rewrite (then_by_key x y host_rank). destruct (negb (host_rank x =? host_rank y)); [done|].
  rewrite (then_by_longer x y (fun r => len (cr_Hostname r))). destruct (negb (len (cr_Hostname x) =? len (cr_Hostname y))); [done|].
  unfold then_by at 1. destruct (Compare (cr_Hostname x) (cr_Hostname y) =? 0); [cbn [negb]|done].
  rewrite (then_by_key x y (fun r => rank (cr_Match r))). destruct (rank (cr_Match x) =? rank (cr_Match y)) eqn:Er; [cbn [negb]|done]. apply Z.eqb_eq in Er.
  assert (cr_Match x = cr_Match y) as Em.
  { rewrite !elem_of_cons, elem_of_nil in Mx, My. destruct Mx as [Ex|[Ex|[Ex|[]]]], My as [Ey|[Ey|[Ey|[]]]]; rewrite Ex, Ey in *; done. }
  rewrite (then_by_key x y regex_priority), (then_by_longer x y (fun r => len (cr_Path r))). unfold regex_priority. rewrite <- Em.
  destruct (String.eqb (cr_Match x) MatchRegex); cbn [andb]; [|done]. destruct (Z.eqb_spec (cr_Priority x) (cr_Priority y)) as [->|Hne].
  - by rewrite Z.eqb_refl.
  - rewrite (proj2 (Z.eqb_neq (- cr_Priority x) (- cr_Priority y))) by lia. cbn [negb]. rewrite i64_small; lia.
Qed.

#[export] Instance compareRoutes_lawful : Lawful comparable compareRoutes.
Proof.
  apply (lawful_ext comparable precedence); [|apply compareRoutes_precedence]. unfold precedence.
  repeat apply then_by_lawful; try apply key_lawful; try apply text_lawful.
Qed.

Lemma precedence_zero x y : precedence x y = 0 → cr_ID x = cr_ID y.
Proof.
  unfold precedence, then_by. intros Hp. repeat match type of Hp with (if ?b then _ else _) = _ => destruct b eqn:?; [|bsimpl; lia] end. by apply Compare_0.
Qed.

(** ** Lemmas on ownership *)

(** Two routes that can match one hostname: the same name, the same wildcard, or a
    wildcard and a direct child of its suffix. *)
Definition overlap (x y : CompiledRoute) : Prop :=
  match cr_Wildcard x, cr_Wildcard y with
  | true, true => suffix_of x = suffix_of y
  | true, false => parent_of y = Some (suffix_of x)
  | false, true => parent_of x = Some (suffix_of y)
  | false, false => cr_Hostname x = cr_Hostname y
  end.

Definition compatible (x y : CompiledRoute) : Prop := overlap x y → cr_OrganizationID x = cr_OrganizationID y.

Lemma compatible_sym x y : compatible x y → compatible y x.
Proof. unfold compatible, overlap. destruct (cr_Wildcard x), (cr_Wildcard y); intros Hc Ho; symmetry; apply Hc; congruence. Qed.

(** What the maps of [Compile] hold after the routes [routes]. *)
Record claimed (c : claims) (routes : list CompiledRoute) : Prop := {
  cm_exact : ∀ name owner, cl_exact c !! name = Some owner ↔ ∃ r, r ∈ routes ∧ cr_Wildcard r = false ∧ cr_Hostname r = name ∧ cr_OrganizationID r = owner;
  cm_wildcard : ∀ suffix owner, cl_wildcard c !! suffix = Some owner ↔ ∃ r, r ∈ routes ∧ cr_Wildcard r = true ∧ suffix_of r = suffix ∧ cr_OrganizationID r = owner;
  cm_children : ∀ suffix owner, owner ∈ default ∅ (cl_children c !! suffix) ↔
    ∃ r, r ∈ routes ∧ cr_Wildcard r = false ∧ parent_of r = Some suffix ∧ cr_OrganizationID r = owner;
}.

Lemma other_owner_false owner organization : other_owner owner organization = false ↔ ∀ o, owner = Some o → o = organization.
Proof. destruct owner; cbn; [rewrite negb_false_iff, String.eqb_eq|]; naive_solver. Qed.

(** A route is claimed exactly when it is compatible with those before it. *)
Lemma claimHostname_ok c routes r : claimed c routes → is_ok (claimHostname r c) = true ↔ ∀ x, x ∈ routes → compatible x r.
Proof.
  intros [He Hw Hc]. unfold claimHostname, compatible, overlap. destruct (cr_Wildcard r) eqn:Ew.
  - destruct (other_owner _ _) eqn:E1; [|destruct (existsb _ _) eqn:E2]; cbn.
    + split; [done|]. intros Hall. rewrite <- not_false_iff_true in E1. destruct E1. apply other_owner_false. intros o (x & Hx & Wx & Sx & <-)%Hw. apply (Hall x Hx). by rewrite Wx.
    + split; [done|]. intros Hall. apply existsb_exists in E2 as (o & Ho & Hne). apply list_elem_of_In, elem_of_elements, Hc in Ho as (x & Hx & Wx & Px & <-).
      apply negb_true_iff, String.eqb_neq in Hne. destruct Hne. apply (Hall x Hx). by rewrite Wx.
    + split; [|done]. intros _ x Hx. rewrite other_owner_false in E1. destruct (cr_Wildcard x) eqn:Wx; intros Ho.
      * apply E1, Hw. eauto.
      * apply not_true_iff_false in E2. destruct (decide (cr_OrganizationID x = cr_OrganizationID r)) as [|Hne]; [done|]. destruct E2. apply existsb_exists.
        exists (cr_OrganizationID x). split; [apply list_elem_of_In, elem_of_elements, Hc; eauto|]. by apply negb_true_iff, String.eqb_neq.
  - destruct (other_owner _ _) eqn:E1; cbn.
    + split; [done|]. intros Hall. rewrite <- not_false_iff_true in E1. destruct E1. apply other_owner_false. intros o (x & Hx & Wx & Nx & <-)%He. apply (Hall x Hx). by rewrite Wx.
    + rewrite other_owner_false in E1. assert (∀ x, x ∈ routes → cr_Wildcard x = false → cr_Hostname x = cr_Hostname r → cr_OrganizationID x = cr_OrganizationID r) as Hsame.
      { intros x Hx Wx Nx. apply E1, He. eauto. }
      destruct (parent_of r) as [suffix|] eqn:Hp; [destruct (other_owner (cl_wildcard c !! suffix) _) eqn:E2|]; cbn.
      * split; [done|]. intros Hall. rewrite <- not_false_iff_true in E2. destruct E2. apply other_owner_false. intros o (x & Hx & Wx & Sx & <-)%Hw. apply (Hall x Hx). rewrite Wx. congruence.
      * split; [|done]. intros _ x Hx. rewrite other_owner_false in E2. destruct (cr_Wildcard x) eqn:Wx; intros Ho; [|by apply Hsame]. apply E2, Hw. exists x. split_and!; congruence.
      * split; [|done]. intros _ x Hx. destruct (cr_Wildcard x) eqn:Wx; intros Ho; [done|by apply Hsame].
Qed.

Lemma exists_snoc {A} (P : A → Prop) l a : (∃ x, x ∈ l ++ [a] ∧ P x) ↔ (∃ x, x ∈ l ∧ P x) ∨ P a.
Proof.
  split.
  - intros (x & [Hx|Hx]%elem_of_app & HP); [left; eauto|]. apply list_elem_of_singleton in Hx as ->. by right.
  - intros [(x & Hx & HP)|HP]; [exists x|exists a]; (split; [apply elem_of_app|done]); [by left|right; by apply list_elem_of_singleton].
Qed.

(** Inserting the owner of a route that agrees with every route of its key. *)
Lemma insert_owner (m : gmap string string) (P : CompiledRoute → Prop) (key : CompiledRoute → string) routes r k o :
  (∀ k o, m !! k = Some o ↔ ∃ x, x ∈ routes ∧ P x ∧ key x = k ∧ cr_OrganizationID x = o) →
  (∀ x, x ∈ routes → P x → key x = key r → cr_OrganizationID x = cr_OrganizationID r) → P r →
  <[key r := cr_OrganizationID r]> m !! k = Some o ↔ ∃ x, x ∈ routes ++ [r] ∧ P x ∧ key x = k ∧ cr_OrganizationID x = o.
Proof.
  intros Hm Hsame HP. rewrite (exists_snoc (fun x => P x ∧ key x = k ∧ cr_OrganizationID x = o)). rewrite lookup_insert. case_decide as Hk.
  - subst k. split; [intros [= <-]; right; auto|]. intros [(x & Hx & Px & Kx & <-)|(_ & _ & <-)]; [|done]. f_equal. symmetry. by apply Hsame.
  - rewrite Hm. split; [by left|]. intros [?|(_ & ? & _)]; done.
Qed.

Lemma claimHostname_claimed c routes r c' : claimed c routes → claimHostname r c = Ok c' → claimed c' (routes ++ [r]).
Proof.
  intros Hcl Hr. assert (∀ x, x ∈ routes → compatible x r) as Hall by (apply (claimHostname_ok c); [done|by rewrite Hr]). destruct Hcl as [He Hw Hc].
  unfold claimHostname in Hr. unfold compatible, overlap in Hall. destruct (cr_Wildcard r) eqn:Ew.
  - destruct (other_owner _ _); [done|]. destruct (existsb _ _); [done|]. injection Hr as <-. split; cbn [cl_exact cl_wildcard cl_children]; intros k o.
    + rewrite He, (exists_snoc (fun x => cr_Wildcard x = false ∧ cr_Hostname x = k ∧ cr_OrganizationID x = o)), Ew. split; [by left|]. by intros [?|[? _]].
    + apply (insert_owner (cl_wildcard c) (fun x => cr_Wildcard x = true) suffix_of); [done| |done]. intros x Hx Wx Sx. apply (Hall x Hx). by rewrite Wx.
    + rewrite Hc, (exists_snoc (fun x => cr_Wildcard x = false ∧ parent_of x = Some k ∧ cr_OrganizationID x = o)), Ew. split; [by left|]. by intros [?|[? _]].
  - destruct (other_owner _ _); [done|]. apply bind_result_Ok in Hr as (children & Hch & [= <-]). split; cbn [cl_exact cl_wildcard cl_children]; intros k o.
    + apply (insert_owner (cl_exact c) (fun x => cr_Wildcard x = false) cr_Hostname); [done| |done]. intros x Hx Wx Nx. apply (Hall x Hx). by rewrite Wx.
    + rewrite Hw, (exists_snoc (fun x => cr_Wildcard x = true ∧ suffix_of x = k ∧ cr_OrganizationID x = o)), Ew. split; [by left|]. by intros [?|[? _]].
    + rewrite (exists_snoc (fun x => cr_Wildcard x = false ∧ parent_of x = Some k ∧ cr_OrganizationID x = o)), <- Hc, Ew.
      destruct (parent_of r) as [suffix|] eqn:Hp; [destruct (other_owner _ _) in Hch; [done|]|]; injection Hch as <-.
      * rewrite lookup_insert. case_decide as Hk; [subst k; cbn; rewrite elem_of_union, elem_of_singleton|].
        -- split; [intros [->|?]; [by right|by left]|]. intros [?|(_ & _ & <-)]; [by right|by left].
        -- split; [by left|]. intros [?|(_ & [= ?] & _)]; done.
      * split; [by left|]. intros [?|(_ & ? & _)]; done.
Qed.

(** ** The generation *)

Definition nul : string := String (char_of 0) "".

Definition identity (route : CompiledRoute) : string :=
  cr_Hostname route +:+ nul +:+ cr_Match route +:+ nul +:+ cr_Path route +:+ nul +:+ pretty (cr_Priority route).

Definition validDigest (value : string) : bool :=
  (len value =? 7 + 64) && HasPrefix value "sha256:" && bool_decide (is_Some (hex_decode (TrimPrefix value "sha256:"))).

Section Compile.
Context `{GoText} `{!NetNames} `{!Codec Generation}.

Definition add_route (acc : list CompiledRoute * claims * list string) (route : RouteIntent) : result (list CompiledRoute * claims * list string) :=
  let '(routes, c, identities) := acc in
  let* compiled := compileRoute route in
  let* c := claimHostname compiled c in
  if slices_Contains identities (identity compiled) then invalidf "duplicate or ambiguous route"
  else Ok (routes ++ [compiled], c, identity compiled :: identities).

Definition generation_of (intent : Intent) (routes : list CompiledRoute) (digest : string) : Generation :=
  {| ge_GenerationID := in_GenerationID intent; ge_CompilerVersion := in_CompilerVersion intent; ge_SchemaVersion := in_SchemaVersion intent;
     ge_PolicyDigest := in_PolicyDigest intent; ge_PreviousGeneration := in_PreviousGeneration intent; ge_CreatedAt := in_CreatedAt intent;
     ge_Routes := routes; ge_CanonicalDigest := digest |}.

Definition Compile (intent : Intent) : result Generation :=
  if negb (has_prefix (in_GenerationID intent) "edg") then invalidf "identifier must use edg prefix"
  else if negb (String.eqb (in_PreviousGeneration intent) "") && negb (has_prefix (in_PreviousGeneration intent) "edg") then invalidf "identifier must use edg prefix"
  else if String.eqb (in_CompilerVersion intent) "" || String.eqb (in_SchemaVersion intent) "" || negb (validDigest (in_PolicyDigest intent)) || IsZero (in_CreatedAt intent)
  then invalidf "generation metadata is incomplete"
  else if (Z.of_nat (length (in_Routes intent)) =? 0) || (100000 <? Z.of_nat (length (in_Routes intent))) then invalidf "route count is outside policy"
  else
    let* (routes, _, _) := fold_result add_route ([], no_claims, []) (in_Routes intent) in
    let generation := generation_of intent (SortStableFunc compareRoutes routes) in
    match marshal (generation "") with
    | None => invalidf "canonicalization failed"
    | Some canonical => Ok (generation (bytesDigest canonical))
    end.

(** ** Lemmas on generations *)

Definition acceptable (routes : list CompiledRoute) : Prop :=
  (∀ x y, x ∈ routes → y ∈ routes → compatible x y) ∧ NoDup (map identity routes).

Lemma compatible_refl x : compatible x x.
Proof. by intros _. Qed.

Lemma acceptable_snoc routes x : acceptable (routes ++ [x]) ↔ acceptable routes ∧ (∀ y, y ∈ routes → compatible y x) ∧ identity x ∉ map identity routes.
Proof.
  unfold acceptable. rewrite map_app, NoDup_app. cbn [map]. split.
  - intros (Hc & Hn & Hd & _). split_and!; [intros; apply Hc; set_solver|done|intros; apply Hc; set_solver|intros Hx; apply (Hd _ Hx); by left].
  - intros ((Hc & Hn) & Hx & Hi). split_and!; [|done| |by apply NoDup_singleton].
    + intros y z [Hy|Hy]%elem_of_app [Hz|Hz]%elem_of_app; rewrite ?list_elem_of_singleton in *; subst; auto using compatible_refl. by apply compatible_sym, Hx.
    + intros i Hm ->%list_elem_of_singleton. done.
Qed.

Lemma acceptable_prefix routes more : acceptable (routes ++ more) → acceptable routes.
Proof. unfold acceptable. rewrite map_app, NoDup_app. intros (Hc & Hn & _). split; [|done]. intros x y Hx Hy. apply Hc; apply elem_of_app; by left. Qed.

Lemma acceptable_perm l1 l2 : l1 ≡ₚ l2 → acceptable l1 → acceptable l2.
Proof.
  intros Hp [Hc Hn]. split; [intros x y; rewrite <- Hp; apply Hc|]. by rewrite <- (Permutation_map identity Hp).
Qed.

(** The loop over the intents accepts exactly the acceptable lists of valid routes. *)
Lemma add_routes intents : ∀ routes c identities, claimed c routes → acceptable routes → (∀ i, i ∈ identities ↔ i ∈ map identity routes) →
  ∀ routes', (∃ c' ids', fold_result add_route (routes, c, identities) intents = Ok (routes', c', ids')) ↔
  ∃ compiled, Forall2 (fun i x => compileRoute i = Ok x) intents compiled ∧ routes' = routes ++ compiled ∧ acceptable routes'.
Proof.
  induction intents as [|i intents IH]; intros routes c identities Hcl Hac Hids routes'; cbn [fold_result].
  { split.
    - intros (c' & ids' & [= <- <- <-]). exists []. by rewrite app_nil_r.
    - intros (compiled & Hf%Forall2_nil_inv_l & -> & _). subst. rewrite app_nil_r. eauto. }
  unfold add_route at 1. destruct (compileRoute i) as [x|e] eqn:Hx; cbn [bind_result].
  2: { split; [by intros (? & ? & ?)|]. intros (compiled & (y & ? & Hy & _ & _)%Forall2_cons_inv_l & _). congruence. }
  assert (∀ compiled, Forall2 (fun i x => compileRoute i = Ok x) (i :: intents) compiled ↔
    ∃ rest, compiled = x :: rest ∧ Forall2 (fun i x => compileRoute i = Ok x) intents rest) as Hcons.
  { intros compiled. split; [intros (y & rest & Hy & Hr & ->)%Forall2_cons_inv_l; exists rest; split; [congruence|done]|]. intros (rest & -> & ?). by constructor. }
  destruct (claimHostname x c) as [c1|e] eqn:Hc; cbn [bind_result]; [destruct (slices_Contains _ _) eqn:Hd; cbn [bind_result]|].
  - split; [by intros (? & ? & ?)|]. intros (compiled & (rest & -> & _)%Hcons & -> & Ha). rewrite cons_middle, app_assoc in Ha. apply acceptable_prefix, acceptable_snoc in Ha as (_ & _ & Hn).
    by apply slices_Contains_true, Hids in Hd.
  - rewrite (IH (routes ++ [x]) c1).
    + split.
      * intros (rest & Hr & -> & Ha). exists (x :: rest). split_and!; [apply Hcons; eauto|by rewrite <- app_assoc|done].
      * intros (compiled & (rest & -> & Hr)%Hcons & -> & Ha). exists rest. split_and!; [done|by rewrite <- app_assoc|done].
    + by eapply claimHostname_claimed.
    + apply acceptable_snoc. split_and!; [done|apply (claimHostname_ok c); [done|by rewrite Hc]|]. rewrite <- Hids. by apply slices_Contains_false.
    + intros j. rewrite map_app, elem_of_app, elem_of_cons, Hids. cbn [map]. rewrite list_elem_of_singleton. tauto.
  - split; [by intros (? & ? & ?)|]. intros (compiled & (rest & -> & _)%Hcons & -> & Ha). rewrite cons_middle, app_assoc in Ha.
    apply acceptable_prefix, acceptable_snoc in Ha as (_ & Hx' & _). apply (claimHostname_ok c) in Hx'; [|done]. by rewrite Hc in Hx'.
Qed.

Lemma no_claims_claimed : claimed no_claims [].
Proof.
  split; intros k o; cbn; rewrite lookup_empty; (split; [|by intros (r & ?%not_elem_of_nil & _)]); [done..|]. cbn. by intros ?%not_elem_of_empty.
Qed.

Lemma compiled_routes intents routes :
  (∃ c' ids', fold_result add_route ([], no_claims, []) intents = Ok (routes, c', ids')) ↔
  Forall2 (fun i x => compileRoute i = Ok x) intents routes ∧ acceptable routes.
Proof.
  rewrite (add_routes intents [] no_claims []); [|apply no_claims_claimed|split; [by intros x y ?%not_elem_of_nil|constructor]|done]. cbn [app]. split.
  - by intros (compiled & ? & -> & ?).
  - intros []. eauto.
Qed.

Lemma compileRoute_Ok i x : compileRoute i = Ok x →
  cr_ID x = ri_ID i ∧ cr_OrganizationID x = ri_OrganizationID i ∧ cr_Match x = ri_Match i ∧ cr_Path x = ri_Path i ∧ cr_Priority x = ri_Priority i ∧
  cr_Match x ∈ [MatchExact; MatchPrefix; MatchRegex] ∧ cr_Targets x ≡ₚ ri_Targets i.
Proof.
  unfold compileRoute. intros Hc. passed Hc E1. passed Hc E2. apply bind_result_Ok in Hc as ([hostname wildcard] & _ & Hc). passed Hc E3.
  apply bind_result_Ok in Hc as ([] & _ & Hc). passed Hc E4. passed Hc E5. passed Hc E6. apply bind_result_Ok in Hc as ([seen weight] & _ & Hc). passed Hc E7.
  injection Hc as <-. cbn. apply negb_false_iff, slices_Contains_true in E3. split_and!; [done..|]. apply SortStableFunc_perm.
Qed.

Lemma Compile_Ok intent g : Compile intent = Ok g →
  ∃ routes canonical, Forall2 (fun i x => compileRoute i = Ok x) (in_Routes intent) routes ∧ acceptable routes ∧
    marshal (generation_of intent (SortStableFunc compareRoutes routes) "") = Some canonical ∧
    g = generation_of intent (SortStableFunc compareRoutes routes) (bytesDigest canonical).
Proof.
  unfold Compile. intros Hc. passed Hc E1. passed Hc E2. passed Hc E3. passed Hc E4. apply bind_result_Ok in Hc as ([[routes c] ids] & Hf & Hc).
  assert (∃ c' ids', fold_result add_route ([], no_claims, []) (in_Routes intent) = Ok (routes, c', ids')) as [? ?]%compiled_routes by eauto.
  cbv zeta in Hc. destruct (marshal _) as [canonical|] eqn:Hm; [|done]. injection Hc as <-. eauto 10.
Qed.



(** What precedence means for two routes, the first before the second. *)
Definition in_order (x y : CompiledRoute) : Prop :=
  (cr_Wildcard x = true → cr_Wildcard y = true) ∧
  (cr_Wildcard x = cr_Wildcard y → len (cr_Hostname y) ≤ len (cr_Hostname x)) ∧
  (cr_Wildcard x = cr_Wildcard y → cr_Hostname x = cr_Hostname y →
     rank (cr_Match x) ≤ rank (cr_Match y) ∧
     (cr_Match x = cr_Match y → cr_Match x = MatchRegex → cr_Priority y ≤ cr_Priority x) ∧
     (cr_Match x = cr_Match y → cr_Match x ≠ MatchRegex → len (cr_Path y) ≤ len (cr_Path x))).

Lemma compareRoutes_in_order x y : comparable x → comparable y → compareRoutes x y ≤ 0 → in_order x y.
Proof.
  intros Hx Hy. rewrite compareRoutes_precedence by done. unfold precedence, in_order.
  rewrite (then_by_key x y host_rank), (then_by_longer x y (fun r => len (cr_Hostname r))). unfold then_by at 1.
  rewrite (then_by_key x y (fun r => rank (cr_Match r))), (then_by_key x y regex_priority), (then_by_longer x y (fun r => len (cr_Path r))). unfold host_rank, regex_priority.
  destruct (cr_Wildcard x) eqn:Wx, (cr_Wildcard y) eqn:Wy; cbn [Z.eqb Pos.eqb negb Z.sub Z.opp Z.add]; intros Hc; try (exfalso; lia); (split_and!; try done); intros _.
  1, 3: destruct (Z.eqb_spec (len (cr_Hostname x)) (len (cr_Hostname y))); cbn [negb] in Hc; lia.
  all: intros Eh; rewrite Eh, Z.eqb_refl, Compare_refl in Hc; cbn [negb Z.eqb] in Hc.
  all: destruct (Z.eqb_spec (rank (cr_Match x)) (rank (cr_Match y))) as [Er|Er]; cbn [negb] in Hc; [|split_and!; [lia|intros Em; by rewrite Em in Er..]].
  all: split_and!; [lia|intros Em Ex|intros Em Ex]; rewrite <- Em in Hc.
  1, 3: rewrite Ex, String.eqb_refl in Hc; destruct (Z.eqb_spec (- cr_Priority x) (- cr_Priority y)); cbn [negb] in Hc; lia.
  all: rewrite (proj2 (String.eqb_neq _ _) Ex), Z.eqb_refl in Hc; cbn [negb] in Hc; destruct (Z.eqb_spec (len (cr_Path x)) (len (cr_Path y))); cbn [negb] in Hc; lia.
Qed.

(** ** Theorems *)


Definition with_routes (intent : Intent) (routes : list RouteIntent) : Intent :=
  {| in_GenerationID := in_GenerationID intent; in_CompilerVersion := in_CompilerVersion intent; in_SchemaVersion := in_SchemaVersion intent;
     in_PolicyDigest := in_PolicyDigest intent; in_PreviousGeneration := in_PreviousGeneration intent; in_CreatedAt := in_CreatedAt intent; in_Routes := routes |}.

Definition moderate (routes : list RouteIntent) : Prop := Forall (fun r => - 2 ^ 62 ≤ ri_Priority r < 2 ^ 62) routes.

Lemma compiled_comparable intents routes : moderate intents → Forall2 (fun i x => compileRoute i = Ok x) intents routes → Forall comparable routes.
Proof.
  intros Hm Hf. revert Hm. induction Hf as [|i x intents routes Hi _ IH]; intros Hm; [constructor|]. apply Forall_cons in Hm as [Hp Hm].
  constructor; [|by apply IH]. apply compileRoute_Ok in Hi as (_ & _ & _ & _ & E & ? & _). split; [done|]. by rewrite E.
Qed.

(** Routes are in order of precedence.  A generation has exactly the routes of the
    intents; exact names come before wildcards and longer names before shorter ones; for
    one name, exact paths come before prefixes and prefixes before regular expressions;
    longer paths come first, and regular expressions go by priority. *)
Theorem routes_ordered intent g : moderate (in_Routes intent) → Compile intent = Ok g →
  (∃ routes, Forall2 (fun i x => compileRoute i = Ok x) (in_Routes intent) routes ∧ ge_Routes g ≡ₚ routes) ∧
  ∀ i j x y, (i < j)%nat → ge_Routes g !! i = Some x → ge_Routes g !! j = Some y → in_order x y.
Proof.
  intros Hm (routes & canonical & Hf & _ & _ & ->)%Compile_Ok. cbn [generation_of ge_Routes]. split; [exists routes; split; [done|apply SortStableFunc_perm]|].
  pose proof (compiled_comparable _ _ Hm Hf) as Hd. intros i j x y Hij Hx Hy.
  assert (Forall comparable (SortStableFunc compareRoutes routes)) as Hd' by (by rewrite SortStableFunc_perm). rewrite Forall_forall in Hd'.
  apply compareRoutes_in_order; [eapply Hd', list_elem_of_lookup_2, Hx|eapply Hd', list_elem_of_lookup_2, Hy|].
  exact (sorted_lookup (le_by compareRoutes) _ _ _ _ _ (sort_sorted comparable compareRoutes routes Hd) Hx Hy Hij).
Qed.

(** The order of the intents does not matter: when route IDs are distinct, every order
    of the same intents compiles to the same generation, digest included. *)
Theorem intent_order_irrelevant intent intents g :
  moderate (in_Routes intent) → NoDup (map ri_ID (in_Routes intent)) → in_Routes intent ≡ₚ intents →
  Compile intent = Ok g → Compile (with_routes intent intents) = Ok g.
Proof.
  intros Hm Hnd Hp Hc. pose proof (Compile_Ok _ _ Hc) as (routes & canonical & Hf & Ha & Hmar & ->).
  assert (∃ routes', routes ≡ₚ routes' ∧ Forall2 (fun i x => compileRoute i = Ok x) intents routes') as (routes' & Hp' & Hf').
  { clear - Hf Hp. revert routes Hf. induction Hp as [|i l1 l2 Hp IH|i j l|l1 l2 l3 _ IH1 _ IH2]; intros routes Hf.
    - exists routes. by split.
    - apply Forall2_cons_inv_l in Hf as (x & rest & Hx & Hr & ->). destruct (IH _ Hr) as (rest' & ? & ?). exists (x :: rest'). split; [by constructor|by constructor].
    - apply Forall2_cons_inv_l in Hf as (x & rest & Hx & Hr & ->). apply Forall2_cons_inv_l in Hr as (y & rest' & Hy & Hr & ->).
      exists (y :: x :: rest'). split; [apply Permutation_swap|by repeat constructor].
    - destruct (IH1 _ Hf) as (r1 & P1 & F1). destruct (IH2 _ F1) as (r2 & P2 & F2). exists r2. split; [by etrans|done]. }
  assert (SortStableFunc compareRoutes routes' = SortStableFunc compareRoutes routes) as Hsort.
  { symmetry. apply (sort_permutation comparable compareRoutes); [by eapply compiled_comparable|done|]. intros x y Hx Hy E0.
    assert (cr_ID x = cr_ID y) as Eid.
    { pose proof (compiled_comparable _ _ Hm Hf) as Hd. rewrite Forall_forall in Hd. rewrite compareRoutes_precedence in E0 by auto. by apply precedence_zero. }
    assert (NoDup (map cr_ID routes)) as Hids.
    { clear - Hf Hnd. revert Hnd. replace (map cr_ID routes) with (map ri_ID (in_Routes intent)); [done|].
      induction Hf as [|i z ii zz Hi _ IH]; [done|]. cbn [map]. rewrite IH. apply compileRoute_Ok in Hi as [-> _]. done. }
    apply list_elem_of_lookup in Hx as [i Hi], Hy as [j Hj]. assert (i = j) as <-; [|congruence].
    eapply (NoDup_lookup (map cr_ID routes)); [done|by rewrite list_lookup_fmap, Hi|]. by rewrite list_lookup_fmap, Hj, Eid. }
  unfold Compile in *. cbn [with_routes in_GenerationID in_CompilerVersion in_SchemaVersion in_PolicyDigest in_PreviousGeneration in_CreatedAt in_Routes].
  rewrite <- (Permutation_length Hp). passed Hc E1. passed Hc E2. passed Hc E3. passed Hc E4.
  destruct (proj2 (compiled_routes intents routes')) as (c' & ids' & ->); [split; [done|by eapply acceptable_perm]|]. cbn [bind_result]. rewrite Hsort.
  change (generation_of (with_routes intent intents)) with (generation_of intent). by rewrite Hmar.
Qed.

End Compile.

(** ** An example *)

Definition sample_id (prefix last : string) : string := prefix +:+ "_019b01da-7e31-7000-8000-00000000000" +:+ last.

Definition sample_targets : list Target := [{| tg_ReleaseID := sample_id "rel" "1"; tg_ClusterID := "central"; tg_Weight := 100 |}].

Definition sample_route (number hostname kind path : string) (priority : Z) (targets : list Target) : RouteIntent :=
  {| ri_ID := sample_id "rte" number; ri_OrganizationID := sample_id "org" "1"; ri_Hostname := hostname; ri_Match := kind; ri_Path := path;
     ri_Priority := priority; ri_Targets := targets |}.

Definition sample_routes : list RouteIntent :=
  [sample_route "4" "*.example.com" MatchPrefix "/" 0 sample_targets; sample_route "2" "api.example.com" MatchPrefix "/v1" 0 sample_targets;
   sample_route "3" "API.Example.com." MatchPrefix "/v1/admin" 0 sample_targets; sample_route "1" "api.example.com" MatchExact "/v1/users" 0 sample_targets].

Definition sample_intent : Intent :=
  {| in_GenerationID := sample_id "edg" "1"; in_CompilerVersion := "0.1.0"; in_SchemaVersion := "edge.lrail.dev/v1"; in_PolicyDigest := sample_digest "a";
     in_PreviousGeneration := ""; in_CreatedAt := 1; in_Routes := sample_routes |}.

Definition sample_compiled : list CompiledRoute :=
  Eval vm_compute in omap (fun r => match @compileRoute plain_text plain_names r with Ok c => Some c | Err _ => None end) (rev sample_routes).

Definition sample_codec : Codec Generation := single_codec (generation_of sample_intent sample_compiled "").

Definition sample_generation : Generation := generation_of sample_intent sample_compiled (bytesDigest "json").

Lemma sample_compiles : @Compile plain_text plain_names sample_codec sample_intent = Ok sample_generation.
Proof. vm_compute. reflexivity. Qed.

Lemma sample_moderate : moderate (in_Routes sample_intent).
Proof. repeat constructor; vm_compute; congruence. Qed.


Lemma routes_ordered_witness : Forall (in_order (nth 0 sample_compiled (Build_CompiledRoute "" "" "" false "" "" 0 []))) (drop 3 sample_compiled).
Proof.
  constructor; [|constructor].
  apply (proj2 (@routes_ordered plain_text plain_names sample_codec sample_intent sample_generation sample_moderate sample_compiles) 0%nat 3%nat); [lia|reflexivity|reflexivity].
Defined.

Lemma intent_order_irrelevant_witness : @Compile plain_text plain_names sample_codec (with_routes sample_intent (rev sample_routes)) = Ok sample_generation.
Proof.
  apply (@intent_order_irrelevant plain_text plain_names sample_codec sample_intent (rev sample_routes) sample_generation sample_moderate).
  - cbn [sample_intent in_Routes]. apply (bool_decide_unpack _). vm_compute. exact I.
  - cbn [sample_intent in_Routes]. apply Permutation_rev.
  - exact sample_compiles.
Defined.

(** Weights are added in uint32: two that sum to 2^32 + 100 are accepted. *)
Example weights_wrap : is_ok (@compileRoute plain_text plain_names (sample_route "1" "api.example.com" MatchExact "/" 0
  [{| tg_ReleaseID := sample_id "rel" "1"; tg_ClusterID := "a"; tg_Weight := 4294967295 |}; {| tg_ReleaseID := sample_id "rel" "2"; tg_ClusterID := "b"; tg_Weight := 101 |}])) = true.
Proof. vm_compute. reflexivity. Qed.

(** Priorities are subtracted in int: the highest comes after the lowest. *)
Example priorities_overflow :
  let r p := {| cr_ID := "a"; cr_OrganizationID := "o"; cr_Hostname := "h"; cr_Wildcard := false; cr_Match := MatchRegex; cr_Path := "p"; cr_Priority := p; cr_Targets := [] |} in
  (0 <? compareRoutes (r (2 ^ 63 - 1)) (r (- 2 ^ 63))) = true.
Proof. vm_compute. reflexivity. Qed.

End EdgeCompiler.
