(* ===== verification/Domain.v ===== *)
(** * Domain ownership (services/dns-certificate/internal/domain)

    [Canonicalize] brings a customer's hostname into one form and refuses names nobody
    can own.  A challenge proves ownership: [NewChallenge] draws a token and keeps only
    its HMAC, bound to the organization and the domain; [Verify] accepts the token once,
    before it expires.

    idna and publicsuffix are libraries; HMAC-SHA256 is computed. *)

From S2P Require Import Prelude Text GoStd Crypto PlatformID GoURL NetAddr GoNet.
Import GoStd Crypto PlatformID GoURL NetAddr GoNet.

Open Scope Z_scope.

Module Domain.

Definition invalidf {A} (detail : string) : result A := Err (Error "invalid domain ownership input" detail).

(** ** HMAC-SHA256 *)

Definition text_of (bytes : list Z) : string := String.string_of_list_ascii (map char_of bytes).

Definition hmac_block (key : list Z) : list Z :=
  let key := if (64 <? length key)%nat then Sum256 (text_of key) else key in key ++ repeat 0 (64 - length key).

Definition xor_with (pad : Z) (bytes : list Z) : list Z := map (Z.lxor pad) bytes.

Definition HMAC (key : list Z) (message : string) : list Z :=
  let block := hmac_block key in
  Sum256 (text_of (xor_with 92 block) +:+ text_of (Sum256 (text_of (xor_with 54 block) +:+ message))).

(** RFC 4231, test cases 1 and 2. *)
Example hmac_known_answers :
  hex_bytes (HMAC (repeat 11 20) "Hi There") = "b0344c61d8db38535ca8afceaf0bf12b881dc200c9833da726e9376c2e32cff7" ∧
  hex_bytes (HMAC (bytes_of "Jefe") "what do ya want for nothing?") = "5bdcc146bf60754e6a042426089575c75a003f089d2739839dec58b964ec3843".
Proof. vm_compute. auto. Qed.

(** ** Names *)

(** golang.org/x/net/publicsuffix *)
Class PublicSuffixList := {
  PublicSuffix : string → string;
  EffectiveTLDPlusOne : string → option string;
}.

Record CanonicalName := { cn_ASCII : string; cn_Wildcard : bool; cn_Base : string }.

Definition bad_label (label : string) : bool :=
  String.eqb label "" || (63 <? len label) || HasPrefix label "-" || HasSuffix label "-".

Section Names.
Context `{GoText} `{!NetNames} `{!PublicSuffixList}.

(** The checks on a looked-up name. *)
Definition own_name (wildcard : bool) (a : string) : result CanonicalName :=
  if String.eqb a "" || (253 <? len a) then invalidf "hostname is not valid IDNA"
  else if bool_decide (is_Some (ParseAddr a)) then invalidf "IP literals cannot be owned as domains"
  else if (length (Split a ".") <? 2)%nat then invalidf "hostname must have a registrable parent"
  else if existsb bad_label (Split a ".") then invalidf "hostname contains an invalid label"
  else if String.eqb (PublicSuffix a) a then invalidf "public suffix cannot be claimed"
  else match EffectiveTLDPlusOne a with
  | None => invalidf "hostname is not registrable"
  | Some registrable => Ok {| cn_ASCII := if wildcard then "*." +:+ a else a; cn_Wildcard := wildcard; cn_Base := registrable |}
  end.

Definition Canonicalize (value : string) (allowWildcard : bool) : result CanonicalName :=
  if String.eqb value "" || negb (String.eqb value (TrimSpace value)) then invalidf "hostname is empty or padded"
  else
    let value := TrimSuffix (ToLower value) "." in
    let wildcard := HasPrefix value "*." in
    let* value :=
      if wildcard then
        if negb allowWildcard || negb (CountChar value "*" =? 1)%nat then invalidf "wildcard is not allowed" else Ok (TrimPrefix value "*.")
      else if ContainsChar value "*" then invalidf "wildcard must be the complete leftmost label" else Ok value in
    match ToASCII value with
    | None => invalidf "hostname is not valid IDNA"
    | Some ascii => own_name wildcard ascii
    end.

End Names.

(** ** Challenges *)

Definition challengeBytes : nat := 32.

Record Challenge := {
  ch_OrganizationID : string; ch_Domain : string; ch_RecordName : string; ch_Verifier : list Z; ch_ExpiresAt : Time; ch_ConsumedAt : option Time;
}.

Definition nul : ascii := char_of 0.

Definition challenge_message (organizationID domainName token : string) : string :=
  organizationID +:+ String nul (domainName +:+ String nul token).

Definition challengeVerifier (key : list Z) (organizationID domainName token : string) : list Z :=
  HMAC key (challenge_message organizationID domainName token).

Section Challenges.
Context `{GoText}.

(** [randomness] is nil or the bytes the reader gives. *)
Definition NewChallenge (organizationID : string) (domainName : CanonicalName) (now : Time) (ttl : Duration) (randomness : option (list Z))
    (hmacKey : list Z) : result (Challenge * string) :=
  if negb (has_prefix organizationID "org") then invalidf "organization ID is invalid"
  else if (ttl <=? 0) || (24 * Hour <? ttl) then invalidf "challenge TTL is outside policy"
  else match randomness with
  | None => invalidf "challenge entropy or HMAC key is insufficient"
  | Some source =>
      if (length hmacKey <? 32)%nat then invalidf "challenge entropy or HMAC key is insufficient"
      else match ReadFull challengeBytes source with
      | None => Err (Error "" "generate ownership challenge")
      | Some raw =>
          let token := b64_encode raw in
          let base := TrimPrefix (cn_ASCII domainName) "*." in
          Ok ({| ch_OrganizationID := organizationID; ch_Domain := cn_ASCII domainName; ch_RecordName := "_lrail-challenge." +:+ base;
                 ch_Verifier := challengeVerifier hmacKey organizationID (cn_ASCII domainName) token; ch_ExpiresAt := Add now ttl; ch_ConsumedAt := None |}, token)
      end
  end.

End Challenges.

Definition consumed (c : Challenge) (now : Time) : Challenge :=
  {| ch_OrganizationID := ch_OrganizationID c; ch_Domain := ch_Domain c; ch_RecordName := ch_RecordName c; ch_Verifier := ch_Verifier c;
     ch_ExpiresAt := ch_ExpiresAt c; ch_ConsumedAt := Some now |}.

(** [Verify] marks the challenge it is called on. *)
Definition Verify (presented : string) (now : Time) (hmacKey : list Z) (challenge : option Challenge) : option Challenge * result unit :=
  match challenge with
  | None => (challenge, invalidf "challenge is nil")
  | Some c =>
      if (length hmacKey <? 32)%nat then (challenge, invalidf "challenge HMAC key is insufficient")
      else if bool_decide (is_Some (ch_ConsumedAt c)) then (challenge, invalidf "challenge was already consumed")
      else if negb (Before now (ch_ExpiresAt c)) then (challenge, invalidf "challenge expired")
      else if negb (bool_decide (challengeVerifier hmacKey (ch_OrganizationID c) (ch_Domain c) presented = ch_Verifier c))
      then (challenge, invalidf "challenge proof does not match")
      else (Some (consumed c now), Ok tt)
  end.

(** A sequence of attempts on one challenge: the token, the time and the answer. *)
Fixpoint attempts (hmacKey : list Z) (challenge : option Challenge) (calls : list (string * Time)) : option Challenge * list (string * Time * bool) :=
  match calls with
  | [] => (challenge, [])
  | (presented, now) :: rest =>
      let '(challenge', answer) := Verify presented now hmacKey challenge in
      let '(challenge'', log) := attempts hmacKey challenge' rest in
      (challenge'', (presented, now, is_ok answer) :: log)
  end.

(** ** Lemmas on challenges *)

#[local] Opaque HMAC.

(** Two given messages have one HMAC under a key. *)
Definition hmac_collide (key : list Z) (x y : string) : Prop := x ≠ y ∧ HMAC key x = HMAC key y.

Lemma HMAC_same key x y : HMAC key x = HMAC key y → x = y ∨ hmac_collide key x y.
Proof. intros E. destruct (decide (x = y)); [by left|by right]. Qed.

Lemma challenge_message_inj o d t o' d' t' : ContainsChar o nul = false → ContainsChar o' nul = false → ContainsChar d nul = false → ContainsChar d' nul = false →
  challenge_message o d t = challenge_message o' d' t' → o = o' ∧ d = d' ∧ t = t'.
Proof.
  unfold challenge_message. intros Ho Ho' Hd Hd' E. destruct (join_inj nul _ _ _ _ Ho Ho' E) as [-> E']. by destruct (join_inj nul _ _ _ _ Hd Hd' E') as [-> ->].
Qed.

Definition answers_with (key : list Z) (c : Challenge) (presented : string) : Prop :=
  challengeVerifier key (ch_OrganizationID c) (ch_Domain c) presented = ch_Verifier c.

Lemma Verify_spec presented now key c : (32 ≤ length key)%nat → ch_ConsumedAt c = None →
  (now < ch_ExpiresAt c ∧ answers_with key c presented ∧ Verify presented now key (Some c) = (Some (consumed c now), Ok tt)) ∨
  (¬ (now < ch_ExpiresAt c ∧ answers_with key c presented) ∧ ∃ e, Verify presented now key (Some c) = (Some c, Err e)).
Proof.
  intros Hk Hc. unfold Verify, Before, answers_with, invalidf. rewrite (proj2 (Nat.ltb_ge _ _)), Hc by done. 
  rewrite bool_decide_eq_false_2 by (by intros []). destruct (Z.ltb_spec now (ch_ExpiresAt c)); cbn [negb]; [|right; split; [lia|eauto]].
  case_bool_decide; cbn [negb]; [by left|right]. split; [tauto|eauto].
Qed.

Lemma Verify_consumed presented now key c : is_Some (ch_ConsumedAt c) → ∃ e, Verify presented now key (Some c) = (Some c, Err e).
Proof. intros Hc. unfold Verify, invalidf. destruct (_ <? _)%nat; [eauto|]. rewrite bool_decide_eq_true_2 by done. eauto. Qed.

Lemma attempts_consumed key calls : ∀ c challenge log, is_Some (ch_ConsumedAt c) → attempts key (Some c) calls = (challenge, log) →
  challenge = Some c ∧ Forall (fun entry => entry.2 = false) log.
Proof.
  induction calls as [|[presented now] calls IH]; intros c challenge log Hc Ha; cbn [attempts] in Ha; [by injection Ha as <- <-|].
  destruct (Verify_consumed presented now key c Hc) as [e Hv]. rewrite Hv in Ha. destruct (attempts key (Some c) calls) as [c2 log2] eqn:Hr. injection Ha as <- <-.
  destruct (IH _ _ _ Hc Hr) as [-> Hall]. split; [done|]. by constructor.
Qed.

Definition failed (log : list (string * Time * bool)) : Prop := Forall (fun entry => entry.2 = false) log.

(** Either every attempt fails, and none of them was right and in time, or the first that
    was is the only one to succeed. *)
Lemma attempts_cases key calls : ∀ c challenge log, (32 ≤ length key)%nat → ch_ConsumedAt c = None → attempts key (Some c) calls = (challenge, log) →
  (failed log ∧ ∀ p t, (p, t) ∈ calls → ¬ (t < ch_ExpiresAt c ∧ answers_with key c p)) ∨
  ∃ l1 p t l2, log = l1 ++ (p, t, true) :: l2 ∧ failed l1 ∧ failed l2 ∧ t < ch_ExpiresAt c ∧ answers_with key c p.
Proof.
  induction calls as [|[presented now] calls IH]; intros c challenge log Hk Hc Ha; cbn [attempts] in Ha.
  { injection Ha as <- <-. left. split; [constructor|]. by intros p t ?%not_elem_of_nil. }
  destruct (Verify_spec presented now key c Hk Hc) as [(Ht & Hp & Hv)|(Hno & e & Hv)]; rewrite Hv in Ha.
  - destruct (attempts key (Some (consumed c now)) calls) as [c2 log2] eqn:Hr. injection Ha as <- <-.
    destruct (attempts_consumed key calls (consumed c now) _ _ ltac:(by exists now) Hr) as [_ Hall]. right. exists [], presented, now, log2. split_and!; try done. constructor.
  - destruct (attempts key (Some c) calls) as [c2 log2] eqn:Hr. injection Ha as <- <-. destruct (IH _ _ _ Hk Hc Hr) as [[Hf Hall]|(l1 & p & t & l2 & -> & Hf1 & Hf2 & ?)].
    + left. split; [by constructor|]. intros p t [[= -> ->]|Hin]%elem_of_cons; [done|by apply Hall].
    + right. exists ((presented, now, false) :: l1), p, t, l2. split_and!; [done|by constructor|done|tauto|tauto].
Qed.

Lemma failed_no log p t : failed log → (p, t, true) ∉ log.
Proof. intros Hf Hin. unfold failed in Hf. rewrite Forall_forall in Hf. by specialize (Hf _ Hin). Qed.

Lemma failed_unique l1 p t l2 m1 p' t' m2 : failed l1 → failed l2 → l1 ++ (p, t, true) :: l2 = m1 ++ (p', t', true) :: m2 → l1 = m1 ∧ l2 = m2.
Proof.
  intros H1 H2. revert m1. induction H1 as [|[[q u] b] l1 Hb H1 IH]; intros [|[[q' u'] b'] m1]; cbn in *.
  - by intros [= _ _ ->].
  - intros [= _ _ _ ->]. destruct (failed_no _ p' t' H2). apply elem_of_app. right. left.
  - intros [= _ _ E]. by rewrite Hb in E.
  - intros [= -> -> -> E]. destruct (IH m1 E) as [-> ->]. done.
Qed.

Section ChallengeLaws.
Context `{GoText}.

Lemma id_no_nul v prefix : has_prefix v prefix = true → ContainsChar v nul = false.
Proof.
  intros Hv%has_prefix_alphabet. unfold ContainsChar. apply negb_false_iff. revert Hv. apply str_forall_impl. intros c Hc. apply negb_true_iff.
  destruct (Ascii.eqb_spec c nul) as [->|]; [|done]. by vm_compute in Hc.
Qed.

Lemma NewChallenge_Ok org name now ttl source key c token : NewChallenge org name now ttl source key = Ok (c, token) →
  (32 ≤ length key)%nat ∧ ch_ConsumedAt c = None ∧ ch_ExpiresAt c = now + ttl ∧ has_prefix org "org" = true ∧
  ch_OrganizationID c = org ∧ ch_Domain c = cn_ASCII name ∧ ch_Verifier c = challengeVerifier key org (cn_ASCII name) token.
Proof.
  unfold NewChallenge. intros Hn. passed Hn E1. passed Hn E2. destruct source as [source|]; [|done]. passed Hn E3. destruct (ReadFull _ _); [|done].
  cbv zeta in Hn. injection Hn as <- <-. cbn. bsimpl. done.
Qed.

(** ** Theorems on challenges *)

(** C29: A challenge is used once, by its token, in time.  Whatever is presented, in any
    order: an attempt that succeeds was made before the challenge expires and presented
    the token, unless its message and the token's have one HMAC; no two attempts succeed; and when the
    token is presented in time, an attempt has succeeded. *)
Theorem challenge_single_use org name now ttl source key c token calls challenge log :
  NewChallenge org name now ttl source key = Ok (c, token) → attempts key (Some c) calls = (challenge, log) →
  (∀ p t, (p, t, true) ∈ log → t < now + ttl ∧ (p = token ∨ hmac_collide key (challenge_message org (cn_ASCII name) p) (challenge_message org (cn_ASCII name) token))) ∧
  (∀ l1 p t l2, log = l1 ++ (p, t, true) :: l2 → failed (l1 ++ l2)) ∧
  (∀ t, (token, t) ∈ calls → t < now + ttl → ∃ p t', (p, t', true) ∈ log).
Proof.
  intros (Hk & Hc & He & _ & Ho & Hd & Hv)%NewChallenge_Ok Ha. destruct (attempts_cases key calls c challenge log Hk Hc Ha) as [[Hf Hall]|(l1 & p & t & l2 & -> & Hf1 & Hf2 & Ht & Hp)].
  - split_and!.
    + by intros p t ?%failed_no.
    + intros l1 p t l2 ->. apply Forall_app in Hf as [_ Hf]. by apply Forall_cons in Hf as [? _].
    + intros t Hin Ht. destruct (Hall token t Hin). split; [lia|]. unfold answers_with. congruence.
  - split_and!.
    + intros p' t' [Hin|[[= -> ->]|Hin]%elem_of_cons]%elem_of_app; [by apply failed_no in Hin| |by apply failed_no in Hin].
      split; [lia|]. unfold answers_with in Hp. rewrite Ho, Hd, Hv in Hp. unfold challengeVerifier, challenge_message in Hp.
      destruct (HMAC_same _ _ _ Hp) as [E|]; [left|by right]. apply (inj (String.append org)) in E. injection E as E. apply (inj (String.append (cn_ASCII name))) in E.
      by injection E.
    + intros m1 p' t' m2 E. destruct (failed_unique _ _ _ _ _ _ _ _ Hf1 Hf2 E) as [<- <-]. by apply Forall_app.
    + intros _ _ _. exists p, t. apply elem_of_app. right. left.
Qed.

(** A verifier is bound to its organization, domain and token: two challenges with one
    verifier, made with one key, were made for the same organization and domain with the
    same token, or their messages have one HMAC. *)
Theorem challenge_bound org name now ttl source c token org' name' now' ttl' source' c' token' key :
  NewChallenge org name now ttl source key = Ok (c, token) → NewChallenge org' name' now' ttl' source' key = Ok (c', token') →
  ContainsChar (cn_ASCII name) nul = false → ContainsChar (cn_ASCII name') nul = false → ch_Verifier c = ch_Verifier c' →
  (org = org' ∧ cn_ASCII name = cn_ASCII name' ∧ token = token') ∨
  hmac_collide key (challenge_message org (cn_ASCII name) token) (challenge_message org' (cn_ASCII name') token').
Proof.
  intros (_ & _ & _ & Ho & _ & _ & Hv)%NewChallenge_Ok (_ & _ & _ & Ho' & _ & _ & Hv')%NewChallenge_Ok Hn Hn' E.
  rewrite Hv, Hv' in E. destruct (HMAC_same _ _ _ E) as [Em|]; [left|by right].
  apply challenge_message_inj in Em; [done| | |done|done]; by apply (id_no_nul _ "org").
Qed.

End ChallengeLaws.

(** ** Canonical names *)

(** The characters of a looked-up name, and of a canonical one. *)
Definition name_char (c : ascii) : bool := lower_dash c || is_char "." c || is_char "_" c.
Definition canonical_char (c : ascii) : bool := name_char c || is_char "*" c.

(** What idna.Lookup promises: its names are ASCII in lower case, without spaces and
    asterisks, and it leaves them alone. *)
Class StableNames `{!NetNames} := {
  stable_ToASCII : ∀ s a, ToASCII s = Some a → ToASCII a = Some a;
  stable_chars : ∀ s a, ToASCII s = Some a → str_forall name_char a = true;
}.

Lemma canonical_char_plain c : canonical_char c = true → is_ascii c = true ∧ lower_char c = c ∧ is_space c = false.
Proof. destruct c as [[] [] [] [] [] [] [] []]; vm_compute; by intros. Qed.

Lemma canonical_ascii a : str_forall canonical_char a = true → str_forall is_ascii a = true.
Proof. apply str_forall_impl. intros c Hc. by apply canonical_char_plain. Qed.

Lemma name_canonical a : str_forall name_char a = true → str_forall canonical_char a = true.
Proof. apply str_forall_impl. intros c Hc. unfold canonical_char. by rewrite Hc. Qed.

Lemma no_star a : str_forall name_char a = true → ContainsChar a "*" = false.
Proof.
  intros Ha. unfold ContainsChar. apply negb_false_iff. revert Ha. apply str_forall_impl.
  intros c. destruct c as [[] [] [] [] [] [] [] []]; vm_compute; by intros.
Qed.

Lemma CountChar_none a c : ContainsChar a c = false → CountChar a c = 0%nat.
Proof.
  unfold ContainsChar. rewrite negb_false_iff. induction a as [|d a IH]; [done|]. cbn [str_forall CountChar].
  intros [Hd Ha]%andb_true_iff. apply negb_true_iff in Hd. rewrite Hd. by apply IH.
Qed.

Lemma star_prefix a : ContainsChar a "*" = false → HasPrefix a "*." = false.
Proof. intros E. apply not_true_is_false. rewrite HasPrefix_spec. intros [r ->]. done. Qed.

(** Splitting at a separator the text ends with leaves an empty last part. *)
Lemma Split_ends r c : Split (r +:+ String c "") c = Split r c ++ [""].
Proof.
  induction r as [|d r IH]; cbn [String.append Split]; [by rewrite Ascii.eqb_refl|]. rewrite IH. destruct (Ascii.eqb d c); [done|].
  by destruct (Split r c) as [|w ws] eqn:E; [apply Split_nonempty in E|].
Qed.

Lemma good_labels_end a : existsb bad_label (Split a ".") = false → HasSuffix a "." = false.
Proof.
  intros E. apply not_true_is_false. rewrite HasSuffix_spec. intros [r ->]. rewrite Split_ends, existsb_app in E.
  by apply orb_false_iff in E as [_ E].
Qed.

Section NameLaws.
Context `{GoText} `{!NetNames} `{!PublicSuffixList}.

Lemma ToLower_canonical a : str_forall canonical_char a = true → ToLower a = a.
Proof.
  intros Ha. unfold ToLower. rewrite (canonical_ascii _ Ha). induction a as [|c a IH]; [done|]. cbn [str_forall str_map] in *.
  apply andb_true_iff in Ha as [Hc Ha]. rewrite (IH Ha). by destruct (canonical_char_plain c Hc) as (_ & -> & _).
Qed.

Lemma trim_right_canonical a : str_forall canonical_char a = true → trim_right a = a.
Proof.
  induction a as [|c a IH]; [done|]. cbn [str_forall trim_right]. intros [Hc Ha]%andb_true_iff. rewrite (IH Ha).
  destruct (canonical_char_plain c Hc) as (_ & _ & E). destruct a; [by rewrite E|done].
Qed.

Lemma TrimSpace_canonical a : str_forall canonical_char a = true → TrimSpace a = a.
Proof.
  intros Ha. unfold TrimSpace. rewrite (canonical_ascii _ Ha). destruct a as [|c a]; [done|]. pose proof Ha as Hc. cbn [str_forall] in Hc.
  apply andb_true_iff in Hc as [Hc _]. destruct (canonical_char_plain c Hc) as (_ & _ & E). cbn [trim_left]. rewrite E. by apply trim_right_canonical.
Qed.

Lemma Canonicalize_Ok value allow n : Canonicalize value allow = Ok n → ∃ s a wildcard, ToASCII s = Some a ∧ own_name wildcard a = Ok n ∧ (wildcard = true → allow = true).
Proof.
  unfold Canonicalize. intros E. passed E E1. apply bind_result_Ok in E as (s & E2 & E). destruct (ToASCII s) as [a|] eqn:A; [|done].
  exists s, a, (HasPrefix (TrimSuffix (ToLower value) ".") "*."). split_and!; [done..|].
  intros W. rewrite W in E2. passed E2 E3. by destruct allow.
Qed.

Lemma own_name_Ok wildcard a n : own_name wildcard a = Ok n →
  a ≠ "" ∧ len a ≤ 253 ∧ ParseAddr a = None ∧ (2 ≤ length (Split a "."))%nat ∧ existsb bad_label (Split a ".") = false ∧ PublicSuffix a ≠ a ∧
  EffectiveTLDPlusOne a = Some (cn_Base n) ∧ cn_ASCII n = (if wildcard then "*." +:+ a else a) ∧ cn_Wildcard n = wildcard.
Proof.
  unfold own_name. intros E. passed E E1. passed E E2. passed E E3. passed E E4. passed E E5. destruct (EffectiveTLDPlusOne a) eqn:T; [|done]. injection E as <-.
  bsimpl. case_bool_decide; [done|]. rewrite <- eq_None_not_Some in *. bsimpl. eauto 12.
Qed.

Lemma canonical_form wildcard a n : own_name wildcard a = Ok n → str_forall name_char a = true →
  str_forall canonical_char (cn_ASCII n) = true ∧ HasSuffix (cn_ASCII n) "." = false.
Proof.
  intros (Hne & _ & _ & _ & L & _ & _ & -> & _)%own_name_Ok C. apply good_labels_end in L. pose proof (name_canonical _ C). destruct wildcard; [|done].
  split; [done|]. by destruct a.
Qed.

(** A canonical name is a fixed point of [Canonicalize], which reads it back as the same
    name: a domain has one stored form. It is a name of at least two proper labels under a
    registrable parent, not an address and not a public suffix, and a wildcard only where
    wildcards are allowed. *)
Theorem canonical_stable `{!StableNames} value allow n : Canonicalize value allow = Ok n →
  Canonicalize (cn_ASCII n) allow = Ok n ∧ (cn_Wildcard n = true → allow = true) ∧
  ∃ a, cn_ASCII n = (if cn_Wildcard n then "*." +:+ a else a) ∧ len a ≤ 253 ∧ ParseAddr a = None ∧ PublicSuffix a ≠ a ∧
    EffectiveTLDPlusOne a = Some (cn_Base n) ∧ (2 ≤ length (Split a "."))%nat ∧ Forall (fun label => bad_label label = false) (Split a ".").
Proof.
  intros (s & a & wildcard & A & O & W)%Canonicalize_Ok. pose proof (stable_chars _ _ A) as C.
  destruct (canonical_form _ _ _ O C) as [Cn Dot]. destruct (own_name_Ok _ _ _ O) as (Hne & Hl & Hp & Hs & Hb & Hps & Ht & En & Ew).
  rewrite Ew. split_and!; [|done|].
  - unfold Canonicalize. rewrite (TrimSpace_canonical _ Cn), String.eqb_refl, (ToLower_canonical _ Cn). unfold TrimSuffix. rewrite Dot.
    rewrite En. destruct wildcard.
    + rewrite (proj2 (HasPrefix_spec _ _)), W, TrimPrefix_app by eauto.
      replace (CountChar ("*." +:+ a) "*") with 1%nat by (by cbn [String.append CountChar Ascii.eqb Bool.eqb]; rewrite CountChar_none by (by apply no_star)).
      cbn [negb orb Nat.eqb bind_result]. by rewrite (stable_ToASCII _ _ A).
    + apply String.eqb_neq in Hne. rewrite Hne, (star_prefix a), (no_star a) by (done || by apply no_star). cbn [negb orb bind_result]. by rewrite (stable_ToASCII _ _ A).
  - exists a. split_and!; try done. apply Forall_forall. intros label Hin. apply not_true_is_false. intros B.
    apply not_true_iff_false in Hb. apply Hb, existsb_exists. exists label. split; [by apply list_elem_of_In|done].
Qed.

End NameLaws.

(** ** Examples *)

(** Names of the lower-case letters, digits, dots, dashes and underscores, as they are. *)
#[local] Instance strict_names : NetNames :=
  {| ToASCII := fun s => if str_forall name_char s then Some s else None; ParseRequestURI := fun _ => None; regexp_Compile := fun _ => false |}.

#[local] Instance strict_stable : StableNames.
Proof. split; intros s a; cbn [ToASCII strict_names]; destruct (str_forall name_char s) eqn:E; intros [= <-]; by rewrite ?E. Qed.

(** A list of the one suffix com. *)
#[local] Instance com_only : PublicSuffixList :=
  {| PublicSuffix := fun s => List.last (Split s ".") "";
     EffectiveTLDPlusOne := fun s => if HasSuffix s ".com" then Some (Join "." (List.skipn (length (Split s ".") - 2) (Split s "."))) else None |}.

#[local] Existing Instance plain_text.

Definition sample_name : CanonicalName := {| cn_ASCII := "*.shop.example.com"; cn_Wildcard := true; cn_Base := "example.com" |}.

Lemma canonical_stable_witness : Canonicalize "*.Shop.Example.com." true = Ok sample_name ∧ Canonicalize "*.shop.example.com" true = Ok sample_name.
Proof. assert (E : Canonicalize "*.Shop.Example.com." true = Ok sample_name) by (vm_compute; reflexivity). split; [exact E|]. exact (proj1 (canonical_stable _ _ _ E)). Defined.

(** What nobody can own. *)
Example names_refused :
  is_ok (Canonicalize "com" true) = false ∧ is_ok (Canonicalize "192.0.2.1" true) = false ∧ is_ok (Canonicalize "*.example.com" false) = false ∧
  is_ok (Canonicalize "a.*.example.com" true) = false ∧ is_ok (Canonicalize "-a.example.com" true) = false.
Proof. vm_compute. auto. Qed.

Definition sample_org : string := "org_01890a5d-ac96-774b-bcce-b302099a8057".
Definition sample_key : list Z := repeat 7 32.
Definition sample_made := NewChallenge sample_org sample_name 0 Hour (Some (repeat 5 32)) sample_key.

Definition sample_challenge : Challenge :=
  match sample_made with Ok (c, _) => c | Err _ => {| ch_OrganizationID := ""; ch_Domain := ""; ch_RecordName := ""; ch_Verifier := []; ch_ExpiresAt := 0; ch_ConsumedAt := None |} end.
Definition sample_token : string := match sample_made with Ok (_, token) => token | Err _ => "" end.

Lemma sample_made_Ok : sample_made = Ok (sample_challenge, sample_token).
Proof. vm_compute. reflexivity. Qed.

(** A wrong token, the token, and the token again. *)
Definition sample_attempts := attempts sample_key (Some sample_challenge) [("guess", 1); (sample_token, 2); (sample_token, 3)].

Lemma challenge_single_use_witness : sample_attempts.2.*2 = [false; true; false] ∧ ∃ p t, (p, t, true) ∈ sample_attempts.2.
Proof.
  split; [vm_compute; reflexivity|].
  destruct (challenge_single_use sample_org sample_name 0 Hour (Some (repeat 5 32)) sample_key sample_challenge sample_token _ _ _
    sample_made_Ok (surjective_pairing sample_attempts)) as (_ & _ & Hused).
  apply (Hused 2); [right; left|unfold Hour, Minute, Second; lia].
Defined.

Lemma challenge_bound_witness : (sample_org = sample_org ∧ cn_ASCII sample_name = cn_ASCII sample_name ∧ sample_token = sample_token) ∨
  hmac_collide sample_key (challenge_message sample_org (cn_ASCII sample_name) sample_token) (challenge_message sample_org (cn_ASCII sample_name) sample_token).
Proof. apply (challenge_bound _ _ _ _ _ _ _ _ _ _ _ _ _ _ _ sample_made_Ok sample_made_Ok eq_refl eq_refl eq_refl). Defined.

End Domain.
