(* ===== verification/NetPolicy.v ===== *)
(** * Destinations of controlled egress (internal/netpolicy)

    [Validate] decides whether a webhook, schedule or source provider may call a URL and
    pins the addresses the call may go to; [DialAddress] gives one of them.  The numeric
    ranges no pinned address is in are stated apart from the checks, in [reserved4] and
    [reserved6].

    url.ParseRequestURI, idna and the resolver are interfaces. *)

From stdpp Require Import pretty.
From S2P Require Import Prelude Text GoStd GoURL NetAddr GoNet Ordering AddrText.
Import GoStd GoURL NetAddr GoNet Ordering AddrText.

Open Scope Z_scope.

Module NetPolicy.

Definition DefaultMaxURLBytes : Z := 2048.
Definition DefaultMaxIPs : Z := 16.

Definition deniedf {A} (detail : string) : result A := Err (Error "destination denied" detail).

Definition blockedPrefixes : list Prefix :=
  omap ParsePrefix ["0.0.0.0/8"; "100.64.0.0/10"; "192.0.0.0/24"; "192.0.2.0/24"; "198.18.0.0/15"; "198.51.100.0/24"; "203.0.113.0/24"; "240.0.0.0/4"; "2001:db8::/32"].

(** The resolver: the answers for a name, each the bytes of a net.IP. *)
Definition Resolver : Type := string → result (list (list Z)).

Record Policy := { po_Resolver : option Resolver; po_AllowHTTP : bool; po_AllowedPorts : list Z; po_MaxURLBytes : Z; po_MaxIPs : Z }.

Record Decision := { de_URL : URL; de_Host : string; de_Port : Z; de_Addresses : list Addr }.

Definition DefaultPolicy (resolver : option Resolver) : Policy :=
  {| po_Resolver := resolver; po_AllowHTTP := false; po_AllowedPorts := [443]; po_MaxURLBytes := DefaultMaxURLBytes; po_MaxIPs := DefaultMaxIPs |}.

(** ** Addresses *)

Definition IsLinkLocalMulticast (a : Addr) : bool :=
  match Unmap a with
  | Addr4 n => in_block 32 (quad 224 0 0 0) 24 n
  | Addr6 n _ => Z.land (group n 0) 65295 =? 65282
  | NoAddr => false
  end.

Definition validateAddress (address : Addr) : result unit :=
  if negb (IsValid address) || IsUnspecified address || IsLoopback address || IsPrivate address || IsLinkLocalUnicast address ||
     IsLinkLocalMulticast address || IsMulticast address
  then deniedf "address is not public unicast"
  else if existsb (fun prefix => ContainsAddr prefix address) blockedPrefixes then deniedf "address range is reserved by policy"
  else Ok tt.

Definition big_endian (bytes : list Z) : Z := fold_left (fun n b => n * 256 + b) bytes 0.

(** netip.AddrFromSlice *)
Definition AddrFromSlice (bytes : list Z) : option Addr :=
  if (length bytes =? 4)%nat then Some (Addr4 (big_endian bytes))
  else if (length bytes =? 16)%nat then Some (Addr6 (big_endian bytes) "") else None.

Definition check_answer (item : list Z) : result Addr :=
  match AddrFromSlice item with
  | None => deniedf "DNS returned an invalid address"
  | Some address => let address := Unmap address in let* _ := validateAddress address in Ok address
  end.

(** [arrange] is the order in which the map of the distinct addresses is walked. *)
Definition resolve (resolver : Resolver) (arrange : list Addr → list Addr) (hostname : string) (maxIPs : Z) : result (list Addr) :=
  match ParseAddr hostname with
  | Some literal => let literal := Unmap literal in let* _ := validateAddress literal in Ok [literal]
  | None =>
      match resolver hostname with
      | Err _ => deniedf "DNS resolution failed"
      | Ok resolved =>
          if (length resolved =? 0)%nat || (maxIPs <? Z.of_nat (length resolved)) then deniedf "DNS answer count is outside policy"
          else let* addresses := map_result check_answer resolved in Ok (SortStableFunc CompareAddr (arrange (remove_dups addresses)))
      end
  end.

Definition destinationPort (parsed : URL) : result Z :=
  let portText := Port parsed in
  if String.eqb portText "" then Ok (if String.eqb (u_Scheme parsed) "https" then 443 else 80)
  else match ParseUint16 portText with
  | Some value => if value =? 0 then deniedf "port is invalid" else Ok value
  | None => deniedf "port is invalid"
  end.

Definition with_scheme_host (u : URL) (scheme host : string) : URL :=
  {| u_Scheme := scheme; u_Opaque := u_Opaque u; u_User := u_User u; u_Host := host; u_Path := u_Path u; u_RawPath := u_RawPath u; u_OmitHost := u_OmitHost u;
     u_ForceQuery := u_ForceQuery u; u_RawQuery := u_RawQuery u; u_Fragment := u_Fragment u; u_RawFragment := u_RawFragment u |}.

Definition allowed_ports (policy : Policy) : list Z :=
  match po_AllowedPorts policy with [] => 443 :: (if po_AllowHTTP policy then [80] else []) | ports => ports end.

Definition or_default (configured default : Z) : Z := if configured =? 0 then default else configured.

Section Validate.
Context `{GoText} `{!NetNames}.

(** [context] says that the caller's context is not nil. *)
Definition Validate (policy : Policy) (arrange : list Addr → list Addr) (context : bool) (rawURL : string) : result Decision :=
  if negb context then deniedf "context is nil"
  else match po_Resolver policy with
  | None => deniedf "resolver is required"
  | Some resolver =>
      let maxURLBytes := or_default (po_MaxURLBytes policy) DefaultMaxURLBytes in
      let maxIPs := or_default (po_MaxIPs policy) DefaultMaxIPs in
      if (len rawURL =? 0) || (maxURLBytes <? len rawURL) then deniedf "URL size is outside policy"
      else if ContainsChar rawURL "#" then deniedf "fragments are not allowed"
      else match ParseRequestURI rawURL with
      | None => deniedf "invalid URL"
      | Some parsed =>
          if negb (String.eqb (u_Scheme parsed) "https") && negb (po_AllowHTTP policy && String.eqb (u_Scheme parsed) "http") then deniedf "scheme is not allowed"
          else if bool_decide (is_Some (u_User parsed)) || negb (String.eqb (u_Fragment parsed) "") then deniedf "userinfo and fragments are not allowed"
          else
            let hostname := TrimSuffix (ToLower (Hostname parsed)) "." in
            if String.eqb hostname "" then deniedf "hostname is required"
            else match ToASCII hostname with
            | None => deniedf "hostname is not valid IDNA"
            | Some asciiHost =>
                if 253 <? len asciiHost then deniedf "hostname is not valid IDNA"
                else
                  let* port := destinationPort parsed in
                  if negb (bool_decide (port ∈ allowed_ports policy)) then deniedf "port is not allowed"
                  else
                    let* addresses := resolve resolver arrange asciiHost maxIPs in
                    let scheme := ToLower (u_Scheme parsed) in
                    let host := if (String.eqb scheme "https" && (port =? 443)) || (String.eqb scheme "http" && (port =? 80)) then asciiHost
                                else JoinHostPort asciiHost (pretty port) in
                    Ok {| de_URL := with_scheme_host parsed scheme host; de_Host := asciiHost; de_Port := port; de_Addresses := addresses |}
            end
      end
  end.

End Validate.

Definition DialAddress (decision : Decision) (index : Z) : result string :=
  if (index <? 0) || (Z.of_nat (length (de_Addresses decision)) <=? index) then deniedf "resolved address index is outside decision"
  else match de_Addresses decision !! Z.to_nat index with
  | Some address => Ok (JoinHostPort (AddrString address) (pretty (de_Port decision)))
  | None => deniedf "resolved address index is outside decision"
  end.

(** ** The ranges *)

(** The first and last addresses of what is not public. *)
Definition reserved4 : list (Z * Z) :=
  [(quad 0 0 0 0, quad 0 255 255 255); (quad 10 0 0 0, quad 10 255 255 255); (quad 100 64 0 0, quad 100 127 255 255); (quad 127 0 0 0, quad 127 255 255 255);
   (quad 169 254 0 0, quad 169 254 255 255); (quad 172 16 0 0, quad 172 31 255 255); (quad 192 0 0 0, quad 192 0 0 255); (quad 192 0 2 0, quad 192 0 2 255);
   (quad 192 168 0 0, quad 192 168 255 255); (quad 198 18 0 0, quad 198 19 255 255); (quad 198 51 100 0, quad 198 51 100 255);
   (quad 203 0 113 0, quad 203 0 113 255); (quad 224 0 0 0, quad 255 255 255 255)].

Definition v6_range (first_group last_group : Z) : Z * Z := (first_group * 2 ^ 112, (last_group + 1) * 2 ^ 112 - 1).

Definition reserved6 : list (Z * Z) :=
  [(65535 * 2 ^ 32, 65536 * 2 ^ 32 - 1); v6_range 64512 65023; v6_range 65152 65215; v6_range 65280 65535].

(** 2001:db8::/32 is blocked as a prefix, and a prefix holds no address with a zone. *)
Definition documentation6 : Z * Z := (536939960 * 2 ^ 96, 536939961 * 2 ^ 96 - 1).

Definition outside (n : Z) (range : Z * Z) : Prop := n < range.1 ∨ range.2 < n.

Definition public (a : Addr) : Prop :=
  match a with
  | NoAddr => False
  | Addr4 n => 0 ≤ n < 2 ^ 32 ∧ Forall (outside n) reserved4
  | Addr6 n zone => 0 ≤ n < 2 ^ 128 ∧ n ≠ 1 ∧ (zone = "" → n ≠ 0 ∧ outside n documentation6) ∧ Forall (outside n) reserved6
  end.

(** ** Addresses that pass *)

Lemma in_block_range bits base l n : 0 ≤ bits - l → base mod 2 ^ (bits - l) = 0 → in_block bits base l n = true ↔ base ≤ n ≤ base + 2 ^ (bits - l) - 1.
Proof.
  intros Hl Hb. unfold in_block. rewrite !Z.shiftr_div_pow2, Z.eqb_eq by done. pose proof (Z.pow_pos_nonneg 2 (bits - l) ltac:(lia) Hl) as Hm.
  set (m := 2 ^ (bits - l)) in *. pose proof (Z.div_mod base m ltac:(lia)). pose proof (Z.div_mod n m ltac:(lia)). pose proof (Z.mod_pos_bound n m Hm).
  split; [intros E; rewrite E in *; lia|]. intros Hr. symmetry. apply (Z.div_unique_pos n m _ (n - base)); lia.
Qed.

Definition prefix4 (base bits : Z) : Prefix := {| px_addr := Addr4 base; px_bits := bits |}.

Lemma blockedPrefixes_are : blockedPrefixes =
  [prefix4 (quad 0 0 0 0) 8; prefix4 (quad 100 64 0 0) 10; prefix4 (quad 192 0 0 0) 24; prefix4 (quad 192 0 2 0) 24; prefix4 (quad 198 18 0 0) 15;
   prefix4 (quad 198 51 100 0) 24; prefix4 (quad 203 0 113 0) 24; prefix4 (quad 240 0 0 0) 4; {| px_addr := Addr6 (536939960 * 2 ^ 96) ""; px_bits := 32 |}].
Proof. vm_compute. reflexivity. Qed.

(** What the two checks refuse. *)
Definition refused (a : Addr) : bool :=
  negb (IsValid a) || IsUnspecified a || IsLoopback a || IsPrivate a || IsLinkLocalUnicast a || IsLinkLocalMulticast a || IsMulticast a ||
  existsb (fun prefix => ContainsAddr prefix a) blockedPrefixes.

Lemma validateAddress_refused a : validateAddress a = Ok tt ↔ refused a = false.
Proof. unfold validateAddress, refused. destruct (_ || IsMulticast a); [done|]. cbn [orb]. by destruct (existsb _ _). Qed.

Lemma not_refused (b : bool) (P : Prop) : (b = true ↔ ¬ P) → stdpp.base.Decision P → b = false ↔ P.
Proof. intros Hb [HP|HP]; destruct b; naive_solver. Qed.

Lemma refused4 n : 0 ≤ n < 2 ^ 32 → refused (Addr4 n) = true ↔ ¬ Forall (outside n) reserved4.
Proof.
  intros Hn. unfold refused, IsLoopback, IsPrivate, IsLinkLocalUnicast, IsLinkLocalMulticast, IsMulticast. rewrite blockedPrefixes_are.
  cbn [existsb IsValid IsUnspecified Unmap negb orb]. unfold ContainsAddr. cbn [hasZone IsValid px_addr px_bits BitLen value prefix4 negb andb Z.eqb Pos.eqb].
  rewrite !orb_true_iff, Z.eqb_eq, !in_block_range by done. unfold reserved4. rewrite !Forall_cons, Forall_nil. unfold outside, quad. cbn [fst snd].
  change (2 ^ 32) with 4294967296 in Hn. cbn [Z.sub Z.add Z.opp Z.pos_sub Pos.pred_double Z.pow Z.pow_pos Pos.iter Z.mul Pos.mul Pos.add]. lia.
Qed.

(** Link-local multicast is multicast. *)
Lemma link_local_multicast n : 0 ≤ n < 2 ^ 128 → Z.land (group n 0) 65295 = 65282 → 65280 * 2 ^ 112 ≤ n.
Proof.
  intros Hn E. assert (0 ≤ group n 0) as Hg by (unfold group; apply Z.mod_pos_bound; lia).
  assert (Z.land (group n 0) 65295 ≤ group n 0) as Hle.
  { rewrite <- (Z2N.id (group n 0) Hg). change 65295 with (Z.of_N 65295). rewrite <- N2Z.inj_land. apply N2Z.inj_le, N.land_le_l. }
  rewrite E in Hle. unfold group in Hle. change (16 * (7 - Z.of_nat 0)) with 112 in Hle.
  assert (0 ≤ n / 2 ^ 112 < 65536) as Hq by (split; [apply Z.div_pos; lia|apply Z.div_lt_upper_bound; lia]).
  rewrite Z.mod_small in Hle by done. pose proof (Z.mul_div_le n (2 ^ 112) ltac:(lia)). nia.
Qed.

Lemma refused6 n zone : 0 ≤ n < 2 ^ 128 → Unmap (Addr6 n zone) = Addr6 n zone →
  refused (Addr6 n zone) = true ↔ ¬ (n ≠ 1 ∧ (zone = "" → n ≠ 0 ∧ outside n documentation6) ∧ Forall (outside n) reserved6).
Proof.
  intros Hn Hu. unfold refused, IsLoopback, IsPrivate, IsLinkLocalUnicast, IsLinkLocalMulticast, IsMulticast. rewrite Hu, blockedPrefixes_are.
  assert (outside n (65535 * 2 ^ 32, 65536 * 2 ^ 32 - 1)) as Hm.
  { unfold Unmap, Is4In6 in Hu. destruct (Z.eqb_spec (Z.shiftr n 32) 65535) as [|Hne]; [done|]. rewrite Z.shiftr_div_pow2 in Hne by lia.
    unfold outside. cbn [fst snd]. destruct (decide (n < 65535 * 2 ^ 32)); [by left|]. right. destruct (decide (65536 * 2 ^ 32 - 1 < n)); [done|].
    destruct Hne. symmetry. apply (Z.div_unique_pos n (2 ^ 32) _ (n - 65535 * 2 ^ 32)); lia. }
  cbn [existsb IsValid IsUnspecified negb orb]. unfold ContainsAddr. cbn [hasZone IsValid px_addr px_bits BitLen value prefix4 negb Z.eqb Pos.eqb].
  rewrite !andb_false_r, !andb_true_r, negb_involutive. cbn [orb andb]. rewrite !orb_true_iff, !andb_true_iff, !Z.eqb_eq, String.eqb_eq, !in_block_range by done.
  unfold reserved6. rewrite !Forall_cons, Forall_nil. pose proof (link_local_multicast n Hn) as Hll.
  unfold outside, documentation6, v6_range in *. cbn [fst snd] in *. rewrite !Z.shiftl_mul_pow2 by lia.
  set (multicast := Z.land (group n 0) 65295) in *. clearbody multicast.
  cbn [Z.sub Z.add Z.opp Z.pos_sub Pos.pred_double Z.pow Z.pow_pos Pos.iter Z.mul Pos.mul Pos.add] in *.
  assert (∃ z, zone = "" ↔ z = 0) as [z Hz] by (destruct (decide (zone = "")); [by exists 0|by exists 1]). rewrite !Hz. clear Hu Hz. lia.
Qed.

#[local] Instance outside_dec n range : stdpp.base.Decision (outside n range).
Proof. unfold outside. apply _. Defined.

(** The checks let exactly the public addresses pass. *)
Lemma validateAddress_public a : well_formed a → Unmap a = a → validateAddress a = Ok tt ↔ public a.
Proof.
  intros Hw Hu. rewrite validateAddress_refused. destruct a as [|n|n zone]; [done|..]; cbn [well_formed public] in *.
  - rewrite (not_refused _ _ (refused4 n Hw)) by apply _. tauto.
  - rewrite (not_refused _ _ (refused6 n zone Hw Hu)) by apply _. tauto.
Qed.

Lemma Unmap_Unmap a : Unmap (Unmap a) = Unmap a.
Proof. destruct a as [|n|n zone]; [done..|]. unfold Unmap at 2 3. destruct (Is4In6 (Addr6 n zone)) eqn:E; [done|]. unfold Unmap. by rewrite E. Qed.

Definition bytes (item : list Z) : Prop := Forall (fun b => 0 ≤ b < 256) item.

Lemma big_endian_range item : bytes item → 0 ≤ big_endian item < 256 ^ Z.of_nat (length item).
Proof.
  unfold big_endian. assert (∀ acc, 0 ≤ acc → bytes item → acc * 256 ^ Z.of_nat (length item) ≤ fold_left (fun n b => n * 256 + b) item acc < (acc + 1) * 256 ^ Z.of_nat (length item)) as Hgen.
  { induction item as [|b item IH]; intros acc Ha Hb; cbn [fold_left length]; [cbn; lia|]. apply Forall_cons in Hb as [Hb Hr].
    specialize (IH (acc * 256 + b) ltac:(lia) Hr). rewrite Nat2Z.inj_succ, Z.pow_succ_r by lia. pose proof (Z.pow_pos_nonneg 256 (Z.of_nat (length item)) ltac:(lia) ltac:(lia)). nia. }
  intros Hb. specialize (Hgen 0 ltac:(lia) Hb). lia.
Qed.

Lemma AddrFromSlice_well_formed item a : bytes item → AddrFromSlice item = Some a → well_formed a.
Proof.
  intros Hb. pose proof (big_endian_range item Hb) as Hr. unfold AddrFromSlice.
  destruct (Nat.eqb_spec (length item) 4) as [E|]; [intros [= <-]; by rewrite E in Hr|].
  destruct (Nat.eqb_spec (length item) 16) as [E|]; [intros [= <-]; by rewrite E in Hr|done].
Qed.

(** ** Resolution *)

(** The addresses a host stands for: itself, or the answers of the resolver. *)
Definition stands_for (resolver : Resolver) (host : string) (a : Addr) : Prop :=
  match ParseAddr host with
  | Some literal => a = Unmap literal
  | None => ∃ answers item address, resolver host = Ok answers ∧ item ∈ answers ∧ AddrFromSlice item = Some address ∧ a = Unmap address
  end.

Definition answers_bytes (resolver : Resolver) : Prop := ∀ host answers, resolver host = Ok answers → Forall bytes answers.

Lemma check_answer_Ok item a : check_answer item = Ok a ↔ ∃ address, AddrFromSlice item = Some address ∧ a = Unmap address ∧ validateAddress a = Ok tt.
Proof.
  unfold check_answer. destruct (AddrFromSlice item) as [address|]; [|naive_solver]. destruct (validateAddress (Unmap address)) as [[]|e] eqn:E; cbn; [naive_solver|].
  split; [done|]. intros (? & [= <-] & -> & ?). congruence.
Qed.

Lemma CompareAddr_lawful : Lawful (fun _ => True) CompareAddr.
Proof.
  assert (∀ f : Addr → Z, Lawful (fun _ => True) (fun a b => order (f a ?= f b))) as Hkey.
  { intros f. split; intros.
    - destruct (Z.compare_spec (f x) (f y)), (Z.compare_spec (f y) (f x)); cbn; (lia || done).
    - destruct (Z.compare_spec (f x) (f y)), (Z.compare_spec (f y) (f z)), (Z.compare_spec (f x) (f z)); cbn in *; lia. }
  pose proof (text_lawful (fun _ => True) zone_of) as Hzone.
  apply (lawful_ext _ (then_by (fun a b => order (BitLen a ?= BitLen b)) (then_by (fun a b => order (value a ?= value b)) (fun a b => Compare (zone_of a) (zone_of b)))));
    [apply then_by_lawful; [apply Hkey|apply then_by_lawful; [apply Hkey|done]]|].
  intros x y _ _. unfold CompareAddr, then_by. destruct (Z.compare_spec (BitLen x) (BitLen y)) as [->| |]; cbn [order Z.eqb]; [|rewrite (proj2 (Z.eqb_neq _ _)) by lia; done..].
  rewrite Z.eqb_refl. cbn [negb]. destruct (Z.compare_spec (value x) (value y)) as [->| |]; cbn [order Z.eqb]; [by rewrite Z.eqb_refl|rewrite (proj2 (Z.eqb_neq _ _)) by lia; done..].
Qed.

Lemma CompareAddr_zero a b : CompareAddr a b = 0 → a = b.
Proof.
  unfold CompareAddr. destruct (Z.eqb_spec (BitLen a) (BitLen b)) as [E|E]; cbn [negb]; [|destruct (Z.compare_spec (BitLen a) (BitLen b)); cbn; lia].
  destruct (Z.eqb_spec (value a) (value b)) as [V|V]; cbn [negb]; [|destruct (Z.compare_spec (value a) (value b)); cbn; lia].
  intros Hz%Compare_0. destruct a, b; cbn in *; congruence.
Qed.

Lemma resolve_Ok resolver arrange host maxIPs addresses : answers_bytes resolver → (∀ l, arrange l ≡ₚ l) → resolve resolver arrange host maxIPs = Ok addresses →
  addresses ≠ [] ∧ NoDup addresses ∧ StronglySorted (le_by CompareAddr) addresses ∧ Forall public addresses ∧ Forall well_formed addresses ∧ ∀ a, a ∈ addresses ↔ stands_for resolver host a.
Proof.
  intros Hbytes Harr. unfold resolve, stands_for. destruct (ParseAddr host) as [literal|] eqn:Hlit.
  - destruct (validateAddress (Unmap literal)) as [[]|] eqn:Hv; [|done]. intros [= <-]. apply ParseAddr_well_formed in Hlit as [Hw _].
    apply Unmap_well_formed in Hw. apply validateAddress_public in Hv; [|done|apply Unmap_Unmap].
    split_and!; [done|apply NoDup_singleton|by repeat constructor|by apply Forall_singleton|by apply Forall_singleton|]. intros a. by rewrite list_elem_of_singleton.
  - destruct (resolver host) as [answers|] eqn:Hres; [|done]. destruct (_ || _) eqn:Hlen; [done|]. destruct (map_result check_answer answers) as [found|] eqn:Hm; [|done]. intros [= <-].
    pose proof (map_result_Forall2 _ _ _ Hm) as HF. specialize (Hbytes _ _ Hres).
    assert (∀ a, a ∈ found ↔ ∃ item address, item ∈ answers ∧ AddrFromSlice item = Some address ∧ a = Unmap address) as Hin.
    { intros a. split.
      - intros [i Hi]%list_elem_of_lookup. destruct (Forall2_lookup_r _ _ _ _ _ HF Hi) as (item & Hitem & (address & ? & ? & _)%check_answer_Ok). exists item, address. split; [by eapply list_elem_of_lookup_2|done].
      - intros (item & address & [i Hi]%list_elem_of_lookup & Ha & ->). destruct (Forall2_lookup_l _ _ _ _ _ HF Hi) as (a & Hfound & (address' & Ha' & -> & _)%check_answer_Ok).
        rewrite Ha in Ha'. injection Ha' as <-. by eapply list_elem_of_lookup_2. }
    assert (Forall (fun a => public a ∧ well_formed a) found) as Hpub.
    { apply Forall_forall. intros a [i Hi]%list_elem_of_lookup. destruct (Forall2_lookup_r _ _ _ _ _ HF Hi) as (item & Hitem & (address & Ha & -> & Hv)%check_answer_Ok).
      rewrite Forall_forall in Hbytes. apply list_elem_of_lookup_2, Hbytes in Hitem. apply AddrFromSlice_well_formed, Unmap_well_formed in Ha; [|done].
      split; [|done]. by apply validateAddress_public; [|apply Unmap_Unmap|]. }
    set (sorted := SortStableFunc CompareAddr (arrange (remove_dups found))).
    assert (sorted ≡ₚ remove_dups found) as Hp by (unfold sorted; by rewrite SortStableFunc_perm, Harr).
    assert (∀ a, a ∈ sorted ↔ a ∈ found) as Hs by (intros a; rewrite Hp; apply elem_of_remove_dups). split_and!.
    + intros E. destruct answers as [|item answers]; [done|]. apply Forall2_cons_inv_l in HF as (a & found' & _ & _ & ->).
      apply (not_elem_of_nil a). rewrite <- E, Hs. left.
    + rewrite Hp. apply NoDup_remove_dups.
    + apply (sort_sorted (fun _ => True)); [apply CompareAddr_lawful|by apply Forall_forall].
    + rewrite Forall_forall in Hpub. apply Forall_forall. intros a Ha%Hs. by apply Hpub.
    + rewrite Forall_forall in Hpub. apply Forall_forall. intros a Ha%Hs. by apply Hpub.
    + intros a. rewrite Hs, Hin. naive_solver.
Qed.

(** ** Decisions *)

Section Decisions.
Context `{GoText} `{!NetNames}.

Lemma Validate_decides policy arrange context rawURL d : Validate policy arrange context rawURL = Ok d →
  ∃ resolver parsed host, po_Resolver policy = Some resolver ∧ 0 < len rawURL ≤ or_default (po_MaxURLBytes policy) DefaultMaxURLBytes ∧ ParseRequestURI rawURL = Some parsed ∧
    (u_Scheme parsed = "https" ∨ po_AllowHTTP policy = true ∧ u_Scheme parsed = "http") ∧ u_User parsed = None ∧ u_Fragment parsed = "" ∧
    ToASCII (TrimSuffix (ToLower (Hostname parsed)) ".") = Some host ∧ de_Host d = host ∧ destinationPort parsed = Ok (de_Port d) ∧ de_Port d ∈ allowed_ports policy ∧
    resolve resolver arrange host (or_default (po_MaxIPs policy) DefaultMaxIPs) = Ok (de_Addresses d).
Proof.
  unfold Validate. destruct context; [|done]. cbn [negb]. destruct (po_Resolver policy) as [resolver|]; [|done]. cbv zeta. intros E. passed E Hsize. passed E Hhash.
  destruct (ParseRequestURI rawURL) as [parsed|]; [|done]. passed E Hscheme. passed E Huser. passed E Hhost. destruct (ToASCII _) as [host|] eqn:Hascii; [|done]. passed E Hlen.
  destruct (destinationPort parsed) as [port|] eqn:Hport; [|done]. cbn [bind_result] in E. passed E Hallowed.
  destruct (resolve _ _ _ _) as [addresses|] eqn:Hres; [|done]. cbn [bind_result] in E. injection E as <-. cbn [de_Host de_Port de_Addresses].
  exists resolver, parsed, host. assert (0 ≤ len rawURL) by apply Nat2Z.is_nonneg. apply orb_false_iff in Huser as [Hu Hf].
  apply bool_decide_eq_false, eq_None_not_Some in Hu. bsimpl. apply bool_decide_eq_true in Hallowed. split_and!; done || lia.
Qed.

(** C28: An allowed destination is pinned to public addresses.  When [Validate] accepts a URL
    its scheme is https, or http where that is allowed, it has no user and no fragment,
    and its port is an allowed one.  The addresses of the decision are exactly those the
    host stands for: the literal address, or the resolver's answers, IPv4-mapped ones
    unmapped, each once and in order; there is at least one, and every one is public,
    outside all reserved ranges, so one reserved answer denies the whole destination.
    [DialAddress] gives, for the indices of the decision and no others, the text of one
    of these addresses with the port, and that text reads back as the address. *)
Theorem destination_pinned policy arrange context rawURL d resolver :
  po_Resolver policy = Some resolver → answers_bytes resolver → (∀ l, arrange l ≡ₚ l) →
  Validate policy arrange context rawURL = Ok d →
  (∃ parsed, ParseRequestURI rawURL = Some parsed ∧ (u_Scheme parsed = "https" ∨ po_AllowHTTP policy = true ∧ u_Scheme parsed = "http") ∧
     u_User parsed = None ∧ u_Fragment parsed = "" ∧ destinationPort parsed = Ok (de_Port d) ∧ de_Port d ∈ allowed_ports policy ∧
     ToASCII (TrimSuffix (ToLower (Hostname parsed)) ".") = Some (de_Host d)) ∧
  de_Addresses d ≠ [] ∧ NoDup (de_Addresses d) ∧ StronglySorted (le_by CompareAddr) (de_Addresses d) ∧
  Forall public (de_Addresses d) ∧ (∀ a, a ∈ de_Addresses d ↔ stands_for resolver (de_Host d) a) ∧
  ∀ index text, DialAddress d index = Ok text ↔
    0 ≤ index ∧ ∃ a, de_Addresses d !! Z.to_nat index = Some a ∧ ParseAddr (AddrString a) = Some a ∧ text = JoinHostPort (AddrString a) (pretty (de_Port d)).
Proof.
  intros Hr Hbytes Harr Hv. destruct (Validate_decides _ _ _ _ _ Hv) as (resolver' & parsed & host & Hr' & _ & Hp & Hs & Hu & Hf & Hascii & <- & Hport & Hallowed & Hres).
  rewrite Hr in Hr'. injection Hr' as <-. destruct (resolve_Ok _ _ _ _ _ Hbytes Harr Hres) as (Hne & Hnd & Hsort & Hpub & Hwf & Hin).
  split; [by exists parsed|]. split_and!; [done..|]. intros index text. unfold DialAddress. destruct (_ || _) eqn:Hrange.
  - split; [done|]. intros (Hpos & a & Ha & _). apply lookup_lt_Some in Ha. apply orb_true_iff in Hrange as [?%Z.ltb_lt|?%Z.leb_le]; lia.
  - apply orb_false_iff in Hrange as [Hpos%Z.ltb_ge _]. destruct (de_Addresses d !! Z.to_nat index) as [a|] eqn:Ha; [|naive_solver].
    rewrite Forall_forall in Hpub, Hwf. pose proof (list_elem_of_lookup_2 _ _ _ Ha) as Hia.
    assert (ParseAddr (AddrString a) = Some a) as Hround by (apply ParseAddr_AddrString; [by apply Hwf|specialize (Hpub a Hia); by destruct a]). naive_solver.
Qed.

End Decisions.

(** ** Witness *)

Definition sample_url : URL :=
  {| u_Scheme := "https"; u_Opaque := ""; u_User := None; u_Host := "Hooks.example.com:443"; u_Path := "/x"; u_RawPath := ""; u_OmitHost := false;
     u_ForceQuery := false; u_RawQuery := ""; u_Fragment := ""; u_RawFragment := "" |}.

Definition sample_names : NetNames := {|
  ToASCII s := if str_forall is_ascii s then Some s else None;
  ParseRequestURI s := if String.eqb s "https://Hooks.example.com:443/x" then Some sample_url else None;
  regexp_Compile s := true |}.

(** A name with an IPv4 answer, the same one mapped into IPv6, and an IPv6 answer. *)
Definition sample_resolver : Resolver := fun host =>
  if String.eqb host "hooks.example.com" then Ok [[42; 0] ++ repeat 0 13 ++ [7]; repeat 0 10 ++ [255; 255; 93; 184; 216; 34]; [93; 184; 216; 34]]
  else Err (Error "dns" "no such host").

Lemma sample_answers : answers_bytes sample_resolver.
Proof.
  intros host answers. unfold sample_resolver. destruct (String.eqb _ _); [|done]. intros [= <-]. cbn [repeat app].
  repeat (apply Forall_cons; split); try apply Forall_nil; try (repeat (apply Forall_cons; split); try lia; apply Forall_nil); done.
Qed.

Definition sample_decision : Decision :=
  {| de_URL := with_scheme_host sample_url "https" "hooks.example.com"; de_Host := "hooks.example.com"; de_Port := 443;
     de_Addresses := [Addr4 (quad 93 184 216 34); Addr6 (42 * 2 ^ 120 + 7) ""] |}.

Lemma destination_pinned_witness : Forall public (de_Addresses sample_decision) ∧ DialAddress sample_decision 1 = Ok "[2a00::7]:443".
Proof.
  destruct (@destination_pinned plain_text sample_names (DefaultPolicy (Some sample_resolver)) id true "https://Hooks.example.com:443/x" sample_decision sample_resolver)
    as (_ & _ & _ & _ & Hpub & _ & Hdial).
  - reflexivity.
  - exact sample_answers.
  - intros l. reflexivity.
  - vm_compute. reflexivity.
  - split; [exact Hpub|]. apply (proj2 (Hdial 1 "[2a00::7]:443")). split; [lia|]. exists (Addr6 (42 * 2 ^ 120 + 7) ""). split_and!; vm_compute; reflexivity.
Defined.

(** An answer inside a reserved range denies the destination, public ones beside it or not;
    a zone takes an address out of 2001:db8::/32. *)
Example reserved_denied :
  map (fun s => match ParseAddr s with Some a => negb (is_err (validateAddress (Unmap a))) | None => false end)
    ["93.184.216.34"; "10.0.0.1"; "::ffff:169.254.169.254"; "100.64.0.1"; "fd00::1"; "64:ff9b::a9fe:a9fe"; "2001:db8::1"; "2001:db8::1%0"] =
  [true; false; false; false; false; true; false; true].
Proof. vm_compute. reflexivity. Qed.

End NetPolicy.
